(* ===== verification/_CoqProject ===== *)
-Q . S2P
Prelude.v
Irq.v
I8259.v
HostUtils.v
I8254.v
Rtc.v
Ps2.v
PcKbd.v
Dma.v
Apic.v
IoApic.v
IoPort.v
Pc.v
Serial.v
X86Cpu.v
X86Trans.v
X86Alu.v
X86Int.v
X86Seg.v
X86Priv.v
X86Gate.v
SoftTlb.v
PhysMap.v
PhysReach.v
PhysDemo.v
RamList.v
DirtyLog.v
PhysRw.v
RamDemo.v
PhysRwDemo.v
X86Mmu.v
X86Walk.v
SoftMmu.v
SoftView.v
SoftDemo.v
Timer.v
Pci.v
PciIrq.v
Piix.v
PciCap.v
Fdc.v
FdcSafe.v
FdcData.v
