(* ===== verification/Prelude.v ===== *)
(** * The PC of P3aPC: QEMU 0.15.1 device models

    P3aPC runs a PC on a phone: QEMU 0.15.1 (src/qemu-0.15.1) behind an SDL
    front end.  This development models the devices that make the emulated
    machine a PC, the interrupt path, the timers, the keyboard and mouse, the
    serial port, the DMA controllers and the I/O port space, the emulator's own
    timer lists, the PCI bus with its interrupt router, the floppy controller, and
    of the x86 CPU the integer core (flags, arithmetic helpers), the whole of
    segmentation (segment loads, far transfers, gates, interrupts and task
    switches, in real and protected mode) and of memory management (control
    registers, page tables, the software TLB and the accesses over it), with the
    physical memory map, the RAM blocks and the log of dirty pages under it, and
    proves that they do what the chips promise and the guest relies on.

    ** The program and how the model follows it

    A device is a C struct with port handlers, timers and interrupt lines.  Here
    it is a record with the struct's fields and one definition per function,
    with the function's name.  A handler threads explicit state: the device,
    and a world [W] that holds whatever the device calls out to (the object
    behind an interrupt line, the CPUs, the attached devices).  Time is the
    argument [now], in nanoseconds of the virtual clock; a pending [QEMUTimer]
    is the field that holds its deadline.  [hw_error], which aborts the emulator,
    is the outcome [HwError].  C integers are [Z] with the truncation of each
    store written out.  Code outside these files is an argument of the
    definitions that call it.

    The interrupt path: a device raises a line ([Irq]); the line goes to the
    8259 pair ([I8259]) and to the I/O APIC ([IoApic]); the 8259 drives the CPU
    and LINT0 of the local APICs ([Apic]), the I/O APIC sends messages to them;
    an EOI at a local APIC is broadcast back.  The timers ([I8254], [Rtc]) and
    the keyboard controller ([PcKbd], over the PS/2 devices of [Ps2]) are
    sources of interrupts, as is the serial port ([Serial]).  The guest reaches
    every device through [IoPort].  The CPU ([X86Cpu], [X86Trans], [X86Alu],
    [X86Int], [X86Seg]) takes an interrupt by the vector the acknowledge returns.  Its
    memory accesses ([SoftMmu]) look into the translation cache ([SoftTlb]) and on
    a miss walk the page tables ([X86Mmu]).  The cache is filled from the physical
    memory map ([PhysMap]), which says for each page whether it is RAM in a block
    ([RamList]) or a zone with handlers; a page whose stores are logged is marked
    in the caches of all CPUs ([DirtyLog]).  Devices reach memory by copies and
    mappings of physical addresses ([PhysRw]).  Deadlines
    of all devices live in the lists of [Timer].  PCI devices ([Pci]) share
    interrupt inputs that are counted ([PciIrq]) and routed to ISA lines by the
    PIIX3 ([Piix]).

    ** Files

    - [Prelude]: this header; record update, C integers, bit and array lemmas,
      the hint databases [width] and [bits], step-relation invariants.
    - [Irq]: hw/irq.c, hw/irq.h.  Lines as handlers on the world.
    - [I8259]: hw/i8259.c.  [PicState], [PicState2]; every port, line and
      acknowledge operation.
    - [HostUtils]: qemu-common.h ([muldiv64]), host-utils.c, host-utils.h.
    - [I8254]: hw/i8254.c.  [PITChannelState], the channel-0 timer and line.
    - [Rtc]: hw/mc146818rtc.c, with the class [IrqDelivered] it needs of the
      APICs for re-injecting lost ticks.
    - [Ps2]: hw/ps2.c.  Queues, keyboard and mouse protocols.
    - [PcKbd]: hw/pckbd.c.  The i8042 with both devices behind it; the class
      [KbdLines] names its two outputs.
    - [Dma]: hw/dma.c.  Both 8237s, the transfer loop and the memory copies.
    - [Apic]: hw/apic.c.  Local APIC registers, priorities, timer, and the bus
      of all local APICs; implements [IrqDelivered].
    - [IoApic]: hw/ioapic.c.  The class [IntrBus] is what it needs of the
      machine; the section [WithApic] implements it with [Apic] and closes the
      loop of the EOI broadcast.
    - [IoPort]: ioport.c, ioport.h, iorange.h.  Handler tables and dispatch.
    - [Pc]: hw/pc.c.  The chips wired together: ISA lines, the 8259's output,
      the CPU's acknowledge.
    - [Serial]: hw/serial.c.  [SerialFIFO], [SerialState]; every port, the
      transmitter, the receiver and its time-out, modem lines, reset.
    - [X86Cpu]: target-i386/cpu.h, helper_template.h, exec.h.  [CPUX86State], the
      lazy flags of every operation and width, the rotates through carry.
    - [X86Trans]: target-i386/translate.c.  What the emitted code of the ALU
      group, INC, DEC, NEG, RCL and RCR does to registers and flags.
    - [X86Alu]: target-i386/op_helper.c.  Exceptions, division, BCD adjustment,
      bit scans, the 128-bit division.
    - [X86Int]: target-i386/op_helper.c.  Real-mode interrupts, IRET, far calls;
      the class [KernelMem] is what they need of guest memory.
    - [X86Seg]: target-i386/op_helper.c, cpu.h.  Segments, gates, task switches
      and returns of protected mode.  A helper is a computation that ends
      normally, by an exception or by a page fault; the class [SysHost] is the
      machine: memory through the MMU, the TLB, the breakpoints.
    - [X86Priv]: the laws a machine keeps ([SysLaws]), a weakest-precondition
      calculus for the helpers, and the privilege invariant proved with it.
    - [X86Gate]: machines with plain memory, what a handler finds, concrete
      guests, and the agreement of [X86Int] with [X86Seg].
    - [SoftTlb]: exec.c, cpu-defs.h, cpu-all.h.  The translation cache: flushes,
      the region of large pages, fills, dirty pages; the class [Board] is what it
      needs of the physical memory map.
    - [PhysMap]: exec.c, cpu-common.h.  The three-level page map, I/O zones, pages
      shared by zones, registration; what an address reaches.
    - [PhysReach]: the invariant of the map, and registrations against [reach].
    - [PhysDemo]: a map with RAM, a timer's and a shared page, and registrations
      that lose memory.
    - [RamList]: exec.c, cpu-all.h.  RAM blocks, their offsets and host pointers,
      the flags of pages.
    - [DirtyLog]: exec.c.  The machine of [PhysMap] and [RamList] implements
      [Board]; clearing flags, stores to marked pages, the promise of the log.
    - [PhysRw]: exec.c, cpu-common.h.  Copies to and from physical memory, single
      accesses, writing ROM, mapping for a device with the bounce buffer; the
      handlers of I/O zones are arguments.
    - [RamDemo], [PhysRwDemo]: blocks, a logged page, copies and mappings on a
      concrete machine, and where the promises end.
    - [X86Mmu]: target-i386/helper.c.  CR0, CR3, CR4, the A20 gate, the page table
      walk and the debugger's; the class [PhysMem] is the memory with the tables.
    - [X86Walk]: the tables as a radix tree, the reference for the walk.
    - [SoftMmu]: softmmu_template.h, [tlb_fill] of op_helper.c.  Loads, fetches and
      stores; the class [Host] is host memory, the I/O handlers and the restoring
      of the guest state, [HostLaws] what is asked of them.
    - [SoftView]: the cache against the tables over all a guest does.
    - [SoftDemo]: a concrete machine, and cases in which the walk departs from
      the processor.
    - [Timer]: qemu-timer.c.  Timer lists as pointers, the run loop, the alarm,
      the cycle counter; the class [TimerCallbacks] is what the loop needs of
      the devices' callbacks.
    - [Pci]: hw/pci.c, pci.h, pci_regs.h, pci_bridge.c, range.h.  Devices and
      buses in tables indexed by [Z], configuration space with its masks, base
      address registers, reset, registration, capabilities, lookup by address;
      the class [PciHost] is what a bus needs of the machine.
    - [PciIrq]: the shared interrupt counters and the mapping invariant.
    - [Piix]: hw/piix_pci.c, pci_host.c.  The PIIX3 implements [PciHost]; the
      class [PicLines] is what it needs of the interrupt controller; the
      configuration ports.
    - [PciCap]: the capability list as a list of offsets.
    - [Fdc]: hw/fdc.c, with the geometry table of block.c.  [FDrive], [FDCtrl];
      every register, command and transfer; the class [FdcHost] is what it needs
      of the DMA controller and the block device.
    - [FdcSafe]: the phases of the controller and the bounds of its FIFO.
    - [FdcData]: what a read command puts into memory.

    ** What the theorems show

    - [I8259]: priority resolution picks the winner the data sheet defines; the
      acknowledge cycle on every branch, cascade and spurious interrupts
      included; edge and level inputs; the initialisation sequence; the only
      port write that aborts; the invariant of all reachable states, on which
      the termination of the priority loop rests.
    - [I8254]: the next output change is computed exactly outside mode 2, and what
      is computed there; the rate generator raises its line once per period (with the case in which it does not);
      programming and latching of counts; the invariant.
    - [Rtc]: the calendar successor; register formats round-trip; the periodic
      interrupt does not drift; the update cycle; register writes.
    - [Ps2], [PcKbd]: the ring buffer is a bounded FIFO; a mouse movement of any
      size is sent in finitely many packets that add up to it; wheel detection;
      the controller's status, pending mask and lines stay in step with the
      queues; what port 0x60 returns.
    - [Dma]: one pass serves exactly the channels that are active at their turn,
      whatever the handlers do; programming reads back; the invariant, and which
      channel each port selects.
    - [Apic], [IoApic]: acknowledge and EOI; which APICs a message reaches; the
      timer grid; servicing of pins; no undelivered request in any reachable
      state; redirection-table accesses; the level-triggered protocol across
      both chips.
    - [IoPort]: registration and dispatch, owner conflicts, word accesses.
    - [Pc]: a key press reaches the guest, from the host event through the
      keyboard controller, the 8259 and LINT0 to the vector and port 0x60.
    - [HostUtils]: exactness of the scaled multiplication, the 128-bit products
      and the bit counts.
    - [Serial]: FIFOs, line and identification register in step in every state
      reached with the interrupt enable register written only while the
      transmitter is ready; what is sent in loopback is received in order.
    - [X86Trans]: result and six flags of the ALU operations agree with integer
      arithmetic; INC and DEC keep the carry; RCR undoes RCL.
    - [X86Alu]: divide errors and exact quotients; decimal addition and
      subtraction; the bit scans terminate with the right index; the 64-step
      division is exact.
    - [X86Int]: an interrupt followed by IRET restores the machine.
    - [X86Priv]: over all sequences of segment loads, far transfers, interrupts
      and task switches no segment register gives more than its descriptor and
      the privilege level allow, with the two ways out (a call gate to a more
      privileged conforming segment, SYSEXIT with data registers left loaded);
      returns never gain privilege.
    - [X86Gate]: interrupts enter only through the gate of their vector; the ways
      in which a guest's user code gains more than the processor grants.
    - [SoftTlb]: invalidating an address leaves nothing cached of the guest page,
      of any size, that holds it.
    - [PhysReach]: a registration changes what its range reaches and nothing else,
      over all sequences of registrations that follow the rules.
    - [RamList]: blocks stay apart while allocations find a gap; pointers and
      offsets go back and forth.
    - [DirtyLog]: no store to RAM escapes the log of dirty pages, on any CPU, while
      stores go through entries of the page stored to; clearing flags takes effect
      on every cache and, below 2 GB, on every page.
    - [PhysRw]: a copy over any pages is a copy byte by byte, and marks exactly the
      pages written; single accesses are copies; DMA through a mapping is a copy.
    - [X86Walk]: the page table walk is the radix tree's translation, with its
      rights, error codes, and accessed and dirty marks.
    - [SoftMmu]: every access ends.
    - [SoftView]: a load or fetch reads what the current tables say, whatever the
      cache holds, as long as the guest reloads CR3 after a change to its tables.
    - [Timer]: arming refines insertion in a sorted list; the run loop fires
      exactly the expired timers in order; timers survive save and restore; the
      alarm is never late; the cycle counter is monotone.
    - [Pci], [PciIrq]: what a configuration write changes; the counters equal the
      number of asserted pins routed to them over all sequences of operations
      (with the three cases in which they do not); regions stay mapped where the
      registers say, with the calls that take.
    - [Piix]: an ISA line is high exactly if an asserted PCI pin is routed to it
      (byte writes to the upper half of a command register excepted).
    - [PciCap]: adding, finding and deleting capabilities.
    - [FdcSafe]: the phase and the FIFO index stay in order over all sequences of
      operations, and exactly which states an access can go wrong in; the
      command that overruns the FIFO.
    - [FdcData]: command bytes, seek, sector order and DMA together read the
      sectors the command names.

    ** Bounds and fuel

    Loops with a fixed trip count are folds over the list of indices (24 pins,
    8 channels, 256 APIC slots) or structural recursion.  [get_priority] has
    fuel 8 and its theorem shows that the loop exits within it.  The packet loop
    of [ps2_mouse_event] has fuel and a theorem that the movement in it bounds
    the number of turns.  The bit scans have 33 turns, one more than the bits of
    a register; [div64] runs its 64 turns.  A walk over a timer list has one turn
    per allocated timer and one for the end, enough for every list without a
    cycle; [qemu_run_timers] takes its fuel as an argument, since callbacks may
    re-arm timers, and its theorem says how much is enough.  Walks up the PCI
    bridges have one turn per bus; the capability list has 257 turns, one more
    than there are offsets.  The transfer loop of the floppy controller has one
    turn per sector of the request and two more.  The region of large pages widens
    in at most 32 steps and has 33 turns; a registration has a turn for each page of
    its size; a copy or a mapping has a turn for each byte, since each moves one at
    least; a memory access has its fuel as an
    argument, and six passes through the lookup are proved enough.  Deadlines are
    assumed below 2^63 nanoseconds where a theorem says so.

    ** Not modelled

    The instruction decoder and TCG with its cache of translated code, coalesced
    MMIO, RAM in files, the FPU and SSE, SVM, SMM
    and 64-bit mode, the block layer and disk controllers, MSI, option ROMs and hot plug of PCI, the memory
    windows of the i440FX, display, sound, network and USB, the monitor, migration (but for [post_load] hooks),
    other targets, SDL and the Java shell.  Initialisation functions set up the
    device state; their registration of ports, memory regions, reset handlers
    and migration descriptions is not part of them here.  Debug and trace
    output is omitted.

    ** Plan

    In order of what they would add: [SoftMmu] under [SysHost] and over the memory
    of [PhysRw]; the port registrations of the
    devices over [IoPort] and the timer tick end to end; the JSON parser and
    QDict; the memory windows of the i440FX and the ACPI block; qcow2 metadata. *)

From stdpp Require Export base list gmap relations numbers.
From Stdlib Require Export ZArith Lia.
From Stdlib Require Export Btauto.

#[global] Open Scope Z_scope.

(** ** Functional record update

    The C code mutates one field of a struct at a time ([s->irr |= mask]).
    [Eta R] lists the fields of a record once; from it the tactic behind
    [Setter] derives the update of any one field, written
    [s <| irr := v |>]. *)

Class Eta (R : Type) := eta : R -> R.

Class Setter {R T : Type} (proj : R -> T) := over : (T -> T) -> R -> R.

Ltac build_setter :=
  lazymatch goal with
  | |- @Setter ?R ?T ?proj =>
      let e := constr:(_ : Eta R) in
      let body := eval hnf in e in
      let p := eval pattern proj in body in
      lazymatch p with
      | ?f proj =>
          let t := constr:(fun (g : T -> T) (r : R) => f (fun r' => g (proj r')) r) in
          let t' := eval cbv beta in t in
          exact t'
      end
  end.

#[export] Hint Extern 1 (Setter _) => build_setter : typeclass_instances.

Notation "s <| f := v |>" := (over (proj := f) (fun _ => v) s)
  (at level 1, left associativity, f at level 0, v at level 200,
   format "s <| f  :=  v |>").

(** ** C integer expressions

    Integers are [Z].  A store to a [uintN_t] truncates with [uN]; a
    conversion to [intN_t] reinterprets with [sN].  Bitwise operators act on
    the two's complement reading of [Z], as the compilers the code targets do. *)

Declare Scope c_scope.
Delimit Scope c_scope with C.
Notation "x .& y" := (Z.land x y) (at level 42, left associativity) : c_scope.
Notation "x .| y" := (Z.lor x y) (at level 46, left associativity) : c_scope.
Notation "x .^ y" := (Z.lxor x y) (at level 44, left associativity) : c_scope.
Notation "x << n" := (Z.shiftl x n) (at level 38, left associativity) : c_scope.
Notation "x >> n" := (Z.shiftr x n) (at level 38, left associativity) : c_scope.
Notation "~~ x" := (Z.lnot x) (at level 30, right associativity) : c_scope.
#[global] Open Scope c_scope.

Definition wrap (w x : Z) : Z := x mod 2 ^ w.
Definition u8 (x : Z) : Z := x mod 256.
Definition u16 (x : Z) : Z := x mod 65536.
Definition u32 (x : Z) : Z := x mod 4294967296.
Definition u64 (x : Z) : Z := x mod 18446744073709551616.
Definition s32 (x : Z) : Z :=
  if u32 x <? 2147483648 then u32 x else u32 x - 4294967296.
Definition s64 (x : Z) : Z :=
  if u64 x <? 9223372036854775808 then u64 x else u64 x - 18446744073709551616.

(** C truth of an integer, and the [0]/[1] value of a comparison. *)
Definition truthy (x : Z) : bool := negb (x =? 0).
Definition b2z (b : bool) : Z := if b then 1 else 0.

(** [x & m] used as a condition. *)
Definition tst (x m : Z) : bool := truthy (x .& m).

(** The unsigned ranges. *)
Definition in_u (w x : Z) : Prop := 0 <= x < 2 ^ w.

#[global] Instance in_u_dec w x : Decision (in_u w x).
Proof. unfold in_u. apply _. Defined.

(** C arrays: a list with the index check left to the caller.  Reads out of
    range give 0 and writes out of range do nothing; the theorems about array
    code prove the index in range. *)
Definition aget (l : list Z) (i : Z) : Z := nth (Z.to_nat i) l 0.
Definition aset (l : list Z) (i v : Z) : list Z := <[Z.to_nat i := v]> l.

Create HintDb width.
Create Rewrite HintDb bits.

(** ** Lemmas on widths *)

Lemma u8_id x : in_u 8 x -> u8 x = x.
Proof. intros H. apply Z.mod_small. exact H. Qed.

Lemma u16_id x : in_u 16 x -> u16 x = x.
Proof. intros H. apply Z.mod_small. exact H. Qed.

Lemma u32_id x : in_u 32 x -> u32 x = x.
Proof. intros H. apply Z.mod_small. exact H. Qed.

Lemma u64_id x : in_u 64 x -> u64 x = x.
Proof. intros H. apply Z.mod_small. exact H. Qed.

Lemma s32_id x : -2147483648 <= x < 2147483648 -> s32 x = x.
Proof.
  intros H. unfold s32, u32.
  destruct (Z.ltb_spec (x mod 4294967296) 2147483648);
    Z.div_mod_to_equations; lia.
Qed.

Lemma s64_id x : -9223372036854775808 <= x < 9223372036854775808 -> s64 x = x.
Proof.
  intros H. unfold s64, u64.
  destruct (Z.ltb_spec (x mod 18446744073709551616) 9223372036854775808);
    Z.div_mod_to_equations; lia.
Qed.

Lemma u8_range x : in_u 8 (u8 x).
Proof. apply Z.mod_pos_bound. lia. Qed.

Lemma u16_range x : in_u 16 (u16 x).
Proof. apply Z.mod_pos_bound. lia. Qed.

Lemma u32_range x : in_u 32 (u32 x).
Proof. apply Z.mod_pos_bound. lia. Qed.

Lemma u64_range x : in_u 64 (u64 x).
Proof. apply Z.mod_pos_bound. lia. Qed.

#[export] Hint Resolve u8_range u16_range u32_range u64_range : width.

(** A value is [w] bits wide exactly when every bit from [w] up is clear. *)
Lemma in_u_bits w x : 0 <= w ->
  in_u w x <-> 0 <= x /\ forall i, w <= i -> Z.testbit x i = false.
Proof.
  intros Hw. unfold in_u. split.
  - intros [H0 H1]. split; [done|]. intros i Hi.
    rewrite <- (Z.mod_small x (2 ^ w)) by lia.
    now apply Z.mod_pow2_bits_high.
  - intros [H0 Hb]. split; [done|].
    destruct (decide (x = 0)) as [->|]; [apply Z.pow_pos_nonneg; lia|].
    apply Z.log2_lt_pow2; [lia|].
    destruct (Z.lt_ge_cases (Z.log2 x) w) as [|Hge]; [done|].
    specialize (Hb _ Hge). rewrite Z.bit_log2 in Hb; [discriminate|lia].
Qed.

Lemma testbit_in_u_high w x i : 0 <= w -> in_u w x -> w <= i -> Z.testbit x i = false.
Proof. intros Hw H Hi. apply in_u_bits in H as [_ H]; auto. Qed.

Lemma in_u_land w x y : 0 <= w -> in_u w x -> in_u w (x .& y).
Proof.
  intros Hw Hx. apply in_u_bits; [done|]. apply in_u_bits in Hx as [H0 Hb]; [|done].
  split; [apply Z.land_nonneg; auto|]. intros i Hi. now rewrite Z.land_spec, Hb.
Qed.

Lemma in_u_land_r w x y : 0 <= w -> in_u w y -> in_u w (x .& y).
Proof. intros. rewrite Z.land_comm. now apply in_u_land. Qed.

Lemma in_u_lor w x y : 0 <= w -> in_u w x -> in_u w y -> in_u w (x .| y).
Proof.
  intros Hw Hx Hy. apply in_u_bits; [done|].
  apply in_u_bits in Hx as [Hx0 Hx]; [|done]. apply in_u_bits in Hy as [Hy0 Hy]; [|done].
  split; [apply Z.lor_nonneg; auto|]. intros i Hi. now rewrite Z.lor_spec, Hx, Hy.
Qed.

Lemma in_u_lxor w x y : 0 <= w -> in_u w x -> in_u w y -> in_u w (x .^ y).
Proof.
  intros Hw Hx Hy. apply in_u_bits; [done|].
  apply in_u_bits in Hx as [Hx0 Hx]; [|done]. apply in_u_bits in Hy as [Hy0 Hy]; [|done].
  split; [apply Z.lxor_nonneg; lia|]. intros i Hi. now rewrite Z.lxor_spec, Hx, Hy.
Qed.

Lemma in_u_bit w i : 0 <= i < w -> in_u w (1 << i).
Proof.
  intros H. unfold in_u. rewrite Z.shiftl_1_l. split; [apply Z.pow_nonneg; lia|].
  apply Z.pow_lt_mono_r; lia.
Qed.

Lemma in_u_shiftr w x n : 0 <= n -> in_u w x -> in_u w (x >> n).
Proof.
  intros Hn [H0 H1]. unfold in_u. rewrite Z.shiftr_div_pow2 by done.
  assert (0 < 2 ^ n) by (apply Z.pow_pos_nonneg; lia).
  split; [apply Z.div_pos; lia|].
  apply Z.le_lt_trans with x; [|done]. apply Z.div_le_upper_bound; nia.
Qed.

Lemma in_u_mono w w' x : 0 <= w <= w' -> in_u w x -> in_u w' x.
Proof.
  intros Hw [H0 H1]. split; [done|].
  apply Z.lt_le_trans with (2 ^ w); [done|]. apply Z.pow_le_mono_r; lia.
Qed.

Lemma in_u_b2z w b : 1 <= w -> in_u w (b2z b).
Proof.
  intros. apply in_u_mono with 1; [lia|]. destruct b; now compute.
Qed.

#[export] Hint Resolve in_u_land in_u_lor in_u_lxor in_u_shiftr in_u_b2z : width.
#[export] Hint Extern 4 (in_u _ (1 << _)) => apply in_u_bit : width.
#[export] Hint Extern 5 (in_u _ (_ .& _)) => apply in_u_land_r : width.
#[export] Hint Extern 1 (0 <= _) => lia : width.
#[export] Hint Extern 1 (_ <= _) => lia : width.
#[export] Hint Extern 1 (_ <= _ < _) => lia : width.
#[export] Hint Extern 3 (in_u _ _) => (unfold in_u; lia) : width.
#[export] Hint Extern 1 (in_u _ ?x) =>
  (lazymatch x with
   | 0 => idtac
   | Z.pos _ => idtac
   end; compute; split; [discriminate | reflexivity]) : width.

(** ** Lemmas on bits *)

Lemma testbit_one_shift i n : 0 <= i -> 0 <= n -> Z.testbit (1 << i) n = (n =? i).
Proof.
  intros Hi Hn. rewrite Z.shiftl_1_l.
  destruct (Z.eqb_spec n i) as [->|].
  - now apply Z.pow2_bits_true.
  - apply Z.pow2_bits_false. lia.
Qed.

Lemma lnot_spec' x n : 0 <= n -> Z.testbit (~~ x) n = negb (Z.testbit x n).
Proof. intros. now apply Z.lnot_spec. Qed.

Lemma u8_bits x n : 0 <= n -> Z.testbit (u8 x) n = (n <? 8) && Z.testbit x n.
Proof.
  intros. unfold u8. change 256 with (2 ^ 8). destruct (Z.ltb_spec n 8).
  - now rewrite Z.mod_pow2_bits_low.
  - now rewrite Z.mod_pow2_bits_high by lia.
Qed.

Lemma u32_bits x n : 0 <= n -> Z.testbit (u32 x) n = (n <? 32) && Z.testbit x n.
Proof.
  intros. unfold u32. change 4294967296 with (2 ^ 32). destruct (Z.ltb_spec n 32).
  - now rewrite Z.mod_pow2_bits_low.
  - now rewrite Z.mod_pow2_bits_high by lia.
Qed.

Lemma u64_bits x n : 0 <= n -> Z.testbit (u64 x) n = (n <? 64) && Z.testbit x n.
Proof.
  intros. unfold u64. change 18446744073709551616 with (2 ^ 64). destruct (Z.ltb_spec n 64).
  - now rewrite Z.mod_pow2_bits_low.
  - now rewrite Z.mod_pow2_bits_high by lia.
Qed.

Lemma tst_bit x i : 0 <= i -> tst x (1 << i) = Z.testbit x i.
Proof.
  intros Hi. unfold tst, truthy.
  destruct (Z.testbit x i) eqn:E.
  - apply negb_true_iff, Z.eqb_neq. intros H0.
    assert (Z.testbit (x .& (1 << i)) i = true) as H1
      by (rewrite Z.land_spec, E, testbit_one_shift, Z.eqb_refl by lia; done).
    rewrite H0, Z.bits_0 in H1. discriminate.
  - apply negb_false_iff, Z.eqb_eq, Z.bits_inj'. intros n Hn.
    rewrite Z.land_spec, testbit_one_shift, Z.bits_0 by lia.
    destruct (Z.eqb_spec n i) as [->|]; [rewrite E|]; auto using andb_false_r.
Qed.

Lemma land_ones_mod x k m : 0 <= k -> m = Z.ones k -> x .& m = x mod 2 ^ k.
Proof. intros Hk ->. now apply Z.land_ones. Qed.

Lemma land_7 x : x .& 7 = x mod 8.
Proof. now apply (land_ones_mod x 3). Qed.

Lemma land_1 x : x .& 1 = x mod 2.
Proof. now apply (land_ones_mod x 1). Qed.

Lemma land_range x k m : 0 <= k -> m = Z.ones k -> 0 <= x .& m <= m.
Proof.
  intros Hk ->. rewrite Z.land_ones by done. pose proof (Z.mod_pos_bound x (2 ^ k)).
  assert (0 < 2 ^ k) by (apply Z.pow_pos_nonneg; lia). rewrite Z.ones_equiv. lia.
Qed.

Lemma land_bit_eqb x i : 0 <= i -> ((x .& (1 << i)) =? 0) = negb (Z.testbit x i).
Proof.
  intros Hi. rewrite <- (tst_bit x i Hi). unfold tst, truthy. now rewrite negb_involutive.
Qed.

(** A non-zero value has a set bit. *)
Lemma nonzero_bit w x : 0 <= w -> in_u w x -> x <> 0 ->
  exists i, 0 <= i < w /\ Z.testbit x i = true.
Proof.
  intros Hw [H0 H1] Hne. exists (Z.log2 x). split.
  - split; [apply Z.log2_nonneg|]. apply Z.log2_lt_pow2; lia.
  - apply Z.bit_log2. lia.
Qed.

#[export] Hint Rewrite Z.land_spec Z.lor_spec Z.lxor_spec Z.ldiff_spec Z.bits_0 : bits.
#[export] Hint Rewrite lnot_spec' testbit_one_shift u8_bits u32_bits u64_bits
  Z.shiftr_spec using lia : bits.
#[export] Hint Rewrite andb_true_r andb_false_r orb_true_r orb_false_r
  andb_true_l andb_false_l orb_true_l orb_false_l : bits.

(** Decide the comparisons between bit indices that occur in the goal. *)
Ltac split_eqb :=
  repeat match goal with
  | |- context [Z.eqb ?a ?b] =>
      destruct (Z.eqb_spec a b); [try subst | ]; try lia
  | |- context [Z.ltb ?a ?b] => destruct (Z.ltb_spec a b); try lia
  end.

(** Equality of integers bit by bit. *)
Ltac bitwise :=
  apply Z.bits_inj'; intros ?n ?Hn; autorewrite with bits; split_eqb;
  autorewrite with bits; try btauto.

Lemma land_bit x i : 0 <= i -> x .& (1 << i) = if Z.testbit x i then 1 << i else 0.
Proof.
  intros Hi. destruct (Z.testbit x i) eqn:E; bitwise. all: congruence.
Qed.

(** Concatenation of a low part of [k] bits with a high part. *)
Lemma lor_shift k a b : 0 <= k -> in_u k a -> a .| (b << k) = a + 2 ^ k * b.
Proof.
  intros Hk Ha. pose proof (Z.add_lor_land a (b << k)) as H.
  assert (a .& (b << k) = 0) as Hz.
  { apply Z.bits_inj'. intros i Hi. rewrite Z.land_spec, Z.shiftl_spec, Z.bits_0 by done.
    destruct (Z.lt_ge_cases i k).
    - rewrite (Z.testbit_neg_r b) by lia. apply andb_false_r.
    - now rewrite (testbit_in_u_high k a i). }
  rewrite Z.shiftl_mul_pow2 in * by done. lia.
Qed.

(** ** Lemmas on arrays *)

Lemma length_aset l i v : length (aset l i v) = length l.
Proof. apply length_insert. Qed.

Lemma aget_aset_eq l i v : 0 <= i < Z.of_nat (length l) -> aget (aset l i v) i = v.
Proof.
  intros H. unfold aget, aset. rewrite nth_lookup, list_lookup_insert_eq; [done|lia].
Qed.

Lemma aget_aset_ne l i j v : 0 <= i -> 0 <= j -> i <> j -> aget (aset l i v) j = aget l j.
Proof.
  intros Hi Hj Hne. unfold aget, aset. rewrite !nth_lookup, list_lookup_insert_ne; [done|lia].
Qed.

Lemma aget_Forall (P : Z -> Prop) l i : P 0 -> Forall P l -> P (aget l i).
Proof.
  intros H0 Hl. unfold aget. destruct (nth_in_or_default (Z.to_nat i) l 0) as [Hin| ->]; [|done].
  rewrite List.Forall_forall in Hl. now apply Hl.
Qed.

Lemma aset_Forall (P : Z -> Prop) l i v : P v -> Forall P l -> Forall P (aset l i v).
Proof. intros Hv Hl. now apply Forall_insert. Qed.

(** ** Finite enumeration

    A property of all values below a constant, checked by evaluation. *)

Definition all_below (n : nat) (p : Z -> bool) : bool :=
  forallb (fun k => p (Z.of_nat k)) (seq 0 n).

Lemma all_below_spec n p : all_below n p = true ->
  forall x, 0 <= x < Z.of_nat n -> p x = true.
Proof.
  unfold all_below. rewrite forallb_forall. intros H x Hx.
  specialize (H (Z.to_nat x)). rewrite Z2Nat.id in H by lia. apply H.
  apply in_seq. lia.
Qed.

(** ** Ring buffers

    [n] elements of an array of [size] from index [start] on, wrapping. *)

Definition ring (size : Z) (data : list Z) (start : Z) (n : nat) : list Z :=
  map (fun i => aget data ((start + Z.of_nat i) mod size)) (seq 0 n).

Lemma length_ring size data start n : length (ring size data start n) = n.
Proof. unfold ring. now rewrite length_map, length_seq. Qed.

Lemma ring_push size data start n b : Z.of_nat (length data) = size -> Z.of_nat n < size ->
  ring size (aset data ((start + Z.of_nat n) mod size) b) start (S n) = ring size data start n ++ [b].
Proof.
  intros Hl Hn. unfold ring. rewrite seq_S, map_app. cbn [map Nat.add]. f_equal.
  - apply map_ext_in. intros i Hi%in_seq.
    pose proof (Z.mod_pos_bound (start + Z.of_nat i) size ltac:(lia)).
    pose proof (Z.mod_pos_bound (start + Z.of_nat n) size ltac:(lia)).
    apply aget_aset_ne; [lia|lia|]. intros E.
    pose proof (Z.div_mod (start + Z.of_nat i) size ltac:(lia)).
    pose proof (Z.div_mod (start + Z.of_nat n) size ltac:(lia)).
    assert (size * ((start + Z.of_nat n) / size - (start + Z.of_nat i) / size) = Z.of_nat n - Z.of_nat i) by lia.
    destruct (Z.le_gt_cases ((start + Z.of_nat n) / size - (start + Z.of_nat i) / size) 0); nia.
  - pose proof (Z.mod_pos_bound (start + Z.of_nat n) size ltac:(lia)). now rewrite aget_aset_eq by lia.
Qed.

Lemma ring_pop size data start n : 0 <= start < size ->
  ring size data start (S n) = aget data start :: ring size data ((start + 1) mod size) n.
Proof.
  intros Hs. unfold ring. cbn [seq map]. f_equal; [f_equal; rewrite Z.add_0_r; now apply Z.mod_small|].
  rewrite <- seq_shift, map_map. apply map_ext. intros i. f_equal.
  rewrite Zplus_mod_idemp_l. f_equal. lia.
Qed.

Lemma ring_next size x : 0 <= x < size -> (if x + 1 =? size then 0 else x + 1) = (x + 1) mod size.
Proof.
  intros Hx. destruct (Z.eqb_spec (x + 1) size) as [->|]; [now rewrite Z.mod_same by lia|].
  symmetry. apply Z.mod_small. lia.
Qed.

(** ** Operations that can stop the emulator

    [hw_error] prints a message and calls [abort]: the operation has no
    result. *)

Inductive outcome (A : Type) : Type :=
| Done (a : A)
| HwError.
Arguments Done {A} a.
Arguments HwError {A}.

(** ** Invariants of step relations *)

Lemma rtc_invariant {A} (R : A -> A -> Prop) (I : A -> Prop) :
  (forall x y, I x -> R x y -> I y) ->
  forall x y, rtc R x y -> I x -> I y.
Proof. intros Hstep x y Hxy. induction Hxy; eauto. Qed.

(** ** Small tactics *)

(** Case analysis on every [if]/[match] scrutinee of the goal. *)
Ltac split_ifs :=
  repeat match goal with
  | |- context [if ?b then _ else _] => let E := fresh "E" in destruct b eqn:E
  end.
