(* ===== verification/Irq.v ===== *)
(** * Interrupt lines: hw/irq.c and hw/irq.h

    A [qemu_irq] is a pointer to a handler with its opaque object and a line
    number.  The handler changes the object it was registered with; here it is
    a function on the world [W] that holds that object, and a device that owns
    a line threads [W] through its operations.  [None] is the NULL pointer,
    which [qemu_set_irq] ignores. *)

From S2P Require Import Prelude.

Module Irq.

Section Lines.
Context {W : Type}.

Record IRQState := mkIRQ {
  handler : Z -> Z -> W -> W;   (* n, level *)
  n : Z
}.

Definition qemu_irq : Type := option IRQState.

Definition qemu_set_irq (irq : qemu_irq) (level : Z) (w : W) : W :=
  match irq with
  | None => w
  | Some i => handler i (n i) level w
  end.

Definition qemu_irq_raise (irq : qemu_irq) (w : W) : W := qemu_set_irq irq 1 w.
Definition qemu_irq_lower (irq : qemu_irq) (w : W) : W := qemu_set_irq irq 0 w.
Definition qemu_irq_pulse (irq : qemu_irq) (w : W) : W :=
  qemu_set_irq irq 0 (qemu_set_irq irq 1 w).

Definition qemu_allocate_irqs (h : Z -> Z -> W -> W) (cnt : nat) : list qemu_irq :=
  map (fun i => Some (mkIRQ h (Z.of_nat i))) (seq 0 cnt).

(** [qemu_notirq] and [qemu_splitirq] dereference their opaque without a NULL
    test, so their argument is a line, not a possibly-NULL [qemu_irq]. *)
Definition qemu_notirq (irq : IRQState) (line level : Z) (w : W) : W :=
  handler irq (n irq) (b2z (negb (truthy level))) w.

Definition qemu_irq_invert (irq : IRQState) (w : W) : qemu_irq * W :=
  let w := qemu_irq_raise (Some irq) w in
  (nth 0 (qemu_allocate_irqs (qemu_notirq irq) 1) None, w).

Definition qemu_splitirq (irq0 irq1 : IRQState) (line level : Z) (w : W) : W :=
  let w := handler irq0 (n irq0) level w in
  handler irq1 (n irq1) level w.

Definition qemu_irq_split (irq1 irq2 : IRQState) : qemu_irq :=
  nth 0 (qemu_allocate_irqs (qemu_splitirq irq1 irq2) 1) None.

End Lines.

Arguments IRQState W : clear implicits.
Arguments qemu_irq W : clear implicits.

(** A line that records the levels it is driven to, for witnesses. *)
Definition recorder : qemu_irq (list (Z * Z)) :=
  Some (mkIRQ (fun n level w => w ++ [(n, level)]) 0).

Lemma allocate_nth {W} (h : Z -> Z -> W -> W) cnt i :
  (i < cnt)%nat ->
  nth i (qemu_allocate_irqs h cnt) None = Some (mkIRQ h (Z.of_nat i)).
Proof.
  intros Hi. unfold qemu_allocate_irqs.
  rewrite nth_indep with (d' := Some (mkIRQ h (Z.of_nat 0)))
    by (rewrite length_map, length_seq; lia).
  rewrite (map_nth (fun j => Some (mkIRQ h (Z.of_nat j))) (seq 0 cnt) 0%nat).
  now rewrite seq_nth.
Qed.

Lemma set_irq_line {W} (h : Z -> Z -> W -> W) cnt i level w :
  (i < cnt)%nat ->
  qemu_set_irq (nth i (qemu_allocate_irqs h cnt) None) level w = h (Z.of_nat i) level w.
Proof. intros Hi. now rewrite allocate_nth. Qed.

End Irq.
