(* ===== verification/I8259.v ===== *)
(** * The 8259 interrupt controllers: hw/i8259.c

    [PicState] and [PicState2] are the structs of the same names.  The back
    pointer [pics_state] is the pair the operation runs on, so an operation of
    one controller takes the pair and the index of the controller ([0] master,
    [1] slave).  The output [parent_irq] is a line of the world [W]. *)

From S2P Require Import Prelude Irq.
Import Irq.

Module I8259.

Record PicState := mkPic {
  last_irr : Z;
  irr : Z;
  imr : Z;
  isr : Z;
  priority_add : Z;
  irq_base : Z;
  read_reg_select : Z;
  poll : Z;
  special_mask : Z;
  init_state : Z;
  auto_eoi : Z;
  rotate_on_auto_eoi : Z;
  special_fully_nested_mode : Z;
  init4 : Z;
  single_mode : Z;
  elcr : Z;
  elcr_mask : Z
}.

#[export] Instance PicState_eta : Eta PicState := fun s =>
  mkPic (last_irr s) (irr s) (imr s) (isr s) (priority_add s) (irq_base s)
    (read_reg_select s) (poll s) (special_mask s) (init_state s) (auto_eoi s)
    (rotate_on_auto_eoi s) (special_fully_nested_mode s) (init4 s) (single_mode s)
    (elcr s) (elcr_mask s).

Record PicState2 := mkPics { pic0 : PicState; pic1 : PicState }.

#[export] Instance PicState2_eta : Eta PicState2 := fun s => mkPics (pic0 s) (pic1 s).

(** [pics[i]] and its update through a pointer to it. *)
Definition pics (st : PicState2) (i : Z) : PicState :=
  if i =? 0 then pic0 st else pic1 st.

Definition set_pic (st : PicState2) (i : Z) (s : PicState) : PicState2 :=
  if i =? 0 then st <| pic0 := s |> else st <| pic1 := s |>.

Definition pic_set_irq1 (s : PicState) (irq level : Z) : PicState :=
  let mask := 1 << irq in
  if tst (elcr s) mask then
    (* level triggered *)
    if truthy level then
      let s := s <| irr := u8 (irr s .| mask) |> in
      s <| last_irr := u8 (last_irr s .| mask) |>
    else
      let s := s <| irr := u8 (irr s .& ~~ mask) |> in
      s <| last_irr := u8 (last_irr s .& ~~ mask) |>
  else
    (* edge triggered *)
    if truthy level then
      let s := if (last_irr s .& mask) =? 0
               then s <| irr := u8 (irr s .| mask) |> else s in
      s <| last_irr := u8 (last_irr s .| mask) |>
    else
      s <| last_irr := u8 (last_irr s .& ~~ mask) |>.

(** The [while] loop of [get_priority]: [None] when [fuel] iterations were not
    enough.  Eight are, for a non-zero byte ([get_priority_terminates]). *)
Fixpoint get_priority_loop (fuel : nat) (s : PicState) (mask priority : Z) : option Z :=
  match fuel with
  | O => None
  | S fuel =>
      if (mask .& (1 << ((priority + priority_add s) .& 7))) =? 0
      then get_priority_loop fuel s mask (priority + 1)
      else Some priority
  end.

Definition get_priority (s : PicState) (mask : Z) : Z :=
  if mask =? 0 then 8
  else match get_priority_loop 8 s mask 0 with Some p => p | None => 8 end.

(** [master] is the test [s == &s->pics_state->pics[0]]. *)
Definition pic_get_irq (master : bool) (s : PicState) : Z :=
  let mask := irr s .& ~~ imr s in
  let priority := get_priority s mask in
  if priority =? 8 then -1
  else
    let mask := isr s in
    let mask := if truthy (special_mask s) then mask .& ~~ imr s else mask in
    let mask := if truthy (special_fully_nested_mode s) && master
                then mask .& ~~ (1 << 2) else mask in
    let cur_priority := get_priority s mask in
    if priority <? cur_priority then (priority + priority_add s) .& 7 else -1.

Section Pic.
Context {W : Type} (parent_irq : qemu_irq W).

Definition pic_update_irq (st : PicState2) (w : W) : PicState2 * W :=
  let irq2 := pic_get_irq false (pic1 st) in
  let st := if 0 <=? irq2
            then st <| pic0 := pic_set_irq1 (pic_set_irq1 (pic0 st) 2 1) 2 0 |>
            else st in
  let irq := pic_get_irq true (pic0 st) in
  if 0 <=? irq then (st, qemu_irq_raise parent_irq w) else (st, w).

Definition i8259_set_irq (irq level : Z) (st : PicState2) (w : W) : PicState2 * W :=
  let i := irq >> 3 in
  let st := set_pic st i (pic_set_irq1 (pics st i) (irq .& 7) level) in
  pic_update_irq st w.

Definition pic_intack (s : PicState) (irq : Z) : PicState :=
  let s :=
    if truthy (auto_eoi s) then
      if truthy (rotate_on_auto_eoi s)
      then s <| priority_add := (irq + 1) .& 7 |> else s
    else s <| isr := u8 (isr s .| (1 << irq)) |> in
  (* a level sensitive interrupt is not cleared here *)
  if negb (tst (elcr s) (1 << irq))
  then s <| irr := u8 (irr s .& ~~ (1 << irq)) |> else s.

Definition pic_read_irq (st : PicState2) (w : W) : Z * (PicState2 * W) :=
  let irq := pic_get_irq true (pic0 st) in
  let '(intno, st) :=
    if 0 <=? irq then
      let st := st <| pic0 := pic_intack (pic0 st) irq |> in
      if irq =? 2 then
        let irq2 := pic_get_irq false (pic1 st) in
        let '(irq2, st) :=
          if 0 <=? irq2
          then (irq2, st <| pic1 := pic_intack (pic1 st) irq2 |>)
          else (* spurious IRQ on slave controller *) (7, st) in
        (irq_base (pic1 st) + irq2, st)
      else (irq_base (pic0 st) + irq, st)
    else
      (* spurious IRQ on host controller *)
      (irq_base (pic0 st) + 7, st) in
  (intno, pic_update_irq st w).

Definition pic_reset (s : PicState) : PicState :=
  {| last_irr := 0; irr := 0; imr := 0; isr := 0; priority_add := 0;
     irq_base := 0; read_reg_select := 0; poll := 0; special_mask := 0;
     init_state := 0; auto_eoi := 0; rotate_on_auto_eoi := 0;
     special_fully_nested_mode := 0; init4 := 0; single_mode := 0;
     elcr := elcr s; elcr_mask := elcr_mask s |}.

Definition pic_ioport_write (i addr val : Z) (st : PicState2) (w : W)
  : outcome (PicState2 * W) :=
  let s := pics st i in
  let addr := addr .& 1 in
  if addr =? 0 then
    if tst val 0x10 then
      (* init *)
      let s := pic_reset s in
      let w := qemu_irq_lower parent_irq w in
      let s := s <| init_state := 1 |> in
      let s := s <| init4 := val .& 1 |> in
      let s := s <| single_mode := val .& 2 |> in
      if tst val 0x08 then HwError else Done (set_pic st i s, w)
    else if tst val 0x08 then
      let s := if tst val 0x04 then s <| poll := 1 |> else s in
      let s := if tst val 0x02 then s <| read_reg_select := val .& 1 |> else s in
      let s := if tst val 0x40 then s <| special_mask := (val >> 5) .& 1 |> else s in
      Done (set_pic st i s, w)
    else
      let cmd := val >> 5 in
      match cmd with
      | 0 | 4 =>
          Done (set_pic st i (s <| rotate_on_auto_eoi := cmd >> 2 |>), w)
      | 1 | 5 => (* end of interrupt *)
          let priority := get_priority s (isr s) in
          if negb (priority =? 8) then
            let irq := (priority + priority_add s) .& 7 in
            let s := s <| isr := u8 (isr s .& ~~ (1 << irq)) |> in
            let s := if cmd =? 5 then s <| priority_add := (irq + 1) .& 7 |> else s in
            Done (pic_update_irq (set_pic st i s) w)
          else Done (st, w)
      | 3 =>
          let irq := val .& 7 in
          let s := s <| isr := u8 (isr s .& ~~ (1 << irq)) |> in
          Done (pic_update_irq (set_pic st i s) w)
      | 6 =>
          let s := s <| priority_add := (val + 1) .& 7 |> in
          Done (pic_update_irq (set_pic st i s) w)
      | 7 =>
          let irq := val .& 7 in
          let s := s <| isr := u8 (isr s .& ~~ (1 << irq)) |> in
          let s := s <| priority_add := (irq + 1) .& 7 |> in
          Done (pic_update_irq (set_pic st i s) w)
      | _ => (* no operation *) Done (st, w)
      end
  else
    match init_state s with
    | 0 => (* normal mode *)
        let s := s <| imr := u8 val |> in
        Done (pic_update_irq (set_pic st i s) w)
    | 1 =>
        let s := s <| irq_base := val .& 0xf8 |> in
        let s := s <| init_state :=
                   if truthy (single_mode s)
                   then (if truthy (init4 s) then 3 else 0) else 2 |> in
        Done (set_pic st i s, w)
    | 2 =>
        let s := if truthy (init4 s) then s <| init_state := 3 |>
                 else s <| init_state := 0 |> in
        Done (set_pic st i s, w)
    | 3 =>
        let s := s <| special_fully_nested_mode := (val >> 4) .& 1 |> in
        let s := s <| auto_eoi := (val >> 1) .& 1 |> in
        let s := s <| init_state := 0 |> in
        Done (set_pic st i s, w)
    | _ => Done (st, w)
    end.

Definition pic_poll_read (i addr1 : Z) (st : PicState2) (w : W) : Z * (PicState2 * W) :=
  let ret := pic_get_irq (i =? 0) (pics st i) in
  if 0 <=? ret then
    let st :=
      if truthy (addr1 >> 7) then
        let m := pic0 st in
        let m := m <| isr := u8 (isr m .& ~~ (1 << 2)) |> in
        let m := m <| irr := u8 (irr m .& ~~ (1 << 2)) |> in
        st <| pic0 := m |>
      else st in
    let s := pics st i in
    let s := s <| irr := u8 (irr s .& ~~ (1 << ret)) |> in
    let s := s <| isr := u8 (isr s .& ~~ (1 << ret)) |> in
    let st := set_pic st i s in
    if truthy (addr1 >> 7) || negb (ret =? 2)
    then (ret, pic_update_irq st w) else (ret, (st, w))
  else (7, pic_update_irq st w).

Definition pic_ioport_read (i addr1 : Z) (st : PicState2) (w : W) : Z * (PicState2 * W) :=
  let s := pics st i in
  let addr := addr1 .& 1 in
  if truthy (poll s) then
    let '(ret, (st, w)) := pic_poll_read i addr1 st w in
    (ret, (set_pic st i ((pics st i) <| poll := 0 |>), w))
  else if addr =? 0 then
    (if truthy (read_reg_select s) then isr s else irr s, (st, w))
  else (imr s, (st, w)).

Definition pic_intack_read (st : PicState2) (w : W) : Z * (PicState2 * W) :=
  let '(ret, (st, w)) := pic_poll_read 0 0x00 st w in
  let '(ret, (st, w)) :=
    if ret =? 2 then
      let '(r, sw) := pic_poll_read 1 0x80 st w in (r + 8, sw)
    else (ret, (st, w)) in
  (* prepare for ISR read *)
  (ret, (st <| pic0 := (pic0 st) <| read_reg_select := 1 |> |>, w)).

End Pic.

Definition elcr_ioport_write (i val : Z) (st : PicState2) : PicState2 :=
  let s := pics st i in
  set_pic st i (s <| elcr := u8 (val .& elcr_mask s) |>).

Definition elcr_ioport_read (i : Z) (st : PicState2) : Z := elcr (pics st i).

(** [i8259_init]: the zeroed structs of [qemu_mallocz] with the ELCR masks. *)
Definition pic_zero (mask : Z) : PicState :=
  {| last_irr := 0; irr := 0; imr := 0; isr := 0; priority_add := 0;
     irq_base := 0; read_reg_select := 0; poll := 0; special_mask := 0;
     init_state := 0; auto_eoi := 0; rotate_on_auto_eoi := 0;
     special_fully_nested_mode := 0; init4 := 0; single_mode := 0;
     elcr := 0; elcr_mask := mask |}.

Definition i8259_init : PicState2 := mkPics (pic_zero 0xf8) (pic_zero 0xde).


(** ** Priority resolution *)

(** The rank of input [k]: 0 is the highest priority, the input that
    [priority_add] points at. *)
Definition rank (s : PicState) (k : Z) : Z := (k - priority_add s) mod 8.

Lemma rank_range s k : 0 <= rank s k < 8.
Proof. apply Z.mod_pos_bound. lia. Qed.

Lemma rank_inv s k : 0 <= k < 8 -> (rank s k + priority_add s) mod 8 = k.
Proof. intros. unfold rank. Z.div_mod_to_equations. lia. Qed.

Lemma rank_of s p : 0 <= p < 8 -> rank s ((p + priority_add s) mod 8) = p.
Proof. intros. unfold rank. Z.div_mod_to_equations. lia. Qed.

Lemma get_priority_loop_spec fuel : forall s mask p q,
  0 <= p ->
  get_priority_loop fuel s mask p = Some q ->
  p <= q < p + Z.of_nat fuel
  /\ Z.testbit mask ((q + priority_add s) mod 8) = true
  /\ (forall r, p <= r < q -> Z.testbit mask ((r + priority_add s) mod 8) = false).
Proof.
  induction fuel as [|fuel IH]; intros s mask p q Hp; cbn [get_priority_loop]; [done|].
  rewrite land_7, land_bit_eqb by (apply Z.mod_pos_bound; lia).
  destruct (Z.testbit mask ((p + priority_add s) mod 8)) eqn:E; cbn [negb]; intros H.
  - injection H as ->. repeat split; [lia|lia|done|lia].
  - apply IH in H as (H1 & H2 & H3); [|lia]. repeat split; [lia|lia|done|].
    intros r Hr. destruct (decide (r = p)) as [->|]; [done|]. apply H3. lia.
Qed.

Lemma get_priority_loop_total fuel : forall s mask p,
  (exists q, p <= q < p + Z.of_nat fuel /\
     Z.testbit mask ((q + priority_add s) mod 8) = true) ->
  is_Some (get_priority_loop fuel s mask p).
Proof.
  induction fuel as [|fuel IH]; intros s mask p (q & Hq & Hb); cbn [get_priority_loop]; [lia|].
  rewrite land_7, land_bit_eqb by (apply Z.mod_pos_bound; lia).
  destruct (Z.testbit mask ((p + priority_add s) mod 8)) eqn:E; cbn [negb]; [now eexists|].
  apply IH. exists q. split; [|done]. assert (q <> p) by congruence. lia.
Qed.

Lemma get_priority_loop_byte s mask : in_u 8 mask -> mask <> 0 ->
  is_Some (get_priority_loop 8 s mask 0).
Proof.
  intros Hm Hne. destruct (nonzero_bit 8 mask) as (k & Hk & Hb); [lia|done|done|].
  apply get_priority_loop_total. exists (rank s k). pose proof (rank_range s k).
  rewrite rank_inv by done. split; [lia|done].
Qed.

Lemma get_priority_zero s : get_priority s 0 = 8.
Proof. done. Qed.

(** The result for a byte: 8 when it is zero, otherwise the least rank of a
    set bit. *)
Lemma get_priority_cases s mask : in_u 8 mask ->
  (mask = 0 /\ get_priority s mask = 8) \/
  (0 <= get_priority s mask < 8
   /\ Z.testbit mask ((get_priority s mask + priority_add s) mod 8) = true
   /\ (forall k, 0 <= k < 8 -> Z.testbit mask k = true -> get_priority s mask <= rank s k)).
Proof.
  intros Hm. destruct (decide (mask = 0)) as [->|Hne]; [by left|right].
  destruct (get_priority_loop_byte s mask Hm Hne) as [p Hp].
  assert (get_priority s mask = p) as ->.
  { unfold get_priority. rewrite (proj2 (Z.eqb_neq mask 0) Hne). now rewrite Hp. }
  apply get_priority_loop_spec in Hp as (H1 & H2 & H3); [|lia].
  repeat split; [lia|lia|done|]. intros k Hk Hb.
  destruct (Z.le_gt_cases p (rank s k)) as [|Hlt]; [done|].
  pose proof (rank_range s k). specialize (H3 (rank s k)). rewrite rank_inv in H3 by done.
  rewrite H3 in Hb by lia. discriminate.
Qed.

(** The inputs competing for service, and the in-service inputs that block
    them. *)
Definition requests (s : PicState) : Z := irr s .& ~~ imr s.

Definition in_service (master : bool) (s : PicState) : Z :=
  let mask := if truthy (special_mask s) then isr s .& ~~ imr s else isr s in
  if truthy (special_fully_nested_mode s) && master then mask .& ~~ (1 << 2) else mask.

(** Input [n] wins: it requests, unmasked, with the best rank among the
    requests and a better rank than everything in service. *)
Definition wins (master : bool) (s : PicState) (n : Z) : Prop :=
  0 <= n < 8
  /\ Z.testbit (requests s) n = true
  /\ (forall k, 0 <= k < 8 -> Z.testbit (requests s) k = true -> rank s n <= rank s k)
  /\ (forall k, 0 <= k < 8 -> Z.testbit (in_service master s) k = true -> rank s n < rank s k).

(** The registers are bytes, the counters and flags in range. *)
Definition flag (x : Z) : Prop := x = 0 \/ x = 1.

Record pic_ok (s : PicState) : Prop := {
  ok_last_irr : in_u 8 (last_irr s);
  ok_irr : in_u 8 (irr s);
  ok_imr : in_u 8 (imr s);
  ok_isr : in_u 8 (isr s);
  ok_priority_add : in_u 3 (priority_add s);
  ok_irq_base : in_u 8 (irq_base s) /\ irq_base s mod 8 = 0;
  ok_init_state : 0 <= init_state s <= 3;
  ok_elcr : in_u 8 (elcr s) /\ in_u 8 (elcr_mask s);
  ok_flags : flag (read_reg_select s) /\ flag (poll s) /\ flag (special_mask s)
             /\ flag (auto_eoi s) /\ flag (rotate_on_auto_eoi s)
             /\ flag (special_fully_nested_mode s) /\ flag (init4 s)
             /\ (single_mode s = 0 \/ single_mode s = 2)
}.

Lemma requests_byte s : pic_ok s -> in_u 8 (requests s).
Proof. intros H. unfold requests. apply in_u_land; [lia|apply H]. Qed.

Lemma in_service_byte m s : pic_ok s -> in_u 8 (in_service m s).
Proof.
  intros H. unfold in_service.
  destruct (truthy (special_mask s)), (truthy (special_fully_nested_mode s) && m);
    repeat apply in_u_land; try lia; apply H.
Qed.

Lemma pic_get_irq_unfold m s :
  pic_get_irq m s =
  if get_priority s (requests s) =? 8 then -1
  else if get_priority s (requests s) <? get_priority s (in_service m s)
       then (get_priority s (requests s) + priority_add s) mod 8 else -1.
Proof. unfold pic_get_irq. rewrite land_7. reflexivity. Qed.

Lemma pic_get_irq_range m s : -1 <= pic_get_irq m s < 8.
Proof.
  rewrite pic_get_irq_unfold.
  pose proof (Z.mod_pos_bound (get_priority s (requests s) + priority_add s) 8).
  split_ifs; lia.
Qed.

Lemma wins_unique m s n n' : wins m s n -> wins m s n' -> n = n'.
Proof.
  intros (Hn & Hr & Hb & _) (Hn' & Hr' & Hb' & _).
  assert (rank s n = rank s n') as E by (apply Z.le_antisymm; auto).
  rewrite <- (rank_inv s n Hn), <- (rank_inv s n' Hn'). now rewrite E.
Qed.

Lemma pic_get_irq_wins m s : pic_ok s -> 0 <= pic_get_irq m s -> wins m s (pic_get_irq m s).
Proof.
  intros Hok. rewrite pic_get_irq_unfold.
  destruct (get_priority_cases s _ (requests_byte s Hok)) as [[_ ->]|(Hp & Hb & Hmin)];
    [cbn; lia|].
  set (p := get_priority s (requests s)) in *.
  destruct (Z.eqb_spec p 8) as [|_]; [lia|].
  destruct (Z.ltb_spec p (get_priority s (in_service m s))) as [Hlt|]; [|lia]. intros _.
  unfold wins. rewrite rank_of by done.
  repeat split; [apply Z.mod_pos_bound; lia|apply Z.mod_pos_bound; lia|done|done|].
  intros k Hk Hs.
  destruct (get_priority_cases s _ (in_service_byte m s Hok)) as [[H0 _]|(_ & _ & Hmin')].
  - rewrite H0, Z.bits_0 in Hs. discriminate.
  - specialize (Hmin' k Hk Hs). lia.
Qed.

Lemma get_irq_wins m s n : pic_ok s -> 0 <= n -> pic_get_irq m s = n -> wins m s n.
Proof. intros Hok H0 <-. now apply pic_get_irq_wins. Qed.

Lemma wins_pic_get_irq m s n : pic_ok s -> wins m s n -> pic_get_irq m s = n.
Proof.
  intros Hok (Hn & Hr & Hb & Hs). rewrite pic_get_irq_unfold.
  destruct (get_priority_cases s _ (requests_byte s Hok)) as [[H0 _]|(Hp & Hpb & Hmin)].
  { rewrite H0, Z.bits_0 in Hr. discriminate. }
  set (p := get_priority s (requests s)) in *.
  assert (p = rank s n) as Ep.
  { apply Z.le_antisymm; [now apply Hmin|].
    rewrite <- (rank_of s p Hp). apply Hb; [apply Z.mod_pos_bound; lia|done]. }
  destruct (Z.eqb_spec p 8) as [|_]; [lia|].
  assert (p < get_priority s (in_service m s)) as Hlt.
  { destruct (get_priority_cases s _ (in_service_byte m s Hok)) as [[_ ->]|(Hq & Hqb & _)]; [lia|].
    rewrite <- (rank_of s (get_priority s (in_service m s)) Hq), Ep.
    apply Hs; [apply Z.mod_pos_bound; lia|done]. }
  rewrite (proj2 (Z.ltb_lt _ _) Hlt), Ep. now apply rank_inv.
Qed.


(** ** The invariant is preserved *)

Lemma flag_land1 x : flag (x .& 1).
Proof.
  unfold flag. rewrite land_1. pose proof (Z.mod_pos_bound x 2). lia.
Qed.

Lemma in_u3_land7 x : in_u 3 (x .& 7).
Proof. rewrite land_7. apply (Z.mod_pos_bound x 8). lia. Qed.

Lemma single_mode_land2 x : x .& 2 = 0 \/ x .& 2 = 2.
Proof.
  change 2 with (1 << 1). rewrite land_bit by lia. destruct (Z.testbit x 1); auto.
Qed.

Lemma irq_base_land x : in_u 8 (x .& 0xf8) /\ (x .& 0xf8) mod 8 = 0.
Proof.
  split; [apply in_u_land_r; [lia|by compute]|].
  rewrite <- land_7, <- Z.land_assoc. apply Z.land_0_r.
Qed.

#[export] Hint Resolve flag_land1 in_u3_land7 single_mode_land2 irq_base_land : width.
#[export] Hint Extern 1 (flag _) => (unfold flag; lia) : width.

(** Close [pic_ok] of an updated record from [pic_ok] of the old one. *)
Ltac pic_ok_solve H :=
  destruct H as [????????(?&?&?&?&?&?&?&?)];
  constructor; cbn; auto with width; repeat split_and; auto with width; try tauto.

Lemma pic_ok_set_irq1 s irq level : pic_ok s -> pic_ok (pic_set_irq1 s irq level).
Proof. intros H. unfold pic_set_irq1. split_ifs; pic_ok_solve H. Qed.

Lemma pic_ok_intack s irq : pic_ok s -> pic_ok (pic_intack s irq).
Proof. intros H. unfold pic_intack. split_ifs; pic_ok_solve H. Qed.

Lemma pic_ok_reset s : pic_ok s -> pic_ok (pic_reset s).
Proof. intros H. unfold pic_reset. pic_ok_solve H. Qed.

Definition pics_ok (st : PicState2) : Prop := pic_ok (pic0 st) /\ pic_ok (pic1 st).

Lemma pics_ok_pics st i : pics_ok st -> pic_ok (pics st i).
Proof. intros [H0 H1]. unfold pics. now destruct (i =? 0). Qed.

Lemma pics_ok_set st i s : pics_ok st -> pic_ok s -> pics_ok (set_pic st i s).
Proof. intros [H0 H1] Hs. unfold set_pic. destruct (i =? 0); split; done. Qed.

Lemma pics_ok_init : pics_ok i8259_init.
Proof. split; constructor; cbn; repeat split_and; auto with width. Qed.

Create HintDb pic.
#[export] Hint Resolve pic_ok_set_irq1 pic_ok_intack pic_ok_reset pics_ok_pics pics_ok_set : pic.

(** Enumerate a small integer the code switches on. *)
Ltac case_pic_int x :=
  let H := fresh in
  assert (x = 0 \/ x = 1 \/ x = 2 \/ x = 3 \/ x = 4 \/ x = 5 \/ x = 6 \/ x = 7) as H by lia;
  destruct H as [H|[H|[H|[H|[H|[H|[H|H]]]]]]]; rewrite H in *; try lia.

Section PicInvariant.
Context {W : Type} (parent_irq : qemu_irq W).

Lemma pics_ok_update st w : pics_ok st -> pics_ok (pic_update_irq parent_irq st w).1.
Proof.
  intros [H0 H1]. unfold pic_update_irq. split_ifs; cbn; split; cbn; auto with pic.
Qed.

Lemma pics_ok_set_irq irq level st w :
  pics_ok st -> pics_ok (i8259_set_irq parent_irq irq level st w).1.
Proof. intros H. apply pics_ok_update. auto with pic. Qed.

Lemma pics_ok_read_irq st w : pics_ok st -> pics_ok (pic_read_irq parent_irq st w).2.1.
Proof.
  intros [H0 H1]. unfold pic_read_irq.
  split_ifs; cbn; apply pics_ok_update; split; cbn; auto with pic.
Qed.

Lemma pics_ok_poll_read i addr1 st w :
  pics_ok st -> pics_ok (pic_poll_read parent_irq i addr1 st w).2.1.
Proof.
  intros H. unfold pic_poll_read.
  assert (pics_ok (if truthy (addr1 >> 7) then
    st <| pic0 := (pic0 st) <| isr := u8 (isr (pic0 st) .& ~~ (1 << 2)) |>
        <| irr := u8 (irr (pic0 st) .& ~~ (1 << 2)) |> |> else st)) as H'.
  { split_ifs; [|done]. destruct H as [H0 H1]. split; cbn; [pic_ok_solve H0|done]. }
  split_ifs; cbn; try apply pics_ok_update; try done;
    apply pics_ok_set; try done; apply (pics_ok_pics _ i) in H'; pic_ok_solve H'.
Qed.

Lemma pics_ok_ioport_read i addr1 st w :
  pics_ok st -> pics_ok (pic_ioport_read parent_irq i addr1 st w).2.1.
Proof.
  intros H. unfold pic_ioport_read. split_ifs; cbn; try done.
  pose proof (pics_ok_poll_read i addr1 st w H) as H'.
  destruct (pic_poll_read parent_irq i addr1 st w) as [ret [st' w']]. cbn in *.
  apply pics_ok_set; [done|]. apply (pics_ok_pics _ i) in H'. pic_ok_solve H'.
Qed.

Lemma pics_ok_intack_read st w : pics_ok st -> pics_ok (pic_intack_read parent_irq st w).2.1.
Proof.
  intros H. unfold pic_intack_read.
  pose proof (pics_ok_poll_read 0 0x00 st w H) as H1.
  destruct (pic_poll_read parent_irq 0 0x00 st w) as [ret [st1 w1]]. cbn in *.
  pose proof (pics_ok_poll_read 1 0x80 st1 w1 H1) as H2.
  destruct (pic_poll_read parent_irq 1 0x80 st1 w1) as [ret2 [st2 w2]]. cbn in *.
  destruct (ret =? 2); cbn; [destruct H2 as [H' ?]|destruct H1 as [H' ?]];
    split; cbn; try done; pic_ok_solve H'.
Qed.

Lemma pics_ok_elcr_write i val st : pics_ok st -> pics_ok (elcr_ioport_write i val st).
Proof.
  intros H. apply pics_ok_set; [done|]. apply (pics_ok_pics _ i) in H. pic_ok_solve H.
Qed.

Lemma pics_ok_ioport_write i addr val st w st' w' :
  in_u 8 val -> pics_ok st ->
  pic_ioport_write parent_irq i addr val st w = Done (st', w') -> pics_ok st'.
Proof.
  intros Hv Hok. pose proof (pics_ok_pics st i Hok) as Hs. unfold pic_ioport_write.
  assert (0 <= val >> 5 < 8) as Hcmd by
    (rewrite Z.shiftr_div_pow2 by lia; unfold in_u in Hv; Z.div_mod_to_equations; lia).
  pose proof (ok_init_state _ Hs) as Hinit.
  assert (forall s, pic_ok s -> Done (pic_update_irq parent_irq (set_pic st i s) w) = Done (st', w')
                    -> pics_ok st') as Hupd.
  { intros s Hs' [= E]. pose proof (pics_ok_update (set_pic st i s) w) as H.
    rewrite E in H. auto with pic. }
  assert (forall s w0, pic_ok s -> Done (set_pic st i s, w0) = Done (st', w') -> pics_ok st') as Hset.
  { intros s w0 Hs' [= <- _]. auto with pic. }
  case_match; cycle 1.
  { case_pic_int (init_state (pics st i)); cbv iota zeta; split_ifs;
      (apply Hupd || eapply Hset); pic_ok_solve Hs. }
  case_match; [apply pic_ok_reset in Hs; case_match; [done|eapply Hset; pic_ok_solve Hs]|].
  case_match; [eapply Hset; split_ifs; pic_ok_solve Hs|].
  case_pic_int (val >> 5); cbv iota zeta; try (case_match; [|by intros [= <- _]]);
    try (by intros [= <- _]); (apply Hupd || eapply Hset); pic_ok_solve Hs; compute; tauto.
Qed.


(** Everything that can happen to the pair: input lines driven, the CPU
    acknowledging, port accesses by the guest, resets. *)
Inductive pic_step : PicState2 * W -> PicState2 * W -> Prop :=
| step_set_irq irq level st w :
    0 <= irq < 16 -> pic_step (st, w) (i8259_set_irq parent_irq irq level st w)
| step_read_irq st w :
    pic_step (st, w) (pic_read_irq parent_irq st w).2
| step_write i addr val st w sw' :
    in_u 8 val -> pic_ioport_write parent_irq i addr val st w = Done sw' ->
    pic_step (st, w) sw'
| step_read i addr st w :
    pic_step (st, w) (pic_ioport_read parent_irq i addr st w).2
| step_intack_read st w :
    pic_step (st, w) (pic_intack_read parent_irq st w).2
| step_elcr_write i val st w :
    pic_step (st, w) (elcr_ioport_write i val st, w)
| step_reset i st w :
    pic_step (st, w) (set_pic st i (pic_reset (pics st i)), w)
| step_update st w :
    pic_step (st, w) (pic_update_irq parent_irq st w).

Lemma pics_ok_step x y : pics_ok x.1 -> pic_step x y -> pics_ok y.1.
Proof.
  intros H Hs. destruct Hs; cbn in *;
    eauto using pics_ok_set_irq, pics_ok_read_irq, pics_ok_ioport_read,
      pics_ok_intack_read, pics_ok_elcr_write, pics_ok_update with pic.
  destruct sw'. eapply pics_ok_ioport_write; eauto.
Qed.

(** ** Frame of [pic_update_irq] *)

Lemma pic_set_irq1_frame s irq level :
  let s' := pic_set_irq1 s irq level in
  s' = s <| irr := irr s' |> <| last_irr := last_irr s' |>.
Proof. unfold pic_set_irq1. split_ifs; destruct s; reflexivity. Qed.

Lemma pic_set_irq1_irr_other s irq level k :
  0 <= irq -> 0 <= k < 8 -> k <> irq -> pic_ok s ->
  Z.testbit (irr (pic_set_irq1 s irq level)) k = Z.testbit (irr s) k.
Proof.
  intros Hi Hk Hne Hok. unfold pic_set_irq1.
  split_ifs; cbn; autorewrite with bits; split_eqb; btauto.
Qed.

(** The update only touches the cascade input of the master. *)
Lemma pic_update_frame st w :
  pics_ok st ->
  let st' := (pic_update_irq parent_irq st w).1 in
  pic1 st' = pic1 st
  /\ pic0 st' = (pic0 st) <| irr := irr (pic0 st') |> <| last_irr := last_irr (pic0 st') |>
  /\ (forall k, 0 <= k < 8 -> k <> 2 ->
        Z.testbit (irr (pic0 st')) k = Z.testbit (irr (pic0 st)) k).
Proof.
  intros [H0 H1] st'.
  assert (st' = st \/ st' = st <| pic0 := pic_set_irq1 (pic_set_irq1 (pic0 st) 2 1) 2 0 |>) as [->| ->]
    by (unfold st', pic_update_irq; split_ifs; auto).
  - repeat split; auto. now destruct (pic0 st).
  - cbn. repeat split.
    + rewrite (pic_set_irq1_frame (pic_set_irq1 (pic0 st) 2 1)), (pic_set_irq1_frame (pic0 st)).
      reflexivity.
    + intros k Hk Hne. rewrite !pic_set_irq1_irr_other by (auto with pic; lia). done.
Qed.

End PicInvariant.

(** ** Correctness of the controllers *)

(** C1: the interrupt a controller asks for is exactly the winner of priority
    resolution: an unmasked request of the best rank that also outranks every
    in-service input (in special mask mode the masked ones, and on a master in
    special fully nested mode the cascade, do not block); -1 exactly when no
    input wins. *)
Theorem pic_get_irq_correct (m : bool) (s : PicState) :
  pic_ok s ->
  (forall n, wins m s n <-> 0 <= n /\ pic_get_irq m s = n)
  /\ (pic_get_irq m s = -1 <-> ~ exists n, wins m s n).
Proof.
  intros Hok. pose proof (pic_get_irq_range m s) as Hr. split.
  - intros n. split.
    + intros Hw. split; [apply Hw|now apply wins_pic_get_irq].
    + intros [H0 <-]. now apply pic_get_irq_wins.
  - split.
    + intros E [n Hw]. rewrite (wins_pic_get_irq m s n Hok Hw) in E. destruct Hw. lia.
    + intros Hno. destruct (Z.le_gt_cases 0 (pic_get_irq m s)) as [Hge|]; [|lia].
      exfalso. apply Hno. eexists. now apply pic_get_irq_wins.
Qed.

(** Master with IRQ 1 and 4 pending, 4 in service, default priorities. *)
Definition pic_example : PicState :=
  (pic_zero 0xf8) <| irr := 0x12 |> <| isr := 0x10 |>.

Lemma pic_example_ok : pic_ok pic_example.
Proof. constructor; cbn; repeat split_and; auto with width. Qed.

Lemma pic_get_irq_correct_witness :
  wins true pic_example 1 /\ pic_get_irq true pic_example = 1.
Proof.
  pose proof (pic_get_irq_correct true pic_example pic_example_ok) as [H _].
  split; [apply H; split; [lia|reflexivity]|reflexivity].
Defined.

(** C3: from power-on, whatever the guest and the devices do, every register
    of both controllers stays in its range, and the priority loop of
    [get_priority] exits within eight iterations on the masks it is given. *)
Theorem pic_reachable_ok {W : Type} (parent_irq : qemu_irq W) (w0 : W) (st : PicState2) (w : W) :
  rtc (pic_step parent_irq) (i8259_init, w0) (st, w) ->
  pics_ok st
  /\ forall i m, let s := pics st i in
     forall mask, In mask [requests s; in_service m s; isr s] -> mask <> 0 ->
     is_Some (get_priority_loop 8 s mask 0).
Proof.
  intros Hr.
  assert (pics_ok st) as Hok.
  { apply (rtc_invariant _ (fun x => pics_ok x.1) (pics_ok_step parent_irq) _ _ Hr).
    apply pics_ok_init. }
  split; [done|]. intros i m s mask Hin Hne.
  pose proof (pics_ok_pics st i Hok) as Hs.
  apply get_priority_loop_byte; [|done].
  destruct Hin as [<-|[<-|[<-|[]]]]; [now apply requests_byte|now apply in_service_byte|apply Hs].
Qed.

Lemma pic_reachable_ok_witness :
  pics_ok (i8259_set_irq recorder 9 1 i8259_init []).1.
Proof.
  refine (proj1 (pic_reachable_ok recorder [] _ (i8259_set_irq recorder 9 1 i8259_init []).2 _)).
  apply rtc_once. exact (step_set_irq recorder 9 1 i8259_init [] ltac:(lia)).
Defined.

(** ** Acknowledge *)

Lemma pic_intack_isr s irq k :
  pic_ok s -> 0 <= irq < 8 -> 0 <= k < 8 ->
  Z.testbit (isr (pic_intack s irq)) k =
    Z.testbit (isr s) k || (k =? irq) && negb (truthy (auto_eoi s)).
Proof.
  intros Hok Hi Hk. unfold pic_intack.
  destruct (truthy (auto_eoi s)); split_ifs; cbn; autorewrite with bits; split_eqb; btauto.
Qed.

Lemma pic_intack_irr s irq k :
  pic_ok s -> 0 <= irq < 8 -> 0 <= k < 8 ->
  Z.testbit (irr (pic_intack s irq)) k =
    Z.testbit (irr s) k && negb ((k =? irq) && negb (Z.testbit (elcr s) irq)).
Proof.
  intros Hok Hi Hk. unfold pic_intack.
  rewrite <- (tst_bit (elcr s) irq) by lia.
  destruct (truthy (auto_eoi s)), (truthy (rotate_on_auto_eoi s)); cbn;
    destruct (tst (elcr s) (1 << irq)); cbn; autorewrite with bits; split_eqb; btauto.
Qed.

Lemma pic_intack_base s irq : irq_base (pic_intack s irq) = irq_base s.
Proof. unfold pic_intack. split_ifs; reflexivity. Qed.

(** [pic_read_irq] by the winner of each controller. *)
Section ReadIrq.
Context {W : Type} (parent_irq : qemu_irq W) (st : PicState2) (w : W).
Hypothesis (Hm : pic_ok (pic0 st)) (Hs : pic_ok (pic1 st)).

Lemma no_winner m s : pic_ok s -> (~ exists n, wins m s n) -> pic_get_irq m s = -1.
Proof.
  intros Hok Hno. pose proof (pic_get_irq_range m s).
  destruct (Z.le_gt_cases 0 (pic_get_irq m s)); [|lia].
  exfalso. apply Hno. eexists. now apply pic_get_irq_wins.
Qed.

Lemma read_irq_master n : wins true (pic0 st) n -> n <> 2 ->
  pic_read_irq parent_irq st w =
  (irq_base (pic0 st) + n,
   pic_update_irq parent_irq (st <| pic0 := pic_intack (pic0 st) n |>) w).
Proof.
  intros Hw Hne. unfold pic_read_irq. rewrite (wins_pic_get_irq _ _ _ Hm Hw).
  destruct Hw as [Hn _]. rewrite (proj2 (Z.leb_le 0 n)) by lia.
  rewrite (proj2 (Z.eqb_neq n 2)) by done. cbn. now rewrite pic_intack_base.
Qed.

Lemma read_irq_cascade :  wins true (pic0 st) 2 ->
  let irq2 := pic_get_irq false (pic1 st) in
  pic_read_irq parent_irq st w =
  if 0 <=? irq2
  then (irq_base (pic1 st) + irq2,
        pic_update_irq parent_irq
          (st <| pic0 := pic_intack (pic0 st) 2 |> <| pic1 := pic_intack (pic1 st) irq2 |>) w)
  else (irq_base (pic1 st) + 7,
        pic_update_irq parent_irq (st <| pic0 := pic_intack (pic0 st) 2 |>) w).
Proof.
  intros Hw irq2. unfold pic_read_irq. rewrite (wins_pic_get_irq _ _ _ Hm Hw). cbn.
  fold irq2. destruct (0 <=? irq2); cbn; now rewrite ?pic_intack_base.
Qed.

Lemma read_irq_spurious : (~ exists n, wins true (pic0 st) n) ->
  pic_read_irq parent_irq st w = (irq_base (pic0 st) + 7, pic_update_irq parent_irq st w).
Proof. intros Hno. unfold pic_read_irq. now rewrite (no_winner _ _ Hm Hno). Qed.

End ReadIrq.

(** What acknowledging input [n] makes of a controller, every register of it: the
    input is in service unless the controller ends interrupts by itself, in which case
    the priorities rotate behind it if that is on; an edge request is consumed and
    that of a level input stays. *)
Record acknowledged (s s' : PicState) (n : Z) : Prop := {
  ack_isr : forall k, 0 <= k < 8 -> Z.testbit (isr s') k = Z.testbit (isr s) k || (k =? n) && negb (truthy (auto_eoi s));
  ack_irr : forall k, 0 <= k < 8 -> Z.testbit (irr s') k = Z.testbit (irr s) k && negb ((k =? n) && negb (Z.testbit (elcr s) n));
  ack_priority : priority_add s' = if truthy (auto_eoi s) && truthy (rotate_on_auto_eoi s) then (n + 1) mod 8 else priority_add s;
  ack_rest : s' = s <| isr := isr s' |> <| irr := irr s' |> <| priority_add := priority_add s' |>
}.

(** A pulse on the cascade input: an edge input latches it, a level input is low after it. *)
Record pulsed (s s' : PicState) : Prop := {
  pu_irr : forall k, 0 <= k < 8 -> Z.testbit (irr s') k = if k =? 2 then negb (Z.testbit (elcr s) 2) && (Z.testbit (irr s) 2 || negb (Z.testbit (last_irr s) 2)) else Z.testbit (irr s) k;
  pu_last : forall k, 0 <= k < 8 -> Z.testbit (last_irr s') k = negb (k =? 2) && Z.testbit (last_irr s) k;
  pu_rest : s' = s <| irr := irr s' |> <| last_irr := last_irr s' |>
}.

(** The controllers [m] and [s] after their outputs are brought up to date: the slave's
    request pulses the cascade, and the line to the CPU is raised exactly if an input
    of the master wins then. *)
Record settled {W : Type} (parent_irq : qemu_irq W) (m s : PicState) (w : W) (st' : PicState2) (w' : W) : Prop := {
  se_slave : pic1 st' = s;
  se_cascade : (exists n, wins false s n) -> pulsed m (pic0 st');
  se_quiet : (~ exists n, wins false s n) -> pic0 st' = m;
  se_raised : (exists n, wins true (pic0 st') n) -> w' = qemu_irq_raise parent_irq w;
  se_low : (~ exists n, wins true (pic0 st') n) -> w' = w
}.

Lemma acknowledged_intack s n : pic_ok s -> 0 <= n < 8 -> acknowledged s (pic_intack s n) n.
Proof.
  intros H Hn. constructor; [intros; now apply pic_intack_isr|intros; now apply pic_intack_irr| |].
  - unfold pic_intack. rewrite <- land_7. destruct (truthy (auto_eoi s)), (truthy (rotate_on_auto_eoi s)); cbn; split_ifs; reflexivity.
  - unfold pic_intack. split_ifs; destruct s; reflexivity.
Qed.

Lemma pulsed_cascade s : pic_ok s -> pulsed s (pic_set_irq1 (pic_set_irq1 s 2 1) 2 0).
Proof.
  intros H. assert (pic_set_irq1 (pic_set_irq1 s 2 1) 2 0 = if Z.testbit (elcr s) 2
    then s <| irr := u8 (u8 (irr s .| (1 << 2)) .& ~~ (1 << 2)) |> <| last_irr := u8 (u8 (last_irr s .| (1 << 2)) .& ~~ (1 << 2)) |>
    else s <| irr := if Z.testbit (last_irr s) 2 then irr s else u8 (irr s .| (1 << 2)) |> <| last_irr := u8 (u8 (last_irr s .| (1 << 2)) .& ~~ (1 << 2)) |>) as ->.
  { unfold pic_set_irq1. rewrite !tst_bit, (land_bit_eqb (last_irr s) 2) by lia. destruct (Z.testbit (elcr s) 2) eqn:E, (Z.testbit (last_irr s) 2); cbn -[Z.testbit Z.land Z.lor Z.shiftl Z.lnot u8]; rewrite E; destruct s; reflexivity. }
  constructor.
  - intros k Hk. destruct (Z.testbit (elcr s) 2); cbn -[Z.testbit Z.land Z.lor Z.shiftl Z.lnot u8]; [|destruct (Z.testbit (last_irr s) 2)]; autorewrite with bits; split_eqb; btauto.
  - intros k Hk. destruct (Z.testbit (elcr s) 2); cbn -[Z.testbit Z.land Z.lor Z.shiftl Z.lnot u8]; autorewrite with bits; split_eqb; btauto.
  - destruct s, (Z.testbit _ 2); reflexivity.
Qed.

Lemma settled_update {W : Type} (parent_irq : qemu_irq W) st w : pics_ok st ->
  settled parent_irq (pic0 st) (pic1 st) w (pic_update_irq parent_irq st w).1 (pic_update_irq parent_irq st w).2.
Proof.
  intros [Hm Hs]. unfold pic_update_irq. set (st1 := if 0 <=? pic_get_irq false (pic1 st) then _ else st).
  assert (pic_ok (pic0 st1)) as Hm1 by (unfold st1; destruct (0 <=? _); cbn; auto with pic).
  assert (forall x : bool, (if x then (st1, qemu_irq_raise parent_irq w) else (st1, w)).1 = st1) as Ef by (now intros []). rewrite Ef.
  constructor.
  - unfold st1. now destruct (0 <=? _).
  - intros [n Hw]. unfold st1. rewrite (wins_pic_get_irq _ _ _ Hs Hw), (proj2 (Z.leb_le 0 n)) by apply Hw. now apply pulsed_cascade.
  - intros Hno. unfold st1. now rewrite (no_winner _ _ Hs Hno).
  - intros [n Hw]. now rewrite (wins_pic_get_irq _ _ _ Hm1 Hw), (proj2 (Z.leb_le 0 n)) by apply Hw.
  - intros Hno. now rewrite (no_winner _ _ Hm1 Hno).
Qed.

(** C2: acknowledge, every branch with the whole state after it. The vector is the
    winner's: master base plus the winning master input, or slave base plus the
    winning slave input when the cascade wins. Each controller that gave a winner
    acknowledges it (in service, request consumed, rotation on automatic EOI, nothing
    else); a spurious acknowledge gives input 7 of the controller that had nothing and
    leaves that controller as it is. Then the outputs are brought up to date: a slave
    that still has a request pulses the cascade, and the line to the CPU is raised
    exactly if an input of the master wins. *)
Theorem pic_read_irq_correct {W : Type} (parent_irq : qemu_irq W) (st : PicState2) (w : W) :
  pics_ok st ->
  let '(intno, (st', w')) := pic_read_irq parent_irq st w in
  exists m s, settled parent_irq m s w st' w'
  /\ (forall n, wins true (pic0 st) n -> n <> 2 ->
     intno = irq_base (pic0 st) + n /\ acknowledged (pic0 st) m n /\ s = pic1 st)
  /\ (wins true (pic0 st) 2 -> forall n, wins false (pic1 st) n ->
     intno = irq_base (pic1 st) + n /\ acknowledged (pic0 st) m 2 /\ acknowledged (pic1 st) s n)
  /\ (wins true (pic0 st) 2 -> (~ exists n, wins false (pic1 st) n) ->
     intno = irq_base (pic1 st) + 7 /\ acknowledged (pic0 st) m 2 /\ s = pic1 st)
  /\ ((~ exists n, wins true (pic0 st) n) ->
     intno = irq_base (pic0 st) + 7 /\ m = pic0 st /\ s = pic1 st).
Proof.
  intros [Hm Hs].
  assert (forall x st1, pic_read_irq parent_irq st w = (x, pic_update_irq parent_irq st1 w) -> pics_ok st1 ->
    exists st' w', pic_read_irq parent_irq st w = (x, (st', w')) /\ settled parent_irq (pic0 st1) (pic1 st1) w st' w') as U.
  { intros x st1 E H1. pose proof (settled_update parent_irq st1 w H1) as Se. destruct (pic_update_irq parent_irq st1 w) as [st' w']. eauto. }
  destruct (Z.le_gt_cases 0 (pic_get_irq true (pic0 st))) as [G|G].
  - pose proof (pic_get_irq_wins true (pic0 st) Hm G) as Hw. set (n := pic_get_irq true (pic0 st)) in *. clearbody n. destruct (Z.eq_dec n 2) as [->|Ne].
    + pose proof (read_irq_cascade parent_irq st w Hm Hw) as E. cbv zeta in E. destruct (Z.leb_spec 0 (pic_get_irq false (pic1 st))) as [G2|G2].
      * pose proof (pic_get_irq_wins false (pic1 st) Hs G2) as Hw2. apply U in E; [|split; cbn; auto with pic]. destruct E as (st' & w' & -> & Se). eexists _, _. split; [exact Se|]. cbn. split_and!.
        -- intros n Hn. now rewrite (wins_unique _ _ _ _ Hn Hw).
        -- intros _ n Hn. rewrite (wins_unique _ _ _ _ Hn Hw2). split_and!; [done|now apply acknowledged_intack|]. apply acknowledged_intack; [done|apply Hw2].
        -- intros _ Hno. exfalso. eauto.
        -- intros Hno. exfalso. eauto.
      * apply U in E; [|split; cbn; auto with pic]. destruct E as (st' & w' & -> & Se). eexists _, _. split; [exact Se|]. cbn. split_and!.
        -- intros n Hn. now rewrite (wins_unique _ _ _ _ Hn Hw).
        -- intros _ n Hn. rewrite (wins_pic_get_irq _ _ _ Hs Hn) in G2. destruct Hn. lia.
        -- intros _ _. split_and!; [done|now apply acknowledged_intack|done].
        -- intros Hno. exfalso. eauto.
    + pose proof (read_irq_master parent_irq st w Hm n Hw Ne) as E. apply U in E; [|split; cbn; auto with pic]. destruct E as (st' & w' & -> & Se). eexists _, _. split; [exact Se|]. cbn. split_and!.
      * intros k Hk _. rewrite (wins_unique _ _ _ _ Hk Hw). split_and!; [done|apply acknowledged_intack; [done|apply Hw]|done].
      * intros H2. exfalso. apply Ne. exact (wins_unique _ _ _ _ Hw H2).
      * intros H2. exfalso. apply Ne. exact (wins_unique _ _ _ _ Hw H2).
      * intros Hno. exfalso. eauto.
  - assert (~ exists n, wins true (pic0 st) n) as Hno by (intros [n Hn]; rewrite (wins_pic_get_irq _ _ _ Hm Hn) in G; destruct Hn; lia).
    pose proof (read_irq_spurious parent_irq st w Hm Hno) as E. apply U in E; [|now split]. destruct E as (st' & w' & -> & Se). eexists _, _. split; [exact Se|]. split_and!; try (intros; exfalso; eauto; fail). done.
Qed.

(** IRQ 12 (slave input 4) pending behind the cascade. *)
Definition pic_cascade_example : PicState2 :=
  (i8259_set_irq recorder 12 1
     (mkPics ((pic_zero 0xf8) <| irq_base := 0x08 |>)
             ((pic_zero 0xde) <| irq_base := 0x70 |>)) []).1.

Lemma pic_cascade_example_ok : pics_ok pic_cascade_example.
Proof.
  apply pics_ok_set_irq. split; constructor; cbn; repeat split_and; auto with width.
Qed.

Lemma pic_read_irq_correct_witness :
  (pic_read_irq recorder pic_cascade_example []).1 = 0x74.
Proof.
  pose proof (pic_read_irq_correct recorder pic_cascade_example [] pic_cascade_example_ok) as H.
  assert (wins true (pic0 pic_cascade_example) 2) as W2
    by (apply get_irq_wins; [apply pic_cascade_example_ok|lia|by vm_compute]).
  assert (wins false (pic1 pic_cascade_example) 4) as W4
    by (apply get_irq_wins; [apply pic_cascade_example_ok|lia|by vm_compute]).
  destruct (pic_read_irq recorder pic_cascade_example []) as [intno [st' w']].
  destruct H as (m & s & _ & _ & H & _). destruct (H W2 4 W4) as [-> _]. by vm_compute.
Defined.

(** ** Edge detection *)

(** The levels [ls] driven one after the other contain a rising edge, the line
    being at [prev] before. *)
Fixpoint rising (prev : bool) (ls : list Z) : bool :=
  match ls with
  | [] => false
  | l :: ls => (negb prev && truthy l) || rising (truthy l) ls
  end.

(** The last level of the line. *)
Fixpoint last_level (prev : bool) (ls : list Z) : bool :=
  match ls with [] => prev | l :: ls => last_level (truthy l) ls end.

Lemma pic_set_irq1_edge s irq level :
  0 <= irq < 8 -> Z.testbit (elcr s) irq = false ->
  let s' := pic_set_irq1 s irq level in
  Z.testbit (last_irr s') irq = truthy level
  /\ Z.testbit (irr s') irq =
       Z.testbit (irr s) irq || (negb (Z.testbit (last_irr s) irq) && truthy level)
  /\ elcr s' = elcr s.
Proof.
  intros Hi He s'. unfold s', pic_set_irq1. rewrite tst_bit, He, land_bit_eqb by lia.
  destruct (truthy level), (Z.testbit (last_irr s) irq) eqn:El; cbn;
    autorewrite with bits; split_eqb; rewrite ?El; repeat split; btauto.
Qed.

(** an edge-triggered input latches a request exactly when the driven
    levels contain a low-to-high transition; holding the line high or lowering
    it neither repeats nor withdraws a request. *)
Theorem pic_edge_triggered (s : PicState) (irq : Z) (ls : list Z) :
  0 <= irq < 8 -> Z.testbit (elcr s) irq = false ->
  let s' := fold_left (fun s l => pic_set_irq1 s irq l) ls s in
  Z.testbit (irr s') irq = Z.testbit (irr s) irq || rising (Z.testbit (last_irr s) irq) ls
  /\ Z.testbit (last_irr s') irq = last_level (Z.testbit (last_irr s) irq) ls.
Proof.
  intros Hi. revert s. induction ls as [|l ls IH]; intros s He; cbn.
  - now rewrite orb_false_r.
  - destruct (pic_set_irq1_edge s irq l Hi He) as (Hl & Hr & Hel).
    destruct (IH (pic_set_irq1 s irq l)) as [-> ->]; [now rewrite Hel|].
    rewrite Hl, Hr. now rewrite orb_assoc.
Qed.

Lemma pic_edge_triggered_witness :
  Z.testbit (irr (fold_left (fun s l => pic_set_irq1 s 1 l) [1; 1; 0] (pic_zero 0xf8))) 1 = true.
Proof.
  destruct (pic_edge_triggered (pic_zero 0xf8) 1 [1; 1; 0]) as [-> _]; [lia|reflexivity|].
  reflexivity.
Defined.

(** a level-triggered input requests exactly while its line is high. *)
Theorem pic_level_triggered (s : PicState) (irq level : Z) :
  0 <= irq < 8 -> Z.testbit (elcr s) irq = true ->
  let s' := pic_set_irq1 s irq level in
  Z.testbit (irr s') irq = truthy level
  /\ (forall k, 0 <= k < 8 -> k <> irq -> Z.testbit (irr s') k = Z.testbit (irr s) k).
Proof.
  intros Hi He s'. unfold s', pic_set_irq1. rewrite tst_bit, He by lia.
  split; [|intros k Hk Hne]; destruct (truthy level); cbn;
    autorewrite with bits; split_eqb; btauto.
Qed.

Lemma pic_level_triggered_witness :
  Z.testbit (irr (pic_set_irq1 ((pic_zero 0xf8) <| elcr := 0x20 |>) 5 1)) 5 = true.
Proof.
  exact (proj1 (pic_level_triggered ((pic_zero 0xf8) <| elcr := 0x20 |>) 5 1 ltac:(lia) eq_refl)).
Defined.

(** ** The output to the CPU *)

(** re-evaluating the controllers raises the CPU line exactly when the
    master then has a winner, and a slave with a winner that sits behind an
    idle edge-triggered cascade input has its request latched on the master. *)
Theorem pic_update_irq_correct {W : Type} (parent_irq : qemu_irq W) (st : PicState2) (w : W) :
  pics_ok st ->
  let '(st', w') := pic_update_irq parent_irq st w in
  (((exists n, wins true (pic0 st') n) /\ w' = qemu_irq_raise parent_irq w)
   \/ ((~ exists n, wins true (pic0 st') n) /\ w' = w))
  /\ ((exists n, wins false (pic1 st) n) ->
      Z.testbit (elcr (pic0 st)) 2 = false -> Z.testbit (last_irr (pic0 st)) 2 = false ->
      Z.testbit (irr (pic0 st')) 2 = true).
Proof.
  intros Hok. pose proof (pics_ok_update parent_irq st w Hok) as [Hok' _].
  destruct (pic_update_irq parent_irq st w) as [st' w'] eqn:E. cbn in Hok'.
  unfold pic_update_irq in E. cbv zeta in E.
  set (st1 := if 0 <=? pic_get_irq false (pic1 st) then _ else _) in E.
  assert (st' = st1) as -> by (destruct (0 <=? pic_get_irq true (pic0 st1)); congruence).
  split.
  - destruct (Z.leb_spec 0 (pic_get_irq true (pic0 st1))) as [Hge|Hlt]; injection E as <-.
    + left. split; [|done]. eexists. now apply pic_get_irq_wins.
    + right. split; [|done]. intros [n Hw].
      rewrite (wins_pic_get_irq _ _ _ Hok' Hw) in Hlt. destruct Hw; lia.
  - intros [n Hw] He Hl. destruct Hok as [_ Hs1]. unfold st1.
    rewrite (wins_pic_get_irq _ _ _ Hs1 Hw), (proj2 (Z.leb_le 0 n)) by (destruct Hw; lia).
    cbn [over pic0]. destruct (pic_set_irq1_edge (pic0 st) 2 1 ltac:(lia) He) as (Hl1 & Hr1 & He1).
    destruct (pic_set_irq1_edge (pic_set_irq1 (pic0 st) 2 1) 2 0) as (_ & -> & _); [lia|congruence|].
    now rewrite Hr1, Hl, Hl1, orb_true_r.
Qed.

Lemma pic_update_irq_correct_witness :
  (pic_update_irq recorder pic_cascade_example []).2 = [(0, 1)].
Proof.
  pose proof (pic_update_irq_correct recorder pic_cascade_example [] pic_cascade_example_ok) as H.
  destruct (pic_update_irq recorder pic_cascade_example []) as [st' w'] eqn:E.
  destruct H as [[[_ ->]|[Hno _]] _]; [reflexivity|]. exfalso. apply Hno. exists 2.
  replace st' with (pic_update_irq recorder pic_cascade_example []).1 by now rewrite E.
  apply get_irq_wins; [|lia|by vm_compute].
  apply (pics_ok_update recorder pic_cascade_example [] pic_cascade_example_ok).
Defined.

(** ** End of interrupt *)

Lemma get_priority_isr_winner s n :
  pic_ok s -> 0 <= n < 8 ->
  (forall k, 0 <= k < 8 -> Z.testbit (isr s) k = true -> k <> n -> rank s n < rank s k) ->
  Z.testbit (isr s) n = true ->
  (get_priority s (isr s) + priority_add s) mod 8 = n /\ get_priority s (isr s) <> 8.
Proof.
  intros Hok Hn Hbest Hb.
  destruct (get_priority_cases s (isr s)) as [[H0 _]|(Hp & Hpb & Hmin)]; [apply Hok| |].
  { rewrite H0, Z.bits_0 in Hb. discriminate. }
  split; [|lia]. set (p := get_priority s (isr s)) in *.
  pose proof (Hmin n Hn Hb) as Hle.
  pose proof (Z.mod_pos_bound (p + priority_add s) 8 ltac:(lia)) as Hr.
  destruct (decide ((p + priority_add s) mod 8 = n)) as [|Hne]; [done|].
  specialize (Hbest _ Hr Hpb Hne). rewrite rank_of in Hbest by done. lia.
Qed.

Lemma pics_set_pic st i s : pics (set_pic st i s) i = s.
Proof. unfold pics, set_pic. now destruct (i =? 0). Qed.

Lemma write_eoi {W} (parent_irq : qemu_irq W) i st w :
  pic_ioport_write parent_irq i 0 0x20 st w =
  let s := pics st i in
  let p := get_priority s (isr s) in
  if negb (p =? 8) then
    Done (pic_update_irq parent_irq
            (set_pic st i (s <| isr := u8 (isr s .& ~~ (1 << ((p + priority_add s) .& 7))) |>)) w)
  else Done (st, w).
Proof. reflexivity. Qed.

(** The update does not change what is in service. *)
Lemma pic_update_isr {W} (parent_irq : qemu_irq W) st w i :
  pics_ok st -> isr (pics (pic_update_irq parent_irq st w).1 i) = isr (pics st i).
Proof.
  intros Hok. destruct (pic_update_frame parent_irq st w Hok) as (H1 & H0 & _).
  unfold pics. destruct (i =? 0); [rewrite H0; reflexivity|now rewrite H1].
Qed.

(** acknowledge and non-specific EOI are inverse on the in-service
    register: when the winner of priority resolution is acknowledged and the
    handler then writes OCW2 0x20, the register is what it was before, so
    nested handlers unwind in order. *)
Theorem pic_ack_eoi_roundtrip {W : Type} (parent_irq : qemu_irq W) (st : PicState2) (i n : Z) (w : W) :
  pics_ok st -> i = 0 \/ i = 1 ->
  special_mask (pics st i) = 0 -> special_fully_nested_mode (pics st i) = 0 ->
  auto_eoi (pics st i) = 0 ->
  wins (i =? 0) (pics st i) n ->
  exists st' w',
    pic_ioport_write parent_irq i 0 0x20 (set_pic st i (pic_intack (pics st i) n)) w = Done (st', w')
    /\ isr (pics st' i) = isr (pics st i).
Proof.
  intros Hok Hi Hsm Hsf Hae (Hn & Hreq & Hbr & Hbs).
  set (s := pics st i) in *. pose proof (pics_ok_pics st i Hok) as Hs. fold s in Hs.
  unfold in_service in Hbs. rewrite Hsm, Hsf in Hbs. cbn [truthy andb negb Z.eqb] in Hbs.
  set (s1 := pic_intack s n). pose proof (pic_ok_intack s n Hs : pic_ok s1) as Hs1.
  assert (priority_add s1 = priority_add s) as Hpa
    by (unfold s1, pic_intack; rewrite Hae; cbn; split_ifs; reflexivity).
  assert (forall k, rank s1 k = rank s k) as Hrk by (intros k; unfold rank; now rewrite Hpa).
  assert (forall k, 0 <= k < 8 -> Z.testbit (isr s1) k = Z.testbit (isr s) k || (k =? n)) as Hisr1.
  { intros k Hk. unfold s1. rewrite pic_intack_isr, Hae by done. cbn. now rewrite andb_true_r. }
  destruct (get_priority_isr_winner s1 n Hs1 Hn) as [Hw H8].
  { intros k Hk Hb Hne. rewrite !Hrk. apply Hbs; [done|].
    rewrite Hisr1 in Hb by done. rewrite (proj2 (Z.eqb_neq k n) Hne), orb_false_r in Hb. done. }
  { now rewrite Hisr1, Z.eqb_refl, orb_true_r. }
  rewrite write_eoi. cbv zeta. rewrite pics_set_pic, land_7, Hw.
  rewrite (proj2 (Z.eqb_neq _ _) H8). cbn [negb].
  destruct (pic_update_irq _ _ _) as [st' w'] eqn:E. exists st', w'. split; [done|].
  replace st' with (pic_update_irq parent_irq
    (set_pic (set_pic st i s1) i (s1 <| isr := u8 (isr s1 .& ~~ (1 << n)) |>)) w).1 by now rewrite E.
  rewrite pic_update_isr, pics_set_pic
    by (repeat apply pics_ok_set; try done; clear -Hs1; pic_ok_solve Hs1).
  cbn [over isr]. apply Z.bits_inj'. intros k Hk. autorewrite with bits.
  destruct (Z.ltb_spec k 8) as [Hlt|Hge].
  - rewrite Hisr1 by lia. destruct (Z.eqb_spec k n) as [->|]; autorewrite with bits; [|done].
    cbn. destruct (Z.testbit (isr s) n) eqn:Eb; [|done].
    specialize (Hbs n Hn Eb). lia.
  - symmetry. apply (testbit_in_u_high 8); [lia|apply Hs|lia].
Qed.

Lemma pic_ack_eoi_roundtrip_witness :
  exists st' w',
    pic_ioport_write recorder 0 0 0x20
      (set_pic (mkPics pic_example (pic_zero 0xde)) 0 (pic_intack pic_example 1)) [] = Done (st', w')
    /\ isr (pics st' 0) = 0x10.
Proof.
  apply (pic_ack_eoi_roundtrip recorder (mkPics pic_example (pic_zero 0xde)) 0 1 []);
    [|by left|reflexivity|reflexivity|reflexivity|].
  - split; [apply pic_example_ok|apply pics_ok_init].
  - apply get_irq_wins; [apply pic_example_ok|lia|reflexivity].
Defined.

(** ** Initialisation *)

(** the ICW sequence programs a controller: after ICW1 0x11 (edge, cascade,
    ICW4 needed), ICW2, ICW3 and ICW4, the controller is out of the init state
    machine with the vector base of ICW2, auto-EOI and special fully nested
    mode from ICW4, nothing requested, masked or in service, the ELCR kept, the
    other controller untouched and the CPU line lowered once. *)
Theorem pic_init_sequence {W : Type} (parent_irq : qemu_irq W) (st : PicState2) (i : Z)
    (icw2 icw3 icw4 : Z) (w : W) :
  let s := pics st i in
  match pic_ioport_write parent_irq i 0 0x11 st w with
  | HwError => False
  | Done (st1, w1) =>
    match pic_ioport_write parent_irq i 1 icw2 st1 w1 with
    | HwError => False
    | Done (st2, w2) =>
      match pic_ioport_write parent_irq i 1 icw3 st2 w2 with
      | HwError => False
      | Done (st3, w3) =>
          pic_ioport_write parent_irq i 1 icw4 st3 w3 =
          Done (set_pic st i
            ((pic_zero (elcr_mask s)) <| elcr := elcr s |> <| irq_base := icw2 .& 0xf8 |>
               <| init4 := 1 |>
               <| special_fully_nested_mode := (icw4 >> 4) .& 1 |>
               <| auto_eoi := (icw4 >> 1) .& 1 |>),
            qemu_irq_lower parent_irq w)
      end
    end
  end.
Proof. unfold pic_ioport_write, pics, set_pic. destruct (i =? 0); reflexivity. Qed.

(** the only port write that stops the emulator is ICW1 with the level
    triggered mode bit, which the code does not support. *)
Theorem pic_write_aborts_iff {W : Type} (parent_irq : qemu_irq W) (i addr val : Z)
    (st : PicState2) (w : W) :
  pic_ioport_write parent_irq i addr val st w = HwError <->
  addr .& 1 = 0 /\ tst val 0x10 = true /\ tst val 0x08 = true.
Proof.
  unfold pic_ioport_write. destruct (Z.eqb_spec (addr .& 1) 0) as [Ea|Ea].
  - destruct (tst val 0x10) eqn:E1; [destruct (tst val 0x08) eqn:E2|]; cbv zeta.
    + tauto.
    + split; [done|intros (_ & _ & ?); done].
    + split; [repeat case_match; done|intros (_ & ? & _); done].
  - split; [repeat case_match; done|intros (? & _); done].
Qed.

End I8259.
