(* ===== verification/HostUtils.v ===== *)
(** * Host integer helpers: qemu-common.h and host-utils.[ch]

    [muldiv64] scales between clocks for every emulated timer; [mul64] and its
    callers are the 64x64 multiplication of hosts other than x86-64, such as
    the ARM ones this port targets; [clz32] and [ctz32] are the portable binary
    searches. *)

From S2P Require Import Prelude.

Module HostUtils.

(** [u.l.low] and [u.l.high] are the halves of the union. *)
Definition muldiv64 (a b c : Z) : Z :=
  let low := u32 a in
  let high := u64 a >> 32 in
  let rl := u64 (low * b) in
  let rh := u64 (high * b) in
  let rh := u64 (rh + (rl >> 32)) in
  let res_high := u32 (rh / c) in
  let res_low := u32 (u64 (u64 ((rh mod c) << 32) + (rl .& 0xffffffff)) / c) in
  (res_high << 32) .| res_low.

(** A 128-bit value is the pair (low, high) of its halves. *)
Definition add128 (plow phigh a b : Z) : Z * Z :=
  let plow := u64 (plow + a) in
  let phigh := if plow <? a then u64 (phigh + 1) else phigh in
  (plow, u64 (phigh + b)).

Definition neg128 (plow phigh : Z) : Z * Z :=
  add128 (u64 (~~ plow)) (u64 (~~ phigh)) 1 0.

Definition mul64 (a b : Z) : Z * Z :=
  let a0 := u32 a in
  let a1 := u32 (a >> 32) in
  let b0 := u32 b in
  let b1 := u32 (b >> 32) in
  let v := u64 (a0 * b0) in
  let plow := v in
  let phigh := 0 in
  let v := u64 (a0 * b1) in
  let '(plow, phigh) := add128 plow phigh (u64 (v << 32)) (v >> 32) in
  let v := u64 (a1 * b0) in
  let '(plow, phigh) := add128 plow phigh (u64 (v << 32)) (v >> 32) in
  let v := u64 (a1 * b1) in
  (plow, u64 (phigh + v)).

Definition mulu64 (a b : Z) : Z * Z := mul64 a b.

Definition muls64 (a b : Z) : Z * Z :=
  let sa := a <? 0 in
  let a := if sa then s64 (- a) else a in
  let sb := b <? 0 in
  let b := if sb then s64 (- b) else b in
  let '(plow, phigh) := mul64 (u64 a) (u64 b) in
  if xorb sa sb then neg128 plow phigh else (plow, phigh).

Definition clz32 (val : Z) : Z :=
  let cnt := 0 in
  let '(cnt, val) := if negb (tst val 0xFFFF0000) then (cnt + 16, u32 (val << 16)) else (cnt, val) in
  let '(cnt, val) := if negb (tst val 0xFF000000) then (cnt + 8, u32 (val << 8)) else (cnt, val) in
  let '(cnt, val) := if negb (tst val 0xF0000000) then (cnt + 4, u32 (val << 4)) else (cnt, val) in
  let '(cnt, val) := if negb (tst val 0xC0000000) then (cnt + 2, u32 (val << 2)) else (cnt, val) in
  let '(cnt, val) := if negb (tst val 0x80000000) then (cnt + 1, u32 (val << 1)) else (cnt, val) in
  if negb (tst val 0x80000000) then cnt + 1 else cnt.

Definition ctz32 (val : Z) : Z :=
  let cnt := 0 in
  let '(cnt, val) := if negb (tst val 0x0000FFFF) then (cnt + 16, val >> 16) else (cnt, val) in
  let '(cnt, val) := if negb (tst val 0x000000FF) then (cnt + 8, val >> 8) else (cnt, val) in
  let '(cnt, val) := if negb (tst val 0x0000000F) then (cnt + 4, val >> 4) else (cnt, val) in
  let '(cnt, val) := if negb (tst val 0x00000003) then (cnt + 2, val >> 2) else (cnt, val) in
  let '(cnt, val) := if negb (tst val 0x00000001) then (cnt + 1, val >> 1) else (cnt, val) in
  if negb (tst val 0x00000001) then cnt + 1 else cnt.

(** ** Halves of wide integers *)

Lemma shiftr_32 x : x >> 32 = x / 4294967296.
Proof. now rewrite Z.shiftr_div_pow2. Qed.

Lemma shiftl_32 x : x << 32 = x * 4294967296.
Proof. now rewrite Z.shiftl_mul_pow2. Qed.

Lemma land_u32 x : x .& 0xffffffff = u32 x.
Proof. now apply (land_ones_mod x 32). Qed.

(** A high half shifted up and a low half do not overlap. *)
Lemma lor_halves h l : 0 <= l < 4294967296 -> (h * 4294967296) .| l = h * 4294967296 + l.
Proof.
  intros Hl. rewrite <- shiftl_32, Z.add_nocarry_lxor, Z.lxor_lor; auto.
  all: apply Z.bits_inj'; intros i Hi; rewrite Z.land_spec, Z.bits_0, Z.shiftl_spec by lia.
  all: destruct (Z.ltb_spec i 32); [now rewrite (Z.testbit_neg_r h) by lia|].
  all: rewrite (testbit_in_u_high 32 l); [apply andb_false_r|lia|exact Hl|lia].
Qed.

Lemma muldiv64_spec (a b c : Z) :
  in_u 64 a -> in_u 32 b -> 0 < c -> in_u 32 c -> a * b / c < 2 ^ 64 ->
  muldiv64 a b c = a * b / c.
Proof.
  intros [Ha0 Ha1] [Hb0 Hb1] Hc0 [_ Hc1] Hq. unfold muldiv64.
  change (2 ^ 64) with 18446744073709551616 in *. change (2 ^ 32) with 4294967296 in *.
  rewrite land_u32, !shiftr_32, !shiftl_32.
  rewrite (u64_id a) by (split; [done|exact Ha1]).
  set (low := u32 a). set (high := a / 4294967296).
  assert (a = high * 4294967296 + low /\ 0 <= low < 4294967296 /\ 0 <= high < 4294967296)
    as (Ea & Hlow & Hhigh) by (unfold low, high, u32; Z.div_mod_to_equations; lia).
  clearbody low high.
  rewrite (u64_id (low * b)), (u64_id (high * b)) by (split; nia).
  set (rl := low * b). set (rh := u64 (high * b + rl / 4294967296)).
  assert (rl = rl / 4294967296 * 4294967296 + u32 rl) as Erl
    by (unfold u32; Z.div_mod_to_equations; lia).
  pose proof (u32_range rl) as [Hr0 Hr1]. change (2 ^ 32) with 4294967296 in Hr1.
  assert (0 <= rl / 4294967296 < 4294967296) as Hrl by (unfold rl in *; split; [apply Z.div_pos; nia|apply Z.div_lt_upper_bound; nia]).
  assert (rh = high * b + rl / 4294967296) as Erh by (unfold rh; apply u64_id; split; nia).
  assert (a * b = rh * 4294967296 + u32 rl) as Eab by (rewrite Erh, Ea; unfold rl in *; nia).
  clearbody rl rh. rewrite Eab in *. clear Erh Ea.
  pose proof (Z.mod_pos_bound rh c Hc0) as Hm. pose proof (Z.div_mod rh c ltac:(lia)) as Hd.
  rewrite (u64_id (rh mod c * 4294967296)) by (split; nia).
  rewrite (u64_id (rh mod c * 4294967296 + u32 rl)) by (split; nia).
  assert ((rh * 4294967296 + u32 rl) / c =
          rh / c * 4294967296 + (rh mod c * 4294967296 + u32 rl) / c) as Eq.
  { rewrite <- Z.div_add_l by lia. f_equal. nia. }
  rewrite Eq in *.
  assert (0 <= (rh mod c * 4294967296 + u32 rl) / c < 4294967296) as Hlo
    by (split; [apply Z.div_pos; nia|apply Z.div_lt_upper_bound; nia]).
  assert (0 <= rh / c) by (apply Z.div_pos; nia).
  rewrite (u32_id ((rh mod c * 4294967296 + u32 rl) / c)) by exact Hlo.
  rewrite lor_halves by exact Hlo. rewrite u32_id; [done|]. split; [done|].
  change (2 ^ 32) with 4294967296. nia.
Qed.

(** C38: [muldiv64] computes a*b/c rounded down without intermediate overflow,
    for every 64-bit [a] and 32-bit [b] and [c] whose quotient fits 64 bits. *)
Theorem muldiv64_correct (a b c : Z) :
  in_u 64 a -> in_u 32 b -> 0 < c -> in_u 32 c -> a * b / c < 2 ^ 64 ->
  muldiv64 a b c = a * b / c.
Proof. exact (muldiv64_spec a b c). Qed.

Lemma muldiv64_correct_witness :
  muldiv64 123456789012345678 1193182 1000000000 = 147306418427328.
Proof.
  rewrite (muldiv64_correct 123456789012345678 1193182 1000000000);
    [reflexivity|split; lia|split; lia|lia|split; lia|reflexivity].
Defined.

(** ** 128-bit products *)

Definition val128 (p : Z * Z) : Z := p.2 * 18446744073709551616 + p.1.

Lemma add128_val lo hi a b :
  in_u 64 lo -> in_u 64 hi -> in_u 64 a -> in_u 64 b ->
  let r := add128 lo hi a b in
  in_u 64 r.1 /\ in_u 64 r.2
  /\ val128 r = (val128 (lo, hi) + (b * 18446744073709551616 + a)) mod 2 ^ 128.
Proof.
  intros Hlo Hhi Ha Hb r. unfold r, add128, val128. cbn [fst snd].
  repeat split_and; auto with width.
  unfold in_u in *. change (2 ^ 64) with 18446744073709551616 in *.
  change (2 ^ 128) with (18446744073709551616 * 18446744073709551616).
  unfold u64. destruct (Z.ltb_spec ((lo + a) mod 18446744073709551616) a);
    Z.div_mod_to_equations; nia.
Qed.

Lemma neg128_val lo hi :
  in_u 64 lo -> in_u 64 hi ->
  val128 (neg128 lo hi) = (- val128 (lo, hi)) mod 2 ^ 128.
Proof.
  intros Hlo Hhi. unfold neg128.
  destruct (add128_val (u64 (~~ lo)) (u64 (~~ hi)) 1 0) as (_ & _ & ->); auto with width.
  unfold val128. cbn [fst snd]. unfold u64, Z.lnot, Z.pred, in_u in *.
  change (2 ^ 64) with 18446744073709551616 in *.
  change (2 ^ 128) with (18446744073709551616 * 18446744073709551616).
  assert ((- lo + -1) mod 18446744073709551616 = 18446744073709551615 - lo) as ->
    by (Z.div_mod_to_equations; lia).
  assert ((- hi + -1) mod 18446744073709551616 = 18446744073709551615 - hi) as ->
    by (Z.div_mod_to_equations; lia).
  Z.div_mod_to_equations; nia.
Qed.

(** Splitting [v << 32] over the two halves. *)
Lemma split_shift v : 0 <= v ->
  v / 4294967296 * 18446744073709551616 + u64 (v * 4294967296) = v * 4294967296.
Proof. intros. unfold u64. Z.div_mod_to_equations. nia. Qed.

Lemma halves x : in_u 64 x ->
  exists l h, u32 x = l /\ u32 (x >> 32) = h /\ x = h * 4294967296 + l
    /\ 0 <= l < 4294967296 /\ 0 <= h < 4294967296.
Proof.
  intros [H0 H1]. change (2 ^ 64) with 18446744073709551616 in H1.
  exists (u32 x), (u32 (x >> 32)). rewrite shiftr_32. unfold u32.
  rewrite (Z.mod_small (x / 4294967296)) by (Z.div_mod_to_equations; lia).
  repeat split; Z.div_mod_to_equations; lia.
Qed.

(** Adding a 64-bit [v] shifted up by 32, when the sum fits. *)
Lemma add128_shifted lo hi v :
  in_u 64 lo -> in_u 64 hi -> in_u 64 v -> val128 (lo, hi) + v * 4294967296 < 2 ^ 128 ->
  let r := add128 lo hi (u64 (v << 32)) (v >> 32) in
  in_u 64 r.1 /\ in_u 64 r.2 /\ val128 r = val128 (lo, hi) + v * 4294967296.
Proof.
  intros Hlo Hhi Hv Hlt. cbv zeta. rewrite shiftl_32, shiftr_32.
  destruct (add128_val lo hi (u64 (v * 4294967296)) (v / 4294967296)) as (H1 & H2 & H3);
    auto with width.
  { rewrite <- shiftr_32. auto with width. }
  repeat split_and; [done..|]. rewrite H3, split_shift by (destruct Hv; lia).
  apply Z.mod_small. split; [|done]. unfold val128, in_u in *. cbn. nia.
Qed.

Lemma mul64_exact a b : in_u 64 a -> in_u 64 b ->
  let p := mul64 a b in in_u 64 p.1 /\ in_u 64 p.2 /\ val128 p = a * b.
Proof.
  intros Ha Hb. unfold mul64.
  destruct (halves a Ha) as (a0 & a1 & -> & -> & Ea & Ha0 & Ha1).
  destruct (halves b Hb) as (b0 & b1 & -> & -> & Eb & Hb0 & Hb1).
  assert (forall x y, 0 <= x < 4294967296 -> 0 <= y < 4294967296 ->
    0 <= x * y <= 18446744065119617025) as Hprod by (intros; nia).
  pose proof (Hprod a0 b0 Ha0 Hb0) as P00. pose proof (Hprod a0 b1 Ha0 Hb1) as P01.
  pose proof (Hprod a1 b0 Ha1 Hb0) as P10. pose proof (Hprod a1 b1 Ha1 Hb1) as P11.
  rewrite (u64_id (a0 * b0)), (u64_id (a0 * b1)), (u64_id (a1 * b0)), (u64_id (a1 * b1))
    by (unfold in_u; change (2 ^ 64) with 18446744073709551616; lia).
  change (2 ^ 128) with 340282366920938463463374607431768211456 in *.
  destruct (add128_shifted (a0 * b0) 0 (a0 * b1)) as (H1 & H2 & H3);
    [split; lia|split; lia|split; lia|unfold val128; cbn; lia|].
  destruct (add128 _ _ _ _) as [lo1 hi1]. cbn [fst snd] in *.
  destruct (add128_shifted lo1 hi1 (a1 * b0)) as (H4 & H5 & H6);
    [done|done|split; lia|rewrite H3; unfold val128; cbn; lia|].
  destruct (add128 lo1 hi1 _ _) as [lo2 hi2]. cbn [fst snd] in *.
  rewrite H3 in H6. unfold val128 in *. cbn [fst snd] in *.
  assert (hi2 * 18446744073709551616 + lo2 + a1 * b1 * 18446744073709551616 = a * b) as E
    by (rewrite Ea, Eb, H6; ring).
  assert (hi2 + a1 * b1 < 18446744073709551616) as Hhi.
  { unfold in_u in *. change (2 ^ 64) with 18446744073709551616 in *. nia. }
  cbn [fst snd]. rewrite u64_id by (unfold in_u in *; change (2 ^ 64) with 18446744073709551616 in *; lia).
  repeat split_and; [done|unfold in_u in *; lia|]. rewrite <- E. ring.
Qed.

(** the portable 64x64-bit multiplications are exact: the unsigned one
    gives the full product, the signed one the product modulo 2^128, including
    the most negative operand. *)
Theorem mul64_correct (a b : Z) :
  (in_u 64 a -> in_u 64 b -> val128 (mulu64 a b) = a * b)
  /\ (- 2 ^ 63 <= a < 2 ^ 63 -> - 2 ^ 63 <= b < 2 ^ 63 ->
      val128 (muls64 a b) = (a * b) mod 2 ^ 128).
Proof.
  split; [intros; now apply mul64_exact|]. intros Ha Hb. unfold muls64.
  assert (forall x, - 2 ^ 63 <= x < 2 ^ 63 ->
    u64 (if x <? 0 then s64 (- x) else x) = Z.abs x) as Habs.
  { intros x Hx. unfold s64, u64. change (2 ^ 63) with 9223372036854775808 in Hx.
    destruct (Z.ltb_spec x 0); [case_match|]; Z.div_mod_to_equations; lia. }
  rewrite !Habs by done.
  assert (forall x, - 2 ^ 63 <= x < 2 ^ 63 -> in_u 64 (Z.abs x)) as Hu
    by (intros; unfold in_u; lia).
  destruct (mul64_exact (Z.abs a) (Z.abs b)) as (H1 & H2 & H3); auto.
  destruct (mul64 _ _) as [lo hi]. cbn [fst snd] in *.
  assert (0 <= Z.abs a * Z.abs b < 2 ^ 128) as Hbound by nia.
  destruct (Z.ltb_spec a 0), (Z.ltb_spec b 0); cbn [xorb].
  2, 3: rewrite neg128_val, H3 by done; f_equal; nia.
  all: rewrite H3; replace (a * b) with (Z.abs a * Z.abs b) by nia;
    symmetry; now apply Z.mod_small.
Qed.

Lemma mul64_correct_witness :
  val128 (mulu64 0xfffffffffffffff1 0xfedcba9876543210)
    = 0xfffffffffffffff1 * 0xfedcba9876543210.
Proof. apply (proj1 (mul64_correct _ _)); split; lia. Defined.

(** ** Leading and trailing zeros *)

Lemma tst_high_mask v k : in_u 32 v -> 0 <= k <= 32 ->
  tst v (Z.ones (32 - k) << k) = negb (v <? 2 ^ k).
Proof.
  intros Hv Hk. unfold tst, truthy. f_equal.
  destruct (Z.ltb_spec v (2 ^ k)) as [Hlt|Hge].
  - apply Z.eqb_eq, Z.bits_inj'. intros i Hi. rewrite Z.land_spec, Z.bits_0, Z.shiftl_spec by lia.
    destruct (Z.ltb_spec i k); [rewrite (Z.testbit_neg_r (Z.ones _)) by lia; apply andb_false_r|].
    rewrite (testbit_in_u_high k v); [done|lia|destruct Hv; split; lia|lia].
  - apply Z.eqb_neq. intros H0.
    assert (0 < v) by (assert (0 < 2 ^ k) by (apply Z.pow_pos_nonneg; lia); lia).
    assert (k <= Z.log2 v < 32) as Hl by (split; [apply Z.log2_le_pow2|apply Z.log2_lt_pow2]; destruct Hv; lia).
    apply (f_equal (fun x => Z.testbit x (Z.log2 v))) in H0.
    rewrite Z.land_spec, Z.bits_0, Z.bit_log2, Z.shiftl_spec, Z.ones_spec_low in H0 by lia.
    discriminate.
Qed.

Definition clz_stage (n : Z) (p : Z * Z) : Z * Z :=
  if negb (tst p.2 (Z.ones n << (32 - n))) then (p.1 + n, u32 (p.2 << n)) else p.

Lemma clz_stage_ok n cnt v :
  0 < n <= 16 -> in_u 32 v -> 2 ^ (32 - 2 * n) <= v ->
  let p := clz_stage n (cnt, v) in
  in_u 32 p.2 /\ 2 ^ (32 - n) <= p.2 /\ p.1 - Z.log2 p.2 = cnt - Z.log2 v.
Proof.
  intros Hn Hv Hlo. unfold clz_stage. cbn [fst snd].
  pose proof (tst_high_mask v (32 - n) Hv ltac:(lia)) as Ht.
  replace (32 - (32 - n)) with n in Ht by lia. rewrite Ht, negb_involutive.
  destruct (Z.ltb_spec v (2 ^ (32 - n))) as [Hlt|Hge]; cbn [fst snd]; [|done].
  assert (0 < 2 ^ (32 - 2 * n)) by (apply Z.pow_pos_nonneg; lia).
  assert (2 ^ (32 - n) * 2 ^ n = 2 ^ 32) as E1 by (rewrite <- Z.pow_add_r by lia; f_equal; lia).
  assert (2 ^ (32 - 2 * n) * 2 ^ n = 2 ^ (32 - n)) as E2 by (rewrite <- Z.pow_add_r by lia; f_equal; lia).
  assert (0 < 2 ^ n) by (apply Z.pow_pos_nonneg; lia).
  rewrite Z.shiftl_mul_pow2 by lia. rewrite u32_id by (split; nia).
  repeat split; [nia|nia|nia|].
  rewrite Z.log2_mul_pow2 by lia. lia.
Qed.

Definition ctz_stage (n : Z) (p : Z * Z) : Z * Z :=
  if negb (tst p.2 (Z.ones n)) then (p.1 + n, p.2 >> n) else p.

Lemma ctz_stage_ok n cnt v :
  0 < n -> 0 < v -> v mod 2 ^ (2 * n) <> 0 ->
  let p := ctz_stage n (cnt, v) in
  0 < p.2 <= v /\ p.2 mod 2 ^ n <> 0 /\ cnt <= p.1 <= cnt + n /\ v = p.2 * 2 ^ (p.1 - cnt).
Proof.
  intros Hn Hv Hmod. unfold ctz_stage, tst, truthy. cbn [fst snd].
  rewrite negb_involutive, Z.land_ones by lia.
  assert (0 < 2 ^ n) by (apply Z.pow_pos_nonneg; lia).
  destruct (Z.eqb_spec (v mod 2 ^ n) 0) as [E|E]; cbn [fst snd].
  - rewrite Z.shiftr_div_pow2 by lia. replace (2 * n) with (n + n) in Hmod by lia.
    rewrite Z.pow_add_r in Hmod by lia.
    pose proof (Z.div_mod v (2 ^ n) ltac:(lia)) as Ed. rewrite E, Z.add_0_r in Ed.
    rewrite Z.rem_mul_r, E in Hmod by lia.
    replace (cnt + n - cnt) with n by lia. set (q := v / 2 ^ n) in *.
    repeat split; try lia; nia.
  - rewrite Z.sub_diag, Z.pow_0_r, Z.mul_1_r. repeat split; lia.
Qed.

Ltac fold_clz m n :=
  match goal with
  | |- context [if negb (tst ?v m) then (?c + n, u32 (?v << n)) else (?c, ?v)] =>
      change (if negb (tst v m) then (c + n, u32 (v << n)) else (c, v)) with (clz_stage n (c, v));
      destruct (clz_stage n (c, v))
  end.

Lemma clz32_stages v : clz32 v =
  let p := clz_stage 1 (clz_stage 2 (clz_stage 4 (clz_stage 8 (clz_stage 16 (0, v))))) in
  if negb (tst p.2 0x80000000) then p.1 + 1 else p.1.
Proof.
  unfold clz32. cbv zeta.
  fold_clz 0xFFFF0000 16. fold_clz 0xFF000000 8. fold_clz 0xF0000000 4.
  fold_clz 0xC0000000 2. fold_clz 0x80000000 1. reflexivity.
Qed.

Ltac fold_ctz m n :=
  match goal with
  | |- context [if negb (tst ?v m) then (?c + n, ?v >> n) else (?c, ?v)] =>
      change (if negb (tst v m) then (c + n, v >> n) else (c, v)) with (ctz_stage n (c, v));
      destruct (ctz_stage n (c, v))
  end.

Lemma ctz32_stages v : ctz32 v =
  let p := ctz_stage 1 (ctz_stage 2 (ctz_stage 4 (ctz_stage 8 (ctz_stage 16 (0, v))))) in
  if negb (tst p.2 1) then p.1 + 1 else p.1.
Proof.
  unfold ctz32. cbv zeta.
  fold_ctz 0xFFFF 16. fold_ctz 0xFF 8. fold_ctz 0xF 4. fold_ctz 3 2. fold_ctz 1 1. reflexivity.
Qed.

Lemma clz32_log2 v : 0 < v -> in_u 32 v -> clz32 v = 31 - Z.log2 v.
Proof.
  intros H0 Hv. rewrite clz32_stages. cbv zeta.
  destruct (clz_stage_ok 16 0 v) as (A1 & A2 & A3); [lia|done|cbn; lia|].
  destruct (clz_stage 16 (0, v)) as [c1 v1]. cbn [fst snd] in *.
  destruct (clz_stage_ok 8 c1 v1) as (B1 & B2 & B3); [lia|done|done|].
  destruct (clz_stage 8 (c1, v1)) as [c2 v2]. cbn [fst snd] in *.
  destruct (clz_stage_ok 4 c2 v2) as (C1 & C2 & C3); [lia|done|done|].
  destruct (clz_stage 4 (c2, v2)) as [c3 v3]. cbn [fst snd] in *.
  destruct (clz_stage_ok 2 c3 v3) as (D1 & D2 & D3); [lia|done|done|].
  destruct (clz_stage 2 (c3, v3)) as [c4 v4]. cbn [fst snd] in *.
  destruct (clz_stage_ok 1 c4 v4) as (E1 & E2 & E3); [lia|done|done|].
  destruct (clz_stage 1 (c4, v4)) as [c5 v5]. cbn [fst snd] in *.
  change 0x80000000 with (Z.ones (32 - 31) << 31). rewrite tst_high_mask by (done || lia).
  change (2 ^ (32 - 1)) with (2 ^ 31) in E2.
  rewrite (proj2 (Z.ltb_ge v5 (2 ^ 31)) E2). cbn [negb].
  assert (Z.log2 v5 = 31) by (apply Z.log2_unique; [lia|destruct E1; split; [done|exact H1]]).
  lia.
Qed.

Lemma ctz32_odd v : 0 < v -> in_u 32 v ->
  exists q, 0 <= ctz32 v < 32 /\ v = q * 2 ^ ctz32 v /\ Z.odd q = true.
Proof.
  intros H0 Hv. rewrite ctz32_stages. cbv zeta.
  destruct (ctz_stage_ok 16 0 v) as (A1 & A2 & A3 & A4);
    [lia|done|rewrite Z.mod_small by exact Hv; lia|].
  destruct (ctz_stage 16 (0, v)) as [c1 v1]. cbn [fst snd] in *.
  destruct (ctz_stage_ok 8 c1 v1) as (B1 & B2 & B3 & B4); [lia|lia|done|].
  destruct (ctz_stage 8 (c1, v1)) as [c2 v2]. cbn [fst snd] in *.
  destruct (ctz_stage_ok 4 c2 v2) as (C1 & C2 & C3 & C4); [lia|lia|done|].
  destruct (ctz_stage 4 (c2, v2)) as [c3 v3]. cbn [fst snd] in *.
  destruct (ctz_stage_ok 2 c3 v3) as (D1 & D2 & D3 & D4); [lia|lia|done|].
  destruct (ctz_stage 2 (c3, v3)) as [c4 v4]. cbn [fst snd] in *.
  destruct (ctz_stage_ok 1 c4 v4) as (E1 & E2 & E3 & E4); [lia|lia|done|].
  destruct (ctz_stage 1 (c4, v4)) as [c5 v5]. cbn [fst snd] in *.
  assert (Z.odd v5 = true) as Hodd.
  { rewrite Zodd_mod. apply Z.eqb_eq. change (2 ^ 1) with 2 in E2.
    pose proof (Z.mod_pos_bound v5 2). lia. }
  change (tst v5 1) with (tst v5 (1 << 0)). rewrite tst_bit, Z.bit0_odd, Hodd by lia. cbn [negb].
  exists v5. assert (v = v5 * 2 ^ c5) as Ev.
  { rewrite A4, B4, C4, D4, E4. rewrite <- !Z.mul_assoc, <- !Z.pow_add_r by lia. do 2 f_equal. lia. }
  repeat split; [lia| |done|done].
  destruct (Z.lt_ge_cases c5 32) as [|Hge]; [done|].
  assert (2 ^ 32 <= 2 ^ c5) by (apply Z.pow_le_mono_r; lia). destruct Hv. nia.
Qed.

(** The portable bit scans: [clz32] locates the most significant and
    [ctz32] the least significant set bit of every non-zero 32-bit value, and
    both give 32 for zero. *)
Theorem clz32_ctz32_correct (v : Z) :
  in_u 32 v ->
  (v = 0 -> clz32 v = 32 /\ ctz32 v = 32)
  /\ (v <> 0 ->
      0 <= clz32 v < 32 /\ Z.testbit v (31 - clz32 v) = true
      /\ (forall i, 31 - clz32 v < i -> Z.testbit v i = false)
      /\ 0 <= ctz32 v < 32 /\ Z.testbit v (ctz32 v) = true
      /\ (forall i, i < ctz32 v -> Z.testbit v i = false)).
Proof.
  intros Hv. split; [intros ->; split; reflexivity|]. intros Hne.
  assert (0 < v) as H0 by (destruct Hv; lia).
  rewrite clz32_log2 by done. replace (31 - (31 - Z.log2 v)) with (Z.log2 v) by lia.
  pose proof (Z.log2_nonneg v) as Hl0.
  assert (Z.log2 v < 32) as Hl1 by (apply Z.log2_lt_pow2; [done|apply Hv]).
  destruct (ctz32_odd v H0 Hv) as (q & Hc & Ev & Hq).
  repeat split_and; try lia.
  - now apply Z.bit_log2.
  - intros i Hi. apply Z.bits_above_log2; lia.
  - rewrite Ev at 1. rewrite Z.mul_pow2_bits, Z.sub_diag, Z.bit0_odd by lia. done.
  - intros i Hi. rewrite Ev at 1. rewrite Z.mul_pow2_bits, Z.testbit_neg_r by lia. done.
Qed.

Lemma clz32_ctz32_correct_witness :
  Z.testbit 0x00f0a000 (31 - clz32 0x00f0a000) = true /\ ctz32 0x00f0a000 = 13.
Proof.
  destruct (clz32_ctz32_correct 0x00f0a000) as [_ H]; [split; lia|].
  split; [apply H; lia|reflexivity].
Defined.

End HostUtils.
