(* ===== verification/I8254.v ===== *)
(** * The 8254 interval timer: hw/i8254.c

    [PITChannelState] and [PITState] are the structs of the same names.  The
    virtual clock is the argument [now] (nanoseconds).  A [QEMUTimer *] is
    [None] for NULL, [Some None] for a timer that is not pending and
    [Some (Some t)] for one pending at [t]; channel 0 owns the only timer, whose
    output line is [irq]. *)

From S2P Require Import Prelude Irq HostUtils.
Import Irq HostUtils.

Module I8254.

Definition PIT_FREQ : Z := 1193182.
Definition get_ticks_per_sec : Z := 1000000000.

Definition RW_STATE_LSB : Z := 1.
Definition RW_STATE_MSB : Z := 2.
Definition RW_STATE_WORD0 : Z := 3.
Definition RW_STATE_WORD1 : Z := 4.

Record PITChannelState := mkChan {
  count : Z;                 (* can be 65536 *)
  latched_count : Z;
  count_latched : Z;
  status_latched : Z;
  status : Z;
  read_state : Z;
  write_state : Z;
  write_latch : Z;
  rw_mode : Z;
  mode : Z;
  bcd : Z;
  gate : Z;
  count_load_time : Z;
  next_transition_time : Z;
  irq_timer : option (option Z)
}.

#[export] Instance PITChannelState_eta : Eta PITChannelState := fun s =>
  mkChan (count s) (latched_count s) (count_latched s) (status_latched s) (status s)
    (read_state s) (write_state s) (write_latch s) (rw_mode s) (mode s) (bcd s) (gate s)
    (count_load_time s) (next_transition_time s) (irq_timer s).

(** [PITState]: its [channels[3]]. *)
Abbreviation PITState := (list PITChannelState).

(** Timer ticks elapsed at [t] since the counter was loaded. *)
Definition elapsed (s : PITChannelState) (t : Z) : Z :=
  muldiv64 (u64 (t - count_load_time s)) PIT_FREQ get_ticks_per_sec.

Definition pit_get_count (now : Z) (s : PITChannelState) : Z :=
  let d := elapsed s now in
  let cnt := u64 (count s) in
  match mode s with
  | 0 | 1 | 4 | 5 => s32 (u64 (cnt - d) .& 0xffff)
  | 3 => s32 (u64 (cnt - u64 (2 * d) mod cnt))
  | _ => s32 (u64 (cnt - d mod cnt))
  end.

Definition pit_get_out1 (s : PITChannelState) (current_time : Z) : Z :=
  let d := elapsed s current_time in
  let cnt := u64 (count s) in
  match mode s with
  | 1 => b2z (d <? cnt)
  | 2 => if (d mod cnt =? 0) && negb (d =? 0) then 1 else 0
  | 3 => b2z (d mod cnt <? u64 ((count s + 1) >> 1))
  | 4 | 5 => b2z (d =? cnt)
  | _ => b2z (cnt <=? d)
  end.

Definition pit_get_out (pit : PITState) (channel current_time : Z) : option Z :=
  s ← pit !! Z.to_nat channel; Some (pit_get_out1 s current_time).

(** The tick of the next transition, before conversion to nanoseconds. *)
Definition next_tick (s : PITChannelState) (d : Z) : option Z :=
  let cnt := u64 (count s) in
  match mode s with
  | 2 =>
      let base := u64 (d / cnt * cnt) in
      if (u64 (d - base) =? 0) && negb (d =? 0) then Some (u64 (base + cnt))
      else Some (u64 (base + cnt + 1))
  | 3 =>
      let base := u64 (d / cnt * cnt) in
      let period2 := (count s + 1) >> 1 in
      if u64 (d - base) <? u64 period2 then Some (u64 (base + period2))
      else Some (u64 (base + cnt))
  | 4 | 5 =>
      if d <? cnt then Some cnt
      else if d =? cnt then Some (u64 (count s + 1)) else None
  | _ => if d <? cnt then Some cnt else None
  end.

Definition pit_get_next_transition_time (s : PITChannelState) (current_time : Z) : Z :=
  match next_tick s (elapsed s current_time) with
  | None => -1
  | Some next_time =>
      (* convert to timer units *)
      let next_time := u64 (count_load_time s + muldiv64 next_time get_ticks_per_sec PIT_FREQ) in
      (* fix potential rounding problems *)
      let next_time := if next_time <=? u64 current_time
                       then u64 (current_time + 1) else next_time in
      s64 next_time
  end.

Section Pit.
Context {W : Type} (irq : qemu_irq W).

Definition pit_irq_timer_update (s : PITChannelState) (current_time : Z) (w : W)
  : PITChannelState * W :=
  match irq_timer s with
  | None => (s, w)
  | Some _ =>
      let expire_time := pit_get_next_transition_time s current_time in
      let irq_level := pit_get_out1 s current_time in
      let w := qemu_set_irq irq irq_level w in
      let s := s <| next_transition_time := expire_time |> in
      if negb (expire_time =? -1)
      then (s <| irq_timer := Some (Some expire_time) |>, w)
      else (s <| irq_timer := Some None |>, w)
  end.

Definition pit_irq_timer (s : PITChannelState) (w : W) : PITChannelState * W :=
  pit_irq_timer_update s (next_transition_time s) w.

(** [pit->channels[channel]] replaced through a pointer to it; [None] when the
    index is outside the array. *)
Definition with_channel {A} (pit : PITState) (channel : Z) (w : W)
    (f : PITChannelState -> A * (PITChannelState * W)) : option (A * (PITState * W)) :=
  s ← pit !! Z.to_nat channel;
  let '(a, (s, w)) := f s in
  Some (a, (<[Z.to_nat channel := s]> pit, w)).

Definition pit_set_gate (pit : PITState) (channel val now : Z) (w : W)
  : option (unit * (PITState * W)) :=
  with_channel pit channel w (fun s =>
    let '(s, w) :=
      match mode s with
      | 1 | 5 | 2 | 3 =>
          if gate s <? val then
            (* restart counting on rising edge *)
            let s := s <| count_load_time := now |> in
            pit_irq_timer_update s (count_load_time s) w
          else (s, w)
      | _ => (s, w)
      end in
    (tt, (s <| gate := u8 val |>, w))).

Definition pit_get_gate (pit : PITState) (channel : Z) : option Z :=
  gate <$> pit !! Z.to_nat channel.
Definition pit_get_initial_count (pit : PITState) (channel : Z) : option Z :=
  count <$> pit !! Z.to_nat channel.
Definition pit_get_mode (pit : PITState) (channel : Z) : option Z :=
  mode <$> pit !! Z.to_nat channel.

Definition pit_load_count (s : PITChannelState) (val now : Z) (w : W) : PITChannelState * W :=
  let val := if val =? 0 then 0x10000 else val in
  let s := s <| count_load_time := now |> in
  let s := s <| count := val |> in
  pit_irq_timer_update s (count_load_time s) w.

Definition pit_latch_count (now : Z) (s : PITChannelState) : PITChannelState :=
  if negb (truthy (count_latched s)) then
    let s := s <| latched_count := u16 (pit_get_count now s) |> in
    s <| count_latched := rw_mode s |>
  else s.

(** One channel of the read back command. *)
Definition pit_read_back (val now : Z) (channel : nat) (s : PITChannelState) : PITChannelState :=
  if tst val (2 << Z.of_nat channel) then
    let s := if negb (tst val 0x20) then pit_latch_count now s else s in
    if negb (tst val 0x10) && negb (truthy (status_latched s)) then
      (* status latch *)
      let s := s <| status := u8 ((pit_get_out1 s now << 7) .| (rw_mode s << 4)
                                  .| (mode s << 1) .| bcd s) |> in
      s <| status_latched := 1 |>
    else s
  else s.

Definition pit_ioport_write (addr val now : Z) (pit : PITState) (w : W)
  : option (unit * (PITState * W)) :=
  let addr := addr .& 3 in
  if addr =? 3 then
    let channel := val >> 6 in
    if channel =? 3 then
      (* read back command *)
      Some (tt, (imap (pit_read_back val now) pit, w))
    else
      with_channel pit channel w (fun s =>
        let access := (val >> 4) .& 3 in
        if access =? 0 then (tt, (pit_latch_count now s, w))
        else
          let s := s <| rw_mode := access |> in
          let s := s <| read_state := access |> in
          let s := s <| write_state := access |> in
          let s := s <| mode := (val >> 1) .& 7 |> in
          let s := s <| bcd := val .& 1 |> in
          (tt, (s, w)))
  else
    with_channel pit addr w (fun s =>
      (tt,
       match write_state s with
       | 2 => pit_load_count s (val << 8) now w
       | 3 =>
           let s := s <| write_latch := u8 val |> in
           (s <| write_state := RW_STATE_WORD1 |>, w)
       | 4 =>
           let '(s, w) := pit_load_count s (write_latch s .| (val << 8)) now w in
           (s <| write_state := RW_STATE_WORD0 |>, w)
       | _ => pit_load_count s val now w
       end)).

Definition pit_ioport_read (addr now : Z) (pit : PITState) (w : W)
  : option (Z * (PITState * W)) :=
  let addr := addr .& 3 in
  with_channel pit addr w (fun s =>
    if truthy (status_latched s) then
      let s := s <| status_latched := 0 |> in
      (status s, (s, w))
    else if truthy (count_latched s) then
      match count_latched s with
      | 2 => (latched_count s >> 8, (s <| count_latched := 0 |>, w))
      | 3 => (latched_count s .& 0xff, (s <| count_latched := RW_STATE_MSB |>, w))
      | _ => (latched_count s .& 0xff, (s <| count_latched := 0 |>, w))
      end
    else
      let cnt := pit_get_count now s in
      match read_state s with
      | 2 => ((cnt >> 8) .& 0xff, (s, w))
      | 3 => (cnt .& 0xff, (s <| read_state := RW_STATE_WORD1 |>, w))
      | 4 => ((cnt >> 8) .& 0xff, (s <| read_state := RW_STATE_WORD0 |>, w))
      | _ => (cnt .& 0xff, (s, w))
      end).

(** The [for] loop of [pit_reset], in channel order. *)
Fixpoint pit_reset_from (i : Z) (now : Z) (pit : PITState) (w : W) : PITState * W :=
  match pit with
  | [] => ([], w)
  | s :: rest =>
      let s := s <| mode := 3 |> in
      let s := s <| gate := b2z (negb (i =? 2)) |> in
      let '(s, w) := pit_load_count s 0 now w in
      let '(rest, w) := pit_reset_from (i + 1) now rest w in
      (s :: rest, w)
  end.

Definition pit_reset (now : Z) (pit : PITState) (w : W) : PITState * W :=
  pit_reset_from 0 now pit w.

Definition hpet_pit_disable (pit : PITState) : PITState :=
  match pit with
  | s :: rest =>
      (match irq_timer s with
       | Some _ => s <| irq_timer := Some None |>
       | None => s
       end) :: rest
  | [] => []
  end.

Definition hpet_pit_enable (now : Z) (pit : PITState) (w : W) : option (unit * (PITState * W)) :=
  with_channel pit 0 w (fun s =>
    let s := s <| mode := 3 |> in
    let s := s <| gate := 1 |> in
    (tt, pit_load_count s 0 now w)).

End Pit.

(** The zeroed device of [pit_initfn], with the timer of channel 0. *)
Definition chan_zero (timer : option (option Z)) : PITChannelState :=
  {| count := 0; latched_count := 0; count_latched := 0; status_latched := 0; status := 0;
     read_state := 0; write_state := 0; write_latch := 0; rw_mode := 0; mode := 0; bcd := 0;
     gate := 0; count_load_time := 0; next_transition_time := 0; irq_timer := timer |}.

Definition pit_initfn : PITState := [chan_zero (Some None); chan_zero None; chan_zero None].

(** ** The waveform

    [tick s t] is the counter clock at time [t], and [out_at m c d] the output
    of a counter of mode [m] loaded with [c] at its clock [d]. *)

Definition tick (s : PITChannelState) (t : Z) : Z :=
  (t - count_load_time s) * PIT_FREQ / get_ticks_per_sec.

Definition tick_ns (N : Z) : Z := N * get_ticks_per_sec / PIT_FREQ.

Definition out_at (m c d : Z) : bool :=
  match m with
  | 1 => d <? c
  | 2 => (d mod c =? 0) && negb (d =? 0)
  | 3 => d mod c <? (c + 1) / 2
  | 4 | 5 => d =? c
  | _ => c <=? d
  end.

(** The clock has not run for 146 years, the counter was loaded in the past
    and holds a legal count. *)
Definition count_ok (s : PITChannelState) : Prop := 1 <= count s <= 65536.

Definition clock_ok (s : PITChannelState) (t : Z) : Prop :=
  0 <= count_load_time s <= t /\ t < 2 ^ 62.

Lemma tick_range s t : clock_ok s t -> 0 <= tick s t < 2 ^ 53.
Proof.
  unfold clock_ok, tick, PIT_FREQ, get_ticks_per_sec. intros [H0 H1].
  change (2 ^ 62) with 4611686018427387904 in H1. change (2 ^ 53) with 9007199254740992.
  split; [apply Z.div_pos; lia|apply Z.div_lt_upper_bound; lia].
Qed.

Lemma elapsed_tick s t : clock_ok s t -> elapsed s t = tick s t.
Proof.
  intros H. pose proof (tick_range s t H) as [_ Hr]. unfold elapsed.
  destruct H as [H0 H1]. change (2 ^ 62) with 4611686018427387904 in H1.
  rewrite (u64_id (t - count_load_time s)) by (split; lia).
  apply muldiv64_spec; [split; lia|split; done..|split; done|].
  unfold tick in Hr. lia.
Qed.

Lemma half_up c : (c + 1) >> 1 = (c + 1) / 2.
Proof. apply Z.shiftr_div_pow2. lia. Qed.

Lemma count_u64 s : count_ok s -> u64 (count s) = count s.
Proof. unfold count_ok. intros. apply u64_id. split; lia. Qed.

Lemma pit_get_out1_at s t : count_ok s -> clock_ok s t ->
  pit_get_out1 s t = b2z (out_at (mode s) (count s) (tick s t)).
Proof.
  intros Hc Ht. unfold pit_get_out1, out_at. rewrite elapsed_tick, count_u64, half_up by done.
  rewrite (u64_id ((count s + 1) / 2)) by (unfold count_ok in Hc; split; Z.div_mod_to_equations; lia).
  repeat case_match; reflexivity.
Qed.

(** [next_tick] without the 64-bit arithmetic. *)
Definition next_at (m c d : Z) : option Z :=
  match m with
  | 2 => let base := d / c * c in
         if (d - base =? 0) && negb (d =? 0) then Some (base + c) else Some (base + c + 1)
  | 3 => let base := d / c * c in
         if d - base <? (c + 1) / 2 then Some (base + (c + 1) / 2) else Some (base + c)
  | 4 | 5 => if d <? c then Some c else if d =? c then Some (c + 1) else None
  | _ => if d <? c then Some c else None
  end.

Lemma base_range c d : 1 <= c -> 0 <= d -> 0 <= d / c * c <= d /\ d < d / c * c + c.
Proof.
  intros Hc Hd. pose proof (Z.div_mod d c). pose proof (Z.mod_pos_bound d c).
  pose proof (Z.div_pos d c). nia.
Qed.

Lemma next_tick_at s d : count_ok s -> 0 <= d < 2 ^ 53 ->
  next_tick s d = next_at (mode s) (count s) d.
Proof.
  unfold count_ok. intros Hc Hd. change (2 ^ 53) with 9007199254740992 in Hd.
  unfold next_tick, next_at. rewrite count_u64, half_up by done.
  destruct (base_range (count s) d) as [Hb0 Hb1]; [lia..|].
  set (base := d / count s * count s) in *. clearbody base.
  assert (0 <= (count s + 1) / 2 <= 65536) as Hh by (Z.div_mod_to_equations; lia).
  cbv zeta. rewrite (u64_id base) by (split; lia).
  rewrite (u64_id (d - base)), (u64_id (base + count s)), (u64_id (base + count s + 1)),
    (u64_id (base + (count s + 1) / 2)), (u64_id ((count s + 1) / 2)), (u64_id (count s + 1))
    by (split; lia).
  repeat case_match; reflexivity.
Qed.

Lemma next_at_range m c d N : 1 <= c <= 65536 -> 0 <= d ->
  next_at m c d = Some N -> d < N <= d + c + 1.
Proof.
  intros Hc Hd. unfold next_at. destruct (base_range c d) as [Hb0 Hb1]; [lia..|].
  set (base := d / c * c) in *. clearbody base. cbv zeta.
  intros H. repeat case_match; simplify_eq; Z.div_mod_to_equations; lia.
Qed.

(** Within one period the phase is the offset from its start. *)
Lemma phase c d d' : 1 <= c -> d / c * c <= d' < d / c * c + c -> d' mod c = d' - d / c * c.
Proof. intros Hc H. symmetry. apply Z.mod_unique with (d / c); lia. Qed.

(** Between [d] and the next transition the output keeps its level. *)
Lemma next_at_const m c d d' : 1 <= c -> 0 <= d <= d' -> m <> 2 ->
  (forall N, next_at m c d = Some N -> d' < N) -> out_at m c d' = out_at m c d.
Proof.
  intros Hc Hd Hm. unfold next_at, out_at. cbv zeta.
  destruct (base_range c d) as [Hb0 Hb1]; [lia..|].
  pose proof (phase c d) as Hp. set (base := d / c * c) in *. clearbody base.
  intros HN. apply Bool.eq_iff_eq_true.
  repeat case_match; try congruence; try specialize (HN _ eq_refl);
    rewrite ?Z.ltb_lt, ?Z.ltb_ge, ?Z.leb_le, ?Z.leb_gt, ?Z.eqb_eq, ?Z.eqb_neq in *; try lia;
    rewrite !Hp by (Z.div_mod_to_equations; lia); Z.div_mod_to_equations; lia.
Qed.

(** At the next transition the output changes. *)
Lemma next_at_flip m c d N : 1 <= c -> (m = 3 -> 2 <= c) -> 0 <= d -> m <> 2 ->
  next_at m c d = Some N -> out_at m c N = negb (out_at m c d).
Proof.
  intros Hc H3 Hd Hm. unfold next_at, out_at. cbv zeta.
  destruct (base_range c d) as [Hb0 Hb1]; [lia..|].
  pose proof (phase c d d) as Hp. pose proof (phase c d (d / c * c + (c + 1) / 2)) as Hp'.
  assert ((d / c * c + c) mod c = 0) as Hz
    by (replace (d / c * c + c) with ((d / c + 1) * c) by lia; apply Z.mod_mul; lia).
  set (base := d / c * c) in *. clearbody base.
  intros HN. apply Bool.eq_iff_eq_true. rewrite negb_true_iff.
  repeat case_match; simplify_eq;
    rewrite ?Z.ltb_lt, ?Z.ltb_ge, ?Z.leb_le, ?Z.leb_gt, ?Z.eqb_eq, ?Z.eqb_neq in *; try lia.
  all: rewrite Hp by (Z.div_mod_to_equations; lia).
  - rewrite Hp' by (Z.div_mod_to_equations; lia). Z.div_mod_to_equations; lia.
  - rewrite Hz. Z.div_mod_to_equations; lia.
Qed.

(** ** From ticks to nanoseconds *)

Lemma tick_lt_iff s t N : tick s t < N <->
  (t - count_load_time s) * PIT_FREQ < N * get_ticks_per_sec.
Proof.
  unfold tick. split; intros H.
  - apply Z.lt_nge. intros Hle. apply (Z.div_le_mono _ _ get_ticks_per_sec) in Hle; [|done].
    rewrite Z.div_mul in Hle by done. lia.
  - apply Z.div_lt_upper_bound; [done|]. lia.
Qed.

Lemma tick_mono s t t' : t <= t' -> tick s t <= tick s t'.
Proof. intros. apply Z.div_le_mono; [done|]. unfold PIT_FREQ. lia. Qed.

(** The nanosecond that [pit_get_next_transition_time] picks for tick [N]. *)
Lemma next_transition_time_at s t : count_ok s -> clock_ok s t ->
  pit_get_next_transition_time s t =
  match next_at (mode s) (count s) (tick s t) with
  | None => -1
  | Some N => Z.max (count_load_time s + tick_ns N) (t + 1)
  end.
Proof.
  intros Hc Ht. unfold pit_get_next_transition_time.
  pose proof (tick_range s t Ht) as Hr. rewrite elapsed_tick, next_tick_at by done.
  destruct (next_at _ _ _) as [N|] eqn:EN; [|done].
  apply next_at_range in EN; [|done|lia]. unfold count_ok in Hc.
  destruct Ht as [Ht Ht']. change (2 ^ 62) with 4611686018427387904 in *.
  change (2 ^ 53) with 9007199254740992 in *.
  assert (tick s t * get_ticks_per_sec <= (t - count_load_time s) * PIT_FREQ) as Hns
    by (unfold tick; rewrite Z.mul_comm; apply Z.mul_div_le; done).
  assert (0 <= tick_ns N <= t - count_load_time s + 60000000) as Hn.
  { unfold tick_ns, PIT_FREQ, get_ticks_per_sec in *.
    split; [apply Z.div_pos; lia|]. apply Z.div_le_upper_bound; lia. }
  rewrite muldiv64_spec; [|split; lia|split; done|done|split; done|unfold tick_ns in Hn; lia].
  change (N * get_ticks_per_sec / PIT_FREQ) with (tick_ns N).
  rewrite (u64_id (_ + tick_ns N)), (u64_id t), (u64_id (t + 1)) by (split; lia).
  destruct (Z.leb_spec (count_load_time s + tick_ns N) t); rewrite s64_id; lia.
Qed.

(** Rounding puts the chosen nanosecond on tick [N] or on the last nanosecond
    of tick [N - 1]. *)
Lemma tick_ns_lands s t N : count_load_time s <= t -> tick s t < N -> 0 <= N ->
  let nt := Z.max (count_load_time s + tick_ns N) (t + 1) in
  (forall t', t' < nt -> t' <= t \/ tick s t' < N) /\ (tick s nt = N \/ tick s (nt + 1) = N).
Proof.
  intros Ht HN HN0. apply tick_lt_iff in HN.
  pose proof (Z.div_mod (N * get_ticks_per_sec) PIT_FREQ) as Hdm.
  pose proof (Z.mod_pos_bound (N * get_ticks_per_sec) PIT_FREQ) as Hm.
  fold (tick_ns N) in Hdm. set (r := (N * get_ticks_per_sec) mod PIT_FREQ) in *. clearbody r.
  assert (forall x, x = N <-> ~ x < N /\ x < N + 1) as Heq by lia.
  split.
  - intros t' Ht'. rewrite tick_lt_iff. unfold PIT_FREQ, get_ticks_per_sec in *. lia.
  - rewrite !Heq, !tick_lt_iff. unfold PIT_FREQ, get_ticks_per_sec in *. lia.
Qed.

(** Outside the rate-generator mode. *)
Lemma next_transition_flips (s : PITChannelState) (t : Z) :
  count_ok s -> clock_ok s t -> mode s <> 2 ->
  let nt := pit_get_next_transition_time s t in
  (nt = -1 /\ forall t', t <= t' < 2 ^ 62 -> pit_get_out1 s t' = pit_get_out1 s t)
  \/ (t < nt /\ (forall t', t <= t' < nt -> clock_ok s t' -> pit_get_out1 s t' = pit_get_out1 s t)
      /\ ((mode s = 3 -> 2 <= count s) -> clock_ok s (nt + 1) ->
          pit_get_out1 s nt <> pit_get_out1 s t \/ pit_get_out1 s (nt + 1) <> pit_get_out1 s t)).
Proof.
  intros Hc Ht Hm nt. pose proof (tick_range s t Ht) as Hr.
  unfold nt. rewrite next_transition_time_at by done.
  destruct (next_at (mode s) (count s) (tick s t)) as [N|] eqn:EN.
  - right. pose proof (next_at_range _ _ _ _ Hc (proj1 Hr) EN) as HN.
    destruct (tick_ns_lands s t N (proj2 (proj1 Ht))) as [Hbefore Hat]; [lia..|].
    split; [lia|]. split.
    + intros t' Hlt Ht'. rewrite !pit_get_out1_at by done. f_equal.
      pose proof (tick_mono s t t').
      apply next_at_const; [apply Hc|lia|done|]. intros N' EN'. simplify_eq.
      destruct (Hbefore t'); [lia| |lia]. replace t' with t by lia. lia.
    + intros H3 Hnt. apply next_at_flip in EN; [|apply Hc|done|apply Hr|done].
      assert (clock_ok s (Z.max (count_load_time s + tick_ns N) (t + 1)))
        by (unfold clock_ok in *; lia).
      rewrite !pit_get_out1_at by done.
      destruct Hat as [-> | ->]; [left|right]; rewrite EN; destruct (out_at (mode s) (count s) (tick s t)); discriminate.
  - left. split; [done|]. intros t' Hlt. assert (clock_ok s t') by (unfold clock_ok in *; lia).
    rewrite !pit_get_out1_at by done. f_equal. pose proof (tick_mono s t t').
    apply next_at_const; [apply Hc|lia|done|]. congruence.
Qed.

(** C33: While the clock is below 2^62 ns (146 years), outside the rate-generator
    mode [pit_get_next_transition_time] answers -1 exactly when the output never
    changes again; otherwise it gives a time strictly in the future before which
    the output keeps its level and at which, or one nanosecond later, the output
    has changed, except for a mode 3 counter of 1, whose output is always 1.  In
    the rate-generator mode (2), where the output is 1 in the ticks that are
    multiples of the count, the time given is in the future and that of the next
    such tick only if the output is 1 now; otherwise it is that of the tick after
    it. *)
Theorem pit_next_transition_correct (s : PITChannelState) (t : Z) :
  count_ok s -> clock_ok s t ->
  let nt := pit_get_next_transition_time s t in
  (mode s <> 2 ->
    (nt = -1 /\ forall t', t <= t' < 2 ^ 62 -> pit_get_out1 s t' = pit_get_out1 s t)
    \/ (t < nt /\ (forall t', t <= t' < nt -> clock_ok s t' -> pit_get_out1 s t' = pit_get_out1 s t)
        /\ ((mode s = 3 -> 2 <= count s) -> clock_ok s (nt + 1) ->
            pit_get_out1 s nt <> pit_get_out1 s t \/ pit_get_out1 s (nt + 1) <> pit_get_out1 s t)))
  /\ (mode s = 3 -> count s = 1 -> forall t', clock_ok s t' -> pit_get_out1 s t' = 1)
  /\ (mode s = 2 -> t < nt
      /\ nt = Z.max (count_load_time s + tick_ns ((tick s t / count s + 1) * count s + (1 - pit_get_out1 s t))) (t + 1)).
Proof.
  intros Hc Ht nt. split_and!.
  - now apply next_transition_flips.
  - intros M C t' Ht'. rewrite pit_get_out1_at, M, C by done. unfold out_at. rewrite Z.mod_1_r. reflexivity.
  - intros M. unfold nt. rewrite next_transition_time_at, pit_get_out1_at, M by done. unfold next_at, out_at.
    assert ((tick s t - tick s t / count s * count s =? 0) = (tick s t mod count s =? 0)) as -> by (f_equal; rewrite Z.mod_eq by (unfold count_ok in Hc; lia); lia).
    destruct (_ && _); cbn [b2z]; (split; [lia|]); do 3 f_equal; lia.
Qed.

(** A square wave of divisor 3: its first high phase is two ticks. *)
Lemma pit_next_transition_correct_witness :
  let s := (chan_zero (Some None)) <| mode := 3 |> <| count := 3 |> in
  pit_get_next_transition_time s 0 = 1676
  /\ (pit_get_out1 s 1676 <> pit_get_out1 s 0 \/ pit_get_out1 s 1677 <> pit_get_out1 s 0).
Proof.
  intros s. split; [vm_compute; reflexivity|].
  destruct (pit_next_transition_correct s 0) as [H0 _]; [vm_compute; split; discriminate|vm_compute; split; [split; discriminate|reflexivity]|].
  destruct H0 as [[H _]|(_ & _ & H)].
  - vm_compute; discriminate.
  - exfalso. vm_compute in H. discriminate H.
  - apply H; vm_compute; [discriminate|split; [split; discriminate|reflexivity]].
Defined.

(** *** The rate generator *)

(** A nanosecond count that is not exact falls on the tick before. *)
Lemma tick_ns_before s N : 0 <= N -> N mod 596591 <> 0 ->
  tick s (count_load_time s + tick_ns N) = N - 1.
Proof.
  intros HN Hx. unfold tick, tick_ns, PIT_FREQ, get_ticks_per_sec.
  rewrite Z.add_simpl_l. Z.div_mod_to_equations. lia.
Qed.

Lemma rate_out c k d : 2 <= c -> 1 <= k -> k * c <= d < k * c + c ->
  out_at 2 c d = (d =? k * c).
Proof.
  intros Hc Hk Hd. unfold out_at.
  assert (d mod c = d - k * c) as -> by (symmetry; apply Z.mod_unique with k; nia).
  destruct (Z.eqb_spec (d - k * c) 0), (Z.eqb_spec d 0), (Z.eqb_spec d (k * c)); nia || done.
Qed.

Lemma rate_next c k d : 2 <= c -> 1 <= k -> k * c <= d < k * c + c ->
  next_at 2 c d = Some (if d =? k * c then k * c + c else k * c + c + 1).
Proof.
  intros Hc Hk Hd. unfold next_at. cbv zeta.
  assert (d / c = k) as -> by (symmetry; apply Z.div_unique with (d - k * c); nia).
  destruct (Z.eqb_spec (d - k * c) 0), (Z.eqb_spec d 0), (Z.eqb_spec d (k * c)); nia || done.
Qed.

Lemma tick_ns_mono N N' : N < N' -> tick_ns N < tick_ns N'.
Proof.
  intros H. unfold tick_ns, PIT_FREQ, get_ticks_per_sec. Z.div_mod_to_equations. lia.
Qed.

Lemma tick_ns_nonneg N : 0 <= N -> 0 <= tick_ns N.
Proof. intros. apply Z.div_pos; [unfold get_ticks_per_sec; lia|done]. Qed.

Lemma irq_timer_fires {W} (irq : qemu_irq W) s w tm nt :
  irq_timer s = Some tm -> pit_get_next_transition_time s (next_transition_time s) = nt ->
  nt <> -1 ->
  pit_irq_timer irq s w =
  (s <| next_transition_time := nt |> <| irq_timer := Some (Some nt) |>,
   qemu_set_irq irq (pit_get_out1 s (next_transition_time s)) w).
Proof.
  intros Htm Hnt Hne. unfold pit_irq_timer, pit_irq_timer_update. rewrite Htm, Hnt. cbv zeta.
  now rewrite (proj2 (Z.eqb_neq _ _) Hne).
Qed.

(** One expiry of the rate generator's timer at the nanosecond of tick [N],
    when that nanosecond is inexact and [k] periods have passed at tick [N - 1]. *)
Lemma rate_step {W} (irq : qemu_irq W) s w tm k N :
  count_ok s -> mode s = 2 -> 2 <= count s -> 1 <= k -> irq_timer s = Some tm ->
  k * count s <= N - 1 < k * count s + count s -> N mod 596591 <> 0 ->
  next_transition_time s = count_load_time s + tick_ns N ->
  clock_ok s (count_load_time s + tick_ns N) ->
  let nt := count_load_time s + tick_ns (if N - 1 =? k * count s then k * count s + count s
                                         else k * count s + count s + 1) in
  pit_irq_timer irq s w =
  (s <| next_transition_time := nt |> <| irq_timer := Some (Some nt) |>,
   qemu_set_irq irq (b2z (N - 1 =? k * count s)) w).
Proof.
  intros Hc Hm Hc2 Hk Htm HN Hx Hnt Hck nt.
  assert (0 <= N) by nia. pose proof (tick_ns_before s N ltac:(lia) Hx) as Htick.
  pose proof (tick_ns_nonneg N ltac:(lia)). unfold clock_ok in Hck.
  rewrite (irq_timer_fires irq s w tm nt); [|done| |].
  - rewrite Hnt, pit_get_out1_at, Htick, Hm by done. now rewrite rate_out with (k := k).
  - rewrite Hnt, next_transition_time_at, Htick, Hm, rate_next with (k := k) by done.
    fold nt. unfold nt. cut (tick_ns N < tick_ns (if N - 1 =? k * count s
      then k * count s + count s else k * count s + count s + 1)); [lia|].
    apply tick_ns_mono. destruct (Z.eqb_spec (N - 1) (k * count s)); lia.
  - unfold nt. pose proof (tick_ns_nonneg (if N - 1 =? k * count s
      then k * count s + count s else k * count s + count s + 1)).
    destruct (N - 1 =? k * count s); nia.
Qed.

(** The rate generator (mode 2) drives one low-to-high edge per period: the
    timer event of tick k*count+1 raises the line, the following one lowers it,
    and the one after is due at tick (k+1)*count+1, provided neither tick falls
    on a whole number of nanoseconds (no multiple of 596591 among them). *)
Theorem pit_rate_generator {W} (irq : qemu_irq W) (s : PITChannelState) (w : W) tm k :
  let c := count s in
  let at_tick N := count_load_time s + tick_ns N in
  count_ok s -> mode s = 2 -> 2 <= c -> 1 <= k -> irq_timer s = Some tm ->
  next_transition_time s = at_tick (k * c + 1) -> clock_ok s (at_tick ((k + 1) * c)) ->
  (k * c + 1) mod 596591 <> 0 -> ((k + 1) * c) mod 596591 <> 0 ->
  let '(s1, w1) := pit_irq_timer irq s w in
  let '(s2, w2) := pit_irq_timer irq s1 w1 in
  w1 = qemu_irq_raise irq w /\ next_transition_time s1 = at_tick ((k + 1) * c)
  /\ w2 = qemu_irq_lower irq w1 /\ next_transition_time s2 = at_tick ((k + 1) * c + 1)
  /\ irq_timer s2 = Some (Some (at_tick ((k + 1) * c + 1))).
Proof.
  intros c at_tick Hc Hm Hc2 Hk Htm Hnt Hck Hx1 Hx2. unfold c, at_tick in *. clear c at_tick.
  pose proof (tick_ns_mono (k * count s + 1) ((k + 1) * count s) ltac:(lia)).
  pose proof (tick_ns_nonneg (k * count s + 1) ltac:(nia)).
  rewrite (rate_step irq s w tm k (k * count s + 1)); [|done..|lia|done|done|unfold clock_ok in *; lia].
  rewrite Z.add_simpl_r, Z.eqb_refl.
  replace (k * count s + count s) with ((k + 1) * count s) by lia.
  rewrite (rate_step irq _ _ (Some (count_load_time s + tick_ns ((k + 1) * count s)))
    k ((k + 1) * count s)); cbn [over count mode count_load_time next_transition_time irq_timer];
    [|done..|lia|done|done|done].
  replace ((k + 1) * count s - 1 =? k * count s) with false by (symmetry; apply Z.eqb_neq; lia).
  replace (k * count s + count s + 1) with ((k + 1) * count s + 1) by lia. done.
Qed.

Lemma pit_rate_generator_witness :
  let s := (chan_zero (Some None)) <| mode := 2 |> <| count := 11932 |>
             <| next_transition_time := 10000988 |> in
  let '(s1, w1) := pit_irq_timer recorder s [] in
  let '(s2, w2) := pit_irq_timer recorder s1 w1 in
  w2 = [(0, 1); (0, 0)] /\ next_transition_time s2 = 20001139.
Proof.
  intros s.
  pose proof (pit_rate_generator recorder s [] None 1) as H. cbv zeta in H.
  destruct (pit_irq_timer recorder s []) as [s1 w1] eqn:E1.
  destruct (pit_irq_timer recorder s1 w1) as [s2 w2] eqn:E2.
  destruct H as (-> & _ & -> & -> & _);
    [vm_compute; split; discriminate|reflexivity|vm_compute; discriminate|lia|reflexivity
    |vm_compute; reflexivity|vm_compute; split; [split; discriminate|reflexivity]
    |vm_compute; discriminate|vm_compute; discriminate|].
  split; vm_compute; reflexivity.
Defined.

(** The counter 11932 of a 100 Hz clock loses its edge at one period in 596591:
    after period 265146, whose next tick is a whole number of nanoseconds, the
    event lands past the high tick and leaves the line low for that period. *)
Lemma pit_rate_generator_loses_edge : exists s : PITChannelState, exists k,
  count_ok s /\ mode s = 2 /\ irq_timer s = Some None /\ 1 <= k
  /\ next_transition_time s = count_load_time s + tick_ns (k * count s + 1)
  /\ (pit_irq_timer recorder s []).2 = [(0, 0)]
  /\ next_transition_time (pit_irq_timer recorder s []).1
     = count_load_time s + tick_ns ((k + 1) * count s + 1).
Proof.
  exists ((chan_zero (Some None)) <| mode := 2 |> <| count := 11932 |>
     <| next_transition_time := tick_ns (265146 * 11932 + 1) |>), 265146.
  repeat split; vm_compute; congruence.
Qed.

(** ** Well-formed states *)

Record chan_ok (s : PITChannelState) : Prop := {
  ok_count : count_ok s;
  ok_latched : in_u 16 (latched_count s);
  ok_count_latched : 0 <= count_latched s <= 3;
  ok_status : in_u 8 (status s);
  ok_read_state : 0 <= read_state s <= 4;
  ok_write_state : 0 <= write_state s <= 4;
  ok_write_latch : in_u 8 (write_latch s);
  ok_rw_mode : 0 <= rw_mode s <= 3;
  ok_mode : 0 <= mode s <= 7;
  ok_bcd : 0 <= bcd s <= 1;
  ok_gate : 0 <= gate s <= 1
}.

Definition pit_ok (pit : PITState) : Prop := length pit = 3%nat /\ Forall chan_ok pit.

Create HintDb pit.
#[export] Hint Resolve ok_count ok_latched ok_count_latched ok_status ok_read_state ok_write_state
  ok_write_latch ok_rw_mode ok_mode ok_bcd ok_gate : pit.

(** Close a [chan_ok] goal about an updated channel from the one before. *)
Ltac chan_solve :=
  intros; constructor;
  cbn [over count latched_count count_latched status read_state write_state write_latch rw_mode
       mode bcd gate]; eauto with pit width; try (unfold RW_STATE_WORD0, RW_STATE_WORD1, RW_STATE_MSB; lia).

Lemma update_ok {W} (irq : qemu_irq W) s t w : chan_ok s ->
  chan_ok (pit_irq_timer_update irq s t w).1.
Proof.
  intros H. unfold pit_irq_timer_update. repeat case_match; try done; destruct H; by constructor.
Qed.

Lemma load_count_ok {W} (irq : qemu_irq W) s val now w : chan_ok s -> 0 <= val <= 65535 ->
  chan_ok (pit_load_count irq s val now w).1.
Proof.
  intros H Hv. apply update_ok. destruct H; constructor; try done.
  unfold count_ok. cbn. destruct (Z.eqb_spec val 0); lia.
Qed.

Lemma latch_count_ok now s : chan_ok s -> chan_ok (pit_latch_count now s).
Proof.
  intros H. unfold pit_latch_count. destruct (negb _); [|done].
  destruct H; constructor; try done. apply u16_range.
Qed.

Lemma read_back_ok val now i s : chan_ok s -> chan_ok (pit_read_back val now i s).
Proof.
  intros H. unfold pit_read_back. destruct (tst val _); [|done].
  assert (chan_ok (if negb (tst val 0x20) then pit_latch_count now s else s)) as H'
    by (destruct (negb _); auto using latch_count_ok).
  set (s' := if negb (tst val 0x20) then pit_latch_count now s else s) in *. clearbody s'.
  cbv zeta. destruct (negb (tst val 0x10) && _); [|done].
  destruct H'; constructor; try done. apply u8_range.
Qed.

Lemma with_channel_ok {W A} (pit : PITState) ch w
    (f : PITChannelState -> A * (PITChannelState * W)) (P : A -> Prop) :
  pit_ok pit -> 0 <= ch < 3 -> (forall s, chan_ok s -> P (f s).1 /\ chan_ok (f s).2.1) ->
  exists a pit' w', with_channel pit ch w f = Some (a, (pit', w')) /\ P a /\ pit_ok pit'.
Proof.
  intros [Hl Hok] Hch Hf. unfold with_channel.
  destruct (lookup_lt_is_Some_2 pit (Z.to_nat ch)) as [s Hs]; [lia|].
  rewrite Hs. cbn. pose proof (Forall_lookup_1 _ _ _ _ Hok Hs) as Hcs.
  specialize (Hf s Hcs). destruct (f s) as [a [s' w']]. cbn in Hf. destruct Hf as [HP Hs'].
  eexists _, _, _. split; [done|]. split; [done|]. split.
  - now rewrite length_insert.
  - now apply Forall_insert.
Qed.

Lemma with_channel_inv {W A} (pit : PITState) ch w
    (f : PITChannelState -> A * (PITChannelState * W)) a pit' w' :
  with_channel pit ch w f = Some (a, (pit', w')) -> pit_ok pit ->
  (forall s, chan_ok s -> chan_ok (f s).2.1) -> pit_ok pit'.
Proof.
  intros H [Hl Hok] Hf. unfold with_channel in H.
  destruct (pit !! Z.to_nat ch) as [s|] eqn:Hs; [|done]. cbn in H.
  pose proof (Forall_lookup_1 _ _ _ _ Hok Hs) as Hcs. specialize (Hf s Hcs).
  destruct (f s) as [? [s' ?]]. simplify_eq. split; [now rewrite length_insert|].
  now apply Forall_insert.
Qed.

Lemma set_gate_ok {W} (irq : qemu_irq W) pit ch val now w r pit' w' :
  0 <= val <= 1 -> pit_ok pit -> pit_set_gate irq pit ch val now w = Some (r, (pit', w')) ->
  pit_ok pit'.
Proof.
  intros Hv Hok H. unfold pit_set_gate in H. refine (with_channel_inv _ _ _ _ _ _ _ H Hok _). clear H. intros s Hs. cbv beta.
  match goal with |- context [match ?m with pair _ _ => _ end] =>
    assert (chan_ok m.1) as Hm; [|destruct m as [s' ?]] end.
  - assert (chan_ok (s <| count_load_time := now |>)) by (destruct Hs; by constructor).
    repeat case_match; auto using update_ok.
  - cbn in *. destruct Hm; constructor; try done. cbn. rewrite u8_id; [done|split; lia].
Qed.

Lemma port_index addr : addr .& 3 = addr mod 4.
Proof. now apply (land_ones_mod addr 2). Qed.

Lemma load_write_ok {W} (irq : qemu_irq W) s val now w : chan_ok s -> in_u 8 val ->
  chan_ok (match write_state s with
   | 2 => pit_load_count irq s (val << 8) now w
   | 3 => (s <| write_latch := u8 val |> <| write_state := RW_STATE_WORD1 |>, w)
   | 4 => let '(s, w) := pit_load_count irq s (write_latch s .| (val << 8)) now w in
          (s <| write_state := RW_STATE_WORD0 |>, w)
   | _ => pit_load_count irq s val now w
   end).1.
Proof.
  intros H Hv. pose proof (ok_write_latch s H) as Hl.
  assert (0 <= val << 8 <= 65535) as Hs
    by (rewrite Z.shiftl_mul_pow2 by lia; destruct Hv; lia).
  assert (0 <= (write_latch s .| (val << 8)) <= 65535) as Hw.
  { cut (in_u 16 (write_latch s .| (val << 8))); [unfold in_u; lia|].
    apply in_u_lor; [lia|apply in_u_mono with 8; [lia|done]|split; lia]. }
  assert (0 <= val <= 65535) by (destruct Hv; lia).
  pose proof (load_count_ok irq s (write_latch s .| (val << 8)) now w H Hw) as H4.
  destruct (pit_load_count irq s (write_latch s .| (val << 8)) now w) as [s4 w4].
  repeat case_match; auto using load_count_ok; simplify_eq.
  - destruct H; constructor; try done. apply u8_range.
  - cbn in H4. destruct H4; constructor; done.
Qed.

Ltac use_channel :=
  match goal with |- context [with_channel ?pit ?ch ?w ?f] =>
    destruct (with_channel_ok pit ch w f (fun _ => True)) as ([] & ?p & ?w' & ?E & _ & ?Hp);
    [done|lia| |now eauto]
  end.

Lemma pit_write_ok {W} (irq : qemu_irq W) addr val now pit w : pit_ok pit -> in_u 8 val ->
  exists pit' w', pit_ioport_write irq addr val now pit w = Some (tt, (pit', w')) /\ pit_ok pit'.
Proof.
  intros Hok Hv. unfold pit_ioport_write. rewrite port_index.
  pose proof (Z.mod_pos_bound addr 4 ltac:(lia)) as Ha.
  assert (0 <= val >> 6 < 4) as Hc.
  { rewrite Z.shiftr_div_pow2 by lia. destruct Hv. change (2 ^ 6) with 64.
    change (2 ^ 8) with 256 in *. Z.div_mod_to_equations; lia. }
  destruct (Z.eqb_spec (addr mod 4) 3); [destruct (Z.eqb_spec (val >> 6) 3)|].
  - eexists _, _. split; [done|]. destruct Hok as [Hl Hok]. split; [now rewrite length_imap|].
    apply Forall_lookup_2. intros i s. rewrite list_lookup_imap_Some.
    intros (s0 & Hs & ->). eapply read_back_ok, Forall_lookup_1; eauto.
  - use_channel. intros s Hs. split; [done|]. cbv zeta.
    pose proof (land_range (val >> 4) 2 3 ltac:(lia) eq_refl).
    pose proof (land_range (val >> 1) 3 7 ltac:(lia) eq_refl).
    pose proof (land_range val 1 1 ltac:(lia) eq_refl).
    destruct (Z.eqb_spec ((val >> 4) .& 3) 0); [now apply latch_count_ok|].
    destruct Hs; constructor; cbn; done || lia.
  - use_channel. intros s Hs. split; [done|]. now apply load_write_ok.
Qed.

Lemma pit_read_ok {W} (addr now : Z) pit (w : W) : pit_ok pit -> addr .& 3 <> 3 ->
  exists v pit' w', pit_ioport_read addr now pit w = Some (v, (pit', w')) /\ in_u 8 v /\ pit_ok pit'.
Proof.
  intros Hok Ha. unfold pit_ioport_read. rewrite port_index in *.
  pose proof (Z.mod_pos_bound addr 4 ltac:(lia)).
  apply with_channel_ok; [done|lia|]. intros s Hs. cbv zeta.
  assert (forall x, in_u 8 (x .& 0xff)) as Hff by (intros; apply in_u_land_r; [lia|split; done]).
  assert (in_u 8 (latched_count s >> 8)) as Hl.
  { pose proof (ok_latched s Hs) as [H0 H1]. rewrite Z.shiftr_div_pow2 by lia.
    change (2 ^ 16) with 65536 in H1. change (2 ^ 8) with 256.
    split; [apply Z.div_pos; lia|apply Z.div_lt_upper_bound; lia]. }
  repeat case_match; cbn [fst snd over status]; (split; [now auto using ok_status|]); try done;
    destruct Hs; constructor; done.
Qed.

Section Reach.
Context {W : Type} (irq : qemu_irq W).

(** What the machine can do to the timer: guest port accesses (the data port is
    a byte, and only the three counters are registered for reads), the gate of
    the speaker port, the expiry of the channel 0 timer, and the HPET hooks. *)
Inductive pit_step : PITState * W -> PITState * W -> Prop :=
| step_write addr val now pit w pit' w' : in_u 8 val ->
    pit_ioport_write irq addr val now pit w = Some (tt, (pit', w')) ->
    pit_step (pit, w) (pit', w')
| step_read addr now pit w v pit' w' : addr .& 3 <> 3 ->
    pit_ioport_read addr now pit w = Some (v, (pit', w')) -> pit_step (pit, w) (pit', w')
| step_gate ch val now pit w r pit' w' : 0 <= val <= 1 ->
    pit_set_gate irq pit ch val now w = Some (r, (pit', w')) -> pit_step (pit, w) (pit', w')
| step_timer s rest w s' w' : pit_irq_timer irq s w = (s', w') ->
    pit_step (s :: rest, w) (s' :: rest, w')
| step_hpet_disable pit w : pit_step (pit, w) (hpet_pit_disable pit, w)
| step_hpet_enable now pit w r pit' w' :
    hpet_pit_enable irq now pit w = Some (r, (pit', w')) -> pit_step (pit, w) (pit', w')
| step_reset now pit w pit' w' : pit_reset irq now pit w = (pit', w') ->
    pit_step (pit, w) (pit', w').

Lemma pit_step_ok x y : pit_ok x.1 -> pit_step x y -> pit_ok y.1.
Proof.
  intros Hok Hxy. destruct Hxy as [addr val now pit w pit' w' Hv E|addr now pit w v pit' w' Ha E
    |ch val now pit w r pit' w' Hv E|s rest w s' w' E|pit w|now pit w r pit' w' E|now pit w pit' w' E];
    cbn [fst] in *.
  - destruct (pit_write_ok irq addr val now pit w) as (? & ? & ? & ?); [done..|congruence].
  - destruct (pit_read_ok addr now pit w) as (? & ? & ? & ? & ? & ?); [done..|congruence].
  - eauto using set_gate_ok.
  - destruct Hok as [Hl Hok]. apply Forall_cons_1 in Hok as [Hs Hr]. split; [done|].
    apply Forall_cons_2; [|done]. change s' with (s', w').1. rewrite <- E. now apply update_ok.
  - destruct Hok as [Hl Hok]. destruct pit as [|s rest]; [done|].
    apply Forall_cons_1 in Hok as [Hs Hr]. split; [done|]. apply Forall_cons_2; [|done].
    destruct (irq_timer s); [|done]. destruct Hs; by constructor.
  - unfold hpet_pit_enable in E. refine (with_channel_inv _ _ _ _ _ _ _ E Hok _).
    intros s Hs. apply load_count_ok; [|lia]. destruct Hs; constructor; done.
  - unfold pit_reset in E. revert E. generalize 0 at 1. revert w pit' w'.
    destruct Hok as [Hl Hok]. unfold pit_ok. rewrite <- Hl. clear Hl.
    induction Hok as [|s rest Hs Hr IH]; intros w pit' w' i; cbn [pit_reset_from]; intros E.
    { by simplify_eq. }
    match type of E with context [pit_load_count ?q ?s0 ?v ?nw ?w0] =>
      assert (chan_ok (pit_load_count q s0 v nw w0).1) as Hs'; [|destruct (pit_load_count q s0 v nw w0)] end.
    { apply load_count_ok; [|lia]. destruct Hs; constructor; try done. cbn. destruct (i =? 2); cbn; lia. }
    destruct (pit_reset_from irq (i + 1) now rest _) as [rest' w''] eqn:E'. simplify_eq.
    destruct (IH _ _ _ _ E') as [Hl Hok']. cbn. split; [now rewrite Hl|]. by apply Forall_cons_2.
Qed.

(** The zeroed channels of [pit_initfn] become well-formed at the first reset. *)
Lemma pit_reset_init now w : pit_ok (pit_reset irq now pit_initfn w).1.
Proof.
  unfold pit_reset, pit_initfn, pit_reset_from. unfold pit_load_count. cbn [Z.eqb].
  unfold pit_irq_timer_update at 2 3. cbn [irq_timer over chan_zero].
  match goal with |- context [pit_irq_timer_update irq ?s ?t w] =>
    assert (chan_ok (pit_irq_timer_update irq s t w).1) as H;
      [|destruct (pit_irq_timer_update irq s t w) as [s0 w0]] end.
  { apply update_ok. constructor; vm_compute; (split; congruence). }
  split; [done|]. repeat apply Forall_cons_2; try exact H; try apply Forall_nil_2;
    constructor; vm_compute; (split; congruence).
Qed.

(** From power-on and reset, whatever the guest, the speaker gate, the
    timer and the HPET do, every channel keeps a count between 1 and 65536 (so
    the divisions by it are defined) and in-range control fields; no port write
    indexes outside the three channels, and reads of the three registered
    ports return a byte. *)
Theorem pit_reachable_ok now w0 (pit : PITState) (w : W) :
  rtc pit_step (pit_reset irq now pit_initfn w0) (pit, w) ->
  pit_ok pit
  /\ (forall addr val now, in_u 8 val -> is_Some (pit_ioport_write irq addr val now pit w))
  /\ (forall addr now, addr .& 3 <> 3 -> exists v pit' w',
        pit_ioport_read addr now pit w = Some (v, (pit', w')) /\ in_u 8 v).
Proof.
  intros Hr. assert (pit_ok pit) as Hok.
  { apply (rtc_invariant pit_step (fun x => pit_ok x.1) pit_step_ok _ _ Hr), pit_reset_init. }
  split; [done|]. split.
  - intros addr val now' Hv. destruct (pit_write_ok irq addr val now' pit w) as (? & ? & -> & _); eauto.
  - intros addr now' Ha. destruct (pit_read_ok addr now' pit w) as (? & ? & ? & ? & ? & _); eauto.
Qed.
End Reach.

Lemma pit_reachable_ok_witness :
  let '(pit, w) := pit_reset recorder 5 pit_initfn [] in
  exists v pit' w', pit_ioport_read 0x40 7 pit w = Some (v, (pit', w')) /\ in_u 8 v.
Proof.
  pose proof (pit_reachable_ok recorder 5 []) as H.
  destruct (pit_reset recorder 5 pit_initfn []) as [pit w].
  destruct (H pit w (rtc_refl _ _)) as (_ & _ & H2). apply H2. vm_compute. discriminate.
Defined.

(** ** Programming and reading a counter *)

Lemma with_channel_at {W A} (pit : PITState) ch s (w : W)
    (f : PITChannelState -> A * (PITChannelState * W)) :
  pit !! Z.to_nat ch = Some s ->
  with_channel pit ch w f = Some ((f s).1, (<[Z.to_nat ch := (f s).2.1]> pit, (f s).2.2)).
Proof. intros H. unfold with_channel. rewrite H. cbn. by destruct (f s) as [? []]. Qed.

Definition control_word (ch rw m : Z) : Z := (ch << 6) .| (rw << 4) .| (m << 1).

Lemma control_word_fields ch rw m : 0 <= ch < 3 -> 0 <= rw < 4 -> 0 <= m < 8 ->
  let v := control_word ch rw m in
  v >> 6 = ch /\ (v >> 4) .& 3 = rw /\ (v >> 1) .& 7 = m /\ v .& 1 = 0.
Proof.
  intros Hch Hrw Hm. cbv zeta.
  assert (ch = 0 \/ ch = 1 \/ ch = 2) as C by lia.
  assert (rw = 0 \/ rw = 1 \/ rw = 2 \/ rw = 3) as R by lia.
  assert (m = 0 \/ m = 1 \/ m = 2 \/ m = 3 \/ m = 4 \/ m = 5 \/ m = 6 \/ m = 7) as M by lia.
  repeat destruct C as [->|C]; repeat destruct R as [->|R]; repeat destruct M as [->|M]; subst;
    repeat split; reflexivity.
Qed.

(** Writing the control port. *)
Lemma pit_write_control {W} (irq : qemu_irq W) ch rw m now pit w s :
  0 <= ch < 3 -> 0 <= rw < 4 -> 0 <= m < 8 -> pit !! Z.to_nat ch = Some s ->
  pit_ioport_write irq 3 (control_word ch rw m) now pit w =
  Some (tt, (<[Z.to_nat ch := if rw =? 0 then pit_latch_count now s
     else s <| rw_mode := rw |> <| read_state := rw |> <| write_state := rw |>
            <| mode := m |> <| bcd := 0 |>]> pit, w)).
Proof.
  intros Hch Hrw Hm Hs. destruct (control_word_fields ch rw m Hch Hrw Hm) as (E1 & E2 & E3 & E4).
  unfold pit_ioport_write. rewrite E1, E2, E3, E4. cbv zeta.
  change (3 .& 3 =? 3) with true. cbv iota.
  rewrite (proj2 (Z.eqb_neq ch 3)) by lia. rewrite (with_channel_at _ _ _ _ _ Hs).
  destruct (rw =? 0); reflexivity.
Qed.

Lemma port_small ch : 0 <= ch < 3 -> ch .& 3 = ch /\ (ch =? 3) = false.
Proof.
  intros H. rewrite port_index, Z.mod_small by lia. split; [done|]. apply Z.eqb_neq. lia.
Qed.

(** The counter [pit_get_count] shows at tick [d]. *)
Definition count_at (m c d : Z) : Z :=
  match m with
  | 0 | 1 | 4 | 5 => (c - d) mod 65536
  | 3 => c - (2 * d) mod c
  | _ => c - d mod c
  end.

Lemma pit_get_count_at s t : count_ok s -> clock_ok s t ->
  pit_get_count t s = count_at (mode s) (count s) (tick s t).
Proof.
  intros Hc Ht. pose proof (tick_range s t Ht) as [Hd0 Hd1]. change (2 ^ 53) with 9007199254740992 in Hd1.
  unfold pit_get_count, count_at. rewrite elapsed_tick, count_u64 by done. unfold count_ok in Hc.
  pose proof (Z.mod_pos_bound (tick s t) (count s) ltac:(lia)).
  pose proof (Z.mod_pos_bound (2 * tick s t) (count s) ltac:(lia)).
  rewrite (u64_id (2 * _)), (u64_id (count s - _ mod _)), (u64_id (count s - _ mod _)) by (split; lia).
  rewrite (land_ones_mod _ 16) by done. change (2 ^ 16) with 65536.
  assert (u64 (count s - tick s t) mod 65536 = (count s - tick s t) mod 65536) as ->.
  { unfold u64. apply Z.mod_mod_divide. now exists 281474976710656. }
  pose proof (Z.mod_pos_bound (count s - tick s t) 65536 ltac:(lia)).
  repeat case_match; apply s32_id; lia.
Qed.

Section Program.
Context {W : Type} (irq : qemu_irq W).

(** Programming a counter: the control word that selects 16-bit access and
    mode [m], then the low and the high byte on the counter's port, load the
    16-bit value (65536 for 0) at the time of the second byte in mode [m],
    leave it ready for the next low byte, and touch no other channel. *)
Theorem pit_program_count ch m lo hi t0 t1 t2 (pit : PITState) (w : W) s :
  0 <= ch < 3 -> 0 <= m < 8 -> in_u 8 lo -> in_u 8 hi -> pit !! Z.to_nat ch = Some s ->
  exists pit' w' s',
    ('(_, (p, w)) ← pit_ioport_write irq 3 (control_word ch 3 m) t0 pit w;
     '(_, (p, w)) ← pit_ioport_write irq ch lo t1 p w;
     pit_ioport_write irq ch hi t2 p w) = Some (tt, (pit', w'))
    /\ pit' !! Z.to_nat ch = Some s'
    /\ count s' = (if lo + 256 * hi =? 0 then 65536 else lo + 256 * hi)
    /\ mode s' = m /\ count_load_time s' = t2 /\ write_state s' = RW_STATE_WORD0
    /\ forall j, j <> Z.to_nat ch -> pit' !! j = pit !! j.
Proof.
  intros Hch Hm Hlo Hhi Hs. pose proof (port_small ch Hch) as [Hp1 Hp2].
  rewrite (pit_write_control irq ch 3 m t0 pit w s) by (done || lia). cbn [mbind option_bind Z.eqb].
  assert (Z.to_nat ch < length pit)%nat as Hlen by (apply lookup_lt_is_Some; eauto).
  unfold pit_ioport_write. rewrite Hp1, Hp2.
  rewrite (with_channel_at _ _ _ _ _ (list_lookup_insert_eq _ _ _ Hlen)).
  cbn [over write_state fst snd mbind option_bind].
  assert (forall x, (Z.to_nat ch < length (<[Z.to_nat ch:=x]> pit))%nat) as Hlen'
    by (intros; now rewrite length_insert).
  rewrite (with_channel_at _ _ _ _ _ (list_lookup_insert_eq _ _ _ (Hlen' _))).
  cbn [over write_state fst snd mbind option_bind write_latch RW_STATE_WORD1].
  assert (u8 lo .| (hi << 8) = lo + 256 * hi) as ->.
  { rewrite u8_id, lor_shift by (done || lia). lia. }
  eexists _, _, _. split; [reflexivity|]. split; [now rewrite !list_insert_insert_eq, list_lookup_insert_eq|].
  unfold pit_load_count, pit_irq_timer_update. cbn [over irq_timer].
  destruct (irq_timer s); [destruct (negb _)|]; cbn; (repeat split; try done);
    intros j Hj; now rewrite !list_lookup_insert_ne.
Qed.

(** A latch command freezes the counter: the two reads that follow, whenever
    they happen, return the low and the high byte of the count at the time of
    the command, and leave the channel as it was but for the latch register. *)
Theorem pit_latch_read ch t0 t1 t2 (pit : PITState) (w : W) s :
  0 <= ch < 3 -> pit !! Z.to_nat ch = Some s ->
  count_ok s -> clock_ok s t0 -> rw_mode s = 3 -> count_latched s = 0 -> status_latched s = 0 ->
  exists lo hi s',
    ('(_, (p, w)) ← pit_ioport_write irq 3 (control_word ch 0 0) t0 pit w;
     '(lo, (p, w)) ← pit_ioport_read ch t1 p w;
     '(hi, (p, w)) ← pit_ioport_read ch t2 p w;
     Some (lo, hi, p, w)) = Some (lo, hi, <[Z.to_nat ch := s']> pit, w)
    /\ lo + 256 * hi = u16 (count_at (mode s) (count s) (tick s t0))
    /\ s' = s <| latched_count := u16 (count_at (mode s) (count s) (tick s t0)) |>.
Proof.
  intros Hch Hs Hc Ht Hrw Hcl Hsl. pose proof (port_small ch Hch) as [Hp1 Hp2].
  rewrite (pit_write_control irq ch 0 0 t0 pit w s) by (done || lia). cbn [mbind option_bind Z.eqb].
  assert (Z.to_nat ch < length pit)%nat as Hlen by (apply lookup_lt_is_Some; eauto).
  unfold pit_latch_count. rewrite Hcl, pit_get_count_at by done. cbn [truthy negb Z.eqb].
  set (v := u16 (count_at (mode s) (count s) (tick s t0))).
  unfold pit_ioport_read. rewrite Hp1.
  rewrite (with_channel_at _ _ _ _ _ (list_lookup_insert_eq _ _ _ Hlen)).
  cbn [over status_latched count_latched latched_count rw_mode fst snd mbind option_bind].
  rewrite ?Hsl, ?Hrw. cbn [truthy negb Z.eqb mbind option_bind fst snd].
  assert (forall x, (Z.to_nat ch < length (<[Z.to_nat ch:=x]> pit))%nat) as Hlen'
    by (intros; now rewrite length_insert).
  rewrite (with_channel_at _ _ _ _ _ (list_lookup_insert_eq _ _ _ (Hlen' _))).
  cbn [over status_latched count_latched latched_count rw_mode fst snd mbind option_bind].
  rewrite Hsl. cbn. rewrite !list_insert_insert_eq.
  eexists _, _, _. split; [reflexivity|]. split.
  - rewrite (land_ones_mod v 8), Z.shiftr_div_pow2 by done. change (2 ^ 8) with 256.
    pose proof (Z.div_mod v 256). lia.
  - destruct s; cbn in *; subst; reflexivity.
Qed.
End Program.

Lemma pit_program_count_witness : exists pit' w' s',
  ('(_, (p, w)) ← pit_ioport_write recorder 3 (control_word 0 3 2) 1
                    (pit_reset recorder 0 pit_initfn []).1 [];
   '(_, (p, w)) ← pit_ioport_write recorder 0 0x9c 2 p w;
   pit_ioport_write recorder 0 0x2e 3 p w) = Some (tt, (pit', w'))
  /\ pit' !! 0%nat = Some s' /\ count s' = 11932.
Proof.
  destruct (pit_reset recorder 0 pit_initfn []).1 as [|s rest] eqn:E; [discriminate E|].
  destruct (pit_program_count recorder 0 2 0x9c 0x2e 1 2 3 (s :: rest) [] s)
    as (p & w & s' & H & Hl & Hc & _); [lia|lia|split; reflexivity || discriminate|
    split; reflexivity || discriminate|reflexivity|].
  exists p, w, s'. split; [exact H|]. split; [exact Hl|]. exact Hc.
Defined.

Lemma pit_latch_read_witness :
  let s := (chan_zero None) <| mode := 3 |> <| count := 65536 |> <| rw_mode := 3 |> in
  exists lo hi s',
    ('(_, (p, w)) ← pit_ioport_write recorder 3 (control_word 1 0 0) 1000000 [s; s; s] [];
     '(lo, (p, w)) ← pit_ioport_read 1 2000000 p w;
     '(hi, (p, w)) ← pit_ioport_read 1 3000000 p w;
     Some (lo, hi, p, w)) = Some (lo, hi, [s; s'; s], []) /\ lo + 256 * hi = 65536 - 2 * 1193.
Proof.
  intros s.
  destruct (pit_latch_read recorder 1 1000000 2000000 3000000 [s; s; s] [] s)
    as (lo & hi & s' & H & Hv & _);
    [lia|reflexivity|vm_compute; split; discriminate
    |vm_compute; split; [split; discriminate|reflexivity]|reflexivity..|].
  exists lo, hi, s'. split; [exact H|]. rewrite Hv. vm_compute. reflexivity.
Defined.

End I8254.
