(* ===== verification/Rtc.v ===== *)
(** * The MC146818 real-time clock: hw/mc146818rtc.c

    [RTCState] is the struct of the same name and [tm] the fields of [struct tm]
    the device uses.  The clock is an argument [now]; a timer field is [None]
    when the timer is not pending and [Some t] when it is due at [t].  The code
    compiled for [TARGET_I386] is modelled, [rtc_td_hack] being the command-line
    switch.  The APIC's delivery report, used to count ticks the guest missed,
    is the interface [IrqDelivered], which [Apic] implements. *)

From S2P Require Import Prelude Irq HostUtils I8254.
Import Irq HostUtils.

(** What the interrupt controller tells a device that re-injects lost ticks:
    [apic_reset_irq_delivered] forgets, [apic_get_irq_delivered] is non-zero
    when an interrupt has been accepted since. *)
Class IrqDelivered (W : Type) := {
  apic_reset_irq_delivered : W -> W;
  apic_get_irq_delivered : W -> Z;
  irq_delivered_reset : forall w, apic_get_irq_delivered (apic_reset_irq_delivered w) = 0
}.

Module Rtc.
Import I8254(get_ticks_per_sec).

Definition RTC_REINJECT_ON_ACK_COUNT : Z := 20.

Definition RTC_SECONDS : Z := 0.
Definition RTC_SECONDS_ALARM : Z := 1.
Definition RTC_MINUTES : Z := 2.
Definition RTC_MINUTES_ALARM : Z := 3.
Definition RTC_HOURS : Z := 4.
Definition RTC_HOURS_ALARM : Z := 5.
Definition RTC_DAY_OF_WEEK : Z := 6.
Definition RTC_DAY_OF_MONTH : Z := 7.
Definition RTC_MONTH : Z := 8.
Definition RTC_YEAR : Z := 9.
Definition RTC_REG_A : Z := 10.
Definition RTC_REG_B : Z := 11.
Definition RTC_REG_C : Z := 12.
Definition RTC_REG_D : Z := 13.

Definition REG_A_UIP : Z := 0x80.
Definition REG_B_SET : Z := 0x80.
Definition REG_B_PIE : Z := 0x40.
Definition REG_B_AIE : Z := 0x20.
Definition REG_B_UIE : Z := 0x10.
Definition REG_B_SQWE : Z := 0x08.
Definition REG_B_DM : Z := 0x04.
Definition REG_B_24H : Z := 0x02.
Definition REG_C_UF : Z := 0x10.
Definition REG_C_IRQF : Z := 0x80.
Definition REG_C_PF : Z := 0x40.
Definition REG_C_AF : Z := 0x20.

Record tm := mkTm {
  tm_sec : Z;
  tm_min : Z;
  tm_hour : Z;
  tm_mday : Z;
  tm_mon : Z;    (* 0 to 11 *)
  tm_year : Z;   (* since 1900 *)
  tm_wday : Z
}.

#[export] Instance tm_eta : Eta tm := fun s =>
  mkTm (tm_sec s) (tm_min s) (tm_hour s) (tm_mday s) (tm_mon s) (tm_year s) (tm_wday s).

Record RTCState := mkRTC {
  cmos_data : list Z;            (* uint8_t [128] *)
  cmos_index : Z;
  current_tm : tm;
  base_year : Z;
  periodic_timer : option Z;
  next_periodic_time : Z;
  next_second_time : Z;
  irq_reinject_on_ack_count : Z;
  irq_coalesced : Z;
  period : Z;
  coalesced_timer : option Z;
  second_timer : option Z;
  second_timer2 : option Z
}.

#[export] Instance RTCState_eta : Eta RTCState := fun s =>
  mkRTC (cmos_data s) (cmos_index s) (current_tm s) (base_year s) (periodic_timer s)
    (next_periodic_time s) (next_second_time s) (irq_reinject_on_ack_count s)
    (irq_coalesced s) (period s) (coalesced_timer s) (second_timer s) (second_timer2 s).

(** [s->cmos_data[i]] and [s->cmos_data[i] = v]. *)
Definition cmos (s : RTCState) (i : Z) : Z := aget (cmos_data s) i.
Definition set_cmos (i v : Z) (s : RTCState) : RTCState :=
  s <| cmos_data := aset (cmos_data s) i (u8 v) |>.

(** ** Date and time *)

Definition rtc_to_bcd (s : RTCState) (a : Z) : Z :=
  if tst (cmos s RTC_REG_B) REG_B_DM then a
  else (Z.quot a 10 << 4) .| Z.rem a 10.

Definition rtc_from_bcd (s : RTCState) (a : Z) : Z :=
  if tst (cmos s RTC_REG_B) REG_B_DM then a
  else (a >> 4) * 10 + (a .& 0x0f).

(** The assignments of [rtc_set_time]; the monitor event follows below. *)
Definition rtc_set_tm (s : RTCState) : tm :=
  let hour := rtc_from_bcd s (cmos s RTC_HOURS .& 0x7f) in
  {| tm_sec := rtc_from_bcd s (cmos s RTC_SECONDS);
     tm_min := rtc_from_bcd s (cmos s RTC_MINUTES);
     tm_hour := if negb (tst (cmos s RTC_REG_B) REG_B_24H) && tst (cmos s RTC_HOURS) 0x80
                then hour + 12 else hour;
     tm_wday := rtc_from_bcd s (cmos s RTC_DAY_OF_WEEK) - 1;
     tm_mday := rtc_from_bcd s (cmos s RTC_DAY_OF_MONTH);
     tm_mon := rtc_from_bcd s (cmos s RTC_MONTH) - 1;
     tm_year := rtc_from_bcd s (cmos s RTC_YEAR) + base_year s - 1900 |}.

Definition rtc_copy_date (s : RTCState) : RTCState :=
  let t := current_tm s in
  let s := set_cmos RTC_SECONDS (rtc_to_bcd s (tm_sec t)) s in
  let s := set_cmos RTC_MINUTES (rtc_to_bcd s (tm_min t)) s in
  let s :=
    if tst (cmos s RTC_REG_B) REG_B_24H then
      (* 24 hour format *)
      set_cmos RTC_HOURS (rtc_to_bcd s (tm_hour t)) s
    else
      (* 12 hour format *)
      let s := set_cmos RTC_HOURS (rtc_to_bcd s (Z.rem (tm_hour t) 12)) s in
      if 12 <=? tm_hour t then set_cmos RTC_HOURS (cmos s RTC_HOURS .| 0x80) s else s in
  let s := set_cmos RTC_DAY_OF_WEEK (rtc_to_bcd s (tm_wday t + 1)) s in
  let s := set_cmos RTC_DAY_OF_MONTH (rtc_to_bcd s (tm_mday t)) s in
  let s := set_cmos RTC_MONTH (rtc_to_bcd s (tm_mon t + 1)) s in
  let year := Z.rem (tm_year t - base_year s) 100 in
  let year := if year <? 0 then year + 100 else year in
  set_cmos RTC_YEAR (rtc_to_bcd s year) s.

Definition days_tab : list Z := [31; 28; 31; 30; 31; 30; 31; 31; 30; 31; 30; 31].

(** month is between 0 and 11. *)
Definition get_days_in_month (month year : Z) : Z :=
  if 12 <=? u32 month then 31
  else
    let d := aget days_tab month in
    if month =? 1 then
      if (Z.rem year 4 =? 0) && (negb (Z.rem year 100 =? 0) || (Z.rem year 400 =? 0))
      then d + 1 else d
    else d.

(** Update [t] to the next second. *)
Definition rtc_next_second (t : tm) : tm :=
  let t := t <| tm_sec := tm_sec t + 1 |> in
  if 60 <=? u32 (tm_sec t) then
    let t := t <| tm_sec := 0 |> in
    let t := t <| tm_min := tm_min t + 1 |> in
    if 60 <=? u32 (tm_min t) then
      let t := t <| tm_min := 0 |> in
      let t := t <| tm_hour := tm_hour t + 1 |> in
      if 24 <=? u32 (tm_hour t) then
        let t := t <| tm_hour := 0 |> in
        (* next day *)
        let t := t <| tm_wday := tm_wday t + 1 |> in
        let t := if 7 <=? u32 (tm_wday t) then t <| tm_wday := 0 |> else t in
        let days_in_month := get_days_in_month (tm_mon t) (tm_year t + 1900) in
        let t := t <| tm_mday := tm_mday t + 1 |> in
        if tm_mday t <? 1 then t <| tm_mday := 1 |>
        else if days_in_month <? tm_mday t then
          let t := t <| tm_mday := 1 |> in
          let t := t <| tm_mon := tm_mon t + 1 |> in
          if 12 <=? tm_mon t then
            let t := t <| tm_mon := 0 |> in
            t <| tm_year := tm_year t + 1 |>
          else t
        else t
      else t
    else t
  else t.

(** ** Timers, interrupts and ports *)

Section Device.
Context {W : Type} `{IrqDelivered W}.
Context (rtc_td_hack : bool) (irq sqw_irq : qemu_irq W).
(** [rtc_change_mon_event]: the QMP event that tells management the guest set
    the clock. *)
Context (rtc_change_mon_event : tm -> W -> W).

Definition rtc_coalesced_timer_update (now : Z) (s : RTCState) : RTCState :=
  if irq_coalesced s =? 0 then s <| coalesced_timer := None |>
  else
    (* divide each RTC interval to 2 - 8 smaller intervals *)
    let c := Z.min (irq_coalesced s) 7 + 1 in
    let next_clock := now + muldiv64 (period s / c) get_ticks_per_sec 32768 in
    s <| coalesced_timer := Some next_clock |>.

Definition rtc_coalesced_timer (now : Z) (s : RTCState) (w : W) : RTCState * W :=
  let '(s, w) :=
    if negb (irq_coalesced s =? 0) then
      let w := apic_reset_irq_delivered w in
      let s := set_cmos RTC_REG_C (cmos s RTC_REG_C .| 0xc0) s in
      let w := qemu_irq_raise irq w in
      if truthy (apic_get_irq_delivered w)
      then (s <| irq_coalesced := u32 (irq_coalesced s - 1) |>, w)
      else (s, w)
    else (s, w) in
  (rtc_coalesced_timer_update now s, w).

Definition rtc_timer_update (current_time : Z) (s : RTCState) : RTCState :=
  let period_code := cmos s RTC_REG_A .& 0x0f in
  if negb (period_code =? 0)
     && (tst (cmos s RTC_REG_B) REG_B_PIE
         || (tst (cmos s RTC_REG_B) REG_B_SQWE && bool_decide (is_Some sqw_irq)))
  then
    let period_code := if period_code <=? 2 then period_code + 7 else period_code in
    (* period in 32 Khz cycles *)
    let p := 1 << (period_code - 1) in
    let s := if negb (p =? period s)
             then s <| irq_coalesced := u32 (irq_coalesced s * period s) / p |> else s in
    let s := s <| period := p |> in
    (* compute 32 khz clock *)
    let cur_clock := s64 (muldiv64 (u64 current_time) 32768 get_ticks_per_sec) in
    let next_irq_clock := (cur_clock .& ~~ (p - 1)) + p in
    let s := s <| next_periodic_time :=
                  s64 (muldiv64 (u64 next_irq_clock) get_ticks_per_sec 32768 + 1) |> in
    s <| periodic_timer := Some (next_periodic_time s) |>
  else
    let s := s <| irq_coalesced := 0 |> in
    s <| periodic_timer := None |>.

Definition rtc_periodic_timer (now : Z) (s : RTCState) (w : W) : RTCState * W :=
  let s := rtc_timer_update (next_periodic_time s) s in
  let '(s, w) :=
    if tst (cmos s RTC_REG_B) REG_B_PIE then
      let s := set_cmos RTC_REG_C (cmos s RTC_REG_C .| 0xc0) s in
      if rtc_td_hack then
        let s := if RTC_REINJECT_ON_ACK_COUNT <=? irq_reinject_on_ack_count s
                 then s <| irq_reinject_on_ack_count := 0 |> else s in
        let w := apic_reset_irq_delivered w in
        let w := qemu_irq_raise irq w in
        if negb (truthy (apic_get_irq_delivered w)) then
          let s := s <| irq_coalesced := u32 (irq_coalesced s + 1) |> in
          (rtc_coalesced_timer_update now s, w)
        else (s, w)
      else (s, qemu_irq_raise irq w)
    else (s, w) in
  if tst (cmos s RTC_REG_B) REG_B_SQWE
  then (* Must be seen as a pulse. *) (s, qemu_irq_raise sqw_irq w)
  else (s, w).

Definition rtc_set_time (s : RTCState) (w : W) : RTCState * W :=
  let t := rtc_set_tm s in
  (s <| current_tm := t |>, rtc_change_mon_event t w).

Definition cmos_ioport_write (addr data now : Z) (s : RTCState) (w : W) : RTCState * W :=
  if addr .& 1 =? 0 then (s <| cmos_index := data .& 0x7f |>, w)
  else
    match cmos_index s with
    | 1 | 3 | 5 => (set_cmos (cmos_index s) data s, w)
    | 0 | 2 | 4 | 6 | 7 | 8 | 9 =>
        let s := set_cmos (cmos_index s) data s in
        (* if in set mode, do not update the time *)
        if negb (tst (cmos s RTC_REG_B) REG_B_SET) then rtc_set_time s w else (s, w)
    | 10 =>
        (* UIP bit is read only *)
        let s := set_cmos RTC_REG_A ((data .& ~~ REG_A_UIP) .| (cmos s RTC_REG_A .& REG_A_UIP)) s in
        (rtc_timer_update now s, w)
    | 11 =>
        let '(data, s, w) :=
          if tst data REG_B_SET then
            (* set mode: reset UIP mode *)
            let s := set_cmos RTC_REG_A (cmos s RTC_REG_A .& ~~ REG_A_UIP) s in
            (data .& ~~ REG_B_UIE, s, w)
          else if tst (cmos s RTC_REG_B) REG_B_SET then
            (* if disabling set mode, update the time *)
            let '(s, w) := rtc_set_time s w in (data, s, w)
          else (data, s, w) in
        let s :=
          if tst (cmos s RTC_REG_B .^ data) (REG_B_DM .| REG_B_24H) && negb (tst data REG_B_SET) then
            (* If the time format has changed and not in set mode,
               update the registers immediately. *)
            rtc_copy_date (set_cmos RTC_REG_B data s)
          else set_cmos RTC_REG_B data s in
        (rtc_timer_update now s, w)
    | 12 | 13 => (* cannot write to them *) (s, w)
    | _ => (set_cmos (cmos_index s) data s, w)
    end.

Definition rtc_update_second (s : RTCState) : RTCState :=
  (* if the oscillator is not in normal operation, we do not update *)
  if negb (cmos s RTC_REG_A .& 0x70 =? 0x20) then
    let s := s <| next_second_time := next_second_time s + get_ticks_per_sec |> in
    s <| second_timer := Some (next_second_time s) |>
  else
    let s := s <| current_tm := rtc_next_second (current_tm s) |> in
    let s := if negb (tst (cmos s RTC_REG_B) REG_B_SET)
             then (* update in progress bit *)
               set_cmos RTC_REG_A (cmos s RTC_REG_A .| REG_A_UIP) s
             else s in
    let delay := Z.quot (get_ticks_per_sec * 1) 100 in
    let delay := if delay <? 1 then 1 else delay in
    s <| second_timer2 := Some (next_second_time s + delay) |>.

(** One alarm register against one field: [0xc0] is "don't care". *)
Definition alarm_field (s : RTCState) (reg field : Z) : bool :=
  (cmos s reg .& 0xc0 =? 0xc0) || (rtc_from_bcd s (cmos s reg) =? field).

Definition rtc_update_second2 (s : RTCState) (w : W) : RTCState * W :=
  let s := if negb (tst (cmos s RTC_REG_B) REG_B_SET) then rtc_copy_date s else s in
  (* check alarm *)
  let '(s, w) :=
    if tst (cmos s RTC_REG_B) REG_B_AIE then
      if alarm_field s RTC_SECONDS_ALARM (tm_sec (current_tm s))
         && alarm_field s RTC_MINUTES_ALARM (tm_min (current_tm s))
         && alarm_field s RTC_HOURS_ALARM (tm_hour (current_tm s))
      then
        let s := set_cmos RTC_REG_C (cmos s RTC_REG_C .| 0xa0) s in
        (s, qemu_irq_raise irq w)
      else (s, w)
    else (s, w) in
  (* update ended interrupt *)
  let s := set_cmos RTC_REG_C (cmos s RTC_REG_C .| REG_C_UF) s in
  let '(s, w) :=
    if tst (cmos s RTC_REG_B) REG_B_UIE then
      let s := set_cmos RTC_REG_C (cmos s RTC_REG_C .| REG_C_IRQF) s in
      (s, qemu_irq_raise irq w)
    else (s, w) in
  (* clear update in progress bit *)
  let s := set_cmos RTC_REG_A (cmos s RTC_REG_A .& ~~ REG_A_UIP) s in
  let s := s <| next_second_time := next_second_time s + get_ticks_per_sec |> in
  (s <| second_timer := Some (next_second_time s) |>, w).

Definition cmos_ioport_read (addr : Z) (s : RTCState) (w : W) : Z * (RTCState * W) :=
  if addr .& 1 =? 0 then (0xff, (s, w))
  else
    let ret := cmos s (cmos_index s) in
    if cmos_index s =? RTC_REG_C then
      let w := qemu_irq_lower irq w in
      if negb (irq_coalesced s =? 0)
         && (irq_reinject_on_ack_count s <? RTC_REINJECT_ON_ACK_COUNT) then
        let s := s <| irq_reinject_on_ack_count := u16 (irq_reinject_on_ack_count s + 1) |> in
        let w := apic_reset_irq_delivered w in
        let w := qemu_irq_raise irq w in
        if truthy (apic_get_irq_delivered w)
        then (ret, (s <| irq_coalesced := u32 (irq_coalesced s - 1) |>, w))
        else (ret, (s, w))
      else (ret, (set_cmos RTC_REG_C 0x00 s, w))
    else (ret, (s, w)).

Definition rtc_set_memory (addr val : Z) (s : RTCState) : RTCState :=
  if (0 <=? addr) && (addr <=? 127) then set_cmos addr val s else s.

Definition rtc_set_date (t : tm) (s : RTCState) : RTCState :=
  let s := s <| current_tm := t |> in
  rtc_copy_date s.

Definition REG_IBM_CENTURY_BYTE : Z := 0x32.
Definition REG_IBM_PS2_CENTURY_BYTE : Z := 0x37.

(** [host] is what [qemu_get_timedate] returns. *)
Definition rtc_set_date_from_host (host : tm) (s : RTCState) : RTCState :=
  let s := rtc_set_date host s in
  let val := rtc_to_bcd s (Z.quot (tm_year host) 100 + 19) in
  let s := rtc_set_memory REG_IBM_CENTURY_BYTE val s in
  rtc_set_memory REG_IBM_PS2_CENTURY_BYTE val s.

Definition rtc_post_load (now version_id : Z) (s : RTCState) : RTCState :=
  if 2 <=? version_id then
    if rtc_td_hack then rtc_coalesced_timer_update now s else s
  else s.

(** [t] is the time the clock was reset to, [now] what it reads. *)
Definition rtc_notify_clock_reset (host : tm) (t now : Z) (s : RTCState) : RTCState :=
  let s := rtc_set_date_from_host host s in
  let s := s <| next_second_time := t + Z.quot (get_ticks_per_sec * 99) 100 |> in
  let s := s <| second_timer2 := Some (next_second_time s) |> in
  let s := rtc_timer_update t s in
  if rtc_td_hack then rtc_coalesced_timer_update now s else s.

Definition rtc_reset (s : RTCState) (w : W) : RTCState * W :=
  let s := set_cmos RTC_REG_B
             (cmos s RTC_REG_B .& ~~ (REG_B_PIE .| REG_B_AIE .| REG_B_SQWE)) s in
  let s := set_cmos RTC_REG_C
             (cmos s RTC_REG_C .& ~~ (REG_C_UF .| REG_C_IRQF .| REG_C_PF .| REG_C_AF)) s in
  let w := qemu_irq_lower irq w in
  (if rtc_td_hack then s <| irq_coalesced := 0 |> else s, w).

Definition tm_zero : tm :=
  {| tm_sec := 0; tm_min := 0; tm_hour := 0; tm_mday := 0; tm_mon := 0; tm_year := 0; tm_wday := 0 |}.

Definition rtc_initfn (host : tm) (year now : Z) : RTCState :=
  let s := {| cmos_data := replicate 128 0; cmos_index := 0; current_tm := tm_zero;
              base_year := year; periodic_timer := None; next_periodic_time := 0;
              next_second_time := 0; irq_reinject_on_ack_count := 0; irq_coalesced := 0;
              period := 0; coalesced_timer := None; second_timer := None; second_timer2 := None |} in
  let s := set_cmos RTC_REG_A 0x26 s in
  let s := set_cmos RTC_REG_B 0x02 s in
  let s := set_cmos RTC_REG_C 0x00 s in
  let s := set_cmos RTC_REG_D 0x80 s in
  let s := rtc_set_date_from_host host s in
  let s := s <| next_second_time := now + Z.quot (get_ticks_per_sec * 99) 100 |> in
  s <| second_timer2 := Some (next_second_time s) |>.

End Device.

(** ** The calendar

    A date and time as a count of seconds in the proleptic Gregorian
    calendar. *)

Definition leap (y : Z) : bool := (y mod 4 =? 0) && (negb (y mod 100 =? 0) || (y mod 400 =? 0)).

Definition days_before_year (y : Z) : Z :=
  365 * y + (y - 1) / 4 - (y - 1) / 100 + (y - 1) / 400.

Definition month_days (y : Z) : list Z :=
  [31; 28 + b2z (leap y); 31; 30; 31; 30; 31; 31; 30; 31; 30; 31].

Definition days_before_month (y m : Z) : Z := foldr Z.add 0 (take (Z.to_nat m) (month_days y)).

Definition day_number (t : tm) : Z :=
  days_before_year (tm_year t + 1900) + days_before_month (tm_year t + 1900) (tm_mon t) + tm_mday t.

Definition seconds (t : tm) : Z :=
  ((day_number t * 24 + tm_hour t) * 60 + tm_min t) * 60 + tm_sec t.

Record tm_ok (t : tm) : Prop := {
  ok_sec : 0 <= tm_sec t < 60;
  ok_min : 0 <= tm_min t < 60;
  ok_hour : 0 <= tm_hour t < 24;
  ok_mon : 0 <= tm_mon t < 12;
  ok_mday : 1 <= tm_mday t <= aget (month_days (tm_year t + 1900)) (tm_mon t);
  ok_wday : 0 <= tm_wday t < 7
}.

Lemma rem_eqb y k : 0 < k -> (Z.rem y k =? 0) = (y mod k =? 0).
Proof.
  intros Hk. apply Bool.eq_iff_eq_true. rewrite !Z.eqb_eq.
  rewrite Z.rem_divide, Z.mod_divide by lia. done.
Qed.

Lemma month_cases (P : Z -> Prop) :
  P 0 -> P 1 -> P 2 -> P 3 -> P 4 -> P 5 -> P 6 -> P 7 -> P 8 -> P 9 -> P 10 -> P 11 ->
  forall m, 0 <= m < 12 -> P m.
Proof.
  intros. assert (m = 0 \/ m = 1 \/ m = 2 \/ m = 3 \/ m = 4 \/ m = 5 \/ m = 6 \/ m = 7
    \/ m = 8 \/ m = 9 \/ m = 10 \/ m = 11) as C by lia.
  repeat destruct C as [->|C]; subst; done.
Qed.

Lemma get_days_in_month_spec m y : 0 <= m < 12 -> get_days_in_month m y = aget (month_days y) m.
Proof.
  revert m. apply month_cases; unfold get_days_in_month; rewrite ?rem_eqb by lia; fold (leap y);
    try reflexivity. cbn. destruct (leap y); reflexivity.
Qed.

Lemma month_days_range y m : 0 <= m < 12 -> 28 <= aget (month_days y) m <= 31.
Proof.
  revert m. apply month_cases; unfold month_days; destruct (leap y); vm_compute; split; discriminate.
Qed.

Lemma days_before_month_succ y m : 0 <= m < 12 ->
  days_before_month y (m + 1) = days_before_month y m + aget (month_days y) m.
Proof.
  revert m. apply month_cases; unfold days_before_month, month_days; destruct (leap y); reflexivity.
Qed.

Lemma days_before_year_succ y :
  days_before_year (y + 1) = days_before_year y + 365 + b2z (leap y).
Proof.
  unfold days_before_year, leap, b2z.
  destruct (Z.eqb_spec (y mod 4) 0), (Z.eqb_spec (y mod 100) 0), (Z.eqb_spec (y mod 400) 0);
    cbn [andb orb negb]; Z.div_mod_to_equations; lia.
Qed.

Lemma year_days y : days_before_month y 12 = 365 + b2z (leap y).
Proof. unfold days_before_month, month_days; destruct (leap y); reflexivity. Qed.

Lemma leb_u32 k x : 0 <= x < 1000 -> (k <=? u32 x) = (k <=? x).
Proof. intros. rewrite u32_id; [done|split; lia]. Qed.

Ltac tm_cbn := cbn [over tm_sec tm_min tm_hour tm_mday tm_mon tm_year tm_wday].

(** The date after midnight. *)
Definition next_day (t : tm) : tm :=
  let t := t <| tm_sec := 0 |> <| tm_min := 0 |> <| tm_hour := 0 |>
             <| tm_wday := (tm_wday t + 1) mod 7 |> in
  if tm_mday t =? aget (month_days (tm_year t + 1900)) (tm_mon t) then
    if tm_mon t =? 11 then t <| tm_mday := 1 |> <| tm_mon := 0 |> <| tm_year := tm_year t + 1 |>
    else t <| tm_mday := 1 |> <| tm_mon := tm_mon t + 1 |>
  else t <| tm_mday := tm_mday t + 1 |>.

Lemma next_day_ok t : tm_ok t ->
  tm_ok (next_day t) /\ day_number (next_day t) = day_number t + 1.
Proof.
  intros [Hs Hm Hh Hmo Hd Hw]. pose proof (Z.mod_pos_bound (tm_wday t + 1) 7 ltac:(lia)) as Hw'.
  unfold next_day, day_number. tm_cbn.
  pose proof (days_before_month_succ (tm_year t + 1900) (tm_mon t) Hmo) as Hsucc.
  destruct (Z.eqb_spec (tm_mday t) (aget (month_days (tm_year t + 1900)) (tm_mon t))) as [E|];
    [destruct (Z.eqb_spec (tm_mon t) 11) as [E'|]|]; tm_cbn.
  - split.
    + constructor; tm_cbn; try lia. pose proof (month_days_range (tm_year t + 1 + 1900) 0 ltac:(lia)). lia.
    + rewrite E' in *. change (11 + 1) with 12 in Hsucc. rewrite year_days in Hsucc.
      replace (tm_year t + 1 + 1900) with (tm_year t + 1900 + 1) by lia.
      rewrite days_before_year_succ.
      change (days_before_month (tm_year t + 1900 + 1) 0) with 0. lia.
  - split; [|lia]. constructor; tm_cbn; try lia.
    pose proof (month_days_range (tm_year t + 1900) (tm_mon t + 1) ltac:(lia)). lia.
  - split; [|lia]. constructor; tm_cbn; lia.
Qed.

Lemma next_second_cases t : tm_ok t ->
  rtc_next_second t =
  if tm_sec t =? 59 then
    if tm_min t =? 59 then
      if tm_hour t =? 23 then next_day t
      else t <| tm_sec := 0 |> <| tm_min := 0 |> <| tm_hour := tm_hour t + 1 |>
    else t <| tm_sec := 0 |> <| tm_min := tm_min t + 1 |>
  else t <| tm_sec := tm_sec t + 1 |>.
Proof.
  intros [Hs Hm Hh Hmo Hd Hw]. unfold rtc_next_second, next_day. tm_cbn.
  rewrite get_days_in_month_spec by (destruct (7 <=? _); exact Hmo).
  rewrite !leb_u32 by lia.
  destruct t as [sec mn hr md mo yr wd]; cbn [tm_sec tm_min tm_hour tm_mday tm_mon tm_year tm_wday] in *.
  destruct (Z.eqb_spec sec 59), (Z.leb_spec 60 (sec + 1)); try lia; try reflexivity.
  destruct (Z.eqb_spec mn 59), (Z.leb_spec 60 (mn + 1)); try lia; try reflexivity.
  destruct (Z.eqb_spec hr 23), (Z.leb_spec 24 (hr + 1)); try lia; try reflexivity.
  pose proof (month_days_range (yr + 1900) mo Hmo).
  assert ((wd + 1) mod 7 = if 7 <=? wd + 1 then 0 else wd + 1) as ->
    by (destruct (Z.leb_spec 7 (wd + 1)); [replace wd with 6 by lia; done|apply Z.mod_small; lia]).
  destruct (7 <=? wd + 1); tm_cbn;
    (destruct (Z.ltb_spec (md + 1) 1); [lia|]);
    destruct (Z.eqb_spec md (aget (month_days (yr + 1900)) mo)),
      (Z.ltb_spec (aget (month_days (yr + 1900)) mo) (md + 1)); try lia; try reflexivity;
    destruct (Z.eqb_spec mo 11), (Z.leb_spec 12 (mo + 1)); try lia; reflexivity.
Qed.

Lemma next_second_ok (t : tm) : tm_ok t ->
  tm_ok (rtc_next_second t) /\ seconds (rtc_next_second t) = seconds t + 1
  /\ (tm_wday (rtc_next_second t) - day_number (rtc_next_second t)) mod 7
     = (tm_wday t - day_number t) mod 7.
Proof.
  intros H. rewrite next_second_cases by done. pose proof H as [Hs Hm Hh Hmo Hd Hw].
  destruct (Z.eqb_spec (tm_sec t) 59); [destruct (Z.eqb_spec (tm_min t) 59);
    [destruct (Z.eqb_spec (tm_hour t) 23)|]|].
  - destruct (next_day_ok t H) as [Hok Hn]. split; [done|].
    assert (tm_sec (next_day t) = 0 /\ tm_min (next_day t) = 0 /\ tm_hour (next_day t) = 0
      /\ tm_wday (next_day t) = (tm_wday t + 1) mod 7) as (E1 & E2 & E3 & E4)
      by (unfold next_day; tm_cbn; repeat case_match; done).
    unfold seconds. rewrite E1, E2, E3, E4, Hn. split; [lia|].
    rewrite Zminus_mod_idemp_l. f_equal. lia.
  - split; [constructor; tm_cbn; lia|]. unfold seconds, day_number. tm_cbn. split; [lia|done].
  - split; [constructor; tm_cbn; lia|]. unfold seconds, day_number. tm_cbn. split; [lia|done].
  - split; [constructor; tm_cbn; lia|]. unfold seconds, day_number. tm_cbn. split; [lia|done].
Qed.

(** C34: [rtc_next_second] is the successor in the Gregorian calendar: from a
    valid date and time it gives the valid one that is exactly one second
    later, leap years and month ends included, and the day of the week advances
    with the day. *)
Theorem rtc_next_second_correct (t : tm) : tm_ok t ->
  tm_ok (rtc_next_second t) /\ seconds (rtc_next_second t) = seconds t + 1
  /\ (tm_wday (rtc_next_second t) - day_number (rtc_next_second t)) mod 7
     = (tm_wday t - day_number t) mod 7.
Proof. apply next_second_ok. Qed.

(** The last second of February 2000. *)
Lemma rtc_next_second_correct_witness :
  let t := mkTm 59 59 23 29 1 100 2 in
  tm_ok t /\ seconds (rtc_next_second t) = seconds t + 1 /\ tm_mon (rtc_next_second t) = 2.
Proof.
  intros t. assert (tm_ok t) as H by (constructor; vm_compute; (split; congruence)).
  split; [exact H|]. split; [apply (rtc_next_second_correct t H)|reflexivity].
Defined.

(** ** Reading and writing registers *)

Definition cmos_wf (s : RTCState) : Prop := length (cmos_data s) = 128%nat.

Create HintDb rtc.
#[export] Hint Unfold RTC_SECONDS RTC_SECONDS_ALARM RTC_MINUTES RTC_MINUTES_ALARM RTC_HOURS
  RTC_HOURS_ALARM RTC_DAY_OF_WEEK RTC_DAY_OF_MONTH RTC_MONTH RTC_YEAR RTC_REG_A RTC_REG_B
  RTC_REG_C RTC_REG_D REG_A_UIP REG_B_SET REG_B_PIE REG_B_AIE REG_B_UIE REG_B_SQWE REG_B_DM
  REG_B_24H REG_C_UF REG_C_IRQF REG_C_PF REG_C_AF : rtc.

Lemma set_cmos_wf i v s : cmos_wf s -> cmos_wf (set_cmos i v s).
Proof. unfold cmos_wf, set_cmos. cbn [over cmos_data]. now rewrite length_aset. Qed.
#[export] Hint Resolve set_cmos_wf : rtc.

Lemma cmos_set i v s j : cmos_wf s -> 0 <= i < 128 -> 0 <= j ->
  cmos (set_cmos i v s) j = if i =? j then u8 v else cmos s j.
Proof.
  unfold cmos_wf, cmos, set_cmos. cbn [over cmos_data]. intros Hl Hi Hj.
  destruct (Z.eqb_spec i j) as [->|]; [apply aget_aset_eq; lia|now apply aget_aset_ne].
Qed.

(** Updates of the other fields. *)
Lemma cmos_upd s i a b c d :
  cmos (s <| second_timer := a |>) i = cmos s i /\ cmos (s <| second_timer2 := b |>) i = cmos s i
  /\ cmos (s <| next_second_time := c |>) i = cmos s i /\ cmos (s <| current_tm := d |>) i = cmos s i.
Proof. done. Qed.

Ltac cmos_strip :=
  first [rewrite (proj1 (cmos_upd _ _ _ None 0 tm_zero))
        |rewrite (proj1 (proj2 (cmos_upd _ _ None _ 0 tm_zero)))
        |rewrite (proj1 (proj2 (proj2 (cmos_upd _ _ None None _ tm_zero))))
        |rewrite (proj2 (proj2 (proj2 (cmos_upd _ _ None None 0 _))))].

Ltac cmos_simpl :=
  autounfold with rtc in *;
  repeat first [rewrite cmos_set by (auto 12 with rtc || lia); cbn [Z.eqb Pos.eqb] | cmos_strip].

Definition to_bcd (dm : bool) (a : Z) : Z := if dm then a else (Z.quot a 10 << 4) .| Z.rem a 10.
Definition from_bcd (dm : bool) (a : Z) : Z := if dm then a else (a >> 4) * 10 + (a .& 0x0f).

Lemma bcd_roundtrip dm a : 0 <= a < 100 -> from_bcd dm (u8 (to_bcd dm a)) = a.
Proof.
  intros Ha. apply Z.eqb_eq. revert a Ha.
  apply (all_below_spec 100 (fun a => from_bcd dm (u8 (to_bcd dm a)) =? a)).
  destruct dm; vm_compute; reflexivity.
Qed.

(** The hour register of an hour in the two formats, and back. *)
Definition hour_reg (dm h24 : bool) (h : Z) : Z :=
  if h24 then u8 (to_bcd dm h)
  else let r := u8 (to_bcd dm (Z.rem h 12)) in if 12 <=? h then u8 (r .| 0x80) else r.

Definition reg_hour (dm h24 : bool) (r : Z) : Z :=
  let h := from_bcd dm (r .& 0x7f) in if negb h24 && tst r 0x80 then h + 12 else h.

Lemma hour_roundtrip dm h24 h : 0 <= h < 24 -> reg_hour dm h24 (hour_reg dm h24 h) = h.
Proof.
  intros Hh. apply Z.eqb_eq. revert h Hh.
  apply (all_below_spec 24 (fun h => reg_hour dm h24 (hour_reg dm h24 h) =? h)).
  destruct dm, h24; vm_compute; reflexivity.
Qed.

(** The two formats, as register B selects them. *)
Definition fmt_dm (s : RTCState) : bool := tst (cmos s RTC_REG_B) REG_B_DM.
Definition fmt_24h (s : RTCState) : bool := tst (cmos s RTC_REG_B) REG_B_24H.

Definition year_reg (s : RTCState) : Z := (tm_year (current_tm s) - base_year s) mod 100.

Lemma rem_100 y : (if Z.rem y 100 <? 0 then Z.rem y 100 + 100 else Z.rem y 100) = y mod 100.
Proof.
  pose proof (Z.quot_rem y 100 ltac:(lia)) as Hq.
  assert (-100 < Z.rem y 100 < 100) by (pose proof (Z.rem_bound_abs y 100); lia).
  destruct (Z.ltb_spec (Z.rem y 100) 0);
    [apply Z.mod_unique with (Z.quot y 100 - 1)|apply Z.mod_unique with (Z.quot y 100)]; lia.
Qed.

Lemma fmt_set i v s : cmos_wf s -> 0 <= i < 128 -> i <> 11 ->
  fmt_dm (set_cmos i v s) = fmt_dm s /\ fmt_24h (set_cmos i v s) = fmt_24h s.
Proof.
  intros. unfold fmt_dm, fmt_24h. rewrite cmos_set by (done || (unfold RTC_REG_B; lia)).
  unfold RTC_REG_B. destruct (Z.eqb_spec i 11); [lia|done].
Qed.

Lemma set_cmos_twice i v w s : set_cmos i w (set_cmos i v s) = set_cmos i w s.
Proof.
  unfold set_cmos, aset. cbn [over cmos_data]. now rewrite list_insert_insert_eq.
Qed.

Lemma set_cmos_u8 i v s : set_cmos i (u8 v) s = set_cmos i v s.
Proof. unfold set_cmos. now rewrite (u8_id (u8 v)) by apply u8_range. Qed.

(** [rtc_copy_date] as seven register stores. *)
Lemma copy_date_stores s : cmos_wf s ->
  let t := current_tm s in
  let bcd := to_bcd (fmt_dm s) in
  rtc_copy_date s =
  set_cmos RTC_YEAR (bcd (year_reg s)) (set_cmos RTC_MONTH (bcd (tm_mon t + 1))
    (set_cmos RTC_DAY_OF_MONTH (bcd (tm_mday t)) (set_cmos RTC_DAY_OF_WEEK (bcd (tm_wday t + 1))
      (set_cmos RTC_HOURS (hour_reg (fmt_dm s) (fmt_24h s) (tm_hour t))
        (set_cmos RTC_MINUTES (bcd (tm_min t)) (set_cmos RTC_SECONDS (bcd (tm_sec t)) s)))))).
Proof.
  intros Hwf. cbv zeta. unfold rtc_copy_date. cbv zeta. rewrite rem_100.
  assert (forall s a, rtc_to_bcd s a = to_bcd (fmt_dm s) a) as Hb by reflexivity.
  set (s1 := set_cmos RTC_SECONDS _ s).
  assert (cmos_wf s1 /\ fmt_dm s1 = fmt_dm s /\ fmt_24h s1 = fmt_24h s) as (W1 & D1 & H1)
    by (split; [now apply set_cmos_wf|now apply fmt_set]).
  set (s2 := set_cmos RTC_MINUTES _ s1).
  assert (cmos_wf s2 /\ fmt_dm s2 = fmt_dm s /\ fmt_24h s2 = fmt_24h s) as (W2 & D2 & H2)
    by (split; [now apply set_cmos_wf|rewrite <- D1, <- H1; now apply fmt_set]).
  match goal with |- context [set_cmos RTC_DAY_OF_WEEK _ ?s3] =>
    assert (s3 = set_cmos RTC_HOURS (hour_reg (fmt_dm s) (fmt_24h s) (tm_hour (current_tm s))) s2) as E3
  end.
  { fold (fmt_24h s2). unfold hour_reg. rewrite H2, !Hb, D2. destruct (fmt_24h s); [now rewrite set_cmos_u8|].
    cbv zeta. destruct (12 <=? _); [|now rewrite set_cmos_u8].
    rewrite set_cmos_twice, cmos_set by done. cbn [Z.eqb Pos.eqb RTC_HOURS]. now rewrite set_cmos_u8. }
  rewrite E3. clear E3. set (s3 := set_cmos RTC_HOURS _ s2).
  assert (cmos_wf s3 /\ fmt_dm s3 = fmt_dm s) as (W3 & D3)
    by (split; [now apply set_cmos_wf|rewrite <- D2; now apply fmt_set]).
  rewrite !Hb. rewrite D3.
  assert (forall i v s, cmos_wf s -> 0 <= i < 128 -> i <> 11 ->
    fmt_dm (set_cmos i v s) = fmt_dm s) as Hset by (intros; now apply fmt_set).
  rewrite !Hset by (auto with rtc || done). rewrite D3.
  unfold s3, s2. rewrite Hb, D1. unfold s1. rewrite Hb. reflexivity.
Qed.

(** A valid time inside the century that starts at [base_year]. *)
Definition century_ok (s : RTCState) : Prop :=
  base_year s - 1900 <= tm_year (current_tm s) < base_year s - 1800.

Lemma set_tm_copy_date (s : RTCState) :
  cmos_wf s -> tm_ok (current_tm s) -> century_ok s ->
  rtc_set_tm (rtc_copy_date s) = current_tm s.
Proof.
  intros Hwf [Hs Hm Hh Hmo Hd Hw] Hy. rewrite copy_date_stores by done. unfold rtc_set_tm.
  assert (forall s a, rtc_from_bcd s a = from_bcd (fmt_dm s) a) as Hb by reflexivity.
  match goal with |- context [rtc_from_bcd ?s' _] => assert (fmt_dm s' = fmt_dm s) as ED;
    [|assert (fmt_24h s' = fmt_24h s) as EH; [|set (s'' := s') in *]] end.
  1,2: unfold fmt_dm, fmt_24h; now cmos_simpl.
  rewrite !Hb, ED. fold (fmt_24h s''). rewrite EH.
  fold (reg_hour (fmt_dm s) (fmt_24h s) (cmos s'' RTC_HOURS)).
  unfold s''. cmos_simpl. cbn [over set_cmos base_year].
  pose proof (month_days_range (tm_year (current_tm s) + 1900) (tm_mon (current_tm s)) Hmo).
  assert (u8 (hour_reg (fmt_dm s) (fmt_24h s) (tm_hour (current_tm s)))
    = hour_reg (fmt_dm s) (fmt_24h s) (tm_hour (current_tm s))) as ->.
  { apply u8_id. unfold hour_reg. repeat case_match; apply u8_range. }
  rewrite hour_roundtrip, !bcd_roundtrip by (lia || apply Z.mod_pos_bound; lia).
  assert (year_reg s + base_year s - 1900 = tm_year (current_tm s)) as ->.
  { unfold year_reg, century_ok in *.
    rewrite <- (Z.mod_unique (tm_year (current_tm s) - base_year s) 100 (-19)
      (tm_year (current_tm s) - base_year s + 1900)); lia. }
  destruct s as [? ? [] ? ? ? ? ? ? ? ? ? ?]. cbn. f_equal; lia.
Qed.

(** The time the registers show is the time the clock keeps: after
    [rtc_copy_date] has written a valid date to the registers, setting the time
    from them gives the same date back, in binary or BCD and in 12 or 24 hour
    format, for the hundred years from the base year. *)
Theorem rtc_copy_set_roundtrip (s : RTCState) :
  cmos_wf s -> tm_ok (current_tm s) -> century_ok s ->
  rtc_set_tm (rtc_copy_date s) = current_tm s.
Proof. apply set_tm_copy_date. Qed.

Lemma rtc_copy_set_roundtrip_witness :
  let s := (rtc_initfn (mkTm 0 30 13 15 5 111 3) 2000 0) in
  let s := set_cmos RTC_REG_B 0 s in
  rtc_set_tm (rtc_copy_date s) = mkTm 0 30 13 15 5 111 3
  /\ cmos (rtc_copy_date s) RTC_HOURS = 0x81.
Proof.
  intros s0 s. split; [|vm_compute; reflexivity].
  apply (rtc_copy_set_roundtrip s);
    [vm_compute; reflexivity|constructor; vm_compute; split; congruence|vm_compute; split; congruence].
Defined.

(** Noon written by the guest as the chip documents it, 12 with the PM bit, is
    taken as hour 24. *)
Lemma rtc_noon_12h :
  let s := set_cmos RTC_REG_B 0 (rtc_initfn tm_zero 2000 0) in
  tm_hour (rtc_set_tm (set_cmos RTC_HOURS 0x92 s)) = 24.
Proof. vm_compute. reflexivity. Qed.

(** ** The periodic interrupt *)

(** The rate register A selects, in cycles of the 32768 Hz crystal. *)
Definition rate_period (s : RTCState) : Z :=
  let c := cmos s RTC_REG_A .& 0x0f in 2 ^ ((if c <=? 2 then c + 7 else c) - 1).

Definition periodic_on (s : RTCState) : Prop :=
  cmos s RTC_REG_A .& 0x0f <> 0 /\ tst (cmos s RTC_REG_B) REG_B_PIE = true.

(** The first nanosecond at which the crystal has counted [N] cycles. *)
Definition cycle_ns (N : Z) : Z := N * get_ticks_per_sec / 32768 + 1.

Lemma cycle_ns_clock N : 0 <= N -> cycle_ns N * 32768 / get_ticks_per_sec = N.
Proof. intros. unfold cycle_ns, get_ticks_per_sec. Z.div_mod_to_equations. lia. Qed.

Lemma cycle_ns_after t N : t * 32768 / get_ticks_per_sec < N -> t < cycle_ns N.
Proof. unfold cycle_ns, get_ticks_per_sec. intros. Z.div_mod_to_equations. lia. Qed.

Lemma rate_period_range s : cmos s RTC_REG_A .& 0x0f <> 0 -> 1 <= rate_period s <= 16384.
Proof.
  intros Hne. unfold rate_period. pose proof (land_range (cmos s RTC_REG_A) 4 15 ltac:(lia) eq_refl) as Hr.
  set (c := cmos s RTC_REG_A .& 15) in *. clearbody c. cbv zeta.
  set (e := (if c <=? 2 then c + 7 else c) - 1).
  assert (0 <= e <= 14) by (unfold e; destruct (Z.leb_spec c 2); lia).
  split; [apply Z.lt_pred_le, Z.pow_pos_nonneg; lia|].
  change 16384 with (2 ^ 14). apply Z.pow_le_mono_r; lia.
Qed.

Lemma land_lnot_low x k : 0 <= k -> x .& ~~ (2 ^ k - 1) = x / 2 ^ k * 2 ^ k.
Proof.
  intros Hk. rewrite <- Z.ldiff_land. replace (2 ^ k - 1) with (Z.ones k)
    by (rewrite Z.ones_equiv; lia).
  rewrite Z.ldiff_ones_r, Z.shiftl_mul_pow2, Z.shiftr_div_pow2 by done. reflexivity.
Qed.

Section Periodic.
Context {W : Type} `{IrqDelivered W} (rtc_td_hack : bool) (irq sqw_irq : qemu_irq W).

(** The next multiple of the period after [t], in cycles. *)
Definition next_cycle (s : RTCState) (t : Z) : Z :=
  (t * 32768 / get_ticks_per_sec / rate_period s + 1) * rate_period s.

Lemma timer_update_next s t : periodic_on s -> 0 <= t < 2 ^ 63 - 2 ^ 30 ->
  let s' := rtc_timer_update sqw_irq t s in
  next_periodic_time s' = cycle_ns (next_cycle s t)
  /\ periodic_timer s' = Some (cycle_ns (next_cycle s t))
  /\ cmos_data s' = cmos_data s.
Proof.
  intros [Hc Hb] Ht. change (2 ^ 63 - 2 ^ 30) with 9223372035781033984 in Ht.
  pose proof (rate_period_range s Hc) as Hp. unfold next_cycle.
  unfold rtc_timer_update. rewrite Hb. rewrite (proj2 (Z.eqb_neq _ _) Hc). cbn [negb andb orb].
  cbv zeta. rewrite Z.shiftl_1_l. fold (rate_period s).
  assert (0 <= t * 32768 / get_ticks_per_sec /\ t * 32768 / get_ticks_per_sec * 1000000000 <= t * 32768) as Hcl.
  { unfold get_ticks_per_sec. split; [apply Z.div_pos; lia|]. pose proof (Z.mul_div_le (t * 32768) 1000000000). lia. }
  rewrite (u64_id t), (muldiv64_spec t 32768) by (done || (split; done || lia) || lia).
  rewrite (s64_id (t * 32768 / get_ticks_per_sec)) by lia.
  set (cl := t * 32768 / get_ticks_per_sec) in *. clearbody cl.
  assert (cl .& ~~ (rate_period s - 1) = cl / rate_period s * rate_period s) as ->.
  { unfold rate_period. cbv zeta. apply land_lnot_low.
    pose proof (land_range (cmos s RTC_REG_A) 4 15 ltac:(lia) eq_refl).
    destruct (_ <=? 2); lia. }
  replace (cl / rate_period s * rate_period s + rate_period s)
    with ((cl / rate_period s + 1) * rate_period s) by lia.
  assert (0 <= (cl / rate_period s + 1) * rate_period s <= cl + 16384) as HN.
  { pose proof (Z.mul_div_le cl (rate_period s) ltac:(lia)).
    pose proof (Z.div_pos cl (rate_period s) ltac:(lia) ltac:(lia)). nia. }
  set (N := (cl / rate_period s + 1) * rate_period s) in *. clearbody N.
  assert (0 <= N * get_ticks_per_sec / 32768 <= 9223372036853727232) as Hn.
  { unfold get_ticks_per_sec. split; [apply Z.div_pos; lia|apply Z.div_le_upper_bound; lia]. }
  rewrite (u64_id N), (muldiv64_spec N get_ticks_per_sec)
    by (done || (split; done || lia) || lia).
  rewrite s64_id by lia. fold (cycle_ns N).
  destruct (negb _); done.
Qed.

Lemma next_cycle_spec s t : periodic_on s -> 0 <= t ->
  rate_period s <= next_cycle s t /\ next_cycle s t mod rate_period s = 0
  /\ next_cycle s t - rate_period s <= t * 32768 / get_ticks_per_sec < next_cycle s t
  /\ t < cycle_ns (next_cycle s t).
Proof.
  intros [Hc _] Ht. pose proof (rate_period_range s Hc) as Hp. unfold next_cycle.
  pose proof (Z.div_mod (t * 32768 / get_ticks_per_sec) (rate_period s) ltac:(lia)).
  pose proof (Z.mod_pos_bound (t * 32768 / get_ticks_per_sec) (rate_period s) ltac:(lia)).
  assert (0 <= t * 32768 / get_ticks_per_sec) by (apply Z.div_pos; unfold get_ticks_per_sec; lia).
  pose proof (Z.div_pos (t * 32768 / get_ticks_per_sec) (rate_period s) ltac:(lia) ltac:(lia)).
  split; [nia|]. split; [apply Z.mod_mul; lia|]. split; [nia|].
  apply cycle_ns_after. nia.
Qed.

Lemma next_cycle_step s s' N : cmos_data s' = cmos_data s -> periodic_on s -> 0 <= N ->
  N mod rate_period s = 0 -> next_cycle s' (cycle_ns N) = N + rate_period s.
Proof.
  intros Hd [Hc _] HN Hm. pose proof (rate_period_range s Hc).
  unfold next_cycle. rewrite cycle_ns_clock by done.
  assert (rate_period s' = rate_period s) as -> by (unfold rate_period, cmos; now rewrite Hd).
  apply Z.mod_divide in Hm as [q ->]; [|lia]. rewrite Z.div_mul by lia. lia.
Qed.

(** The fields of the timer expiry that do not depend on interrupt delivery. *)
Lemma periodic_timer_fields now s w : cmos_wf s -> tst (cmos s RTC_REG_B) REG_B_PIE = true ->
  let s1 := rtc_timer_update sqw_irq (next_periodic_time s) s in
  let s' := (rtc_periodic_timer rtc_td_hack irq sqw_irq now s w).1 in
  cmos_data s1 = cmos_data s ->
  next_periodic_time s' = next_periodic_time s1 /\ periodic_timer s' = periodic_timer s1
  /\ cmos s' RTC_REG_C = u8 (cmos s RTC_REG_C .| 0xc0).
Proof.
  intros Hwf Hb s1 s' Hd. unfold s', rtc_periodic_timer. fold s1. clearbody s1.
  assert (cmos_wf s1) as Hwf1 by (unfold cmos_wf in *; now rewrite Hd).
  assert (forall i, cmos s1 i = cmos s i) as Hc by (intros; unfold cmos; now rewrite Hd).
  rewrite (Hc RTC_REG_B), Hb, Hc.
  assert (cmos (set_cmos RTC_REG_C (cmos s RTC_REG_C .| 0xc0) s1) RTC_REG_C
    = u8 (cmos s RTC_REG_C .| 0xc0)) as HC by (rewrite cmos_set by done; reflexivity).
  cbv zeta. unfold rtc_coalesced_timer_update.
  repeat (case_match; simplify_eq); cbn [fst]; repeat split; try reflexivity; exact HC.
Qed.

(** C39: The periodic interrupt keeps its rate without drift: arming the timer at
    any time of the 64-bit nanosecond clock up to two seconds before it wraps
    schedules it at the first nanosecond of the next multiple of the
    selected period in crystal cycles, strictly in the future, and each expiry
    sets the periodic flag and schedules the next one exactly one period of
    cycles later. *)
Theorem rtc_periodic_no_drift now t (s : RTCState) (w : W) :
  cmos_wf s -> periodic_on s -> 0 <= t < 2 ^ 63 - 2 ^ 31 ->
  let P := rate_period s in
  let s1 := rtc_timer_update sqw_irq t s in
  let s2 := (rtc_periodic_timer rtc_td_hack irq sqw_irq now s1 w).1 in
  exists N, N mod P = 0 /\ N - P <= t * 32768 / get_ticks_per_sec < N
    /\ t < cycle_ns N /\ periodic_timer s1 = Some (cycle_ns N)
    /\ next_periodic_time s2 = cycle_ns (N + P)
    /\ periodic_timer s2 = Some (cycle_ns (N + P))
    /\ cmos s2 RTC_REG_C = u8 (cmos s RTC_REG_C .| 0xc0).
Proof.
  intros Hwf Hon Ht P s1 s2. change (2 ^ 63 - 2 ^ 31) with 9223372034707292160 in Ht.
  destruct (next_cycle_spec s t Hon) as (H1 & H2 & H3 & H4); [lia|].
  destruct (timer_update_next s t Hon) as (E1 & E2 & E3); [change (2 ^ 63 - 2 ^ 30) with 9223372035781033984; lia|].
  set (N := next_cycle s t) in *. pose proof (rate_period_range s (proj1 Hon)).
  assert (forall i, cmos s1 i = cmos s i) as Hc1 by (intros; unfold cmos, s1; now rewrite E3).
  assert (periodic_on s1) as Hon1 by (unfold periodic_on; now rewrite !Hc1).
  assert (0 <= cycle_ns N < 2 ^ 63 - 2 ^ 30) as Hr.
  { assert (N <= t * 32768 / get_ticks_per_sec + 16384) as HN by lia. clearbody N.
    change (2 ^ 63 - 2 ^ 30) with 9223372035781033984. unfold cycle_ns, get_ticks_per_sec in *.
    Z.div_mod_to_equations. lia. }
  destruct (timer_update_next s1 (cycle_ns N) Hon1 Hr) as (F1 & F2 & F3).
  rewrite (next_cycle_step s s1 N E3 Hon) in F1, F2 by (done || lia).
  assert (cmos_wf s1) as Hwf1 by (unfold cmos_wf, s1; now rewrite E3).
  destruct (periodic_timer_fields now s1 w Hwf1 (proj2 Hon1)) as (G1 & G2 & G3).
  { fold s1 in E1. rewrite E1. exact F3. }
  fold s1 in E1. rewrite E1, F1 in G1. rewrite E1, F2 in G2. rewrite Hc1 in G3.
  exists N. repeat (split; [first [exact H2|exact H3|exact H4|exact E2|exact G1|exact G2]|]). exact G3.
Qed.
End Periodic.

(** A world for witnesses: the levels driven, and a controller that accepts
    every interrupt. *)
#[export] Instance accepting : IrqDelivered (list (Z * Z) * Z) := {|
  apic_reset_irq_delivered w := (w.1, 0);
  apic_get_irq_delivered w := w.2;
  irq_delivered_reset _ := eq_refl
|}.

Definition counting_line : qemu_irq (list (Z * Z) * Z) :=
  Some (mkIRQ (fun n level w => (w.1 ++ [(n, level)], w.2 + level)) 8).

(** The 1024 Hz rate of the BIOS. *)
Lemma rtc_periodic_no_drift_witness :
  let s := set_cmos RTC_REG_B 0x42 (rtc_initfn tm_zero 2000 0) in
  exists N, N mod 32 = 0 /\ N - 32 <= 1700000000000000000 * 32768 / get_ticks_per_sec < N
    /\ periodic_timer (rtc_timer_update (W := list (Z * Z) * Z) None 1700000000000000000 s) = Some (cycle_ns N).
Proof.
  intros s.
  destruct (rtc_periodic_no_drift false counting_line None 0 1700000000000000000 s ([], 0))
    as (N & H1 & H2 & _ & H3 & _);
    [vm_compute; reflexivity|vm_compute; split; congruence|lia|].
  exists N. split; [exact H1|]. split; [exact H2|exact H3].
Defined.

(** ** The update cycle *)

Lemma set_tm_ext s s' : base_year s' = base_year s -> cmos s' RTC_REG_B = cmos s RTC_REG_B ->
  (forall i, 0 <= i < 10 -> cmos s' i = cmos s i) -> rtc_set_tm s' = rtc_set_tm s.
Proof.
  intros Hy Hb Hi. unfold rtc_set_tm, rtc_from_bcd. rewrite Hb, Hy, !Hi by done. reflexivity.
Qed.

(** Registers that [rtc_copy_date] leaves alone. *)
Lemma copy_date_other s i : cmos_wf s -> 0 <= i -> i <> 0 -> i <> 2 -> i <> 4 -> i < 6 \/ 9 < i ->
  cmos (rtc_copy_date s) i = cmos s i.
Proof.
  intros Hwf Hi H0 H2 H4 H69. rewrite copy_date_stores by done.
  autounfold with rtc. rewrite !cmos_set by (auto 12 with rtc || lia).
  repeat (case_match; [lia|]). done.
Qed.

Lemma copy_date_fields s : cmos_wf s ->
  cmos_wf (rtc_copy_date s) /\ exists d, rtc_copy_date s = s <| cmos_data := d |>.
Proof.
  intros Hwf. rewrite copy_date_stores by done. split; [auto 12 with rtc|].
  unfold set_cmos. cbn [over cmos_data]. eexists. reflexivity.
Qed.

(** The alarm condition on the time [t]. *)
Definition alarm_at (s : RTCState) (t : tm) : bool :=
  tst (cmos s RTC_REG_B) REG_B_AIE
  && (alarm_field s RTC_SECONDS_ALARM (tm_sec t) && alarm_field s RTC_MINUTES_ALARM (tm_min t)
      && alarm_field s RTC_HOURS_ALARM (tm_hour t)).

Definition uie (s : RTCState) : bool := tst (cmos s RTC_REG_B) REG_B_UIE.

Definition raise_if {W} (b : bool) (irq : qemu_irq W) (w : W) : W :=
  if b then qemu_irq_raise irq w else w.

Section Cycle.
Context {W : Type} `{IrqDelivered W} (irq : qemu_irq W).

Lemma update_second2_spec s w : cmos_wf s -> tst (cmos s RTC_REG_B) REG_B_SET = false ->
  let '(s', w') := rtc_update_second2 irq s w in
  let alarm := alarm_at s (current_tm s) in
  cmos s' RTC_REG_C = u8 (cmos s RTC_REG_C .| (if alarm then 0xa0 else 0)
                          .| REG_C_UF .| (if uie s then REG_C_IRQF else 0))
  /\ cmos s' RTC_REG_A = u8 (cmos s RTC_REG_A .& ~~ REG_A_UIP)
  /\ (forall i, 0 <= i -> i <> RTC_REG_A -> i <> RTC_REG_C ->
        cmos s' i = cmos (rtc_copy_date s) i)
  /\ w' = raise_if (uie s) irq (raise_if alarm irq w)
  /\ current_tm s' = current_tm s /\ base_year s' = base_year s
  /\ second_timer s' = Some (next_second_time s + get_ticks_per_sec).
Proof.
  intros Hwf Hset. unfold rtc_update_second2. rewrite Hset. cbn [negb].
  destruct (copy_date_fields s Hwf) as [Hwf' [d Ed]].
  pose proof (copy_date_other s) as Hoth. unfold alarm_at, uie, raise_if.
  assert (forall reg f, 0 <= reg -> reg <> 0 -> reg <> 2 -> reg <> 4 -> reg < 6 ->
    alarm_field (rtc_copy_date s) reg f = alarm_field s reg f) as Hal.
  { intros. unfold alarm_field, rtc_from_bcd. autounfold with rtc. now rewrite !Hoth by (done || lia). }
  assert (current_tm (rtc_copy_date s) = current_tm s) as Ht by now rewrite Ed.
  assert (base_year (rtc_copy_date s) = base_year s) as Hy by now rewrite Ed.
  assert (next_second_time (rtc_copy_date s) = next_second_time s) as Hn by now rewrite Ed.
  autounfold with rtc in *. rewrite !Ht, !Hal, !(Hoth 11) by (done || lia).
  pose proof (Hoth 12 Hwf ltac:(lia) ltac:(lia) ltac:(lia) ltac:(lia) ltac:(lia)) as H12.
  pose proof (Hoth 10 Hwf ltac:(lia) ltac:(lia) ltac:(lia) ltac:(lia) ltac:(lia)) as H10.
  pose proof (Hoth 11 Hwf ltac:(lia) ltac:(lia) ltac:(lia) ltac:(lia) ltac:(lia)) as H11.
  set (c := rtc_copy_date s) in *. clearbody c. cbv zeta.
  destruct (tst (cmos s 11) 32) eqn:EA; cbn [andb];
    [destruct (alarm_field s 1 _ && alarm_field s 3 _ && alarm_field s 5 _)|];
    cmos_simpl; rewrite ?H11; (destruct (tst (cmos s 11) 16) eqn:EU); cbv beta iota zeta;
    cmos_simpl; rewrite ?H12, ?H10;
    (split; [bitwise|split; [done|split; [|split; [done|split; [exact Ht|split; [exact Hy|]]]]]]);
    try (cbn [second_timer next_second_time over set_cmos]; now rewrite Hn);
    intros i Hi0 Hi1 Hi2; repeat cmos_strip; rewrite !cmos_set by (auto 12 with rtc || lia);
    repeat (case_match; [lia|]); done.
Qed.

(** One update cycle: with the oscillator running and SET clear, the first
    half advances the time by a second and raises the update-in-progress bit,
    and the second half, 10 ms later, makes the registers show exactly that
    time, clears the bit, sets the update-ended flag, and sets the alarm flag
    and raises the line exactly when the alarm registers match the new time
    with AIE set, and the line once more when UIE is set; the next cycle is due
    one second after this one. *)
Theorem rtc_update_cycle (s : RTCState) (w : W) :
  cmos_wf s -> cmos s RTC_REG_A .& 0x70 = 0x20 -> tst (cmos s RTC_REG_B) REG_B_SET = false ->
  in_u 8 (cmos s RTC_REG_A) -> tm_ok (current_tm s) ->
  let t := rtc_next_second (current_tm s) in
  base_year s - 1900 <= tm_year t < base_year s - 1800 ->
  let s1 := rtc_update_second s in
  let '(s2, w2) := rtc_update_second2 irq s1 w in
  let alarm := alarm_at s t in
  tst (cmos s1 RTC_REG_A) REG_A_UIP = true /\ tst (cmos s2 RTC_REG_A) REG_A_UIP = false
  /\ current_tm s2 = t /\ seconds t = seconds (current_tm s) + 1 /\ rtc_set_tm s2 = t
  /\ cmos s2 RTC_REG_C = u8 (cmos s RTC_REG_C .| (if alarm then 0xa0 else 0)
                             .| REG_C_UF .| (if uie s then REG_C_IRQF else 0))
  /\ w2 = raise_if (uie s) irq (raise_if alarm irq w)
  /\ second_timer2 s1 = Some (next_second_time s + 10000000)
  /\ second_timer s2 = Some (next_second_time s + get_ticks_per_sec).
Proof.
  intros Hwf HA HB Ha8 Htm t Hy s1.
  destruct (next_second_ok (current_tm s) Htm) as (Hok & Hsec & _). fold t in Hok, Hsec.
  assert (s1 = (set_cmos RTC_REG_A (cmos s RTC_REG_A .| REG_A_UIP) (s <| current_tm := t |>))
    <| second_timer2 := Some (next_second_time s + 10000000) |>) as E1.
  { unfold s1, rtc_update_second. rewrite HA. cbn [Z.eqb Pos.eqb negb].
    cbv zeta. rewrite (proj2 (proj2 (proj2 (cmos_upd _ _ None None 0 _)))). now rewrite HB. }
  assert (cmos_wf (s <| current_tm := t |>)) as Hwft by exact Hwf.
  assert (cmos_wf s1) as Hwf1 by (rewrite E1; exact (set_cmos_wf _ _ _ Hwft)).
  assert (forall i, 0 <= i -> i <> RTC_REG_A -> cmos s1 i = cmos s i) as Hc1.
  { intros i Hi Hne. rewrite E1. repeat cmos_strip. rewrite cmos_set by done.
    repeat cmos_strip. destruct (Z.eqb_spec RTC_REG_A i); congruence. }
  assert (cmos s1 RTC_REG_A = u8 (cmos s RTC_REG_A .| REG_A_UIP)) as HA1
    by (rewrite E1; repeat cmos_strip; rewrite cmos_set by done; reflexivity).
  assert (current_tm s1 = t /\ base_year s1 = base_year s /\ next_second_time s1 = next_second_time s)
    as (Ht1 & Hy1 & Hn1) by now rewrite E1.
  pose proof (update_second2_spec s1 w Hwf1) as H2. rewrite (Hc1 RTC_REG_B) in H2 by done.
  specialize (H2 HB). destruct (rtc_update_second2 irq s1 w) as [s2 w2].
  destruct H2 as (HC & HA2 & Hoth & Hw & Ht2 & Hy2 & Hn2).
  assert (alarm_at s1 (current_tm s1) = alarm_at s t) as Hal.
  { unfold alarm_at, alarm_field, rtc_from_bcd. rewrite Ht1.
    now rewrite !(Hc1 RTC_REG_B), !(Hc1 RTC_SECONDS_ALARM), !(Hc1 RTC_MINUTES_ALARM),
      !(Hc1 RTC_HOURS_ALARM) by done. }
  assert (uie s1 = uie s) as Hu by (unfold uie; now rewrite Hc1).
  rewrite Hal, Hu, (Hc1 RTC_REG_C) in HC by done. rewrite Hal, Hu in Hw. cbv zeta.
  assert (rtc_set_tm s2 = current_tm s1) as Hset.
  { rewrite (set_tm_ext (rtc_copy_date s1) s2).
    - apply set_tm_copy_date; [done|now rewrite Ht1|]. unfold century_ok. now rewrite Ht1, Hy1.
    - rewrite Hy2. destruct (copy_date_fields s1 Hwf1) as [_ [d ->]]. done.
    - now apply Hoth.
    - intros i Hi. apply Hoth; unfold RTC_REG_A, RTC_REG_C; lia. }
  rewrite Hset, Ht2, Ht1, HA1, HA2, HA1, HC, Hn2, Hn1.
  split; [|split].
  3: repeat split; try done; now rewrite E1.
  - change REG_A_UIP with (1 << 7). rewrite tst_bit by lia. autorewrite with bits. reflexivity.
  - change REG_A_UIP with (1 << 7). rewrite tst_bit by lia. autorewrite with bits. reflexivity.
Qed.
End Cycle.

Lemma rtc_update_cycle_witness :
  let s := set_cmos RTC_REG_B 0x22 (rtc_initfn (mkTm 59 59 23 31 11 111 6) 2000 0) in
  let s1 := rtc_update_second s in
  let '(s2, w2) := rtc_update_second2 recorder s1 [] in
  w2 = [(0, 1)] /\ rtc_set_tm s2 = mkTm 0 0 0 1 0 112 0.
Proof.
  intros s s1.
  pose proof (rtc_update_cycle recorder s []) as H. cbv zeta in H. fold s1 in H.
  destruct (rtc_update_second2 recorder s1 []) as [s2 w2].
  destruct H as (_ & _ & _ & _ & -> & _ & -> & _);
    [vm_compute; reflexivity|vm_compute; reflexivity|vm_compute; reflexivity
    |vm_compute; split; congruence|constructor; vm_compute; split; congruence
    |vm_compute; split; congruence|].
  split; vm_compute; reflexivity.
Defined.

(** An alarm set for 1 PM in the 12-hour format never matches. *)
Lemma rtc_alarm_12h_pm h : 0 <= h < 24 ->
  let s := set_cmos RTC_HOURS_ALARM 0x81 (set_cmos RTC_REG_B 0 (rtc_initfn tm_zero 2000 0)) in
  alarm_field s RTC_HOURS_ALARM h = false.
Proof.
  intros Hh s. replace (alarm_field s RTC_HOURS_ALARM h) with (81 =? h).
  - apply Z.eqb_neq. lia.
  - unfold alarm_field. replace (rtc_from_bcd s (cmos s RTC_HOURS_ALARM)) with 81 by now vm_compute.
    now replace (cmos s RTC_HOURS_ALARM .& 0xc0 =? 0xc0) with false by now vm_compute.
Qed.

(** ** The register file seen from the ports *)

(** What register [idx] holds after the guest writes [data] to it. *)
Definition written (s : RTCState) (idx data : Z) : Z :=
  if (idx =? RTC_REG_C) || (idx =? RTC_REG_D) then cmos s idx
  else if idx =? RTC_REG_A then u8 ((data .& ~~ REG_A_UIP) .| (cmos s RTC_REG_A .& REG_A_UIP))
  else if idx =? RTC_REG_B then if tst data REG_B_SET then u8 (data .& ~~ REG_B_UIE) else data
  else data.

Lemma timer_update_cmos {W} (sqw : qemu_irq W) t s i : cmos (rtc_timer_update sqw t s) i = cmos s i.
Proof. unfold rtc_timer_update. repeat case_match; reflexivity. Qed.

Section Ports.
Context {W : Type} `{IrqDelivered W} (irq sqw_irq : qemu_irq W) (mon : tm -> W -> W).

Lemma set_time_cmos s w i : cmos (rtc_set_time mon s w).1 i = cmos s i.
Proof. reflexivity. Qed.

Lemma write_reg_b data now s w : cmos_wf s -> in_u 8 data -> cmos_index s = RTC_REG_B ->
  let s' := (cmos_ioport_write sqw_irq mon 0x71 data now s w).1 in
  cmos s' RTC_REG_B = written s RTC_REG_B data
  /\ forall j, 12 <= j -> cmos s' j = cmos s j.
Proof.
  intros Hwf Hd Hi. unfold cmos_ioport_write, written. rewrite Hi.
  change (0x71 .& 1 =? 0) with false.
  cbn [Z.eqb Pos.eqb RTC_REG_B RTC_REG_A RTC_REG_C RTC_REG_D orb].
  assert (forall (b : bool) s0 v, cmos_wf s0 ->
    let s1 := if b then rtc_copy_date (set_cmos 11 v s0) else set_cmos 11 v s0 in
    cmos s1 11 = u8 v /\ forall j, 12 <= j -> cmos s1 j = cmos s0 j) as Hset.
  { intros b s0 v Hwf0 s1. unfold s1.
    split; [|intros j Hj]; destruct b; rewrite ?copy_date_other by (auto with rtc || lia);
      rewrite cmos_set by (done || lia); try done; destruct (Z.eqb_spec 11 j); lia || done. }
  unfold RTC_REG_A, RTC_REG_B, rtc_set_time.
  destruct (tst data REG_B_SET); cbv beta iota zeta; cbn [fst].
  - match goal with |- context [if ?b then rtc_copy_date (set_cmos 11 ?v ?s0) else _] =>
      destruct (Hset b s0 v) as [H1 H2]; [auto with rtc|] end.
    split; [|intros j Hj]; rewrite timer_update_cmos; [exact H1|].
    rewrite H2, cmos_set by (done || lia). destruct (Z.eqb_spec 10 j); [lia|done].
  - destruct (tst (cmos s 11) REG_B_SET); cbv beta iota zeta; cbn [fst];
    (match goal with |- context [if ?b then rtc_copy_date (set_cmos 11 ?v ?s0) else _] =>
      destruct (Hset b s0 v) as [H1 H2]; [exact Hwf|] end);
    (split; [|intros j Hj]; rewrite timer_update_cmos;
       [rewrite H1; now apply u8_id|rewrite H2 by done; reflexivity]).
Qed.

Lemma copy_date_index s : cmos_wf s -> cmos_index (rtc_copy_date s) = cmos_index s.
Proof. intros Hwf. destruct (copy_date_fields s Hwf) as [_ [d ->]]. reflexivity. Qed.

Lemma timer_update_index t s : cmos_index (rtc_timer_update sqw_irq t s) = cmos_index s.
Proof. unfold rtc_timer_update. repeat case_match; reflexivity. Qed.

Lemma write_keeps_index data now s w idx : cmos_wf s -> cmos_index s = idx ->
  cmos_index (cmos_ioport_write sqw_irq mon 0x71 data now s w).1 = idx.
Proof.
  intros Hwf <-. unfold cmos_ioport_write, rtc_set_time.
  change (0x71 .& 1 =? 0) with false. cbv iota.
  repeat (case_match; simplify_eq); cbn [fst];
    rewrite ?timer_update_index, ?copy_date_index by auto with rtc; reflexivity || assumption.
Qed.

Lemma write_reg_other idx data now s w : cmos_wf s -> 0 <= idx < 128 -> in_u 8 data ->
  cmos_index s = idx -> idx <> RTC_REG_B ->
  let s' := (cmos_ioport_write sqw_irq mon 0x71 data now s w).1 in
  cmos s' idx = written s idx data /\ forall j, 0 <= j -> j <> idx -> cmos s' j = cmos s j.
Proof.
  intros Hwf Hr Hd Hi Hne. unfold cmos_ioport_write, written. rewrite Hi.
  change (0x71 .& 1 =? 0) with false. cbv iota.
  assert (forall v, cmos (set_cmos idx v s) idx = u8 v
    /\ forall j, 0 <= j -> j <> idx -> cmos (set_cmos idx v s) j = cmos s j) as Hset.
  { intros v. split; [|intros j Hj Hn]; rewrite cmos_set by (done || lia).
    - now rewrite Z.eqb_refl.
    - destruct (Z.eqb_spec idx j); done || lia. }
  destruct (Hset data) as [H1 H2]. rewrite (u8_id data) in H1 by done.
  destruct (Hset ((data .& ~~ REG_A_UIP) .| (cmos s RTC_REG_A .& REG_A_UIP))) as [HA1 HA2].
  autounfold with rtc in *. clear Hset.
  destruct (Z.eqb_spec idx 12) as [->|]; [split; reflexivity|].
  destruct (Z.eqb_spec idx 13) as [->|]; [split; reflexivity|].
  destruct (Z.eqb_spec idx 10) as [->|]; cbn [orb].
  { split; [|intros j Hj Hn]; cbn [fst]; rewrite timer_update_cmos; auto. }
  destruct (Z.eqb_spec idx 11); [done|].
  repeat (case_match; try lia); cbn [fst]; try (split; assumption).
Qed.

(** The CMOS ports: selecting register [idx] and writing a byte leaves
    registers C and D as they were, keeps the update-in-progress bit of A,
    stores anything else (with UIE dropped when SET is written to B), changes
    no other register, except that a write to B may reformat the time
    registers, and reading the data port then returns the register. *)
Theorem rtc_register_write idx data now (s : RTCState) (w : W) :
  cmos_wf s -> 0 <= idx < 128 -> in_u 8 data ->
  let '(s1, w1) := cmos_ioport_write sqw_irq mon 0x70 idx now s w in
  let '(s2, w2) := cmos_ioport_write sqw_irq mon 0x71 data now s1 w1 in
  cmos s2 idx = written s idx data
  /\ (forall j, 0 <= j -> j <> idx -> idx = RTC_REG_B -> 12 <= j -> cmos s2 j = cmos s j)
  /\ (forall j, 0 <= j -> j <> idx -> idx <> RTC_REG_B -> cmos s2 j = cmos s j)
  /\ (cmos_ioport_read irq 0x71 s2 w2).1 = cmos s2 idx.
Proof.
  intros Hwf Hidx Hd.
  assert (cmos_ioport_write sqw_irq mon 0x70 idx now s w = (s <| cmos_index := idx |>, w)) as ->.
  { unfold cmos_ioport_write. change (0x70 .& 1 =? 0) with true. cbv iota.
    now rewrite (land_ones_mod idx 7), Z.mod_small by (done || lia). }
  set (s1 := s <| cmos_index := idx |>).
  assert (cmos_wf s1) as Hwf1 by exact Hwf. assert (cmos_index s1 = idx) as Hi1 by reflexivity.
  assert (forall j, cmos s1 j = cmos s j) as Hc1 by reflexivity.
  assert (forall st wt, cmos_index st = idx -> (cmos_ioport_read irq 0x71 st wt).1 = cmos st idx) as Hrd.
  { intros st wt E. unfold cmos_ioport_read. change (0x71 .& 1 =? 0) with false. cbv iota.
    rewrite E. repeat case_match; reflexivity. }
  assert (cmos_index (cmos_ioport_write sqw_irq mon 0x71 data now s1 w).1 = idx) as Hi2
    by now apply write_keeps_index.
  clearbody s1. destruct (decide (idx = RTC_REG_B)) as [->|Hne].
  - destruct (write_reg_b data now s1 w Hwf1 Hd Hi1) as [H1 H2].
    destruct (cmos_ioport_write sqw_irq mon 0x71 data now s1 w) as [s2 w2]. cbn [fst] in *.
    split; [rewrite H1; unfold written; now rewrite !Hc1|].
    split; [intros; rewrite H2 by done; apply Hc1|]. split; [congruence|]. now apply Hrd.
  - destruct (write_reg_other idx data now s1 w Hwf1 Hidx Hd Hi1 Hne) as [H1 H2].
    destruct (cmos_ioport_write sqw_irq mon 0x71 data now s1 w) as [s2 w2]. cbn [fst] in *.
    split; [rewrite H1; unfold written; now rewrite !Hc1|].
    split; [congruence|]. split; [intros; rewrite H2 by done; apply Hc1|]. now apply Hrd.
Qed.
End Ports.

Lemma rtc_register_write_witness :
  let s := rtc_initfn (mkTm 0 30 13 15 5 111 3) 2000 0 in
  let '(s1, w1) := cmos_ioport_write (W := list (Z * Z) * Z) None (fun _ w => w) 0x70 0x0a 0 s ([], 0) in
  let '(s2, w2) := cmos_ioport_write (W := list (Z * Z) * Z) None (fun _ w => w) 0x71 0xaf 0 s1 w1 in
  cmos s2 0x0a = 0x2f /\ cmos s2 RTC_HOURS = 0x13.
Proof.
  intros s. pose proof (rtc_register_write (W := list (Z * Z) * Z) None None (fun _ w => w) 0x0a 0xaf 0 s ([], 0)) as H.
  destruct (cmos_ioport_write (W := list (Z * Z) * Z) None (fun _ w => w) 0x70 0x0a 0 s ([], 0)) as [s1 w1].
  destruct (cmos_ioport_write (W := list (Z * Z) * Z) None (fun _ w => w) 0x71 0xaf 0 s1 w1) as [s2 w2].
  destruct H as (-> & _ & H & _);
    [vm_compute; reflexivity|lia|split; [discriminate|reflexivity]|].
  split; [vm_compute; reflexivity|].
  rewrite H; [vm_compute; reflexivity|discriminate|discriminate|discriminate].
Defined.

End Rtc.
