(* ===== verification/Ps2.v ===== *)
(** * PS/2 keyboard and mouse: hw/ps2.c

    [PS2Queue], [PS2State], [PS2KbdState] and [PS2MouseState] are the structs of
    the same names.  The [update_irq] callback of a device acts on the world [W]
    that holds its [update_arg]; the keyboard controller instantiates it.
    [kbd_put_ledstate] is the user interface's LED hook. *)

From S2P Require Import Prelude.

Module Ps2.

Definition KBD_CMD_SET_LEDS : Z := 0xED.
Definition KBD_CMD_ECHO : Z := 0xEE.
Definition KBD_CMD_SCANCODE : Z := 0xF0.
Definition KBD_CMD_SET_RATE : Z := 0xF3.
Definition KBD_REPLY_POR : Z := 0xAA.
Definition KBD_REPLY_ID : Z := 0xAB.
Definition KBD_REPLY_ACK : Z := 0xFA.
Definition KBD_REPLY_RESEND : Z := 0xFE.
Definition AUX_SET_RES : Z := 0xE8.
Definition AUX_RESET_WRAP : Z := 0xEC.
Definition AUX_GET_TYPE : Z := 0xF2.
Definition AUX_SET_SAMPLE : Z := 0xF3.
Definition AUX_RESET : Z := 0xFF.
Definition AUX_ACK : Z := 0xFA.
Definition MOUSE_STATUS_REMOTE : Z := 0x40.
Definition MOUSE_STATUS_ENABLED : Z := 0x20.
Definition MOUSE_STATUS_SCALE21 : Z := 0x10.
Definition PS2_QUEUE_SIZE : Z := 256.

Record PS2Queue := mkQueue {
  data : list Z;      (* uint8_t [PS2_QUEUE_SIZE] *)
  rptr : Z;
  wptr : Z;
  count : Z
}.

#[export] Instance PS2Queue_eta : Eta PS2Queue := fun q =>
  mkQueue (data q) (rptr q) (wptr q) (count q).

Record PS2State := mkPS2 {
  queue : PS2Queue;
  write_cmd : Z
}.

#[export] Instance PS2State_eta : Eta PS2State := fun s => mkPS2 (queue s) (write_cmd s).

Record PS2KbdState := mkKbd {
  kcommon : PS2State;
  scan_enabled : Z;
  translate : Z;
  scancode_set : Z    (* 1=XT, 2=AT, 3=PS/2 *)
}.

#[export] Instance PS2KbdState_eta : Eta PS2KbdState := fun s =>
  mkKbd (kcommon s) (scan_enabled s) (translate s) (scancode_set s).

Record PS2MouseState := mkMouse {
  mcommon : PS2State;
  mouse_status : Z;
  mouse_resolution : Z;
  mouse_sample_rate : Z;
  mouse_wrap : Z;
  mouse_type : Z;     (* 0 = PS2, 3 = IMPS/2, 4 = IMEX *)
  mouse_detect_state : Z;
  mouse_dx : Z;
  mouse_dy : Z;
  mouse_dz : Z;
  mouse_buttons : Z
}.

#[export] Instance PS2MouseState_eta : Eta PS2MouseState := fun s =>
  mkMouse (mcommon s) (mouse_status s) (mouse_resolution s) (mouse_sample_rate s) (mouse_wrap s)
    (mouse_type s) (mouse_detect_state s) (mouse_dx s) (mouse_dy s) (mouse_dz s) (mouse_buttons s).

Definition ps2_raw_keycode : list Z :=
  [0; 118; 22; 30; 38; 37; 46; 54; 61; 62; 70; 69; 78; 85; 102; 13;
   21; 29; 36; 45; 44; 53; 60; 67; 68; 77; 84; 91; 90; 20; 28; 27;
   35; 43; 52; 51; 59; 66; 75; 76; 82; 14; 18; 93; 26; 34; 33; 42;
   50; 49; 58; 65; 73; 74; 89; 124; 17; 41; 88; 5; 6; 4; 12; 3;
   11; 2; 10; 1; 9; 119; 126; 108; 117; 125; 123; 107; 115; 116; 121; 105;
   114; 122; 112; 113; 127; 96; 97; 120; 7; 15; 23; 31; 39; 47; 55; 63;
   71; 79; 86; 94; 8; 16; 24; 32; 40; 48; 56; 64; 72; 80; 87; 111;
   19; 25; 57; 81; 83; 92; 95; 98; 99; 100; 101; 103; 104; 106; 109; 110].

Definition ps2_raw_keycode_set3 : list Z :=
  [0; 8; 22; 30; 38; 37; 46; 54; 61; 62; 70; 69; 78; 85; 102; 13;
   21; 29; 36; 45; 44; 53; 60; 67; 68; 77; 84; 91; 90; 17; 28; 27;
   35; 43; 52; 51; 59; 66; 75; 76; 82; 14; 18; 92; 26; 34; 33; 42;
   50; 49; 58; 65; 73; 74; 89; 126; 25; 41; 20; 7; 15; 23; 31; 39;
   47; 2; 63; 71; 79; 118; 95; 108; 117; 125; 132; 107; 115; 116; 124; 105;
   114; 122; 112; 113; 127; 96; 97; 86; 94; 15; 23; 31; 39; 47; 55; 63;
   71; 79; 86; 94; 8; 16; 24; 32; 40; 48; 56; 64; 72; 80; 87; 111;
   19; 25; 57; 81; 83; 92; 95; 98; 99; 100; 101; 103; 104; 106; 109; 110].

Section Device.
Context {W : Type} (update_irq : Z -> W -> W).

Definition ps2_queue (b : Z) (s : PS2State) (w : W) : PS2State * W :=
  let q := queue s in
  if PS2_QUEUE_SIZE <=? count q then (s, w)
  else
    let q := q <| data := aset (data q) (wptr q) (u8 b) |> in
    let q := q <| wptr := wptr q + 1 |> in
    let q := if wptr q =? PS2_QUEUE_SIZE then q <| wptr := 0 |> else q in
    let q := q <| count := count q + 1 |> in
    (s <| queue := q |>, update_irq 1 w).

Definition ps2_read_data (s : PS2State) (w : W) : Z * (PS2State * W) :=
  let q := queue s in
  if count q =? 0 then
    (* if no data left, we return the last keyboard one (needed for EMM386) *)
    let index := rptr q - 1 in
    let index := if index <? 0 then PS2_QUEUE_SIZE - 1 else index in
    (aget (data q) index, (s, w))
  else
    let val := aget (data q) (rptr q) in
    let q := q <| rptr := rptr q + 1 |> in
    let q := if rptr q =? PS2_QUEUE_SIZE then q <| rptr := 0 |> else q in
    let q := q <| count := count q - 1 |> in
    (* reading deasserts IRQ *)
    let w := update_irq 0 w in
    (* reassert IRQs if data left *)
    let w := update_irq (b2z (negb (count q =? 0))) w in
    (val, (s <| queue := q |>, w)).

(** [ps2_queue(&s->common, b)] for the two devices. *)
Definition kbd_ps2_queue (b : Z) (s : PS2KbdState) (w : W) : PS2KbdState * W :=
  let '(c, w) := ps2_queue b (kcommon s) w in (s <| kcommon := c |>, w).
Definition mouse_ps2_queue (b : Z) (s : PS2MouseState) (w : W) : PS2MouseState * W :=
  let '(c, w) := ps2_queue b (mcommon s) w in (s <| mcommon := c |>, w).

Definition ps2_put_keycode (keycode : Z) (s : PS2KbdState) (w : W) : PS2KbdState * W :=
  (* XXX: add support for scancode set 1 *)
  let '(keycode, s, w) :=
    if negb (truthy (translate s)) && (keycode <? 0xe0) && (1 <? scancode_set s) then
      let '(s, w) := if tst keycode 0x80 then kbd_ps2_queue 0xf0 s w else (s, w) in
      if scancode_set s =? 2 then (aget ps2_raw_keycode (keycode .& 0x7f), s, w)
      else if scancode_set s =? 3 then (aget ps2_raw_keycode_set3 (keycode .& 0x7f), s, w)
      else (keycode, s, w)
    else (keycode, s, w) in
  kbd_ps2_queue keycode s w.

(** *** Keyboard *)

Section Keyboard.
Context (kbd_put_ledstate : Z -> W -> W).

Definition ps2_reset_keyboard (s : PS2KbdState) (w : W) : PS2KbdState * W :=
  let s := s <| scan_enabled := 1 |> in
  let s := s <| scancode_set := 2 |> in
  (s, kbd_put_ledstate 0 w).

Definition set_kbd_cmd (cmd : Z) (s : PS2KbdState) : PS2KbdState :=
  s <| kcommon := (kcommon s) <| write_cmd := cmd |> |>.

Definition ps2_write_keyboard (val : Z) (s : PS2KbdState) (w : W) : PS2KbdState * W :=
  match write_cmd (kcommon s) with
  | 0xF0 => (* KBD_CMD_SCANCODE *)
      let '(s, w) :=
        if val =? 0 then
          if scancode_set s =? 1 then ps2_put_keycode 0x43 s w
          else if scancode_set s =? 2 then ps2_put_keycode 0x41 s w
          else if scancode_set s =? 3 then ps2_put_keycode 0x3f s w
          else (s, w)
        else
          let s := if (1 <=? val) && (val <=? 3) then s <| scancode_set := val |> else s in
          kbd_ps2_queue KBD_REPLY_ACK s w in
      (set_kbd_cmd (-1) s, w)
  | 0xED => (* KBD_CMD_SET_LEDS *)
      let w := kbd_put_ledstate val w in
      let '(s, w) := kbd_ps2_queue KBD_REPLY_ACK s w in
      (set_kbd_cmd (-1) s, w)
  | 0xF3 => (* KBD_CMD_SET_RATE *)
      let '(s, w) := kbd_ps2_queue KBD_REPLY_ACK s w in
      (set_kbd_cmd (-1) s, w)
  | _ =>
      match val with
      | 0x00 => kbd_ps2_queue KBD_REPLY_ACK s w
      | 0x05 => kbd_ps2_queue KBD_REPLY_RESEND s w
      | 0xF2 => (* KBD_CMD_GET_ID *)
          let '(s, w) := kbd_ps2_queue KBD_REPLY_ACK s w in
          (* We emulate a MF2 AT keyboard here *)
          let '(s, w) := kbd_ps2_queue KBD_REPLY_ID s w in
          if truthy (translate s) then kbd_ps2_queue 0x41 s w else kbd_ps2_queue 0x83 s w
      | 0xEE => (* KBD_CMD_ECHO *) kbd_ps2_queue KBD_CMD_ECHO s w
      | 0xF4 => (* KBD_CMD_ENABLE *)
          let s := s <| scan_enabled := 1 |> in
          kbd_ps2_queue KBD_REPLY_ACK s w
      | 0xF0 | 0xED | 0xF3 => (* KBD_CMD_SCANCODE, KBD_CMD_SET_LEDS, KBD_CMD_SET_RATE *)
          kbd_ps2_queue KBD_REPLY_ACK (set_kbd_cmd val s) w
      | 0xF5 => (* KBD_CMD_RESET_DISABLE *)
          let '(s, w) := ps2_reset_keyboard s w in
          let s := s <| scan_enabled := 0 |> in
          kbd_ps2_queue KBD_REPLY_ACK s w
      | 0xF6 => (* KBD_CMD_RESET_ENABLE *)
          let '(s, w) := ps2_reset_keyboard s w in
          let s := s <| scan_enabled := 1 |> in
          kbd_ps2_queue KBD_REPLY_ACK s w
      | 0xFF => (* KBD_CMD_RESET *)
          let '(s, w) := ps2_reset_keyboard s w in
          let '(s, w) := kbd_ps2_queue KBD_REPLY_ACK s w in
          kbd_ps2_queue KBD_REPLY_POR s w
      | _ => kbd_ps2_queue KBD_REPLY_ACK s w
      end
  end.
End Keyboard.

Definition ps2_keyboard_set_translation (mode : Z) (s : PS2KbdState) : PS2KbdState :=
  s <| translate := mode |>.

(** *** Mouse *)

(** The clamps of [ps2_mouse_send_packet]. *)
Definition clamp (m x : Z) : Z := if m <? x then m else if x <? - m then - m else x.

Definition ps2_mouse_send_packet (s : PS2MouseState) (w : W) : PS2MouseState * W :=
  let dx1 := clamp 127 (mouse_dx s) in
  let dy1 := clamp 127 (mouse_dy s) in
  let dz1 := mouse_dz s in
  let b := 0x08 .| (b2z (dx1 <? 0) << 4) .| (b2z (dy1 <? 0) << 5) .| (mouse_buttons s .& 0x07) in
  let '(s, w) := mouse_ps2_queue b s w in
  let '(s, w) := mouse_ps2_queue (dx1 .& 0xff) s w in
  let '(s, w) := mouse_ps2_queue (dy1 .& 0xff) s w in
  (* extra byte for IMPS/2 or IMEX *)
  let '(dz1, s, w) :=
    match mouse_type s with
    | 3 =>
        let dz1 := clamp 127 dz1 in
        let '(s, w) := mouse_ps2_queue (dz1 .& 0xff) s w in (dz1, s, w)
    | 4 =>
        let dz1 := clamp 7 dz1 in
        let b := (dz1 .& 0x0f) .| ((mouse_buttons s .& 0x18) << 1) in
        let '(s, w) := mouse_ps2_queue b s w in (dz1, s, w)
    | _ => (dz1, s, w)
    end in
  (* update deltas *)
  let s := s <| mouse_dx := mouse_dx s - dx1 |> in
  let s := s <| mouse_dy := mouse_dy s - dy1 |> in
  (s <| mouse_dz := mouse_dz s - dz1 |>, w).

(** The [for(;;)] of [ps2_mouse_event], with a bound on its iterations;
    [None] when the bound is reached. *)
Fixpoint mouse_event_loop (fuel : nat) (s : PS2MouseState) (w : W) : option (PS2MouseState * W) :=
  match fuel with
  | O => None
  | S fuel =>
      let '(s, w) := ps2_mouse_send_packet s w in
      if (mouse_dx s =? 0) && (mouse_dy s =? 0) && (mouse_dz s =? 0) then Some (s, w)
      else mouse_event_loop fuel s w
  end.

(** Each packet brings every non-zero delta closer to zero, so this many
    iterations are enough ([mouse_event_loop_total]). *)
Definition event_fuel (s : PS2MouseState) : nat :=
  S (Z.to_nat (Z.abs (mouse_dx s) + Z.abs (mouse_dy s) + Z.abs (mouse_dz s))).

Definition ps2_mouse_event (dx dy dz buttons_state : Z) (s : PS2MouseState) (w : W)
  : option (PS2MouseState * W) :=
  (* check if deltas are recorded when disabled *)
  if negb (tst (mouse_status s) MOUSE_STATUS_ENABLED) then Some (s, w)
  else
    let s := s <| mouse_dx := mouse_dx s + dx |> in
    let s := s <| mouse_dy := mouse_dy s - dy |> in
    let s := s <| mouse_dz := mouse_dz s + dz |> in
    (* XXX: SDL sometimes generates nul events: we delete them *)
    if (mouse_dx s =? 0) && (mouse_dy s =? 0) && (mouse_dz s =? 0)
       && (mouse_buttons s =? buttons_state)
    then Some (s, w)
    else
      let s := s <| mouse_buttons := u8 buttons_state |> in
      if negb (tst (mouse_status s) MOUSE_STATUS_REMOTE)
         && (count (queue (mcommon s)) <? PS2_QUEUE_SIZE - 16)
      then mouse_event_loop (event_fuel s) s w
      else Some (s, w).

Definition ps2_mouse_fake_event (s : PS2MouseState) (w : W) : option (PS2MouseState * W) :=
  ps2_mouse_event 1 0 0 0 s w.

Definition set_mouse_cmd (cmd : Z) (s : PS2MouseState) : PS2MouseState :=
  s <| mcommon := (mcommon s) <| write_cmd := cmd |> |>.

(** The sample-rate knock that turns the mouse into a wheel mouse. *)
Definition detect_step (val : Z) (s : PS2MouseState) : PS2MouseState :=
  match mouse_detect_state s with
  | 1 =>
      if val =? 100 then s <| mouse_detect_state := 2 |>
      else if val =? 200 then s <| mouse_detect_state := 3 |>
      else s <| mouse_detect_state := 0 |>
  | 2 =>
      let s := if val =? 80 then s <| mouse_type := 3 |> else s in
      s <| mouse_detect_state := 0 |>
  | 3 =>
      let s := if val =? 80 then s <| mouse_type := 4 |> else s in
      s <| mouse_detect_state := 0 |>
  | _ => if val =? 200 then s <| mouse_detect_state := 1 |> else s
  end.

(** The [switch(val)] of a mouse command byte. *)
Definition mouse_command (val : Z) (s : PS2MouseState) (w : W) : PS2MouseState * W :=
  match val with
  | 0xE6 => (* AUX_SET_SCALE11 *)
      let s := s <| mouse_status := u8 (mouse_status s .& ~~ MOUSE_STATUS_SCALE21) |> in
      mouse_ps2_queue AUX_ACK s w
  | 0xE7 => (* AUX_SET_SCALE21 *)
      let s := s <| mouse_status := u8 (mouse_status s .| MOUSE_STATUS_SCALE21) |> in
      mouse_ps2_queue AUX_ACK s w
  | 0xEA => (* AUX_SET_STREAM *)
      let s := s <| mouse_status := u8 (mouse_status s .& ~~ MOUSE_STATUS_REMOTE) |> in
      mouse_ps2_queue AUX_ACK s w
  | 0xEE => (* AUX_SET_WRAP *)
      let s := s <| mouse_wrap := 1 |> in
      mouse_ps2_queue AUX_ACK s w
  | 0xF0 => (* AUX_SET_REMOTE *)
      let s := s <| mouse_status := u8 (mouse_status s .| MOUSE_STATUS_REMOTE) |> in
      mouse_ps2_queue AUX_ACK s w
  | 0xF2 => (* AUX_GET_TYPE *)
      let '(s, w) := mouse_ps2_queue AUX_ACK s w in
      mouse_ps2_queue (mouse_type s) s w
  | 0xE8 | 0xF3 => (* AUX_SET_RES, AUX_SET_SAMPLE *)
      mouse_ps2_queue AUX_ACK (set_mouse_cmd val s) w
  | 0xE9 => (* AUX_GET_SCALE *)
      let '(s, w) := mouse_ps2_queue AUX_ACK s w in
      let '(s, w) := mouse_ps2_queue (mouse_status s) s w in
      let '(s, w) := mouse_ps2_queue (mouse_resolution s) s w in
      mouse_ps2_queue (mouse_sample_rate s) s w
  | 0xEB => (* AUX_POLL *)
      let '(s, w) := mouse_ps2_queue AUX_ACK s w in
      ps2_mouse_send_packet s w
  | 0xF4 => (* AUX_ENABLE_DEV *)
      let s := s <| mouse_status := u8 (mouse_status s .| MOUSE_STATUS_ENABLED) |> in
      mouse_ps2_queue AUX_ACK s w
  | 0xF5 => (* AUX_DISABLE_DEV *)
      let s := s <| mouse_status := u8 (mouse_status s .& ~~ MOUSE_STATUS_ENABLED) |> in
      mouse_ps2_queue AUX_ACK s w
  | 0xF6 => (* AUX_SET_DEFAULT *)
      let s := s <| mouse_sample_rate := 100 |> in
      let s := s <| mouse_resolution := 2 |> in
      let s := s <| mouse_status := 0 |> in
      mouse_ps2_queue AUX_ACK s w
  | 0xFF => (* AUX_RESET *)
      let s := s <| mouse_sample_rate := 100 |> in
      let s := s <| mouse_resolution := 2 |> in
      let s := s <| mouse_status := 0 |> in
      let s := s <| mouse_type := 0 |> in
      let '(s, w) := mouse_ps2_queue AUX_ACK s w in
      let '(s, w) := mouse_ps2_queue 0xaa s w in
      mouse_ps2_queue (mouse_type s) s w
  | _ => (s, w)
  end.

Definition ps2_write_mouse (val : Z) (s : PS2MouseState) (w : W) : PS2MouseState * W :=
  match write_cmd (mcommon s) with
  | 0xF3 => (* AUX_SET_SAMPLE *)
      let s := s <| mouse_sample_rate := u8 val |> in
      (* detect IMPS/2 or IMEX *)
      let s := detect_step val s in
      let '(s, w) := mouse_ps2_queue AUX_ACK s w in
      (set_mouse_cmd (-1) s, w)
  | 0xE8 => (* AUX_SET_RES *)
      let s := s <| mouse_resolution := u8 val |> in
      let '(s, w) := mouse_ps2_queue AUX_ACK s w in
      (set_mouse_cmd (-1) s, w)
  | _ =>
      (* mouse command *)
      if truthy (mouse_wrap s) && (val =? AUX_RESET_WRAP) then
        let s := s <| mouse_wrap := 0 |> in
        mouse_ps2_queue AUX_ACK s w
      else if truthy (mouse_wrap s) && negb (val =? AUX_RESET) then
        mouse_ps2_queue val s w
      else mouse_command val s w
  end.

(** *** Reset and creation *)

Definition ps2_common_reset (s : PS2State) (w : W) : PS2State * W :=
  let s := s <| write_cmd := -1 |> in
  let q := queue s in
  let q := q <| rptr := 0 |> in
  let q := q <| wptr := 0 |> in
  let q := q <| count := 0 |> in
  (s <| queue := q |>, update_irq 0 w).

Definition ps2_kbd_reset (s : PS2KbdState) (w : W) : PS2KbdState * W :=
  let '(c, w) := ps2_common_reset (kcommon s) w in
  let s := s <| kcommon := c |> in
  let s := s <| scan_enabled := 0 |> in
  let s := s <| translate := 0 |> in
  (s <| scancode_set := 0 |>, w).

Definition ps2_mouse_reset (s : PS2MouseState) (w : W) : PS2MouseState * W :=
  let '(c, w) := ps2_common_reset (mcommon s) w in
  (mkMouse c 0 0 0 0 0 0 0 0 0 0, w).

End Device.

Definition ps2_kbd_post_load (version_id : Z) (s : PS2KbdState) : PS2KbdState :=
  if version_id =? 2 then s <| scancode_set := 2 |> else s.

(** The state [qemu_mallocz] and the [init] functions leave. *)
Definition ps2_zero : PS2State := mkPS2 (mkQueue (replicate 256 0) 0 0 0) 0.
Definition ps2_kbd_init : PS2KbdState := mkKbd ps2_zero 0 0 2.
Definition ps2_mouse_init : PS2MouseState := mkMouse ps2_zero 0 0 0 0 0 0 0 0 0 0.

(** ** The ring buffer is a bounded FIFO *)

Record queue_ok (q : PS2Queue) : Prop := {
  ok_data : length (data q) = 256%nat;
  ok_rptr : 0 <= rptr q < 256;
  ok_count : 0 <= count q <= 256;
  ok_wptr : wptr q = (rptr q + count q) mod 256
}.

(** The bytes waiting, oldest first. *)
Definition contents (q : PS2Queue) : list Z :=
  map (fun i => aget (data q) ((rptr q + Z.of_nat i) mod 256)) (seq 0 (Z.to_nat (count q))).

(** The abstract device: a list of at most 256 bytes that drops what does not
    fit. *)
Definition push (b : Z) (l : list Z) : list Z :=
  if Z.of_nat (length l) <? 256 then l ++ [u8 b] else l.

Lemma length_contents q : queue_ok q -> Z.of_nat (length (contents q)) = count q.
Proof. intros H. unfold contents. rewrite length_map, length_seq. destruct H. lia. Qed.

Lemma contents_nil q : queue_ok q -> contents q = [] <-> count q = 0.
Proof.
  intros H. rewrite <- (length_contents q H). destruct (contents q); cbn; split; done || lia.
Qed.

Lemma inc_mod x : 0 <= x < 256 -> (if x + 1 =? PS2_QUEUE_SIZE then 0 else x + 1) = (x + 1) mod 256.
Proof.
  intros Hx. unfold PS2_QUEUE_SIZE. destruct (Z.eqb_spec (x + 1) 256) as [->|]; [done|].
  symmetry. apply Z.mod_small. lia.
Qed.

Lemma wptr_range q : queue_ok q -> 0 <= wptr q < 256.
Proof. intros [_ _ _ ->]. apply Z.mod_pos_bound. lia. Qed.

Section Queue.
Context {W : Type} (update_irq : Z -> W -> W).

Lemma ps2_queue_fields b s w : queue_ok (queue s) -> count (queue s) < 256 ->
  ps2_queue update_irq b s w =
  (s <| queue := mkQueue (aset (data (queue s)) (wptr (queue s)) (u8 b)) (rptr (queue s))
                   ((wptr (queue s) + 1) mod 256) (count (queue s) + 1) |>, update_irq 1 w).
Proof.
  intros H Hc. unfold ps2_queue. unfold PS2_QUEUE_SIZE at 1.
  destruct (Z.leb_spec 256 (count (queue s))); [lia|]. cbv zeta.
  rewrite <- inc_mod by now apply wptr_range. cbn [over wptr].
  destruct (wptr (queue s) + 1 =? PS2_QUEUE_SIZE); reflexivity.
Qed.

Lemma ps2_queue_spec b s w : queue_ok (queue s) ->
  let '(s', w') := ps2_queue update_irq b s w in
  queue_ok (queue s') /\ contents (queue s') = push b (contents (queue s))
  /\ write_cmd s' = write_cmd s
  /\ w' = if count (queue s) <? 256 then update_irq 1 w else w.
Proof.
  intros H. destruct (Z.ltb_spec (count (queue s)) 256) as [Hc|Hc].
  - rewrite ps2_queue_fields by done. cbn [over queue write_cmd].
    pose proof (wptr_range _ H) as Hw. destruct H as [Hd Hr Hn Hwp].
    split; [|split; [|done]].
    + constructor; cbn; [now rewrite length_aset|done|lia|].
      rewrite Hwp, Zplus_mod_idemp_l. f_equal. lia.
    + unfold push. rewrite length_contents by (constructor; done).
      destruct (Z.ltb_spec (count (queue s)) 256); [|lia].
      unfold contents. cbn [count rptr data].
      replace (Z.to_nat (count (queue s) + 1)) with (S (Z.to_nat (count (queue s)))) by lia.
      rewrite seq_S, map_app. cbn [map plus]. f_equal; [|f_equal].
      * apply map_ext_in. intros i Hi%in_seq. apply aget_aset_ne; [lia|apply Z.mod_pos_bound; lia|].
        rewrite Hwp. intros E. pose proof (Z.div_mod (rptr (queue s) + count (queue s)) 256).
        pose proof (Z.div_mod (rptr (queue s) + Z.of_nat i) 256). nia.
      * rewrite Z2Nat.id, <- Hwp by lia. apply aget_aset_eq. rewrite Hd. lia.
  - unfold ps2_queue, PS2_QUEUE_SIZE. destruct (Z.leb_spec 256 (count (queue s))); [|lia].
    repeat split; try apply H. unfold push. rewrite length_contents by done.
    destruct (Z.ltb_spec (count (queue s)) 256); [lia|done].
Qed.

Lemma ps2_read_spec s w b rest : queue_ok (queue s) -> contents (queue s) = b :: rest ->
  let '(v, (s', w')) := ps2_read_data update_irq s w in
  v = b /\ queue_ok (queue s') /\ contents (queue s') = rest /\ write_cmd s' = write_cmd s
  /\ w' = update_irq (b2z (negb (bool_decide (rest = [])))) (update_irq 0 w)
  /\ (rest = [] -> forall w, (ps2_read_data update_irq s' w).1 = b).
Proof.
  intros H E. pose proof (length_contents _ H) as Hl. rewrite E in Hl. cbn [length] in Hl.
  destruct H as [Hd Hr Hn Hwp]. unfold ps2_read_data at 1.
  destruct (Z.eqb_spec (count (queue s)) 0) as [|Hc]; [lia|]. cbv zeta.
  set (q' := mkQueue (data (queue s)) ((rptr (queue s) + 1) mod 256) (wptr (queue s))
               (count (queue s) - 1)).
  match goal with |- context [s <| queue := ?q |>] => assert (q = q') as -> end.
  { unfold q'. rewrite <- inc_mod by done. cbn [over rptr].
    destruct (rptr (queue s) + 1 =? PS2_QUEUE_SIZE); reflexivity. }
  assert (contents (queue s) = aget (data (queue s)) (rptr (queue s)) :: contents q') as E'.
  { unfold contents, q'. cbn [count rptr data].
    replace (Z.to_nat (count (queue s))) with (S (Z.to_nat (count (queue s) - 1))) by lia.
    cbn [seq map]. rewrite Z.add_0_r, Z.mod_small by done. f_equal.
    rewrite <- seq_shift, map_map. apply map_ext. intros i. f_equal.
    rewrite Zplus_mod_idemp_l. f_equal. lia. }
  rewrite E in E'. injection E' as Eb Er. cbn [over queue].
  assert (queue_ok q') as Hq'.
  { constructor; cbn; [done|apply Z.mod_pos_bound; lia|lia|].
    rewrite Hwp, Zplus_mod_idemp_l. f_equal. lia. }
  split; [done|]. split; [done|]. split; [done|]. split; [done|]. split.
  - f_equal. pose proof (contents_nil q' Hq') as Hnil. rewrite <- Er in Hnil.
    unfold q' in *. cbn [count over] in *. f_equal.
    destruct (Z.eqb_spec (count (queue s) - 1) 0), (bool_decide_reflect (rest = [])); tauto.
  - intros Hrest w0. unfold ps2_read_data. cbn [over queue].
    assert (count q' = 0) as -> by (apply contents_nil; congruence). cbn [Z.eqb fst].
    rewrite Eb. unfold q'. cbn [rptr data]. f_equal. unfold PS2_QUEUE_SIZE.
    pose proof (Z.div_mod (rptr (queue s) + 1) 256). pose proof (Z.mod_pos_bound (rptr (queue s) + 1) 256).
    destruct (Z.ltb_spec ((rptr (queue s) + 1) mod 256 - 1) 0); lia.
Qed.

(** C36: The 256-byte ring of a PS/2 device refines a bounded FIFO: queueing
    appends the byte and signals the controller, or does nothing when 256 bytes
    wait; reading takes the oldest byte, drops the interrupt and raises it again
    exactly when bytes remain; reading with no data returns the last byte taken
    and changes nothing. *)
Theorem ps2_queue_refines_fifo (s : PS2State) : queue_ok (queue s) ->
  (forall b w, let '(s', w') := ps2_queue update_irq b s w in
     queue_ok (queue s') /\ contents (queue s') = push b (contents (queue s))
     /\ w' = if Z.of_nat (length (contents (queue s))) <? 256 then update_irq 1 w else w)
  /\ (forall w, let '(v, (s', w')) := ps2_read_data update_irq s w in
     queue_ok (queue s') /\
     match contents (queue s) with
     | [] => s' = s /\ w' = w
     | b :: rest => v = b /\ contents (queue s') = rest
         /\ w' = update_irq (b2z (negb (bool_decide (rest = [])))) (update_irq 0 w)
         /\ (rest = [] -> forall w, (ps2_read_data update_irq s' w).1 = b)
     end).
Proof.
  intros H. split.
  - intros b w. pose proof (ps2_queue_spec b s w H) as Hq. rewrite length_contents by done.
    destruct (ps2_queue update_irq b s w). tauto.
  - intros w. destruct (contents (queue s)) as [|b rest] eqn:E.
    + unfold ps2_read_data. apply contents_nil in E as ->; done.
    + pose proof (ps2_read_spec s w b rest H E) as Hr.
      destruct (ps2_read_data update_irq s w) as [v [s' w']]. tauto.
Qed.
End Queue.

Lemma ps2_zero_ok : queue_ok (queue ps2_zero).
Proof. constructor; vm_compute; (split; congruence) || reflexivity. Qed.

Lemma ps2_queue_refines_fifo_witness :
  let '(s, w) := ps2_queue (fun l w => w ++ [l]) 0x1c ps2_zero [] in
  contents (queue s) = [0x1c] /\ w = [1].
Proof.
  pose proof (ps2_queue_refines_fifo (fun l w => w ++ [l]) ps2_zero ps2_zero_ok) as [H _].
  specialize (H 0x1c []). destruct (ps2_queue (fun l w => w ++ [l]) 0x1c ps2_zero []) as [s w].
  destruct H as (_ & -> & ->). split; vm_compute; reflexivity.
Defined.

(** ** Mouse movement *)

(** One packet as the guest's driver decodes it: two 9-bit deltas, and the
    wheel for the types that have one. *)
Definition encode (ty btn : Z) (d : Z * Z * Z) : list Z :=
  let '(x, y, z) := d in
  [0x08 .| (b2z (x <? 0) << 4) .| (b2z (y <? 0) << 5) .| (btn .& 0x07); x .& 0xff; y .& 0xff]
  ++ match ty with
     | 3 => [z .& 0xff]
     | 4 => [(z .& 0x0f) .| ((btn .& 0x18) << 1)]
     | _ => []
     end.

Definition decode (ty : Z) (p : list Z) : Z * Z * Z :=
  let b := aget p in
  (b 1 - ((b 0 << 4) .& 0x100), b 2 - ((b 0 << 3) .& 0x100),
   match ty with
   | 3 => if b 3 <? 128 then b 3 else b 3 - 256
   | 4 => let n := b 3 .& 0x0f in if n <? 8 then n else n - 16
   | _ => 0
   end).

(** The largest wheel movement of a packet. *)
Definition zmax (ty : Z) : option Z := match ty with 3 => Some 127 | 4 => Some 7 | _ => None end.

Definition step_of (ty : Z) (d : Z * Z * Z) : Z * Z * Z :=
  let '(x, y, z) := d in
  (clamp 127 x, clamp 127 y, match zmax ty with Some m => clamp m z | None => z end).

Definition add3 (a b : Z * Z * Z) : Z * Z * Z :=
  let '(x, y, z) := a in let '(x', y', z') := b in (x + x', y + y', z + z').

Definition sum3 (l : list (Z * Z * Z)) : Z * Z * Z := foldr add3 (0, 0, 0) l.

Definition deltas (s : PS2MouseState) : Z * Z * Z := (mouse_dx s, mouse_dy s, mouse_dz s).

Definition push_all (bs : list Z) (l : list Z) : list Z := foldl (fun l b => push b l) l bs.

Definition mqueue (s : PS2MouseState) : PS2Queue := queue (mcommon s).

Lemma clamp_range m x : 0 <= m -> - m <= clamp m x <= m.
Proof. intros. unfold clamp. destruct (Z.ltb_spec m x), (Z.ltb_spec x (- m)); lia. Qed.

Lemma clamp_abs m x : 0 <= m -> Z.abs (x - clamp m x) = Z.max 0 (Z.abs x - m).
Proof. intros. unfold clamp. destruct (Z.ltb_spec m x), (Z.ltb_spec x (- m)); lia. Qed.

Lemma land_ff x : x .& 0xff = x mod 256.
Proof. now apply (land_ones_mod x 8). Qed.

(** Bits 4 and 5 of the first byte are the signs. *)
Lemma first_byte_signs (sx sy : bool) btn :
  let b := 0x08 .| (b2z sx << 4) .| (b2z sy << 5) .| (btn .& 0x07) in
  (b << 4) .& 0x100 = 256 * b2z sx /\ (b << 3) .& 0x100 = 256 * b2z sy /\ in_u 8 b.
Proof.
  cbv zeta. rewrite land_7. pose proof (Z.mod_pos_bound btn 8 ltac:(lia)) as Hb.
  set (r := btn mod 8) in *. clearbody r.
  assert (r = 0 \/ r = 1 \/ r = 2 \/ r = 3 \/ r = 4 \/ r = 5 \/ r = 6 \/ r = 7) as C by lia.
  repeat destruct C as [->|C]; subst; destruct sx, sy; repeat split; done.
Qed.

(** The wheel of an IMEX packet is the low nibble of its last byte. *)
Lemma wheel_byte z btn : ((z .& 0x0f) .| ((btn .& 0x18) << 1)) .& 0x0f = z mod 16.
Proof.
  change 16 with (2 ^ 4). rewrite <- Z.land_ones by lia. change (Z.ones 4) with 15.
  apply Z.bits_inj'. intros n Hn.
  rewrite !Z.land_spec, Z.lor_spec, Z.land_spec, Z.shiftl_spec, Z.land_spec by lia.
  destruct (Z.lt_ge_cases n 4).
  - assert (Z.testbit 0x18 (n - 1) = false) as ->; [|btauto].
    assert (n = 0 \/ n = 1 \/ n = 2 \/ n = 3) as C by lia.
    repeat destruct C as [->|C]; subst; reflexivity.
  - rewrite (testbit_in_u_high 4 15 n) by (done || (split; done)). btauto.
Qed.

(** Decoding a packet gives the movement it carries. *)
Lemma decode_encode ty btn d : let '(x, y, z) := step_of ty d in
  decode ty (encode ty btn (x, y, z)) = (x, y, match zmax ty with Some _ => z | None => 0 end).
Proof.
  destruct d as [[x0 y0] z0]. unfold step_of.
  pose proof (clamp_range 127 x0 ltac:(lia)) as Hx. pose proof (clamp_range 127 y0 ltac:(lia)) as Hy.
  set (x := clamp 127 x0) in *. set (y := clamp 127 y0) in *. clearbody x y.
  pose proof (first_byte_signs (x <? 0) (y <? 0) btn) as (E1 & E2 & _).
  assert (forall x, -128 <= x <= 127 -> x .& 0xff = if x <? 0 then x + 256 else x) as Hff.
  { clear. intros x Hx. rewrite land_ff. destruct (Z.ltb_spec x 0);
      [symmetry; apply Z.mod_unique with (-1); lia|apply Z.mod_small; lia]. }
  assert (forall a b, aget (a :: b) 0 = a) as H0 by done.
  unfold decode, encode. cbn [app].
  match goal with |- (?a, ?b, ?c) = _ => assert (a = x) as -> end.
  { change (aget (?a :: ?b :: ?c) 1) with b. rewrite H0, E1. change (aget (_ :: ?b :: _) 1) with b.
    rewrite Hff by lia. unfold b2z. destruct (x <? 0); lia. }
  match goal with |- (?a, ?b, ?c) = _ => assert (b = y) as -> end.
  { rewrite H0, E2. change (aget (_ :: _ :: ?b :: _) 2) with b.
    rewrite Hff by lia. unfold b2z. destruct (y <? 0); lia. }
  f_equal. destruct (decide (ty = 3)) as [->|]; [|destruct (decide (ty = 4)) as [->|]].
  - cbn [zmax]. pose proof (clamp_range 127 z0 ltac:(lia)) as Hz. change (aget [_; _; _; ?b] 3) with b.
    rewrite Hff by lia. destruct (Z.ltb_spec (clamp 127 z0) 0);
      match goal with |- context [?a <? 128] => destruct (Z.ltb_spec a 128) end; lia.
  - cbn [zmax]. pose proof (clamp_range 7 z0 ltac:(lia)) as Hz. change (aget [_; _; _; ?b] 3) with b.
    set (z := clamp 7 z0) in *. clearbody z.
    rewrite wheel_byte. destruct (Z.ltb_spec z 0).
    + rewrite <- (Z.mod_unique z 16 (-1) (z + 16)) by lia.
      destruct (Z.ltb_spec (z + 16) 8); lia.
    + rewrite (Z.mod_small z 16) by lia. destruct (Z.ltb_spec z 8); lia.
  - unfold zmax. repeat case_match; done.
Qed.

Section MouseLoop.
Context {W : Type} (update_irq : Z -> W -> W).

(** Step over one queued byte. *)
Ltac queue_step c :=
  match goal with |- context [ps2_queue update_irq ?b ?s ?w] =>
    let H := fresh in let w' := fresh "w" in
    assert (let '(s', _) := ps2_queue update_irq b s w in
            queue_ok (queue s') /\ contents (queue s') = push b (contents (queue s))
            /\ write_cmd s' = write_cmd s) as H
      by (pose proof (ps2_queue_spec update_irq b s w ltac:(assumption));
          destruct (ps2_queue update_irq b s w); tauto);
    destruct (ps2_queue update_irq b s w) as [c w']; destruct H as (? & ? & ?);
    cbn [over mcommon mouse_type mouse_buttons mouse_dx mouse_dy mouse_dz]
  end.

Lemma send_packet_spec s w : queue_ok (mqueue s) ->
  let '(s', w') := ps2_mouse_send_packet update_irq s w in
  queue_ok (mqueue s')
  /\ contents (mqueue s')
     = push_all (encode (mouse_type s) (mouse_buttons s) (step_of (mouse_type s) (deltas s)))
         (contents (mqueue s))
  /\ add3 (step_of (mouse_type s) (deltas s)) (deltas s') = deltas s
  /\ mouse_type s' = mouse_type s /\ mouse_buttons s' = mouse_buttons s.
Proof.
  unfold ps2_mouse_send_packet, mouse_ps2_queue, deltas, step_of, mqueue, encode, push_all, add3.
  intros Hok. queue_step c1. queue_step c2. queue_step c3.
  unfold zmax. destruct (decide (mouse_type s = 3)) as [E|]; [|destruct (decide (mouse_type s = 4)) as [E|]].
  - rewrite E. queue_step c4. cbn [app foldl]. split; [assumption|]. split; [congruence|].
    split; [f_equal; [f_equal|]; lia|done].
  - rewrite E. queue_step c4. cbn [app foldl]. split; [assumption|]. split; [congruence|].
    split; [f_equal; [f_equal|]; lia|done].
  - repeat case_match; simplify_eq; cbn [app foldl over mcommon mouse_type mouse_buttons mouse_dx mouse_dy mouse_dz] in *;
      (split; [assumption|]; split; [congruence|]; split; [f_equal; [f_equal|]; lia|done]).
Qed.

Definition dist (d : Z * Z * Z) : Z := let '(x, y, z) := d in Z.abs x + Z.abs y + Z.abs z.

(** [d] needs at most [n] packets. *)
Definition reach (ty n : Z) (d : Z * Z * Z) : Prop :=
  let '(x, y, z) := d in
  Z.abs x <= 127 * n /\ Z.abs y <= 127 * n
  /\ match zmax ty with Some m => Z.abs z <= m * n | None => n = 0 -> z = 0 end.

Lemma zmax_pos ty m : zmax ty = Some m -> 0 < m.
Proof. unfold zmax. repeat case_match; intros; simplify_eq; lia. Qed.

Lemma step_dist ty d r : add3 (step_of ty d) r = d -> r = (0, 0, 0) \/ dist r < dist d.
Proof.
  destruct d as [[x y] z], r as [[x' y'] z']. unfold add3, step_of, dist. intros [= Hx Hy Hz].
  pose proof (clamp_abs 127 x ltac:(lia)) as Cx. pose proof (clamp_abs 127 y ltac:(lia)) as Cy.
  replace (x - clamp 127 x) with x' in Cx by lia. replace (y - clamp 127 y) with y' in Cy by lia.
  clear Hx Hy.
  assert (z' = 0 \/ Z.abs z' < Z.abs z) as Cz.
  { destruct (zmax ty) as [m|] eqn:Em; [|lia]. pose proof (zmax_pos ty m Em).
    pose proof (clamp_abs m z ltac:(lia)) as C. replace (z - clamp m z) with z' in C by lia. lia. }
  clear Hz. destruct (decide (x' = 0)), (decide (y' = 0)), (decide (z' = 0)); subst; auto; right; lia.
Qed.

Lemma step_reach ty n d r : 0 <= n -> add3 (step_of ty d) r = d -> reach ty (n + 1) d -> reach ty n r.
Proof.
  destruct d as [[x y] z], r as [[x' y'] z']. unfold add3, step_of, reach. intros Hn [= Hx Hy Hz].
  pose proof (clamp_abs 127 x ltac:(lia)) as Cx. pose proof (clamp_abs 127 y ltac:(lia)) as Cy.
  replace (x - clamp 127 x) with x' in Cx by lia. replace (y - clamp 127 y) with y' in Cy by lia.
  clear Hx Hy. intros (H1 & H2 & H3). split; [lia|]. split; [lia|]. clear Cx Cy H1 H2.
  destruct (zmax ty) as [m|] eqn:Em; [|lia]. pose proof (zmax_pos ty m Em).
  pose proof (clamp_abs m z ltac:(lia)) as C. replace (z - clamp m z) with z' in C by lia.
  rewrite Z.mul_add_distr_l in H3. assert (0 <= m * n) by nia. lia.
Qed.

Definition zero3 (s : PS2MouseState) : bool :=
  (mouse_dx s =? 0) && (mouse_dy s =? 0) && (mouse_dz s =? 0).

Lemma zero3_spec s : zero3 s = true <-> deltas s = (0, 0, 0).
Proof.
  unfold zero3, deltas. rewrite !andb_true_iff, !Z.eqb_eq. split; [intros [[-> ->] ->]; done|].
  intros [= -> -> ->]; done.
Qed.

(** The loop ends, sends whole steps that add up to the movement, and takes no
    more packets than the movement needs. *)
Lemma mouse_event_loop_total fuel s w : queue_ok (mqueue s) ->
  dist (deltas s) < Z.of_nat fuel ->
  exists s' w' ds, mouse_event_loop update_irq fuel s w = Some (s', w')
    /\ queue_ok (mqueue s') /\ deltas s' = (0, 0, 0) /\ sum3 ds = deltas s
    /\ Forall (fun d => exists d0, d = step_of (mouse_type s) d0) ds
    /\ contents (mqueue s')
       = foldl (fun l d => push_all (encode (mouse_type s) (mouse_buttons s) d) l)
           (contents (mqueue s)) ds
    /\ (forall n, 0 <= n -> reach (mouse_type s) (n + 1) (deltas s) -> Z.of_nat (length ds) <= n + 1).
Proof.
  revert s w. induction fuel as [|fuel IH]; intros s w Hok Hf.
  { unfold dist, deltas in Hf. lia. }
  cbn [mouse_event_loop]. pose proof (send_packet_spec s w Hok) as Hp.
  destruct (ps2_mouse_send_packet update_irq s w) as [s1 w1].
  destruct Hp as (Hok1 & Hc1 & Hd1 & Ht1 & Hb1). fold (zero3 s1).
  destruct (zero3 s1) eqn:Ez.
  - apply zero3_spec in Ez. rewrite Ez in Hd1.
    exists s1, w1, [step_of (mouse_type s) (deltas s)].
    split; [done|]. split; [done|]. split; [done|]. split; [exact Hd1|].
    split; [apply Forall_singleton; eauto|]. split; [exact Hc1|]. cbn. lia.
  - assert (deltas s1 <> (0, 0, 0)) as Hne by (intros E; apply zero3_spec in E; congruence).
    destruct (step_dist _ _ _ Hd1) as [|Hlt]; [done|].
    destruct (IH s1 w1 Hok1) as (s' & w' & ds & E & Hok' & Hz & Hs & Hall & Hc & Hn); [lia|].
    rewrite Ht1 in *. rewrite Hb1 in Hc.
    exists s', w', (step_of (mouse_type s) (deltas s) :: ds).
    split; [done|]. split; [done|]. split; [done|]. split; [cbn [sum3 foldr]; fold (sum3 ds); now rewrite Hs|].
    split; [apply Forall_cons_2; eauto|]. split; [cbn [foldl]; now rewrite <- Hc1|].
    intros n Hn0 Hr. cbn [length]. apply step_reach with (r := deltas s1) in Hr; [|done|done].
    destruct (decide (n = 0)) as [->|].
    + exfalso. apply Hne. destruct (deltas s1) as [[x y] z]. unfold reach in Hr.
      assert (x = 0 /\ y = 0 /\ z = 0) as (-> & -> & ->); [|done].
      destruct (zmax (mouse_type s)); lia.
    + specialize (Hn (n - 1)). replace (n - 1 + 1) with n in Hn by lia. specialize (Hn ltac:(lia) Hr). lia.
Qed.

Lemma push_all_room bs l : Z.of_nat (length l + length bs) <= 256 -> Forall (in_u 8) bs ->
  push_all bs l = l ++ bs.
Proof.
  revert l. induction bs as [|b bs IH]; intros l Hl Hbs; [symmetry; apply app_nil_r|].
  apply Forall_cons_1 in Hbs as [Hb Hbs]. cbn [push_all foldl length] in *. fold (push_all bs (push b l)).
  unfold push. destruct (Z.ltb_spec (Z.of_nat (length l)) 256); [|lia].
  rewrite u8_id, IH by (done || (rewrite length_app; cbn; lia)). now rewrite <- app_assoc.
Qed.

Lemma encode_bytes ty btn d : (length (encode ty btn d) <= 4)%nat /\ Forall (in_u 8) (encode ty btn d).
Proof.
  destruct d as [[x y] z]. unfold encode.
  pose proof (first_byte_signs (x <? 0) (y <? 0) btn) as (_ & _ & Hb).
  assert (forall v, in_u 8 (v .& 0xff)) as Hff by (intros; rewrite land_ff; apply Z.mod_pos_bound; lia).
  assert (in_u 8 ((z .& 0x0f) .| ((btn .& 0x18) << 1))) as Hw.
  { apply in_u_lor; [lia| |].
    - apply in_u_land_r; [lia|split; done].
    - assert (in_u 5 (btn .& 0x18)) as [H0 H1] by (apply in_u_land_r; [lia|split; done]).
      rewrite Z.shiftl_mul_pow2 by lia. split; lia. }
  split; [repeat case_match; cbn; lia|]. cbn [app]. repeat case_match;
    repeat first [apply Forall_nil_2 | apply Forall_cons_2; [auto|]].
Qed.

(** A mouse movement in stream mode: the sending loop terminates whatever
    the movement, leaves no residue, and sends steps that add up to it; when
    the movement needs at most four packets the queue receives all of them
    whole (the code keeps 16 bytes free for this), and the guest decodes each
    packet to its step. *)
Theorem ps2_mouse_event_delivers dx dy dz buttons (s : PS2MouseState) (w : W) :
  queue_ok (mqueue s) -> tst (mouse_status s) MOUSE_STATUS_ENABLED = true ->
  tst (mouse_status s) MOUSE_STATUS_REMOTE = false -> count (mqueue s) < 240 ->
  in_u 8 buttons ->
  let total := (mouse_dx s + dx, mouse_dy s - dy, mouse_dz s + dz) in
  let ty := mouse_type s in
  total <> (0, 0, 0) \/ mouse_buttons s <> buttons ->
  exists s' w' ds, ps2_mouse_event update_irq dx dy dz buttons s w = Some (s', w')
    /\ queue_ok (mqueue s') /\ deltas s' = (0, 0, 0) /\ sum3 ds = total
    /\ (reach ty 4 total ->
        contents (mqueue s') = contents (mqueue s) ++ flat_map (encode ty buttons) ds
        /\ Forall (fun d => let '(x, y, z) := d in
             decode ty (encode ty buttons d)
             = (x, y, match zmax ty with Some _ => z | None => 0 end)) ds).
Proof.
  intros Hok Hen Hrem Hroom Hb total ty Hne. unfold ps2_mouse_event. rewrite Hen. cbn [negb].
  match goal with |- context [(mouse_dx ?s1 =? 0) && _ && _ && ?b] =>
    assert (zero3 s1 && b = false) as Hz0; [|unfold zero3 in Hz0; rewrite Hz0; clear Hz0] end.
  { apply andb_false_iff. destruct Hne as [Hne|Hne].
    - left. apply not_true_iff_false. rewrite zero3_spec. exact Hne.
    - right. now apply Z.eqb_neq. }
  cbn [over mouse_buttons mouse_status mcommon].
  rewrite Hrem. cbn [negb andb]. unfold PS2_QUEUE_SIZE. fold (mqueue s). change (256 - 16) with 240.
  rewrite (proj2 (Z.ltb_lt _ _) Hroom). rewrite (u8_id buttons Hb).
  match goal with |- context [mouse_event_loop update_irq (event_fuel ?s1) _ w] => set (s1' := s1) end.
  destruct (mouse_event_loop_total (event_fuel s1') s1' w)
    as (s' & w' & ds & E & Hok' & Hz & Hs & Hall & Hc & Hn); [exact Hok| |].
  { unfold event_fuel, dist, deltas. lia. }
  exists s', w', ds. split; [exact E|]. split; [exact Hok'|]. split; [exact Hz|]. split; [exact Hs|].
  intros Hr. specialize (Hn 3 ltac:(lia) Hr). change (mouse_type s1') with ty in *.
  change (mouse_buttons s1') with buttons in *. change (mqueue s1') with (mqueue s) in *.
  split.
  - rewrite Hc. pose proof (length_contents _ Hok) as Hl.
    assert (Z.of_nat (length (contents (mqueue s)) + 4 * length ds) <= 256) as Hroom' by lia.
    clear - Hroom'. revert Hroom'. generalize (contents (mqueue s)).
    induction ds as [|d ds IH]; intros l Hl; cbn [foldl flat_map]; [symmetry; apply app_nil_r|].
    destruct (encode_bytes ty buttons d) as [Hlen Hbytes]. cbn [length] in Hl.
    rewrite push_all_room by (done || lia). rewrite IH by (rewrite length_app; lia).
    now rewrite <- app_assoc.
  - refine (List.Forall_impl _ _ Hall). intros d [d0 ->].
    pose proof (decode_encode ty buttons d0) as Hd. destruct (step_of ty d0) as [[x y] z]. exact Hd.
Qed.
End MouseLoop.

Lemma ps2_mouse_event_delivers_witness :
  let s := ps2_mouse_init <| mouse_status := 0x20 |> <| mouse_type := 3 |> in
  exists s' w' ds, ps2_mouse_event (fun _ w => w) 300 (-5) 1 1 s tt = Some (s', w')
    /\ deltas s' = (0, 0, 0) /\ sum3 ds = (300, 5, 1)
    /\ contents (mqueue s') = flat_map (encode 3 1) ds.
Proof.
  intros s.
  destruct (ps2_mouse_event_delivers (fun _ w => w) 300 (-5) 1 1 s tt)
    as (s' & w' & ds & H1 & _ & H2 & H3 & H4);
    [exact ps2_zero_ok|reflexivity|reflexivity|reflexivity|split; [discriminate|reflexivity]|right; discriminate|].
  exists s', w', ds. split; [exact H1|]. split; [exact H2|]. split; [exact H3|].
  apply H4. vm_compute. repeat split; discriminate.
Defined.

(** ** Wheel mouse detection *)

Section Wheel.
Context {W : Type} (update_irq : Z -> W -> W).

(** The host sends the bytes [bs] to the mouse. *)
Definition send (bs : list Z) (s : PS2MouseState) (w : W) : PS2MouseState * W :=
  foldl (fun '(s, w) b => ps2_write_mouse update_irq b s w) (s, w) bs.

(** Ready for a command byte. *)
Record idle (s : PS2MouseState) : Prop := {
  idle_queue : queue_ok (mqueue s);
  idle_cmd : write_cmd (mcommon s) = -1;
  idle_wrap : mouse_wrap s = 0
}.

Lemma mouse_queue_spec b s w : queue_ok (mqueue s) ->
  let '(s', w') := mouse_ps2_queue update_irq b s w in
  queue_ok (mqueue s') /\ contents (mqueue s') = push b (contents (mqueue s))
  /\ exists c, s' = s <| mcommon := c |> /\ write_cmd c = write_cmd (mcommon s).
Proof.
  intros H. unfold mouse_ps2_queue. pose proof (ps2_queue_spec update_irq b (mcommon s) w H) as Hq.
  destruct (ps2_queue update_irq b (mcommon s) w) as [c w']. unfold mqueue in *. cbn [over mcommon].
  destruct Hq as (H1 & H2 & H3 & _). eauto 6.
Qed.

Lemma write_mouse_command val s w : idle s -> ps2_write_mouse update_irq val s w = mouse_command update_irq val s w.
Proof. intros [_ Hc Hw]. unfold ps2_write_mouse. now rewrite Hc, Hw. Qed.

(** Setting the sample rate to [r]. *)
Lemma send_rate r s w : idle s ->
  let '(s', w') := send [AUX_SET_SAMPLE; r] s w in
  idle s' /\ contents (mqueue s') = push AUX_ACK (push AUX_ACK (contents (mqueue s)))
  /\ mouse_type s' = mouse_type (detect_step r s)
  /\ mouse_detect_state s' = mouse_detect_state (detect_step r s) /\ mouse_sample_rate s' = u8 r.
Proof.
  intros Hi. unfold send. cbn [foldl]. rewrite write_mouse_command by done.
  unfold mouse_command, AUX_SET_SAMPLE. destruct Hi as [Hq Hc Hw].
  pose proof (mouse_queue_spec AUX_ACK (set_mouse_cmd 0xF3 s) w Hq) as H1.
  destruct (mouse_ps2_queue update_irq AUX_ACK (set_mouse_cmd 0xF3 s) w) as [s1 w1].
  destruct H1 as (Hq1 & Hc1 & c1 & -> & Hcmd1).
  unfold ps2_write_mouse. cbn [over mcommon set_mouse_cmd] in *.
  change (write_cmd (mkPS2 (queue (mcommon s)) 243)) with 243 in Hcmd1. rewrite Hcmd1. cbv iota.
  match goal with |- context [mouse_ps2_queue _ _ (detect_step r ?s2) _] => set (s2' := s2) end.
  assert (mqueue (detect_step r s2') = queue c1 /\ mouse_wrap (detect_step r s2') = 0
    /\ mouse_sample_rate (detect_step r s2') = u8 r
    /\ mouse_type (detect_step r s2') = mouse_type (detect_step r s)
    /\ mouse_detect_state (detect_step r s2') = mouse_detect_state (detect_step r s))
    as (E1 & E2 & E3 & E4 & E5).
  { unfold detect_step. change (mouse_detect_state s2') with (mouse_detect_state s).
    repeat case_match; done. }
  pose proof (mouse_queue_spec AUX_ACK (detect_step r s2') w1) as H2. rewrite E1 in H2.
  destruct (mouse_ps2_queue update_irq AUX_ACK (detect_step r s2') w1) as [s3 w3].
  destruct H2 as (Hq3 & Hc3 & c3 & -> & _); [exact Hq1|].
  split; [|split; [|split; [exact E4|split; [exact E5|exact E3]]]].
  - constructor; [exact Hq3|reflexivity|exact E2].
  - change (mqueue (set_mouse_cmd (-1) (detect_step r s2') <| mcommon := c3 |>)) with (queue c3) in *.
    change (contents (queue c3) = push AUX_ACK (push AUX_ACK (contents (mqueue s)))).
    change (contents (queue c3) = push AUX_ACK (contents (queue c1))) in Hc3. rewrite Hc3.
    f_equal. exact Hc1.
Qed.

(** The wheel-mouse knock: three sample rates 200, [r], 80 turn the mouse
    into an IMPS/2 one for r = 100, into an IMEX one for r = 200, and leave its
    type alone otherwise; every byte is acknowledged and the identity command
    that follows reports the type. *)
Theorem ps2_wheel_detection r (s : PS2MouseState) (w : W) :
  idle s -> mouse_detect_state s = 0 -> contents (mqueue s) = [] -> in_u 8 (mouse_type s) ->
  let '(s', w') := send (flat_map (fun r => [AUX_SET_SAMPLE; r]) [200; r; 80] ++ [AUX_GET_TYPE]) s w in
  mouse_type s' = (if r =? 100 then 3 else if r =? 200 then 4 else mouse_type s)
  /\ contents (mqueue s') = replicate 7 AUX_ACK ++ [mouse_type s']
  /\ mouse_detect_state s' = 0 /\ mouse_sample_rate s' = 80.
Proof.
  intros Hi Hd Hc Ht. unfold send. cbn [flat_map app].
  change (?a :: ?b :: ?c :: ?d :: ?e :: ?f :: [?g]) with ([a; b] ++ [c; d] ++ [e; f] ++ [g]).
  rewrite !foldl_app.
  pose proof (send_rate 200 s w Hi) as H1. unfold send in H1.
  destruct (foldl _ (s, w) _) as [s1 w1]. destruct H1 as (Hi1 & Hc1 & Ht1 & Hd1 & _).
  pose proof (send_rate r s1 w1 Hi1) as H2. unfold send in H2.
  destruct (foldl _ (s1, w1) _) as [s2 w2]. destruct H2 as (Hi2 & Hc2 & Ht2 & Hd2 & _).
  pose proof (send_rate 80 s2 w2 Hi2) as H3. unfold send in H3.
  destruct (foldl _ (s2, w2) _) as [s3 w3]. destruct H3 as (Hi3 & Hc3 & Ht3 & Hd3 & Hr3).
  assert (mouse_type s3 = (if r =? 100 then 3 else if r =? 200 then 4 else mouse_type s)
    /\ mouse_detect_state s3 = 0) as [Ht3' Hd3'].
  { rewrite Ht3, Hd3. unfold detect_step in *. rewrite Hd in Ht1, Hd1. cbn in Ht1, Hd1.
    rewrite Hd1 in Ht2, Hd2. destruct (r =? 100); [|destruct (r =? 200)]; cbn in Ht2, Hd2;
      rewrite Hd2; cbn; rewrite ?Ht2, ?Ht1; done. }
  cbn [foldl]. rewrite write_mouse_command by done. unfold mouse_command, AUX_GET_TYPE.
  pose proof (mouse_queue_spec AUX_ACK s3 w3 (idle_queue _ Hi3)) as H4.
  destruct (mouse_ps2_queue update_irq AUX_ACK s3 w3) as [s4 w4].
  destruct H4 as (Hq4 & Hc4 & c4 & -> & _).
  match goal with |- context [mouse_ps2_queue _ ?b ?s ?w] =>
    pose proof (mouse_queue_spec b s w Hq4) as H5; destruct (mouse_ps2_queue update_irq b s w) as [s5 w5] end.
  destruct H5 as (Hq5 & Hc5 & c5 & -> & _). cbn [over mouse_type mouse_detect_state mouse_sample_rate].
  split; [exact Ht3'|]. split; [|split; [exact Hd3'|exact Hr3]].
  rewrite Hc5, Hc4, Hc3, Hc2, Hc1, Hc. cbn [over mouse_type].
  assert (in_u 8 (mouse_type s3)) as Ht8
    by (rewrite Ht3'; destruct (r =? 100); [|destruct (r =? 200)]; done || (split; done)).
  unfold push. rewrite (u8_id (mouse_type s3) Ht8). reflexivity.
Qed.
End Wheel.

Lemma ps2_wheel_detection_witness :
  let s := set_mouse_cmd (-1) ps2_mouse_init in
  let '(s', w') := send (fun _ w => w) [0xF3; 200; 0xF3; 100; 0xF3; 80; 0xF2] s tt in
  mouse_type s' = 3 /\ contents (mqueue s') = replicate 7 AUX_ACK ++ [3].
Proof.
  intros s. pose proof (ps2_wheel_detection (fun _ w => w) 100 s tt) as H.
  cbn [flat_map app] in H. change AUX_SET_SAMPLE with 0xF3 in H. change AUX_GET_TYPE with 0xF2 in H.
  destruct (send (fun _ w => w) [0xF3; 200; 0xF3; 100; 0xF3; 80; 0xF2] s tt) as [s' w'].
  destruct H as (Ht & Hc & _);
    [constructor; [exact ps2_zero_ok|reflexivity|reflexivity]|reflexivity|reflexivity
    |split; [discriminate|reflexivity]|].
  cbn in Ht. rewrite Ht in *. split; [reflexivity|exact Hc].
Defined.

(** ** Invariants that survive every operation

    A relation between a device's queue and the world that queueing a byte
    preserves is preserved by everything the device does: the operations change
    the queue and the world only by queueing, and the LED hook. *)

Section Preserve.
Context {W : Type} (update_irq : Z -> W -> W) (I : PS2Queue -> W -> Prop).
Hypothesis I_queue : forall b s w, I (queue s) w ->
  let '(s', w') := ps2_queue update_irq b s w in I (queue s') w'.

(** The relation at a result of a keyboard or a mouse operation. *)
Definition kwp (m : PS2KbdState * W) : Prop := I (queue (kcommon m.1)) m.2.
Definition mwp (m : PS2MouseState * W) : Prop := I (queue (mcommon m.1)) m.2.

Lemma kwp_bind m k : kwp m -> (forall s w, kwp (s, w) -> kwp (k s w)) ->
  kwp (let '(s, w) := m in k s w).
Proof. destruct m. auto. Qed.

Lemma mwp_bind m k : mwp m -> (forall s w, mwp (s, w) -> mwp (k s w)) ->
  mwp (let '(s, w) := m in k s w).
Proof. destruct m. auto. Qed.

Lemma kwp_queue b s w : kwp (s, w) -> kwp (kbd_ps2_queue update_irq b s w).
Proof.
  intros H. unfold kbd_ps2_queue. pose proof (I_queue b (kcommon s) w H).
  now destruct (ps2_queue update_irq b (kcommon s) w).
Qed.

Lemma mwp_queue b s w : mwp (s, w) -> mwp (mouse_ps2_queue update_irq b s w).
Proof.
  intros H. unfold mouse_ps2_queue. pose proof (I_queue b (mcommon s) w H).
  now destruct (ps2_queue update_irq b (mcommon s) w).
Qed.

Lemma put_keycode_preserves k s w : kwp (s, w) -> kwp (ps2_put_keycode update_irq k s w).
Proof.
  intros H. unfold ps2_put_keycode. destruct (_ && _ && _); [|now apply kwp_queue].
  assert (kwp (if tst k 128 then kbd_ps2_queue update_irq 240 s w else (s, w))) as H1
    by (destruct (tst k 128); auto using kwp_queue).
  destruct (if tst k 128 then _ else _) as [s1 w1].
  destruct (scancode_set s1 =? 2); [|destruct (scancode_set s1 =? 3)]; now apply kwp_queue.
Qed.

Lemma send_packet_preserves s w : mwp (s, w) -> mwp (ps2_mouse_send_packet update_irq s w).
Proof.
  intros H. unfold ps2_mouse_send_packet. cbv zeta.
  apply mwp_bind; [now apply mwp_queue|]. intros s1 w1 H1.
  apply mwp_bind; [now apply mwp_queue|]. intros s2 w2 H2.
  apply mwp_bind; [now apply mwp_queue|]. intros s3 w3 H3.
  match goal with |- mwp (match ?m with pair _ _ => _ end) =>
    assert (mwp (m.1.2, m.2)) as H4; [|destruct m as [[? ?] ?]; exact H4] end.
  repeat case_match; try exact H3;
    match goal with E : mouse_ps2_queue update_irq ?b s3 w3 = _ |- _ =>
      pose proof (mwp_queue b s3 w3 H3) as Hb; rewrite E in Hb; exact Hb end.
Qed.

Lemma event_loop_preserves fuel s w : mwp (s, w) ->
  match mouse_event_loop update_irq fuel s w with Some m => mwp m | None => True end.
Proof.
  revert s w. induction fuel as [|fuel IH]; intros s w H; [done|]. cbn [mouse_event_loop].
  pose proof (send_packet_preserves s w H) as H1.
  destruct (ps2_mouse_send_packet update_irq s w) as [s1 w1].
  destruct (_ && _ && _); [exact H1|now apply IH].
Qed.

Lemma mouse_event_preserves dx dy dz b s w : mwp (s, w) ->
  match ps2_mouse_event update_irq dx dy dz b s w with Some m => mwp m | None => True end.
Proof.
  intros H. unfold ps2_mouse_event. cbv zeta. destruct (negb _); [exact H|].
  destruct (_ && _); [exact H|]. destruct (_ && _); [|exact H]. now apply event_loop_preserves.
Qed.

(** Walk through an operation; [leaf] closes the goals at a returned state. *)
Ltac wp_walk leaf :=
  cbv zeta;
  repeat lazymatch goal with
  | |- kwp (kbd_ps2_queue _ _ _ _) => apply kwp_queue
  | |- kwp (ps2_put_keycode _ _ _ _) => apply put_keycode_preserves
  | |- mwp (mouse_ps2_queue _ _ _ _) => apply mwp_queue
  | |- mwp (ps2_mouse_send_packet _ _ _) => apply send_packet_preserves
  | |- kwp (match ?m with pair _ _ => _ end) => apply kwp_bind; [|intros ? ? ?]
  | |- mwp (match ?m with pair _ _ => _ end) => apply mwp_bind; [|intros ? ? ?]
  | |- kwp (match ?x with _ => _ end) => destruct x
  | |- mwp (match ?x with _ => _ end) => destruct x
  | |- _ (_, _) => leaf
  end.

Lemma write_keyboard_preserves (led : Z -> W -> W) val s w :
  (forall q v w, I q w -> I q (led v w)) -> kwp (s, w) ->
  kwp (ps2_write_keyboard update_irq led val s w).
Proof.
  intros Hled H. unfold ps2_write_keyboard, ps2_reset_keyboard.
  wp_walk ltac:(first
    [ match goal with H : kwp _ |- _ => exact H end
    | unfold kwp; apply Hled; match goal with H : kwp _ |- _ => exact H end ]).
  destruct (_ && _); exact H.
Qed.

Lemma write_mouse_preserves val s w : mwp (s, w) -> mwp (ps2_write_mouse update_irq val s w).
Proof.
  intros H. unfold ps2_write_mouse, mouse_command.
  assert (forall v s w, mwp (s, w) -> mwp (detect_step v s, w)) as Hd.
  { intros v s0 w0 H0. unfold detect_step. repeat case_match; exact H0. }
  wp_walk ltac:(first
    [ match goal with H : mwp _ |- _ => exact H end | apply Hd; exact H ]).
Qed.
End Preserve.

End Ps2.
