(* ===== verification/PcKbd.v ===== *)
(** * The i8042 keyboard controller: hw/pckbd.c

    [KBDState] holds the controller's own fields; its [kbd] and [mouse]
    pointers lead to the two PS/2 devices, so the three objects form [i8042].
    The devices' [update_irq] callbacks are [kbd_update_kbd_irq] and
    [kbd_update_aux_irq] acting on the controller: the world of [Ps2] is
    [KBDState * W]. *)

From S2P Require Import Prelude Irq Ps2.
Import Irq Ps2.

Module PcKbd.

Definition KBD_CCMD_PULSE_BITS_3_0 : Z := 0xF0.
Definition KBD_CCMD_RESET : Z := 0xFE.
Definition KBD_CCMD_NO_OP : Z := 0xFF.
Definition KBD_STAT_OBF : Z := 0x01.
Definition KBD_STAT_SELFTEST : Z := 0x04.
Definition KBD_STAT_CMD : Z := 0x08.
Definition KBD_STAT_UNLOCKED : Z := 0x10.
Definition KBD_STAT_MOUSE_OBF : Z := 0x20.
Definition KBD_MODE_KBD_INT : Z := 0x01.
Definition KBD_MODE_MOUSE_INT : Z := 0x02.
Definition KBD_MODE_DISABLE_KBD : Z := 0x10.
Definition KBD_MODE_DISABLE_MOUSE : Z := 0x20.
Definition KBD_MODE_KCC : Z := 0x40.
Definition KBD_OUT_RESET : Z := 0x01.
Definition KBD_OUT_A20 : Z := 0x02.
Definition KBD_OUT_OBF : Z := 0x10.
Definition KBD_OUT_MOUSE_OBF : Z := 0x20.
Definition KBD_PENDING_KBD : Z := 1.
Definition KBD_PENDING_AUX : Z := 2.

Record KBDState := mkKBD {
  write_cmd : Z;    (* if non zero, write data to port 60 is expected *)
  status : Z;
  mode : Z;
  outport : Z;
  pending : Z       (* bitmask of devices with data available *)
}.

#[export] Instance KBDState_eta : Eta KBDState := fun s =>
  mkKBD (write_cmd s) (status s) (mode s) (outport s) (pending s).

Record i8042 := mk8042 {
  ctl : KBDState;
  kbd : PS2KbdState;
  mouse : PS2MouseState
}.

#[export] Instance i8042_eta : Eta i8042 := fun c => mk8042 (ctl c) (kbd c) (mouse c).

Section Controller.
Context {W : Type} (irq_kbd irq_mouse : qemu_irq W) (a20_out : option (qemu_irq W)).
Context (qemu_system_reset_request : W -> W) (kbd_put_ledstate : Z -> W -> W).

Definition kbd_update_irq (s : KBDState) (w : W) : KBDState * W :=
  let s := s <| status := u8 (status s .& ~~ (KBD_STAT_OBF .| KBD_STAT_MOUSE_OBF)) |> in
  let s := s <| outport := u8 (outport s .& ~~ (KBD_OUT_OBF .| KBD_OUT_MOUSE_OBF)) |> in
  let '(s, irq_kbd_level, irq_mouse_level) :=
    if truthy (pending s) then
      let s := s <| status := u8 (status s .| KBD_STAT_OBF) |> in
      let s := s <| outport := u8 (outport s .| KBD_OUT_OBF) |> in
      (* kbd data takes priority over aux data.  *)
      if pending s =? KBD_PENDING_AUX then
        let s := s <| status := u8 (status s .| KBD_STAT_MOUSE_OBF) |> in
        let s := s <| outport := u8 (outport s .| KBD_OUT_MOUSE_OBF) |> in
        (s, 0, if tst (mode s) KBD_MODE_MOUSE_INT then 1 else 0)
      else
        (s, (if tst (mode s) KBD_MODE_KBD_INT && negb (tst (mode s) KBD_MODE_DISABLE_KBD)
             then 1 else 0), 0)
    else (s, 0, 0) in
  let w := qemu_set_irq irq_kbd irq_kbd_level w in
  (s, qemu_set_irq irq_mouse irq_mouse_level w).

Definition kbd_update_kbd_irq (level : Z) (sw : KBDState * W) : KBDState * W :=
  let '(s, w) := sw in
  let s := if truthy level then s <| pending := u8 (pending s .| KBD_PENDING_KBD) |>
           else s <| pending := u8 (pending s .& ~~ KBD_PENDING_KBD) |> in
  kbd_update_irq s w.

Definition kbd_update_aux_irq (level : Z) (sw : KBDState * W) : KBDState * W :=
  let '(s, w) := sw in
  let s := if truthy level then s <| pending := u8 (pending s .| KBD_PENDING_AUX) |>
           else s <| pending := u8 (pending s .& ~~ KBD_PENDING_AUX) |> in
  kbd_update_irq s w.

(** An operation of one of the devices, run against the controller. *)
Definition on_kbd (f : PS2KbdState -> KBDState * W -> PS2KbdState * (KBDState * W))
    (c : i8042) (w : W) : i8042 * W :=
  let '(k, (s, w)) := f (kbd c) (ctl c, w) in (mk8042 s k (mouse c), w).
Definition on_mouse (f : PS2MouseState -> KBDState * W -> PS2MouseState * (KBDState * W))
    (c : i8042) (w : W) : i8042 * W :=
  let '(m, (s, w)) := f (mouse c) (ctl c, w) in (mk8042 s (kbd c) m, w).

(** The LED hook leaves the controller alone. *)
Definition led (v : Z) (sw : KBDState * W) : KBDState * W := (sw.1, kbd_put_ledstate v sw.2).

Definition kbd_read_status (c : i8042) : Z := status (ctl c).

Definition kbd_queue (b aux : Z) (c : i8042) (w : W) : i8042 * W :=
  if truthy aux then on_mouse (mouse_ps2_queue kbd_update_aux_irq b) c w
  else on_kbd (kbd_ps2_queue kbd_update_kbd_irq b) c w.

Definition outport_write (val : Z) (s : KBDState) (w : W) : KBDState * W :=
  let s := s <| outport := u8 val |> in
  let w := match a20_out with
           | Some a20 => qemu_set_irq a20 ((val >> 1) .& 1) w
           | None => w
           end in
  (s, if negb (tst val 1) then qemu_system_reset_request w else w).

Definition with_ctl (f : KBDState -> W -> KBDState * W) (c : i8042) (w : W) : i8042 * W :=
  let '(s, w) := f (ctl c) w in (c <| ctl := s |>, w).
Definition set_mode (v : Z) (s : KBDState) : KBDState := s <| mode := u8 v |>.

Definition kbd_write_command (val : Z) (c : i8042) (w : W) : i8042 * W :=
  let val :=
    if (val .& KBD_CCMD_PULSE_BITS_3_0) =? KBD_CCMD_PULSE_BITS_3_0 then
      if negb (tst val 1) then KBD_CCMD_RESET else KBD_CCMD_NO_OP
    else val in
  match val with
  | 0x20 => (* KBD_CCMD_READ_MODE *) kbd_queue (mode (ctl c)) 0 c w
  | 0x60 | 0xD2 | 0xD3 | 0xD4 | 0xD1 =>
      (* KBD_CCMD_WRITE_MODE, WRITE_OBUF, WRITE_AUX_OBUF, WRITE_MOUSE, WRITE_OUTPORT *)
      (c <| ctl := (ctl c) <| write_cmd := val |> |>, w)
  | 0xA7 => (* KBD_CCMD_MOUSE_DISABLE *)
      (c <| ctl := set_mode (mode (ctl c) .| KBD_MODE_DISABLE_MOUSE) (ctl c) |>, w)
  | 0xA8 => (* KBD_CCMD_MOUSE_ENABLE *)
      (c <| ctl := set_mode (mode (ctl c) .& ~~ KBD_MODE_DISABLE_MOUSE) (ctl c) |>, w)
  | 0xA9 => (* KBD_CCMD_TEST_MOUSE *) kbd_queue 0x00 0 c w
  | 0xAA => (* KBD_CCMD_SELF_TEST *)
      let c := c <| ctl := (ctl c) <| status := u8 (status (ctl c) .| KBD_STAT_SELFTEST) |> |> in
      kbd_queue 0x55 0 c w
  | 0xAB => (* KBD_CCMD_KBD_TEST *) kbd_queue 0x00 0 c w
  | 0xAD => (* KBD_CCMD_KBD_DISABLE *)
      with_ctl (fun s => kbd_update_irq (set_mode (mode s .| KBD_MODE_DISABLE_KBD) s)) c w
  | 0xAE => (* KBD_CCMD_KBD_ENABLE *)
      with_ctl (fun s => kbd_update_irq (set_mode (mode s .& ~~ KBD_MODE_DISABLE_KBD) s)) c w
  | 0xC0 => (* KBD_CCMD_READ_INPORT *) kbd_queue 0x00 0 c w
  | 0xD0 => (* KBD_CCMD_READ_OUTPORT *) kbd_queue (outport (ctl c)) 0 c w
  | 0xDF => (* KBD_CCMD_ENABLE_A20 *)
      let w := match a20_out with Some a20 => qemu_irq_raise a20 w | None => w end in
      (c <| ctl := (ctl c) <| outport := u8 (outport (ctl c) .| KBD_OUT_A20) |> |>, w)
  | 0xDD => (* KBD_CCMD_DISABLE_A20 *)
      let w := match a20_out with Some a20 => qemu_irq_lower a20 w | None => w end in
      (c <| ctl := (ctl c) <| outport := u8 (outport (ctl c) .& ~~ KBD_OUT_A20) |> |>, w)
  | 0xFE => (* KBD_CCMD_RESET *) (c, qemu_system_reset_request w)
  | 0xFF => (* KBD_CCMD_NO_OP *) (c, w)
  | _ => (* unsupported keyboard cmd *) (c, w)
  end.

Definition kbd_read_data (c : i8042) (w : W) : Z * (i8042 * W) :=
  if pending (ctl c) =? KBD_PENDING_AUX then
    let '(val, (m, (s, w))) := ps2_read_data kbd_update_aux_irq (mcommon (mouse c)) (ctl c, w) in
    (val, (mk8042 s (kbd c) ((mouse c) <| mcommon := m |>), w))
  else
    let '(val, (k, (s, w))) := ps2_read_data kbd_update_kbd_irq (kcommon (kbd c)) (ctl c, w) in
    (val, (mk8042 s ((kbd c) <| kcommon := k |>) (mouse c), w)).

Definition kbd_write_data (val : Z) (c : i8042) (w : W) : i8042 * W :=
  let '(c, w) :=
    match write_cmd (ctl c) with
    | 0 => on_kbd (ps2_write_keyboard kbd_update_kbd_irq led val) c w
    | 0x60 => (* KBD_CCMD_WRITE_MODE *)
        let c := c <| ctl := set_mode val (ctl c) |> in
        let c := c <| kbd := ps2_keyboard_set_translation
                               (b2z (tst (mode (ctl c)) KBD_MODE_KCC)) (kbd c) |> in
        with_ctl kbd_update_irq c w
    | 0xD2 => (* KBD_CCMD_WRITE_OBUF *) kbd_queue val 0 c w
    | 0xD3 => (* KBD_CCMD_WRITE_AUX_OBUF *) kbd_queue val 1 c w
    | 0xD1 => (* KBD_CCMD_WRITE_OUTPORT *) with_ctl (outport_write val) c w
    | 0xD4 => (* KBD_CCMD_WRITE_MOUSE *) on_mouse (ps2_write_mouse kbd_update_aux_irq val) c w
    | _ => (c, w)
    end in
  (c <| ctl := (ctl c) <| write_cmd := 0 |> |>, w).

Definition kbd_reset (s : KBDState) : KBDState :=
  let s := s <| mode := KBD_MODE_KBD_INT .| KBD_MODE_MOUSE_INT |> in
  let s := s <| status := KBD_STAT_CMD .| KBD_STAT_UNLOCKED |> in
  s <| outport := KBD_OUT_RESET .| KBD_OUT_A20 |>.

(** The reset handlers in the order [i8042_initfn] registers them. *)
Definition i8042_reset (c : i8042) (w : W) : i8042 * W :=
  let '(c, w) := on_kbd (ps2_kbd_reset kbd_update_kbd_irq) c w in
  let '(c, w) := on_mouse (ps2_mouse_reset kbd_update_aux_irq) c w in
  (c <| ctl := kbd_reset (ctl c) |>, w).

(** Host input events. *)
Definition kbd_put_keycode (keycode : Z) (c : i8042) (w : W) : i8042 * W :=
  on_kbd (ps2_put_keycode kbd_update_kbd_irq keycode) c w.
Definition kbd_mouse_event (dx dy dz buttons : Z) (c : i8042) (w : W) : option (i8042 * W) :=
  '(m, (s, w)) ← ps2_mouse_event kbd_update_aux_irq dx dy dz buttons (mouse c) (ctl c, w);
  Some (mk8042 s (kbd c) m, w).
Definition i8042_isa_mouse_fake_event (c : i8042) (w : W) : option (i8042 * W) :=
  '(m, (s, w)) ← ps2_mouse_fake_event kbd_update_aux_irq (mouse c) (ctl c, w);
  Some (mk8042 s (kbd c) m, w).

(** The memory-mapped variant. *)
Definition kbd_mm_readb (mask addr : Z) (c : i8042) (w : W) : Z * (i8042 * W) :=
  if tst addr mask then (kbd_read_status c .& 0xff, (c, w))
  else let '(v, cw) := kbd_read_data c w in (v .& 0xff, cw).
Definition kbd_mm_writeb (mask addr value : Z) (c : i8042) (w : W) : i8042 * W :=
  if tst addr mask then kbd_write_command (value .& 0xff) c w
  else kbd_write_data (value .& 0xff) c w.

End Controller.

(** The zeroed controller of [i8042_initfn], with its devices. *)
Definition i8042_initfn : i8042 := mk8042 (mkKBD 0 0 0 0 0) ps2_kbd_init ps2_mouse_init.

(** ** The controller's invariant

    What the machine sees of the two interrupt lines: their present levels.  The
    other outputs of the controller do not touch them. *)

Class KbdLines {W : Type} (irq_kbd irq_mouse : qemu_irq W) (a20_out : option (qemu_irq W))
    (reset_request : W -> W) (put_leds : Z -> W -> W) := {
  kbd_level : W -> Z;
  mouse_level : W -> Z;
  lines_kbd : forall l w, kbd_level (qemu_set_irq irq_kbd l w) = l
                          /\ mouse_level (qemu_set_irq irq_kbd l w) = mouse_level w;
  lines_mouse : forall l w, mouse_level (qemu_set_irq irq_mouse l w) = l
                            /\ kbd_level (qemu_set_irq irq_mouse l w) = kbd_level w;
  lines_a20 : forall a20 l w, a20_out = Some a20 ->
    kbd_level (qemu_set_irq a20 l w) = kbd_level w
    /\ mouse_level (qemu_set_irq a20 l w) = mouse_level w;
  lines_reset : forall w, kbd_level (reset_request w) = kbd_level w
                          /\ mouse_level (reset_request w) = mouse_level w;
  lines_leds : forall v w, kbd_level (put_leds v w) = kbd_level w
                           /\ mouse_level (put_leds v w) = mouse_level w
}.

(** The levels of the keyboard and the mouse line that data from the keyboard
    ([a]) or the mouse ([b]) asks for under mode byte [m]. *)
Definition want_kbd (m : Z) (a : bool) : Z :=
  b2z (a && tst m KBD_MODE_KBD_INT && negb (tst m KBD_MODE_DISABLE_KBD)).
Definition want_mouse (m : Z) (a b : bool) : Z := b2z (negb a && b && tst m KBD_MODE_MOUSE_INT).

Definition waiting (l : list Z) : bool := negb (bool_decide (l = [])).

Section Invariant.
Context {W : Type} (irq_kbd irq_mouse : qemu_irq W) (a20_out : option (qemu_irq W)).
Context (reset_request : W -> W) (put_leds : Z -> W -> W).
Context `{!KbdLines irq_kbd irq_mouse a20_out reset_request put_leds}.

Abbreviation upd_kbd := (kbd_update_kbd_irq irq_kbd irq_mouse).
Abbreviation upd_aux := (kbd_update_aux_irq irq_kbd irq_mouse).
Abbreviation leds := (led put_leds).

(** The controller is in step with devices that have ([a], [b]) data waiting. *)
Record in_step (a b : bool) (sw : KBDState * W) : Prop := {
  step_pending : pending sw.1 = b2z a + 2 * b2z b;
  step_obf : Z.testbit (status sw.1) 0 = a || b;
  step_mouse_obf : Z.testbit (status sw.1) 5 = negb a && b;
  step_kbd_line : kbd_level sw.2 = want_kbd (mode sw.1) a;
  step_mouse_line : mouse_level sw.2 = want_mouse (mode sw.1) a b
}.

Lemma update_irq_step a b s w : pending s = b2z a + 2 * b2z b ->
  let '(s', w') := kbd_update_irq irq_kbd irq_mouse s w in
  in_step a b (s', w') /\ mode s' = mode s /\ write_cmd s' = write_cmd s.
Proof.
  intros Hp. unfold kbd_update_irq. cbn [over pending]. rewrite Hp.
  change KBD_STAT_OBF with (1 << 0). change KBD_STAT_MOUSE_OBF with (1 << 5).
  destruct a, b; cbn [b2z Z.add Z.mul truthy Z.eqb Pos.eqb negb KBD_PENDING_AUX];
    cbn [over pending mode status outport write_cmd]; (split; [|done]); constructor;
    cbn [over pending mode status fst snd]; try exact Hp; autorewrite with bits; try reflexivity;
    try (rewrite (proj2 (lines_mouse _ _)), (proj1 (lines_kbd _ _)));
    try (rewrite (proj1 (lines_mouse _ _))); unfold want_kbd, want_mouse; cbn [andb negb]; try reflexivity;
    match goal with |- context [if ?c then _ else _] => destruct c; reflexivity end.
Qed.

Lemma upd_kbd_step a b lvl sw : pending sw.1 = b2z a + 2 * b2z b ->
  in_step (truthy lvl) b (upd_kbd lvl sw).
Proof.
  destruct sw as [s w]. cbn [fst]. intros Hp. unfold kbd_update_kbd_irq.
  match goal with |- context [kbd_update_irq _ _ ?s1 w] =>
    pose proof (update_irq_step (truthy lvl) b s1 w) as H;
    destruct (kbd_update_irq irq_kbd irq_mouse s1 w) end.
  apply H. destruct (truthy lvl); cbn [over pending]; rewrite Hp; destruct a, b; reflexivity.
Qed.

Lemma upd_aux_step a b lvl sw : pending sw.1 = b2z a + 2 * b2z b ->
  in_step a (truthy lvl) (upd_aux lvl sw).
Proof.
  destruct sw as [s w]. cbn [fst]. intros Hp. unfold kbd_update_aux_irq.
  match goal with |- context [kbd_update_irq _ _ ?s1 w] =>
    pose proof (update_irq_step a (truthy lvl) s1 w) as H;
    destruct (kbd_update_irq irq_kbd irq_mouse s1 w) end.
  apply H. destruct (truthy lvl); cbn [over pending]; rewrite Hp; destruct a, b; reflexivity.
Qed.

(** The relation between one device's queue and the controller. *)
Definition kbd_rel (b : bool) (q : PS2Queue) (sw : KBDState * W) : Prop :=
  queue_ok q /\ in_step (waiting (contents q)) b sw.
Definition mouse_rel (a : bool) (q : PS2Queue) (sw : KBDState * W) : Prop :=
  queue_ok q /\ in_step a (waiting (contents q)) sw.

Lemma push_waiting b l : (Z.of_nat (length l) <? 256) = true -> waiting (push b l) = true.
Proof. unfold push. intros ->. now destruct l. Qed.

Lemma kbd_rel_queue m b s sw : kbd_rel m (queue s) sw ->
  let '(s', sw') := ps2_queue upd_kbd b s sw in kbd_rel m (queue s') sw'.
Proof.
  intros [Hq Hs]. pose proof (ps2_queue_spec upd_kbd b s sw Hq) as H.
  destruct (ps2_queue upd_kbd b s sw) as [s' sw']. destruct H as (Hq' & Hc & _ & ->).
  split; [done|]. rewrite Hc. rewrite <- (length_contents _ Hq).
  destruct (_ <? 256) eqn:E.
  - rewrite push_waiting by done. apply (upd_kbd_step _ _ 1 _ (step_pending _ _ _ Hs)).
  - unfold push. now rewrite E.
Qed.

Lemma mouse_rel_queue k b s sw : mouse_rel k (queue s) sw ->
  let '(s', sw') := ps2_queue upd_aux b s sw in mouse_rel k (queue s') sw'.
Proof.
  intros [Hq Hs]. pose proof (ps2_queue_spec upd_aux b s sw Hq) as H.
  destruct (ps2_queue upd_aux b s sw) as [s' sw']. destruct H as (Hq' & Hc & _ & ->).
  split; [done|]. rewrite Hc. rewrite <- (length_contents _ Hq).
  destruct (_ <? 256) eqn:E.
  - rewrite push_waiting by done. apply (upd_aux_step _ _ 1 _ (step_pending _ _ _ Hs)).
  - unfold push. now rewrite E.
Qed.

Definition kq (c : i8042) : PS2Queue := queue (kcommon (kbd c)).
Definition mq (c : i8042) : PS2Queue := queue (mcommon (mouse c)).

(** The invariant of the whole controller. *)
Record i8042_ok (c : i8042) (w : W) : Prop := {
  ok_kq : queue_ok (kq c);
  ok_mq : queue_ok (mq c);
  ok_step : in_step (waiting (contents (kq c))) (waiting (contents (mq c))) (ctl c, w)
}.

Definition okp (m : i8042 * W) : Prop := i8042_ok m.1 m.2.

Lemma on_kbd_ok f c w : i8042_ok c w ->
  (forall m s sw, kwp (kbd_rel m) (s, sw) -> kwp (kbd_rel m) (f s sw)) ->
  okp (on_kbd f c w).
Proof.
  intros [Hk Hm Hs] Hf. unfold on_kbd.
  specialize (Hf (waiting (contents (mq c))) (kbd c) (ctl c, w) (conj Hk Hs)).
  destruct (f (kbd c) (ctl c, w)) as [k [s w']]. destruct Hf as [Hk' Hs']. by constructor.
Qed.

Lemma on_mouse_ok f c w : i8042_ok c w ->
  (forall k s sw, mwp (mouse_rel k) (s, sw) -> mwp (mouse_rel k) (f s sw)) ->
  okp (on_mouse f c w).
Proof.
  intros [Hk Hm Hs] Hf. unfold on_mouse.
  specialize (Hf (waiting (contents (kq c))) (mouse c) (ctl c, w) (conj Hm Hs)).
  destruct (f (mouse c) (ctl c, w)) as [m [s w']]. destruct Hf as [Hm' Hs']. by constructor.
Qed.

Lemma kbd_queue_ok b aux c w : i8042_ok c w ->
  okp (kbd_queue irq_kbd irq_mouse b aux c w).
Proof.
  intros H. unfold kbd_queue. destruct (truthy aux).
  - apply on_mouse_ok; [done|]. intros. apply mwp_queue; [apply mouse_rel_queue|done].
  - apply on_kbd_ok; [done|]. intros. apply kwp_queue; [apply kbd_rel_queue|done].
Qed.

(** Changes of the controller that its invariant does not see. *)
Lemma in_step_ext a b s w s' w' : in_step a b (s, w) -> pending s' = pending s ->
  Z.testbit (status s') 0 = Z.testbit (status s) 0 ->
  Z.testbit (status s') 5 = Z.testbit (status s) 5 ->
  (forall i, In i [0; 1; 4] -> Z.testbit (mode s') i = Z.testbit (mode s) i) ->
  kbd_level w' = kbd_level w -> mouse_level w' = mouse_level w -> in_step a b (s', w').
Proof.
  intros [Hp Ho Hm Hk Hl] E1 E2 E3 E4 E5 E6. cbn [fst snd] in *.
  pose proof (E4 0 ltac:(cbn; auto)) as M0. pose proof (E4 1 ltac:(cbn; auto)) as M1.
  pose proof (E4 4 ltac:(cbn; auto)) as M4.
  unfold want_kbd, want_mouse in *. revert Hk Hl.
  change KBD_MODE_KBD_INT with (1 << 0). change KBD_MODE_MOUSE_INT with (1 << 1).
  change KBD_MODE_DISABLE_KBD with (1 << 4). rewrite !tst_bit by lia. intros Hk Hl.
  constructor; unfold want_kbd, want_mouse; cbn [fst snd];
    change KBD_MODE_KBD_INT with (1 << 0); change KBD_MODE_MOUSE_INT with (1 << 1);
    change KBD_MODE_DISABLE_KBD with (1 << 4); rewrite ?tst_bit by lia; congruence.
Qed.

Ltac ok_ext H := destruct H as [?Hk ?Hm ?Hs]; constructor; [exact Hk|exact Hm|];
  eapply in_step_ext; [exact Hs|try (intros; reflexivity)..].

Lemma with_update_ok f c w : i8042_ok c w -> pending (f (ctl c)) = pending (ctl c) ->
  okp (with_ctl (fun s => kbd_update_irq irq_kbd irq_mouse (f s)) c w).
Proof.
  intros [Hk Hm Hs] Hf. unfold with_ctl.
  pose proof (update_irq_step (waiting (contents (kq c))) (waiting (contents (mq c))) (f (ctl c)) w) as H.
  destruct (kbd_update_irq irq_kbd irq_mouse (f (ctl c)) w) as [s w'].
  destruct H as [H _]; [rewrite Hf; apply (step_pending _ _ _ Hs)|]. by constructor.
Qed.

Lemma a20_lines l w : let w' := match a20_out with Some a20 => qemu_set_irq a20 l w | None => w end in
  kbd_level w' = kbd_level w /\ mouse_level w' = mouse_level w.
Proof. destruct a20_out as [a|] eqn:E; [now apply lines_a20|done]. Qed.

Lemma write_command_ok val c w : i8042_ok c w ->
  okp (kbd_write_command irq_kbd irq_mouse a20_out reset_request val c w).
Proof.
  intros H. unfold kbd_write_command. cbv zeta.
  assert (forall b, okp (kbd_queue irq_kbd irq_mouse b 0 c w)) as Hq
    by (intros; now apply kbd_queue_ok).
  pose proof (a20_lines 1 w) as [A1 A2]. pose proof (a20_lines 0 w) as [A3 A4].
  pose proof (lines_reset w) as [R1 R2].
  set (v := if _ =? _ then _ else val). clearbody v.
  repeat lazymatch goal with |- okp (match ?x with _ => _ end) => destruct x end;
    try exact H; try apply Hq; try (now apply with_update_ok).
  all: try (ok_ext H; done).
  - change KBD_MODE_DISABLE_MOUSE with (1 << 5). ok_ext H.
    intros i [<-|[<-|[<-|[]]]]; cbn [over ctl set_mode mode fst]; autorewrite with bits; reflexivity.
  - apply kbd_queue_ok. change KBD_STAT_SELFTEST with (1 << 2).
    ok_ext H; cbn [over ctl status]; autorewrite with bits; reflexivity.
  - change KBD_MODE_DISABLE_MOUSE with (1 << 5). ok_ext H.
    intros i [<-|[<-|[<-|[]]]]; cbn [over ctl set_mode mode fst]; autorewrite with bits; reflexivity.
Qed.

Lemma outport_write_ok val c w : i8042_ok c w ->
  okp (with_ctl (outport_write a20_out reset_request val) c w).
Proof.
  intros H. unfold with_ctl, outport_write.
  pose proof (a20_lines ((val >> 1) .& 1) w) as [A1 A2]. cbv zeta in *.
  set (w1 := match a20_out with Some a => _ | None => w end) in *. clearbody w1.
  pose proof (lines_reset w1) as [R1 R2].
  destruct (negb (tst val 1)); ok_ext H; cbn [snd]; congruence.
Qed.

Lemma write_data_ok val c w : i8042_ok c w ->
  okp (kbd_write_data irq_kbd irq_mouse a20_out reset_request put_leds val c w).
Proof.
  intros H. unfold kbd_write_data.
  match goal with |- okp (match ?m with pair _ _ => _ end) => assert (okp m) as Hm;
    [|destruct m as [c1 w1]; ok_ext Hm] end.
  repeat lazymatch goal with |- okp (match ?x with _ => _ end) => destruct x end; try exact H;
    try (now apply kbd_queue_ok); try (now apply outport_write_ok).
  - apply on_kbd_ok; [done|]. intros m s sw Hs.
    apply write_keyboard_preserves; [apply kbd_rel_queue| |done].
    intros q v [s0 w0] [Hq0 Hs0]. split; [done|]. pose proof (lines_leds v w0) as [L1 L2].
    eapply in_step_ext; [exact Hs0|try (intros; reflexivity)..]; done.
  - apply on_mouse_ok; [done|]. intros. apply write_mouse_preserves; [apply mouse_rel_queue|done].
  - cbv zeta. pose proof (with_update_ok (set_mode val) c w H eq_refl) as Hu.
    revert Hu. unfold with_ctl. cbn [over ctl kbd].
    destruct (kbd_update_irq irq_kbd irq_mouse (set_mode val (ctl c)) w). intros [H1 H2 H3]. constructor; [exact H1|exact H2|exact H3].
Qed.

(** What reading the data port returns and leaves. *)
Lemma read_data_spec c w : i8042_ok c w ->
  let '(v, (c', w')) := kbd_read_data irq_kbd irq_mouse c w in
  i8042_ok c' w' /\
  match contents (kq c), contents (mq c) with
  | b :: rest, _ => v = b /\ contents (kq c') = rest /\ mq c' = mq c
  | [], b :: rest => v = b /\ contents (mq c') = rest /\ kq c' = kq c
  | [], [] => c' = c /\ w' = w
  end.
Proof.
  intros Hok. pose proof Hok as [Hk Hm Hs].
  pose proof (step_pending _ _ _ Hs) as Hp. cbn [fst] in Hp. unfold kbd_read_data. rewrite Hp.
  destruct (contents (kq c)) as [|b rest] eqn:Ek; [destruct (contents (mq c)) as [|b rest] eqn:Em|].
  - change (b2z (waiting []) + 2 * b2z (waiting []) =? KBD_PENDING_AUX) with false. cbv iota.
    unfold ps2_read_data. fold (kq c). rewrite (proj1 (contents_nil _ Hk) Ek). cbn [Z.eqb].
    assert (mk8042 (ctl c) ((kbd c) <| kcommon := kcommon (kbd c) |>) (mouse c) = c) as ->
      by now destruct c as [? [] ?]. done.
  - change (b2z (waiting []) + 2 * b2z (waiting (b :: rest)) =? KBD_PENDING_AUX) with true. cbv iota.
    pose proof (ps2_read_spec upd_aux (mcommon (mouse c)) (ctl c, w) b rest Hm Em) as Hr.
    destruct (ps2_read_data upd_aux (mcommon (mouse c)) (ctl c, w)) as [v [m sw]].
    destruct Hr as (-> & Hq & Hc & _ & Hw & _).
    assert (in_step false (waiting rest) sw) as Hs'.
    { rewrite Hw. change (negb (bool_decide (rest = []))) with (waiting rest).
      pose proof (upd_aux_step false true 0 (ctl c, w) Hp) as H0.
      pose proof (upd_aux_step false false (b2z (waiting rest)) _ (step_pending _ _ _ H0)) as H1.
      destruct (waiting rest); exact H1. }
    destruct sw as [s w']. split; [|done]. constructor; [exact Hk|exact Hq|].
    change (in_step (waiting (contents (kq c))) (waiting (contents (queue m))) (s, w')).
    rewrite Ek, Hc. exact Hs'.
  - assert ((b2z (waiting (b :: rest)) + 2 * b2z (waiting (contents (mq c))) =? KBD_PENDING_AUX) = false)
      as -> by now destruct (waiting (contents (mq c))).
    pose proof (ps2_read_spec upd_kbd (kcommon (kbd c)) (ctl c, w) b rest Hk Ek) as Hr.
    destruct (ps2_read_data upd_kbd (kcommon (kbd c)) (ctl c, w)) as [v [k sw]].
    destruct Hr as (-> & Hq & Hc & _ & Hw & _).
    assert (in_step (waiting rest) (waiting (contents (mq c))) sw) as Hs'.
    { rewrite Hw. change (negb (bool_decide (rest = []))) with (waiting rest).
      pose proof (upd_kbd_step true _ 0 (ctl c, w) Hp) as H0.
      pose proof (upd_kbd_step false _ (b2z (waiting rest)) _ (step_pending _ _ _ H0)) as H1.
      destruct (waiting rest); exact H1. }
    destruct sw as [s w']. split; [|done]. constructor; [exact Hq|exact Hm|].
    change (in_step (waiting (contents (queue k))) (waiting (contents (mq c))) (s, w')).
    rewrite Hc. exact Hs'.
Qed.

Lemma put_keycode_ok k c w : i8042_ok c w -> okp (kbd_put_keycode irq_kbd irq_mouse k c w).
Proof.
  intros H. apply on_kbd_ok; [done|]. intros. apply put_keycode_preserves; [apply kbd_rel_queue|done].
Qed.

Lemma mouse_event_ok dx dy dz b c w r : i8042_ok c w ->
  kbd_mouse_event irq_kbd irq_mouse dx dy dz b c w = Some r -> okp r.
Proof.
  intros [Hk Hm Hs] E. unfold kbd_mouse_event in E.
  pose proof (mouse_event_preserves upd_aux (mouse_rel (waiting (contents (kq c))))
    (mouse_rel_queue _) dx dy dz b (mouse c) (ctl c, w) (conj Hm Hs)) as H.
  destruct (ps2_mouse_event _ dx dy dz b (mouse c) (ctl c, w)) as [[m [s w']]|]; [|done].
  cbn in E. simplify_eq. destruct H as [H1 H2]. by constructor.
Qed.

(** The reset handlers establish the invariant from any state whose queues are
    allocated and whose pending mask is a mask. *)
Lemma reset_ok a b c w : length (data (kq c)) = 256%nat -> length (data (mq c)) = 256%nat ->
  pending (ctl c) = b2z a + 2 * b2z b -> okp (i8042_reset irq_kbd irq_mouse c w).
Proof.
  intros Lk Lm Hp. unfold i8042_reset, on_kbd, on_mouse, ps2_kbd_reset, ps2_mouse_reset, ps2_common_reset.
  pose proof (upd_kbd_step a b 0 (ctl c, w) Hp) as H1.
  cbn [ctl kbd mouse]. destruct (upd_kbd 0 (ctl c, w)) as [s1 w1].
  pose proof (upd_aux_step false b 0 (s1, w1) (step_pending _ _ _ H1)) as H2.
  cbn [ctl kbd mouse]. destruct (upd_aux 0 (s1, w1)) as [s2 w2].
  destruct H2 as [H2p _ _ H2k H2m]. cbn [fst snd] in *.
  constructor.
  - constructor; cbn; done || lia.
  - constructor; cbn; done || lia.
  - constructor; cbn; try done.
Qed.

(** Everything that happens to the controller: guest accesses to its two ports,
    keys and mouse movements, machine reset. *)
Inductive kbd_step : i8042 * W -> i8042 * W -> Prop :=
| kstep_command val c w r :
    kbd_write_command irq_kbd irq_mouse a20_out reset_request val c w = r -> kbd_step (c, w) r
| kstep_data val c w r :
    kbd_write_data irq_kbd irq_mouse a20_out reset_request put_leds val c w = r -> kbd_step (c, w) r
| kstep_read c w v r : kbd_read_data irq_kbd irq_mouse c w = (v, r) -> kbd_step (c, w) r
| kstep_key k c w r : kbd_put_keycode irq_kbd irq_mouse k c w = r -> kbd_step (c, w) r
| kstep_mouse dx dy dz b c w r :
    kbd_mouse_event irq_kbd irq_mouse dx dy dz b c w = Some r -> kbd_step (c, w) r
| kstep_reset c w r : i8042_reset irq_kbd irq_mouse c w = r -> kbd_step (c, w) r.

Lemma kbd_step_ok x y : okp x -> kbd_step x y -> okp y.
Proof.
  intros H Hxy. destruct Hxy; subst.
  - now apply write_command_ok.
  - now apply write_data_ok.
  - pose proof (read_data_spec c w H) as Hr. rewrite H0 in Hr. destruct r. tauto.
  - now apply put_keycode_ok.
  - eapply mouse_event_ok; eauto.
  - destruct H as [[Lk _ _ _] [Lm _ _ _] Hs]. eapply reset_ok; [done|done|apply (step_pending _ _ _ Hs)].
Qed.

(** C35: The keyboard controller stays in step with its devices: in every state
    reachable from reset, output-buffer-full is set exactly when the keyboard
    or the mouse has data, the mouse bit exactly when only the mouse has, the
    pending mask says which, the two interrupt lines have exactly the levels
    the data and the mode byte ask for, and they are never both raised. *)
Theorem i8042_reachable_in_step w0 c w :
  rtc kbd_step (i8042_reset irq_kbd irq_mouse i8042_initfn w0) (c, w) ->
  let a := waiting (contents (kq c)) in
  let b := waiting (contents (mq c)) in
  pending (ctl c) = b2z a + 2 * b2z b
  /\ Z.testbit (kbd_read_status c) 0 = a || b /\ Z.testbit (kbd_read_status c) 5 = negb a && b
  /\ kbd_level w = want_kbd (mode (ctl c)) a /\ mouse_level w = want_mouse (mode (ctl c)) a b
  /\ kbd_level w * mouse_level w = 0.
Proof.
  intros Hr a b. assert (okp (c, w)) as [_ _ [Hp Ho Hm Hk Hl]].
  { refine (rtc_invariant kbd_step okp kbd_step_ok _ _ Hr _).
    apply (reset_ok false false); reflexivity. }
  cbn [fst snd] in *. repeat (split; [assumption|]). rewrite Hk, Hl.
  unfold want_kbd, want_mouse. destruct (waiting (contents (kq c))); cbn [andb negb b2z]; lia.
Qed.

(** Reading the data port in any reachable state returns the oldest
    keyboard byte when there is one, else the oldest mouse byte, removes it
    from that queue only, and changes nothing when both queues are empty. *)
Theorem i8042_read_data_correct w0 c w :
  rtc kbd_step (i8042_reset irq_kbd irq_mouse i8042_initfn w0) (c, w) ->
  let '(v, (c', w')) := kbd_read_data irq_kbd irq_mouse c w in
  match contents (kq c), contents (mq c) with
  | b :: rest, _ => v = b /\ contents (kq c') = rest /\ mq c' = mq c
  | [], b :: rest => v = b /\ contents (mq c') = rest /\ kq c' = kq c
  | [], [] => c' = c /\ w' = w
  end.
Proof.
  intros Hr. assert (okp (c, w)) as Hok.
  { refine (rtc_invariant kbd_step okp kbd_step_ok _ _ Hr _).
    apply (reset_ok false false); reflexivity. }
  pose proof (read_data_spec c w Hok) as H.
  destruct (kbd_read_data irq_kbd irq_mouse c w) as [v [c' w']]. tauto.
Qed.
End Invariant.

(** ** A concrete machine: the levels of the two lines *)

Definition line_kbd : qemu_irq (Z * Z) := Some (mkIRQ (fun _ l w => (l, w.2)) 1).
Definition line_mouse : qemu_irq (Z * Z) := Some (mkIRQ (fun _ l w => (w.1, l)) 12).

#[export] Instance level_world : KbdLines line_kbd line_mouse None (fun w => w) (fun _ w => w).
Proof. by refine {| kbd_level := fst; mouse_level := snd |}. Defined.

Definition after_reset : i8042 * (Z * Z) := i8042_reset line_kbd line_mouse i8042_initfn (0, 0).

(** A key press after reset. *)
Definition after_key : i8042 * (Z * Z) :=
  kbd_put_keycode line_kbd line_mouse 0x1e after_reset.1 after_reset.2.

Lemma key_reachable :
  rtc (kbd_step line_kbd line_mouse None (fun w => w) (fun _ w => w)) after_reset
    (after_key.1, after_key.2).
Proof.
  apply rtc_once. rewrite <- (surjective_pairing after_key), (surjective_pairing after_reset).
  apply kstep_key with (k := 0x1e). unfold after_key. reflexivity.
Defined.

Lemma i8042_reachable_in_step_witness :
  kbd_level after_key.2 = 1 /\ Z.testbit (kbd_read_status after_key.1) 0 = true.
Proof.
  destruct (i8042_reachable_in_step line_kbd line_mouse None (fun w => w) (fun _ w => w)
    (0, 0) after_key.1 after_key.2 key_reachable) as (_ & Ho & _ & Hk & _).
  rewrite Hk, Ho. split; vm_compute; reflexivity.
Defined.

Lemma i8042_read_data_correct_witness :
  (kbd_read_data line_kbd line_mouse after_key.1 after_key.2).1 = 0x1e.
Proof.
  pose proof (i8042_read_data_correct line_kbd line_mouse None (fun w => w) (fun _ w => w)
    (0, 0) after_key.1 after_key.2 key_reachable) as H.
  replace (contents (kq after_key.1)) with [0x1e] in H by (vm_compute; reflexivity).
  destruct (kbd_read_data line_kbd line_mouse after_key.1 after_key.2) as [v [c' w']].
  apply H.
Defined.

(** A machine reset leaves scan-code set 0: the guest's query of the set (0xF0,
    then 0) is acknowledged for the command byte only and never answered. *)
Lemma scancode_query_unanswered :
  let '(c, w) := kbd_write_data line_kbd line_mouse None (fun w => w) (fun _ w => w) 0xF0
                   after_reset.1 after_reset.2 in
  let '(c, w) := kbd_write_data line_kbd line_mouse None (fun w => w) (fun _ w => w) 0 c w in
  contents (kq c) = [KBD_REPLY_ACK].
Proof. vm_compute. reflexivity. Qed.

(** Scanning disabled by the guest (0xF5) does not stop key events. *)
Lemma disabled_keyboard_still_scans :
  let '(c, w) := kbd_write_data line_kbd line_mouse None (fun w => w) (fun _ w => w) 0xF5
                   after_reset.1 after_reset.2 in
  let '(c, w) := kbd_put_keycode line_kbd line_mouse 0x1e c w in
  scan_enabled (kbd c) = 0 /\ contents (kq c) = [KBD_REPLY_ACK; 0x1c].
Proof. vm_compute. split; reflexivity. Qed.

End PcKbd.
