(* ===== verification/Dma.v ===== *)
(** * The two 8237 DMA controllers: hw/dma.c

    [dma_regs] and [dma_cont] are the structs of the same names and [dma_state]
    is the array [dma_controllers] with the world [W] of the attached devices.
    A transfer handler is called from [channel_run] with the whole state, since
    devices call back into this file from it.  Guest memory is the argument
    [cpu_physical_memory_read] / [cpu_physical_memory_write]. *)

From S2P Require Import Prelude Irq.
Import Irq.

Module Dma.

Record dma_regs := mkRegs {
  now : list Z;      (* int [2] *)
  base : list Z;     (* uint16_t [2] *)
  mode : Z;
  page : Z;
  pageh : Z;
  dack : Z;
  eop : Z
}.

#[export] Instance dma_regs_eta : Eta dma_regs := fun r =>
  mkRegs (now r) (base r) (mode r) (page r) (pageh r) (dack r) (eop r).

Definition ADDR : Z := 0.
Definition COUNT : Z := 1.

Record dma_cont := mkCont {
  status : Z;
  command : Z;
  mask : Z;
  flip_flop : Z;
  dshift : Z;
  regs : list dma_regs   (* [4] *)
}.

#[export] Instance dma_cont_eta : Eta dma_cont := fun d =>
  mkCont (status d) (command d) (mask d) (flip_flop d) (dshift d) (regs d).

Definition CMD_NOT_SUPPORTED : Z := 0x01 .| 0x02 .| 0x08 .| 0x10 .| 0x20 .| 0x40 .| 0x80.

Definition channels : list Z := [-1; 2; 3; 1; -1; -1; -1; 0].

Definition regs_zero : dma_regs := mkRegs [0; 0] [0; 0] 0 0 0 0 0.
Definition cont_zero : dma_cont := mkCont 0 0 0 0 0 (replicate 4 regs_zero).

(** [d->regs[i]] and its update. *)
Definition reg (d : dma_cont) (i : Z) : dma_regs := nth (Z.to_nat i) (regs d) regs_zero.
Definition upd_reg (i : Z) (f : dma_regs -> dma_regs) (d : dma_cont) : dma_cont :=
  d <| regs := <[Z.to_nat i := f (reg d i)]> (regs d) |>.

Definition write_page (nport data : Z) (d : dma_cont) : dma_cont :=
  let ichan := aget channels (nport .& 7) in
  if -1 =? ichan then d else upd_reg ichan (fun r => r <| page := u8 data |>) d.

Definition write_pageh (nport data : Z) (d : dma_cont) : dma_cont :=
  let ichan := aget channels (nport .& 7) in
  if -1 =? ichan then d else upd_reg ichan (fun r => r <| pageh := u8 data |>) d.

Definition read_page (nport : Z) (d : dma_cont) : Z :=
  let ichan := aget channels (nport .& 7) in
  if -1 =? ichan then 0 else page (reg d ichan).

Definition read_pageh (nport : Z) (d : dma_cont) : Z :=
  let ichan := aget channels (nport .& 7) in
  if -1 =? ichan then 0 else pageh (reg d ichan).

Definition init_chan (ichan : Z) (d : dma_cont) : dma_cont :=
  upd_reg ichan (fun r =>
    let r := r <| now := aset (now r) ADDR (aget (base r) ADDR << dshift d) |> in
    r <| now := aset (now r) COUNT 0 |>) d.

Definition getff (d : dma_cont) : Z * dma_cont :=
  let ff := flip_flop d in
  (ff, d <| flip_flop := b2z (negb (truthy ff)) |>).

Definition read_chan (nport : Z) (d : dma_cont) : Z * dma_cont :=
  let iport := (nport >> dshift d) .& 0x0f in
  let ichan := iport >> 1 in
  let nreg := iport .& 1 in
  let r := reg d ichan in
  let dir := if truthy ((mode r >> 5) .& 1) then -1 else 1 in
  let '(ff, d) := getff d in
  let val := if truthy nreg then (aget (base r) COUNT << dshift d) - aget (now r) COUNT
             else aget (now r) ADDR + aget (now r) COUNT * dir in
  ((val >> (dshift d + (ff << 3))) .& 0xff, d).

Definition write_chan (nport data : Z) (d : dma_cont) : dma_cont :=
  let iport := (nport >> dshift d) .& 0x0f in
  let ichan := iport >> 1 in
  let nreg := iport .& 1 in
  let '(ff, d) := getff d in
  if truthy ff then
    let d := upd_reg ichan (fun r => r <| base :=
               aset (base r) nreg ((aget (base r) nreg .& 0xff) .| ((data << 8) .& 0xff00)) |>) d in
    init_chan ichan d
  else
    upd_reg ichan (fun r => r <| base :=
      aset (base r) nreg ((aget (base r) nreg .& 0xff00) .| (data .& 0xff)) |>) d.

Definition read_cont (nport : Z) (d : dma_cont) : Z * dma_cont :=
  let iport := (nport >> dshift d) .& 0x0f in
  match iport with
  | 0x08 => (* status *) (status d, d <| status := u8 (status d .& 0xf0) |>)
  | 0x0f => (* mask *) (mask d, d)
  | _ => (0, d)
  end.

Section Controllers.
Context {W : Type}.

Definition dma_state : Type := list dma_cont * W.

(** [dma_controllers[i]] and its update. *)
Definition cont (st : dma_state) (i : Z) : dma_cont := nth (Z.to_nat i) st.1 cont_zero.
Definition upd_cont (i : Z) (f : dma_cont -> dma_cont) (st : dma_state) : dma_state :=
  (<[Z.to_nat i := f (cont st i)]> st.1, st.2).

(** [DMA_transfer_handler]: channel, position and size to the new position. *)
Definition handler : Type := Z -> Z -> Z -> dma_state -> Z * dma_state.

Context (transfer_handler : Z -> handler) (qemu_bh_schedule_idle : W -> W).

Definition chan_regs (st : dma_state) (ncont ichan : Z) : dma_regs := reg (cont st ncont) ichan.

Definition channel_run (ncont ichan : Z) (st : dma_state) : dma_state :=
  let r := chan_regs st ncont ichan in
  let nchan := ichan + (ncont << 2) in
  let '(n, st) := transfer_handler nchan nchan (aget (now r) COUNT)
                    ((aget (base r) COUNT + 1) << ncont) st in
  upd_cont ncont (upd_reg ichan (fun r => r <| now := aset (now r) COUNT n |>)) st.

(** The condition of the inner loop of [DMA_run]. *)
Definition dma_active (st : dma_state) (icont ichan : Z) : bool :=
  let d := cont st icont in
  let m := 1 << ichan in
  (0 =? mask d .& m) && negb (0 =? status d .& (m << 4)).

Definition dma_pairs : list (Z * Z) :=
  [(0, 0); (0, 1); (0, 2); (0, 3); (1, 0); (1, 1); (1, 2); (1, 3)].

(** The two nested [for] loops of [DMA_run], with [rearm]. *)
Definition dma_run_loop (l : list (Z * Z)) (rearm : bool) (st : dma_state) : bool * dma_state :=
  foldl (fun '(rearm, st) '(icont, ichan) =>
           if dma_active st icont ichan then (true, channel_run icont ichan st) else (rearm, st))
        (rearm, st) l.

Definition DMA_run (st : dma_state) : dma_state :=
  let '(rearm, st) := dma_run_loop dma_pairs false st in
  if (rearm : bool) then (st.1, qemu_bh_schedule_idle st.2) else st.

Definition DMA_run_bh (st : dma_state) : dma_state := DMA_run st.
Definition dma_post_load (st : dma_state) : dma_state := DMA_run st.

Definition write_cont (icont nport data : Z) (st : dma_state) : dma_state :=
  let set f := upd_cont icont f st in
  let iport := (nport >> dshift (cont st icont)) .& 0x0f in
  match iport with
  | 0x08 => (* command *)
      if negb (data =? 0) && tst data CMD_NOT_SUPPORTED then st
      else set (fun d => d <| command := u8 data |>)
  | 0x09 =>
      let ichan := data .& 3 in
      DMA_run (set (fun d =>
        let d := if tst data 4 then d <| status := u8 (status d .| (1 << (ichan + 4))) |>
                 else d <| status := u8 (status d .& ~~ (1 << (ichan + 4))) |> in
        d <| status := u8 (status d .& ~~ (1 << ichan)) |>))
  | 0x0a => (* single mask *)
      DMA_run (set (fun d =>
        if tst data 4 then d <| mask := u8 (mask d .| (1 << (data .& 3))) |>
        else d <| mask := u8 (mask d .& ~~ (1 << (data .& 3))) |>))
  | 0x0b => (* mode *)
      set (upd_reg (data .& 3) (fun r => r <| mode := u8 data |>))
  | 0x0c => (* clear flip flop *) set (fun d => d <| flip_flop := 0 |>)
  | 0x0d => (* reset *)
      set (fun d =>
        let d := d <| flip_flop := 0 |> in
        let d := d <| mask := u8 (~~ 0) |> in
        let d := d <| status := 0 |> in
        d <| command := 0 |>)
  | 0x0e => (* clear mask for all channels *) DMA_run (set (fun d => d <| mask := 0 |>))
  | 0x0f => (* write mask for all channels *) DMA_run (set (fun d => d <| mask := u8 data |>))
  | _ => st
  end.

(** [nchan > 3] and [nchan & 3]. *)
Definition ncont_of (nchan : Z) : Z := b2z (3 <? nchan).

Definition DMA_get_channel_mode (nchan : Z) (st : dma_state) : Z :=
  mode (chan_regs st (ncont_of nchan) (nchan .& 3)).

Definition DMA_hold_DREQ (nchan : Z) (st : dma_state) : dma_state :=
  let ichan := nchan .& 3 in
  DMA_run (upd_cont (ncont_of nchan)
    (fun d => d <| status := u8 (status d .| (1 << (ichan + 4))) |>) st).

Definition DMA_release_DREQ (nchan : Z) (st : dma_state) : dma_state :=
  let ichan := nchan .& 3 in
  DMA_run (upd_cont (ncont_of nchan)
    (fun d => d <| status := u8 (status d .& ~~ (1 << (ichan + 4))) |>) st).

Definition dma_reset (icont : Z) (st : dma_state) : dma_state :=
  write_cont icont (0x0d << dshift (cont st icont)) 0 st.

End Controllers.

(** The table of handlers: [DMA_register_channel] replaces one entry. *)
Definition DMA_register_channel {W} (nchan : Z) (h : handler (W := W))
    (tbl : Z -> handler (W := W)) : Z -> handler (W := W) :=
  fun n => if n =? nchan then h else tbl n.

Definition dma_phony_handler {W} : handler (W := W) := fun nchan dma_pos dma_len st => (dma_pos, st).

(** Pulses the line [cpu_request_exit] points to. *)
Definition DMA_schedule {W} (cpu_request_exit : qemu_irq W) (w : W) : W :=
  qemu_irq_pulse cpu_request_exit w.

Section Memory.
Context {W : Type}.
Context (cpu_physical_memory_read : Z -> Z -> W -> list Z).
Context (cpu_physical_memory_write : Z -> list Z -> W -> W).

Definition dma_addr (r : dma_regs) : Z :=
  ((pageh r .& 0x7f) << 24) .| (page r << 16) .| aget (now r) ADDR.

(** [for (i = 0; i < n; i++) p[i] = p[len - i - 1]]. *)
Definition mirror (n : nat) (len : Z) (p : list Z) : list Z :=
  foldl (fun p i => aset p (Z.of_nat i) (aget p (len - Z.of_nat i - 1))) p (seq 0 n).

(** The transferred bytes; the C function also returns [len]. *)
Definition DMA_read_memory (nchan pos len : Z) (st : dma_state) : list Z :=
  let r := chan_regs st (ncont_of nchan) (nchan .& 3) in
  if tst (mode r) 0x20 then
    let buf := cpu_physical_memory_read (u64 (dma_addr r - pos - len)) len st.2 in
    (* What about 16bit transfers? *)
    mirror (Z.to_nat (len >> 1)) len buf
  else cpu_physical_memory_read (u64 (dma_addr r + pos)) len st.2.

(** The caller's buffer after the call, and the new state. *)
Definition DMA_write_memory (nchan : Z) (buf : list Z) (pos len : Z) (st : dma_state)
  : list Z * dma_state :=
  let r := chan_regs st (ncont_of nchan) (nchan .& 3) in
  if tst (mode r) 0x20 then
    let w := cpu_physical_memory_write (u64 (dma_addr r - pos - len)) (take (Z.to_nat len) buf) st.2 in
    (* What about 16bit transfers? *)
    (mirror (Z.to_nat len) len buf, (st.1, w))
  else
    (buf, (st.1, cpu_physical_memory_write (u64 (dma_addr r + pos)) (take (Z.to_nat len) buf) st.2)).
End Memory.

(** [dma_init2] for the two controllers: [dshift] is set and the reset write
    runs; the phony handler fills the table. *)
Definition dma_init2 {W} (bh : W -> W) (icont dsh : Z) (st : dma_state) : dma_state :=
  let st := upd_cont icont (fun d => d <| dshift := dsh |>) st in
  dma_reset (fun _ => dma_phony_handler) bh icont st.

Definition DMA_init {W} (bh : W -> W) (w : W) : dma_state :=
  let st := ([cont_zero; cont_zero], w) in
  let st := dma_init2 bh 0 0 st in
  dma_init2 bh 1 1 st.

(** ** Well-formed controllers *)

Record regs_ok (r : dma_regs) : Prop := {
  ok_now : length (now r) = 2%nat;
  ok_addr : in_u 17 (aget (now r) ADDR);
  ok_base : length (base r) = 2%nat;
  ok_base16 : Forall (in_u 16) (base r);
  ok_mode : in_u 8 (mode r);
  ok_page : in_u 8 (page r);
  ok_pageh : in_u 8 (pageh r)
}.

(** Controller [ds] of the machine: 0 moves bytes, 1 moves words. *)
Record cont_ok (ds : Z) (d : dma_cont) : Prop := {
  ok_status : in_u 8 (status d);
  ok_command : in_u 8 (command d);
  ok_mask : in_u 8 (mask d);
  ok_ff : 0 <= flip_flop d <= 1;
  ok_dshift : dshift d = ds;
  ok_len : length (regs d) = 4%nat;
  ok_regs : Forall regs_ok (regs d)
}.

Lemma reg_upd i f d j : 0 <= i < Z.of_nat (length (regs d)) -> 0 <= j ->
  reg (upd_reg i f d) j = if i =? j then f (reg d j) else reg d j.
Proof.
  intros Hi Hj. unfold upd_reg, reg. cbn [over regs]. rewrite nth_lookup.
  destruct (Z.eqb_spec i j) as [->|].
  - rewrite list_lookup_insert_eq by lia. done.
  - rewrite list_lookup_insert_ne by lia. now rewrite nth_lookup.
Qed.

Lemma reg_ok d ds i : cont_ok ds d -> 0 <= i < 4 -> regs_ok (reg d i).
Proof.
  intros H Hi. pose proof (ok_regs _ _ H) as Hf. rewrite List.Forall_forall in Hf. apply Hf.
  apply nth_In. rewrite (ok_len _ _ H). lia.
Qed.

Lemma upd_reg_ok ds i f d : cont_ok ds d -> 0 <= i < 4 -> (forall r, regs_ok r -> regs_ok (f r)) ->
  cont_ok ds (upd_reg i f d).
Proof.
  intros H Hi Hf. pose proof (reg_ok d ds i H Hi) as Hr. destruct H. constructor; try done.
  - cbn. now rewrite length_insert.
  - cbn. apply Forall_insert; auto.
Qed.

(** The channel port decoded. *)
Lemma chan_port ds ch n : 0 <= ds <= 1 -> 0 <= ch < 4 -> 0 <= n < 2 ->
  let iport := (((2 * ch + n) << ds) >> ds) .& 0x0f in iport >> 1 = ch /\ iport .& 1 = n.
Proof.
  intros Hds Hch Hn. cbv zeta. rewrite Z.shiftr_shiftl_l, Z.sub_diag, Z.shiftl_0_r by lia.
  rewrite (land_ones_mod _ 4), Z.mod_small by (done || lia). rewrite land_1, Z.shiftr_div_pow2 by lia.
  change (2 ^ 1) with 2. Z.div_mod_to_equations. lia.
Qed.

(** Assembling a 16-bit register from the two bytes the guest writes. *)
Lemma base_bytes b lo hi : in_u 8 lo -> in_u 8 hi ->
  (((b .& 0xff00) .| (lo .& 0xff)) .& 0xff) .| ((hi << 8) .& 0xff00) = lo + 256 * hi.
Proof.
  intros Hlo Hhi.
  assert (((b .& 0xff00) .| (lo .& 0xff)) .& 0xff = lo) as ->.
  { rewrite Z.land_lor_distr_l, <- !Z.land_assoc. change (0xff00 .& 0xff) with 0.
    rewrite Z.land_0_r, Z.lor_0_l, Z.land_diag, (land_ones_mod lo 8), Z.mod_small by done. done. }
  change 0xff00 with (0xff << 8). rewrite <- Z.shiftl_land, (land_ones_mod hi 8), Z.mod_small by done.
  now apply (lor_shift 8).
Qed.

Lemma byte_at ds v ff : 0 <= ds -> 0 <= ff ->
  ((v << ds) >> (ds + (ff << 3))) .& 0xff = (v / 2 ^ (ff * 8)) mod 256.
Proof.
  intros Hds Hff. rewrite (land_ones_mod _ 8) by done. f_equal.
  rewrite <- Z.shiftr_shiftr by (apply Z.shiftl_nonneg; lia).
  rewrite Z.shiftr_shiftl_l, Z.sub_diag, Z.shiftl_0_r by lia.
  rewrite Z.shiftl_mul_pow2, Z.shiftr_div_pow2 by lia. done.
Qed.

Lemma two_bytes lo hi : in_u 8 lo -> in_u 8 hi ->
  ((lo + 256 * hi) / 2 ^ (0 * 8)) mod 256 = lo /\ ((lo + 256 * hi) / 2 ^ (1 * 8)) mod 256 = hi.
Proof.
  intros [L0 L1] [H0 H1]. change (2 ^ 8) with 256 in *. change (2 ^ (0 * 8)) with 1.
  change (2 ^ (1 * 8)) with 256. split; Z.div_mod_to_equations; lia.
Qed.

Lemma upd_reg_twice ch f g d : 0 <= ch < Z.of_nat (length (regs d)) ->
  upd_reg ch g (upd_reg ch f d) = upd_reg ch (fun r => g (f r)) d.
Proof.
  intros H. pose proof (reg_upd ch f d ch H (proj1 H)) as E. rewrite Z.eqb_refl in E.
  unfold upd_reg at 1. rewrite E. unfold upd_reg. cbn [over regs]. now rewrite list_insert_insert_eq.
Qed.

(** The two kinds of write of a channel port. *)
Definition low_byte (n data : Z) (r : dma_regs) : dma_regs :=
  r <| base := aset (base r) n ((aget (base r) n .& 0xff00) .| (data .& 0xff)) |>.
Definition high_byte (ds n data : Z) (r : dma_regs) : dma_regs :=
  let r := r <| base := aset (base r) n ((aget (base r) n .& 0xff) .| ((data << 8) .& 0xff00)) |> in
  let r := r <| now := aset (now r) ADDR (aget (base r) ADDR << ds) |> in
  r <| now := aset (now r) COUNT 0 |>.

Lemma write_chan_eq ds d ch n data : dshift d = ds -> length (regs d) = 4%nat -> 0 <= ds <= 1 ->
  0 <= ch < 4 -> 0 <= n < 2 ->
  write_chan ((2 * ch + n) << ds) data d =
  (upd_reg ch (if truthy (flip_flop d) then high_byte ds n data else low_byte n data) d)
    <| flip_flop := b2z (negb (truthy (flip_flop d))) |>.
Proof.
  intros Hsh Hl Hds Hch Hn. pose proof (chan_port ds ch n Hds Hch Hn) as [P1 P2].
  unfold write_chan, getff. rewrite Hsh. cbv zeta in *. rewrite P1, P2.
  destruct (truthy (flip_flop d)); [|reflexivity].
  unfold init_chan. cbn [upd_reg over dshift]. rewrite Hsh.
  match goal with |- upd_reg ch ?g (upd_reg ch ?f ?d0) = _ =>
    rewrite (upd_reg_twice ch f g d0) by (cbn [over regs]; lia) end.
  reflexivity.
Qed.

(** Writing both bytes of register [n] of channel [ch]. *)
Lemma write_chan_twice ds d ch n lo hi : cont_ok ds d -> 0 <= ds <= 1 -> 0 <= ch < 4 -> 0 <= n < 2 ->
  in_u 8 lo -> in_u 8 hi -> flip_flop d = 0 ->
  let p := (2 * ch + n) << ds in
  let b := aset (base (reg d ch)) n (lo + 256 * hi) in
  write_chan p hi (write_chan p lo d) =
  upd_reg ch (fun r => r <| base := b |> <| now := [aget b ADDR << ds; 0] |>) d.
Proof.
  intros Hok Hds Hch Hn Hlo Hhi Hff. cbv zeta.
  pose proof (ok_len _ _ Hok) as Hl. pose proof (ok_dshift _ _ Hok) as Hsh.
  rewrite (write_chan_eq ds d) by done. rewrite Hff. cbn [truthy Z.eqb negb b2z].
  rewrite write_chan_eq; [|exact Hsh|cbn; now rewrite length_insert|done..].
  repeat match goal with |- context [truthy (flip_flop ?x)] => change (truthy (flip_flop x)) with true end.
  cbn [negb b2z]. cbv iota.
  match goal with |- (upd_reg ch ?g ((upd_reg ch ?f d) <| flip_flop := 1 |>)) <| flip_flop := ?v |> = _ =>
    change ((upd_reg ch g (upd_reg ch f d)) <| flip_flop := 0 |> = 
      upd_reg ch (fun r => r <| base := aset (base (reg d ch)) n (lo + 256 * hi) |>
        <| now := [aget (aset (base (reg d ch)) n (lo + 256 * hi)) ADDR << ds; 0] |>) d);
    rewrite (upd_reg_twice ch f g d) by lia end.
  pose proof (reg_ok _ _ _ Hok Hch) as [Hnow _ Hbase _ _ _ _].
  unfold upd_reg. cbn [over regs]. set (r := reg d ch) in *. clearbody r.
  assert (high_byte ds n hi (low_byte n lo r) = r <| base := aset (base r) n (lo + 256 * hi) |>
    <| now := [aget (aset (base r) n (lo + 256 * hi)) ADDR << ds; 0] |>) as ->.
  { unfold high_byte, low_byte. cbn [over base now]. rewrite aget_aset_eq by lia.
    rewrite base_bytes by done. unfold aset. rewrite list_insert_insert_eq.
    destruct (now r) as [|x [|y [|]]]; try done. }
  destruct d. cbn in *. subst. reflexivity.
Qed.

(** Programming a DMA channel: after the flip-flop is clear, writing the low
    and the high byte of an address or count register sets its 16-bit base
    value, restarts the channel at the (word-scaled) base address with nothing
    transferred, leaves every other channel alone, and reading the port twice
    gives the two bytes back, for both controllers, all channels and both
    registers. *)
Theorem dma_program_readback ds (d : dma_cont) ch n lo hi :
  cont_ok ds d -> 0 <= ds <= 1 -> 0 <= ch < 4 -> 0 <= n < 2 -> in_u 8 lo -> in_u 8 hi ->
  flip_flop d = 0 ->
  let p := (2 * ch + n) << ds in
  let d2 := write_chan p hi (write_chan p lo d) in
  let b := aset (base (reg d ch)) n (lo + 256 * hi) in
  base (reg d2 ch) = b /\ now (reg d2 ch) = [aget b ADDR << ds; 0]
  /\ (forall j, 0 <= j -> j <> ch -> reg d2 j = reg d j)
  /\ read_chan p d2 = (lo, d2 <| flip_flop := 1 |>)
  /\ read_chan p (d2 <| flip_flop := 1 |>) = (hi, d2).
Proof.
  intros Hok Hds Hch Hn Hlo Hhi Hff p d2 b.
  assert (d2 = upd_reg ch (fun r => r <| base := b |> <| now := [aget b ADDR << ds; 0] |>) d) as E
    by now apply write_chan_twice.
  pose proof (ok_len _ _ Hok) as Hl. pose proof (ok_dshift _ _ Hok) as Hsh.
  pose proof (reg_ok _ _ _ Hok Hch) as [_ _ Hbase _ _ _ _].
  assert (forall j, 0 <= j -> reg d2 j = if ch =? j
    then (reg d j) <| base := b |> <| now := [aget b ADDR << ds; 0] |> else reg d j) as Hreg
    by (intros; rewrite E, reg_upd by lia; done).
  assert (reg d2 ch = (reg d ch) <| base := b |> <| now := [aget b ADDR << ds; 0] |>) as Hr
    by (rewrite Hreg, Z.eqb_refl by lia; done).
  assert (dshift d2 = ds /\ flip_flop d2 = 0) as [Hs2 Hf2] by now rewrite E.
  assert (forall ff, 0 <= ff <= 1 -> read_chan p (d2 <| flip_flop := ff |>) =
    (((lo + 256 * hi) / 2 ^ (ff * 8)) mod 256, d2 <| flip_flop := b2z (negb (truthy ff)) |>)) as Hread.
  { intros ff Hf. unfold read_chan, getff. cbn [over dshift flip_flop].
    change (reg (d2 <| flip_flop := ff |>)) with (reg d2). rewrite Hs2. unfold p.
    pose proof (chan_port ds ch n Hds Hch Hn) as [P1 P2]. cbv zeta in P1, P2. rewrite P1, P2, Hr.
    cbn [over base now]. change (aget [aget b ADDR << ds; 0] COUNT) with 0.
    change (aget [aget b ADDR << ds; 0] ADDR) with (aget b ADDR << ds).
    rewrite Z.mul_0_l, Z.add_0_r, Z.sub_0_r. f_equal.
    assert (aget b n = lo + 256 * hi) as Hbn by (apply aget_aset_eq; lia).
    assert (n = 0 \/ n = 1) as [-> | ->] by lia; cbn [truthy Z.eqb negb].
    - unfold ADDR. rewrite Hbn. now rewrite byte_at by lia.
    - unfold COUNT. rewrite Hbn. now rewrite byte_at by lia. }
  pose proof (two_bytes lo hi Hlo Hhi) as [B0 B1].
  split; [now rewrite Hr|]. split; [now rewrite Hr|]. split.
  { intros j Hj Hne. rewrite Hreg by done. destruct (Z.eqb_spec ch j); [lia|done]. }
  assert (d2 <| flip_flop := 0 |> = d2) as Hd2 by (clear - Hf2; destruct d2; cbn in *; now subst).
  split.
  - rewrite <- Hd2 at 1. rewrite Hread by lia. now rewrite B0.
  - rewrite Hread by lia. change (b2z (negb (truthy 1))) with 0. now rewrite B1, Hd2.
Qed.

Lemma cont_zero_ok : cont_ok 0 cont_zero.
Proof.
  constructor; try (vm_compute; split; congruence); try reflexivity.
  repeat (apply Forall_cons_2; [constructor; try reflexivity; try (vm_compute; split; congruence);
    repeat (apply Forall_cons_2; [vm_compute; split; congruence|]); apply Forall_nil_2|]).
  apply Forall_nil_2.
Qed.

Lemma dma_program_readback_witness :
  let d2 := write_chan 5 0x12 (write_chan 5 0x34 cont_zero) in
  base (reg d2 2) = [0; 0x1234] /\ read_chan 5 d2 = (0x34, d2 <| flip_flop := 1 |>).
Proof.
  destruct (dma_program_readback 0 cont_zero 2 1 0x34 0x12) as (H1 & _ & _ & H2 & _);
    [exact cont_zero_ok|lia|lia|lia|split; [discriminate|reflexivity]|split; [discriminate|reflexivity]
    |reflexivity|].
  split; [exact H1|exact H2].
Defined.

(** ** Servicing requests *)

Lemma run_loop_cons {W} (transfer_handler : Z -> handler (W := W)) ic ch l rearm st :
  dma_run_loop transfer_handler ((ic, ch) :: l) rearm st =
  if dma_active st ic ch then dma_run_loop transfer_handler l true (channel_run transfer_handler ic ch st)
  else dma_run_loop transfer_handler l rearm st.
Proof. unfold dma_run_loop. cbn [foldl]. now destruct (dma_active st ic ch). Qed.

(** ** Reachable states *)

Section Reach.
Context {W : Type} (transfer_handler : Z -> handler (W := W)) (bh : W -> W).

Definition dma_ok (st : dma_state (W := W)) : Prop :=
  length st.1 = 2%nat /\ cont_ok 0 (cont st 0) /\ cont_ok 1 (cont st 1).

(** Devices call back only into the operations of this file. *)
Hypothesis handler_ok : forall n c p l st, dma_ok st -> dma_ok (transfer_handler n c p l st).2.

Lemma cont_upd i f st j : 0 <= i < Z.of_nat (length st.1) -> 0 <= j ->
  cont (W := W) (upd_cont i f st) j = if i =? j then f (cont st j) else cont st j.
Proof.
  intros Hi Hj. unfold upd_cont, cont. cbn [fst]. rewrite nth_lookup.
  destruct (Z.eqb_spec i j) as [->|].
  - now rewrite list_lookup_insert_eq by lia.
  - rewrite list_lookup_insert_ne by lia. now rewrite nth_lookup.
Qed.

Lemma upd_cont_ok i f st : dma_ok st -> 0 <= i < 2 ->
  (forall d, cont_ok i d -> cont_ok i (f d)) -> dma_ok (upd_cont i f st).
Proof.
  intros (Hl & H0 & H1) Hi Hf. split; [cbn; now rewrite length_insert|].
  rewrite !cont_upd by lia. assert (i = 0 \/ i = 1) as [-> | ->] by lia; cbn [Z.eqb Pos.eqb]; auto.
Qed.

Lemma chan_run_ok ic ch st : dma_ok st -> 0 <= ic < 2 -> 0 <= ch < 4 ->
  dma_ok (channel_run transfer_handler ic ch st).
Proof.
  intros H Hic Hch. unfold channel_run. cbv zeta.
  match goal with |- context [transfer_handler ?a ?b ?c ?d ?s] =>
    pose proof (handler_ok a b c d s H) as H'; destruct (transfer_handler a b c d s) as [n st'] end.
  apply upd_cont_ok; [done|done|]. intros d Hd. apply upd_reg_ok; [done|done|].
  intros r []. constructor; try done; cbn [over now].
  - now rewrite length_aset.
  - now rewrite aget_aset_ne.
Qed.

Lemma run_loop_ok l rearm st : dma_ok st -> Forall (fun p => 0 <= p.1 < 2 /\ 0 <= p.2 < 4) l ->
  dma_ok (dma_run_loop transfer_handler l rearm st).2.
Proof.
  intros H Hl. revert rearm st H. induction Hl as [|[ic ch] l [H1 H2] Hl IH]; intros rearm st H; [done|].
  rewrite run_loop_cons. cbn [fst snd] in *.
  destruct (dma_active st ic ch); apply IH; [now apply chan_run_ok|done].
Qed.

Lemma DMA_run_ok st : dma_ok st -> dma_ok (DMA_run transfer_handler bh st).
Proof.
  intros H. unfold DMA_run. pose proof (run_loop_ok dma_pairs false st H) as Hr.
  destruct (dma_run_loop _ _ _ _) as [[] st'].
  all: apply Hr; repeat (apply Forall_cons_2; [cbn; lia|]); apply Forall_nil_2.
Qed.

(** An update of the flags of a controller. *)
Ltac flags := intros []; constructor; cbn [over status command mask flip_flop dshift regs];
  auto with width; try lia.

Lemma write_cont_ok ic nport data st : dma_ok st -> 0 <= ic < 2 ->
  dma_ok (write_cont transfer_handler bh ic nport data st).
Proof.
  intros H Hic. unfold write_cont. cbv zeta.
  assert (0 <= data .& 3 < 4) as H3 by (pose proof (land_range data 2 3 ltac:(lia) eq_refl); lia).
  destruct (_ .& 0x0f) as [|p|p]; try done.
  repeat (destruct p as [p|p|]; try done);
    try apply DMA_run_ok; try (destruct (negb _ && _); [done|]); apply upd_cont_ok; try done; intros d.
  all: try (destruct (tst data 4); flags; fail).
  all: try (flags; fail).
  intros Hd. apply upd_reg_ok; [done|lia|]. intros r []. constructor; try done. apply u8_range.
Qed.

Lemma set_status_ok f nchan st : dma_ok st ->
  dma_ok (DMA_run transfer_handler bh
    (upd_cont (ncont_of nchan) (fun d => d <| status := u8 (f d) |>) st)).
Proof.
  intros H. apply DMA_run_ok, upd_cont_ok; [done|unfold ncont_of; destruct (3 <? nchan); cbn; lia|].
  intros d. flags.
Qed.

Lemma page_index nport : aget channels (nport .& 7) = -1 \/ 0 <= aget channels (nport .& 7) < 4.
Proof.
  rewrite land_7. pose proof (Z.mod_pos_bound nport 8 ltac:(lia)).
  set (k := nport mod 8) in *. clearbody k.
  assert (k = 0 \/ k = 1 \/ k = 2 \/ k = 3 \/ k = 4 \/ k = 5 \/ k = 6 \/ k = 7) as C by lia.
  repeat destruct C as [->|C]; subst; vm_compute; (left; reflexivity) || (right; split; congruence).
Qed.

Lemma write_page_ok ds nport data d : cont_ok ds d ->
  cont_ok ds (write_page nport data d) /\ cont_ok ds (write_pageh nport data d).
Proof.
  intros H. unfold write_page, write_pageh. destruct (page_index nport) as [-> | Hi]; [done|].
  destruct (Z.eqb_spec (-1) (aget channels (nport .& 7))); [lia|].
  split; apply upd_reg_ok; try done; intros r []; constructor; try done; apply u8_range.
Qed.

(** Port [i] of the eight [dma_init2] registers for the channels of controller
    [ds]: from 0x00 and 0xc0, one and two apart. *)
Definition dma_port (ds i : Z) : Z := (if ds =? 0 then 0x00 else 0xc0) + (i << ds).
Definition chan_port_ok (ds nport : Z) : Prop := exists i, 0 <= i < 8 /\ nport = dma_port ds i.

(** The channel and the register that [read_chan] and [write_chan] take a port for. *)
Definition port_channel (nport : Z) (d : dma_cont) : Z := ((nport >> dshift d) .& 0x0f) >> 1.
Definition port_register (nport : Z) (d : dma_cont) : Z := ((nport >> dshift d) .& 0x0f) .& 1.

Lemma dma_port_low ds i : 0 <= ds <= 1 -> 0 <= i < 8 -> (dma_port ds i >> ds) .& 0x0f = i.
Proof.
  intros Hd Hi. assert (ds = 0 \/ ds = 1) as [-> | ->] by lia;
    assert (i = 0 \/ i = 1 \/ i = 2 \/ i = 3 \/ i = 4 \/ i = 5 \/ i = 6 \/ i = 7) as C by lia; repeat destruct C as [->|C]; subst; reflexivity.
Qed.

Lemma chan_port_index ds nport : 0 <= ds <= 1 -> chan_port_ok ds nport ->
  0 <= ((nport >> ds) .& 0x0f) >> 1 < 4 /\ 0 <= ((nport >> ds) .& 0x0f) .& 1 < 2.
Proof.
  intros Hd (i & Hi & ->). rewrite dma_port_low by done. pose proof (land_range i 1 1 ltac:(lia) eq_refl).
  rewrite Z.shiftr_div_pow2 by lia. change (2 ^ 1) with 2. split; [Z.div_mod_to_equations|]; lia.
Qed.

Lemma write_chan_ok ds nport data d : cont_ok ds d -> 0 <= ds <= 1 -> chan_port_ok ds nport ->
  cont_ok ds (write_chan nport data d).
Proof.
  intros H Hds Hp. pose proof (chan_port_index _ _ Hds Hp) as [H1 H2].
  unfold write_chan, getff. rewrite (ok_dshift _ _ H).
  set (ch := ((nport >> ds) .& 15) >> 1) in *. set (n := ((nport >> ds) .& 15) .& 1) in *.
  clearbody ch n. cbv zeta.
  assert (cont_ok ds (d <| flip_flop := b2z (negb (truthy (flip_flop d))) |>)) as Hf.
  { destruct H. constructor; try done. cbn. destruct (truthy (flip_flop d)); cbn; lia. }
  assert (forall r v, regs_ok r -> in_u 16 v -> regs_ok (r <| base := aset (base r) n v |>)) as Hb.
  { intros r v [] Hv. constructor; try done; cbn; [now rewrite length_aset|now apply aset_Forall]. }
  assert (forall x y, in_u 16 ((x .& 0xff00) .| (y .& 0xff)) /\ in_u 16 ((x .& 0xff) .| (y .& 0xff00))) as Hv.
  { intros x y. split; apply in_u_lor; try lia; apply in_u_land_r; try lia; split; done. }
  destruct (truthy (flip_flop d)).
  - unfold init_chan. apply upd_reg_ok; [apply upd_reg_ok; [done|done|]|done|].
    + intros r Hr. apply Hb; [done|apply Hv].
    + cbn [upd_reg over dshift]. rewrite (ok_dshift _ _ H). intros r [].
      constructor; try done; cbn [over now base].
      * now rewrite !length_aset.
      * rewrite aget_aset_ne by done. rewrite aget_aset_eq by (rewrite ok_now0; unfold ADDR; lia).
        assert (in_u 16 (aget (base r) ADDR)) as [B0 B1] by (apply aget_Forall; [split; done|done]).
        rewrite Z.shiftl_mul_pow2 by lia. assert (ds = 0 \/ ds = 1) as [-> | ->] by lia; split; lia.
  - apply upd_reg_ok; [done|done|]. intros r Hr. apply Hb; [done|apply Hv].
Qed.

Lemma read_ok ds nport d : cont_ok ds d ->
  cont_ok ds (read_chan nport d).2 /\ cont_ok ds (read_cont nport d).2.
Proof.
  intros H. split.
  - unfold read_chan, getff. destruct H. constructor; try done. cbn.
    destruct (truthy (flip_flop d)); cbn; lia.
  - unfold read_cont. repeat case_match; try done; destruct H; constructor; try done; apply u8_range.
Qed.

(** What the guest, the devices and the bottom half do to the controllers. *)
Inductive dma_step : dma_state -> dma_state -> Prop :=
| dstep_page ic nport data st : 0 <= ic < 2 ->
    dma_step st (upd_cont ic (write_page nport data) st)
| dstep_pageh ic nport data st : 0 <= ic < 2 ->
    dma_step st (upd_cont ic (write_pageh nport data) st)
| dstep_write_chan ic nport data st : 0 <= ic < 2 -> chan_port_ok ic nport ->
    dma_step st (upd_cont ic (write_chan nport data) st)
| dstep_read_chan ic nport st : 0 <= ic < 2 -> chan_port_ok ic nport ->
    dma_step st (upd_cont ic (fun d => (read_chan nport d).2) st)
| dstep_read_cont ic nport st : 0 <= ic < 2 ->
    dma_step st (upd_cont ic (fun d => (read_cont nport d).2) st)
| dstep_write_cont ic nport data st : 0 <= ic < 2 ->
    dma_step st (write_cont transfer_handler bh ic nport data st)
| dstep_hold nchan st : dma_step st (DMA_hold_DREQ transfer_handler bh nchan st)
| dstep_release nchan st : dma_step st (DMA_release_DREQ transfer_handler bh nchan st)
| dstep_bh st : dma_step st (DMA_run_bh transfer_handler bh st)
| dstep_reset ic st : 0 <= ic < 2 -> dma_step st (dma_reset transfer_handler bh ic st).

Lemma dma_step_ok x y : dma_ok x -> dma_step x y -> dma_ok y.
Proof.
  intros H Hxy. destruct Hxy; try (apply upd_cont_ok; [done|done|intros d Hd]).
  - now apply write_page_ok.
  - now apply write_page_ok.
  - apply write_chan_ok; [done|lia|done].
  - now apply read_ok.
  - now apply read_ok.
  - now apply write_cont_ok.
  - now apply set_status_ok.
  - now apply set_status_ok.
  - now apply DMA_run_ok.
  - now apply write_cont_ok.
Qed.

Lemma DMA_init_ok w : dma_ok (DMA_init bh w).
Proof.
  assert (forall ds m, in_u 8 m -> cont_ok ds (cont_zero <| dshift := ds |> <| mask := m |>)) as H.
  { intros ds m Hm. destruct cont_zero_ok. by constructor. }
  split; [reflexivity|]. split; [apply (H 0 255)|apply (H 1 255)]; split; done.
Qed.


(** ** One pass over the channels *)

(** Channel [n], of 0 to 7, and its controller. *)
Definition channel (st : dma_state (W := W)) (n : Z) : dma_regs := chan_regs st (n / 4) (n mod 4).
Definition control (st : dma_state (W := W)) (ic : Z) : Z * Z * Z * Z * Z :=
  let d := cont st ic in (status d, command d, mask d, flip_flop d, dshift d).

(** Channel [n] has a request and is not masked. *)
Definition requested (st : dma_state (W := W)) (n : Z) : bool :=
  negb (Z.testbit (mask (cont st (n / 4))) (n mod 4)) && Z.testbit (status (cont st (n / 4))) (n mod 4 + 4).

(** The handler of channel [n] is called with the position of the channel and the
    size of the transfer in bytes, and the position it returns is stored; nothing
    else changes but by the handler. *)
Definition served (n : Z) (st st' : dma_state (W := W)) : Prop :=
  exists pos st1, transfer_handler n n (aget (now (channel st n)) COUNT) ((aget (base (channel st n)) COUNT + 1) * (if n <? 4 then 1 else 2)) st = (pos, st1)
    /\ st'.2 = st1.2
    /\ (forall k, 0 <= k < 8 -> channel st' k = if k =? n then (channel st1 k) <| now := [aget (now (channel st1 k)) ADDR; pos] |> else channel st1 k)
    /\ (forall ic, 0 <= ic < 2 -> control st' ic = control st1 ic).

(** The channels [ns] in turn: those of [ran] are served, each because it is
    requested at its turn, and the others are not requested at theirs. *)
Inductive pass : list Z -> list Z -> dma_state (W := W) -> dma_state (W := W) -> Prop :=
| pass_end st : pass [] [] st st
| pass_serve n ns ran st st1 st2 : requested st n = true -> served n st st1 -> pass ns ran st1 st2 -> pass (n :: ns) (n :: ran) st st2
| pass_skip n ns ran st st2 : requested st n = false -> pass ns ran st st2 -> pass (n :: ns) ran st st2.

Lemma pass_none ns st st' : pass ns [] st st' -> st' = st.
Proof. intros P. remember [] as ran eqn:E. induction P as [st|n ns ran st st1 st2|n ns ran st st2 R P IH]; [done|discriminate|auto]. Qed.

Lemma requested_active st n : 0 <= n < 8 -> dma_active st (n / 4) (n mod 4) = requested st n.
Proof.
  intros Hn. pose proof (Z.mod_pos_bound n 4 ltac:(lia)). unfold dma_active, requested. cbv zeta. rewrite !(Z.eqb_sym 0), land_bit_eqb by lia.
  replace ((1 << (n mod 4)) << 4) with (1 << (n mod 4 + 4)) by (rewrite Z.shiftl_shiftl by lia; reflexivity). rewrite land_bit_eqb by lia. now rewrite negb_involutive.
Qed.

Lemma list_two (l : list Z) v : length l = 2%nat -> aset l COUNT v = [aget l ADDR; v].
Proof. intros Hl. destruct l as [|a [|b [|c l]]]; try discriminate. reflexivity. Qed.

Lemma channel_run_served st n : dma_ok st -> 0 <= n < 8 -> served n st (channel_run transfer_handler (n / 4) (n mod 4) st).
Proof.
  intros Hst Hn. pose proof (Z.mod_pos_bound n 4 ltac:(lia)) as Hm. assert (0 <= n / 4 < 2) as Hq by (Z.div_mod_to_equations; lia). pose proof (Z.div_mod n 4 ltac:(lia)) as En.
  unfold channel_run. cbv zeta. fold (channel st n). replace (n mod 4 + ((n / 4) << 2)) with n by (rewrite Z.shiftl_mul_pow2 by lia; change (2 ^ 2) with 4; lia).
  assert ((aget (base (channel st n)) COUNT + 1) << (n / 4) = (aget (base (channel st n)) COUNT + 1) * (if n <? 4 then 1 else 2)) as ->.
  { rewrite Z.shiftl_mul_pow2 by lia. f_equal. assert (n / 4 = if n <? 4 then 0 else 1) as -> by (destruct (Z.ltb_spec n 4); Z.div_mod_to_equations; lia). now destruct (n <? 4). }
  destruct (transfer_handler n n _ _ st) as [pos st1] eqn:E. exists pos, st1. split; [exact E|]. split; [reflexivity|].
  assert (dma_ok st1) as (L1 & O0 & O1) by (pose proof (handler_ok n n (aget (now (channel st n)) COUNT) ((aget (base (channel st n)) COUNT + 1) * (if n <? 4 then 1 else 2)) st Hst) as H; now rewrite E in H).
  assert (forall ic, 0 <= ic < 2 -> cont_ok ic (cont st1 ic)) as Oc by (intros ic Hic; assert (ic = 0 \/ ic = 1) as [-> | ->] by lia; assumption). split.
  - intros k Hk. pose proof (Z.mod_pos_bound k 4 ltac:(lia)) as Hkm. assert (0 <= k / 4 < 2) as Hkq by (Z.div_mod_to_equations; lia). unfold channel, chan_regs. rewrite cont_upd by lia.
    destruct (Z.eqb_spec (n / 4) (k / 4)) as [Eq|Nq]; [|destruct (Z.eqb_spec k n) as [->|]; [contradiction|reflexivity]].
    rewrite reg_upd by (rewrite ?(ok_len _ _ (Oc _ Hkq)); lia). destruct (Z.eqb_spec (n mod 4) (k mod 4)) as [Em|Nm], (Z.eqb_spec k n) as [->|Nk]; try contradiction; [|exfalso; apply Nk; Z.div_mod_to_equations; lia|reflexivity].
    rewrite list_two; [reflexivity|]. apply (ok_now _ (reg_ok _ _ _ (Oc _ Hkq) Hkm)).
  - intros ic Hic. unfold control. rewrite cont_upd by lia. destruct (n / 4 =? ic); reflexivity.
Qed.

(** Handlers that leave the requests and the masks of the controllers alone. *)
Definition quiet_handlers : Prop := forall n c p l x ic, dma_ok x -> 0 <= ic < 2 -> control (transfer_handler n c p l x).2 ic = control x ic.

Lemma requested_control st st' n : 0 <= n < 8 -> (forall ic, 0 <= ic < 2 -> control st' ic = control st ic) -> requested st' n = requested st n.
Proof. intros Hn E. specialize (E (n / 4) ltac:(Z.div_mod_to_equations; lia)). unfold control in E. injection E as E1 _ E3 _ _. unfold requested. now rewrite E1, E3. Qed.

Lemma run_loop_pass ns rearm st : dma_ok st -> Forall (fun n => 0 <= n < 8) ns -> exists ran st', pass ns ran st st'
  /\ dma_run_loop transfer_handler (map (fun n => (n / 4, n mod 4)) ns) rearm st = (rearm || negb (bool_decide (ran = [])), st')
  /\ (quiet_handlers -> ran = List.filter (requested st) ns).
Proof.
  intros Hst Hns. revert rearm st Hst. induction Hns as [|n ns Hn Hns IH]; intros rearm st Hst; cbn [map].
  { exists [], st. split; [constructor|]. cbn. now rewrite orb_false_r. }
  rewrite run_loop_cons, requested_active by done. cbn [List.filter]. destruct (requested st n) eqn:R.
  - assert (0 <= n / 4 < 2) by (Z.div_mod_to_equations; lia). assert (0 <= n mod 4 < 4) by (apply Z.mod_pos_bound; lia). pose proof (channel_run_served st n Hst Hn) as Sv.
    destruct (IH true (channel_run transfer_handler (n / 4) (n mod 4) st)) as (ran & st' & P & E & Q); [now apply chan_run_ok|]. exists (n :: ran), st'. split; [|split; [rewrite E; now destruct rearm|]].
    + eapply pass_serve; [exact R|exact Sv|exact P].
    + intros HH. rewrite (Q HH). f_equal. destruct Sv as (pos & x & Ex & _ & _ & Ec). apply filter_ext_in. intros k Hk. apply requested_control; [rewrite List.Forall_forall in Hns; now apply Hns|].
      intros ic Hic. rewrite Ec by done. specialize (HH n n (aget (now (channel st n)) COUNT) ((aget (base (channel st n)) COUNT + 1) * (if n <? 4 then 1 else 2)) st ic Hst Hic). now rewrite Ex in HH.
  - destruct (IH rearm st Hst) as (ran & st' & P & E & Q). exists ran, st'. split; [now apply pass_skip|]. now split.
Qed.

(** C37: [DMA_run] goes over the eight channels once, in order.  For any handlers
    that keep the controllers well-formed, and may change requests and masks of
    channels still to come: a channel is served exactly if it is requested and not
    masked at its turn; serving it calls its handler with its position and size in
    bytes and stores the position returned, and changes nothing else.  The bottom
    half is scheduled again exactly when a channel was served.  If handlers leave
    requests and masks alone, the channels served are those requested at the start. *)
Theorem dma_run_services st : dma_ok st -> exists ran st', pass (seqZ 0 8) ran st st'
  /\ DMA_run transfer_handler bh st = (match ran with [] => st' | _ => (st'.1, bh st'.2) end)
  /\ (quiet_handlers -> ran = List.filter (requested st) (seqZ 0 8)).
Proof.
  intros Hst. destruct (run_loop_pass (seqZ 0 8) false st Hst) as (ran & st' & P & E & Q).
  { apply List.Forall_forall. intros n Hn. apply list_elem_of_In, elem_of_seqZ in Hn. lia. }
  exists ran, st'. split; [exact P|]. split; [|exact Q]. unfold DMA_run. change dma_pairs with (map (fun n => (n / 4, n mod 4)) (seqZ 0 8)). rewrite E. now destruct ran.
Qed.
End Reach.

(** A handler that finishes the transfer and takes back the request, as the floppy
    controller does: channel 2 unmasked and requesting. *)
Definition finish (_ _ _ len : Z) (st : dma_state (W := nat)) : Z * dma_state (W := nat) := (len, upd_cont 0 (fun d => d <| status := u8 (status d .& ~~ 0x40) |>) st).

Lemma finish_ok n c p l st : dma_ok st -> dma_ok (finish n c p l st).2.
Proof. intros H. apply upd_cont_ok; [exact H|lia|]. intros d []. constructor; try assumption. apply u8_range. Qed.

Lemma dma_run_services_witness :
  let d := (upd_reg 2 (fun r => r <| base := [0; 511] |>) cont_zero) <| status := 0x40 |> in
  let st := ([d; cont_zero <| dshift := 1 |>], O) in
  exists ran st', pass finish (seqZ 0 8) ran st st' /\ DMA_run finish S st = (st'.1, S st'.2) /\ aget (now (channel st' 2)) COUNT = 512.
Proof.
  intros d st. assert (dma_ok st) as Hst.
  { destruct cont_zero_ok. split; [reflexivity|]. split; constructor; cbn; try done; try (split; done). repeat (apply List.Forall_cons; [constructor; cbn; try done; try (split; done); repeat (apply List.Forall_cons; [split; done|]); apply List.Forall_nil|]). apply List.Forall_nil. }
  destruct (dma_run_services finish S finish_ok st Hst) as (ran & st' & P & E & _). exists ran, st'. split; [exact P|].
  assert ((DMA_run finish S st).2 = 1%nat) as W1 by (vm_compute; reflexivity). assert (aget (now (reg (cont (DMA_run finish S st) 0) 2)) COUNT = 512) as C1 by (vm_compute; reflexivity).
  destruct ran as [|n ran].
  - exfalso. assert (st' = st) as -> by exact (pass_none finish _ _ _ P). rewrite E in W1. discriminate W1.
  - rewrite E in *. split; [reflexivity|exact C1].
Defined.


(** In address-decrement mode a block of four bytes comes back as a palindrome,
    not in reverse order. *)
Lemma decrement_read_is_palindrome :
  let mem := fun (a n : Z) (w : list Z) => take (Z.to_nat n) (drop (Z.to_nat a) w) in
  let d := upd_reg 1 (fun r => r <| mode := 0x20 |> <| now := [4; 0] |>) cont_zero in
  DMA_read_memory mem 1 0 4 ([d; cont_zero], [1; 2; 3; 4]) = [4; 3; 3; 4].
Proof. vm_compute. reflexivity. Qed.

End Dma.
