(* ===== verification/Apic.v ===== *)
(** * The local APICs: hw/apic.c

    [APICState] is the struct of the same name; [bus] holds the array
    [local_apics] (a list: the non-NULL prefix, in registration order), the
    counter [apic_irq_delivered] and the environment [W] of the CPUs.  The CPU
    entry points the file calls ([cpu_interrupt] and the like) are arguments on
    [W] that take the index of the CPU; [ioapic_eoi_broadcast] is an argument on
    the bus, which [IoApic] supplies. *)

From S2P Require Import Prelude Irq HostUtils Rtc.
Import HostUtils.

Module Apic.

Definition APIC_LVT_TIMER : Z := 0.
Definition APIC_LVT_LINT0 : Z := 3.
Definition APIC_LVT_LINT1 : Z := 4.
Definition APIC_LVT_NB : Z := 6.
Definition APIC_TRIGGER_EDGE : Z := 0.
Definition APIC_TRIGGER_LEVEL : Z := 1.
Definition APIC_LVT_TIMER_PERIODIC : Z := 1 << 17.
Definition APIC_LVT_MASKED : Z := 1 << 16.
Definition APIC_LVT_LEVEL_TRIGGER : Z := 1 << 15.
Definition ESR_ILLEGAL_ADDRESS : Z := 1 << 7.
Definition APIC_SV_DIRECTED_IO : Z := 1 << 12.
Definition APIC_SV_ENABLE : Z := 1 << 8.
Definition MAX_APICS : Z := 255.
Definition MSR_IA32_APICBASE_BSP : Z := 1 << 8.
Definition MSR_IA32_APICBASE_ENABLE : Z := 1 << 11.
Definition CPU_INTERRUPT_HARD : Z := 0x0002.
Definition CPU_INTERRUPT_SMI : Z := 0x0040.
Definition CPU_INTERRUPT_NMI : Z := 0x0200.
Definition CPU_INTERRUPT_INIT : Z := 0x0400.
Definition CPU_INTERRUPT_SIPI : Z := 0x0800.

Record APICState := mkAPIC {
  apicbase : Z;
  id : Z;
  arb_id : Z;
  tpr : Z;
  spurious_vec : Z;
  log_dest : Z;
  dest_mode : Z;
  isr : list Z;      (* uint32_t [8] *)
  tmr : list Z;
  irr : list Z;
  lvt : list Z;      (* uint32_t [APIC_LVT_NB] *)
  esr : Z;
  icr : list Z;      (* uint32_t [2] *)
  divide_conf : Z;
  count_shift : Z;
  initial_count : Z;
  initial_count_load_time : Z;
  next_time : Z;
  idx : Z;
  timer : option Z;
  sipi_vector : Z;
  wait_for_sipi : Z
}.

#[export] Instance APICState_eta : Eta APICState := fun s =>
  mkAPIC (apicbase s) (id s) (arb_id s) (tpr s) (spurious_vec s) (log_dest s) (dest_mode s)
    (isr s) (tmr s) (irr s) (lvt s) (esr s) (icr s) (divide_conf s) (count_shift s)
    (initial_count s) (initial_count_load_time s) (next_time s) (idx s) (timer s)
    (sipi_vector s) (wait_for_sipi s).

(** Find first bit starting from msb, and from lsb. *)
Definition fls_bit (value : Z) : Z := 31 - clz32 value.
Definition ffs_bit (value : Z) : Z := ctz32 value.

Definition set_bit (tab : list Z) (index : Z) : list Z :=
  let i := index >> 5 in
  aset tab i (u32 (aget tab i .| (1 << (index .& 0x1f)))).

Definition reset_bit (tab : list Z) (index : Z) : list Z :=
  let i := index >> 5 in
  aset tab i (u32 (aget tab i .& ~~ (1 << (index .& 0x1f)))).

Definition get_bit (tab : list Z) (index : Z) : Z :=
  let i := index >> 5 in
  b2z (tst (aget tab i) (1 << (index .& 0x1f))).

(** The [for] loop of [get_highest_priority_int], from word [i - 1] down. *)
Fixpoint highest_from (tab : list Z) (i : nat) : Z :=
  match i with
  | O => -1
  | S i => if negb (aget tab (Z.of_nat i) =? 0) then Z.of_nat i * 32 + fls_bit (aget tab (Z.of_nat i))
           else highest_from tab i
  end.

(** Return -1 if no bit is set. *)
Definition get_highest_priority_int (tab : list Z) : Z := highest_from tab 8.

Definition apic_get_ppr (s : APICState) : Z :=
  let tp := tpr s >> 4 in
  let isrv := get_highest_priority_int (isr s) in
  let isrv := if isrv <? 0 then 0 else isrv in
  let isrv := isrv >> 4 in
  if isrv <=? tp then tpr s else isrv << 4.

Definition apic_get_arb_pri (s : APICState) : Z := 0.

(** <0 - low prio interrupt, 0 - no interrupt, >0 - interrupt number *)
Definition apic_irq_pending (s : APICState) : Z :=
  let irrv := get_highest_priority_int (irr s) in
  if irrv <? 0 then 0
  else
    let ppr := apic_get_ppr s in
    if truthy ppr && (irrv .& 0xf0 <=? ppr .& 0xf0) then -1 else irrv.

Definition apic_get_current_count (now : Z) (s : APICState) : Z :=
  let d := (now - initial_count_load_time s) >> count_shift s in
  if tst (aget (lvt s) APIC_LVT_TIMER) APIC_LVT_TIMER_PERIODIC then
    (* periodic *)
    u32 (initial_count s - u64 d mod (initial_count s + 1))
  else if initial_count s <=? d then 0 else u32 (initial_count s - d).

Definition apic_timer_update (current_time : Z) (s : APICState) : APICState :=
  let arm d :=
    let nt := s64 (initial_count_load_time s + (d << count_shift s)) in
    let s := s <| timer := Some nt |> in
    s <| next_time := nt |> in
  let no_timer := s <| timer := None |> in
  if negb (tst (aget (lvt s) APIC_LVT_TIMER) APIC_LVT_MASKED) then
    let d := (current_time - initial_count_load_time s) >> count_shift s in
    if tst (aget (lvt s) APIC_LVT_TIMER) APIC_LVT_TIMER_PERIODIC then
      if initial_count s =? 0 then no_timer
      else arm (s64 (u64 ((u64 d / (initial_count s + 1) + 1) * (initial_count s + 1))))
    else if initial_count s <=? d then no_timer
    else arm (initial_count s + 1)
  else no_timer.

Definition cpu_get_apic_base (s : option APICState) : Z :=
  match s with Some s => apicbase s | None => 0 end.

Definition cpu_get_apic_tpr (s : option APICState) : Z :=
  match s with Some s => tpr s >> 4 | None => 0 end.

Definition apic_accept_pic_intr (s : option APICState) : Z :=
  match s with
  | None => -1
  | Some s =>
      let lvt0 := aget (lvt s) APIC_LVT_LINT0 in
      if (apicbase s .& MSR_IA32_APICBASE_ENABLE =? 0) || (lvt0 .& APIC_LVT_MASKED =? 0)
      then 1 else 0
  end.

Definition apic_init_reset (s : APICState) : APICState :=
  let s := s <| tpr := 0 |> in
  let s := s <| spurious_vec := 0xff |> in
  let s := s <| log_dest := 0 |> in
  let s := s <| dest_mode := 0xf |> in
  let s := s <| isr := replicate 8 0 |> in
  let s := s <| tmr := replicate 8 0 |> in
  let s := s <| irr := replicate 8 0 |> in
  let s := s <| lvt := replicate 6 (1 << 16) |> in (* mask LVT *)
  let s := s <| esr := 0 |> in
  let s := s <| icr := replicate 2 0 |> in
  let s := s <| divide_conf := 0 |> in
  let s := s <| count_shift := 0 |> in
  let s := s <| initial_count := 0 |> in
  let s := s <| initial_count_load_time := 0 |> in
  let s := s <| next_time := 0 |> in
  s <| wait_for_sipi := 1 |>.

(** [bsp] is [cpu_is_bsp]. *)
Definition apic_reset (bsp : bool) (s : APICState) : APICState :=
  let s := s <| apicbase := 0xfee00000 .| (if bsp then MSR_IA32_APICBASE_BSP else 0)
                            .| MSR_IA32_APICBASE_ENABLE |> in
  let s := apic_init_reset s in
  if bsp then s <| lvt := aset (lvt s) APIC_LVT_LINT0 0x700 |> else s.

Section Cpu.
Context {W : Type}.
Context (cpu_interrupt cpu_reset_interrupt : Z -> Z -> W -> W).
Context (cpu_clear_apic_feature : Z -> W -> W) (cpu_x86_load_seg_cache_sipi : Z -> Z -> W -> W).

(** The globals: [apic_irq_delivered] and the CPUs. *)
Definition glob : Type := Z * W.
Definition on_cpu (f : W -> W) (g : glob) : glob := (g.1, f g.2).

(** Signal the CPU if an irq is pending. *)
Definition apic_update_irq (s : APICState) (g : glob) : glob :=
  if negb (tst (spurious_vec s) APIC_SV_ENABLE) then g
  else if 0 <? apic_irq_pending s then on_cpu (cpu_interrupt (idx s) CPU_INTERRUPT_HARD) g
  else g.

Definition apic_set_irq (vector_num trigger_mode : Z) (s : APICState) (g : glob) : APICState * glob :=
  let g := (g.1 + b2z (negb (truthy (get_bit (irr s) vector_num))), g.2) in
  let s := s <| irr := set_bit (irr s) vector_num |> in
  let s := if truthy trigger_mode then s <| tmr := set_bit (tmr s) vector_num |>
           else s <| tmr := reset_bit (tmr s) vector_num |> in
  (s, apic_update_irq s g).

Definition apic_local_deliver (vector : Z) (s : APICState) (g : glob) : APICState * glob :=
  let l := aget (lvt s) vector in
  if tst l APIC_LVT_MASKED then (s, g)
  else
    match (l >> 8) .& 7 with
    | 2 => (* APIC_DM_SMI *) (s, on_cpu (cpu_interrupt (idx s) CPU_INTERRUPT_SMI) g)
    | 4 => (* APIC_DM_NMI *) (s, on_cpu (cpu_interrupt (idx s) CPU_INTERRUPT_NMI) g)
    | 7 => (* APIC_DM_EXTINT *) (s, on_cpu (cpu_interrupt (idx s) CPU_INTERRUPT_HARD) g)
    | 0 => (* APIC_DM_FIXED *)
        let trigger_mode :=
          if ((vector =? APIC_LVT_LINT0) || (vector =? APIC_LVT_LINT1))
             && tst l APIC_LVT_LEVEL_TRIGGER
          then APIC_TRIGGER_LEVEL else APIC_TRIGGER_EDGE in
        apic_set_irq (l .& 0xff) trigger_mode s g
    | _ => (s, g)
    end.

Definition apic_deliver_pic_intr (level : Z) (s : APICState) (g : glob) : APICState * glob :=
  if truthy level then apic_local_deliver APIC_LVT_LINT0 s g
  else
    let l := aget (lvt s) APIC_LVT_LINT0 in
    match (l >> 8) .& 7 with
    | 0 => (* APIC_DM_FIXED *)
        if negb (tst l APIC_LVT_LEVEL_TRIGGER) then (s, g)
        else (* fall through *)
          (s <| irr := reset_bit (irr s) (l .& 0xff) |>,
           on_cpu (cpu_reset_interrupt (idx s) CPU_INTERRUPT_HARD) g)
    | 7 => (* APIC_DM_EXTINT *) (s, on_cpu (cpu_reset_interrupt (idx s) CPU_INTERRUPT_HARD) g)
    | _ => (s, g)
    end.

Definition cpu_set_apic_base (val : Z) (s : APICState) (g : glob) : APICState * glob :=
  let s := s <| apicbase := u32 ((val .& 0xfffff000)
             .| (apicbase s .& (MSR_IA32_APICBASE_BSP .| MSR_IA32_APICBASE_ENABLE))) |> in
  (* if disabled, cannot be enabled again *)
  if negb (tst val MSR_IA32_APICBASE_ENABLE) then
    let s := s <| apicbase := u32 (apicbase s .& ~~ MSR_IA32_APICBASE_ENABLE) |> in
    let g := on_cpu (cpu_clear_apic_feature (idx s)) g in
    (s <| spurious_vec := u32 (spurious_vec s .& ~~ APIC_SV_ENABLE) |>, g)
  else (s, g).

Definition cpu_set_apic_tpr (val : Z) (s : APICState) (g : glob) : APICState * glob :=
  let s := s <| tpr := u8 ((val .& 0x0f) << 4) |> in
  (s, apic_update_irq s g).

Definition apic_startup (vector_num : Z) (s : APICState) (g : glob) : APICState * glob :=
  let s := s <| sipi_vector := vector_num |> in
  (s, on_cpu (cpu_interrupt (idx s) CPU_INTERRUPT_SIPI) g).

Definition apic_sipi (s : APICState) (g : glob) : APICState * glob :=
  let g := on_cpu (cpu_reset_interrupt (idx s) CPU_INTERRUPT_SIPI) g in
  if negb (truthy (wait_for_sipi s)) then (s, g)
  else
    let g := on_cpu (cpu_x86_load_seg_cache_sipi (idx s) (sipi_vector s)) g in
    (s <| wait_for_sipi := 0 |>, g).

Definition apic_get_interrupt (s : option APICState) (g : glob) : Z * (option APICState * glob) :=
  match s with
  | None => (-1, (s, g))
  | Some a =>
      if negb (tst (spurious_vec a) APIC_SV_ENABLE) then (-1, (s, g))
      else
        let intno := apic_irq_pending a in
        if intno =? 0 then (-1, (s, g))
        else if intno <? 0 then (spurious_vec a .& 0xff, (s, g))
        else
          let a := a <| irr := reset_bit (irr a) intno |> in
          let a := a <| isr := set_bit (isr a) intno |> in
          (intno, (Some a, apic_update_irq a g))
  end.

Definition apic_timer (s : APICState) (g : glob) : APICState * glob :=
  let '(s, g) := apic_local_deliver APIC_LVT_TIMER s g in
  (apic_timer_update (next_time s) s, g).

(** ** The APIC bus *)

Record bus := mkBus {
  local_apics : list APICState;
  globals : glob
}.

#[export] Instance bus_eta : Eta bus := fun b => mkBus (local_apics b) (globals b).

(** Run [f] on [local_apics[i]] unless it is NULL. *)
Definition at_apic (i : Z) (f : APICState -> glob -> APICState * glob) (b : bus) : bus :=
  match local_apics b !! Z.to_nat i with
  | Some s => let '(s, g) := f s (globals b) in mkBus (<[Z.to_nat i := s]> (local_apics b)) g
  | None => b
  end.

(** [foreach_apic]: the APICs whose bit is set, in index order. *)
Definition foreach_apic (f : APICState -> glob -> APICState * glob) (bitmask : list Z) (b : bus) : bus :=
  foldl (fun b i => if truthy (get_bit bitmask (Z.of_nat i)) then at_apic (Z.of_nat i) f b else b)
    b (seq 0 256).

(** The search for the first set bit in [APIC_DM_LOWPRI]. *)
Fixpoint lowpri_from (bitmask : list Z) (i : Z) : Z :=
  match bitmask with
  | [] => -1
  | m :: rest => if truthy m then i * 32 + ffs_bit m else lowpri_from rest (i + 1)
  end.

Definition apic_bus_deliver (bitmask : list Z) (delivery_mode vector_num polarity trigger_mode : Z)
    (b : bus) : bus :=
  let irq := fun m s g => (s, on_cpu (cpu_interrupt (idx s) m) g) in
  match delivery_mode with
  | 1 => (* APIC_DM_LOWPRI *)
      let d := lowpri_from bitmask 0 in
      if 0 <=? d then at_apic d (apic_set_irq vector_num trigger_mode) b else b
  | 2 => (* APIC_DM_SMI *) foreach_apic (irq CPU_INTERRUPT_SMI) bitmask b
  | 4 => (* APIC_DM_NMI *) foreach_apic (irq CPU_INTERRUPT_NMI) bitmask b
  | 5 => (* APIC_DM_INIT *) foreach_apic (irq CPU_INTERRUPT_INIT) bitmask b
  | 0 | 7 => (* APIC_DM_FIXED, APIC_DM_EXTINT *)
      foreach_apic (apic_set_irq vector_num trigger_mode) bitmask b
  | _ => b
  end.

(** The loop of [apic_find_dest]: up to [MAX_APICS], stopping at a NULL. *)
Fixpoint find_dest_from (dest : Z) (i : Z) (l : list APICState) : Z :=
  match l with
  | [] => -1
  | a :: rest =>
      if MAX_APICS <=? i then -1
      else if id a =? dest then i else find_dest_from dest (i + 1) rest
  end.

Definition apic_find_dest (dest : Z) (b : bus) : Z :=
  match local_apics b !! Z.to_nat dest with
  | Some a => if id a =? dest then dest else find_dest_from dest 0 (local_apics b)
  | None => find_dest_from dest 0 (local_apics b)
  end.

(** Does a logical destination select this APIC? *)
Definition logical_match (dest : Z) (a : APICState) : bool :=
  if dest_mode a =? 0xf then tst dest (log_dest a)
  else if dest_mode a =? 0x0 then
    (dest .& 0xf0 =? log_dest a .& 0xf0) && truthy (dest .& log_dest a .& 0x0f)
  else false.

Fixpoint logical_from (dest : Z) (i : Z) (l : list APICState) (bitmask : list Z) : list Z :=
  match l with
  | [] => bitmask
  | a :: rest =>
      if MAX_APICS <=? i then bitmask
      else logical_from dest (i + 1) rest
             (if logical_match dest a then set_bit bitmask i else bitmask)
  end.

Definition mask_all : list Z := replicate 8 0xffffffff.
Definition mask_none : list Z := replicate 8 0.

Definition apic_get_delivery_bitmask (dest dmode : Z) (b : bus) : list Z :=
  if dmode =? 0 then
    if dest =? 0xff then mask_all
    else
      let i := apic_find_dest dest b in
      if 0 <=? i then set_bit mask_none i else mask_none
  else (* XXX: cluster mode *)
    logical_from dest 0 (local_apics b) mask_none.

Definition apic_deliver_irq (dest dmode delivery_mode vector_num polarity trigger_mode : Z) (b : bus) : bus :=
  apic_bus_deliver (apic_get_delivery_bitmask dest dmode b) delivery_mode vector_num polarity
    trigger_mode b.

(** The interprocessor interrupt of the APIC [s]. *)
Definition apic_deliver (s : APICState) (dest dmode delivery_mode vector_num polarity trigger_mode : Z)
    (b : bus) : bus :=
  let icr0 := aget (icr s) 0 in
  let bitmask :=
    match (icr0 >> 18) .& 3 with
    | 0 => apic_get_delivery_bitmask dest dmode b
    | 1 => set_bit mask_none (idx s)
    | 2 => mask_all
    | _ => reset_bit mask_all (idx s)
    end in
  match delivery_mode with
  | 5 => (* APIC_DM_INIT *)
      let trig_mode := (icr0 >> 15) .& 1 in
      let level := (icr0 >> 14) .& 1 in
      if (level =? 0) && (trig_mode =? 1) then
        foreach_apic (fun a g => (a <| arb_id := id a |>, g)) bitmask b
      else apic_bus_deliver bitmask delivery_mode vector_num polarity trigger_mode b
  | 6 => (* APIC_DM_SIPI *) foreach_apic (apic_startup vector_num) bitmask b
  | _ => apic_bus_deliver bitmask delivery_mode vector_num polarity trigger_mode b
  end.

(** MSI: the address selects the destination, the data the vector. *)
Definition apic_send_msi (addr data : Z) (b : bus) : bus :=
  let dest := u8 ((addr .& 0x00ffff0) >> 12) in
  let vector := u8 (data .& 0x000000ff) in
  let dmode := (addr >> 2) .& 0x1 in
  let trigger_mode := (data >> 15) .& 0x1 in
  let delivery := (data >> 8) .& 0x7 in
  (* XXX: Ignore redirection hint. *)
  apic_deliver_irq dest dmode delivery vector 0 trigger_mode b.

Section Eoi.
Context (ioapic_eoi_broadcast : Z -> bus -> bus).

Definition apic_eoi (i : Z) (b : bus) : bus :=
  match local_apics b !! Z.to_nat i with
  | None => b
  | Some s =>
      let isrv := get_highest_priority_int (isr s) in
      if isrv <? 0 then b
      else
        let s := s <| isr := reset_bit (isr s) isrv |> in
        let b := b <| local_apics := <[Z.to_nat i := s]> (local_apics b) |> in
        let b := if negb (tst (spurious_vec s) APIC_SV_DIRECTED_IO) && truthy (get_bit (tmr s) isrv)
                 then ioapic_eoi_broadcast isrv b else b in
        at_apic i (fun s g => (s, apic_update_irq s g)) b
  end.

(** [cur] is the index of [cpu_get_current_apic], [None] when it is NULL. *)
Definition apic_mem_writel (cur : option Z) (addr val now : Z) (b : bus) : bus :=
  let index := (addr >> 4) .& 0xff in
  if (0xfff <? addr) || (index =? 0) then apic_send_msi addr val b
  else
    match cur with
    | None => b
    | Some i =>
        let upd f := at_apic i (fun s g => (f s, g)) b in
        let upd_irq f := at_apic i (fun s g => let s := f s in (s, apic_update_irq s g)) b in
        if index =? 0x02 then upd (fun s => s <| id := u8 (val >> 24) |>)
        else if index =? 0x03 then b
        else if index =? 0x08 then upd_irq (fun s => s <| tpr := u8 val |>)
        else if (index =? 0x09) || (index =? 0x0a) then b
        else if index =? 0x0b then apic_eoi i b
        else if index =? 0x0d then upd (fun s => s <| log_dest := u8 (val >> 24) |>)
        else if index =? 0x0e then upd (fun s => s <| dest_mode := u8 (val >> 28) |>)
        else if index =? 0x0f then upd_irq (fun s => s <| spurious_vec := val .& 0x1ff |>)
        else if (0x10 <=? index) && (index <=? 0x28) then b
        else if index =? 0x30 then
          let b := upd (fun s => s <| icr := aset (icr s) 0 (u32 val) |>) in
          match local_apics b !! Z.to_nat i with
          | None => b
          | Some s =>
              let icr0 := aget (icr s) 0 in
              apic_deliver s ((aget (icr s) 1 >> 24) .& 0xff) ((icr0 >> 11) .& 1)
                ((icr0 >> 8) .& 7) (icr0 .& 0xff) ((icr0 >> 14) .& 1) ((icr0 >> 15) .& 1) b
          end
        else if index =? 0x31 then upd (fun s => s <| icr := aset (icr s) 1 (u32 val) |>)
        else if (0x32 <=? index) && (index <=? 0x37) then
          let n := index - 0x32 in
          upd (fun s =>
            let s := s <| lvt := aset (lvt s) n (u32 val) |> in
            if n =? APIC_LVT_TIMER then apic_timer_update now s else s)
        else if index =? 0x38 then
          upd (fun s =>
            let s := s <| initial_count := u32 val |> in
            let s := s <| initial_count_load_time := now |> in
            apic_timer_update (initial_count_load_time s) s)
        else if index =? 0x39 then b
        else if index =? 0x3e then
          upd (fun s =>
            let s := s <| divide_conf := val .& 0xb |> in
            let v := (divide_conf s .& 3) .| ((divide_conf s >> 1) .& 4) in
            s <| count_shift := (v + 1) .& 7 |>)
        else upd (fun s => s <| esr := u32 (esr s .| ESR_ILLEGAL_ADDRESS) |>)
    end.
End Eoi.

Definition apic_mem_readl (cur : option Z) (addr now : Z) (b : bus) : Z * bus :=
  match cur with
  | None => (0, b)
  | Some i =>
      match local_apics b !! Z.to_nat i with
      | None => (0, b)
      | Some s =>
          let index := (addr >> 4) .& 0xff in
          if index =? 0x02 then (id s << 24, b)
          else if index =? 0x03 then (0x11 .| ((APIC_LVT_NB - 1) << 16), b) (* version 0x11 *)
          else if index =? 0x08 then (tpr s, b)
          else if index =? 0x09 then (apic_get_arb_pri s, b)
          else if index =? 0x0a then (apic_get_ppr s, b)
          else if index =? 0x0b then (0, b)
          else if index =? 0x0d then (log_dest s << 24, b)
          else if index =? 0x0e then (u32 (dest_mode s << 28), b)
          else if index =? 0x0f then (spurious_vec s, b)
          else if (0x10 <=? index) && (index <=? 0x17) then (aget (isr s) (index .& 7), b)
          else if (0x18 <=? index) && (index <=? 0x1f) then (aget (tmr s) (index .& 7), b)
          else if (0x20 <=? index) && (index <=? 0x27) then (aget (irr s) (index .& 7), b)
          else if index =? 0x28 then (esr s, b)
          else if (index =? 0x30) || (index =? 0x31) then (aget (icr s) (index .& 1), b)
          else if (0x32 <=? index) && (index <=? 0x37) then (aget (lvt s) (index - 0x32), b)
          else if index =? 0x38 then (initial_count s, b)
          else if index =? 0x39 then (apic_get_current_count now s, b)
          else if index =? 0x3e then (divide_conf s, b)
          else (0, at_apic i (fun s g => (s <| esr := u32 (esr s .| ESR_ILLEGAL_ADDRESS) |>, g)) b)
      end
  end.

(** [apic_init1]: a new APIC takes the next index; [None] when all are taken. *)
Definition apic_init1 (a : APICState) (b : bus) : option bus :=
  let i := Z.of_nat (length (local_apics b)) in
  if MAX_APICS <=? i then None
  else Some (b <| local_apics := local_apics b ++ [a <| idx := i |>] |>).
End Cpu.

Arguments glob W : clear implicits.
Arguments bus W : clear implicits.

(** The delivery report the real-time clock uses. *)
#[export] Instance bus_irq_delivered W : IrqDelivered (bus W) := {|
  apic_reset_irq_delivered b := mkBus (local_apics b) (0, (globals b).2);
  apic_get_irq_delivered b := (globals b).1;
  irq_delivered_reset b := eq_refl
|}.

(** ** The 256-bit registers as sets of vectors *)

Definition vec (tab : list Z) (v : Z) : bool := Z.testbit (aget tab (v / 32)) (v mod 32).

Definition tab_ok (tab : list Z) : Prop := length tab = 8%nat /\ Forall (in_u 32) tab.

Lemma word_index v : v >> 5 = v / 32 /\ v .& 0x1f = v mod 32.
Proof. split; [now apply Z.shiftr_div_pow2|now apply (land_ones_mod v 5)]. Qed.

Lemma word_range v : 0 <= v < 256 -> 0 <= v / 32 < 8 /\ 0 <= v mod 32 < 32.
Proof. intros. Z.div_mod_to_equations. lia. Qed.

Lemma word_eq u v : u / 32 = v / 32 -> u mod 32 = v mod 32 -> u = v.
Proof. intros. Z.div_mod_to_equations. lia. Qed.

Lemma get_bit_vec tab v : 0 <= v < 256 -> get_bit tab v = b2z (vec tab v).
Proof.
  intros Hv. unfold get_bit, vec. destruct (word_index v) as [-> ->].
  pose proof (word_range v Hv). now rewrite tst_bit by lia.
Qed.

Lemma vec_aset tab v u x : tab_ok tab -> 0 <= v < 256 -> 0 <= u < 256 ->
  vec (aset tab (v / 32) x) u =
  if v / 32 =? u / 32 then Z.testbit x (u mod 32) else vec tab u.
Proof.
  intros [Hl _] Hv Hu. pose proof (word_range v Hv). pose proof (word_range u Hu). unfold vec.
  destruct (Z.eqb_spec (v / 32) (u / 32)) as [E|].
  - rewrite E, aget_aset_eq by lia. done.
  - rewrite aget_aset_ne by lia. done.
Qed.

Lemma vec_set tab v u : tab_ok tab -> 0 <= v < 256 -> 0 <= u < 256 ->
  vec (set_bit tab v) u = (u =? v) || vec tab u.
Proof.
  intros Ht Hv Hu. unfold set_bit. destruct (word_index v) as [-> ->].
  pose proof (word_range v Hv). pose proof (word_range u Hu).
  rewrite vec_aset by done. destruct (Z.eqb_spec (v / 32) (u / 32)) as [E|N].
  - autorewrite with bits. destruct (Z.ltb_spec (u mod 32) 32); [|lia]. unfold vec. rewrite E.
    destruct (Z.eqb_spec (u mod 32) (v mod 32)) as [E'|N'], (Z.eqb_spec u v) as [->|]; cbn [andb orb];
      rewrite ?orb_true_r, ?orb_false_r; try done.
    exfalso. eauto using word_eq.
  - destruct (Z.eqb_spec u v) as [->|]; [done|]. done.
Qed.

Lemma vec_reset tab v u : tab_ok tab -> 0 <= v < 256 -> 0 <= u < 256 ->
  vec (reset_bit tab v) u = negb (u =? v) && vec tab u.
Proof.
  intros Ht Hv Hu. unfold reset_bit. destruct (word_index v) as [-> ->].
  pose proof (word_range v Hv). pose proof (word_range u Hu).
  rewrite vec_aset by done. destruct (Z.eqb_spec (v / 32) (u / 32)) as [E|N].
  - autorewrite with bits. destruct (Z.ltb_spec (u mod 32) 32); [|lia]. unfold vec. rewrite E.
    destruct (Z.eqb_spec (u mod 32) (v mod 32)) as [E'|N'], (Z.eqb_spec u v) as [->|]; cbn [andb negb];
      rewrite ?andb_true_r, ?andb_false_r; try done.
    exfalso. eauto using word_eq.
  - destruct (Z.eqb_spec u v) as [->|]; [done|]. done.
Qed.

Lemma set_bit_ok tab v : tab_ok tab -> tab_ok (set_bit tab v) /\ tab_ok (reset_bit tab v).
Proof.
  intros [Hl Hf]. unfold tab_ok, set_bit, reset_bit. rewrite !length_aset.
  split; (split; [done|]); apply aset_Forall; auto using u32_range.
Qed.

(** [v] is the highest vector of the register, -1 when it is empty. *)
Definition is_highest (tab : list Z) (n v : Z) : Prop :=
  (v = -1 \/ 0 <= v < n /\ vec tab v = true) /\ forall u, v < u < n -> 0 <= u -> vec tab u = false.

Lemma highest_from_spec tab n : tab_ok tab -> (n <= 8)%nat ->
  is_highest tab (32 * Z.of_nat n) (highest_from tab n).
Proof.
  intros Ht Hn. induction n as [|n IH]; [split; [now left|lia]|]. cbn [highest_from].
  specialize (IH ltac:(lia)). set (w := aget tab (Z.of_nat n)).
  assert (in_u 32 w) as Hw by (apply aget_Forall; [split; done|apply Ht]).
  assert (forall u, 32 * Z.of_nat n <= u < 32 * Z.of_nat (S n) ->
    vec tab u = Z.testbit w (u - 32 * Z.of_nat n)) as Hword.
  { intros u Hu. unfold vec, w. replace (u / 32) with (Z.of_nat n) by (Z.div_mod_to_equations; lia).
    f_equal. Z.div_mod_to_equations; lia. }
  destruct (Z.eqb_spec w 0) as [E|N]; cbn [negb].
  - destruct IH as [H1 H2]. split; [destruct H1 as [->|[? ?]]; [now left|right; split; [lia|done]]|].
    intros u Hu Hu0. destruct (Z.lt_ge_cases u (32 * Z.of_nat n)); [apply H2; lia|].
    rewrite Hword by lia. now rewrite E, Z.bits_0.
  - unfold fls_bit. assert (0 < w) by (destruct Hw; lia). rewrite clz32_log2 by done.
    assert (0 <= Z.log2 w < 32) as Hlog
      by (split; [apply Z.log2_nonneg|apply Z.log2_lt_pow2; [done|apply Hw]]).
    replace (31 - (31 - Z.log2 w)) with (Z.log2 w) by lia. split.
    + right. split; [lia|]. rewrite Hword by lia.
      replace (Z.of_nat n * 32 + Z.log2 w - 32 * Z.of_nat n) with (Z.log2 w) by lia.
      now apply Z.bit_log2.
    + intros u Hu Hu0. rewrite Hword by lia. apply Z.bits_above_log2; lia.
Qed.

Lemma highest_spec tab : tab_ok tab -> is_highest tab 256 (get_highest_priority_int tab).
Proof. intros. now apply (highest_from_spec tab 8). Qed.

Lemma is_highest_unique tab u v : is_highest tab 256 u -> is_highest tab 256 v -> u = v.
Proof.
  intros [Hu Hu'] [Hv Hv']. destruct (Z.lt_total u v) as [L|[E|L]]; [|done|].
  - destruct Hv as [->|[? Hv]]; [destruct Hu as [->|[? _]]; lia|]. rewrite Hu' in Hv by lia. done.
  - destruct Hu as [->|[? Hu]]; [destruct Hv as [->|[? _]]; lia|]. rewrite Hv' in Hu by lia. done.
Qed.

Record apic_ok (s : APICState) : Prop := {
  ok_isr : tab_ok (isr s);
  ok_irr : tab_ok (irr s);
  ok_tmr : tab_ok (tmr s);
  ok_tpr : in_u 8 (tpr s)
}.

(** The processor priority class is the larger of the task's and that of the
    highest vector in service. *)
Lemma ppr_class s : apic_ok s ->
  apic_get_ppr s / 16 = Z.max (tpr s / 16) (Z.max 0 (get_highest_priority_int (isr s)) / 16)
  /\ 0 <= apic_get_ppr s < 256.
Proof.
  intros [Hi _ _ [T0 T1]]. change (2 ^ 8) with 256 in *. unfold apic_get_ppr.
  rewrite !Z.shiftr_div_pow2, Z.shiftl_mul_pow2 by lia. change (2 ^ 4) with 16.
  pose proof (highest_spec _ Hi) as [Hh _]. set (h := get_highest_priority_int (isr s)) in *. clearbody h.
  assert ((if h <? 0 then 0 else h) = Z.max 0 h) as -> by (destruct (Z.ltb_spec h 0); lia).
  destruct (Z.leb_spec (Z.max 0 h / 16) (tpr s / 16)); [split; [lia|lia]|].
  rewrite Z.div_mul by lia. split; [lia|]. Z.div_mod_to_equations; lia.
Qed.

Lemma land_f0 x : 0 <= x < 256 -> x .& 0xf0 = 16 * (x / 16).
Proof.
  intros Hx. apply Z.eqb_eq.
  apply (all_below_spec 256 (fun x => x .& 0xf0 =? 16 * (x / 16))); [vm_compute; reflexivity|lia].
Qed.

(** The three answers of [apic_irq_pending] for the highest request [v]. *)
Lemma irq_pending_spec s : apic_ok s ->
  let v := get_highest_priority_int (irr s) in
  apic_irq_pending s =
  if v <? 0 then 0 else if (0 <? apic_get_ppr s) && (v / 16 <=? apic_get_ppr s / 16) then -1 else v.
Proof.
  intros H. cbv zeta. unfold apic_irq_pending. pose proof (highest_spec _ (ok_irr _ H)) as [Hh _].
  destruct (ppr_class s H) as [_ Hp]. destruct (Z.ltb_spec (get_highest_priority_int (irr s)) 0); [done|].
  rewrite !land_f0 by lia. unfold truthy.
  replace (negb (apic_get_ppr s =? 0)) with (0 <? apic_get_ppr s)
    by (destruct (Z.eqb_spec (apic_get_ppr s) 0), (Z.ltb_spec 0 (apic_get_ppr s)); lia || done).
  replace (16 * (get_highest_priority_int (irr s) / 16) <=? 16 * (apic_get_ppr s / 16))
    with (get_highest_priority_int (irr s) / 16 <=? apic_get_ppr s / 16); [done|].
  destruct (Z.leb_spec (get_highest_priority_int (irr s) / 16) (apic_get_ppr s / 16)),
    (Z.leb_spec (16 * (get_highest_priority_int (irr s) / 16)) (16 * (apic_get_ppr s / 16))); lia || done.
Qed.

(** ** Acknowledge and end of interrupt *)

Section Ack.
Context {W : Type} (cpu_interrupt : Z -> Z -> W -> W).

(** [r] beats the priority of the processor. *)
Definition beats (r ppr : Z) : Prop := ppr = 0 \/ ppr / 16 < r / 16.

Lemma get_interrupt_spec a (g : glob W) : apic_ok a -> tst (spurious_vec a) APIC_SV_ENABLE = true ->
  let '(r, (s', g')) := apic_get_interrupt cpu_interrupt (Some a) g in
  (r = -1 /\ s' = Some a /\ g' = g /\ forall u, 1 <= u < 256 -> vec (irr a) u = false)
  \/ (r = spurious_vec a .& 0xff /\ s' = Some a /\ g' = g
      /\ forall u, 0 <= u < 256 -> vec (irr a) u = true -> u / 16 <= apic_get_ppr a / 16)
  \/ (1 <= r < 256 /\ is_highest (irr a) 256 r /\ beats r (apic_get_ppr a)
      /\ exists a', s' = Some a' /\ apic_ok a'
         /\ a' = a <| irr := reset_bit (irr a) r |> <| isr := set_bit (isr a) r |>
         /\ g' = apic_update_irq cpu_interrupt a' g).
Proof.
  intros Hok Hen. pose proof (irq_pending_spec a Hok) as Hp. cbv zeta in Hp.
  pose proof (highest_spec _ (ok_irr _ Hok)) as [Hh Ha]. unfold apic_get_interrupt. rewrite Hen. cbn [negb].
  set (v := get_highest_priority_int (irr a)) in *.
  destruct (Z.ltb_spec v 0) as [Hv|Hv].
  { rewrite Hp. cbn [Z.eqb]. left. repeat split; try done. intros u Hu. apply Ha; lia. }
  destruct Hh as [->|[Hr Hset]]; [lia|].
  destruct ((0 <? apic_get_ppr a) && (v / 16 <=? apic_get_ppr a / 16)) eqn:E.
  - rewrite Hp. change (-1 =? 0) with false. change (-1 <? 0) with true. cbv iota.
    right. left. repeat split; try done.
    apply andb_true_iff in E as [_ E%Z.leb_le]. intros u Hu Hx.
    destruct (Z.lt_ge_cases v u); [rewrite Ha in Hx by lia; done|].
    etransitivity; [|exact E]. apply Z.div_le_mono; lia.
  - rewrite Hp. destruct (Z.eqb_spec v 0) as [E0|N0].
    { left. repeat split; try done. intros u Hu. apply Ha; lia. }
    destruct (Z.ltb_spec v 0); [lia|]. right. right. split; [lia|].
    split; [split; [right; split; [lia|done]|exact Ha]|]. split.
    { unfold beats. apply andb_false_iff in E as [E%Z.ltb_ge|E%Z.leb_gt]; [|now right].
      left. destruct (ppr_class a Hok) as [_ ?]. lia. }
    eexists. split; [reflexivity|]. split; [|split; reflexivity].
    destruct Hok as [H1 H2 H3 H4]. constructor; cbn [over isr irr tmr tpr]; try done; now apply set_bit_ok.
Qed.

(** Interrupt acknowledge of an enabled local APIC: -1 when nothing is
    requested; the spurious vector, with no state change, when every request is
    masked by the processor priority; otherwise the highest requested vector,
    which beats the task priority and everything in service, moves from the
    request to the in-service register and no other vector changes. *)
Theorem apic_get_interrupt_correct a (g : glob W) :
  apic_ok a -> tst (spurious_vec a) APIC_SV_ENABLE = true ->
  let '(r, (s', g')) := apic_get_interrupt cpu_interrupt (Some a) g in
  (r = -1 /\ s' = Some a /\ g' = g /\ forall u, 1 <= u < 256 -> vec (irr a) u = false)
  \/ (r = spurious_vec a .& 0xff /\ s' = Some a /\ g' = g
      /\ forall u, 0 <= u < 256 -> vec (irr a) u = true -> u / 16 <= apic_get_ppr a / 16)
  \/ (1 <= r < 256 /\ vec (irr a) r = true /\ beats r (apic_get_ppr a)
      /\ (forall u, r < u < 256 -> vec (irr a) u = false)
      /\ exists a', s' = Some a'
         /\ forall u, 0 <= u < 256 -> vec (irr a') u = negb (u =? r) && vec (irr a) u
                                      /\ vec (isr a') u = (u =? r) || vec (isr a) u).
Proof.
  intros Hok Hen. pose proof (get_interrupt_spec a g Hok Hen) as H.
  destruct (apic_get_interrupt cpu_interrupt (Some a) g) as [r [s' g']].
  destruct H as [H|[H|(Hr & [Hh Ha] & Hb & a' & -> & Hok' & -> & _)]]; [auto|auto|].
  right. right. destruct Hh as [->|[_ Hset]]; [lia|]. split; [done|]. split; [done|]. split; [done|].
  split; [intros u Hu; apply Ha; lia|]. eexists. split; [reflexivity|].
  intros u Hu. cbn [over irr isr].
  rewrite vec_reset by (done || apply Hok || lia). rewrite vec_set by (done || apply Hok || lia). done.
Qed.

Lemma vec_in_service_below a r : apic_ok a -> beats r (apic_get_ppr a) -> 16 <= r < 256 ->
  forall u, 0 <= u < 256 -> vec (isr a) u = true -> u < r.
Proof.
  intros Hok Hb Hr u Hu Hset. destruct (ppr_class a Hok) as [Hp Hrange].
  pose proof (highest_spec _ (ok_isr _ Hok)) as [_ Hi].
  assert (u <= get_highest_priority_int (isr a)) as Hle.
  { destruct (Z.lt_ge_cases (get_highest_priority_int (isr a)) u); [|lia].
    rewrite Hi in Hset by lia. done. }
  set (h := get_highest_priority_int (isr a)) in *. clearbody h.
  assert (u / 16 <= Z.max 0 h / 16) by (apply Z.div_le_mono; lia).
  assert (u / 16 < r / 16) as Hlt.
  { destruct Hb as [E|E]; [|lia]. rewrite E in Hp. change (0 / 16) with 0 in Hp.
    assert (1 <= r / 16) by (Z.div_mod_to_equations; lia). lia. }
  destruct (Z.lt_ge_cases u r); [done|]. pose proof (Z.div_le_mono r u 16). lia.
Qed.

(** Acknowledge and end of interrupt pair up: when the CPU has taken vector
    [r] from a local APIC, the next EOI ends exactly [r]: the in-service
    register is what it was before the acknowledge, the EOI is broadcast to the
    I/O APIC exactly when [r] was level-triggered, and the CPU is signalled
    again for what is pending then. *)
Theorem apic_ack_eoi (broadcast : Z -> bus W -> bus W) (i : Z) (b : bus W) a r a' g' :
  local_apics b !! Z.to_nat i = Some a -> apic_ok a -> 16 <= r ->
  tst (spurious_vec a) APIC_SV_ENABLE = true -> tst (spurious_vec a) APIC_SV_DIRECTED_IO = false ->
  vec (isr a) r = false -> r <> spurious_vec a .& 0xff ->
  apic_get_interrupt cpu_interrupt (Some a) (globals b) = (r, (Some a', g')) ->
  exists a'', (forall u, 0 <= u < 256 -> vec (isr a'') u = vec (isr a) u) /\ irr a'' = irr a'
    /\ let b1 := mkBus (<[Z.to_nat i := a']> (local_apics b)) g' in
       let b2 := mkBus (<[Z.to_nat i := a'']> (local_apics b)) g' in
       apic_eoi cpu_interrupt broadcast i b1 =
       at_apic i (fun s g => (s, apic_update_irq cpu_interrupt s g))
         (if vec (tmr a) r then broadcast r b2 else b2).
Proof.
  intros Hl Hok Hr16 Hen Hdir Hni Hns E. pose proof (get_interrupt_spec a (globals b) Hok Hen) as H.
  rewrite E in H. destruct H as [(-> & _)|[(-> & _)|(Hr & _ & Hb & a1 & Ea & Hok' & Ea' & _)]]; [lia|done|].
  injection Ea as <-. pose proof (vec_in_service_below a r Hok Hb ltac:(lia)) as Hbelow.
  assert (forall u, 0 <= u < 256 -> vec (isr a') u = (u =? r) || vec (isr a) u) as Hisr.
  { intros u Hu. rewrite Ea'. cbn [over isr]. apply vec_set; [apply Hok|lia|lia]. }
  assert (get_highest_priority_int (isr a') = r) as Hh.
  { apply (is_highest_unique (isr a')); [apply highest_spec, Hok'|]. split.
    - right. split; [lia|]. rewrite Hisr by lia. now rewrite Z.eqb_refl.
    - intros u Hu Hu0. rewrite Hisr by lia. destruct (Z.eqb_spec u r); [lia|]. cbn [orb].
      destruct (vec (isr a) u) eqn:Ev; [|done]. pose proof (Hbelow u ltac:(lia) Ev). lia. }
  assert (Z.to_nat i < length (local_apics b))%nat as Hlen by (apply lookup_lt_is_Some; eauto).
  exists (a' <| isr := reset_bit (isr a') r |>). cbn [over isr irr]. split.
  { intros u Hu. rewrite vec_reset by (apply Hok' || lia). rewrite Hisr by done.
    destruct (Z.eqb_spec u r) as [->|]; cbn [negb andb orb]; [now rewrite Hni|done]. }
  split; [done|]. unfold apic_eoi. cbn [local_apics]. rewrite list_lookup_insert_eq by done.
  rewrite Hh. destruct (Z.ltb_spec r 0); [lia|]. cbv zeta. cbn [over local_apics globals].
  rewrite list_insert_insert_eq.
  match goal with |- context [tst (spurious_vec ?x) APIC_SV_DIRECTED_IO] =>
    assert (spurious_vec x = spurious_vec a /\ tmr x = tmr a) as [-> ->] by now rewrite Ea' end.
  rewrite Hdir, get_bit_vec by lia. cbn [negb andb]. now destruct (vec (tmr a) r).
Qed.
End Ack.

(** An enabled APIC with vector 0x31 requested, level-triggered. *)
Definition apic_zero : APICState :=
  mkAPIC 0 0 0 0 0 0 0 (replicate 8 0) (replicate 8 0) (replicate 8 0) (replicate 6 0) 0
    (replicate 2 0) 0 0 0 0 0 0 None 0 0.

Lemma tab_ok_bool tab : (bool_decide (length tab = 8%nat) && forallb (fun x => (0 <=? x) && (x <? 2 ^ 32)) tab) = true ->
  tab_ok tab.
Proof.
  intros [H1 H2]%andb_true_iff. apply bool_decide_eq_true in H1. split; [done|].
  rewrite forallb_forall in H2. apply List.Forall_forall. intros x Hx. specialize (H2 x Hx).
  apply andb_true_iff in H2 as [?%Z.leb_le ?%Z.ltb_lt]. split; done.
Qed.

Definition apic_one : APICState :=
  (apic_reset true apic_zero) <| spurious_vec := 0x1ff |>
    <| irr := set_bit (replicate 8 0) 0x31 |> <| tmr := set_bit (replicate 8 0) 0x31 |>.

Lemma apic_one_ok : apic_ok apic_one.
Proof. constructor; try (apply tab_ok_bool; vm_compute; reflexivity). split; done. Qed.

Lemma apic_get_interrupt_correct_witness :
  let '(r, (s', g')) := apic_get_interrupt (fun _ _ w => w) (Some apic_one) (0, tt) in
  r = 0x31 /\ exists a', s' = Some a' /\ vec (isr a') 0x31 = true.
Proof.
  pose proof (apic_get_interrupt_correct (fun _ _ w => w) apic_one (0, tt) apic_one_ok eq_refl) as H.
  destruct (apic_get_interrupt (fun _ _ w => w) (Some apic_one) (0, tt)) as [r [s' g']] eqn:E.
  assert (r = 0x31) as -> by (apply (f_equal fst) in E; vm_compute in E; congruence).
  split; [reflexivity|]. destruct H as [(H & _)|[(H & _)|(_ & _ & _ & _ & a' & Ha & Hv)]].
  - discriminate H.
  - vm_compute in H. discriminate H.
  - exists a'. split; [exact Ha|]. apply (Hv 0x31). lia.
Defined.

Lemma apic_ack_eoi_witness : exists a'',
  let bc := fun (v : Z) (b : bus (list Z)) => b <| globals := ((globals b).1, (globals b).2 ++ [v]) |> in
  let cpu := fun (_ _ : Z) (w : list Z) => w in
  let a' := apic_one <| irr := reset_bit (irr apic_one) 0x31 |>
              <| isr := set_bit (isr apic_one) 0x31 |> in
  vec (isr a'') 0x31 = false
  /\ apic_eoi cpu bc 0 (mkBus [a'] (0, [])) = at_apic 0 (fun s g => (s, apic_update_irq cpu s g))
       (mkBus [a''] (0, [0x31])).
Proof.
  destruct (apic_ack_eoi (fun _ _ w => w)
    (fun v b => b <| globals := ((globals b).1, (globals b).2 ++ [v]) |>)
    0 (mkBus [apic_one] (0, [])) apic_one 0x31
    (apic_one <| irr := reset_bit (irr apic_one) 0x31 |> <| isr := set_bit (isr apic_one) 0x31 |>) (0, []))
    as (a'' & Hi & _ & He).
  - reflexivity.
  - exact apic_one_ok.
  - lia.
  - vm_compute; reflexivity.
  - vm_compute; reflexivity.
  - vm_compute; reflexivity.
  - vm_compute; discriminate.
  - vm_compute; reflexivity.
  - exists a''. cbv zeta. split; [rewrite Hi by lia; vm_compute; reflexivity|exact He].
Defined.

(** ** Delivery over the bus *)

Lemma mask_none_ok : tab_ok mask_none /\ tab_ok mask_all.
Proof. split; apply tab_ok_bool; vm_compute; reflexivity. Qed.

Lemma vec_replicate (x : Z) v : 0 <= v < 256 -> vec (replicate 8 x) v = Z.testbit x (v mod 32).
Proof.
  intros Hv. unfold vec. f_equal. unfold aget. rewrite nth_lookup, lookup_replicate_2; [done|].
  pose proof (word_range v Hv). lia.
Qed.

Lemma vec_none v : 0 <= v < 256 -> vec mask_none v = false.
Proof. intros. unfold mask_none. rewrite vec_replicate by done. apply Z.bits_0. Qed.

Lemma vec_all v : 0 <= v < 256 -> vec mask_all v = true.
Proof.
  intros Hv. unfold mask_all. rewrite vec_replicate by done. pose proof (word_range v Hv).
  change 0xffffffff with (Z.ones 32). apply Z.ones_spec_low. lia.
Qed.

Section Deliver.
Context {W : Type} (cpu_interrupt : Z -> Z -> W -> W).

(** The destination of an interrupt, as the programmer specifies it. *)
Definition selects (dest dmode : Z) (a : APICState) : bool :=
  if dmode =? 0 then (dest =? 0xff) || (id a =? dest) else logical_match dest a.

Lemma find_dest_spec dest k (l : list APICState) : 0 <= k -> k + Z.of_nat (length l) <= 255 ->
  NoDup (map id l) ->
  (find_dest_from dest k l = -1 /\ forall a, a ∈ l -> id a <> dest)
  \/ exists j a, l !! j = Some a /\ id a = dest /\ find_dest_from dest k l = k + Z.of_nat j
     /\ forall j' a', l !! j' = Some a' -> id a' = dest -> j' = j.
Proof.
  revert k. induction l as [|a l IH]; intros k Hk Hl Hnd.
  { left. split; [done|]. intros a Ha. now apply elem_of_nil in Ha. }
  cbn [find_dest_from length map] in *. pose proof (NoDup_cons_1_1 _ _ Hnd) as Hni; apply NoDup_cons_1_2 in Hnd.
  unfold MAX_APICS. destruct (Z.leb_spec 255 k); [lia|].
  destruct (Z.eqb_spec (id a) dest) as [E|N].
  - right. exists O, a. split; [done|]. split; [done|]. split; [lia|].
    intros [|j'] a' Hj Ha; [done|]. exfalso. apply Hni. rewrite E, <- Ha.
    apply list_elem_of_In, in_map, list_elem_of_In. cbn in Hj. eapply list_elem_of_lookup_2; eauto.
  - destruct (IH (k + 1)) as [[E H']|(j & a' & Hj & Ha & E & Hu)]; [lia|lia|done| |].
    + left. split; [done|]. intros a' [->|Ha']%elem_of_cons; [done|auto].
    + right. exists (S j), a'. split; [done|]. split; [done|]. split; [lia|].
      intros [|j'] a'' Hj' Ha'; cbn in Hj'; [congruence|]. f_equal. eauto.
Qed.

Lemma logical_from_ok dest k (l : list APICState) m : tab_ok m -> tab_ok (logical_from dest k l m).
Proof.
  revert k m. induction l as [|a l IH]; intros k m Hm; [done|]. cbn [logical_from].
  destruct (MAX_APICS <=? k); [done|]. apply IH. destruct (logical_match dest a); [|done].
  now apply set_bit_ok.
Qed.

Lemma logical_from_vec dest k (l : list APICState) m u : tab_ok m -> 0 <= k ->
  k + Z.of_nat (length l) <= 255 -> 0 <= u < 256 ->
  vec (logical_from dest k l m) u = vec m u || match l !! Z.to_nat (u - k) with
    | Some a => (k <=? u) && logical_match dest a | None => false end.
Proof.
  revert k m. induction l as [|a l IH]; intros k m Hm Hk Hl Hu.
  { cbn. now rewrite orb_false_r. }
  cbn [logical_from length] in *. unfold MAX_APICS at 1. destruct (Z.leb_spec 255 k); [lia|].
  rewrite IH by (done || lia || (destruct (logical_match dest a); [now apply set_bit_ok|done])).
  assert (vec (if logical_match dest a then set_bit m k else m) u
    = (logical_match dest a && (u =? k)) || vec m u) as ->.
  { destruct (logical_match dest a); [now rewrite vec_set by (done || lia)|done]. }
  destruct (Z.lt_total u k) as [L|[->|L]].
  - replace (Z.to_nat (u - (k + 1))) with O by lia. replace (Z.to_nat (u - k)) with O by lia.
    destruct (Z.eqb_spec u k), (Z.leb_spec (k + 1) u), (Z.leb_spec k u); try lia.
    cbn. destruct (l !! 0%nat); cbn; btauto.
  - replace (Z.to_nat (k - k)) with O by lia. rewrite Z.eqb_refl. cbn [lookup list_lookup].
    destruct (Z.leb_spec (k + 1) k), (Z.leb_spec k k); try lia.
    destruct (l !! _); cbn [andb orb]; btauto.
  - replace (Z.to_nat (u - k)) with (S (Z.to_nat (u - (k + 1)))) by lia. cbn [lookup list_lookup].
    destruct (Z.eqb_spec u k); [lia|].
    destruct (l !! Z.to_nat (u - (k + 1))); [|btauto].
    destruct (Z.leb_spec (k + 1) u), (Z.leb_spec k u); try lia. btauto.
Qed.

Lemma delivery_bitmask_spec dest dmode (b : bus W) i a : in_u 8 dest ->
  (length (local_apics b) <= 255)%nat -> NoDup (map id (local_apics b)) ->
  local_apics b !! i = Some a ->
  vec (apic_get_delivery_bitmask dest dmode b) (Z.of_nat i) = selects dest dmode a.
Proof.
  intros Hd Hl Hnd Hi. pose proof (lookup_lt_Some _ _ _ Hi) as Hlt.
  unfold apic_get_delivery_bitmask, selects. destruct (Z.eqb_spec dmode 0).
  - destruct (Z.eqb_spec dest 0xff); [apply vec_all; lia|]. cbn [orb].
    assert (apic_find_dest dest b = (if id a =? dest then Z.of_nat i else apic_find_dest dest b)
      /\ (apic_find_dest dest b = -1 \/ 0 <= apic_find_dest dest b < 255)
      /\ (id a <> dest -> apic_find_dest dest b <> Z.of_nat i)) as (E1 & E2 & E3).
    { unfold apic_find_dest.
      destruct (find_dest_spec dest 0 (local_apics b)) as [[E Hno]|(j & a' & Hj & Ha & E & Hu)]; [lia|lia|done| |].
      - pose proof (Hno a ltac:(eapply list_elem_of_lookup_2; eauto)) as Hne.
        rewrite (proj2 (Z.eqb_neq _ _) Hne).
        destruct (local_apics b !! Z.to_nat dest) as [a0|] eqn:E0; [|rewrite E; split; [done|split; [auto|lia]]].
        pose proof (Hno a0 ltac:(eapply list_elem_of_lookup_2; eauto)) as Hne0.
        rewrite (proj2 (Z.eqb_neq _ _) Hne0), E. split; [done|]. split; [auto|lia].
      - pose proof (lookup_lt_Some _ _ _ Hj) as Hjlt.
        assert (match local_apics b !! Z.to_nat dest with
          | Some a0 => if id a0 =? dest then dest else find_dest_from dest 0 (local_apics b)
          | None => find_dest_from dest 0 (local_apics b) end = Z.of_nat j) as ->.
        { destruct (local_apics b !! Z.to_nat dest) as [a0|] eqn:E0; [|lia].
          destruct (Z.eqb_spec (id a0) dest) as [E1|]; [|lia].
          rewrite <- (Hu _ _ E0 E1). destruct Hd. lia. }
        destruct (Z.eqb_spec (id a) dest) as [Ea|Na].
        + rewrite (Hu _ _ Hi Ea). split; [done|]. split; [lia|done].
        + split; [done|]. split; [lia|]. intros _ Eij. apply Na.
          replace i with j in Hi by lia. congruence. }
    set (k := apic_find_dest dest b) in *. clearbody k.
    destruct (Z.eqb_spec (id a) dest) as [Ea|Na].
    + rewrite E1. destruct (Z.leb_spec 0 (Z.of_nat i)); [|lia].
      rewrite vec_set by (apply mask_none_ok || lia). now rewrite Z.eqb_refl.
    + specialize (E3 Na). destruct (Z.leb_spec 0 k); [|apply vec_none; lia].
      rewrite vec_set by (apply mask_none_ok || lia). rewrite vec_none by lia.
      destruct (Z.eqb_spec (Z.of_nat i) k); [lia|done].
  - rewrite logical_from_vec by (apply mask_none_ok || lia).
    rewrite vec_none, Z.sub_0_r, Nat2Z.id, Hi by lia. cbn [orb].
    now destruct (Z.leb_spec 0 (Z.of_nat i)); [|lia].
Qed.

(** Running an operation whose effect on an APIC does not depend on the
    globals on all selected APICs. *)
Lemma foreach_lookup f h bitmask (b : bus W) i a :
  (forall a g, (f a g).1 = h a) -> (i < 256)%nat -> local_apics b !! i = Some a ->
  local_apics (foreach_apic f bitmask b) !! i = Some (if vec bitmask (Z.of_nat i) then h a else a).
Proof.
  intros Hf Hi Ha. unfold foreach_apic.
  assert (forall ks (b : bus W) a, NoDup ks -> Forall (fun k => k < 256)%nat ks -> local_apics b !! i = Some a ->
    local_apics (foldl (fun b k => if truthy (get_bit bitmask (Z.of_nat k)) then at_apic (Z.of_nat k) f b else b) b ks) !! i
    = Some (if decide (i ∈ ks) then if vec bitmask (Z.of_nat i) then h a else a else a)) as H.
  { clear b a Ha. induction ks as [|k ks IH]; intros b a Hnd Hks Ha; cbn [foldl].
    { rewrite decide_False by apply not_elem_of_nil. done. }
    pose proof (NoDup_cons_1_1 _ _ Hnd) as Hni; apply NoDup_cons_1_2 in Hnd. apply Forall_cons_1 in Hks as [Hk Hks].
    rewrite get_bit_vec by lia. set (bk := vec bitmask (Z.of_nat k)).
    assert (truthy (b2z bk) = bk) as -> by now destruct bk.
    assert (local_apics (if bk then at_apic (Z.of_nat k) f b else b) !! i
      = Some (if decide (i = k) then if bk then h a else a else a)) as Hstep.
    { destruct bk; [|now destruct (decide (i = k))]. unfold at_apic. rewrite Nat2Z.id.
      destruct (decide (i = k)) as [->|Hne].
      - rewrite Ha. pose proof (Hf a (globals b)) as Hfa. destruct (f a (globals b)) as [a' g'].
        cbn in Hfa |- *. subst. apply list_lookup_insert_eq. now apply lookup_lt_Some in Ha.
      - destruct (local_apics b !! k) as [ak|]; [|done]. destruct (f ak (globals b)). cbn.
        now rewrite list_lookup_insert_ne. }
    rewrite (IH _ _ Hnd Hks Hstep). f_equal. unfold bk. destruct (decide (i = k)) as [->|Hne].
    - rewrite (decide_False (P := k ∈ ks)) by done. now rewrite decide_True by apply elem_of_cons, or_introl, eq_refl.
    - destruct (decide (i ∈ ks)) as [Hin|Hnin].
      + now rewrite decide_True by (apply elem_of_cons; auto).
      + rewrite decide_False; [done|]. rewrite elem_of_cons. tauto. }
  rewrite (H _ _ a); [|apply NoDup_seq| |done].
  - rewrite decide_True; [done|]. apply elem_of_seq. lia.
  - apply Forall_forall; intros k Hk%list_elem_of_In%elem_of_seq. lia.
Qed.

(** What an APIC that receives vector [v] with trigger mode [t] becomes. *)
Definition receive (v t : Z) (a : APICState) : APICState :=
  a <| irr := set_bit (irr a) v |>
    <| tmr := if truthy t then set_bit (tmr a) v else reset_bit (tmr a) v |>.

Lemma set_irq_receive v t a (g : glob W) : (apic_set_irq cpu_interrupt v t a g).1 = receive v t a.
Proof. unfold apic_set_irq, receive. cbn [fst]. now destruct (truthy t). Qed.

Lemma deliver_fixed dest dmode v pol t (b : bus W) i a :
  in_u 8 dest -> (length (local_apics b) <= 255)%nat -> NoDup (map id (local_apics b)) ->
  local_apics b !! i = Some a -> apic_ok a -> 0 <= v < 256 ->
  exists a', local_apics (apic_deliver_irq cpu_interrupt dest dmode 0 v pol t b) !! i = Some a'
    /\ (selects dest dmode a = false -> a' = a)
    /\ (selects dest dmode a = true -> forall u, 0 <= u < 256 ->
          vec (irr a') u = (u =? v) || vec (irr a) u
          /\ vec (tmr a') u = if u =? v then truthy t else vec (tmr a) u).
Proof.
  intros Hd Hl Hnd Hi Hok Hv. unfold apic_deliver_irq, apic_bus_deliver.
  pose proof (lookup_lt_Some _ _ _ Hi) as Hlt.
  eexists. split.
  { apply (foreach_lookup _ (receive v t)); [intros; apply set_irq_receive|lia|exact Hi]. }
  rewrite (delivery_bitmask_spec dest dmode b i a Hd Hl Hnd Hi).
  split; intros ->; [done|]. intros u Hu. unfold receive. cbn [over irr tmr].
  rewrite vec_set by (apply Hok || lia). split; [done|].
  destruct (truthy t); [rewrite vec_set by (apply Hok || lia)|rewrite vec_reset by (apply Hok || lia)];
    now destruct (u =? v).
Qed.

(** The local APICs before and after messages arrive: requests are only
    added, and what selects a destination stays. *)
Record raises (a a' : APICState) : Prop := {
  raises_ok : apic_ok a';
  raises_id : id a' = id a;
  raises_log : log_dest a' = log_dest a;
  raises_mode : dest_mode a' = dest_mode a;
  raises_isr : isr a' = isr a;
  raises_irr : forall u, 0 <= u < 256 -> vec (irr a) u = true -> vec (irr a') u = true
}.

Record bus_ok (b : bus W) : Prop := {
  bus_len : (length (local_apics b) <= 255)%nat;
  bus_ids : NoDup (map id (local_apics b));
  bus_all : Forall apic_ok (local_apics b)
}.

Definition bus_raises (b b' : bus W) : Prop := Forall2 raises (local_apics b) (local_apics b').

Lemma raises_refl a : apic_ok a -> raises a a.
Proof. now constructor. Qed.

Lemma raises_trans a b c : raises a b -> raises b c -> raises a c.
Proof. intros [] []. constructor; try congruence; auto. Qed.

Lemma bus_raises_refl b : bus_ok b -> bus_raises b b.
Proof.
  intros [_ _ Ha]. unfold bus_raises. induction Ha; constructor; auto using raises_refl.
Qed.

Lemma bus_raises_trans b b' b'' : bus_raises b b' -> bus_raises b' b'' -> bus_raises b b''.
Proof.
  unfold bus_raises. intros H H'. eapply (Forall2_trans raises raises raises); eauto using raises_trans.
Qed.

Lemma bus_raises_ok b b' : bus_ok b -> bus_raises b b' -> bus_ok b'.
Proof.
  intros [H1 H2 H3] H. unfold bus_raises in H. constructor.
  - now rewrite <- (Forall2_length H).
  - replace (map id (local_apics b')) with (map id (local_apics b)); [done|].
    clear -H. induction H as [|a a' l l' Ha Hl IH]; [done|]. cbn. now rewrite IH, (raises_id _ _ Ha).
  - clear -H. induction H as [|a a' l l' Ha Hl IH]; constructor; [apply (raises_ok _ _ Ha)|done].
Qed.

Lemma bus_raises_lookup b b' i a : bus_raises b b' -> local_apics b !! i = Some a ->
  exists a', local_apics b' !! i = Some a' /\ raises a a'.
Proof. intros H Hi. eapply Forall2_lookup_l; eauto. Qed.

Lemma raises_selects dest dmode a a' : raises a a' -> selects dest dmode a' = selects dest dmode a.
Proof. intros []. unfold selects, logical_match. now rewrite raises_id0, raises_log0, raises_mode0. Qed.

Lemma at_apic_raises i f (b : bus W) : bus_ok b -> (forall a g, apic_ok a -> raises a (f a g).1) ->
  bus_raises b (at_apic i f b).
Proof.
  intros Hb Hf. unfold at_apic. destruct (local_apics b !! Z.to_nat i) as [a|] eqn:E; [|now apply bus_raises_refl].
  assert (apic_ok a) as Ha by (apply (Forall_lookup_1 _ _ _ _ (bus_all b Hb) E)).
  specialize (Hf a (globals b) Ha). destruct (f a (globals b)) as [a' g']. unfold bus_raises. cbn [local_apics].
  rewrite <- (list_insert_id _ _ _ E) at 1. apply Forall2_insert; [now apply bus_raises_refl|done].
Qed.

Lemma foreach_raises f m (b : bus W) : bus_ok b -> (forall a g, apic_ok a -> raises a (f a g).1) ->
  bus_raises b (foreach_apic f m b).
Proof.
  intros Hb Hf. unfold foreach_apic. revert b Hb. induction (seq 0 256) as [|k ks IH]; intros b Hb; cbn [foldl].
  { now apply bus_raises_refl. }
  destruct (truthy _); [|auto].
  pose proof (at_apic_raises (Z.of_nat k) f b Hb Hf) as Hr.
  eapply bus_raises_trans; [exact Hr|]. apply IH. eauto using bus_raises_ok.
Qed.

Lemma receive_raises v t a : 0 <= v < 256 -> apic_ok a -> raises a (receive v t a).
Proof.
  intros Hv Ha. pose proof Ha as [H1 H2 H3 H4]. unfold receive. constructor; cbn; try done.
  - constructor; cbn [over isr irr tmr tpr]; try done; [now apply set_bit_ok|].
    destruct (truthy t); now apply set_bit_ok.
  - intros u Hu Hx. rewrite vec_set by (done || lia). now rewrite Hx, orb_true_r.
Qed.

Lemma deliver_raises dest dmode delivery v pol t (b : bus W) : bus_ok b -> 0 <= v < 256 ->
  bus_raises b (apic_deliver_irq cpu_interrupt dest dmode delivery v pol t b).
Proof.
  intros Hb Hv. unfold apic_deliver_irq, apic_bus_deliver.
  assert (forall a g, apic_ok a -> raises a (apic_set_irq cpu_interrupt v t a g).1) as Hset.
  { intros a g Ha. rewrite set_irq_receive. now apply receive_raises. }
  assert (forall m, bus_raises b (foreach_apic
    (fun s g => (s, on_cpu (cpu_interrupt (idx s) m) g)) (apic_get_delivery_bitmask dest dmode b) b)) as Hirq.
  { intros m. apply foreach_raises; [done|]. intros a g Ha. now apply raises_refl. }
  destruct delivery as [|[[[]|[]|]|[[]|[]|]|]|]; auto using foreach_raises, bus_raises_refl.
  destruct (0 <=? _); auto using at_apic_raises, bus_raises_refl.
Qed.

(** A fixed interrupt message reaches exactly the local APICs its
    destination names: in physical mode the one with that id, or all for 0xff;
    in logical mode those whose logical id matches in the flat or cluster model.
    Each of them has the vector requested, with its trigger mode recorded, and
    no other APIC changes. *)
Theorem apic_deliver_irq_correct dest dmode v pol t (b : bus W) i a :
  in_u 8 dest -> (length (local_apics b) <= 255)%nat -> NoDup (map id (local_apics b)) ->
  local_apics b !! i = Some a -> apic_ok a -> 0 <= v < 256 ->
  exists a', local_apics (apic_deliver_irq cpu_interrupt dest dmode 0 v pol t b) !! i = Some a'
    /\ (selects dest dmode a = false -> a' = a)
    /\ (selects dest dmode a = true -> forall u, 0 <= u < 256 ->
          vec (irr a') u = (u =? v) || vec (irr a) u
          /\ vec (tmr a') u = if u =? v then truthy t else vec (tmr a) u).
Proof. apply deliver_fixed. Qed.
End Deliver.

(** Two processors, ids 0 and 1; a message to id 1. *)
Lemma apic_deliver_irq_correct_witness :
  let b := mkBus [apic_zero; apic_zero <| id := 1 |>] (0, tt) in
  exists a', local_apics (apic_deliver_irq (fun _ _ w => w) 1 0 0 0x40 0 0 b) !! 1%nat = Some a'
    /\ vec (irr a') 0x40 = true.
Proof.
  intros b.
  destruct (apic_deliver_irq_correct (fun _ _ w => w) 1 0 0x40 0 0 b 1 (apic_zero <| id := 1 |>))
    as (a' & Ha & _ & H).
  - split; [discriminate|reflexivity].
  - cbn. lia.
  - apply (bool_decide_unpack _). vm_compute. exact I.
  - reflexivity.
  - constructor; try (apply tab_ok_bool; vm_compute; reflexivity). split; done.
  - lia.
  - exists a'. split; [exact Ha|]. destruct (H eq_refl 0x40) as [-> _]; [lia|reflexivity].
Defined.

(** ** The timer *)

Definition unmasked (s : APICState) : Prop := tst (aget (lvt s) APIC_LVT_TIMER) APIC_LVT_MASKED = false.
Definition periodic (s : APICState) : Prop := tst (aget (lvt s) APIC_LVT_TIMER) APIC_LVT_TIMER_PERIODIC = true.

(** The nanoseconds between two interrupts of a periodic timer, and the first
    of their instants after [now]. *)
Definition period (s : APICState) : Z := (initial_count s + 1) * 2 ^ count_shift s.
Definition next_fire (now : Z) (s : APICState) : Z :=
  initial_count_load_time s + ((now - initial_count_load_time s) / period s + 1) * period s.

Record timer_ok (s : APICState) : Prop := {
  tok_unmasked : unmasked s;
  tok_periodic : periodic s;
  tok_count : in_u 32 (initial_count s) /\ initial_count s <> 0;
  tok_shift : 0 <= count_shift s;
  tok_load : 0 <= initial_count_load_time s
}.

Lemma period_pos s : timer_ok s -> 0 < period s /\ 0 < 2 ^ count_shift s /\ 0 < initial_count s.
Proof.
  intros [_ _ [[H1 _] H2] H3 _]. assert (0 < 2 ^ count_shift s) by (apply Z.pow_pos_nonneg; lia).
  unfold period. repeat split; nia.
Qed.

(** The tick counter in terms of the time since the count was loaded. *)
Lemma ticks_div s e : timer_ok s ->
  (e >> count_shift s) / (initial_count s + 1) = e / period s.
Proof.
  intros Hs. destruct (period_pos s Hs) as (? & ? & ?).
  rewrite Z.shiftr_div_pow2 by apply Hs. rewrite Z.div_div by lia. f_equal. unfold period. lia.
Qed.

Lemma next_fire_bounds now s : timer_ok s -> now < next_fire now s <= now + period s.
Proof.
  intros Hs. destruct (period_pos s Hs) as (Hp & _). unfold next_fire.
  set (e := now - initial_count_load_time s).
  pose proof (Z.div_mod e (period s) ltac:(lia)). pose proof (Z.mod_pos_bound e (period s) Hp).
  assert (e = now - initial_count_load_time s) by reflexivity. lia.
Qed.

Lemma timer_update_periodic now s : timer_ok s -> initial_count_load_time s <= now ->
  next_fire now s < 2 ^ 63 ->
  apic_timer_update now s = s <| timer := Some (next_fire now s) |> <| next_time := next_fire now s |>.
Proof.
  intros Hs Hn Hf. destruct (period_pos s Hs) as (Hp & Hsh & Hc). pose proof (tok_load s Hs).
  unfold apic_timer_update. rewrite (tok_unmasked s Hs), (tok_periodic s Hs). cbn [negb].
  destruct (Z.eqb_spec (initial_count s) 0); [lia|].
  set (e := now - initial_count_load_time s). assert (He : 0 <= e) by (unfold e; lia).
  set (d := e >> count_shift s).
  pose proof (next_fire_bounds now s Hs).
  assert (Hd : 0 <= d <= e).
  { unfold d. rewrite Z.shiftr_div_pow2 by apply Hs. split; [now apply Z.div_pos|].
    apply Z.div_le_upper_bound; nia. }
  assert (Hu : u64 d = d) by (apply u64_id; unfold in_u, e in *; lia).
  rewrite Hu. unfold d at 1 2. rewrite (ticks_div s e Hs).
  assert (Hq : 0 <= e / period s) by (apply Z.div_pos; lia).
  assert (Hk : next_fire now s = initial_count_load_time s
    + (e / period s + 1) * (initial_count s + 1) * 2 ^ count_shift s)
    by (unfold next_fire, period; fold e; lia).
  set (m := (e / period s + 1) * (initial_count s + 1)) in *.
  assert (0 <= m <= m * 2 ^ count_shift s) by nia.
  assert (s64 (u64 m) = m) as ->.
  { rewrite u64_id by (unfold in_u; lia). apply s64_id. lia. }
  rewrite Z.shiftl_mul_pow2 by apply Hs.
  rewrite <- Hk. now rewrite s64_id by lia.
Qed.

Lemma current_count_periodic now s : timer_ok s -> initial_count_load_time s <= now ->
  next_fire now s < 2 ^ 63 ->
  apic_get_current_count now s = (next_fire now s - 1 - now) >> count_shift s.
Proof.
  intros Hs Hn Hf. destruct (period_pos s Hs) as (Hp & Hsh & Hc). pose proof (tok_load s Hs).
  pose proof (tok_count s Hs) as [Hc32 _]. pose proof (next_fire_bounds now s Hs).
  unfold apic_get_current_count. rewrite (tok_periodic s Hs).
  rewrite !Z.shiftr_div_pow2 by apply Hs.
  set (e := now - initial_count_load_time s). assert (He : 0 <= e) by (unfold e; lia).
  set (d := e / 2 ^ count_shift s).
  assert (Hd : 0 <= d <= e).
  { unfold d. split; [now apply Z.div_pos|]. apply Z.div_le_upper_bound; nia. }
  assert (u64 d = d) as -> by (apply u64_id; unfold in_u, e in *; lia).
  pose proof (ticks_div s e Hs) as Ht. rewrite Z.shiftr_div_pow2 in Ht by apply Hs. fold d in Ht.
  pose proof (Z.div_mod d (initial_count s + 1) ltac:(lia)).
  pose proof (Z.mod_pos_bound d (initial_count s + 1) ltac:(lia)).
  rewrite u32_id by (unfold in_u in *; lia).
  rewrite Ht in *. apply Z.div_unique with (r := 2 ^ count_shift s - 1 - e mod 2 ^ count_shift s).
  - pose proof (Z.mod_pos_bound e (2 ^ count_shift s) Hsh). lia.
  - pose proof (Z.div_mod e (2 ^ count_shift s) ltac:(lia)) as Hdm. fold d in Hdm.
    unfold next_fire. fold e. unfold period at 2.
    assert (now = e + initial_count_load_time s) by (unfold e; lia). nia.
Qed.

Section Timer.
Context {W : Type} (cpu_interrupt : Z -> Z -> W -> W).

(** Delivering the timer's interrupt touches only the request registers. *)
Lemma local_deliver_timer v s (g : glob W) :
  let s' := (apic_local_deliver cpu_interrupt v s g).1 in
  s' = s <| irr := irr s' |> <| tmr := tmr s' |>.
Proof.
  unfold apic_local_deliver, apic_set_irq. destruct (tst _ APIC_LVT_MASKED); [now destruct s|].
  destruct ((aget (lvt s) v >> 8) .& 7) as [|[[[]|[]|]|[[]|[]|]|]|]; try now destruct s.
  now destruct (truthy _), s.
Qed.

(** [n] expiries of the timer, one after the other. *)
Fixpoint fire (n : nat) (s : APICState) (g : glob W) : APICState * glob W :=
  match n with
  | O => (s, g)
  | S n => let '(s, g) := fire n s g in apic_timer cpu_interrupt s g
  end.

Definition same_timer (s s' : APICState) : Prop :=
  lvt s' = lvt s /\ initial_count s' = initial_count s /\ count_shift s' = count_shift s
  /\ initial_count_load_time s' = initial_count_load_time s.

Lemma same_timer_ok s s' : same_timer s s' -> timer_ok s -> timer_ok s'.
Proof.
  intros (H1 & H2 & H3 & H4) []. constructor; unfold unmasked, periodic in *;
    now rewrite ?H1, ?H2, ?H3, ?H4.
Qed.

Lemma same_timer_fire now s s' : same_timer s s' -> next_fire now s' = next_fire now s.
Proof. intros (H1 & H2 & H3 & H4). unfold next_fire, period. now rewrite H2, H3, H4. Qed.

Lemma fire_after n now s (g : glob W) : timer_ok s -> initial_count_load_time s <= now ->
  next_fire now s + Z.of_nat n * period s < 2 ^ 63 ->
  let s' := (fire n (apic_timer_update now s) g).1 in
  same_timer s s' /\ next_time s' = next_fire now s + Z.of_nat n * period s
  /\ timer s' = Some (next_fire now s + Z.of_nat n * period s).
Proof.
  intros Hs Hn. destruct (period_pos s Hs) as (Hp & _). pose proof (next_fire_bounds now s Hs) as Hb.
  induction n as [|n IH]; intros Hf; cbn [fire].
  { rewrite timer_update_periodic by (done || lia). cbn. rewrite Z.add_0_r. done. }
  destruct IH as (IH1 & IH2 & IH3); [lia|].
  destruct (fire n (apic_timer_update now s) g) as [s1 g1]. cbn [fst] in *.
  unfold apic_timer. pose proof (local_deliver_timer APIC_LVT_TIMER s1 g1) as Hl.
  destruct (apic_local_deliver cpu_interrupt APIC_LVT_TIMER s1 g1) as [s2 g2]. cbn [fst] in *.
  assert (same_timer s s2 /\ next_time s2 = next_time s1) as [Hsame Hnt].
  { rewrite Hl. unfold same_timer in *. now destruct s1. }
  assert (next_fire (next_time s2) s2 = next_fire now s + Z.of_nat (S n) * period s) as Hnf.
  { rewrite Hnt, IH2, (same_timer_fire _ s s2 Hsame). unfold next_fire at 1.
    set (q := (now - initial_count_load_time s) / period s).
    replace (next_fire now s + Z.of_nat n * period s - initial_count_load_time s)
      with ((q + 1 + Z.of_nat n) * period s) by (unfold next_fire; fold q; lia).
    rewrite Z.div_mul by lia. unfold next_fire. fold q. lia. }
  rewrite timer_update_periodic; [|now apply (same_timer_ok s)| |lia].
  - rewrite Hnf. unfold same_timer in *. now destruct s2.
  - destruct Hsame as (_ & _ & _ & ->). lia.
Qed.

(** The periodic local timer does not drift. Started at any time after
    the count was loaded, it expires for the first time within one period
    [(initial_count + 1) << count_shift], and its [n]-th following expiry is set
    exactly [n] periods later, on the grid that begins at the load time.
    Reading the current count at any time gives the whole ticks left before
    the next expiry. *)
Theorem apic_timer_no_drift n now s (g : glob W) :
  timer_ok s -> initial_count_load_time s <= now -> next_fire now s + Z.of_nat n * period s < 2 ^ 63 ->
  now < next_fire now s <= now + period s
  /\ timer (fire n (apic_timer_update now s) g).1 = Some (next_fire now s + Z.of_nat n * period s)
  /\ apic_get_current_count now s = (next_fire now s - 1 - now) >> count_shift s.
Proof.
  intros Hs Hn Hf. destruct (period_pos s Hs) as (Hp & _).
  split; [now apply next_fire_bounds|]. split; [now apply fire_after|].
  apply current_count_periodic; [done|done|lia].
Qed.
End Timer.

Lemma apic_timer_no_drift_witness :
  let s := apic_zero <| lvt := [1 << 17; 0; 0; 0; 0; 0] |> <| initial_count := 99 |>
             <| count_shift := 3 |> <| initial_count_load_time := 1000 |> in
  timer (fire (fun _ _ w => w) 2 (apic_timer_update 5000 s) (0, tt)).1 = Some (5800 + 2 * 800).
Proof.
  intros s. destruct (apic_timer_no_drift (fun _ _ w => w) 2 5000 s (0, tt)) as (_ & H & _).
  - constructor; vm_compute; intuition discriminate.
  - vm_compute. discriminate.
  - vm_compute. reflexivity.
  - exact H.
Defined.

End Apic.
