(* ===== verification/IoApic.v ===== *)
(** * The I/O APIC: hw/ioapic.c

    [IOAPICState] is the struct of the same name (82093AA, 24 pins).  The two
    functions the file calls, [apic_deliver_irq] (hw/apic.c) and
    [pic_read_irq] (hw/i8259.c), are the operations of the class [IntrBus] on
    the rest of the machine; the section [WithApic] instantiates it with the
    local APICs of [Apic] and gives [Apic.apic_eoi] the real
    [ioapic_eoi_broadcast]. *)

From S2P Require Import Prelude Irq HostUtils Rtc Apic.

Module IoApic.

Definition IOAPIC_NUM_PINS : Z := 0x18.
Definition IOAPIC_VERSION : Z := 0x11.
Definition IOAPIC_LVT_MASKED : Z := 1 << 16.
Definition IOAPIC_LVT_REMOTE_IRR : Z := 1 << 14.
Definition IOAPIC_TRIGGER_EDGE : Z := 0.
Definition IOAPIC_TRIGGER_LEVEL : Z := 1.
Definition IOAPIC_DM_EXTINT : Z := 0x7.
Definition IOAPIC_DM_MASK : Z := 0x7.
Definition IOAPIC_VECTOR_MASK : Z := 0xff.
Definition IOAPIC_IOREGSEL : Z := 0x00.
Definition IOAPIC_IOWIN : Z := 0x10.
Definition IOAPIC_REG_ID : Z := 0x00.
Definition IOAPIC_REG_VER : Z := 0x01.
Definition IOAPIC_REG_ARB : Z := 0x02.
Definition IOAPIC_REG_REDTBL_BASE : Z := 0x10.

Record IOAPICState := mkIOAPIC {
  id : Z;
  ioregsel : Z;
  irr : Z;
  ioredtbl : list Z (* uint64_t [IOAPIC_NUM_PINS] *)
}.

#[export] Instance IOAPICState_eta : Eta IOAPICState := fun s =>
  mkIOAPIC (id s) (ioregsel s) (irr s) (ioredtbl s).

(** What the I/O APIC needs of the machine it sits in. *)
Class IntrBus (W : Type) := {
  apic_deliver_irq : Z -> Z -> Z -> Z -> Z -> Z -> W -> W;
  pic_read_irq : W -> Z * W
}.

Section IOAPIC.
Context {W : Type} `{IntrBus W}.

(** One turn of the loop of [ioapic_service]. *)
Definition ioapic_service_pin (sw : IOAPICState * W) (i : Z) : IOAPICState * W :=
  let '(s, w) := sw in
  let mask := 1 << i in
  if tst (irr s) mask then
    let entry := aget (ioredtbl s) i in
    if negb (tst entry IOAPIC_LVT_MASKED) then
      let trig_mode := (entry >> 15) .& 1 in
      let dest := u8 (entry >> 56) in
      let dest_mode := (entry >> 11) .& 1 in
      let delivery_mode := (entry >> 8) .& IOAPIC_DM_MASK in
      let polarity := (entry >> 13) .& 1 in
      let s := if trig_mode =? IOAPIC_TRIGGER_EDGE then s <| irr := irr s .& ~~ mask |>
               else s <| ioredtbl := aset (ioredtbl s) i (aget (ioredtbl s) i .| IOAPIC_LVT_REMOTE_IRR) |> in
      let '(vector, w) :=
        if delivery_mode =? IOAPIC_DM_EXTINT then let '(v, w) := pic_read_irq w in (u8 v, w)
        else (entry .& IOAPIC_VECTOR_MASK, w) in
      (s, apic_deliver_irq dest dest_mode delivery_mode vector polarity trig_mode w)
    else (s, w)
  else (s, w).

Definition ioapic_service (s : IOAPICState) (w : W) : IOAPICState * W :=
  foldl ioapic_service_pin (s, w) (seqZ 0 IOAPIC_NUM_PINS).

Definition ioapic_set_irq (vector level : Z) (s : IOAPICState) (w : W) : IOAPICState * W :=
  (* ISA IRQs map to GSI 1-1 except for IRQ0 which maps to GSI 2. *)
  let vector := if vector =? 0 then 2 else vector in
  if (0 <=? vector) && (vector <? IOAPIC_NUM_PINS) then
    let mask := 1 << vector in
    let entry := aget (ioredtbl s) vector in
    if (entry >> 15) .& 1 =? IOAPIC_TRIGGER_LEVEL then
      (* level triggered *)
      if truthy level then ioapic_service (s <| irr := irr s .| mask |>) w
      else (s <| irr := irr s .& ~~ mask |>, w)
    else
      (* we must ignore edge requests if the input pin is masked *)
      if truthy level && negb (tst entry IOAPIC_LVT_MASKED) then
        ioapic_service (s <| irr := irr s .| mask |>) w
      else (s, w)
  else (s, w).

(** One turn of the loop of [ioapic_eoi_broadcast]. *)
Definition ioapic_eoi_pin (vector : Z) (sw : IOAPICState * W) (n : Z) : IOAPICState * W :=
  let '(s, w) := sw in
  let entry := aget (ioredtbl s) n in
  if tst entry IOAPIC_LVT_REMOTE_IRR && (entry .& IOAPIC_VECTOR_MASK =? vector) then
    let s := s <| ioredtbl := aset (ioredtbl s) n (entry .& ~~ IOAPIC_LVT_REMOTE_IRR) |> in
    if negb (tst entry IOAPIC_LVT_MASKED) && tst (irr s) (1 << n) then ioapic_service s w else (s, w)
  else (s, w).

(** The machine has [MAX_IOAPICS] = 1 I/O APIC. *)
Definition ioapic_eoi_broadcast (vector : Z) (s : IOAPICState) (w : W) : IOAPICState * W :=
  foldl (ioapic_eoi_pin vector) (s, w) (seqZ 0 IOAPIC_NUM_PINS).

Definition ioapic_mem_readl (addr : Z) (s : IOAPICState) : Z :=
  let a := addr .& 0xff in
  if a =? IOAPIC_IOREGSEL then ioregsel s
  else if a =? IOAPIC_IOWIN then
    if ioregsel s =? IOAPIC_REG_ID then u32 (id s << 24)
    else if ioregsel s =? IOAPIC_REG_VER then IOAPIC_VERSION .| ((IOAPIC_NUM_PINS - 1) << 16)
    else if ioregsel s =? IOAPIC_REG_ARB then 0
    else
      let index := (ioregsel s - IOAPIC_REG_REDTBL_BASE) >> 1 in
      if (0 <=? index) && (index <? IOAPIC_NUM_PINS) then
        if tst (ioregsel s) 1 then u32 (aget (ioredtbl s) index >> 32)
        else aget (ioredtbl s) index .& 0xffffffff
      else 0
  else 0.

Definition ioapic_mem_writel (addr val : Z) (s : IOAPICState) (w : W) : IOAPICState * W :=
  let a := addr .& 0xff in
  if a =? IOAPIC_IOREGSEL then (s <| ioregsel := u8 val |>, w)
  else if a =? IOAPIC_IOWIN then
    if ioregsel s =? IOAPIC_REG_ID then (s <| id := (val >> 24) .& 0xf |>, w)
    else if (ioregsel s =? IOAPIC_REG_VER) || (ioregsel s =? IOAPIC_REG_ARB) then (s, w)
    else
      let index := (ioregsel s - IOAPIC_REG_REDTBL_BASE) >> 1 in
      if (0 <=? index) && (index <? IOAPIC_NUM_PINS) then
        let e := aget (ioredtbl s) index in
        let e := if tst (ioregsel s) 1 then (e .& 0xffffffff) .| u64 (val << 32)
                 else (e .& ~~ 0xffffffff) .| val in
        ioapic_service (s <| ioredtbl := aset (ioredtbl s) index e |>) w
      else (s, w)
  else (s, w).
End IOAPIC.

Definition ioapic_post_load (version_id : Z) (s : IOAPICState) : IOAPICState :=
  if version_id =? 1 then s <| irr := 0 |> else s.

(** [ioapic_init1]: the array [ioapics] has room for one device. *)
Definition MAX_IOAPICS : Z := 1.
Definition ioapic_init1 (s : IOAPICState) (ioapics : list IOAPICState) : option (list IOAPICState) :=
  if MAX_IOAPICS <=? Z.of_nat (length ioapics) then None else Some (ioapics ++ [s]).

Definition ioapic_reset (s : IOAPICState) : IOAPICState :=
  let s := s <| id := 0 |> in
  let s := s <| ioregsel := 0 |> in
  let s := s <| irr := 0 |> in
  s <| ioredtbl := replicate (Z.to_nat IOAPIC_NUM_PINS) (1 << 16) |>.

(** ** The pins *)

Definition entry (s : IOAPICState) (i : Z) : Z := aget (ioredtbl s) i.
Definition masked (e : Z) : bool := Z.testbit e 16.
Definition level (e : Z) : bool := Z.testbit e 15.
Definition remote_irr (e : Z) : bool := Z.testbit e 14.
Definition requests (s : IOAPICState) (i : Z) : bool := Z.testbit (irr s) i.
Definition ready (s : IOAPICState) (i : Z) : bool := requests s i && negb (masked (entry s i)).

Definition is_pin (i : Z) : Prop := 0 <= i < 24.

Record ioapic_ok (s : IOAPICState) : Prop := {
  ok_irr : in_u 32 (irr s);
  ok_len : length (ioredtbl s) = 24%nat;
  ok_tbl : Forall (in_u 64) (ioredtbl s);
  ok_sel : in_u 8 (ioregsel s);
  ok_id : in_u 4 (id s)
}.

Lemma shr_bit x k : 0 <= k -> (x >> k) .& 1 = b2z (Z.testbit x k).
Proof.
  intros Hk. rewrite land_1. rewrite <- Z.bit0_mod. rewrite Z.shiftr_spec, Z.add_0_l by lia.
  now destruct (Z.testbit x k).
Qed.

Lemma entry_in_u s i : ioapic_ok s -> in_u 64 (entry s i).
Proof. intros Hs. apply (aget_Forall (in_u 64)); [split; done|apply Hs]. Qed.

Section Service.
Context {W : Type} `{IntrBus W}.

(** The message of a redirection entry. *)
Definition send (e : Z) (w : W) : W :=
  let delivery_mode := (e >> 8) .& 7 in
  let '(vector, w) :=
    if delivery_mode =? 7 then let '(v, w) := pic_read_irq w in (u8 v, w) else (e .& 0xff, w) in
  apic_deliver_irq (e >> 56) (b2z (Z.testbit e 11)) delivery_mode vector (b2z (Z.testbit e 13))
    (b2z (level e)) w.

(** The state of the pin once it is serviced: an edge request is consumed, a
    level request waits for the EOI with its remote IRR set. *)
Definition settle (s : IOAPICState) (i : Z) : IOAPICState :=
  if ready s i then
    if level (entry s i) then s <| ioredtbl := aset (ioredtbl s) i (entry s i .| IOAPIC_LVT_REMOTE_IRR) |>
    else s <| irr := irr s .& ~~ (1 << i) |>
  else s.

Lemma service_pin_spec s w i : ioapic_ok s -> is_pin i ->
  ioapic_service_pin (s, w) i = (settle s i, if ready s i then send (entry s i) w else w).
Proof.
  intros Hs Hi. unfold ioapic_service_pin, settle, ready, requests, masked. fold (entry s i).
  rewrite tst_bit by (unfold is_pin in Hi; lia). destruct (Z.testbit (irr s) i); [|done].
  unfold IOAPIC_LVT_MASKED. rewrite tst_bit by lia. destruct (Z.testbit (entry s i) 16); [done|].
  cbn [negb andb]. unfold send, IOAPIC_DM_MASK, IOAPIC_DM_EXTINT, IOAPIC_VECTOR_MASK.
  rewrite !shr_bit by lia. fold (level (entry s i)).
  assert (u8 (entry s i >> 56) = entry s i >> 56) as ->.
  { apply u8_id. pose proof (entry_in_u s i Hs) as [He0 He1]. rewrite Z.shiftr_div_pow2 by lia.
    split; [apply Z.div_pos; lia|apply Z.div_lt_upper_bound; lia]. }
  destruct (level (entry s i)); destruct (if _ =? 7 then _ else _); done.
Qed.

(** What servicing a pin leaves of every pin. *)
Definition pin_after (s s' : IOAPICState) (i : Z) (served : bool) : Prop :=
  requests s' i = requests s i && negb (served && ready s i && negb (level (entry s i)))
  /\ entry s' i = if served && ready s i && level (entry s i)
                  then entry s i .| IOAPIC_LVT_REMOTE_IRR else entry s i.

Lemma settle_ok s i : ioapic_ok s -> is_pin i -> ioapic_ok (settle s i).
Proof.
  intros Hs Hi. pose proof (entry_in_u s i Hs) as He. destruct Hs as [H1 H2 H3 H4 H5].
  unfold settle. destruct (ready s i); [|done].
  destruct (level (entry s i)); constructor; cbn [over irr ioredtbl ioregsel id]; try done.
  - now rewrite length_aset.
  - apply aset_Forall; [|done]. unfold IOAPIC_LVT_REMOTE_IRR. auto with width.
  - auto with width.
Qed.

Lemma settle_pin s i j : ioapic_ok s -> is_pin i -> is_pin j ->
  pin_after s (settle s i) j (j =? i).
Proof.
  intros Hs Hi Hj. unfold is_pin in *. pose proof (ok_len s Hs) as Hl. unfold pin_after, settle.
  destruct (Z.eqb_spec j i) as [->|Hne]; cbn [andb].
  - destruct (ready s i) eqn:Er; cbn [andb negb]; [|now rewrite andb_true_r].
    destruct (level (entry s i)); cbn [negb].
    + rewrite andb_true_r. split; [done|]. unfold entry at 1. cbn [over ioredtbl]. now rewrite aget_aset_eq by lia.
    + rewrite andb_false_r. split; [|done]. unfold requests. cbn [over irr]. autorewrite with bits.
      now rewrite Z.eqb_refl, andb_false_r.
  - rewrite andb_true_r. destruct (ready s i); [|done]. destruct (level (entry s i)).
    + split; [done|]. unfold entry at 1. cbn [over ioredtbl]. now rewrite aget_aset_ne by lia.
    + split; [|done]. unfold requests. cbn [over irr]. autorewrite with bits.
      destruct (Z.eqb_spec j i); [lia|]. now rewrite andb_true_r.
Qed.

(** The loop over a list of pins. *)
Lemma service_loop ks s w : ioapic_ok s -> Forall is_pin ks -> NoDup ks ->
  let '(s', w') := foldl ioapic_service_pin (s, w) ks in
  ioapic_ok s' /\ id s' = id s /\ ioregsel s' = ioregsel s
  /\ w' = foldl (fun w i => send (entry s i) w) w (filter (fun i => ready s i = true) ks)
  /\ forall j, is_pin j -> pin_after s s' j (bool_decide (j ∈ ks)).
Proof.
  revert s w. induction ks as [|k ks IH]; intros s w Hs Hks Hnd; cbn [foldl].
  { repeat (split; [done|]). intros j Hj. unfold pin_after.
    rewrite bool_decide_eq_false_2 by apply not_elem_of_nil. cbn [andb negb]. now rewrite andb_true_r. }
  apply Forall_cons_1 in Hks as [Hk Hks].
  pose proof (NoDup_cons_1_1 _ _ Hnd) as Hni; apply NoDup_cons_1_2 in Hnd.
  rewrite service_pin_spec by done.
  pose proof (fun j => settle_pin s k j Hs Hk) as Hset.
  assert (id (settle s k) = id s /\ ioregsel (settle s k) = ioregsel s) as [Eid Esel]
    by (unfold settle; split_ifs; done).
  specialize (IH (settle s k) (if ready s k then send (entry s k) w else w) (settle_ok _ _ Hs Hk) Hks Hnd).
  destruct (foldl _ _ ks) as [s' w']. destruct IH as (IH1 & IH2 & IH3 & IH4 & IH5).
  assert (Hother : forall j, j ∈ ks -> ready (settle s k) j = ready s j /\ entry (settle s k) j = entry s j).
  { intros j Hj. assert (is_pin j) as Hp by (rewrite Forall_forall in Hks; now apply Hks, list_elem_of_In).
    destruct (Hset j Hp) as [E1 E2]. destruct (Z.eqb_spec j k) as [->|]; [done|]. cbn [andb negb] in *.
    rewrite andb_true_r in E1. unfold ready. now rewrite E1, E2. }
  split; [done|]. split; [congruence|]. split; [congruence|]. split.
  - rewrite IH4. clear -Hother. rewrite filter_cons.
    assert (forall l w, (forall j, j ∈ l -> j ∈ ks) ->
      foldl (fun w i => send (entry (settle s k) i) w) w (filter (fun i => ready (settle s k) i = true) l)
      = foldl (fun w i => send (entry s i) w) w (filter (fun i => ready s i = true) l)) as E.
    { induction l as [|j l IHl]; intros w0 Hl; [done|]. rewrite !filter_cons.
      destruct (Hother j) as [Er Ee]; [apply Hl, elem_of_cons; auto|]. rewrite Er.
      assert (forall i, i ∈ l -> i ∈ ks) by (intros i Hi; apply Hl, elem_of_cons; auto).
      destruct (decide (ready s j = true)); cbn [foldl]; rewrite ?Ee; auto. }
    rewrite E by done. destruct (decide (ready s k = true)) as [Er|Er]; [now rewrite Er|].
    destruct (ready s k); [done|]. done.
  - intros j Hj. specialize (IH5 j Hj). specialize (Hset j Hj). unfold pin_after in *.
    destruct IH5 as [I1 I2], Hset as [S1 S2]. destruct (Z.eqb_spec j k) as [->|Hne].
    + rewrite bool_decide_eq_true_2 by (apply elem_of_cons; auto).
      rewrite bool_decide_eq_false_2 in I1, I2 by done. cbn [andb negb] in *.
      rewrite andb_true_r in I1. now rewrite I1, I2.
    + cbn [andb negb] in S1, S2. rewrite andb_true_r in S1.
      assert (bool_decide (j ∈ k :: ks) = bool_decide (j ∈ ks)) as ->.
      { apply bool_decide_ext. rewrite elem_of_cons. tauto. }
      unfold ready in *. now rewrite I1, I2, S1, S2.
Qed.

Lemma pins_in : Forall is_pin (seqZ 0 IOAPIC_NUM_PINS) /\ NoDup (seqZ 0 IOAPIC_NUM_PINS).
Proof.
  split; [|apply NoDup_seqZ]. apply Forall_forall. intros i Hi%list_elem_of_In%elem_of_seqZ.
  unfold is_pin, IOAPIC_NUM_PINS in *. lia.
Qed.

Lemma service_spec s w : ioapic_ok s ->
  let '(s', w') := ioapic_service s w in
  ioapic_ok s' /\ id s' = id s /\ ioregsel s' = ioregsel s
  /\ w' = foldl (fun w i => send (entry s i) w) w (filter (fun i => ready s i = true) (seqZ 0 24))
  /\ forall j, is_pin j -> pin_after s s' j true.
Proof.
  intros Hs. destruct pins_in as [H1 H2]. pose proof (service_loop _ s w Hs H1 H2) as L.
  unfold ioapic_service. destruct (foldl _ _ _) as [s' w']. destruct L as (L1 & L2 & L3 & L4 & L5).
  repeat (split; [done|]). intros j Hj. specialize (L5 j Hj).
  rewrite bool_decide_eq_true_2 in L5; [done|]. apply elem_of_seqZ. unfold is_pin, IOAPIC_NUM_PINS in *. lia.
Qed.

(** Servicing the I/O APIC sends, in pin order, the message of every
    redirection entry that is unmasked and requested, and no other. An edge
    request is consumed by it; a level request stays and its entry is marked
    with the remote IRR; nothing else changes. *)
Theorem ioapic_service_correct s w : ioapic_ok s ->
  let '(s', w') := ioapic_service s w in
  w' = foldl (fun w i => send (entry s i) w) w (filter (fun i => ready s i = true) (seqZ 0 24))
  /\ id s' = id s /\ ioregsel s' = ioregsel s
  /\ forall i, is_pin i ->
       requests s' i = requests s i && (masked (entry s i) || level (entry s i))
       /\ entry s' i = if ready s i && level (entry s i) then entry s i .| (1 << 14) else entry s i.
Proof.
  intros Hs. pose proof (service_spec s w Hs) as L. destruct (ioapic_service s w) as [s' w'].
  destruct L as (_ & L2 & L3 & L4 & L5). repeat (split; [done|]). intros i Hi.
  destruct (L5 i Hi) as [E1 E2]. cbn [andb] in *. split; [|exact E2]. rewrite E1. unfold ready.
  now destruct (requests s i), (masked (entry s i)), (level (entry s i)).
Qed.
End Service.

Lemma ioapic_reset_ok s : ioapic_ok (ioapic_reset s).
Proof.
  constructor; unfold ioapic_reset; cbn [over irr ioredtbl ioregsel id]; try (split; done).
  apply Forall_replicate. split; done.
Qed.

(** The all-zero I/O APIC after reset, with a level pin 3 (vector 0x31) and an
    edge pin 4 (vector 0x42) unmasked and requesting, and pin 5 masked. *)
Definition ioapic_demo : IOAPICState :=
  (ioapic_reset (mkIOAPIC 0 0 0 [])) <| irr := 0x38 |>
    <| ioredtbl := <[3%nat := 0x8031]> (<[4%nat := 0x42]> (replicate 24 0x10000)) |>.

Lemma ioapic_demo_ok : ioapic_ok ioapic_demo.
Proof. constructor; try (split; done). repeat constructor; done. Qed.

(** A machine that logs the vectors it is sent. *)
Definition log_bus : IntrBus (list Z) := {|
  apic_deliver_irq dest dmode delivery vector pol trig w := w ++ [vector];
  pic_read_irq w := (0x08, w)
|}.

Lemma ioapic_service_correct_witness :
  let '(s', w') := @ioapic_service _ log_bus ioapic_demo [] in
  w' = [0x31; 0x42] /\ requests s' 3 = true /\ requests s' 4 = false /\ entry s' 3 = 0xc031.
Proof.
  pose proof (@ioapic_service_correct _ log_bus ioapic_demo [] ioapic_demo_ok) as T.
  destruct (@ioapic_service _ log_bus ioapic_demo []) as [s' w']. destruct T as (Hw & _ & _ & T).
  destruct (T 3) as [A1 A2]; [unfold is_pin; lia|]. destruct (T 4) as [B1 _]; [unfold is_pin; lia|].
  rewrite Hw, A1, A2, B1. vm_compute. auto.
Defined.

(** ** Programming the redirection table *)

Section Program.
Context {W : Type} `{IntrBus W}.

(** The index of one half of an entry, and the accesses through the window. *)
Definition redtbl_reg (i : Z) (high : bool) : Z := IOAPIC_REG_REDTBL_BASE + 2 * i + b2z high.

Definition read_reg (i : Z) (high : bool) (s : IOAPICState) (w : W) : Z :=
  ioapic_mem_readl IOAPIC_IOWIN (ioapic_mem_writel IOAPIC_IOREGSEL (redtbl_reg i high) s w).1.

Definition write_reg (i : Z) (high : bool) (val : Z) (s : IOAPICState) (w : W) : IOAPICState * W :=
  let '(s, w) := ioapic_mem_writel IOAPIC_IOREGSEL (redtbl_reg i high) s w in
  ioapic_mem_writel IOAPIC_IOWIN val s w.

Definition half (e : Z) (high : bool) : Z := if high then e / 2 ^ 32 else e mod 2 ^ 32.

(** An entry with one half replaced. *)
Definition with_half (e : Z) (high : bool) (val : Z) : Z :=
  if high then e mod 2 ^ 32 + 2 ^ 32 * val else val + 2 ^ 32 * (e / 2 ^ 32).

Lemma redtbl_reg_decode i high : is_pin i ->
  u8 (redtbl_reg i high) = redtbl_reg i high /\ 16 <= redtbl_reg i high
  /\ (redtbl_reg i high - IOAPIC_REG_REDTBL_BASE) >> 1 = i /\ tst (redtbl_reg i high) 1 = high.
Proof.
  unfold is_pin, redtbl_reg, IOAPIC_REG_REDTBL_BASE. intros Hi.
  assert (0 <= b2z high <= 1) by now destruct high. split; [apply u8_id; unfold in_u; lia|]. split; [lia|]. split.
  - rewrite Z.shiftr_div_pow2 by lia. replace (16 + 2 * i + b2z high - 16) with (b2z high + i * 2) by lia.
    rewrite Z.div_add by lia. now destruct high.
  - unfold tst, truthy. rewrite land_1. replace (16 + 2 * i + b2z high) with (b2z high + (8 + i) * 2) by lia.
    rewrite Z.mod_add by lia. now destruct high.
Qed.

Lemma read_reg_half i high s w : ioapic_ok s -> is_pin i ->
  read_reg i high s w = half (entry s i) high.
Proof.
  intros Hs Hi. destruct (redtbl_reg_decode i high Hi) as (E1 & E2 & E3 & E4).
  unfold read_reg, ioapic_mem_writel. change (IOAPIC_IOREGSEL .& 0xff =? IOAPIC_IOREGSEL) with true.
  cbv iota. cbn [fst]. rewrite E1. unfold ioapic_mem_readl. cbn [over ioregsel ioredtbl].
  change (IOAPIC_IOWIN .& 0xff =? IOAPIC_IOREGSEL) with false.
  change (IOAPIC_IOWIN .& 0xff =? IOAPIC_IOWIN) with true. cbv iota.
  rewrite E3, E4. unfold IOAPIC_REG_ID, IOAPIC_REG_VER, IOAPIC_REG_ARB, IOAPIC_NUM_PINS.
  unfold is_pin in Hi.
  destruct (Z.eqb_spec (redtbl_reg i high) 0), (Z.eqb_spec (redtbl_reg i high) 1),
    (Z.eqb_spec (redtbl_reg i high) 2), (Z.leb_spec 0 i), (Z.ltb_spec i 0x18); try lia.
  cbn [andb]. fold (entry s i). unfold half. destruct high.
  - rewrite Z.shiftr_div_pow2 by lia. apply u32_id. pose proof (entry_in_u s i Hs) as [? ?].
    split; [apply Z.div_pos; lia|apply Z.div_lt_upper_bound; lia].
  - now apply (land_ones_mod _ 32).
Qed.

Lemma write_half e (high : bool) val : in_u 64 e -> in_u 32 val ->
  (if high then (e .& 0xffffffff) .| u64 (val << 32) else (e .& ~~ 0xffffffff) .| val)
  = with_half e high val /\ in_u 64 (with_half e high val).
Proof.
  intros [He0 He1] [Hv0 Hv1]. change (2 ^ 64) with (2 ^ 32 * 2 ^ 32) in He1.
  pose proof (Z.mod_pos_bound e (2 ^ 32) ltac:(lia)).
  assert (0 <= e / 2 ^ 32 < 2 ^ 32) by (split; [apply Z.div_pos; lia|apply Z.div_lt_upper_bound; lia]).
  unfold with_half, in_u. change (2 ^ 64) with (2 ^ 32 * 2 ^ 32). destruct high.
  - rewrite u64_id by (rewrite Z.shiftl_mul_pow2 by lia; unfold in_u; change (2 ^ 64) with (2 ^ 32 * 2 ^ 32); nia).
    rewrite (land_ones_mod e 32) by done. rewrite lor_shift by (unfold in_u; lia). split; [done|nia].
  - assert (e .& ~~ 0xffffffff = (e / 2 ^ 32) << 32) as ->.
    { rewrite <- Z.shiftr_div_pow2 by lia. change 0xffffffff with (Z.ones 32).
      rewrite <- Z.ldiff_land. now rewrite Z.ldiff_ones_r by lia. }
    rewrite Z.lor_comm. rewrite lor_shift by (unfold in_u; lia). split; [done|nia].
Qed.

Lemma half_with_half e high h val : in_u 32 val ->
  half (with_half e high val) h = if Bool.eqb h high then val else half e h.
Proof.
  intros [Hv0 Hv1]. pose proof (Z.mod_pos_bound e (2 ^ 32) ltac:(lia)).
  assert (forall a b, 0 <= a < 2 ^ 32 -> (a + 2 ^ 32 * b) / 2 ^ 32 = b /\ (a + 2 ^ 32 * b) mod 2 ^ 32 = a) as D.
  { intros a b Ha. split; symmetry.
    - apply Z.div_unique with (r := a); lia.
    - apply Z.mod_unique with (q := b); lia. }
  unfold half, with_half. destruct h, high; cbn [Bool.eqb]; apply D; lia.
Qed.

(** A write to the table through the window, before the pins are serviced. *)
Lemma win_write_redtbl i high val s w : is_pin i -> ioregsel s = redtbl_reg i high ->
  ioapic_mem_writel IOAPIC_IOWIN val s w =
  ioapic_service (s <| ioredtbl := aset (ioredtbl s) i
    (if high then (entry s i .& 0xffffffff) .| u64 (val << 32) else (entry s i .& ~~ 0xffffffff) .| val) |>) w.
Proof.
  intros Hi Hsel. destruct (redtbl_reg_decode i high Hi) as (_ & E2 & E3 & E4).
  unfold ioapic_mem_writel. change (IOAPIC_IOWIN .& 0xff =? IOAPIC_IOREGSEL) with false.
  change (IOAPIC_IOWIN .& 0xff =? IOAPIC_IOWIN) with true. cbv iota. rewrite Hsel, E3, E4.
  unfold IOAPIC_REG_ID, IOAPIC_REG_VER, IOAPIC_REG_ARB, IOAPIC_NUM_PINS. unfold is_pin in Hi.
  destruct (Z.eqb_spec (redtbl_reg i high) 0), (Z.eqb_spec (redtbl_reg i high) 1),
    (Z.eqb_spec (redtbl_reg i high) 2), (Z.leb_spec 0 i), (Z.ltb_spec i 0x18); try lia. done.
Qed.

Lemma set_entry_ok i e s : ioapic_ok s -> in_u 64 e -> ioapic_ok (s <| ioredtbl := aset (ioredtbl s) i e |>).
Proof.
  intros [H1 H2 H3 H4 H5] He. constructor; cbn [over irr ioredtbl ioregsel id]; try done.
  - now rewrite length_aset.
  - now apply aset_Forall.
Qed.

Lemma select_ok v s : ioapic_ok s -> ioapic_ok (s <| ioregsel := u8 v |>).
Proof. intros [H1 H2 H3 H4 H5]. constructor; cbn [over irr ioredtbl ioregsel id]; auto using u8_range. Qed.

(** Two values of a half that agree but for the remote IRR bit. *)
Definition same_reg (high : bool) (x y : Z) : Prop :=
  if high then x = y else x .& ~~ IOAPIC_LVT_REMOTE_IRR = y .& ~~ IOAPIC_LVT_REMOTE_IRR.

Lemma same_reg_remote e high : same_reg high (half (e .| IOAPIC_LVT_REMOTE_IRR) high) (half e high).
Proof.
  unfold same_reg, half, IOAPIC_LVT_REMOTE_IRR. destruct high.
  - rewrite <- !Z.shiftr_div_pow2 by lia. rewrite Z.shiftr_lor. change (1 << 14 >> 32) with 0. apply Z.lor_0_r.
  - rewrite <- !Z.land_ones by lia. apply Z.bits_inj'. intros n Hn. autorewrite with bits.
    destruct (Z.eqb_spec n 14); cbn [negb]; rewrite ?andb_false_r, ?orb_false_r; done.
Qed.

(** Programming the redirection table through the index and window
    registers: a half of an entry reads back as it was written and every other
    half as before, but for the remote IRR bit, which the servicing that follows
    the write may set. *)
Theorem ioapic_redtbl_readback n high val s w :
  ioapic_ok s -> is_pin n -> in_u 32 val ->
  let '(s', w') := write_reg n high val s w in
  forall i h, is_pin i ->
    same_reg h (read_reg i h s' w')
      (if (i =? n) && Bool.eqb h high then val else read_reg i h s w).
Proof.
  intros Hs Hn Hv. unfold write_reg. unfold ioapic_mem_writel at 1.
  change (IOAPIC_IOREGSEL .& 0xff =? IOAPIC_IOREGSEL) with true. cbv iota.
  destruct (redtbl_reg_decode n high Hn) as (E1 & _).
  rewrite (win_write_redtbl n high) by (done || cbn [over ioregsel]; done).
  set (s0 := s <| ioregsel := u8 (redtbl_reg n high) |>).
  pose proof (select_ok (redtbl_reg n high) s Hs) as Hs0. fold s0 in Hs0.
  destruct (write_half (entry s0 n) high val (entry_in_u _ _ Hs0) Hv) as [-> Hw].
  set (s1 := s0 <| ioredtbl := _ |>).
  assert (Hs1 : ioapic_ok s1) by now apply set_entry_ok.
  assert (He : forall i, is_pin i -> entry s1 i = if i =? n then with_half (entry s n) high val else entry s i).
  { unfold is_pin in *. intros i Hi. pose proof (ok_len s Hs). unfold entry at 1, s1. cbn [over ioredtbl].
    destruct (Z.eqb_spec i n) as [->|]; [now rewrite aget_aset_eq by (cbn [s0 over ioredtbl]; lia)|].
    now rewrite aget_aset_ne by lia. }
  pose proof (service_spec s1 w Hs1) as L. destruct (ioapic_service s1 w) as [s' w'].
  destruct L as (Hs' & _ & _ & _ & L). intros i h Hi. rewrite !read_reg_half by done.
  destruct (L i Hi) as [_ ->].
  assert (half (entry s1 i) h = if (i =? n) && Bool.eqb h high then val else half (entry s i) h) as <-.
  { rewrite He by done. destruct (Z.eqb_spec i n) as [->|]; [|done]. now rewrite half_with_half. }
  destruct (_ && level (entry s1 i)); [apply same_reg_remote|]. now destruct h.
Qed.
End Program.

Lemma ioapic_redtbl_readback_witness :
  let '(s', w') := @write_reg _ log_bus 5 false 0xa055 ioapic_demo [] in
  same_reg false (read_reg (H := log_bus) 5 false s' w') 0xa055
  /\ same_reg true (read_reg (H := log_bus) 3 true s' w') 0.
Proof.
  pose proof (@ioapic_redtbl_readback _ log_bus 5 false 0xa055 ioapic_demo [] ioapic_demo_ok
    ltac:(unfold is_pin; lia) ltac:(split; done)) as T.
  destruct (@write_reg _ log_bus 5 false 0xa055 ioapic_demo []) as [s' w'].
  split; [apply (T 5 false)|apply (T 3 true)]; unfold is_pin; lia.
Defined.

(** ** No request is left undelivered *)

Definition delivered_pin (s : IOAPICState) (i : Z) : Prop :=
  ready s i = true -> level (entry s i) = true /\ remote_irr (entry s i) = true.
Definition delivered (s : IOAPICState) : Prop := forall i, is_pin i -> delivered_pin s i.

Definition io_inv (s : IOAPICState) : Prop := ioapic_ok s /\ delivered s.

Section Reach.
Context {W : Type} `{IntrBus W}.

Lemma remote_bits e : masked (e .| IOAPIC_LVT_REMOTE_IRR) = masked e
  /\ level (e .| IOAPIC_LVT_REMOTE_IRR) = level e /\ remote_irr (e .| IOAPIC_LVT_REMOTE_IRR) = true.
Proof.
  unfold masked, level, remote_irr, IOAPIC_LVT_REMOTE_IRR. now autorewrite with bits.
Qed.

Lemma service_inv s w : ioapic_ok s -> io_inv (ioapic_service s w).1.
Proof.
  intros Hs. pose proof (service_spec s w Hs) as L. destruct (ioapic_service s w) as [s' w'].
  destruct L as (Hs' & _ & _ & _ & L). split; [done|]. cbn [fst]. intros i Hi. destruct (L i Hi) as [E1 E2].
  unfold delivered_pin, ready in *. cbn [andb] in *. destruct (remote_bits (entry s i)) as (R1 & R2 & R3).
  rewrite E1, E2. destruct (requests s i), (masked (entry s i)) eqn:Em, (level (entry s i)) eqn:El; cbn [andb negb];
    rewrite ?R1, ?R2, ?R3, ?Em, ?El; done.
Qed.

Lemma set_req_ok s i b : ioapic_ok s -> is_pin i ->
  ioapic_ok (s <| irr := if b : bool then irr s .| (1 << i) else irr s .& ~~ (1 << i) |>).
Proof.
  unfold is_pin. intros [H1 H2 H3 H4 H5] Hi. constructor; cbn [over irr ioredtbl ioregsel id]; try done.
  destruct b; auto with width.
Qed.

Lemma set_irq_inv v l s w : io_inv s -> io_inv (ioapic_set_irq v l s w).1.
Proof.
  intros [Hs Hd]. unfold ioapic_set_irq. set (v' := if v =? 0 then 2 else v). unfold IOAPIC_NUM_PINS.
  destruct (Z.leb_spec 0 v'), (Z.ltb_spec v' 0x18); cbn [andb]; try done.
  assert (Hp : is_pin v') by (unfold is_pin; lia).
  destruct (_ =? IOAPIC_TRIGGER_LEVEL); [destruct (truthy l)|destruct (_ && _); [|done]].
  - apply service_inv. now apply (set_req_ok s v' true).
  - split; [now apply (set_req_ok s v' false)|]. intros i Hi. cbn [fst]. specialize (Hd i Hi).
    unfold delivered_pin, ready, requests, entry in *. cbn [over irr ioredtbl]. unfold is_pin in *.
    autorewrite with bits. destruct (Z.testbit (irr s) i); [|done]. intros Hr. apply Hd.
    now destruct (masked _), (i =? v').
  - apply service_inv. now apply (set_req_ok s v' true).
Qed.

Lemma eoi_pin_inv v s w n : io_inv s -> is_pin n -> io_inv (ioapic_eoi_pin v (s, w) n).1.
Proof.
  intros [Hs Hd] Hn. unfold ioapic_eoi_pin. destruct (_ && _); [|done]. fold (entry s n).
  set (s1 := s <| ioredtbl := _ |>). pose proof (entry_in_u s n Hs) as He.
  assert (Hs1 : ioapic_ok s1) by (apply set_entry_ok; auto with width).
  destruct (negb _ && _) eqn:E; [now apply service_inv|]. split; [done|]. intros i Hi. cbn [fst].
  unfold is_pin in *. destruct (Z.eq_dec i n) as [->|Hne].
  - unfold delivered_pin, ready. intros [Hr Hm]%andb_true_iff. exfalso.
    unfold s1 in Hr, Hm, E. unfold requests, entry in *. cbn [over irr ioredtbl] in *.
    pose proof (ok_len s Hs). rewrite aget_aset_eq in Hm by lia.
    unfold masked, IOAPIC_LVT_REMOTE_IRR, IOAPIC_LVT_MASKED in *. rewrite !tst_bit in E by lia.
    autorewrite with bits in Hm. now rewrite Hm, Hr in E.
  - specialize (Hd i Hi). unfold delivered_pin, ready, requests, entry, s1 in *. cbn [over irr ioredtbl].
    now rewrite aget_aset_ne by lia.
Qed.

Lemma eoi_broadcast_inv v s w : io_inv s -> io_inv (ioapic_eoi_broadcast v s w).1.
Proof.
  unfold ioapic_eoi_broadcast. destruct pins_in as [Hp _]. revert s w.
  induction (seqZ 0 IOAPIC_NUM_PINS) as [|k ks IH]; intros s w Hs; [done|].
  apply Forall_cons_1 in Hp as [Hk Hks]. cbn [foldl]. pose proof (eoi_pin_inv v s w k Hs Hk).
  destruct (ioapic_eoi_pin v (s, w) k). now apply IH.
Qed.

Lemma writel_inv a val s w : in_u 32 val -> io_inv s -> io_inv (ioapic_mem_writel a val s w).1.
Proof.
  intros Hv [Hs Hd]. unfold ioapic_mem_writel. destruct (_ =? IOAPIC_IOREGSEL).
  { split; [now apply select_ok|exact Hd]. }
  destruct (_ =? IOAPIC_IOWIN); [|done]. destruct (ioregsel s =? IOAPIC_REG_ID).
  { split; [|exact Hd]. destruct Hs as [H1 H2 H3 H4 H5]. constructor; cbn [over irr ioredtbl ioregsel id]; try done.
    apply in_u_land_r; [lia|split; done]. }
  destruct (_ || _); [done|]. set (i := (ioregsel s - _) >> 1). destruct (_ && _) eqn:Ei; [|done].
  apply service_inv, set_entry_ok; [done|]. fold (entry s i).
  destruct (write_half (entry s i) (tst (ioregsel s) 1) val (entry_in_u _ _ Hs) Hv) as [-> ?]. done.
Qed.

(** Everything that happens to the I/O APIC while the machine runs. *)
Inductive ioapic_step : IOAPICState * W -> IOAPICState * W -> Prop :=
| step_set_irq v l s w : ioapic_step (s, w) (ioapic_set_irq v l s w)
| step_eoi v s w : ioapic_step (s, w) (ioapic_eoi_broadcast v s w)
| step_write a val s w : in_u 32 val -> ioapic_step (s, w) (ioapic_mem_writel a val s w)
| step_reset s w : ioapic_step (s, w) (ioapic_reset s, w)
| step_world s w w' : ioapic_step (s, w) (s, w').

Lemma reset_inv s : io_inv (ioapic_reset s).
Proof.
  split; [apply ioapic_reset_ok|]. intros i Hi. unfold delivered_pin, ready, requests, ioapic_reset.
  cbn [over irr]. rewrite Z.bits_0. done.
Qed.

Lemma step_inv x y : io_inv x.1 -> ioapic_step x y -> io_inv y.1.
Proof.
  intros Hx Hy. destruct Hy; cbn [fst] in *;
    auto using set_irq_inv, eoi_broadcast_inv, writel_inv, reset_inv.
Qed.

(** In every state the I/O APIC reaches from reset, whatever the
    interrupt lines, the guest's register writes and the EOIs do, no unmasked
    request is waiting to be sent: each one that is still latched is a level
    request whose message has gone out and whose remote IRR awaits the EOI. *)
Theorem ioapic_reachable_delivered s0 w0 s w i :
  rtc ioapic_step (ioapic_reset s0, w0) (s, w) -> is_pin i ->
  requests s i = true -> masked (entry s i) = false ->
  level (entry s i) = true /\ remote_irr (entry s i) = true.
Proof.
  intros Hr Hi Hq Hm.
  assert (io_inv s) as [_ Hd].
  { apply (rtc_invariant _ (fun x => io_inv x.1) step_inv _ (s, w) Hr). apply reset_inv. }
  apply (Hd i Hi). unfold ready. now rewrite Hq, Hm.
Qed.
End Reach.

(** Program pin 3 as level, vector 0x31, and raise its line. *)
Definition ioapic_run : IOAPICState * list Z :=
  let '(s, w) := @ioapic_mem_writel _ log_bus 0 0x16 (ioapic_reset (mkIOAPIC 0 0 0 [])) [] in
  let '(s, w) := @ioapic_mem_writel _ log_bus 0x10 0x8031 s w in
  @ioapic_set_irq _ log_bus 3 1 s w.

Lemma ioapic_run_reachable :
  rtc (@ioapic_step _ log_bus) (ioapic_reset (mkIOAPIC 0 0 0 []), []) (ioapic_run.1, ioapic_run.2).
Proof.
  rewrite <- surjective_pairing. unfold ioapic_run.
  eapply rtc_l; [apply (@step_write _ log_bus 0 0x16); split; done|].
  destruct (@ioapic_mem_writel _ log_bus 0 0x16 _ _) as [s1 w1].
  eapply rtc_l; [apply (@step_write _ log_bus 0x10 0x8031); split; done|].
  destruct (@ioapic_mem_writel _ log_bus 0x10 0x8031 _ _) as [s2 w2].
  eapply rtc_l; [apply (@step_set_irq _ log_bus 3 1)|]. apply rtc_refl.
Qed.

Lemma ioapic_reachable_delivered_witness :
  ioapic_run.2 = [0x31] /\ level (entry ioapic_run.1 3) = true /\ remote_irr (entry ioapic_run.1 3) = true.
Proof.
  split; [vm_compute; reflexivity|].
  apply (@ioapic_reachable_delivered _ log_bus _ _ _ _ 3 ioapic_run_reachable);
    [unfold is_pin; lia|vm_compute; reflexivity|vm_compute; reflexivity].
Defined.

(** ** With the local APICs: the level-triggered protocol *)

#[local] Existing Instances Apic.APICState_eta Apic.bus_eta.

Section WithApic.
Context {C : Type} (cpu_interrupt : Z -> Z -> C -> C).

(** The machine: the local APICs, the I/O APIC and the CPUs.  [isa_pic] is
    [pic_read_irq] on it, used for ExtINT entries only. *)
Abbreviation machine := (Apic.bus (IOAPICState * C)).
Context (isa_pic : machine -> Z * machine).

Definition cpu_intr (i m : Z) (w : IOAPICState * C) : IOAPICState * C := (w.1, cpu_interrupt i m w.2).
Definition the_ioapic (b : machine) : IOAPICState := (Apic.globals b).2.1.
Definition put_ioapic (s : IOAPICState) (b : machine) : machine :=
  Apic.mkBus (Apic.local_apics b) ((Apic.globals b).1, (s, (Apic.globals b).2.2)).

#[local] Instance machine_bus : IntrBus machine := {|
  apic_deliver_irq := Apic.apic_deliver_irq cpu_intr;
  pic_read_irq := isa_pic
|}.

(** [ioapic_eoi_broadcast] as [apic_eoi] calls it. *)
Definition machine_eoi_broadcast (vector : Z) (b : machine) : machine :=
  let '(s, b) := ioapic_eoi_broadcast vector (the_ioapic b) b in put_ioapic s b.

Definition no_extint (s : IOAPICState) : Prop := forall i, is_pin i -> (entry s i >> 8) .& 7 <> 7.

Lemma land_ff_range e : 0 <= e .& 0xff < 256.
Proof. pose proof (land_range e 8 0xff ltac:(lia) eq_refl). lia. Qed.

Lemma send_plain e (b : machine) : (e >> 8) .& 7 <> 7 ->
  send e b = Apic.apic_deliver_irq cpu_intr (e >> 56) (b2z (Z.testbit e 11)) ((e >> 8) .& 7) (e .& 0xff)
    (b2z (Z.testbit e 13)) (b2z (level e)) b.
Proof. intros Hm. unfold send. now destruct (Z.eqb_spec ((e >> 8) .& 7) 7). Qed.

Lemma send_all_raises (f : Z -> Z) ks (b : machine) : Apic.bus_ok b ->
  (forall i, i ∈ ks -> (f i >> 8) .& 7 <> 7) ->
  Apic.bus_raises b (foldl (fun w i => send (f i) w) b ks).
Proof.
  revert b. induction ks as [|k ks IH]; intros b Hb Hk; cbn [foldl]; [now apply Apic.bus_raises_refl|].
  rewrite send_plain by (apply Hk, elem_of_cons; auto).
  match goal with |- context [foldl _ ?x _] => set (b1 := x) end.
  assert (Apic.bus_raises b b1) as H1 by (apply Apic.deliver_raises; [done|apply land_ff_range]).
  eapply Apic.bus_raises_trans; [exact H1|]. apply IH; [eauto using Apic.bus_raises_ok|].
  intros i Hi. apply Hk, elem_of_cons. auto.
Qed.

(** Every selected local APIC has the vector of a fixed-mode message that was
    sent among others. *)
Lemma send_all_hits (f : Z -> Z) ks (b : machine) n i a : Apic.bus_ok b ->
  (forall i, i ∈ ks -> (f i >> 8) .& 7 <> 7) -> n ∈ ks -> (f n >> 8) .& 7 = 0 -> in_u 64 (f n) ->
  Apic.local_apics b !! i = Some a -> Apic.selects (f n >> 56) (b2z (Z.testbit (f n) 11)) a = true ->
  exists a', Apic.local_apics (foldl (fun w i => send (f i) w) b ks) !! i = Some a'
    /\ Apic.vec (Apic.irr a') (f n .& 0xff) = true.
Proof.
  revert b a. induction ks as [|k ks IH]; intros b a Hb Hk Hn Hm Hu Ha Hsel; [now apply elem_of_nil in Hn|].
  cbn [foldl]. rewrite send_plain by (apply Hk, elem_of_cons; auto).
  match goal with |- context [foldl _ ?x _] => set (b1 := x) end.
  assert (Apic.bus_raises b b1) as H1 by (apply Apic.deliver_raises; [done|apply land_ff_range]).
  assert (Apic.bus_ok b1) as Hb1 by eauto using Apic.bus_raises_ok.
  assert (forall j, j ∈ ks -> (f j >> 8) .& 7 <> 7) as Hks by (intros j Hj; apply Hk, elem_of_cons; auto).
  destruct (Z.eq_dec k n) as [->|Hne].
  - destruct (Apic.deliver_fixed cpu_intr (f n >> 56) (b2z (Z.testbit (f n) 11)) (f n .& 0xff)
      (b2z (Z.testbit (f n) 13)) (b2z (level (f n))) b i a) as (a1 & Ha1 & _ & Hv).
    + destruct Hu. unfold in_u. rewrite Z.shiftr_div_pow2 by lia.
      split; [apply Z.div_pos; lia|apply Z.div_lt_upper_bound; lia].
    + apply Hb.
    + apply Hb.
    + done.
    + apply (Forall_lookup_1 _ _ _ _ (Apic.bus_all b Hb) Ha).
    + apply land_ff_range.
    + unfold b1 in *. rewrite Hm in *. clear b1.
      match type of Ha1 with Apic.local_apics ?x !! _ = _ => set (b1 := x) in * end.
      destruct (Apic.bus_raises_lookup _ _ _ _ (send_all_raises f ks b1 Hb1 Hks) Ha1) as (a' & Ha' & Hr).
      exists a'. split; [exact Ha'|]. apply (Apic.raises_irr _ _ Hr); [apply land_ff_range|].
      destruct (Hv Hsel (f n .& 0xff) (land_ff_range _)) as [-> _]. now rewrite Z.eqb_refl.
  - destruct (Apic.bus_raises_lookup _ _ _ _ H1 Ha) as (a1 & Ha1 & Hr).
    apply elem_of_cons in Hn as [->|Hn]; [done|].
    eapply (IH b1 a1); auto. now rewrite (Apic.raises_selects _ _ _ _ Hr).
Qed.

Lemma remote_idem e : remote_irr e = true ->
  e .| IOAPIC_LVT_REMOTE_IRR = e /\ (e .& ~~ IOAPIC_LVT_REMOTE_IRR) .| IOAPIC_LVT_REMOTE_IRR = e.
Proof.
  unfold remote_irr, IOAPIC_LVT_REMOTE_IRR. intros Hr.
  split; apply Z.bits_inj'; intros k Hk; autorewrite with bits; destruct (Z.eqb_spec k 14) as [->|];
    now rewrite ?Hr, ?orb_true_r, ?orb_false_r, ?andb_true_r.
Qed.

(** Setting or clearing the remote IRR leaves the rest of the entry. *)
Lemma remote_frame e : let x := e .| IOAPIC_LVT_REMOTE_IRR in let y := e .& ~~ IOAPIC_LVT_REMOTE_IRR in
  (x >> 8) .& 7 = (e >> 8) .& 7 /\ (y >> 8) .& 7 = (e >> 8) .& 7 /\ y .& 0xff = e .& 0xff
  /\ masked y = masked e /\ level y = level e /\ remote_irr y = false /\ y >> 56 = e >> 56
  /\ Z.testbit y 11 = Z.testbit e 11.
Proof.
  unfold masked, level, remote_irr, IOAPIC_LVT_REMOTE_IRR. cbv zeta.
  repeat split; try (now autorewrite with bits); apply Z.bits_inj'; intros k Hk;
    autorewrite with bits; try lia; rewrite ?Z.shiftr_spec by lia; autorewrite with bits; try lia.
  - change 7 with (Z.ones 3). rewrite Z.testbit_ones_nonneg by lia.
    destruct (Z.ltb_spec k 3), (Z.eqb_spec (k + 8) 14); try lia; rewrite ?andb_false_r, ?orb_false_r; done.
  - change 7 with (Z.ones 3). rewrite Z.testbit_ones_nonneg by lia.
    destruct (Z.ltb_spec k 3), (Z.eqb_spec (k + 8) 14); try lia; rewrite ?andb_false_r, ?andb_true_r; done.
  - change 255 with (Z.ones 8). rewrite Z.testbit_ones_nonneg by lia.
    destruct (Z.ltb_spec k 8), (Z.eqb_spec k 14); try lia; rewrite ?andb_false_r, ?andb_true_r; done.
  - destruct (Z.eqb_spec (k + 56) 14); [lia|]. now rewrite ?andb_true_r.
Qed.

(** A pin whose level request was sent and whose line is still up. *)
Definition armed (s : IOAPICState) (n e : Z) : Prop :=
  requests s n = true /\ entry s n = e /\ masked e = false /\ level e = true /\ remote_irr e = true.

Record io_good (s : IOAPICState) (b : machine) : Prop := {
  good_io : ioapic_ok s;
  good_ext : no_extint s;
  good_bus : Apic.bus_ok b
}.

Lemma service_good s (b : machine) : io_good s b ->
  let '(s', b') := ioapic_service s b in
  io_good s' b' /\ Apic.bus_raises b b'
  /\ (forall n, is_pin n -> ready s n = true -> level (entry s n) = true ->
        requests s' n = true /\ entry s' n = entry s n .| IOAPIC_LVT_REMOTE_IRR)
  /\ (forall n i a, is_pin n -> ready s n = true -> (entry s n >> 8) .& 7 = 0 ->
        Apic.local_apics b !! i = Some a ->
        Apic.selects (entry s n >> 56) (b2z (Z.testbit (entry s n) 11)) a = true ->
        exists a', Apic.local_apics b' !! i = Some a' /\ Apic.vec (Apic.irr a') (entry s n .& 0xff) = true).
Proof.
  intros [Hs He Hb]. pose proof (service_spec s b Hs) as L. destruct (ioapic_service s b) as [s' b'].
  destruct L as (Hs' & _ & _ & -> & L).
  assert (forall i, i ∈ filter (fun i => ready s i = true) (seqZ 0 24) -> (entry s i >> 8) .& 7 <> 7) as Hk.
  { intros i [_ Hi%elem_of_seqZ]%list_elem_of_filter. apply He. unfold is_pin. lia. }
  pose proof (send_all_raises (entry s) _ b Hb Hk) as Hr.
  split; [split; [done| |eauto using Apic.bus_raises_ok]|split; [done|split]].
  - intros i Hi. destruct (L i Hi) as [_ ->]. destruct (remote_frame (entry s i)) as (F & _).
    destruct (_ && _); [rewrite F|]; auto.
  - intros n Hn Hrd Hl. destruct (L n Hn) as [-> ->]. rewrite Hrd, Hl. cbn. rewrite andb_true_r.
    now apply andb_true_iff in Hrd as [-> _].
  - intros n i a Hn Hrd Hm Ha Hsel. apply (send_all_hits (entry s) _ b n i a); auto using entry_in_u.
    apply list_elem_of_filter. split; [done|]. apply elem_of_seqZ. unfold is_pin in Hn. lia.
Qed.

Lemma clear_remote_entry s n k : ioapic_ok s -> is_pin n -> is_pin k ->
  let s1 := s <| ioredtbl := aset (ioredtbl s) k (entry s k .& ~~ IOAPIC_LVT_REMOTE_IRR) |> in
  ioapic_ok s1 /\ (no_extint s -> no_extint s1)
  /\ entry s1 n = if n =? k then entry s k .& ~~ IOAPIC_LVT_REMOTE_IRR else entry s n.
Proof.
  intros Hs Hn Hk. pose proof (ok_len s Hs). pose proof (entry_in_u s k Hs).
  assert (forall j, is_pin j -> entry (s <| ioredtbl := aset (ioredtbl s) k (entry s k .& ~~ IOAPIC_LVT_REMOTE_IRR) |>) j
    = if j =? k then entry s k .& ~~ IOAPIC_LVT_REMOTE_IRR else entry s j) as He.
  { unfold is_pin in *. intros j Hj. unfold entry at 1. cbn [over ioredtbl].
    destruct (Z.eqb_spec j k) as [->|]; [now rewrite aget_aset_eq by lia|now rewrite aget_aset_ne by lia]. }
  split; [apply set_entry_ok; auto with width|]. split; [|now apply He].
  intros Hx j Hj. rewrite He by done. destruct (Z.eqb_spec j k) as [->|]; [|auto].
  destruct (remote_frame (entry s k)) as (_ & -> & _). auto.
Qed.

Lemma eoi_pin_good v s (b : machine) k : io_good s b -> is_pin k ->
  let '(s', b') := ioapic_eoi_pin v (s, b) k in io_good s' b' /\ Apic.bus_raises b b'.
Proof.
  intros Hg Hk. pose proof Hg as [Hs He Hb]. destruct (clear_remote_entry s k k Hs Hk Hk) as (C1 & C2 & _).
  unfold ioapic_eoi_pin. fold (entry s k). destruct (_ && _); [|auto using Apic.bus_raises_refl].
  destruct (_ && _); [|split; [split; auto|now apply Apic.bus_raises_refl]].
  match goal with |- context [ioapic_service ?x b] => pose proof (service_good x b) as L; destruct (ioapic_service x b) end.
  destruct L as (L1 & L2 & _); [split; auto|]. done.
Qed.

Lemma eoi_broadcast_good v s (b : machine) : io_good s b ->
  let '(s', b') := ioapic_eoi_broadcast v s b in io_good s' b' /\ Apic.bus_raises b b'.
Proof.
  unfold ioapic_eoi_broadcast. destruct pins_in as [Hp _]. revert s b.
  induction (seqZ 0 IOAPIC_NUM_PINS) as [|k ks IH]; intros s b Hg; cbn [foldl].
  { split; [done|]. apply Apic.bus_raises_refl, Hg. }
  apply Forall_cons_1 in Hp as [Hk Hks]. pose proof (eoi_pin_good v s b k Hg Hk) as L.
  destruct (ioapic_eoi_pin v (s, b) k) as [s1 b1]. destruct L as [L1 L2]. specialize (IH Hks s1 b1 L1).
  destruct (foldl _ _ ks). destruct IH. split; [done|]. eauto using Apic.bus_raises_trans.
Qed.

(** One pin of the broadcast, seen from an armed pin [n] of the vector. *)
Lemma eoi_pin_armed v s (b : machine) k n e i a : io_good s b -> is_pin k -> is_pin n -> armed s n e ->
  e .& 0xff = v -> (e >> 8) .& 7 = 0 -> Apic.local_apics b !! i = Some a ->
  Apic.selects (e >> 56) (b2z (Z.testbit e 11)) a = true ->
  let '(s', b') := ioapic_eoi_pin v (s, b) k in
  io_good s' b' /\ Apic.bus_raises b b' /\ armed s' n e
  /\ (k = n -> exists a', Apic.local_apics b' !! i = Some a' /\ Apic.vec (Apic.irr a') v = true).
Proof.
  intros Hg Hk Hn (A1 & A2 & A3 & A4 & A5) Hv Hm Ha Hsel. pose proof Hg as [Hs He Hb].
  unfold ioapic_eoi_pin, IOAPIC_LVT_REMOTE_IRR at 1, IOAPIC_LVT_MASKED, IOAPIC_VECTOR_MASK. fold (entry s k).
  rewrite !tst_bit by (unfold is_pin in Hk; lia).
  destruct (clear_remote_entry s n k Hs Hn Hk) as (C1 & C2 & C3). specialize (C2 He).
  set (s1 := s <| ioredtbl := _ |>) in *. change (irr s1) with (irr s).
  fold (masked (entry s k)). fold (requests s k). fold (remote_irr (entry s k)).
  destruct (remote_idem e A5) as [R1 R2]. destruct (remote_frame e) as (_ & F2 & F3 & F4 & F5 & _ & F7 & F8).
  destruct (remote_irr (entry s k) && (entry s k .& 0xff =? v)) eqn:Ek.
  - destruct (negb (masked (entry s k)) && requests s k) eqn:Er.
    + assert (Hg1 : io_good s1 b) by done. pose proof (service_good s1 b Hg1) as L.
      destruct (ioapic_service s1 b) as [s' b']. destruct L as (L1 & L2 & L3 & L4).
      assert (ready s1 n = true /\ level (entry s1 n) = true /\ entry s1 n .| IOAPIC_LVT_REMOTE_IRR = e) as (Q1 & Q2 & Q3).
      { unfold ready. change (requests s1 n) with (requests s n). rewrite A1, C3.
        destruct (Z.eqb_spec n k) as [->|]; rewrite A2, ?F4, ?F5, ?A3, ?A4; auto. }
      destruct (L3 n Hn Q1 Q2) as [N1 N2]. split; [done|]. split; [done|].
      split; [rewrite Q3 in N2; now repeat split|]. intros ->.
      rewrite Z.eqb_refl, A2 in C3. rewrite <- Hv, <- F3, <- C3.
      apply (L4 n i a); rewrite ?C3, ?F2, ?F7, ?F8; auto.
    + split; [done|]. split; [now apply Apic.bus_raises_refl|]. destruct (Z.eqb_spec n k) as [<-|Hne].
      * exfalso. now rewrite A2, A3, A1 in Er.
      * split; [|done]. repeat split; try done. now rewrite C3.
  - split; [done|]. split; [now apply Apic.bus_raises_refl|]. split; [done|]. intros ->. exfalso.
    rewrite A2, A5, Hv, Z.eqb_refl in Ek. done.
Qed.

Lemma eoi_loop_armed v ks s (b : machine) n e i a : io_good s b -> Forall is_pin ks -> is_pin n -> armed s n e ->
  e .& 0xff = v -> (e >> 8) .& 7 = 0 -> Apic.local_apics b !! i = Some a ->
  Apic.selects (e >> 56) (b2z (Z.testbit e 11)) a = true ->
  let '(s', b') := foldl (ioapic_eoi_pin v) (s, b) ks in
  armed s' n e /\ exists a', Apic.local_apics b' !! i = Some a' /\ Apic.raises a a'
    /\ (n ∈ ks -> Apic.vec (Apic.irr a') v = true).
Proof.
  revert s b a. induction ks as [|k ks IH]; intros s b a Hg Hks Hn Har Hv Hm Ha Hsel; cbn [foldl].
  { split; [done|]. exists a. split; [done|]. split; [|intros Hx; now apply elem_of_nil in Hx].
    apply Apic.raises_refl. apply (Forall_lookup_1 _ _ _ _ (Apic.bus_all b (good_bus _ _ Hg)) Ha). }
  apply Forall_cons_1 in Hks as [Hk Hks].
  pose proof (eoi_pin_armed v s b k n e i a Hg Hk Hn Har Hv Hm Ha Hsel) as L.
  destruct (ioapic_eoi_pin v (s, b) k) as [s1 b1]. destruct L as (L1 & L2 & L3 & L4).
  destruct (Apic.bus_raises_lookup _ _ _ _ L2 Ha) as (a1 & Ha1 & Hr1).
  specialize (IH s1 b1 a1 L1 Hks Hn L3 Hv Hm Ha1). rewrite (Apic.raises_selects _ _ _ _ Hr1) in IH.
  specialize (IH Hsel). destruct (foldl _ _ ks) as [s' b']. destruct IH as (IH1 & a' & Ha' & Hr' & IH3).
  split; [done|]. exists a'. split; [done|]. split; [eauto using Apic.raises_trans|].
  intros [->|Hin]%elem_of_cons; [|auto]. destruct (L4 eq_refl) as (a2 & Ha2 & Hv2).
  rewrite Ha1 in Ha2. injection Ha2 as <-. apply (Apic.raises_irr _ _ Hr'); [|done].
  rewrite <- Hv. apply land_ff_range.
Qed.

(** The broadcast when no line is up: nothing is sent. *)
Lemma eoi_loop_quiet v ks s (b : machine) n : ioapic_ok s -> Forall is_pin ks -> is_pin n ->
  (forall j, is_pin j -> requests s j = false) -> entry s n .& 0xff = v ->
  let '(s', b') := foldl (ioapic_eoi_pin v) (s, b) ks in
  b' = b /\ (n ∈ ks \/ remote_irr (entry s n) = false -> remote_irr (entry s' n) = false).
Proof.
  revert s. induction ks as [|k ks IH]; intros s Hs Hks Hn Hq Hv; cbn [foldl].
  { split; [done|]. intros [Hx|]; [now apply elem_of_nil in Hx|done]. }
  apply Forall_cons_1 in Hks as [Hk Hks]. unfold ioapic_eoi_pin at 2, IOAPIC_LVT_REMOTE_IRR at 1,
    IOAPIC_LVT_MASKED, IOAPIC_VECTOR_MASK. fold (entry s k). rewrite !tst_bit by (unfold is_pin in Hk; lia).
  destruct (clear_remote_entry s n k Hs Hn Hk) as (C1 & _ & C3).
  set (s1 := s <| ioredtbl := _ |>) in *. change (irr s1) with (irr s).
  fold (requests s k). rewrite (Hq k Hk), andb_false_r. fold (remote_irr (entry s k)).
  destruct (remote_irr (entry s k) && (entry s k .& 0xff =? v)) eqn:Ek.
  - destruct (remote_frame (entry s k)) as (_ & _ & F3 & _ & _ & F6 & _).
    assert (entry s1 n .& 0xff = v) as Hv1 by (rewrite C3; destruct (Z.eqb_spec n k) as [->|]; congruence).
    specialize (IH s1 C1 Hks Hn Hq Hv1). destruct (foldl _ _ ks) as [s' b']. destruct IH as [-> IH].
    split; [done|]. intros Hor. apply IH. rewrite C3. destruct (Z.eqb_spec n k) as [->|Hne]; [auto|].
    destruct Hor as [[->|?]%elem_of_cons|?]; [done|auto|auto].
  - specialize (IH s Hs Hks Hn Hq Hv). destruct (foldl _ _ ks) as [s' b']. destruct IH as [-> IH].
    split; [done|]. intros [[->|?]%elem_of_cons|?]; [|auto|auto]. apply IH. right.
    rewrite Hv, Z.eqb_refl, andb_true_r in Ek. done.
Qed.

(** The local APIC and the machine with [v] taken out of service, which is
    what the broadcast starts from. *)
Definition done_apic (v : Z) (a : Apic.APICState) : Apic.APICState :=
  a <| Apic.isr := Apic.reset_bit (Apic.isr a) v |>.
Definition done_machine (i v : Z) (a : Apic.APICState) (b : machine) : machine :=
  b <| Apic.local_apics := <[Z.to_nat i := done_apic v a]> (Apic.local_apics b) |>.

Lemma done_good i v a (b : machine) : io_good (the_ioapic b) b -> Apic.local_apics b !! Z.to_nat i = Some a ->
  0 <= v < 256 -> io_good (the_ioapic b) (done_machine i v a b)
  /\ Apic.local_apics (done_machine i v a b) !! Z.to_nat i = Some (done_apic v a)
  /\ Apic.vec (Apic.isr (done_apic v a)) v = false.
Proof.
  intros [G1 G2 [B1 B2 B3]] Ha Hv. pose proof (Forall_lookup_1 _ _ _ _ B3 Ha) as Hok.
  unfold done_machine. split; [split; [done|done|]|split].
  - constructor; cbn [over Apic.local_apics].
    + now rewrite length_insert.
    + replace (map Apic.id (<[Z.to_nat i := done_apic v a]> (Apic.local_apics b)))
        with (map Apic.id (Apic.local_apics b)); [done|].
      change (map Apic.id) with (fmap (M := list) Apic.id). rewrite list_fmap_insert. symmetry.
      apply list_insert_id. rewrite list_lookup_fmap, Ha. done.
    + apply Forall_insert; [done|]. destruct Hok. unfold done_apic.
      constructor; cbn [over Apic.isr Apic.irr Apic.tmr Apic.tpr]; try done. now apply Apic.set_bit_ok.
  - apply list_lookup_insert_eq. now apply lookup_lt_Some in Ha.
  - unfold done_apic. cbn [over Apic.isr]. rewrite Apic.vec_reset by (apply Hok || lia).
    now rewrite Z.eqb_refl.
Qed.

(** [apic_eoi] of a level interrupt in terms of the broadcast. *)
Lemma eoi_run i v a (b : machine) s' b2 a' : Apic.local_apics b !! Z.to_nat i = Some a -> Apic.apic_ok a ->
  0 <= v < 256 -> Apic.is_highest (Apic.isr a) 256 v -> Apic.vec (Apic.tmr a) v = true ->
  tst (Apic.spurious_vec a) Apic.APIC_SV_DIRECTED_IO = false ->
  ioapic_eoi_broadcast v (the_ioapic b) (done_machine i v a b) = (s', b2) ->
  Apic.local_apics b2 !! Z.to_nat i = Some a' ->
  let b' := Apic.apic_eoi cpu_intr machine_eoi_broadcast i b in
  Apic.local_apics b' !! Z.to_nat i = Some a' /\ the_ioapic b' = s'.
Proof.
  intros Ha Hok Hv Hh Ht Hd E Ha' b'.
  assert (Eb : b' = Apic.at_apic i (fun s g => (s, Apic.apic_update_irq cpu_intr s g))
    (machine_eoi_broadcast v (done_machine i v a b))).
  { unfold b', Apic.apic_eoi. rewrite Ha.
    rewrite (Apic.is_highest_unique _ _ _ (Apic.highest_spec _ (Apic.ok_isr _ Hok)) Hh).
    destruct (Z.ltb_spec v 0); [lia|]. fold (done_apic v a). fold (done_machine i v a b).
    change (Apic.spurious_vec (done_apic v a)) with (Apic.spurious_vec a).
    change (Apic.tmr (done_apic v a)) with (Apic.tmr a).
    rewrite Hd, Apic.get_bit_vec, Ht by lia. done. }
  rewrite Eb. unfold machine_eoi_broadcast. change (the_ioapic (done_machine i v a b)) with (the_ioapic b).
  rewrite E. unfold Apic.at_apic. cbn [put_ioapic Apic.local_apics]. rewrite Ha'. cbn [Apic.local_apics].
  rewrite list_lookup_insert_eq by now apply lookup_lt_Some in Ha'. split; [done|].
  unfold the_ioapic, Apic.apic_update_irq. cbn [Apic.globals]. split_ifs; done.
Qed.

(** C12: The level-triggered protocol, from the EOI of the processor [i]
    through the broadcast to the I/O APIC and back. The vector leaves the
    in-service register. If the pin's line is still up, the interrupt is sent
    again: it is requested once more at the local APIC and the pin waits for the
    next EOI. If no line is up, the pin's remote IRR is cleared and nothing is
    requested. *)
Theorem level_interrupt_protocol (i : Z) (b : machine) a n v :
  let s := the_ioapic b in let e := entry s n in
  let b' := Apic.apic_eoi cpu_intr machine_eoi_broadcast i b in
  io_good s b -> Apic.local_apics b !! Z.to_nat i = Some a ->
  0 <= v -> Apic.is_highest (Apic.isr a) 256 v -> Apic.vec (Apic.tmr a) v = true ->
  tst (Apic.spurious_vec a) Apic.APIC_SV_DIRECTED_IO = false ->
  is_pin n -> masked e = false -> level e = true -> remote_irr e = true ->
  e .& 0xff = v -> (e >> 8) .& 7 = 0 -> Apic.selects (e >> 56) (b2z (Z.testbit e 11)) a = true ->
  exists a', Apic.local_apics b' !! Z.to_nat i = Some a' /\ Apic.vec (Apic.isr a') v = false
    /\ (requests s n = true ->
          Apic.vec (Apic.irr a') v = true /\ armed (the_ioapic b') n e)
    /\ ((forall j, is_pin j -> requests s j = false) ->
          Apic.irr a' = Apic.irr a /\ remote_irr (entry (the_ioapic b') n) = false).
Proof.
  intros s e b' Hg Ha Hv0 Hh Ht Hd Hn Hm Hl Hr Hv Hdm Hsel.
  assert (Hok : Apic.apic_ok a) by apply (Forall_lookup_1 _ _ _ _ (Apic.bus_all b (good_bus _ _ Hg)) Ha).
  assert (Hv256 : 0 <= v < 256) by (rewrite <- Hv; apply land_ff_range).
  destruct (done_good i v a b Hg Ha Hv256) as (Hg1 & Ha1 & Hisr).
  pose proof (fun s' b2 a' => eoi_run i v a b s' b2 a' Ha Hok Hv256 Hh Ht Hd) as Hrun.
  pose proof (eoi_broadcast_good v s _ Hg1) as Hgood. destruct pins_in as [Hp _].
  assert (Hin : n ∈ seqZ 0 IOAPIC_NUM_PINS) by (apply elem_of_seqZ; unfold is_pin, IOAPIC_NUM_PINS in *; lia).
  pose proof (eoi_loop_armed v _ s _ n e (Z.to_nat i) (done_apic v a) Hg1 Hp Hn) as Larm.
  pose proof (eoi_loop_quiet v _ s (done_machine i v a b) n (good_io _ _ Hg) Hp Hn) as Lquiet.
  fold s in Hrun. unfold ioapic_eoi_broadcast in *. destruct (foldl _ _ _) as [s' b2].
  destruct Hgood as [_ Hrs]. destruct (Apic.bus_raises_lookup _ _ _ _ Hrs Ha1) as (a' & Ha' & Hra).
  destruct (Hrun s' b2 a' eq_refl Ha') as [Hf1 Hf2]. exists a'. split; [done|].
  rewrite (Apic.raises_isr _ _ Hra). split; [done|]. unfold b'. rewrite Hf2. split.
  - intros Hq. destruct Larm as (L1 & a2 & Ha2 & _ & L3); [now repeat split|done|done|done|done|].
    rewrite Ha' in Ha2. injection Ha2 as <-. auto.
  - intros Hq. destruct Lquiet as [-> L2]; [done|done|]. rewrite Ha1 in Ha'. injection Ha' as <-. auto.
Qed.
End WithApic.

(** One processor serving vector 0x31 of pin 3, whose line is still up. *)
Definition level_demo_apic : Apic.APICState :=
  Apic.apic_zero <| Apic.isr := Apic.set_bit (replicate 8 0) 0x31 |>
    <| Apic.tmr := Apic.set_bit (replicate 8 0) 0x31 |>.
Definition level_demo_io : IOAPICState :=
  mkIOAPIC 0 0 0x8 (<[3%nat := 0xc031]> (replicate 24 0x10000)).
Definition level_demo : Apic.bus (IOAPICState * unit) :=
  Apic.mkBus [level_demo_apic] (0, (level_demo_io, tt)).

Lemma level_demo_good : io_good level_demo_io level_demo.
Proof.
  split.
  - constructor; try (split; done). repeat constructor; done.
  - intros i Hi. unfold is_pin in Hi.
    assert (all_below 24 (fun i => negb ((entry level_demo_io i >> 8) .& 7 =? 7)) = true) as H by reflexivity.
    pose proof (all_below_spec 24 _ H i ltac:(lia)) as Hi'. cbv beta in Hi'. intros E. now rewrite E in Hi'.
  - constructor; [cbn; lia|apply (bool_decide_unpack _); vm_compute; exact I|].
    repeat constructor; try (apply Apic.tab_ok_bool; vm_compute; reflexivity); try done.
Qed.

Lemma level_interrupt_protocol_witness :
  let b' := Apic.apic_eoi (cpu_intr (fun _ _ w => w))
    (machine_eoi_broadcast (fun _ _ w => w) (fun b => (0, b))) 0 level_demo in
  exists a', Apic.local_apics b' !! 0%nat = Some a' /\ Apic.vec (Apic.irr a') 0x31 = true
    /\ Apic.vec (Apic.isr a') 0x31 = false.
Proof.
  destruct (level_interrupt_protocol (fun _ _ w => w) (fun b => (0, b)) 0 level_demo level_demo_apic 3 0x31)
    as (a' & Ha & Hi & Hr & _).
  - exact level_demo_good.
  - reflexivity.
  - discriminate.
  - replace 0x31 with (Apic.get_highest_priority_int (Apic.isr level_demo_apic)) by (vm_compute; reflexivity).
    apply Apic.highest_spec, Apic.tab_ok_bool. vm_compute. reflexivity.
  - vm_compute. reflexivity.
  - vm_compute. reflexivity.
  - unfold is_pin. lia.
  - vm_compute. reflexivity.
  - vm_compute. reflexivity.
  - vm_compute. reflexivity.
  - vm_compute. reflexivity.
  - vm_compute. reflexivity.
  - vm_compute. reflexivity.
  - destruct Hr as [Hr _]; [vm_compute; reflexivity|]. exists a'. auto.
Defined.

End IoApic.
