(* ===== verification/IoPort.v ===== *)
(** * The I/O port space: ioport.c, ioport.h

    The tables of handlers that turn the guest's IN and OUT instructions into
    calls of the devices.  [W] is the state of all devices, which a handler
    reads and changes; [O] is the type of the [opaque] pointers, [None] being
    NULL, and [deref] follows one that points to an [IORange].  An empty slot of
    a table is a key that is absent from its map.  The arrays have
    [MAX_IOPORTS] slots: addresses are below that bound, as those the CPU emits
    are. *)

From S2P Require Import Prelude.

Module IoPort.

Definition MAX_IOPORTS : Z := 64 * 1024.
Definition IOPORTS_MASK : Z := MAX_IOPORTS - 1.

Section Ports.
Context {W O : Type} `{EqDecision O}.

Definition IOPortReadFunc : Type := option O -> Z -> W -> Z * W.
Definition IOPortWriteFunc : Type := option O -> Z -> Z -> W -> W.

(** iorange.h: a range of ports with its operations (offset, width). *)
Record IORange := mkRange {
  base : Z;
  len : Z;
  ops_read : Z -> Z -> W -> Z * W;
  ops_write : Z -> Z -> Z -> W -> W
}.

Context (deref : O -> IORange).

(** The tables are indexed by [bsize] (0, 1, 2) and port. *)
Record ports := mkPorts {
  ioport_opaque : gmap Z O;
  ioport_read_table : gmap (Z * Z) IOPortReadFunc;
  ioport_write_table : gmap (Z * Z) IOPortWriteFunc
}.

#[local] Instance ports_eta : Eta ports := fun t =>
  mkPorts (ioport_opaque t) (ioport_read_table t) (ioport_write_table t).

Definition default_ioport_readb : IOPortReadFunc := fun _ _ w => (0xff, w).
Definition default_ioport_writeb : IOPortWriteFunc := fun _ _ _ w => w.
Definition default_ioport_readl : IOPortReadFunc := fun _ _ w => (0xffffffff, w).
Definition default_ioport_writel : IOPortWriteFunc := fun _ _ _ w => w.

(** The bodies of [ioport_read] and [ioport_write], given the default. *)
Definition read_or (default : IOPortReadFunc) (index address : Z) (t : ports) (w : W) : Z * W :=
  let func := match ioport_read_table t !! (index, address) with Some f => f | None => default end in
  func (ioport_opaque t !! address) address w.

Definition write_or (default : IOPortWriteFunc) (index address data : Z) (t : ports) (w : W) : W :=
  let func := match ioport_write_table t !! (index, address) with Some f => f | None => default end in
  func (ioport_opaque t !! address) address data w.

(** default is to make two byte accesses *)
Definition default_ioport_readw (t : ports) : IOPortReadFunc := fun _ address w =>
  let '(data, w) := read_or default_ioport_readb 0 address t w in
  let address := (address + 1) .& IOPORTS_MASK in
  let '(d, w) := read_or default_ioport_readb 0 address t w in
  (data .| u32 (d << 8), w).

Definition default_ioport_writew (t : ports) : IOPortWriteFunc := fun _ address data w =>
  let w := write_or default_ioport_writeb 0 address (data .& 0xff) t w in
  let address := (address + 1) .& IOPORTS_MASK in
  write_or default_ioport_writeb 0 address ((data >> 8) .& 0xff) t w.

Definition ioport_read (index address : Z) (t : ports) (w : W) : Z * W :=
  read_or (if index =? 0 then default_ioport_readb
           else if index =? 1 then default_ioport_readw t else default_ioport_readl) index address t w.

Definition ioport_write (index address data : Z) (t : ports) (w : W) : W :=
  write_or (if index =? 0 then default_ioport_writeb
            else if index =? 1 then default_ioport_writew t else default_ioport_writel)
    index address data t w.

Definition ioport_bsize (size : Z) : option Z :=
  if size =? 1 then Some 0 else if size =? 2 then Some 1 else if size =? 4 then Some 2 else None.

(** [ioport_opaque[i] != NULL && ioport_opaque[i] != opaque] *)
Definition invalid_opaque (i : Z) (opaque : option O) (t : ports) : bool :=
  match ioport_opaque t !! i with
  | Some o => bool_decide (Some o <> opaque)
  | None => false
  end.

Definition set_opaque (i : Z) (opaque : option O) (t : ports) : ports :=
  t <| ioport_opaque := match opaque with Some o => <[i := o]> (ioport_opaque t)
                                        | None => delete i (ioport_opaque t) end |>.

Definition register_read_at (bsize : Z) (func : IOPortReadFunc) (opaque : option O)
    (r : outcome ports) (i : Z) : outcome ports :=
  match r with
  | HwError => HwError
  | Done t =>
      let t := t <| ioport_read_table := <[(bsize, i) := func]> (ioport_read_table t) |> in
      if invalid_opaque i opaque t then HwError else Done (set_opaque i opaque t)
  end.

Definition register_ioport_read (start length size : Z) (func : IOPortReadFunc) (opaque : option O)
    (t : ports) : outcome ports :=
  match ioport_bsize size with
  | None => HwError
  | Some bsize => foldl (register_read_at bsize func opaque) (Done t) (seqZ start length)
  end.

Definition register_write_at (bsize : Z) (func : IOPortWriteFunc) (opaque : option O)
    (r : outcome ports) (i : Z) : outcome ports :=
  match r with
  | HwError => HwError
  | Done t =>
      let t := t <| ioport_write_table := <[(bsize, i) := func]> (ioport_write_table t) |> in
      if invalid_opaque i opaque t then HwError else Done (set_opaque i opaque t)
  end.

Definition register_ioport_write (start length size : Z) (func : IOPortWriteFunc) (opaque : option O)
    (t : ports) : outcome ports :=
  match ioport_bsize size with
  | None => HwError
  | Some bsize => foldl (register_write_at bsize func opaque) (Done t) (seqZ start length)
  end.

(** The thunks dereference [opaque], which is not NULL: [ioport_register]
    installs them with it. *)
Definition ioport_read_thunk (width : Z) : IOPortReadFunc := fun opaque addr w =>
  match opaque with
  | Some o => let ioport := deref o in
              let '(data, w) := ops_read ioport (u64 (addr - base ioport)) width w in (u32 data, w)
  | None => (0, w)
  end.
Definition ioport_readb_thunk : IOPortReadFunc := ioport_read_thunk 1.
Definition ioport_readw_thunk : IOPortReadFunc := ioport_read_thunk 2.
Definition ioport_readl_thunk : IOPortReadFunc := ioport_read_thunk 4.

Definition ioport_write_thunk (width : Z) : IOPortWriteFunc := fun opaque addr data w =>
  match opaque with
  | Some o => let ioport := deref o in ops_write ioport (u64 (addr - base ioport)) width data w
  | None => w
  end.
Definition ioport_writeb_thunk : IOPortWriteFunc := ioport_write_thunk 1.
Definition ioport_writew_thunk : IOPortWriteFunc := ioport_write_thunk 2.
Definition ioport_writel_thunk : IOPortWriteFunc := ioport_write_thunk 4.

Definition and_then (r : outcome ports) (f : ports -> outcome ports) : outcome ports :=
  match r with Done t => f t | HwError => HwError end.

Definition ioport_register (ioport : O) (t : ports) : outcome ports :=
  let b := base (deref ioport) in
  let l := len (deref ioport) in
  let r := register_ioport_read b l 1 ioport_readb_thunk (Some ioport) t in
  let r := and_then r (register_ioport_read b l 2 ioport_readw_thunk (Some ioport)) in
  let r := and_then r (register_ioport_read b l 4 ioport_readl_thunk (Some ioport)) in
  let r := and_then r (register_ioport_write b l 1 ioport_writeb_thunk (Some ioport)) in
  let r := and_then r (register_ioport_write b l 2 ioport_writew_thunk (Some ioport)) in
  and_then r (register_ioport_write b l 4 ioport_writel_thunk (Some ioport)).

Definition unassign_at (t : ports) (i : Z) : ports :=
  mkPorts (delete i (ioport_opaque t))
    (delete (2, i) (delete (1, i) (delete (0, i) (ioport_read_table t))))
    (delete (2, i) (delete (1, i) (delete (0, i) (ioport_write_table t)))).

Definition isa_unassign_ioport (start length : Z) (t : ports) : ports :=
  foldl unassign_at t (seqZ start length).

Definition isa_is_ioport_assigned (start : Z) (t : ports) : bool :=
  let r b := bool_decide (is_Some (ioport_read_table t !! (b, start))) in
  let w b := bool_decide (is_Some (ioport_write_table t !! (b, start))) in
  r 0 || w 0 || r 1 || w 1 || r 2 || w 2.

Definition cpu_outb (addr val : Z) (t : ports) (w : W) : W := ioport_write 0 addr (u8 val) t w.
Definition cpu_outw (addr val : Z) (t : ports) (w : W) : W := ioport_write 1 addr (u16 val) t w.
Definition cpu_outl (addr val : Z) (t : ports) (w : W) : W := ioport_write 2 addr (u32 val) t w.

Definition cpu_inb (addr : Z) (t : ports) (w : W) : Z * W :=
  let '(val, w) := ioport_read 0 addr t w in (u8 val, w).
Definition cpu_inw (addr : Z) (t : ports) (w : W) : Z * W :=
  let '(val, w) := ioport_read 1 addr t w in (u16 val, w).
Definition cpu_inl (addr : Z) (t : ports) (w : W) : Z * W :=
  let '(val, w) := ioport_read 2 addr t w in (u32 val, w).
End Ports.

Arguments IOPortReadFunc W O : clear implicits.
Arguments IOPortWriteFunc W O : clear implicits.
Arguments IORange W : clear implicits.
Arguments ports W O : clear implicits.
#[export] Existing Instance ports_eta.

(** ** Registration *)

Section Register.
Context {W O : Type} `{EqDecision O}.
Implicit Types t : ports W O.

Lemma lookup_foldl_insert {K A : Type} `{Countable K} (k : Z -> K) (v : A) ks (m : gmap K A) j :
  foldl (fun m i => <[k i := v]> m) m ks !! j =
  if existsb (fun i => bool_decide (k i = j)) ks then Some v else m !! j.
Proof.
  revert m. induction ks as [|i ks IH]; intros m; [done|]. cbn [foldl existsb]. rewrite IH.
  destruct (existsb _ ks); [now rewrite orb_true_r|]. rewrite orb_false_r.
  case_bool_decide as E; [subst; apply lookup_insert_eq|now apply lookup_insert_ne].
Qed.

Definition in_range (b l p : Z) : bool := (b <=? p) && (p <? b + l).

Lemma existsb_seqZ b l p : existsb (fun i => bool_decide (i = p)) (seqZ b l) = in_range b l p.
Proof.
  apply eq_true_iff_eq. rewrite existsb_exists. unfold in_range.
  rewrite andb_true_iff, Z.leb_le, Z.ltb_lt. split.
  - intros (i & Hi%list_elem_of_In%elem_of_seqZ & E%bool_decide_eq_true). lia.
  - intros Hp. exists p. split; [apply list_elem_of_In, elem_of_seqZ; lia|now apply bool_decide_eq_true].
Qed.

Lemma existsb_pair c c' p ks :
  existsb (fun i : Z => bool_decide ((c, i) = (c', p))) ks = (c =? c') && existsb (fun i => bool_decide (i = p)) ks.
Proof.
  destruct (Z.eqb_spec c c') as [<-|Hne]; cbn [andb].
  - induction ks as [|i ks IH]; [done|]. cbn [existsb]. rewrite IH. f_equal. apply bool_decide_ext. split; congruence.
  - induction ks as [|i ks IH]; [done|]. cbn [existsb]. rewrite IH, orb_false_r. apply bool_decide_eq_false_2. congruence.
Qed.

(** A port that another owner holds. *)
Definition taken (b l : Z) (o : O) t : bool :=
  existsb (fun i => invalid_opaque i (Some o) t) (seqZ b l).

Definition claim (o : O) (ks : list Z) (m : gmap Z O) : gmap Z O := foldl (fun m i => <[i := o]> m) m ks.

Lemma invalid_set_other i j o t : i <> j -> invalid_opaque i (Some o) (set_opaque j (Some o) t) = invalid_opaque i (Some o) t.
Proof. intros. unfold invalid_opaque, set_opaque. cbn. now rewrite lookup_insert_ne. Qed.

Lemma existsb_ext_in (f g : Z -> bool) ks : (forall i, i ∈ ks -> f i = g i) -> existsb f ks = existsb g ks.
Proof.
  induction ks as [|i ks IH]; intros Hfg; [done|]. cbn [existsb].
  rewrite (Hfg i) by (apply elem_of_cons; auto). rewrite IH; [done|]. intros j Hj. apply Hfg, elem_of_cons. auto.
Qed.

(** The registration loops: either every port could be claimed, or the emulator stops. *)
Lemma register_read_loop c f o ks t : NoDup ks ->
  foldl (register_read_at c f (Some o)) (Done t) ks =
  if existsb (fun i => invalid_opaque i (Some o) t) ks then HwError
  else Done (mkPorts (claim o ks (ioport_opaque t))
    (foldl (fun m i => <[(c, i) := f]> m) (ioport_read_table t) ks) (ioport_write_table t)).
Proof.
  revert t. induction ks as [|k ks IH]; intros t Hnd; [now destruct t|]. cbn [foldl existsb].
  pose proof (NoDup_cons_1_1 _ _ Hnd) as Hni; apply NoDup_cons_1_2 in Hnd.
  change (register_read_at c f (Some o) (Done t) k) with (if invalid_opaque k (Some o) t then HwError
    else Done (set_opaque k (Some o) (t <| ioport_read_table := <[(c, k) := f]> (ioport_read_table t) |>))).
  destruct (invalid_opaque k (Some o) t); cbn [orb].
  { clear. induction ks as [|? ? IH]; [done|exact IH]. }
  rewrite IH by done. erewrite (existsb_ext_in _ (fun i => invalid_opaque i (Some o) t)); [done|].
  intros i Hi. rewrite invalid_set_other by congruence. done.
Qed.

Lemma register_write_loop c f o ks t : NoDup ks ->
  foldl (register_write_at c f (Some o)) (Done t) ks =
  if existsb (fun i => invalid_opaque i (Some o) t) ks then HwError
  else Done (mkPorts (claim o ks (ioport_opaque t)) (ioport_read_table t)
    (foldl (fun m i => <[(c, i) := f]> m) (ioport_write_table t) ks)).
Proof.
  revert t. induction ks as [|k ks IH]; intros t Hnd; [now destruct t|]. cbn [foldl existsb].
  pose proof (NoDup_cons_1_1 _ _ Hnd) as Hni; apply NoDup_cons_1_2 in Hnd.
  change (register_write_at c f (Some o) (Done t) k) with (if invalid_opaque k (Some o) t then HwError
    else Done (set_opaque k (Some o) (t <| ioport_write_table := <[(c, k) := f]> (ioport_write_table t) |>))).
  destruct (invalid_opaque k (Some o) t); cbn [orb].
  { clear. induction ks as [|? ? IH]; [done|exact IH]. }
  rewrite IH by done. erewrite (existsb_ext_in _ (fun i => invalid_opaque i (Some o) t)); [done|].
  intros i Hi. rewrite invalid_set_other by congruence. done.
Qed.

Lemma claim_lookup o b l (m : gmap Z O) p :
  claim o (seqZ b l) m !! p = if in_range b l p then Some o else m !! p.
Proof. unfold claim. rewrite (lookup_foldl_insert (fun i => i)). now rewrite existsb_seqZ. Qed.

Lemma fill_lookup {A} (c : Z) (f : A) (b l : Z) (m : gmap (Z * Z) A) (c' p : Z) :
  foldl (fun m i => <[(c, i) := f]> m) m (seqZ b l) !! (c', p) =
  if (c =? c') && in_range b l p then Some f else m !! (c', p).
Proof. rewrite (lookup_foldl_insert (fun i => (c, i))). now rewrite existsb_pair, existsb_seqZ. Qed.

Lemma taken_claimed b l o (m : gmap Z O) r w : taken b l o (mkPorts (W := W) (claim o (seqZ b l) m) r w) = false.
Proof.
  unfold taken. apply not_true_iff_false. rewrite existsb_exists. intros (i & Hi & Hx).
  apply list_elem_of_In, elem_of_seqZ in Hi. unfold invalid_opaque in Hx. cbn [ioport_opaque] in Hx.
  rewrite claim_lookup in Hx. unfold in_range in Hx.
  destruct (Z.leb_spec b i), (Z.ltb_spec i (b + l)); try lia. cbn [andb] in Hx.
  now apply bool_decide_eq_true in Hx.
Qed.

Lemma taken_spec b l o t : taken b l o t = true <->
  exists p o', b <= p < b + l /\ ioport_opaque t !! p = Some o' /\ o' <> o.
Proof.
  unfold taken. rewrite existsb_exists. unfold invalid_opaque. split.
  - intros (p & Hp%list_elem_of_In%elem_of_seqZ & Hx). destruct (ioport_opaque t !! p) as [o'|] eqn:E; [|done].
    apply bool_decide_eq_true in Hx. exists p, o'. split; [lia|]. split; [done|congruence].
  - intros (p & o' & Hp & E & Hne). exists p. split; [apply list_elem_of_In, elem_of_seqZ; lia|].
    rewrite E. apply bool_decide_eq_true. congruence.
Qed.

Context (deref : O -> IORange W).

(** The tables after [ioport_register]. *)
Lemma ioport_register_spec o t :
  let b := base (deref o) in let l := len (deref o) in
  if taken b l o t then ioport_register deref o t = HwError
  else exists t', ioport_register deref o t = Done t'
    /\ forall p,
      ioport_opaque t' !! p = (if in_range b l p then Some o else ioport_opaque t !! p)
      /\ (forall c, 0 <= c <= 2 -> ioport_read_table t' !! (c, p) =
            if in_range b l p then Some (ioport_read_thunk deref (2 ^ c)) else ioport_read_table t !! (c, p))
      /\ (forall c, 0 <= c <= 2 -> ioport_write_table t' !! (c, p) =
            if in_range b l p then Some (ioport_write_thunk deref (2 ^ c)) else ioport_write_table t !! (c, p)).
Proof.
  intros b l. unfold ioport_register. fold b l.
  assert (Hr : forall size c f t, ioport_bsize size = Some c -> register_ioport_read b l size f (Some o) t =
    if taken b l o t then HwError else Done (mkPorts (claim o (seqZ b l) (ioport_opaque t))
      (foldl (fun m i => <[(c, i) := f]> m) (ioport_read_table t) (seqZ b l)) (ioport_write_table t))).
  { intros size c f t0 E. unfold register_ioport_read. rewrite E. apply register_read_loop, NoDup_seqZ. }
  assert (Hw : forall size c f t, ioport_bsize size = Some c -> register_ioport_write b l size f (Some o) t =
    if taken b l o t then HwError else Done (mkPorts (claim o (seqZ b l) (ioport_opaque t)) (ioport_read_table t)
      (foldl (fun m i => <[(c, i) := f]> m) (ioport_write_table t) (seqZ b l)))).
  { intros size c f t0 E. unfold register_ioport_write. rewrite E. apply register_write_loop, NoDup_seqZ. }
  rewrite (Hr 1 0) by done. destruct (taken b l o t); [done|].
  do 2 (cbn [and_then]; erewrite Hr by reflexivity; rewrite taken_claimed).
  do 3 (cbn [and_then]; erewrite Hw by reflexivity; rewrite taken_claimed).
  cbn [ioport_opaque ioport_read_table ioport_write_table]. eexists. split; [reflexivity|].
  intros p. cbn [ioport_opaque ioport_read_table ioport_write_table]. split.
  { rewrite !claim_lookup. now destruct (in_range b l p). }
  split; intros c Hc; rewrite !fill_lookup;
    assert (c = 0 \/ c = 1 \/ c = 2) as [-> | [-> | ->]] by lia; now destruct (in_range b l p).
Qed.

(** Registering an [IORange]. The emulator stops exactly when some port of
    the range belongs to another owner. Otherwise every access of 1, 2 or 4
    bytes to a port of the range calls the range's operation with the offset
    from its base and that width, once, and truncates what it reads; byte and
    long accesses to all other ports go where they went before. *)
Theorem ioport_register_correct o t :
  let r := deref o in
  0 <= base r -> 0 <= len r -> base r + len r <= MAX_IOPORTS ->
  (ioport_register deref o t = HwError <->
     exists p o', base r <= p < base r + len r /\ ioport_opaque t !! p = Some o' /\ o' <> o)
  /\ forall t', ioport_register deref o t = Done t' -> forall p w data,
     (base r <= p < base r + len r ->
        let rd n := ops_read r (p - base r) n w in
        cpu_inb p t' w = (u8 (rd 1).1, (rd 1).2)
        /\ cpu_inw p t' w = (u16 (rd 2).1, (rd 2).2)
        /\ cpu_inl p t' w = (u32 (rd 4).1, (rd 4).2)
        /\ cpu_outb p data t' w = ops_write r (p - base r) 1 (u8 data) w
        /\ cpu_outw p data t' w = ops_write r (p - base r) 2 (u16 data) w
        /\ cpu_outl p data t' w = ops_write r (p - base r) 4 (u32 data) w)
     /\ (~ base r <= p < base r + len r ->
        cpu_inb p t' w = cpu_inb p t w /\ cpu_inl p t' w = cpu_inl p t w
        /\ cpu_outb p data t' w = cpu_outb p data t w /\ cpu_outl p data t' w = cpu_outl p data t w).
Proof.
  intros r Hb Hl Hm. pose proof (ioport_register_spec o t) as S. cbv zeta in S. fold r in S.
  rewrite <- taken_spec. destruct (taken (base r) (len r) o t).
  { rewrite S. split; [done|]. discriminate. }
  destruct S as (t1 & E & S). rewrite E. split; [done|]. intros t' Ht p w data. injection Ht as <-. destruct (S p) as (S1 & S2 & S3).
  unfold cpu_inb, cpu_inw, cpu_inl, cpu_outb, cpu_outw, cpu_outl, ioport_read, ioport_write, read_or, write_or.
  rewrite !S1, !S2, !S3 by lia. unfold in_range. split; intros Hp.
  - destruct (Z.leb_spec (base r) p), (Z.ltb_spec p (base r + len r)); try lia. cbn [andb].
    unfold ioport_read_thunk, ioport_write_thunk. fold r.
    rewrite u64_id by (unfold in_u, MAX_IOPORTS in *; lia).
    change (2 ^ 0) with 1. change (2 ^ 1) with 2. change (2 ^ 2) with 4.
    destruct (ops_read r (p - base r) 1 w), (ops_read r (p - base r) 2 w), (ops_read r (p - base r) 4 w).
    cbn [fst snd]. unfold u8, u16, u32. repeat split; f_equal; Z.div_mod_to_equations; lia.
  - destruct (Z.leb_spec (base r) p), (Z.ltb_spec p (base r + len r)); try lia; done.
Qed.

(** *** Releasing ports *)

Lemma delete3_lookup {A} (i : Z) (m : gmap (Z * Z) A) c p : 0 <= c <= 2 ->
  delete (2, i) (delete (1, i) (delete (0, i) m)) !! (c, p) = if i =? p then None else m !! (c, p).
Proof.
  intros Hc. destruct (Z.eqb_spec i p) as [->|Hne].
  - assert (c = 0 \/ c = 1 \/ c = 2) as [-> | [-> | ->]] by lia;
      rewrite ?(lookup_delete_ne _ (2, p)), ?(lookup_delete_ne _ (1, p)), ?lookup_delete_eq by congruence; done.
  - rewrite !lookup_delete_ne by congruence. done.
Qed.

Lemma unassign_spec b l t p :
  let t' := isa_unassign_ioport b l t in
  ioport_opaque t' !! p = (if in_range b l p then None else ioport_opaque t !! p)
  /\ forall c, 0 <= c <= 2 ->
       ioport_read_table t' !! (c, p) = (if in_range b l p then None else ioport_read_table t !! (c, p))
       /\ ioport_write_table t' !! (c, p) = (if in_range b l p then None else ioport_write_table t !! (c, p)).
Proof.
  cbv zeta. unfold isa_unassign_ioport. rewrite <- (existsb_seqZ b l p). revert t.
  induction (seqZ b l) as [|k ks IH]; intros t; [done|]. cbn [foldl existsb].
  destruct (IH (unassign_at t k)) as [IH1 IH2]. rewrite IH1. cbn [unassign_at ioport_opaque].
  assert (bool_decide (k = p) = (k =? p)) as -> by (destruct (Z.eqb_spec k p); [now apply bool_decide_eq_true|now apply bool_decide_eq_false]).
  split.
  - destruct (existsb _ ks); [now rewrite orb_true_r|]. rewrite orb_false_r.
    destruct (Z.eqb_spec k p) as [->|]; [apply lookup_delete_eq|now apply lookup_delete_ne].
  - intros c Hc. destruct (IH2 c Hc) as [-> ->]. cbn [unassign_at ioport_read_table ioport_write_table].
    rewrite !delete3_lookup by done. destruct (existsb _ ks); [now rewrite orb_true_r|]. now rewrite orb_false_r.
Qed.

(** A released port is free: it reads as all ones, ignores writes and can be
    registered again by anyone. *)
Lemma unassigned_port b l t p : in_range b l p = true ->
  let t' := isa_unassign_ioport b l t in
  isa_is_ioport_assigned p t' = false /\ (forall o, invalid_opaque p (Some o) t' = false)
  /\ (forall w, cpu_inb p t' w = (0xff, w) /\ cpu_inl p t' w = (0xffffffff, w))
  /\ forall v w, cpu_outb p v t' w = w /\ cpu_outl p v t' w = w.
Proof.
  intros Hr t'. destruct (unassign_spec b l t p) as [S1 S2]. fold t' in S1, S2. rewrite Hr in S1, S2.
  destruct (S2 0) as [A0 B0]; [lia|]. destruct (S2 1) as [A1 B1]; [lia|]. destruct (S2 2) as [A2 B2]; [lia|].
  unfold isa_is_ioport_assigned, invalid_opaque, cpu_inb, cpu_inl, cpu_outb, cpu_outl, ioport_read, ioport_write,
    read_or, write_or. rewrite S1, A0, A1, A2, B0, B1, B2. done.
Qed.

(** *** Word accesses *)

(** Byte handlers return bytes. *)
Definition byte_read t (p : Z) : Prop := forall w, in_u 8 (ioport_read 0 p t w).1.

Lemma next_port p : (p + 1) .& IOPORTS_MASK = (p + 1) mod MAX_IOPORTS.
Proof. now apply (land_ones_mod _ 16). Qed.

(** A word access to a port without a word handler is two byte accesses,
    to the port and then to the next one (port 0 after the last), low byte
    first. *)
Theorem word_access_is_two_bytes t p w v :
  ioport_read_table t !! (1, p) = None -> ioport_write_table t !! (1, p) = None ->
  byte_read t p -> byte_read t ((p + 1) mod MAX_IOPORTS) ->
  let q := (p + 1) mod MAX_IOPORTS in
  cpu_inw p t w =
    (let '(lo, w1) := cpu_inb p t w in let '(hi, w2) := cpu_inb q t w1 in (lo + 256 * hi, w2))
  /\ cpu_outw p v t w = cpu_outb q (v / 256) t (cpu_outb p v t w).
Proof.
  intros Hr Hw Hp Hq q. unfold cpu_inw, cpu_outw, ioport_read, ioport_write.
  change (1 =? 0) with false. change (1 =? 1) with true. cbv iota. unfold read_or at 1, write_or at 1.
  rewrite Hr, Hw. unfold default_ioport_readw, default_ioport_writew. rewrite next_port. fold q. split.
  - unfold cpu_inb. change (ioport_read 0) with (@read_or W O default_ioport_readb 0) in *.
    specialize (Hp w). unfold ioport_read in Hp. cbn [Z.eqb] in Hp.
    destruct (read_or default_ioport_readb 0 p t w) as [lo w1]. specialize (Hq w1). fold q in Hq.
    unfold ioport_read in Hq. cbn [Z.eqb] in Hq. unfold ioport_read. cbn [Z.eqb].
    destruct (read_or default_ioport_readb 0 q t w1) as [hi w2]. cbn [fst] in *.
    destruct Hp as [Hp0 Hp1], Hq as [Hq0 Hq1]. change (2 ^ 8) with 256 in *.
    rewrite !u8_id by (split; lia).
    rewrite u32_id by (rewrite Z.shiftl_mul_pow2 by lia; unfold in_u; lia).
    rewrite lor_shift by (unfold in_u; lia). change (2 ^ 8) with 256.
    rewrite u16_id by (unfold in_u; lia). done.
  - unfold cpu_outb, ioport_write. cbn [Z.eqb]. rewrite !(land_ones_mod _ 8) by done.
    rewrite Z.shiftr_div_pow2 by lia. unfold u8, u16. change (2 ^ 8) with 256.
    replace (v mod 65536 mod 256) with (v mod 256) by (Z.div_mod_to_equations; lia).
    replace (v mod 65536 / 256 mod 256) with (v / 256 mod 256) by (Z.div_mod_to_equations; lia).
    done.
Qed.
End Register.

(** *** Concrete tables *)

(** Two one-register devices: the device state is the last offset, width and
    value seen. *)
Definition demo_range (b : Z) : IORange (list Z) :=
  mkRange b 4 (fun off width w => (0x1200 + off, off :: width :: w)) (fun off width data w => off :: width :: data :: w).
Definition demo_deref (o : Z) : IORange (list Z) := demo_range (0x10 * o).
Definition empty_ports : ports (list Z) Z := mkPorts ∅ ∅ ∅.
Definition demo_ports : ports (list Z) Z :=
  match ioport_register demo_deref 6 empty_ports with Done t => t | HwError => empty_ports end.

Definition is_done {A} (r : outcome A) : bool := match r with Done _ => true | HwError => false end.

Lemma demo_registered : ioport_register demo_deref 6 empty_ports = Done demo_ports.
Proof.
  assert (is_done (ioport_register demo_deref 6 empty_ports) = true) as H by (vm_compute; reflexivity).
  unfold demo_ports. now destruct (ioport_register demo_deref 6 empty_ports).
Qed.

Lemma ioport_register_correct_witness :
  ioport_register demo_deref 6 empty_ports <> HwError
  /\ cpu_inb 0x62 demo_ports [] = (0x02, [2; 1]) /\ cpu_outw 0x61 0x1ffff demo_ports [] = [1; 2; 0xffff]
  /\ ioport_register (fun _ => demo_range 0x62) 7 demo_ports = HwError.
Proof.
  destruct (ioport_register_correct demo_deref 6 empty_ports) as [H1 H2];
    [vm_compute; discriminate|vm_compute; discriminate|vm_compute; discriminate|].
  pose proof demo_registered as E. split; [intros E'; rewrite E' in E; discriminate E|].
  destruct (H2 _ E 0x62 [] 0) as [A _]. destruct A as (A & _); [cbn; lia|].
  destruct (H2 _ E 0x61 [] 0x1ffff) as [B _]. destruct B as (_ & _ & _ & _ & B & _); [cbn; lia|].
  split; [rewrite A; vm_compute; reflexivity|]. split; [rewrite B; vm_compute; reflexivity|].
  apply (ioport_register_correct (fun _ => demo_range 0x62) 7 demo_ports);
    [vm_compute; discriminate|vm_compute; discriminate|vm_compute; discriminate|].
  exists 0x62, 6. split; [cbn; lia|]. split; [vm_compute; reflexivity|discriminate].
Defined.

(** A device with byte handlers only, on all ports. *)
Definition byte_ports : ports (list Z) Z :=
  mkPorts ∅ (<[(0, 0xffff) := fun _ a w => (0x34, a :: w)]> (<[(0, 0) := fun _ a w => (0x12, a :: w)]> ∅)) ∅.

Lemma word_access_is_two_bytes_witness : cpu_inw 0xffff byte_ports [] = (0x1234, [0; 0xffff]).
Proof.
  destruct (word_access_is_two_bytes byte_ports 0xffff [] 0) as [H _].
  - vm_compute. reflexivity.
  - vm_compute. reflexivity.
  - intros w. vm_compute. split; [discriminate|reflexivity].
  - intros w. vm_compute. split; [discriminate|reflexivity].
  - rewrite H. vm_compute. reflexivity.
Defined.

End IoPort.
