(* ===== verification/Pc.v ===== *)
(** * Interrupt wiring of the PC: hw/pc.c

    [machine] is the interrupt path of the whole PC: the local APICs, the I/O
    APIC, the 8259 pair and the pending interrupts of the CPUs
    ([interrupt_request] of each, exec.c).  The chips are wired here the way
    hw/pc.c does it: an ISA line drives an input of the 8259 and a pin of the
    I/O APIC, the 8259 drives LINT0 of the local APICs, and the CPU fetches its
    vector with [cpu_get_pic_interrupt].  An operation of the 8259 runs on the
    machine that contains it: it takes the pair out and puts it back. *)

From S2P Require Import Prelude Irq I8259 HostUtils Rtc Ps2 PcKbd Apic IoApic.
Import Irq.

#[local] Existing Instances I8259.PicState_eta I8259.PicState2_eta Apic.APICState_eta Apic.bus_eta
  IoApic.IOAPICState_eta.

Module Pc.

(** exec.c, for the field the interrupt controllers use. *)
Definition cpu_interrupt (i mask : Z) (flags : list Z) : list Z :=
  aset flags i (aget flags i .| mask).
Definition cpu_reset_interrupt (i mask : Z) (flags : list Z) : list Z :=
  aset flags i (aget flags i .& ~~ mask).

(** The 8259 pair and the CPUs. *)
Abbreviation board := (I8259.PicState2 * list Z)%type.
Abbreviation machine := (Apic.bus (IoApic.IOAPICState * board)).

Definition board_intr (i mask : Z) (c : board) : board := (c.1, cpu_interrupt i mask c.2).
Definition intr (i mask : Z) (w : IoApic.IOAPICState * board) : IoApic.IOAPICState * board :=
  (w.1, board_intr i mask w.2).
Definition reset_intr (i mask : Z) (w : IoApic.IOAPICState * board) : IoApic.IOAPICState * board :=
  (w.1, (w.2.1, cpu_reset_interrupt i mask w.2.2)).

Definition the_pic (m : machine) : I8259.PicState2 := (Apic.globals m).2.2.1.
Definition the_flags (m : machine) : list Z := (Apic.globals m).2.2.2.
Definition put_pic (st : I8259.PicState2) (m : machine) : machine :=
  Apic.mkBus (Apic.local_apics m)
    ((Apic.globals m).1, ((Apic.globals m).2.1, (st, (Apic.globals m).2.2.2))).

(** The body of the loop over the CPUs. *)
Definition deliver_pic_intr (level : Z) (m : machine) (i : nat) : machine :=
  match Apic.local_apics m !! i with
  | Some a =>
      if truthy (Apic.apic_accept_pic_intr (Some a))
      then Apic.at_apic (Z.of_nat i) (Apic.apic_deliver_pic_intr intr reset_intr level) m
      else m
  | None => m
  end.

(** The output of the 8259.  CPUs either all have a local APIC or none. *)
Definition pic_irq_request (irq level : Z) (m : machine) : machine :=
  match Apic.local_apics m with
  | [] =>
      let f := if truthy level then intr 0 Apic.CPU_INTERRUPT_HARD
               else reset_intr 0 Apic.CPU_INTERRUPT_HARD in
      Apic.mkBus (Apic.local_apics m) (Apic.on_cpu f (Apic.globals m))
  | _ => foldl (deliver_pic_intr level) m (seq 0 (length (Apic.local_apics m)))
  end.

Definition pc_allocate_cpu_irq : list (qemu_irq machine) := qemu_allocate_irqs pic_irq_request 1.
Definition parent_irq : qemu_irq machine := nth 0 pc_allocate_cpu_irq None.

(** [pic_read_irq(isa_pic)], [pic_update_irq(isa_pic)] and the 16 inputs. *)
Definition isa_pic_read (m : machine) : Z * machine :=
  let '(intno, (st, m)) := I8259.pic_read_irq parent_irq (the_pic m) m in (intno, put_pic st m).
Definition isa_pic_update (m : machine) : machine :=
  let '(st, m) := I8259.pic_update_irq parent_irq (the_pic m) m in put_pic st m.
Definition i8259_line (n level : Z) (m : machine) : machine :=
  let '(st, m) := I8259.i8259_set_irq parent_irq n level (the_pic m) m in put_pic st m.
Definition i8259_irqs : list (qemu_irq machine) := qemu_allocate_irqs i8259_line 16.

#[export] Instance pc_bus : IoApic.IntrBus machine := IoApic.machine_bus board_intr isa_pic_read.

Definition ioapic_line (n level : Z) (m : machine) : machine :=
  let '(s, m) := IoApic.ioapic_set_irq n level (IoApic.the_ioapic m) m in IoApic.put_ioapic s m.
Definition ioapic_irqs : list (qemu_irq machine) := qemu_allocate_irqs ioapic_line 24.

(** This machine has PCI and so an I/O APIC ([pc_init1]): the test of
    [isa->ioapic] succeeds. *)
Definition isa_irq_handler (n level : Z) (m : machine) : machine :=
  let m := if n <? 16 then qemu_set_irq (nth (Z.to_nat n) i8259_irqs None) level m else m in
  qemu_set_irq (nth (Z.to_nat n) ioapic_irqs None) level m.
Definition isa_irq : list (qemu_irq machine) := qemu_allocate_irqs isa_irq_handler 24.

(** [env] is the CPU of index [i]. *)
Definition cpu_get_pic_interrupt (i : Z) (m : machine) : Z * machine :=
  let apic_state := Apic.local_apics m !! Z.to_nat i in
  let '(intno, (a, g)) := Apic.apic_get_interrupt intr apic_state (Apic.globals m) in
  let m := Apic.mkBus (match a with Some a => <[Z.to_nat i := a]> (Apic.local_apics m)
                                  | None => Apic.local_apics m end) g in
  if 0 <=? intno then (intno, isa_pic_update m)
  else if negb (truthy (Apic.apic_accept_pic_intr (Apic.local_apics m !! Z.to_nat i))) then (-1, m)
  else isa_pic_read m.

(** ** A machine in virtual wire mode

    The state the BIOS leaves on a single-CPU PC: LINT0 of the only local APIC
    passes the 8259 through and the I/O APIC is out of the way. *)

Record wired (m : machine) (a : Apic.APICState) : Prop := {
  w_apics : Apic.local_apics m = [a];
  w_idx : Apic.idx a = 0;
  w_lint0 : aget (Apic.lvt a) Apic.APIC_LVT_LINT0 = 0x700;
  w_cpu : (0 < length (the_flags m))%nat;
  w_pins : forall n, 0 <= n < 24 ->
    IoApic.masked (IoApic.entry (IoApic.the_ioapic m) n) = true
    /\ IoApic.level (IoApic.entry (IoApic.the_ioapic m) n) = false
}.

(** The CPU has an interrupt pending. *)
Definition pending_intr (m : machine) : bool := Z.testbit (aget (the_flags m) 0) 1.

(** Raising the 8259's output sets the CPU's flag and nothing else. *)
Definition raised (m : machine) : machine :=
  Apic.mkBus (Apic.local_apics m) (Apic.on_cpu (intr 0 Apic.CPU_INTERRUPT_HARD) (Apic.globals m)).

Lemma raise_wired m a irq : wired m a -> pic_irq_request irq 1 m = raised m.
Proof.
  intros H. unfold pic_irq_request. rewrite (w_apics m a H). cbn [length seq foldl].
  unfold deliver_pic_intr. rewrite (w_apics m a H). cbn [lookup list_lookup].
  unfold Apic.apic_accept_pic_intr. rewrite (w_lint0 m a H).
  change (0x700 .& Apic.APIC_LVT_MASKED =? 0) with true. rewrite orb_true_r. cbn [truthy negb Z.eqb].
  unfold Apic.at_apic. rewrite (w_apics m a H). change ([a] !! Z.to_nat (Z.of_nat 0)) with (Some a). cbv iota.
  unfold Apic.apic_deliver_pic_intr, Apic.apic_local_deliver. cbn [truthy negb Z.eqb].
  rewrite (w_lint0 m a H), (w_idx m a H).
  change (tst 0x700 Apic.APIC_LVT_MASKED) with false. change ((0x700 >> 8) .& 7) with 7. cbv iota.
  unfold raised. now rewrite (w_apics m a H).
Qed.

Lemma raised_same m : the_pic (raised m) = the_pic m /\ IoApic.the_ioapic (raised m) = IoApic.the_ioapic m
  /\ Apic.local_apics (raised m) = Apic.local_apics m.
Proof. done. Qed.

Lemma raised_wired m a : wired m a -> wired (raised m) a.
Proof.
  intros [H1 H2 H3 H4 H5]. constructor; try done. unfold the_flags, raised in *. cbn.
  unfold cpu_interrupt. now rewrite length_aset.
Qed.

Lemma raised_pending m a : wired m a -> pending_intr (raised m) = true.
Proof.
  intros H. pose proof (w_cpu m a H). unfold pending_intr, the_flags, raised in *. cbn [Apic.globals].
  unfold Apic.on_cpu, intr, board_intr, cpu_interrupt. cbn [snd fst].
  rewrite aget_aset_eq by lia. unfold Apic.CPU_INTERRUPT_HARD. change 2 with (1 << 1) at 1.
  autorewrite with bits. reflexivity.
Qed.

Lemma put_pic_wired st m a : wired m a -> wired (put_pic st m) a.
Proof. intros [H1 H2 H3 H4 H5]. now constructor. Qed.

(** *** The 8259 pair on a wired machine *)

(** No interrupt of the slave is waiting. *)
Definition quiet_slave (st : I8259.PicState2) : Prop := I8259.pic_get_irq false (I8259.pic1 st) = -1.

Lemma update_wired st m a : wired m a -> quiet_slave st ->
  I8259.pic_update_irq parent_irq st m =
  (st, if 0 <=? I8259.pic_get_irq true (I8259.pic0 st) then raised m else m).
Proof.
  intros H Hq. unfold I8259.pic_update_irq. rewrite Hq. change (0 <=? -1) with false. cbv iota.
  destruct (0 <=? _); [|done]. f_equal. unfold qemu_irq_raise, parent_irq, pc_allocate_cpu_irq.
  rewrite set_irq_line by lia. now apply (raise_wired m a).
Qed.

(** The machine after an operation that leaves the pair in [st]. *)
Definition with_pic (st : I8259.PicState2) (m : machine) : machine :=
  put_pic st (if 0 <=? I8259.pic_get_irq true (I8259.pic0 st) then raised m else m).

Lemma with_pic_spec st m a : wired m a ->
  wired (with_pic st m) a /\ the_pic (with_pic st m) = st
  /\ (0 <= I8259.pic_get_irq true (I8259.pic0 st) -> pending_intr (with_pic st m) = true).
Proof.
  intros H. unfold with_pic. split; [|split; [done|]].
  - apply put_pic_wired. destruct (0 <=? _); [now apply raised_wired|done].
  - intros Hge. rewrite (proj2 (Z.leb_le _ _) Hge). now apply (raised_pending m a).
Qed.

(** A masked edge pin of the I/O APIC ignores its line. *)
Lemma ioapic_line_wired n level m a : wired m a -> 0 <= n < 24 -> ioapic_line n level m = m.
Proof.
  intros H Hn. unfold ioapic_line, IoApic.ioapic_set_irq, IoApic.IOAPIC_NUM_PINS.
  set (v := if n =? 0 then 2 else n). assert (Hv : 0 <= v < 24) by (unfold v; destruct (n =? 0); lia).
  destruct (Z.leb_spec 0 v), (Z.ltb_spec v 0x18); try lia. cbn [andb].
  fold (IoApic.entry (IoApic.the_ioapic m) v). destruct (w_pins m a H v Hv) as [Hm Hl].
  rewrite IoApic.shr_bit by lia. fold (IoApic.level (IoApic.entry (IoApic.the_ioapic m) v)). rewrite Hl.
  unfold IoApic.IOAPIC_LVT_MASKED. rewrite tst_bit by lia.
  fold (IoApic.masked (IoApic.entry (IoApic.the_ioapic m) v)). rewrite Hm, andb_false_r.
  cbn [b2z]. change (0 =? IoApic.IOAPIC_TRIGGER_LEVEL) with false. cbv iota.
  destruct m as [l [k [s c]]]. reflexivity.
Qed.

Lemma with_pic_flow n level m a : wired m a -> 0 <= n < 16 ->
  let st := I8259.set_pic (the_pic m) (n >> 3)
              (I8259.pic_set_irq1 (I8259.pics (the_pic m) (n >> 3)) (n .& 7) level) in
  quiet_slave st -> isa_irq_handler n level m = with_pic st m.
Proof.
  intros H Hn st Hq. unfold isa_irq_handler, i8259_irqs, ioapic_irqs.
  destruct (Z.ltb_spec n 16); [|lia]. rewrite !set_irq_line by lia. rewrite Z2Nat.id by lia.
  assert (i8259_line n level m = with_pic st m) as ->.
  { unfold i8259_line.
    change (I8259.i8259_set_irq parent_irq n level (the_pic m) m) with (I8259.pic_update_irq parent_irq st m).
    rewrite (update_wired st m a H Hq). reflexivity. }
  apply (ioapic_line_wired n level (with_pic st m) a); [apply (with_pic_spec st m a H)|lia].
Qed.

(** The lines of the keyboard controller: IRQ 1 on the master, 12 on the slave. *)
Definition set_master (n level : Z) (st : I8259.PicState2) : I8259.PicState2 :=
  st <| I8259.pic0 := I8259.pic_set_irq1 (I8259.pic0 st) n level |>.
Definition set_slave (n level : Z) (st : I8259.PicState2) : I8259.PicState2 :=
  st <| I8259.pic1 := I8259.pic_set_irq1 (I8259.pic1 st) n level |>.

Lemma irq1_wired level m a : wired m a -> quiet_slave (the_pic m) ->
  isa_irq_handler 1 level m = with_pic (set_master 1 level (the_pic m)) m.
Proof. intros H Hq. now apply (with_pic_flow 1 level m a H). Qed.

Lemma quiet_set_slave n st : 0 <= n < 8 -> Z.testbit (I8259.elcr (I8259.pic1 st)) n = false ->
  quiet_slave st -> quiet_slave (set_slave n 0 st).
Proof.
  unfold quiet_slave, set_slave, I8259.pic_set_irq1. intros Hn He Hq.
  cbn [over I8259.pic1]. rewrite tst_bit, He by lia. exact Hq.
Qed.

Lemma irq12_wired m a : wired m a -> quiet_slave (the_pic m) ->
  Z.testbit (I8259.elcr (I8259.pic1 (the_pic m))) 4 = false ->
  isa_irq_handler 12 0 m = with_pic (set_slave 4 0 (the_pic m)) m.
Proof.
  intros H Hq He. apply (with_pic_flow 12 0 m a H); [lia|].
  now apply (quiet_set_slave 4).
Qed.

(** *** The keyboard controller on the machine *)

Definition irq_kbd : qemu_irq machine := nth 1 isa_irq None.
Definition irq_mouse : qemu_irq machine := nth 12 isa_irq None.

(** A wired machine whose slave 8259 is quiet, IRQ 12 being edge triggered. *)
Record good (m : machine) (a : Apic.APICState) : Prop := {
  g_wired : wired m a;
  g_quiet : quiet_slave (the_pic m);
  g_edge12 : Z.testbit (I8259.elcr (I8259.pic1 (the_pic m))) 4 = false
}.

Definition drive (level : Z) (m : machine) : machine :=
  qemu_set_irq irq_mouse 0 (qemu_set_irq irq_kbd level m).

Lemma drive_good level m a : good m a ->
  good (drive level m) a
  /\ the_pic (drive level m) = set_slave 4 0 (set_master 1 level (the_pic m))
  /\ (0 <= I8259.pic_get_irq true (I8259.pic0 (the_pic (drive level m))) -> pending_intr (drive level m) = true).
Proof.
  intros [Hw Hq He]. unfold drive, irq_kbd, irq_mouse, isa_irq. rewrite !set_irq_line by lia.
  change (Z.of_nat 1) with 1. change (Z.of_nat 12) with 12.
  rewrite (irq1_wired level m a Hw Hq). set (st1 := set_master 1 level (the_pic m)).
  destruct (with_pic_spec st1 m a Hw) as (Hw1 & Hp1 & _).
  rewrite (irq12_wired (with_pic st1 m) a Hw1); rewrite ?Hp1; [|done|done].
  destruct (with_pic_spec (set_slave 4 0 st1) (with_pic st1 m) a Hw1) as (Hw2 & Hp2 & Hf2).
  rewrite Hp2. split; [|split; [done|exact Hf2]]. split; [done| |]; rewrite Hp2.
  - now apply (quiet_set_slave 4).
  - destruct (I8259.pic_set_irq1_edge (I8259.pic1 st1) 4 0 ltac:(lia) He) as (_ & _ & E).
    cbn [set_slave over I8259.pic1]. rewrite E. exact He.
Qed.

(** The controller with its interrupt enabled, key codes translated for the
    guest and the mouse idle; [q] is what the keyboard holds. *)
Record kbd_holds (q : list Z) (c : PcKbd.i8042) : Prop := {
  k_queue : Ps2.queue_ok (PcKbd.kq c);
  k_data : Ps2.contents (PcKbd.kq c) = q;
  k_pending : PcKbd.pending (PcKbd.ctl c) = b2z (PcKbd.waiting q);
  k_enabled : tst (PcKbd.mode (PcKbd.ctl c)) PcKbd.KBD_MODE_KBD_INT = true;
  k_scanning : tst (PcKbd.mode (PcKbd.ctl c)) PcKbd.KBD_MODE_DISABLE_KBD = false;
  k_translate : truthy (Ps2.translate (PcKbd.kbd c)) = true
}.

Lemma update_kbd_level lvl (x : bool) s m : PcKbd.pending s = b2z x ->
  tst (PcKbd.mode s) PcKbd.KBD_MODE_KBD_INT = true -> tst (PcKbd.mode s) PcKbd.KBD_MODE_DISABLE_KBD = false ->
  lvl = 0 \/ lvl = 1 ->
  let '(s', m') := PcKbd.kbd_update_kbd_irq irq_kbd irq_mouse lvl (s, m) in
  m' = drive lvl m /\ PcKbd.pending s' = lvl /\ PcKbd.mode s' = PcKbd.mode s.
Proof.
  intros Hp Hi Hd Hl. unfold PcKbd.kbd_update_kbd_irq.
  assert (forall s0, PcKbd.pending s0 = lvl -> PcKbd.mode s0 = PcKbd.mode s ->
    let '(s', m') := PcKbd.kbd_update_irq irq_kbd irq_mouse s0 m in
    m' = drive lvl m /\ PcKbd.pending s' = lvl /\ PcKbd.mode s' = PcKbd.mode s) as Hgo.
  { intros s0 E1 E2. unfold PcKbd.kbd_update_irq. cbn [over PcKbd.pending PcKbd.mode PcKbd.status PcKbd.outport].
    rewrite E1. destruct Hl as [-> | ->]; cbn [truthy negb Z.eqb].
    - unfold drive. cbn [over PcKbd.pending PcKbd.mode]. split; [reflexivity|]. split; [exact E1|exact E2].
    - change (1 =? PcKbd.KBD_PENDING_AUX) with false. cbv iota.
      cbn [over PcKbd.pending PcKbd.mode]. rewrite E2, Hi, Hd. cbn [negb andb].
      unfold drive. split; [reflexivity|]. split; [exact E1|exact E2]. }
  destruct Hl as [-> | ->]; apply Hgo; cbn [over PcKbd.pending PcKbd.mode truthy negb Z.eqb];
    rewrite ?Hp; now destruct x.
Qed.

Lemma press_spec k c m : in_u 8 k -> kbd_holds [] c ->
  let '(c', m') := PcKbd.kbd_put_keycode irq_kbd irq_mouse k c m in
  kbd_holds [k] c' /\ m' = drive 1 m.
Proof.
  intros Hk [K1 K2 K3 K4 K5 K6]. unfold PcKbd.kbd_put_keycode, PcKbd.on_kbd, Ps2.ps2_put_keycode.
  rewrite K6. cbn [negb andb]. unfold Ps2.kbd_ps2_queue.
  pose proof (Ps2.ps2_queue_spec (PcKbd.kbd_update_kbd_irq irq_kbd irq_mouse) k
    (Ps2.kcommon (PcKbd.kbd c)) (PcKbd.ctl c, m) K1) as L.
  destruct (Ps2.ps2_queue _ k _ _) as [q w]. destruct L as (L1 & L2 & _ & ->).
  assert ((Ps2.count (Ps2.queue (Ps2.kcommon (PcKbd.kbd c))) <? 256) = true) as ->.
  { apply Z.ltb_lt. pose proof (proj1 (Ps2.contents_nil _ K1) K2) as E. unfold PcKbd.kq in E. lia. }
  pose proof (update_kbd_level 1 false (PcKbd.ctl c) m K3 K4 K5 (or_intror eq_refl)) as U.
  destruct (PcKbd.kbd_update_kbd_irq irq_kbd irq_mouse 1 (PcKbd.ctl c, m)) as [s' m'].
  destruct U as (-> & U2 & U3). split; [|done].
  unfold PcKbd.kq in *. constructor; cbn [PcKbd.ctl PcKbd.kbd PcKbd.kq over Ps2.kcommon Ps2.translate] in *;
    rewrite ?U3; try done.
  unfold PcKbd.kq. cbn. rewrite L2, K2. unfold Ps2.push. cbn. now rewrite u8_id.
Qed.

Lemma read_spec k c m : kbd_holds [k] c ->
  let '(b, (c', m')) := PcKbd.kbd_read_data irq_kbd irq_mouse c m in
  b = k /\ kbd_holds [] c' /\ m' = drive 0 (drive 0 m).
Proof.
  intros [K1 K2 K3 K4 K5 K6]. unfold PcKbd.kbd_read_data. rewrite K3.
  change (b2z (PcKbd.waiting [k]) =? PcKbd.KBD_PENDING_AUX) with false. cbv iota.
  pose proof (Ps2.ps2_read_spec (PcKbd.kbd_update_kbd_irq irq_kbd irq_mouse)
    (Ps2.kcommon (PcKbd.kbd c)) (PcKbd.ctl c, m) k [] K1 K2) as L.
  destruct (Ps2.ps2_read_data _ _ _) as [b [q w]]. destruct L as (-> & L2 & L3 & _ & -> & _).
  change (b2z (negb (bool_decide ([] = [] :> list Z)))) with 0.
  pose proof (update_kbd_level 0 true (PcKbd.ctl c) m K3 K4 K5 (or_introl eq_refl)) as U.
  destruct (PcKbd.kbd_update_kbd_irq irq_kbd irq_mouse 0 (PcKbd.ctl c, m)) as [s1 m1]. destruct U as (-> & U2 & U3).
  pose proof (update_kbd_level 0 false s1 (drive 0 m) U2) as V. rewrite U3 in V.
  specialize (V K4 K5 (or_introl eq_refl)).
  destruct (PcKbd.kbd_update_kbd_irq irq_kbd irq_mouse 0 (s1, drive 0 m)) as [s2 m2]. destruct V as (-> & V2 & V3).
  split; [done|]. split; [|done]. unfold PcKbd.kq in *.
  constructor; cbn [PcKbd.ctl PcKbd.kbd PcKbd.kq over Ps2.kcommon Ps2.translate] in *; rewrite ?V3; done.
Qed.

(** *** From the key to the guest *)

(** IRQ 1 can win at the master: edge triggered, unmasked and low, with
    nothing else requested or in service. *)
Record irq1_ready (s : I8259.PicState) : Prop := {
  r_ok : I8259.pic_ok s;
  r_edge : Z.testbit (I8259.elcr s) 1 = false;
  r_unmasked : Z.testbit (I8259.imr s) 1 = false;
  r_low : Z.testbit (I8259.last_irr s) 1 = false;
  r_alone : forall k, 0 <= k < 8 -> k <> 1 -> Z.testbit (I8259.requests s) k = false;
  r_idle : I8259.isr s = 0
}.

Lemma set_irq1_fixed s n level : I8259.irq_base (I8259.pic_set_irq1 s n level) = I8259.irq_base s
  /\ I8259.elcr (I8259.pic_set_irq1 s n level) = I8259.elcr s.
Proof. unfold I8259.pic_set_irq1. split_ifs; split; reflexivity. Qed.

Lemma irq1_wins s : irq1_ready s -> I8259.wins true (I8259.pic_set_irq1 s 1 1) 1.
Proof.
  intros [R1 R2 R3 R4 R5 R6].
  destruct (I8259.pic_set_irq1_edge s 1 1 ltac:(lia) R2) as (_ & Hirr & _).
  pose proof (fun k => I8259.pic_set_irq1_irr_other s 1 1 k ltac:(lia)) as Hother.
  pose proof (I8259.pic_set_irq1_frame s 1 1) as Hf. cbv zeta in Hf.
  set (s' := I8259.pic_set_irq1 s 1 1) in *.
  assert (I8259.imr s' = I8259.imr s /\ I8259.isr s' = I8259.isr s) as [Ei Es] by (rewrite Hf; now destruct s).
  assert (Hreq : forall k, 0 <= k < 8 -> Z.testbit (I8259.requests s') k = (k =? 1)).
  { intros k Hk. unfold I8259.requests in *. autorewrite with bits. rewrite Ei.
    destruct (Z.eqb_spec k 1) as [->|Hne]; [rewrite Hirr, R3, R4; now rewrite orb_true_r|].
    rewrite Hother by done. specialize (R5 k Hk Hne). autorewrite with bits in R5. exact R5. }
  split; [lia|]. split; [now rewrite Hreq by lia|]. split.
  - intros k Hk Hr. rewrite Hreq in Hr by done. apply Z.eqb_eq in Hr as ->. lia.
  - intros k Hk Hr. exfalso. unfold I8259.in_service in Hr. rewrite Es, R6 in Hr.
    destruct (truthy (I8259.special_mask s')), (truthy (I8259.special_fully_nested_mode s')); cbn [andb] in Hr;
      rewrite ?Z.land_0_l, Z.bits_0 in Hr; done.
Qed.

(** The acknowledge cycle of the CPU while its own APIC has nothing to say. *)
Lemma ack_wired m a : good m a -> I8259.pics_ok (the_pic m) ->
  (tst (Apic.spurious_vec a) Apic.APIC_SV_ENABLE = false \/ Apic.apic_irq_pending a = 0) ->
  I8259.wins true (I8259.pic0 (the_pic m)) 1 ->
  let st := (the_pic m) <| I8259.pic0 := I8259.pic_intack (I8259.pic0 (the_pic m)) 1 |> in
  cpu_get_pic_interrupt 0 m = (I8259.irq_base (I8259.pic0 (the_pic m)) + 1, with_pic st m)
  /\ good (with_pic st m) a.
Proof.
  intros [Hw Hq He] [P0 P1] Ha Hwin st. split.
  - unfold cpu_get_pic_interrupt. change (Z.to_nat 0) with 0%nat. rewrite (w_apics m a Hw). cbn [lookup list_lookup].
    assert (Apic.apic_get_interrupt intr (Some a) (Apic.globals m) = (-1, (Some a, Apic.globals m))) as ->.
    { unfold Apic.apic_get_interrupt. destruct Ha as [-> | ->]; [done|]. now destruct (negb _). }
    change (0 <=? -1) with false. cbn [Apic.local_apics]. change (<[0%nat := a]> [a]) with [a].
    cbn [lookup list_lookup]. unfold Apic.apic_accept_pic_intr. rewrite (w_lint0 m a Hw).
    change (0x700 .& Apic.APIC_LVT_MASKED =? 0) with true. rewrite orb_true_r. cbn [truthy negb Z.eqb].
    replace (Apic.mkBus [a] (Apic.globals m)) with m by (rewrite <- (w_apics m a Hw); now destruct m).
    unfold isa_pic_read. rewrite (I8259.read_irq_master parent_irq (the_pic m) m P0 1 Hwin) by lia. fold st.
    now rewrite (update_wired st m a Hw Hq).
  - destruct (with_pic_spec st m a Hw) as (W1 & W2 & _). split; [done| |]; now rewrite W2.
Qed.

(** C22: A key press reaches the guest. On a PC in virtual wire mode with IRQ 1
    ready and the keyboard idle, a key code from the host raises the CPU's
    interrupt; the CPU's acknowledge returns the vector the guest programmed for
    IRQ 1; reading port 0x60 in the handler returns the key code; and then the
    keyboard is idle again, the line is low and the request consumed, so that
    the next key makes a new edge. *)
Theorem key_press_reaches_guest k (c : PcKbd.i8042) (m : machine) a :
  in_u 8 k -> good m a -> I8259.pics_ok (the_pic m) -> irq1_ready (I8259.pic0 (the_pic m)) ->
  tst (Apic.spurious_vec a) Apic.APIC_SV_ENABLE = false \/ Apic.apic_irq_pending a = 0 ->
  kbd_holds [] c ->
  let '(c1, m1) := PcKbd.kbd_put_keycode irq_kbd irq_mouse k c m in
  let '(v, m2) := cpu_get_pic_interrupt 0 m1 in
  let '(b, (c3, m3)) := PcKbd.kbd_read_data irq_kbd irq_mouse c1 m2 in
  pending_intr m1 = true
  /\ v = I8259.irq_base (I8259.pic0 (the_pic m)) + 1
  /\ b = k
  /\ kbd_holds [] c3 /\ good m3 a
  /\ Z.testbit (I8259.last_irr (I8259.pic0 (the_pic m3))) 1 = false
  /\ Z.testbit (I8259.irr (I8259.pic0 (the_pic m3))) 1 = false.
Proof.
  intros Hk Hg Hp Hr Ha Hc. pose proof (press_spec k c m Hk Hc) as L.
  destruct (PcKbd.kbd_put_keycode irq_kbd irq_mouse k c m) as [c1 m1]. destruct L as [Hc1 ->].
  destruct (drive_good 1 m a Hg) as (Hg1 & Hp1 & Hf1). pose proof (irq1_wins _ Hr) as Hwin.
  set (s1 := I8259.pic_set_irq1 (I8259.pic0 (the_pic m)) 1 1) in *.
  assert (E0 : I8259.pic0 (the_pic (drive 1 m)) = s1) by now rewrite Hp1.
  assert (Hok1 : I8259.pics_ok (the_pic (drive 1 m))).
  { rewrite Hp1. destruct Hp. split; now apply I8259.pic_ok_set_irq1. }
  assert (Hbase : I8259.irq_base s1 = I8259.irq_base (I8259.pic0 (the_pic m)) /\ I8259.elcr s1 = I8259.elcr (I8259.pic0 (the_pic m)))
    by apply set_irq1_fixed.
  rewrite <- E0 in Hwin. destruct (ack_wired (drive 1 m) a Hg1 Hok1 Ha Hwin) as [-> Hg2].
  rewrite E0 in *. set (st2 := _ <| I8259.pic0 := _ |>) in *.
  pose proof (read_spec k c1 (with_pic st2 (drive 1 m)) Hc1) as R.
  destruct (PcKbd.kbd_read_data irq_kbd irq_mouse c1 (with_pic st2 (drive 1 m))) as [b [c3 m3]].
  destruct R as (-> & Hc3 & ->).
  destruct (drive_good 0 _ a Hg2) as (Hg3 & Hp3 & _). destruct (drive_good 0 _ a Hg3) as (Hg4 & Hp4 & _).
  assert (Hs1 : I8259.pic_ok s1) by apply I8259.pic_ok_set_irq1, Hr.
  split; [apply Hf1; rewrite (I8259.wins_pic_get_irq _ _ _ Hs1 Hwin); lia|].
  split; [now rewrite (proj1 Hbase)|]. split; [done|]. split; [done|]. split; [done|].
  rewrite Hp4, Hp3. cbn [set_slave set_master over I8259.pic0 I8259.pic1].
  destruct (with_pic_spec st2 (drive 1 m) a (g_wired _ _ Hg1)) as (_ & -> & _).
  cbn [st2 over I8259.pic0]. set (s2 := I8259.pic_intack s1 1).
  assert (He2 : Z.testbit (I8259.elcr s2) 1 = false).
  { unfold s2, I8259.pic_intack. split_ifs; cbn [over I8259.elcr]; rewrite (proj2 Hbase); apply (r_edge _ Hr). }
  destruct (I8259.pic_set_irq1_edge s2 1 0 ltac:(lia) He2) as (A1 & A2 & A3).
  destruct (I8259.pic_set_irq1_edge (I8259.pic_set_irq1 s2 1 0) 1 0 ltac:(lia)) as (B1 & B2 & _); [congruence|].
  split; [exact B1|]. rewrite B2, A2, A1. unfold s2.
  rewrite I8259.pic_intack_irr by (done || lia).
  rewrite (proj2 Hbase), (r_edge _ Hr). cbn. now rewrite !andb_false_r.
Qed.

(** The PC after the BIOS: 8259 vectors at 8 and 0x70, everything but IRQ 1
    masked on the master. *)
Definition bios_pic : I8259.PicState2 :=
  I8259.mkPics ((I8259.pic_zero 0xf8) <| I8259.irq_base := 8 |> <| I8259.imr := 0xfd |>)
    ((I8259.pic_zero 0xde) <| I8259.irq_base := 0x70 |>).
Definition bios_apic : Apic.APICState := Apic.apic_reset true Apic.apic_zero.
Definition bios_ioapic : IoApic.IOAPICState := IoApic.ioapic_reset (IoApic.mkIOAPIC 0 0 0 []).
Definition bios_machine : machine := Apic.mkBus [bios_apic] (0, (bios_ioapic, (bios_pic, [0]))).
Definition bios_kbd : PcKbd.i8042 :=
  PcKbd.mk8042 (PcKbd.mkKBD 0 0x18 0x41 3 0) (Ps2.mkKbd Ps2.ps2_zero 1 1 2) Ps2.ps2_mouse_init.

Lemma bios_good : good bios_machine bios_apic.
Proof.
  split; [|vm_compute; reflexivity|vm_compute; reflexivity].
  split; [reflexivity|reflexivity|vm_compute; reflexivity|cbn; lia|].
  intros n Hn.
  assert (all_below 24 (fun n => IoApic.masked (IoApic.entry bios_ioapic n) && negb (IoApic.level (IoApic.entry bios_ioapic n))) = true)
    as H by (vm_compute; reflexivity).
  pose proof (all_below_spec 24 _ H n ltac:(lia)) as Hx. apply andb_true_iff in Hx as [H1 H2%negb_true_iff].
  split; [exact H1|exact H2].
Qed.

Lemma bios_pic_ok : I8259.pics_ok bios_pic.
Proof.
  split; constructor; cbn; unfold in_u, I8259.flag; try lia; repeat split; try lia; auto.
Qed.

Lemma bios_irq1 : irq1_ready (I8259.pic0 bios_pic).
Proof.
  split; [apply bios_pic_ok|reflexivity|reflexivity|reflexivity| |reflexivity].
  intros k Hk Hne. change (I8259.requests (I8259.pic0 bios_pic)) with 0. apply Z.bits_0.
Qed.

Lemma bios_kbd_idle : kbd_holds [] bios_kbd.
Proof. split; [apply Ps2.ps2_zero_ok|vm_compute; reflexivity..]. Qed.

Lemma key_press_reaches_guest_witness :
  let '(c1, m1) := PcKbd.kbd_put_keycode irq_kbd irq_mouse 0x1e bios_kbd bios_machine in
  let '(v, m2) := cpu_get_pic_interrupt 0 m1 in
  let '(b, _) := PcKbd.kbd_read_data irq_kbd irq_mouse c1 m2 in
  pending_intr m1 = true /\ v = 9 /\ b = 0x1e.
Proof.
  assert (in_u 8 0x1e) as Hk by (split; [discriminate|reflexivity]).
  pose proof (key_press_reaches_guest 0x1e bios_kbd bios_machine bios_apic Hk bios_good bios_pic_ok bios_irq1
    (or_introl eq_refl) bios_kbd_idle) as T.
  destruct (PcKbd.kbd_put_keycode irq_kbd irq_mouse 0x1e bios_kbd bios_machine) as [c1 m1].
  destruct (cpu_get_pic_interrupt 0 m1) as [v m2].
  destruct (PcKbd.kbd_read_data irq_kbd irq_mouse c1 m2) as [b [c3 m3]].
  destruct T as (T1 & T2 & T3 & _). split; [exact T1|]. split; [exact T2|exact T3].
Defined.

End Pc.
