(* ===== verification/Serial.v ===== *)
(** * The 16550A UART: hw/serial.c

    [SerialState] and [SerialFIFO] are the structs of the same names; the
    output line [irq] acts on the world [W], which also holds the character
    backend [chr].  The backend's entry points are arguments: [qemu_chr_write]
    returns the number of bytes it took, [get_tiocm] the result of the
    [CHR_IOCTL_SERIAL_GET_TIOCM] call with the value its [flags] variable then
    holds, and [qemu_chr_accept_input] the buffers the backend hands to
    [serial_receive1] before it returns.  A timer is [None] when it is not
    pending. *)

From S2P Require Import Prelude Irq I8254.
Import Irq.

Module Serial.

Definition UART_LCR_DLAB : Z := 0x80.
Definition UART_IER_MSI : Z := 0x08.
Definition UART_IER_RLSI : Z := 0x04.
Definition UART_IER_THRI : Z := 0x02.
Definition UART_IER_RDI : Z := 0x01.
Definition UART_IIR_NO_INT : Z := 0x01.
Definition UART_IIR_ID : Z := 0x06.
Definition UART_IIR_MSI : Z := 0x00.
Definition UART_IIR_THRI : Z := 0x02.
Definition UART_IIR_RDI : Z := 0x04.
Definition UART_IIR_RLSI : Z := 0x06.
Definition UART_IIR_CTI : Z := 0x0C.
Definition UART_IIR_FE : Z := 0xC0.
Definition UART_MCR_LOOP : Z := 0x10.
Definition UART_MCR_OUT2 : Z := 0x08.
Definition UART_MCR_RTS : Z := 0x02.
Definition UART_MCR_DTR : Z := 0x01.
Definition UART_MSR_DCD : Z := 0x80.
Definition UART_MSR_RI : Z := 0x40.
Definition UART_MSR_DSR : Z := 0x20.
Definition UART_MSR_CTS : Z := 0x10.
Definition UART_MSR_TERI : Z := 0x04.
Definition UART_MSR_ANY_DELTA : Z := 0x0F.
Definition UART_LSR_TEMT : Z := 0x40.
Definition UART_LSR_THRE : Z := 0x20.
Definition UART_LSR_BI : Z := 0x10.
Definition UART_LSR_OE : Z := 0x02.
Definition UART_LSR_DR : Z := 0x01.
Definition UART_LSR_INT_ANY : Z := 0x1E.
Definition UART_FCR_ITL_1 : Z := 0x00.
Definition UART_FCR_ITL_2 : Z := 0x40.
Definition UART_FCR_ITL_3 : Z := 0x80.
Definition UART_FCR_ITL_4 : Z := 0xC0.
Definition UART_FCR_XFR : Z := 0x04.
Definition UART_FCR_RFR : Z := 0x02.
Definition UART_FCR_FE : Z := 0x01.
Definition UART_FIFO_LENGTH : Z := 16.
Definition XMIT_FIFO : Z := 0.
Definition RECV_FIFO : Z := 1.
Definition MAX_XMIT_RETRY : Z := 4.
Definition CHR_TIOCM_CTS : Z := 0x020.
Definition CHR_TIOCM_CAR : Z := 0x040.
Definition CHR_TIOCM_DSR : Z := 0x100.
Definition CHR_TIOCM_RI : Z := 0x080.
Definition CHR_TIOCM_DTR : Z := 0x002.
Definition CHR_TIOCM_RTS : Z := 0x004.
Definition CHR_EVENT_BREAK : Z := 0.
(** errno.h *)
Definition ENOTSUP : Z := 95.

Record SerialFIFO := mkFifo {
  data : list Z;   (* uint8_t [UART_FIFO_LENGTH] *)
  count : Z;
  itl : Z;         (* Interrupt Trigger Level *)
  tail : Z;
  head : Z
}.

#[export] Instance SerialFIFO_eta : Eta SerialFIFO := fun f =>
  mkFifo (data f) (count f) (itl f) (tail f) (head f).

Record SerialState := mkSerial {
  divider : Z;
  rbr : Z;
  thr : Z;
  tsr : Z;
  ier : Z;
  iir : Z;
  lcr : Z;
  mcr : Z;
  lsr : Z;
  msr : Z;
  scr : Z;
  fcr : Z;
  fcr_vmstate : Z;
  thr_ipending : Z;
  last_break_enable : Z;
  it_shift : Z;
  baudbase : Z;
  tsr_retry : Z;
  last_xmit_ts : Z;
  recv_fifo : SerialFIFO;
  xmit_fifo : SerialFIFO;
  fifo_timeout_timer : option Z;
  timeout_ipending : Z;
  transmit_timer : option Z;
  char_transmit_time : Z;
  poll_msl : Z;
  modem_status_poll : option Z
}.

#[export] Instance SerialState_eta : Eta SerialState := fun s =>
  mkSerial (divider s) (rbr s) (thr s) (tsr s) (ier s) (iir s) (lcr s) (mcr s) (lsr s) (msr s)
    (scr s) (fcr s) (fcr_vmstate s) (thr_ipending s) (last_break_enable s) (it_shift s)
    (baudbase s) (tsr_retry s) (last_xmit_ts s) (recv_fifo s) (xmit_fifo s)
    (fifo_timeout_timer s) (timeout_ipending s) (transmit_timer s) (char_transmit_time s)
    (poll_msl s) (modem_status_poll s).

(** [&s->recv_fifo] or [&s->xmit_fifo]. *)
Definition get_fifo (fifo : Z) (s : SerialState) : SerialFIFO :=
  if truthy fifo then recv_fifo s else xmit_fifo s.
Definition set_fifo (fifo : Z) (f : SerialFIFO) (s : SerialState) : SerialState :=
  if truthy fifo then s <| recv_fifo := f |> else s <| xmit_fifo := f |>.

Definition fifo_clear (fifo : Z) (s : SerialState) : SerialState :=
  let f := get_fifo fifo s in
  let f := f <| data := replicate 16 0 |> in
  let f := f <| count := 0 |> in
  let f := f <| head := 0 |> in
  set_fifo fifo (f <| tail := 0 |>) s.

Definition fifo_put (fifo chr : Z) (s : SerialState) : SerialState :=
  let f := get_fifo fifo s in
  (* Receive overruns do not overwrite FIFO contents. *)
  let f :=
    if (fifo =? XMIT_FIFO) || (count f <? UART_FIFO_LENGTH) then
      let f := f <| data := aset (data f) (head f) chr |> in
      let f := f <| head := u8 (head f + 1) |> in
      if head f =? UART_FIFO_LENGTH then f <| head := 0 |> else f
    else f in
  if count f <? UART_FIFO_LENGTH then set_fifo fifo (f <| count := u8 (count f + 1) |>) s
  else
    let s := set_fifo fifo f s in
    if fifo =? RECV_FIFO then s <| lsr := u8 (lsr s .| UART_LSR_OE) |> else s.

Definition fifo_get (fifo : Z) (s : SerialState) : Z * SerialState :=
  let f := get_fifo fifo s in
  if count f =? 0 then (0, s)
  else
    let c := aget (data f) (tail f) in
    let f := f <| tail := u8 (tail f + 1) |> in
    let f := if tail f =? UART_FIFO_LENGTH then f <| tail := 0 |> else f in
    (c, set_fifo fifo (f <| count := u8 (count f - 1) |>) s).

Section UART.
Context {W : Type} (irq : qemu_irq W).
Context (qemu_chr_write : Z -> W -> Z * W) (get_tiocm : W -> Z * Z) (set_tiocm : Z -> W -> W)
  (set_params : Z -> Z -> Z -> Z -> W -> W) (set_break : Z -> W -> W)
  (qemu_chr_accept_input : SerialState -> W -> list (list Z) * W).

(** The interrupt identification [serial_update_irq] computes. *)
Definition tmp_iir (s : SerialState) : Z :=
  if tst (ier s) UART_IER_RLSI && tst (lsr s) UART_LSR_INT_ANY then UART_IIR_RLSI
  else if tst (ier s) UART_IER_RDI && truthy (timeout_ipending s) then UART_IIR_CTI
  else if tst (ier s) UART_IER_RDI && tst (lsr s) UART_LSR_DR
          && (negb (tst (fcr s) UART_FCR_FE) || (itl (recv_fifo s) <=? count (recv_fifo s)))
  then UART_IIR_RDI
  else if tst (ier s) UART_IER_THRI && truthy (thr_ipending s) then UART_IIR_THRI
  else if tst (ier s) UART_IER_MSI && tst (msr s) UART_MSR_ANY_DELTA then UART_IIR_MSI
  else UART_IIR_NO_INT.

Definition serial_update_irq (s : SerialState) (w : W) : SerialState * W :=
  let t := tmp_iir s in
  let s := s <| iir := t .| (iir s .& 0xF0) |> in
  if negb (t =? UART_IIR_NO_INT) then (s, qemu_irq_raise irq w) else (s, qemu_irq_lower irq w).

Definition serial_update_parameters (s : SerialState) (w : W) : SerialState * W :=
  if divider s =? 0 then (s, w)
  else
    (* Start bit. *)
    let frame_size := 1 in
    let '(frame_size, parity) :=
      if tst (lcr s) 0x08 then
        (* Parity bit. *)
        (frame_size + 1, if tst (lcr s) 0x10 then 0x45 (* E *) else 0x4f (* O *))
      else (frame_size, 0x4e (* N *)) in
    let stop_bits := if tst (lcr s) 0x04 then 2 else 1 in
    let data_bits := (lcr s .& 0x03) + 5 in
    let frame_size := frame_size + (data_bits + stop_bits) in
    let speed := Z.quot (baudbase s) (divider s) in
    (s <| char_transmit_time := Z.quot I8254.get_ticks_per_sec speed * frame_size |>,
     set_params speed parity data_bits stop_bits w).

Definition serial_update_msl (now : Z) (s : SerialState) (w : W) : SerialState * W :=
  let s := s <| modem_status_poll := None |> in
  let '(ret, flags) := get_tiocm w in
  if ret =? - ENOTSUP then (s <| poll_msl := -1 |>, w)
  else
    let omsr := msr s in
    let bit s f b := if tst flags f then s <| msr := u8 (msr s .| b) |>
                     else s <| msr := u8 (msr s .& ~~ b) |> in
    let s := bit s CHR_TIOCM_CTS UART_MSR_CTS in
    let s := bit s CHR_TIOCM_DSR UART_MSR_DSR in
    let s := bit s CHR_TIOCM_CAR UART_MSR_DCD in
    let s := bit s CHR_TIOCM_RI UART_MSR_RI in
    let '(s, w) :=
      if negb (msr s =? omsr) then
        (* Set delta bits *)
        let s := s <| msr := u8 (msr s .| ((msr s >> 4) .^ (omsr >> 4))) |> in
        (* UART_MSR_TERI only if change was from 1 -> 0 *)
        let s := if tst (msr s) UART_MSR_TERI && negb (tst omsr UART_MSR_RI)
                 then s <| msr := u8 (msr s .& ~~ UART_MSR_TERI) |> else s in
        serial_update_irq s w
      else (s, w) in
    if truthy (poll_msl s)
    then (s <| modem_status_poll := Some (now + Z.quot I8254.get_ticks_per_sec 100) |>, w)
    else (s, w).

Definition serial_receive1 (now : Z) (buf : list Z) (s : SerialState) (w : W) : SerialState * W :=
  let s :=
    if tst (fcr s) UART_FCR_FE then
      let s := foldl (fun s b => fifo_put RECV_FIFO b s) s buf in
      let s := s <| lsr := u8 (lsr s .| UART_LSR_DR) |> in
      (* call the timeout receive callback in 4 char transmit time *)
      s <| fifo_timeout_timer := Some (now + char_transmit_time s * 4) |>
    else
      let s := if tst (lsr s) UART_LSR_DR then s <| lsr := u8 (lsr s .| UART_LSR_OE) |> else s in
      let s := s <| rbr := aget buf 0 |> in
      s <| lsr := u8 (lsr s .| UART_LSR_DR) |> in
  serial_update_irq s w.

(** [serial_xmit] after the byte was handled, successfully or not. *)
Definition xmit_done (now : Z) (s : SerialState) (w : W) : SerialState * W :=
  let s := s <| last_xmit_ts := now |> in
  let s := if negb (tst (lsr s) UART_LSR_THRE)
           then s <| transmit_timer := Some (last_xmit_ts s + char_transmit_time s) |> else s in
  if tst (lsr s) UART_LSR_THRE then
    let s := s <| lsr := u8 (lsr s .| UART_LSR_TEMT) |> in
    let s := s <| thr_ipending := 1 |> in
    serial_update_irq s w
  else (s, w).

Definition serial_xmit (now : Z) (s : SerialState) (w : W) : SerialState * W :=
  let new_xmit_ts := now in
  let s :=
    if tsr_retry s <=? 0 then
      if tst (fcr s) UART_FCR_FE then
        let '(c, s) := fifo_get XMIT_FIFO s in
        let s := s <| tsr := c |> in
        if count (xmit_fifo s) =? 0 then s <| lsr := u8 (lsr s .| UART_LSR_THRE) |> else s
      else
        let s := s <| tsr := thr s |> in
        s <| lsr := u8 (lsr s .| UART_LSR_THRE) |>
    else s in
  if tst (mcr s) UART_MCR_LOOP then
    (* in loopback mode, say that we just received a char *)
    let '(s, w) := serial_receive1 now [tsr s] s w in
    xmit_done now s w
  else
    let '(n, w) := qemu_chr_write (tsr s) w in
    if negb (n =? 1) then
      if (0 <? tsr_retry s) && (tsr_retry s <=? MAX_XMIT_RETRY) then
        let s := s <| tsr_retry := tsr_retry s + 1 |> in
        (s <| transmit_timer := Some (new_xmit_ts + char_transmit_time s) |>, w)
      else if poll_msl s <? 0 then
        (* drop any further failed writes instantly *)
        xmit_done now (s <| tsr_retry := -1 |>) w
      else xmit_done now s w
    else xmit_done now (s <| tsr_retry := 0 |>) w.

(** [switch (val & 0xC0)] *)
Definition trigger_level (val old : Z) : Z :=
  let v := val .& 0xC0 in
  if v =? UART_FCR_ITL_1 then 1
  else if v =? UART_FCR_ITL_2 then 4
  else if v =? UART_FCR_ITL_3 then 8
  else if v =? UART_FCR_ITL_4 then 14
  else old.

(** Port 2 of [serial_ioport_write]. *)
Definition write_fcr (val : Z) (s : SerialState) (w : W) : SerialState * W :=
  let val := val .& 0xFF in
  if fcr s =? val then (s, w)
  else
    (* Did the enable/disable flag change? If so, make sure FIFOs get flushed *)
    let val := if tst (val .^ fcr s) UART_FCR_FE then val .| (UART_FCR_XFR .| UART_FCR_RFR) else val in
    let s :=
      if tst val UART_FCR_RFR then
        let s := s <| fifo_timeout_timer := None |> in
        let s := s <| timeout_ipending := 0 |> in
        fifo_clear RECV_FIFO s
      else s in
    let s := if tst val UART_FCR_XFR then fifo_clear XMIT_FIFO s else s in
    let s :=
      if tst val UART_FCR_FE then
        let s := s <| iir := u8 (iir s .| UART_IIR_FE) |> in
        s <| recv_fifo := (recv_fifo s) <| itl := trigger_level val (itl (recv_fifo s)) |> |>
      else s <| iir := u8 (iir s .& ~~ UART_IIR_FE) |> in
    (* Set fcr - or at least the bits in it that are supposed to "stick" *)
    serial_update_irq (s <| fcr := val .& 0xC9 |>) w.

(** Port 1, the divisor latch not selected. *)
Definition write_ier (now val : Z) (s : SerialState) (w : W) : SerialState * W :=
  let s := s <| ier := val .& 0x0f |> in
  let '(s, w) :=
    if 0 <=? poll_msl s then
      if tst (ier s) UART_IER_MSI then serial_update_msl now (s <| poll_msl := 1 |>) w
      else
        let s := s <| modem_status_poll := None |> in
        (s <| poll_msl := 0 |>, w)
    else (s, w) in
  if tst (lsr s) UART_LSR_THRE then serial_update_irq (s <| thr_ipending := 1 |>) w
  else (s, w).

(** Port 3. *)
Definition write_lcr (val : Z) (s : SerialState) (w : W) : SerialState * W :=
  let s := s <| lcr := u8 val |> in
  let '(s, w) := serial_update_parameters s w in
  let break_enable := (val >> 6) .& 1 in
  if negb (break_enable =? last_break_enable s)
  then (s <| last_break_enable := break_enable |>, set_break break_enable w)
  else (s, w).

(** Port 4. *)
Definition write_mcr (now val : Z) (s : SerialState) (w : W) : SerialState * W :=
  let old_mcr := mcr s in
  let s := s <| mcr := val .& 0x1f |> in
  if tst val UART_MCR_LOOP then (s, w)
  else if (0 <=? poll_msl s) && negb (old_mcr =? mcr s) then
    let '(_, flags) := get_tiocm w in
    let flags := flags .& ~~ (CHR_TIOCM_RTS .| CHR_TIOCM_DTR) in
    let flags := if tst val UART_MCR_RTS then flags .| CHR_TIOCM_RTS else flags in
    let flags := if tst val UART_MCR_DTR then flags .| CHR_TIOCM_DTR else flags in
    let w := set_tiocm flags w in
    (s <| modem_status_poll := Some (now + char_transmit_time s) |>, w)
  else (s, w).

(** Port 0, the divisor latch not selected. *)
Definition write_thr (now val : Z) (s : SerialState) (w : W) : SerialState * W :=
  let s := s <| thr := u8 val |> in
  let '(s, w) :=
    if tst (fcr s) UART_FCR_FE then
      let s := fifo_put XMIT_FIFO (thr s) s in
      let s := s <| thr_ipending := 0 |> in
      let s := s <| lsr := u8 (lsr s .& ~~ UART_LSR_TEMT) |> in
      let s := s <| lsr := u8 (lsr s .& ~~ UART_LSR_THRE) |> in
      serial_update_irq s w
    else
      let s := s <| thr_ipending := 0 |> in
      let s := s <| lsr := u8 (lsr s .& ~~ UART_LSR_THRE) |> in
      serial_update_irq s w in
  serial_xmit now s w.

Definition serial_ioport_write (now addr val : Z) (s : SerialState) (w : W) : SerialState * W :=
  let dlab := tst (lcr s) UART_LCR_DLAB in
  match addr .& 7 with
  | 1 =>
      if dlab then
        serial_update_parameters (s <| divider := u16 ((divider s .& 0x00ff) .| (val << 8)) |>) w
      else write_ier now val s w
  | 2 => write_fcr val s w
  | 3 => write_lcr val s w
  | 4 => write_mcr now val s w
  | 5 | 6 => (s, w)
  | 7 => (s <| scr := u8 val |>, w)
  | _ =>
      if dlab then
        serial_update_parameters (s <| divider := u16 ((divider s .& 0xff00) .| val) |>) w
      else write_thr now val s w
  end.

(** The backend's deliveries during [qemu_chr_accept_input]. *)
Definition accept_input (now : Z) (s : SerialState) (w : W) : SerialState * W :=
  let '(bufs, w) := qemu_chr_accept_input s w in
  foldl (fun '(s, w) buf => serial_receive1 now buf s w) (s, w) bufs.

(** Port 0, the divisor latch not selected. *)
Definition read_rbr (now : Z) (s : SerialState) (w : W) : Z * (SerialState * W) :=
  let '(ret, s) :=
    if tst (fcr s) UART_FCR_FE then
      let '(ret, s) := fifo_get RECV_FIFO s in
      let s :=
        if count (recv_fifo s) =? 0 then s <| lsr := u8 (lsr s .& ~~ (UART_LSR_DR .| UART_LSR_BI)) |>
        else s <| fifo_timeout_timer := Some (now + char_transmit_time s * 4) |> in
      (ret, s <| timeout_ipending := 0 |>)
    else (rbr s, s <| lsr := u8 (lsr s .& ~~ (UART_LSR_DR .| UART_LSR_BI)) |>) in
  let '(s, w) := serial_update_irq s w in
  (ret, if negb (tst (mcr s) UART_MCR_LOOP) then accept_input now s w else (s, w)).

(** Port 6. *)
Definition read_msr (now : Z) (s : SerialState) (w : W) : Z * (SerialState * W) :=
  if tst (mcr s) UART_MCR_LOOP then
    (* in loopback, the modem output pins are connected to the inputs *)
    let ret := (mcr s .& 0x0c) << 4 in
    let ret := ret .| ((mcr s .& 0x02) << 3) in
    let ret := ret .| ((mcr s .& 0x01) << 5) in
    (ret, (s, w))
  else
    let '(s, w) := if 0 <=? poll_msl s then serial_update_msl now s w else (s, w) in
    let ret := msr s in
    (* Clear delta bits & msr int after read, if they were set *)
    if tst (msr s) UART_MSR_ANY_DELTA
    then (ret, serial_update_irq (s <| msr := u8 (msr s .& 0xF0) |>) w)
    else (ret, (s, w)).

Definition serial_ioport_read (now addr : Z) (s : SerialState) (w : W) : Z * (SerialState * W) :=
  let dlab := tst (lcr s) UART_LCR_DLAB in
  match addr .& 7 with
  | 1 => (if dlab then (divider s >> 8) .& 0xff else ier s, (s, w))
  | 2 =>
      let ret := iir s in
      if ret .& UART_IIR_ID =? UART_IIR_THRI
      then (ret, serial_update_irq (s <| thr_ipending := 0 |>) w)
      else (ret, (s, w))
  | 3 => (lcr s, (s, w))
  | 4 => (mcr s, (s, w))
  | 5 =>
      let ret := lsr s in
      (* Clear break and overrun interrupts *)
      if tst (lsr s) (UART_LSR_BI .| UART_LSR_OE)
      then (ret, serial_update_irq (s <| lsr := u8 (lsr s .& ~~ (UART_LSR_BI .| UART_LSR_OE)) |>) w)
      else (ret, (s, w))
  | 6 => read_msr now s w
  | 7 => (scr s, (s, w))
  | _ => if dlab then (divider s .& 0xff, (s, w)) else read_rbr now s w
  end.

Definition serial_can_receive (s : SerialState) : Z :=
  if tst (fcr s) UART_FCR_FE then
    let f := recv_fifo s in
    if count f <? UART_FIFO_LENGTH then (if count f <=? itl f then itl f - count f else 1) else 0
  else b2z (negb (tst (lsr s) UART_LSR_DR)).

Definition serial_receive_break (s : SerialState) (w : W) : SerialState * W :=
  let s := s <| rbr := 0 |> in
  (* When the LSR_DR is set a null byte is pushed into the fifo *)
  let s := fifo_put RECV_FIFO 0 s in
  let s := s <| lsr := u8 (lsr s .| (UART_LSR_BI .| UART_LSR_DR)) |> in
  serial_update_irq s w.

Definition fifo_timeout_int (s : SerialState) (w : W) : SerialState * W :=
  if truthy (count (recv_fifo s)) then serial_update_irq (s <| timeout_ipending := 1 |>) w
  else (s, w).

Definition serial_can_receive1 (s : SerialState) : Z := serial_can_receive s.

Definition serial_event (event : Z) (s : SerialState) (w : W) : SerialState * W :=
  if event =? CHR_EVENT_BREAK then serial_receive_break s w else (s, w).

Definition serial_pre_save (s : SerialState) : SerialState := s <| fcr_vmstate := fcr s |>.

Definition serial_post_load (now version_id : Z) (s : SerialState) (w : W) : SerialState * W :=
  let s := if version_id <? 3 then s <| fcr_vmstate := 0 |> else s in
  (* Initialize fcr via setter to perform essential side-effects *)
  let '(s, w) := serial_ioport_write now 0x02 (fcr_vmstate s) s w in
  serial_update_parameters s w.

Definition serial_reset (now : Z) (s : SerialState) (w : W) : SerialState * W :=
  let s := s <| rbr := 0 |> in
  let s := s <| ier := 0 |> in
  let s := s <| iir := UART_IIR_NO_INT |> in
  let s := s <| lcr := 0 |> in
  let s := s <| lsr := UART_LSR_TEMT .| UART_LSR_THRE |> in
  let s := s <| msr := UART_MSR_DCD .| UART_MSR_DSR .| UART_MSR_CTS |> in
  (* Default to 9600 baud, 1 start bit, 8 data bits, 1 stop bit, no parity. *)
  let s := s <| divider := 0x0C |> in
  let s := s <| mcr := UART_MCR_OUT2 |> in
  let s := s <| scr := 0 |> in
  let s := s <| tsr_retry := 0 |> in
  let s := s <| char_transmit_time := Z.quot I8254.get_ticks_per_sec 9600 * 10 |> in
  let s := s <| poll_msl := 0 |> in
  let s := fifo_clear RECV_FIFO s in
  let s := fifo_clear XMIT_FIFO s in
  let s := s <| last_xmit_ts := now |> in
  let s := s <| thr_ipending := 0 |> in
  let s := s <| last_break_enable := 0 |> in
  (s, qemu_irq_lower irq w).

(** Change the main reference oscillator frequency. *)
Definition serial_set_frequency (frequency : Z) (s : SerialState) (w : W) : SerialState * W :=
  serial_update_parameters (s <| baudbase := s32 frequency |>) w.

(** Memory mapped interface: the byte accessors; the wider little-endian ones
    differ in the mask only. *)
Definition serial_mm_readb (now addr : Z) (s : SerialState) (w : W) : Z * (SerialState * W) :=
  let '(v, sw) := serial_ioport_read now (addr >> it_shift s) s w in (v .& 0xFF, sw).
Definition serial_mm_writeb (now addr value : Z) (s : SerialState) (w : W) : SerialState * W :=
  serial_ioport_write now (addr >> it_shift s) (value .& 0xFF) s w.
Definition serial_mm_readw_le (now addr : Z) (s : SerialState) (w : W) : Z * (SerialState * W) :=
  let '(v, sw) := serial_ioport_read now (addr >> it_shift s) s w in (v .& 0xFFFF, sw).
Definition serial_mm_writew_le (now addr value : Z) (s : SerialState) (w : W) : SerialState * W :=
  serial_ioport_write now (addr >> it_shift s) (value .& 0xFFFF) s w.
Definition serial_mm_readl_le (now addr : Z) (s : SerialState) (w : W) : Z * (SerialState * W) :=
  serial_ioport_read now (addr >> it_shift s) s w.
Definition serial_mm_writel_le (now addr value : Z) (s : SerialState) (w : W) : SerialState * W :=
  serial_ioport_write now (addr >> it_shift s) value s w.
End UART.

(** [serial_init]: the zeroed struct of [qemu_mallocz]. *)
Definition fifo_zero : SerialFIFO := mkFifo (replicate 16 0) 0 0 0 0.
Definition serial_init (baud : Z) : SerialState :=
  mkSerial 0 0 0 0 0 0 0 0 0 0 0 0 0 0 0 0 baud 0 0 fifo_zero fifo_zero None 0 None 0 0 None.

(** ** The FIFOs *)

(** The receive FIFO never overwrites; [contents] is what it holds, oldest
    first.  The transmit FIFO has its indices in range. *)
Definition contents (f : SerialFIFO) : list Z := ring 16 (data f) (tail f) (Z.to_nat (count f)).

Record fifo_ok (f : SerialFIFO) : Prop := {
  ok_data : length (data f) = 16%nat;
  ok_count : 0 <= count f <= 16;
  ok_tail : 0 <= tail f < 16;
  ok_head : 0 <= head f < 16
}.

Definition fifo_tight (f : SerialFIFO) : Prop := head f = (tail f + count f) mod 16.

Definition fput (b : Z) (f : SerialFIFO) : SerialFIFO :=
  mkFifo (aset (data f) (head f) b) (count f + 1) (itl f) (tail f) ((head f + 1) mod 16).
Definition fpop (f : SerialFIFO) : SerialFIFO :=
  mkFifo (data f) (count f - 1) (itl f) ((tail f + 1) mod 16) (head f).

Lemma length_fifo f : fifo_ok f -> Z.of_nat (length (contents f)) = count f.
Proof. intros [_ H _ _]. unfold contents. rewrite length_ring. lia. Qed.

Lemma fput_ok b f : fifo_ok f -> count f < 16 ->
  fifo_ok (fput b f) /\ (fifo_tight f -> fifo_tight (fput b f) /\ contents (fput b f) = contents f ++ [b]).
Proof.
  intros [H1 H2 H3 H4] Hc. split.
  - constructor; cbn [fput data count tail head]; [now rewrite length_aset|lia|lia|apply Z.mod_pos_bound; lia].
  - unfold fifo_tight. intros Ht. split.
    + cbn. rewrite Ht, Zplus_mod_idemp_l. f_equal. lia.
    + unfold contents. cbn [fput data count tail head]. rewrite Ht.
      replace (Z.to_nat (count f + 1)) with (S (Z.to_nat (count f))) by (rewrite Z2Nat.inj_add by lia; lia).
      pose proof (ring_push 16 (data f) (tail f) (Z.to_nat (count f)) b ltac:(lia) ltac:(lia)) as R.
      now rewrite Z2Nat.id in R by lia.
Qed.

Lemma fpop_ok f : fifo_ok f -> 0 < count f ->
  fifo_ok (fpop f) /\ contents f = aget (data f) (tail f) :: contents (fpop f)
  /\ (fifo_tight f -> fifo_tight (fpop f)).
Proof.
  intros [H1 H2 H3 H4] Hc. split; [|split].
  - constructor; cbn [fpop data count tail head]; [done|lia|apply Z.mod_pos_bound; lia|lia].
  - unfold contents. cbn [fpop data count tail head].
    replace (Z.to_nat (count f)) with (S (Z.to_nat (count f - 1))) by lia. now apply ring_pop.
  - unfold fifo_tight. cbn. intros ->. rewrite Zplus_mod_idemp_l. f_equal. lia.
Qed.

Lemma put_recv b s : fifo_ok (recv_fifo s) ->
  fifo_put RECV_FIFO b s =
  if count (recv_fifo s) <? 16 then s <| recv_fifo := fput b (recv_fifo s) |>
  else s <| lsr := u8 (lsr s .| UART_LSR_OE) |>.
Proof.
  intros [H1 H2 H3 H4]. unfold fifo_put. change (get_fifo RECV_FIFO s) with (recv_fifo s).
  change (RECV_FIFO =? XMIT_FIFO) with false. change (RECV_FIFO =? RECV_FIFO) with true. cbn [orb].
  unfold UART_FIFO_LENGTH. destruct (Z.ltb_spec (count (recv_fifo s)) 16) as [Hc|Hc].
  - cbn [over head]. rewrite u8_id by (unfold in_u; lia). pose proof (ring_next 16 _ H4) as Hn.
    destruct (head (recv_fifo s) + 1 =? 16); cbn [over count]; destruct (Z.ltb_spec (count (recv_fifo s)) 16); try lia;
      rewrite u8_id by (unfold in_u; lia); unfold fput; rewrite <- Hn; reflexivity.
  - destruct (Z.ltb_spec (count (recv_fifo s)) 16); [lia|]. now destruct s.
Qed.

Lemma put_xmit b s : fifo_ok (xmit_fifo s) -> exists f, fifo_ok f /\
  fifo_put XMIT_FIFO b s = s <| xmit_fifo := f |>
  /\ (count (xmit_fifo s) < 16 -> f = fput b (xmit_fifo s)).
Proof.
  intros [H1 H2 H3 H4]. unfold fifo_put. change (get_fifo XMIT_FIFO s) with (xmit_fifo s).
  change (XMIT_FIFO =? XMIT_FIFO) with true. change (XMIT_FIFO =? RECV_FIFO) with false. cbn [orb].
  unfold UART_FIFO_LENGTH. cbn [over head]. rewrite u8_id by (unfold in_u; lia). pose proof (ring_next 16 _ H4) as Hn.
  assert (E : (if head (xmit_fifo s) + 1 =? 16
    then (xmit_fifo s) <| data := aset (data (xmit_fifo s)) (head (xmit_fifo s)) b |>
           <| head := head (xmit_fifo s) + 1 |> <| head := 0 |>
    else (xmit_fifo s) <| data := aset (data (xmit_fifo s)) (head (xmit_fifo s)) b |>
           <| head := head (xmit_fifo s) + 1 |>)
    = (fput b (xmit_fifo s)) <| count := count (xmit_fifo s) |>)
    by (unfold fput; rewrite <- Hn; now destruct (_ =? 16)).
  pose proof (Z.mod_pos_bound (head (xmit_fifo s) + 1) 16 ltac:(lia)).
  destruct (Z.ltb_spec (count (xmit_fifo s)) 16) as [Hc|Hc].
  - exists (fput b (xmit_fifo s)). split; [now apply fput_ok|]. split; [|done].
    rewrite E. cbn [over count fput]. destruct (Z.ltb_spec (count (xmit_fifo s)) 16); [|lia].
    rewrite u8_id by (unfold in_u; lia). reflexivity.
  - exists ((fput b (xmit_fifo s)) <| count := count (xmit_fifo s) |>). split.
    + constructor; cbn; [now rewrite length_aset|lia|lia|lia].
    + split; [|lia]. rewrite E. cbn [over count fput]. destruct (Z.ltb_spec (count (xmit_fifo s)) 16); [lia|]. reflexivity.
Qed.

Lemma get_some fifo s : fifo_ok (get_fifo fifo s) ->
  fifo_get fifo s = if count (get_fifo fifo s) =? 0 then (0, s)
    else (aget (data (get_fifo fifo s)) (tail (get_fifo fifo s)), set_fifo fifo (fpop (get_fifo fifo s)) s).
Proof.
  intros [H1 H2 H3 H4]. unfold fifo_get. destruct (Z.eqb_spec (count (get_fifo fifo s)) 0); [done|].
  set (f := get_fifo fifo s) in *. unfold UART_FIFO_LENGTH. cbn [over tail].
  rewrite (u8_id (tail f + 1)) by (unfold in_u; lia). pose proof (ring_next 16 _ H3) as Hn.
  unfold fpop. rewrite <- Hn.
  destruct (tail f + 1 =? 16); cbn [over count]; rewrite (u8_id (count f - 1)) by (unfold in_u; lia); reflexivity.
Qed.

(** ** The interrupt stays in step *)

(** What the UART needs of the machine around it: the backend does not touch
    the interrupt line, and hands over bytes. *)
Class UartLine {W : Type} (irq : qemu_irq W) (chr_write : Z -> W -> Z * W) (set_tiocm : Z -> W -> W)
    (set_params : Z -> Z -> Z -> Z -> W -> W) (set_break : Z -> W -> W)
    (accept : SerialState -> W -> list (list Z) * W) := {
  line_level : W -> Z;
  line_raise : forall w, line_level (qemu_irq_raise irq w) = 1;
  line_lower : forall w, line_level (qemu_irq_lower irq w) = 0;
  line_write : forall b w, line_level (chr_write b w).2 = line_level w;
  line_tiocm : forall f w, line_level (set_tiocm f w) = line_level w;
  line_params : forall a b c d w, line_level (set_params a b c d w) = line_level w;
  line_break : forall b w, line_level (set_break b w) = line_level w;
  line_accept : forall s w, line_level (accept s w).2 = line_level w
}.

Section Invariant.
Context {W : Type} (irq : qemu_irq W) (chr_write : Z -> W -> Z * W) (get_tiocm : W -> Z * Z)
  (set_tiocm : Z -> W -> W) (set_params : Z -> Z -> Z -> Z -> W -> W) (set_break : Z -> W -> W)
  (accept : SerialState -> W -> list (list Z) * W).
Context `{!UartLine irq chr_write set_tiocm set_params set_break accept}.

Definition core (s : SerialState) : Prop :=
  fifo_ok (recv_fifo s) /\ fifo_tight (recv_fifo s) /\ fifo_ok (xmit_fifo s)
  /\ (tsr_retry s = 0 \/ tsr_retry s = -1).

(** The identification register and the line show the pending interrupt of the
    highest priority. *)
Definition synced (s : SerialState) (w : W) : Prop :=
  iir s .& 0x0f = tmp_iir s /\ line_level w = b2z (negb (tmp_iir s =? UART_IIR_NO_INT)).

Definition inv (x : SerialState * W) : Prop := core x.1 /\ synced x.1 x.2.

Lemma tmp_iir_cases s : tmp_iir s .& 0x0f = tmp_iir s.
Proof. unfold tmp_iir. split_ifs; reflexivity. Qed.

Lemma iir_low t x : t .& 0x0f = t -> (t .| (x .& 0xF0)) .& 0x0f = t.
Proof.
  intros Ht. rewrite Z.land_lor_distr_l, <- Z.land_assoc, Ht. change (0xF0 .& 0x0f) with 0.
  now rewrite Z.land_0_r, Z.lor_0_r.
Qed.

Lemma update_inv s w : core s -> inv (serial_update_irq irq s w).
Proof.
  intros Hc. unfold serial_update_irq. set (s' := s <| iir := _ |>).
  assert (iir s' .& 0x0f = tmp_iir s') by apply iir_low, tmp_iir_cases.
  destruct (negb (tmp_iir s =? UART_IIR_NO_INT)) eqn:E; (split; [exact Hc|]); (split; [done|]);
    cbn [fst snd]; change (tmp_iir s') with (tmp_iir s); rewrite E; [apply line_raise|apply line_lower].
Qed.

Lemma params_inv s w : inv (s, w) -> inv (serial_update_parameters set_params s w).
Proof.
  intros [Hc [H1 H2]]. unfold serial_update_parameters. destruct (divider s =? 0); [done|].
  destruct (if tst (lcr s) 8 then _ else _) as [fs p]. split; [exact Hc|]. split; [exact H1|].
  cbn [snd]. rewrite line_params. exact H2.
Qed.

Lemma msl_inv now s w : inv (s, w) -> inv (serial_update_msl irq get_tiocm now s w).
Proof.
  intros [Hc [H1 H2]]. unfold serial_update_msl. destruct (get_tiocm w) as [ret flags].
  destruct (ret =? - ENOTSUP); [done|].
  set (s1 := if tst flags CHR_TIOCM_RI then _ else _).
  assert (core s1 /\ (msr s1 = msr s -> tmp_iir s1 = tmp_iir s) /\ iir s1 = iir s) as (C1 & T1 & I1).
  { unfold s1. split_ifs; (split; [exact Hc|]); (split; [|done]); intros Em; unfold tmp_iir;
      cbn [over msr ier lsr timeout_ipending fcr recv_fifo thr_ipending] in *; now rewrite Em. }
  clearbody s1.
  match goal with |- inv (let '(s, w) := ?x in _) => assert (inv x) as Hx; [|destruct x as [s2 w2]] end.
  - cbn [over msr]. destruct (Z.eqb_spec (msr s1) (msr s)) as [E|]; cbn [negb].
    + split; [done|]. unfold synced. cbn [fst snd]. rewrite T1, I1 by done. done.
    + apply update_inv. split_ifs; exact C1.
  - destruct (truthy (poll_msl s2)); exact Hx.
Qed.

Lemma foldl_put_core bs s : core s -> core (foldl (fun s b => fifo_put RECV_FIFO b s) s bs).
Proof.
  revert s. induction bs as [|b bs IH]; intros s Hc; [done|]. cbn [foldl]. apply IH.
  destruct Hc as (H1 & H2 & H3 & H4). rewrite put_recv by done.
  destruct (Z.ltb_spec (count (recv_fifo s)) 16) as [Hlt|]; [|done].
  destruct (fput_ok b _ H1 Hlt) as [F1 F2]. destruct (F2 H2) as [F3 _].
  exact (conj F1 (conj F3 (conj H3 H4))).
Qed.

Lemma receive1_inv now buf s w : core s -> inv (serial_receive1 irq now buf s w).
Proof.
  intros Hc. apply update_inv. destruct (tst (fcr s) UART_FCR_FE).
  - exact (foldl_put_core buf s Hc).
  - destruct (tst (lsr s) UART_LSR_DR); exact Hc.
Qed.

Lemma xmit_done_inv now s w : inv (s, w) -> inv (xmit_done irq now s w).
Proof.
  intros Hx. unfold xmit_done. cbn [over lsr]. destruct (tst (lsr s) UART_LSR_THRE) eqn:E; cbn [negb over lsr];
    rewrite ?E; [apply update_inv; exact (proj1 Hx)|exact Hx].
Qed.

(** Setting bits outside a mask does not show through it. *)
Lemma tst_lor_other x y m : 255 .& m = m -> y .& m = 0 -> tst (u8 (x .| y)) m = tst x m.
Proof.
  intros Hm Hy. unfold tst, u8. change 256 with (2 ^ 8). rewrite <- Z.land_ones by lia.
  change (Z.ones 8) with 255. rewrite <- Z.land_assoc, Hm, Z.land_lor_distr_l, Hy. now rewrite Z.lor_0_r.
Qed.

(** Transmission keeps the pending interrupts: only the transmit side changes. *)
Lemma tmp_iir_thre s : tmp_iir (s <| lsr := u8 (lsr s .| UART_LSR_THRE) |>) = tmp_iir s.
Proof.
  unfold tmp_iir. cbn [over ier lsr timeout_ipending fcr recv_fifo thr_ipending msr].
  now rewrite !tst_lor_other.
Qed.

Lemma get_xmit_core s : core s ->
  let '(c, s') := fifo_get XMIT_FIFO s in core s' /\ exists f, s' = s <| xmit_fifo := f |>.
Proof.
  intros (H1 & H2 & H3 & H4). rewrite get_some by done. change (get_fifo XMIT_FIFO s) with (xmit_fifo s).
  destruct (Z.eqb_spec (count (xmit_fifo s)) 0).
  - split; [done|]. exists (xmit_fifo s). now destruct s.
  - pose proof (ok_count _ H3). destruct (fpop_ok (xmit_fifo s) H3 ltac:(lia)) as [F _].
    split; [exact (conj H1 (conj H2 (conj F H4)))|]. eexists. reflexivity.
Qed.

Lemma xmit_inv now s w : inv (s, w) -> inv (serial_xmit irq chr_write now s w).
Proof.
  intros [Hc Hs]. unfold serial_xmit.
  set (s1 := if tsr_retry s <=? 0 then _ else _).
  assert (inv (s1, w)) as [Hc1 Hs1].
  { unfold s1. destruct (tsr_retry s <=? 0); [|done]. destruct (tst (fcr s) UART_FCR_FE).
    - pose proof (get_xmit_core s Hc) as L. destruct (fifo_get XMIT_FIFO s) as [c s']. destruct L as [L [f ->]].
      destruct (_ =? 0); (split; [exact L|]); [|exact Hs].
      unfold synced. cbn [fst snd]. rewrite (tmp_iir_thre (s <| xmit_fifo := f |> <| tsr := c |>)). exact Hs.
    - split; [exact Hc|]. unfold synced. cbn [fst snd]. rewrite (tmp_iir_thre (s <| tsr := thr s |>)). exact Hs. }
  clearbody s1. destruct (tst (mcr s1) UART_MCR_LOOP).
  - pose proof (receive1_inv now [tsr s1] s1 w Hc1) as R. destruct (serial_receive1 irq now [tsr s1] s1 w).
    now apply xmit_done_inv.
  - pose proof (line_write (tsr s1) w) as Hlw. destruct (chr_write (tsr s1) w) as [n w'].
    assert (inv (s1, w')) as Hi. { split; [exact Hc1|]. split; [exact (proj1 Hs1)|]. etransitivity; [exact Hlw|exact (proj2 Hs1)]. }
    destruct Hc1 as (C1 & C2 & C3 & C4). cbn [fst] in *. destruct (negb (n =? 1)).
    + destruct (Z.ltb_spec 0 (tsr_retry s1)); [destruct C4; lia|]. cbn [andb].
      destruct (poll_msl s1 <? 0); apply xmit_done_inv; [|done].
      split; [|exact (proj2 Hi)]. exact (conj C1 (conj C2 (conj C3 (or_intror eq_refl)))).
    + apply xmit_done_inv. split; [|exact (proj2 Hi)]. exact (conj C1 (conj C2 (conj C3 (or_introl eq_refl)))).
Qed.
Lemma core_itl v s : core s -> core (s <| recv_fifo := (recv_fifo s) <| itl := v |> |>).
Proof.
  intros ([] & H2 & H3 & H4). refine (conj _ (conj H2 (conj H3 H4))). now constructor.
Qed.

Lemma clear_recv_core s : core s -> core (fifo_clear RECV_FIFO s).
Proof.
  intros (H1 & H2 & H3 & H4). refine (conj _ (conj _ (conj H3 H4))); [|done]. now constructor.
Qed.

Lemma clear_xmit_core s : core s -> core (fifo_clear XMIT_FIFO s).
Proof.
  intros (H1 & H2 & H3 & H4). refine (conj H1 (conj H2 (conj _ H4))). now constructor.
Qed.

Lemma put_xmit_core b s : core s -> core (fifo_put XMIT_FIFO b s).
Proof.
  intros (H1 & H2 & H3 & H4). destruct (put_xmit b s H3) as (f & Hf & -> & _).
  exact (conj H1 (conj H2 (conj Hf H4))).
Qed.

Lemma get_recv_core s : core s ->
  core (fifo_get RECV_FIFO s).2.
Proof.
  intros (H1 & H2 & H3 & H4). rewrite get_some by exact H1. change (get_fifo RECV_FIFO s) with (recv_fifo s).
  destruct (Z.eqb_spec (count (recv_fifo s)) 0); [exact (conj H1 (conj H2 (conj H3 H4)))|].
  pose proof (ok_count _ H1). destruct (fpop_ok (recv_fifo s) H1 ltac:(lia)) as (F1 & _ & F2).
  exact (conj F1 (conj (F2 H2) (conj H3 H4))).
Qed.

Lemma write_fcr_inv val s w : inv (s, w) -> inv (write_fcr irq val s w).
Proof.
  intros Hx. unfold write_fcr. destruct (fcr s =? _); [done|]. apply update_inv.
  set (v := if tst _ UART_FCR_FE then _ else _). clearbody v.
  set (s1 := if tst v UART_FCR_RFR then _ else _).
  assert (core s1) as H1.
  { unfold s1. destruct (tst v UART_FCR_RFR); [|exact (proj1 Hx)].
    apply clear_recv_core. exact (proj1 Hx). }
  clearbody s1. set (s2 := if tst v UART_FCR_XFR then _ else _).
  assert (core s2) as H2 by (unfold s2; destruct (tst v UART_FCR_XFR); [now apply clear_xmit_core|done]).
  clearbody s2. destruct (tst v UART_FCR_FE); [|exact H2].
  exact (core_itl (trigger_level v (itl (recv_fifo s2))) _ H2).
Qed.

(** [serial_update_msl] keeps the FIFOs and leaves the line status alone. *)
Lemma msl_core now s w (x := serial_update_msl irq get_tiocm now s w) : core s -> core x.1 /\ lsr x.1 = lsr s.
Proof.
  intros Hc. subst x. unfold serial_update_msl. destruct (get_tiocm w). destruct (_ =? - ENOTSUP); [done|].
  set (s1 := if tst _ CHR_TIOCM_RI then _ else _).
  assert (core s1 /\ lsr s1 = lsr s) as H1 by (unfold s1; split_ifs; exact (conj Hc eq_refl)). clearbody s1.
  destruct (negb (msr s1 =? _)); [|destruct (truthy _); exact H1].
  set (s2 := if _ && _ then _ else _).
  assert (core s2 /\ lsr s2 = lsr s) as H2 by (unfold s2; split_ifs; exact H1). clearbody s2.
  unfold serial_update_irq. destruct (negb _), (truthy _); exact H2.
Qed.

Lemma write_ier_inv now val s w : inv (s, w) -> tst (lsr s) UART_LSR_THRE = true ->
  inv (write_ier irq get_tiocm now val s w).
Proof.
  intros Hx Ht. unfold write_ier. set (s1 := s <| ier := _ |>).
  assert (core s1) as H1 by exact (proj1 Hx).
  assert (lsr s1 = lsr s) as L1 by reflexivity. clearbody s1.
  set (x := if 0 <=? poll_msl s1 then _ else _).
  assert (core x.1 /\ lsr x.1 = lsr s) as [Hc L].
  { unfold x. destruct (0 <=? poll_msl s1); [|exact (conj H1 L1)].
    destruct (tst (ier s1) UART_IER_MSI); [|exact (conj H1 L1)].
    rewrite <- L1.
    assert (core (s1 <| poll_msl := 1 |>)) as H2 by exact H1. exact (msl_core now _ w H2). }
  destruct x as [s2 w2]. cbn [fst] in *. rewrite L, Ht. apply update_inv. exact Hc.
Qed.

Lemma write_lcr_inv val s w : inv (s, w) -> inv (write_lcr set_params set_break val s w).
Proof.
  intros Hx. unfold write_lcr.
  assert (inv (s <| lcr := u8 val |>, w)) as H1 by exact Hx.
  apply params_inv in H1. destruct (serial_update_parameters _ _ w) as [s2 w2].
  destruct (negb _); [|exact H1]. destruct H1 as [Hc [Ha Hb]]. split; [exact Hc|]. split; [exact Ha|].
  cbn [snd]. rewrite line_break. exact Hb.
Qed.

Lemma write_mcr_inv now val s w : inv (s, w) -> inv (write_mcr get_tiocm set_tiocm now val s w).
Proof.
  intros [Hc [Ha Hb]]. unfold write_mcr. destruct (tst val UART_MCR_LOOP); [exact (conj Hc (conj Ha Hb))|].
  destruct (_ && _); [|exact (conj Hc (conj Ha Hb))]. destruct (get_tiocm w).
  split; [exact Hc|]. split; [exact Ha|]. cbn [snd]. rewrite line_tiocm. exact Hb.
Qed.

Lemma write_thr_inv now val s w : inv (s, w) -> inv (write_thr irq chr_write now val s w).
Proof.
  intros [Hc _]. unfold write_thr. set (s1 := s <| thr := _ |>).
  assert (core s1) as H1 by exact Hc. clearbody s1.
  set (x := if tst (fcr s1) UART_FCR_FE then _ else _).
  assert (inv x) as Hx.
  { unfold x. destruct (tst (fcr s1) UART_FCR_FE); apply update_inv; [|exact H1].
    exact (put_xmit_core (thr s1) s1 H1). }
  destruct x. now apply xmit_inv.
Qed.

Lemma write_inv now addr val s w : inv (s, w) ->
  (addr .& 7 = 1 -> tst (lcr s) UART_LCR_DLAB = false -> tst (lsr s) UART_LSR_THRE = true) ->
  inv (serial_ioport_write irq chr_write get_tiocm set_tiocm set_params set_break now addr val s w).
Proof.
  intros Hx Hg. unfold serial_ioport_write.
  destruct (addr .& 7) as [|[[[]|[]|]|[[]|[]|]|]|];
    try (destruct (tst (lcr s) UART_LCR_DLAB); [apply params_inv; exact Hx|];
         first [now apply write_thr_inv | apply write_ier_inv; auto]);
    auto using write_fcr_inv, write_lcr_inv, write_mcr_inv.
Qed.

Lemma accept_inv now s w : inv (s, w) -> inv (accept_input irq accept now s w).
Proof.
  intros Hx. unfold accept_input. pose proof (line_accept s w) as Hl.
  destruct (accept s w) as [bufs w']. cbn [snd] in Hl.
  assert (inv (s, w')) as Hi.
  { split; [exact (proj1 Hx)|]. split; [exact (proj1 (proj2 Hx))|]. etransitivity; [exact Hl|exact (proj2 (proj2 Hx))]. }
  clear Hl Hx. revert s w' Hi. induction bufs as [|b bs IH]; intros s w' Hi; [exact Hi|].
  cbn [foldl]. pose proof (receive1_inv now b s w' (proj1 Hi)) as R.
  destruct (serial_receive1 irq now b s w'). now apply IH.
Qed.

Lemma read_rbr_inv now s w : inv (s, w) -> inv (read_rbr irq accept now s w).2.
Proof.
  intros [Hc _]. unfold read_rbr.
  set (x := if tst (fcr s) UART_FCR_FE then _ else _).
  assert (core x.2) as H1.
  { unfold x. destruct (tst (fcr s) UART_FCR_FE); [|exact Hc].
    pose proof (get_recv_core s Hc) as G. destruct (fifo_get RECV_FIFO s) as [r s1].
    destruct (_ =? 0); exact G. }
  destruct x as [ret s1]. pose proof (update_inv s1 w H1) as U.
  destruct (serial_update_irq irq s1 w) as [s2 w2]. cbn [snd].
  destruct (negb _); [now apply accept_inv|exact U].
Qed.

Lemma read_msr_inv now s w : inv (s, w) -> inv (read_msr irq get_tiocm now s w).2.
Proof.
  intros Hx. unfold read_msr. destruct (tst (mcr s) UART_MCR_LOOP); [exact Hx|].
  set (x := if 0 <=? poll_msl s then _ else _).
  assert (inv x) as H1 by (unfold x; destruct (0 <=? _); [now apply msl_inv|exact Hx]).
  destruct x as [s1 w1]. destruct (tst (msr s1) UART_MSR_ANY_DELTA); [|exact H1].
  apply update_inv. exact (proj1 H1).
Qed.

Lemma read_inv now addr s w : inv (s, w) ->
  inv (serial_ioport_read irq get_tiocm accept now addr s w).2.
Proof.
  intros Hx. unfold serial_ioport_read.
  destruct (addr .& 7) as [|[[[]|[]|]|[[]|[]|]|]|]; try exact Hx;
    try (destruct (tst (lcr s) UART_LCR_DLAB); [exact Hx|]; apply read_rbr_inv; exact Hx).
  - destruct (tst (lsr s) _); [apply update_inv; exact (proj1 Hx)|exact Hx].
  - now apply read_msr_inv.
  - destruct (_ =? UART_IIR_THRI); [apply update_inv; exact (proj1 Hx)|exact Hx].
Qed.

Lemma break_inv s w : inv (s, w) -> inv (serial_receive_break irq s w).
Proof.
  intros [Hc _]. apply update_inv. pose proof (foldl_put_core [0] (s <| rbr := 0 |>)) as F. exact (F Hc).
Qed.

Lemma timeout_inv s w : inv (s, w) -> inv (fifo_timeout_int irq s w).
Proof.
  intros Hx. unfold fifo_timeout_int. destruct (truthy _); [apply update_inv; exact (proj1 Hx)|exact Hx].
Qed.

Lemma serial_reset_inv now s w : inv (serial_reset irq now s w).
Proof.
  split; [|split; [reflexivity|exact (line_lower w)]].
  refine (conj _ (conj _ (conj _ (or_introl eq_refl)))); [|done|]; now constructor.
Qed.

(** What can happen to a UART: accesses of the guest, events of the backend,
    the three timers, a reset and a change of the oscillator.  The guest writes
    the interrupt enable register with the transmitter ready: otherwise the write
    leaves the line as it is.  The state after a migration is no such step: the
    FIFOs and the pending interrupts are not part of it. *)
Inductive serial_step : SerialState * W -> SerialState * W -> Prop :=
| step_write now addr val x :
    (addr .& 7 = 1 -> tst (lcr x.1) UART_LCR_DLAB = false -> tst (lsr x.1) UART_LSR_THRE = true) ->
    serial_step x
      (serial_ioport_write irq chr_write get_tiocm set_tiocm set_params set_break now addr val x.1 x.2)
| step_read now addr x : serial_step x (serial_ioport_read irq get_tiocm accept now addr x.1 x.2).2
| step_receive now buf x : serial_step x (serial_receive1 irq now buf x.1 x.2)
| step_event event x : serial_step x (serial_event irq event x.1 x.2)
| step_timeout x : serial_step x (fifo_timeout_int irq x.1 x.2)
| step_xmit now x : serial_step x (serial_xmit irq chr_write now x.1 x.2)
| step_msl now x : serial_step x (serial_update_msl irq get_tiocm now x.1 x.2)
| step_reset now x : serial_step x (serial_reset irq now x.1 x.2)
| step_frequency f x : serial_step x (serial_set_frequency set_params f x.1 x.2).

Lemma serial_step_inv x y : inv x -> serial_step x y -> inv y.
Proof.
  intros Hx Hs. destruct Hs; destruct x as [s w]; cbn [fst snd] in *;
    eauto using write_inv, read_inv, timeout_inv, xmit_inv, msl_inv, serial_reset_inv.
  - apply receive1_inv. exact (proj1 Hx).
  - unfold serial_event. destruct (_ =? _); [now apply break_inv|exact Hx].
  - unfold serial_set_frequency. apply params_inv. exact Hx.
Qed.


(** ** Loopback *)

(** The guest writes [bs] to the transmit register, and reads the receive
    register [n] times: the values and the state after them. *)
Definition write_all (now : Z) (bs : list Z) (x : SerialState * W) : SerialState * W :=
  foldl (fun '(s, w) b =>
    serial_ioport_write irq chr_write get_tiocm set_tiocm set_params set_break now 0 b s w) x bs.
Fixpoint read_n (n : nat) (now : Z) (x : SerialState * W) : list Z * (SerialState * W) :=
  match n with
  | O => ([], x)
  | S n =>
      let '(v, x) := serial_ioport_read irq get_tiocm accept now 0 x.1 x.2 in
      let '(l, x) := read_n n now x in (v :: l, x)
  end.

(** 8N1, loopback on, FIFOs enabled and cleared. *)
Definition loopback_setup (now : Z) (s : SerialState) (w : W) : SerialState * W :=
  let out := serial_ioport_write irq chr_write get_tiocm set_tiocm set_params set_break now in
  let '(s, w) := out 3 0x03 s w in
  let '(s, w) := out 4 0x10 s w in
  out 2 0x07 s w.

Definition looped (s : SerialState) : Prop :=
  core s /\ fifo_tight (xmit_fifo s) /\ count (xmit_fifo s) = 0
  /\ tst (fcr s) UART_FCR_FE = true /\ tst (mcr s) UART_MCR_LOOP = true /\ tst (lcr s) UART_LCR_DLAB = false.

Lemma update_fst s w : exists v, (serial_update_irq irq s w).1 = s <| iir := v |>.
Proof. unfold serial_update_irq. destruct (negb _); eexists; reflexivity. Qed.

Lemma looped_iir v s : looped s -> looped (s <| iir := v |>).
Proof. exact id. Qed.

Lemma dr_cleared x : tst (u8 (x .& ~~ (UART_LSR_DR .| UART_LSR_BI))) UART_LSR_DR = false.
Proof. change UART_LSR_DR with (1 << 0) at 2. rewrite tst_bit by lia. unfold u8. change 256 with (2 ^ 8). rewrite Z.mod_pow2_bits_low by lia. rewrite Z.land_spec. apply andb_false_r. Qed.

Lemma read_looped now s w b bs : looped s -> contents (recv_fifo s) = b :: bs ->
  let x := serial_ioport_read irq get_tiocm accept now 0 s w in
  x.1 = b /\ looped x.2.1 /\ contents (recv_fifo x.2.1) = bs /\ tst (lsr x.2.1) UART_LSR_DR = match bs with [] => false | _ => tst (lsr s) UART_LSR_DR end.
Proof.
  intros (Hc & Ht & Hz & Hf & Hm & Hl) Hb. unfold serial_ioport_read, read_rbr. rewrite Hl, Hf.
  destruct Hc as (H1 & H2 & H3 & H4). rewrite get_some by exact H1.
  change (get_fifo RECV_FIFO s) with (recv_fifo s).
  pose proof (length_fifo _ H1) as Hlen. rewrite Hb in Hlen. cbn [length] in Hlen.
  destruct (Z.eqb_spec (count (recv_fifo s)) 0) as [E|_]; [lia|].
  destruct (fpop_ok (recv_fifo s) H1 ltac:(lia)) as (F1 & F2 & F3). specialize (F3 H2).
  rewrite Hb in F2. injection F2 as <- Hbs.
  change (set_fifo RECV_FIFO (fpop (recv_fifo s)) s) with (s <| recv_fifo := fpop (recv_fifo s) |>).
  set (s1 := if _ =? 0 then _ else _).
  assert (tst (lsr s1) UART_LSR_DR = match bs with [] => false | _ => tst (lsr s) UART_LSR_DR end) as D1.
  { pose proof (length_fifo _ F1) as Hl1. rewrite <- Hbs in Hl1. unfold s1. destruct bs as [|b' bs']; cbn [length] in Hl1.
    - destruct (Z.eqb_spec (count (recv_fifo (s <| recv_fifo := fpop (recv_fifo s) |>))) 0) as [|N]; [apply dr_cleared|]. change (count (fpop (recv_fifo s)) <> 0) in N. lia.
    - destruct (Z.eqb_spec (count (recv_fifo (s <| recv_fifo := fpop (recv_fifo s) |>))) 0) as [N|]; [|reflexivity]. change (count (fpop (recv_fifo s)) = 0) in N. lia. }
  assert (looped s1 /\ contents (recv_fifo s1) = bs) as [L1 C1].
  { unfold s1. assert (core (s <| recv_fifo := fpop (recv_fifo s) |>)) as Hc
      by exact (conj F1 (conj F3 (conj H3 H4))).
    destruct (_ =? 0); exact (conj (conj Hc (conj Ht (conj Hz (conj Hf (conj Hm Hl))))) (eq_sym Hbs)). }
  clearbody s1. set (s2 := s1 <| timeout_ipending := 0 |>).
  destruct (update_fst s2 w) as [v Hv]. destruct (serial_update_irq irq s2 w) as [s3 w3].
  cbn [fst] in Hv. subst s3. cbn [fst snd].
  replace (tst (mcr (s2 <| iir := v |>)) UART_MCR_LOOP) with true by (symmetry; apply L1).
  exact (conj eq_refl (conj L1 (conj C1 D1))).
Qed.

(** [serial_receive1] of one byte with room in the FIFO. *)
Lemma receive_looped now b s w : looped s -> count (recv_fifo s) < 16 ->
  let s' := (serial_receive1 irq now [b] s w).1 in
  looped s' /\ contents (recv_fifo s') = contents (recv_fifo s) ++ [b].
Proof.
  intros ((H1 & H2 & H3 & H4) & Ht & Hz & Hf & Hm & Hl) Hr. cbv zeta. unfold serial_receive1. rewrite Hf.
  cbn [foldl]. rewrite put_recv by exact H1. destruct (Z.ltb_spec (count (recv_fifo s)) 16); [|lia].
  destruct (fput_ok b _ H1 Hr) as [F1 F2]. destruct (F2 H2) as [F3 F4].
  set (s1 := s <| recv_fifo := fput b (recv_fifo s) |>).
  assert (looped s1) as L by exact (conj (conj F1 (conj F3 (conj H3 H4))) (conj Ht (conj Hz (conj Hf (conj Hm Hl))))).
  set (s2 := s1 <| lsr := _ |> <| fifo_timeout_timer := _ |>).
  destruct (update_fst s2 w) as [v ->]. exact (conj L F4).
Qed.

Lemma xmit_done_fst now s w : exists t l p v,
  (xmit_done irq now s w).1 = s <| last_xmit_ts := now |> <| transmit_timer := t |> <| lsr := l |>
    <| thr_ipending := p |> <| iir := v |>.
Proof.
  unfold xmit_done. cbn [over lsr]. destruct (tst (lsr s) UART_LSR_THRE) eqn:E; cbn [negb over lsr]; rewrite ?E.
  - match goal with |- context [serial_update_irq irq ?x w] => destruct (update_fst x w) as [v ->] end.
    exists (transmit_timer s), (u8 (lsr s .| UART_LSR_TEMT)), 1, v. reflexivity.
  - exists (Some (now + char_transmit_time s)), (lsr s), (thr_ipending s), (iir s). reflexivity.
Qed.

(** A pending byte in loopback mode goes to the receive FIFO. *)
Lemma xmit_looped now b s w : core s -> fifo_tight (xmit_fifo s) -> contents (xmit_fifo s) = [b] ->
  tst (fcr s) UART_FCR_FE = true -> tst (mcr s) UART_MCR_LOOP = true -> tst (lcr s) UART_LCR_DLAB = false ->
  count (recv_fifo s) < 16 ->
  let s' := (serial_xmit irq chr_write now s w).1 in
  looped s' /\ contents (recv_fifo s') = contents (recv_fifo s) ++ [b].
Proof.
  intros (H1 & H2 & H3 & H4) Ht Hb Hf Hm Hl Hr. unfold serial_xmit.
  destruct (Z.leb_spec (tsr_retry s) 0); [|lia]. rewrite Hf, get_some by exact H3.
  change (get_fifo XMIT_FIFO s) with (xmit_fifo s).
  pose proof (length_fifo _ H3) as Hlen. rewrite Hb in Hlen. cbn [length] in Hlen.
  destruct (Z.eqb_spec (count (xmit_fifo s)) 0) as [E|_]; [lia|].
  destruct (fpop_ok (xmit_fifo s) H3 ltac:(lia)) as (F1 & F2 & F3). specialize (F3 Ht).
  rewrite Hb in F2. injection F2 as <- _.
  assert (count (fpop (xmit_fifo s)) = 0) as Hz by (cbn; lia).
  change (set_fifo XMIT_FIFO (fpop (xmit_fifo s)) s) with (s <| xmit_fifo := fpop (xmit_fifo s) |>).
  cbn [over xmit_fifo]. rewrite Hz. cbn [Z.eqb].
  match goal with |- context [if tst (mcr ?x) UART_MCR_LOOP then _ else _] => set (s1 := x) end.
  assert (looped s1) as L1
    by exact (conj (conj H1 (conj H2 (conj F1 H4))) (conj F3 (conj Hz (conj Hf (conj Hm Hl))))).
  change (mcr s1) with (mcr s). rewrite Hm. change (tsr s1) with b.
  change (recv_fifo s) with (recv_fifo s1) in Hr |- *. clearbody s1.
  destruct (receive_looped now b s1 w L1 Hr) as [L2 C2].
  destruct (serial_receive1 irq now [b] s1 w) as [s2 w2].
  destruct (xmit_done_fst now s2 w2) as (t & l & p & v & ->). exact (conj L2 C2).
Qed.

Lemma write_looped now b s w : looped s -> count (recv_fifo s) < 16 -> in_u 8 b ->
  let s' := (serial_ioport_write irq chr_write get_tiocm set_tiocm set_params set_break now 0 b s w).1 in
  looped s' /\ contents (recv_fifo s') = contents (recv_fifo s) ++ [b].
Proof.
  intros ((H1 & H2 & H3 & H4) & Ht & Hz & Hf & Hm & Hl) Hr Hb. unfold serial_ioport_write, write_thr. cbv zeta.
  rewrite Hl, (u8_id b) by done. change (tst (fcr (s <| thr := b |>)) UART_FCR_FE) with (tst (fcr s) UART_FCR_FE).
  rewrite Hf. change (0 .& 7) with 0. cbv iota.
  match goal with |- context [fifo_put XMIT_FIFO ?c ?x] => destruct (put_xmit c x H3) as (f & Hok & -> & Hput) end.
  rewrite Hput by (change (count (xmit_fifo s) < 16); lia).
  destruct (fput_ok b (xmit_fifo s) H3 ltac:(lia)) as [F1 F2]. destruct (F2 Ht) as [F3 F4].
  assert (contents (xmit_fifo s) = []) as E0 by (unfold contents; now rewrite Hz).
  rewrite E0 in F4.
  match goal with |- context [serial_update_irq irq ?x w] => set (s1 := x) end.
  destruct (update_fst s1 w) as [v Hv]. destruct (serial_update_irq irq s1 w) as [s2 w2].
  cbn [fst] in Hv. subst s2.
  exact (xmit_looped now b (s1 <| iir := v |>) w2 (conj H1 (conj H2 (conj F1 H4))) F3 F4 Hf Hm Hl Hr).
Qed.

Lemma write_all_looped now bs s w : looped s -> count (recv_fifo s) + Z.of_nat (length bs) <= 16 ->
  Forall (in_u 8) bs ->
  let s' := (write_all now bs (s, w)).1 in
  looped s' /\ contents (recv_fifo s') = contents (recv_fifo s) ++ bs.
Proof.
  revert s w. induction bs as [|b bs IH]; intros s w L Hc Hb; cbn [write_all foldl].
  - cbn. now rewrite app_nil_r.
  - apply List.Forall_cons_iff in Hb as [Hb Hbs]. cbn [length] in Hc.
    destruct (write_looped now b s w L ltac:(lia) Hb) as [L1 C1].
    destruct (serial_ioport_write _ _ _ _ _ _ now 0 b s w) as [s1 w1]. cbn [fst] in *.
    pose proof (length_fifo _ (proj1 (proj1 L))) as N. pose proof (length_fifo _ (proj1 (proj1 L1))) as N1.
    rewrite C1, length_app in N1. cbn [length] in N1.
    destruct (IH s1 w1 L1 ltac:(lia) Hbs) as [L2 C2]. split; [exact L2|].
    etransitivity; [exact C2|]. rewrite C1, <- app_assoc. reflexivity.
Qed.

Lemma read_n_looped now bs s w (r := read_n (length bs) now (s, w)) : looped s -> contents (recv_fifo s) = bs ->
  r.1 = bs /\ contents (recv_fifo r.2.1) = [] /\ (bs <> [] \/ tst (lsr s) UART_LSR_DR = false -> tst (lsr r.2.1) UART_LSR_DR = false).
Proof.
  subst r. revert s w. induction bs as [|b bs IH]; intros s w L C; [split; [done|]; split; [exact C|]; now intros [[]|]|]. cbn [length read_n fst snd].
  destruct (read_looped now s w b bs L C) as (R1 & R2 & R3 & R4).
  destruct (serial_ioport_read irq get_tiocm accept now 0 s w) as [v [s1 w1]]. cbn [fst snd] in *.
  destruct (IH s1 w1 R2 R3) as (I1 & I2 & I3). destruct (read_n (length bs) now (s1, w1)) as [l x]. cbn [fst snd] in *.
  subst v l. split; [done|]. split; [exact I2|]. intros _. apply I3. destruct bs; [now right|now left].
Qed.

Lemma params_fst s w : exists t, (serial_update_parameters set_params s w).1 = s <| char_transmit_time := t |>.
Proof.
  unfold serial_update_parameters. destruct (divider s =? 0); [exists (char_transmit_time s); now destruct s|].
  destruct (if tst (lcr s) 8 then _ else _). eexists. reflexivity.
Qed.

Lemma write_lcr_fst val s w : exists t b,
  (write_lcr set_params set_break val s w).1
  = s <| lcr := u8 val |> <| char_transmit_time := t |> <| last_break_enable := b |>.
Proof.
  unfold write_lcr. destruct (params_fst (s <| lcr := u8 val |>) w) as [t Ht].
  destruct (serial_update_parameters _ _ w) as [s1 w1]. cbn [fst] in Ht. subst s1.
  destruct (negb _); [eexists t, _; reflexivity|]. exists t, (last_break_enable s). reflexivity.
Qed.

Definition emptied (f : SerialFIFO) : SerialFIFO := mkFifo (replicate 16 0) 0 (itl f) 0 0.

Lemma clear_recv s : fifo_clear RECV_FIFO s = s <| recv_fifo := emptied (recv_fifo s) |>.
Proof. reflexivity. Qed.

Lemma clear_xmit s : fifo_clear XMIT_FIFO s = s <| xmit_fifo := emptied (xmit_fifo s) |>.
Proof. reflexivity. Qed.

Lemma write_fcr_7 s w : fcr s <> 7 -> exists v,
  (write_fcr irq 7 s w).1 = s <| fifo_timeout_timer := None |> <| timeout_ipending := 0 |>
    <| recv_fifo := mkFifo (replicate 16 0) 0 1 0 0 |> <| xmit_fifo := emptied (xmit_fifo s) |>
    <| fcr := 1 |> <| iir := v |>.
Proof.
  intros Hne. unfold write_fcr. change (7 .& 0xFF) with 7. destruct (Z.eqb_spec (fcr s) 7); [done|].
  set (v := if tst _ UART_FCR_FE then _ else _).
  assert (v = 7) as -> by (unfold v; destruct (tst _ UART_FCR_FE); reflexivity).
  change (tst 7 UART_FCR_RFR) with true. change (tst 7 UART_FCR_XFR) with true. change (tst 7 UART_FCR_FE) with true.
  cbv iota. rewrite clear_recv, clear_xmit.
  match goal with |- context [serial_update_irq irq ?x w] => destruct (update_fst x w) as [i ->] end.
  exists i. reflexivity.
Qed.

Lemma setup_eq now s w : loopback_setup now s w =
  let '(s, w) := write_lcr set_params set_break 3 s w in write_fcr irq 7 (s <| mcr := 16 |>) w.
Proof.
  unfold loopback_setup.
  assert (forall s w, serial_ioport_write irq chr_write get_tiocm set_tiocm set_params set_break now 3 3 s w
    = write_lcr set_params set_break 3 s w) as -> by reflexivity.
  destruct (write_lcr set_params set_break 3 s w) as [s1 w1].
  assert (serial_ioport_write irq chr_write get_tiocm set_tiocm set_params set_break now 4 16 s1 w1
    = (s1 <| mcr := 16 |>, w1)) as -> by reflexivity.
  reflexivity.
Qed.

Lemma cleared_looped s v : core s -> tst (mcr s) UART_MCR_LOOP = true -> tst (lcr s) UART_LCR_DLAB = false ->
  let s' := s <| fifo_timeout_timer := None |> <| timeout_ipending := 0 |>
    <| recv_fifo := mkFifo (replicate 16 0) 0 1 0 0 |> <| xmit_fifo := emptied (xmit_fifo s) |>
    <| fcr := 1 |> <| iir := v |> in
  looped s' /\ contents (recv_fifo s') = [] /\ count (recv_fifo s') = 0.
Proof.
  intros (H1 & H2 & H3 & H4) Hm Hl. unfold looped, core.
  split_and!; try exact H4; try exact Hm; try exact Hl; try reflexivity; now constructor.
Qed.

Lemma setup_looped now s w : core s -> fcr s .& 6 = 0 ->
  let s' := (loopback_setup now s w).1 in looped s' /\ contents (recv_fifo s') = [] /\ count (recv_fifo s') = 0.
Proof.
  intros Hc Hf. cbv zeta. rewrite setup_eq.
  destruct (write_lcr_fst 3 s w) as (t & b & Ht). destruct (write_lcr set_params set_break 3 s w) as [s1 w1].
  cbn [fst] in Ht.
  assert (core s1 /\ fcr s1 = fcr s /\ lcr s1 = 3) as (C1 & F1 & L1) by (subst s1; exact (conj Hc (conj eq_refl eq_refl))).
  clear Ht. destruct (write_fcr_7 (s1 <| mcr := 16 |>) w1) as [v Hv].
  { change (fcr s1 <> 7). intros E. rewrite <- F1, E in Hf. discriminate. }
  rewrite Hv. apply cleared_looped; [exact C1|reflexivity|].
  change (tst (lcr s1) UART_LCR_DLAB = false). now rewrite L1.
Qed.

Lemma loopback_all now bs s w (r := read_n (length bs) now (write_all now bs (loopback_setup now s w))) :
  core s -> fcr s .& 6 = 0 -> (length bs <= 16)%nat -> Forall (in_u 8) bs ->
  r.1 = bs /\ contents (recv_fifo r.2.1) = [] /\ (bs <> [] -> tst (lsr r.2.1) UART_LSR_DR = false).
Proof.
  intros Hc Hf Hn Hb. destruct (setup_looped now s w Hc Hf) as (L & C & Z0).
  destruct (loopback_setup now s w) as [s1 w1]. cbn [fst] in *.
  destruct (write_all_looped now bs s1 w1 L ltac:(lia) Hb) as [L2 C2]. rewrite C in C2.
  unfold r. clear r. destruct (write_all now bs (s1, w1)) as [s2 w2]. destruct (read_n_looped now bs s2 w2 L2 C2) as (R1 & R2 & R3). split_and!; auto.
Qed.

(** C29: the loopback self-test of a driver: from every state that keeps the
    invariant, with no clear bit in the FIFO control register (the code stores
    none), after selecting 8N1, loopback and cleared FIFOs, up to sixteen bytes
    written to the transmit register are read back from the receive register in
    order; then the FIFO is empty, and if there was a byte, the data-ready flag
    is clear. *)
Theorem serial_loopback_roundtrip now bs s w :
  inv (s, w) -> fcr s .& 6 = 0 -> (length bs <= 16)%nat -> Forall (in_u 8) bs ->
  let r := read_n (length bs) now (write_all now bs (loopback_setup now s w)) in
  r.1 = bs /\ contents (recv_fifo r.2.1) = [] /\ (bs <> [] -> tst (lsr r.2.1) UART_LSR_DR = false).
Proof. intros Hi. apply loopback_all. exact (proj1 Hi). Qed.
End Invariant.

(** A UART whose world is the level of its line. *)
Definition wire : qemu_irq Z := Some (mkIRQ (fun _ level _ => level) 0).

#[export] Instance wire_line : UartLine wire (fun _ w => (1, w)) (fun _ w => w) (fun _ _ _ _ w => w)
  (fun _ w => w) (fun _ w => ([], w)).
Proof. now refine {| line_level := fun w => w |}. Defined.


Lemma serial_loopback_witness :
  let r := read_n wire (fun _ => (- ENOTSUP, 0)) (fun _ w => ([], w)) 3 0
    (write_all wire (fun _ w => (1, w)) (fun _ => (- ENOTSUP, 0)) (fun _ w => w) (fun _ _ _ _ w => w) (fun _ w => w)
       0 [0x41; 0x42; 0xff]
       (loopback_setup wire (fun _ w => (1, w)) (fun _ => (- ENOTSUP, 0)) (fun _ w => w) (fun _ _ _ _ w => w)
          (fun _ w => w) 0 (serial_reset wire 0 (serial_init 115200) 0).1 0)) in
  r.1 = [0x41; 0x42; 0xff] /\ tst (lsr r.2.1) UART_LSR_DR = false.
Proof.
  intros r. set (s0 := (serial_reset wire 0 (serial_init 115200) 0).1) in *.
  assert (inv wire (fun _ w => (1, w)) (fun _ w => w) (fun _ _ _ _ w => w) (fun _ w => w) (fun _ w => ([], w)) (s0, 0)) as Hi
    by exact (serial_reset_inv wire (fun _ w => (1, w)) (fun _ w => w) (fun _ _ _ _ w => w) (fun _ w => w) (fun _ w => ([], w)) 0 (serial_init 115200) 0).
  assert (fcr s0 .& 6 = 0) as Hf by reflexivity. assert (length [0x41; 0x42; 0xff] <= 16)%nat as Hn by (cbn; lia).
  assert (Forall (in_u 8) [0x41; 0x42; 0xff]) as Hb by (repeat constructor; done).
  destruct (serial_loopback_roundtrip wire (fun _ w => (1, w)) (fun _ => (- ENOTSUP, 0)) (fun _ w => w)
    (fun _ _ _ _ w => w) (fun _ w => w) (fun _ w => ([], w)) 0 [0x41; 0x42; 0xff] s0 0 Hi Hf Hn Hb) as (R1 & _ & R2).
  split; [exact R1|]. apply R2. discriminate.
Defined.

(** The interrupt enable register written while the transmitter is busy: the
    interrupt it masks stays asserted. *)
Example serial_mask_while_busy :
  let s := (serial_init 115200) <| ier := UART_IER_RDI |> <| lsr := UART_LSR_DR |> in
  let '(s, w) := serial_update_irq wire s 0 in
  let '(s', w') := serial_ioport_write wire (fun _ w => (1, w)) (fun _ => (- ENOTSUP, 0)) (fun _ w => w)
    (fun _ _ _ _ w => w) (fun _ w => w) 0 1 0 s w in
  tmp_iir s' = UART_IIR_NO_INT /\ w' = 1 /\ iir s' = UART_IIR_RDI.
Proof. vm_compute. repeat split. Qed.

End Serial.
