(* ===== verification/X86Cpu.v ===== *)
(** * The i386 CPU: state, lazy flags and rotates

    target-i386/cpu.h, exec.h, helper_template.h and the flag part of
    op_helper.c, for the target of this build (i386-softmmu: [target_ulong] is
    32 bits).  [CPUX86State] has the fields of the struct of that name that the
    modelled helpers use.

    The translator does not compute the arithmetic flags: it stores the kind of
    the last operation in [cc_op] and its operands in [cc_src] and [cc_dst], and
    the functions here recover the flags when an instruction needs them.  The
    template of helper_template.h is instantiated for 8, 16 and 32 bits; here
    its [DATA_BITS] is an argument. *)

From S2P Require Import Prelude.

Module X86.

(** cpu.h: flags *)
Definition CC_C : Z := 0x0001.
Definition CC_P : Z := 0x0004.
Definition CC_A : Z := 0x0010.
Definition CC_Z : Z := 0x0040.
Definition CC_S : Z := 0x0080.
Definition CC_O : Z := 0x0800.
Definition TF_MASK : Z := 0x00000100.
Definition IF_MASK : Z := 0x00000200.
Definition DF_MASK : Z := 0x00000400.
Definition IOPL_MASK : Z := 0x00003000.
Definition NT_MASK : Z := 0x00004000.
Definition RF_MASK : Z := 0x00010000.
Definition VM_MASK : Z := 0x00020000.
Definition AC_MASK : Z := 0x00040000.
Definition ID_MASK : Z := 0x00200000.
Definition HF2_NMI_MASK : Z := 1 << 2.

(** cpu.h: registers *)
Definition R_EAX : Z := 0.
Definition R_ECX : Z := 1.
Definition R_EDX : Z := 2.
Definition R_EBX : Z := 3.
Definition R_ESP : Z := 4.
Definition R_CS : Z := 1.
Definition R_SS : Z := 2.

(** cpu.h: exceptions *)
Definition EXCP00_DIVZ : Z := 0.
Definition EXCP04_INTO : Z := 4.
Definition EXCP05_BOUND : Z := 5.
Definition EXCP08_DBLE : Z := 8.
Definition EXCP0D_GPF : Z := 13.
Definition EXCP0E_PAGE : Z := 14.
(** cpu-defs.h *)
Definition EXCP_HLT : Z := 0x10001.

Inductive CC_OP :=
| CC_OP_DYNAMIC | CC_OP_EFLAGS
| CC_OP_MULB | CC_OP_MULW | CC_OP_MULL | CC_OP_MULQ
| CC_OP_ADDB | CC_OP_ADDW | CC_OP_ADDL | CC_OP_ADDQ
| CC_OP_ADCB | CC_OP_ADCW | CC_OP_ADCL | CC_OP_ADCQ
| CC_OP_SUBB | CC_OP_SUBW | CC_OP_SUBL | CC_OP_SUBQ
| CC_OP_SBBB | CC_OP_SBBW | CC_OP_SBBL | CC_OP_SBBQ
| CC_OP_LOGICB | CC_OP_LOGICW | CC_OP_LOGICL | CC_OP_LOGICQ
| CC_OP_INCB | CC_OP_INCW | CC_OP_INCL | CC_OP_INCQ
| CC_OP_DECB | CC_OP_DECW | CC_OP_DECL | CC_OP_DECQ
| CC_OP_SHLB | CC_OP_SHLW | CC_OP_SHLL | CC_OP_SHLQ
| CC_OP_SARB | CC_OP_SARW | CC_OP_SARL | CC_OP_SARQ
| CC_OP_NB.

#[global] Instance CC_OP_dec : EqDecision CC_OP.
Proof. solve_decision. Defined.

Record SegmentCache := mkSeg {
  selector : Z;
  base : Z;
  limit : Z;
  flags : Z
}.

#[export] Instance SegmentCache_eta : Eta SegmentCache := fun s =>
  mkSeg (selector s) (base s) (limit s) (flags s).

Record CPUX86State := mkCPU {
  regs : list Z;               (* CPU_NB_REGS of target_ulong *)
  eip : Z;
  eflags : Z;
  cc_src : Z;
  cc_dst : Z;
  cc_op : CC_OP;
  df : Z;                      (* 1 if D = 0, -1 if D = 1 *)
  hflags : Z;                  (* the HF_xxx flags *)
  hflags2 : Z;
  segs : list SegmentCache;
  ldt : SegmentCache;
  tr : SegmentCache;
  gdt : SegmentCache;
  idt : SegmentCache;
  cr : list Z;
  a20_mask : Z;
  cc_tmp : Z;
  sysenter_cs : Z;
  sysenter_esp : Z;
  sysenter_eip : Z;
  efer : Z;
  error_code : Z;
  exception_is_int : Z;
  exception_next_eip : Z;
  dr : list Z;
  exception_index : Z;
  old_exception : Z;           (* exception in flight *)
  cpuid_features : Z
}.

#[export] Instance CPUX86State_eta : Eta CPUX86State := fun s =>
  mkCPU (regs s) (eip s) (eflags s) (cc_src s) (cc_dst s) (cc_op s) (df s) (hflags s) (hflags2 s) (segs s)
    (ldt s) (tr s) (gdt s) (idt s) (cr s) (a20_mask s) (cc_tmp s) (sysenter_cs s) (sysenter_esp s) (sysenter_eip s) (efer s)
    (error_code s) (exception_is_int s) (exception_next_eip s) (dr s) (exception_index s) (old_exception s) (cpuid_features s).

Definition reg (r : Z) (env : CPUX86State) : Z := aget (regs env) r.
Definition set_reg (r v : Z) (env : CPUX86State) : CPUX86State :=
  env <| regs := aset (regs env) r (u32 v) |>.

Definition seg_zero : SegmentCache := mkSeg 0 0 0 0.
Definition seg (r : Z) (env : CPUX86State) : SegmentCache := nth (Z.to_nat r) (segs env) seg_zero.
Definition set_seg (r : Z) (c : SegmentCache) (env : CPUX86State) : CPUX86State :=
  env <| segs := <[Z.to_nat r := c]> (segs env) |>.

(** A helper returns or raises an exception (it leaves through
    [cpu_loop_exit]). *)
Inductive cpu_result (A : Type) : Type :=
| Ret (a : A)
| Exc (env : CPUX86State).
Arguments Ret {A} a.
Arguments Exc {A} env.

(** ** Tables *)

Definition parity_table : list Z :=
  [ CC_P; 0; 0; CC_P; 0; CC_P; CC_P; 0;
    0; CC_P; CC_P; 0; CC_P; 0; 0; CC_P;
    0; CC_P; CC_P; 0; CC_P; 0; 0; CC_P;
    CC_P; 0; 0; CC_P; 0; CC_P; CC_P; 0;
    0; CC_P; CC_P; 0; CC_P; 0; 0; CC_P;
    CC_P; 0; 0; CC_P; 0; CC_P; CC_P; 0;
    CC_P; 0; 0; CC_P; 0; CC_P; CC_P; 0;
    0; CC_P; CC_P; 0; CC_P; 0; 0; CC_P;
    0; CC_P; CC_P; 0; CC_P; 0; 0; CC_P;
    CC_P; 0; 0; CC_P; 0; CC_P; CC_P; 0;
    CC_P; 0; 0; CC_P; 0; CC_P; CC_P; 0;
    0; CC_P; CC_P; 0; CC_P; 0; 0; CC_P;
    CC_P; 0; 0; CC_P; 0; CC_P; CC_P; 0;
    0; CC_P; CC_P; 0; CC_P; 0; 0; CC_P;
    0; CC_P; CC_P; 0; CC_P; 0; 0; CC_P;
    CC_P; 0; 0; CC_P; 0; CC_P; CC_P; 0;
    0; CC_P; CC_P; 0; CC_P; 0; 0; CC_P;
    CC_P; 0; 0; CC_P; 0; CC_P; CC_P; 0;
    CC_P; 0; 0; CC_P; 0; CC_P; CC_P; 0;
    0; CC_P; CC_P; 0; CC_P; 0; 0; CC_P;
    CC_P; 0; 0; CC_P; 0; CC_P; CC_P; 0;
    0; CC_P; CC_P; 0; CC_P; 0; 0; CC_P;
    0; CC_P; CC_P; 0; CC_P; 0; 0; CC_P;
    CC_P; 0; 0; CC_P; 0; CC_P; CC_P; 0;
    CC_P; 0; 0; CC_P; 0; CC_P; CC_P; 0;
    0; CC_P; CC_P; 0; CC_P; 0; 0; CC_P;
    0; CC_P; CC_P; 0; CC_P; 0; 0; CC_P;
    CC_P; 0; 0; CC_P; 0; CC_P; CC_P; 0;
    0; CC_P; CC_P; 0; CC_P; 0; 0; CC_P;
    CC_P; 0; 0; CC_P; 0; CC_P; CC_P; 0;
    CC_P; 0; 0; CC_P; 0; CC_P; CC_P; 0;
    0; CC_P; CC_P; 0; CC_P; 0; 0; CC_P ].

(** modulo 17 table *)
Definition rclw_table : list Z :=
  [ 0; 1; 2; 3; 4; 5; 6; 7;
    8; 9; 10; 11; 12; 13; 14; 15;
    16; 0; 1; 2; 3; 4; 5; 6;
    7; 8; 9; 10; 11; 12; 13; 14 ].

(** modulo 9 table *)
Definition rclb_table : list Z :=
  [ 0; 1; 2; 3; 4; 5; 6; 7;
    8; 0; 1; 2; 3; 4; 5; 6;
    7; 8; 0; 1; 2; 3; 4; 5;
    6; 7; 8; 0; 1; 2; 3; 4 ].

(** ** helper_template.h *)

Definition lshift (x n : Z) : Z := if 0 <=? n then s32 (x << n) else x >> (- n).

Section Template.
Variable DATA_BITS : Z.

Definition SHIFT1_MASK : Z := 0x1f.
Definition SIGN_MASK : Z := 1 << (DATA_BITS - 1).
Definition DATA_MASK : Z := (1 << DATA_BITS) - 1.
(** [(DATA_TYPE)x] *)
Definition DATA_TYPE (x : Z) : Z := wrap DATA_BITS x.

(** The parity, zero and sign flags, which every operation computes alike. *)
Definition pf_of (dst : Z) : Z := aget parity_table (u8 dst).
Definition zf_of (dst : Z) : Z := b2z (DATA_TYPE dst =? 0) << 6.
Definition sf_of (dst : Z) : Z := lshift (s32 dst) (8 - DATA_BITS) .& 0x80.

Definition compute_all_add (env : CPUX86State) : Z :=
  let src1 := s32 (cc_src env) in
  let src2 := s32 (cc_dst env - cc_src env) in
  let cf := b2z (DATA_TYPE (cc_dst env) <? DATA_TYPE src1) in
  let pf := pf_of (cc_dst env) in
  let af := (cc_dst env .^ src1 .^ src2) .& 0x10 in
  let zf := zf_of (cc_dst env) in
  let sf := sf_of (cc_dst env) in
  let ov := lshift ((src1 .^ src2 .^ (-1)) .& (src1 .^ s32 (cc_dst env))) (12 - DATA_BITS) .& CC_O in
  cf .| pf .| af .| zf .| sf .| ov.

Definition compute_c_add (env : CPUX86State) : Z :=
  let src1 := s32 (cc_src env) in
  b2z (DATA_TYPE (cc_dst env) <? DATA_TYPE src1).

Definition compute_all_adc (env : CPUX86State) : Z :=
  let src1 := s32 (cc_src env) in
  let src2 := s32 (cc_dst env - cc_src env - 1) in
  let cf := b2z (DATA_TYPE (cc_dst env) <=? DATA_TYPE src1) in
  let pf := pf_of (cc_dst env) in
  let af := (cc_dst env .^ src1 .^ src2) .& 0x10 in
  let zf := zf_of (cc_dst env) in
  let sf := sf_of (cc_dst env) in
  let ov := lshift ((src1 .^ src2 .^ (-1)) .& (src1 .^ s32 (cc_dst env))) (12 - DATA_BITS) .& CC_O in
  cf .| pf .| af .| zf .| sf .| ov.

Definition compute_c_adc (env : CPUX86State) : Z :=
  let src1 := s32 (cc_src env) in
  b2z (DATA_TYPE (cc_dst env) <=? DATA_TYPE src1).

Definition compute_all_sub (env : CPUX86State) : Z :=
  let src1 := s32 (cc_dst env + cc_src env) in
  let src2 := s32 (cc_src env) in
  let cf := b2z (DATA_TYPE src1 <? DATA_TYPE src2) in
  let pf := pf_of (cc_dst env) in
  let af := (cc_dst env .^ src1 .^ src2) .& 0x10 in
  let zf := zf_of (cc_dst env) in
  let sf := sf_of (cc_dst env) in
  let ov := lshift ((src1 .^ src2) .& (src1 .^ s32 (cc_dst env))) (12 - DATA_BITS) .& CC_O in
  cf .| pf .| af .| zf .| sf .| ov.

Definition compute_c_sub (env : CPUX86State) : Z :=
  let src1 := s32 (cc_dst env + cc_src env) in
  let src2 := s32 (cc_src env) in
  b2z (DATA_TYPE src1 <? DATA_TYPE src2).

Definition compute_all_sbb (env : CPUX86State) : Z :=
  let src1 := s32 (cc_dst env + cc_src env + 1) in
  let src2 := s32 (cc_src env) in
  let cf := b2z (DATA_TYPE src1 <=? DATA_TYPE src2) in
  let pf := pf_of (cc_dst env) in
  let af := (cc_dst env .^ src1 .^ src2) .& 0x10 in
  let zf := zf_of (cc_dst env) in
  let sf := sf_of (cc_dst env) in
  let ov := lshift ((src1 .^ src2) .& (src1 .^ s32 (cc_dst env))) (12 - DATA_BITS) .& CC_O in
  cf .| pf .| af .| zf .| sf .| ov.

Definition compute_c_sbb (env : CPUX86State) : Z :=
  let src1 := s32 (cc_dst env + cc_src env + 1) in
  let src2 := s32 (cc_src env) in
  b2z (DATA_TYPE src1 <=? DATA_TYPE src2).

Definition compute_all_logic (env : CPUX86State) : Z :=
  0 .| pf_of (cc_dst env) .| 0 .| zf_of (cc_dst env) .| sf_of (cc_dst env) .| 0.

Definition compute_c_logic (env : CPUX86State) : Z := 0.

Definition compute_all_inc (env : CPUX86State) : Z :=
  let src1 := s32 (cc_dst env - 1) in
  let src2 := 1 in
  let cf := s32 (cc_src env) in
  let pf := pf_of (cc_dst env) in
  let af := (cc_dst env .^ src1 .^ src2) .& 0x10 in
  let zf := zf_of (cc_dst env) in
  let sf := sf_of (cc_dst env) in
  let ov := b2z (cc_dst env .& DATA_MASK =? SIGN_MASK) << 11 in
  cf .| pf .| af .| zf .| sf .| ov.

Definition compute_c_inc (env : CPUX86State) : Z := s32 (cc_src env).

Definition compute_all_dec (env : CPUX86State) : Z :=
  let src1 := s32 (cc_dst env + 1) in
  let src2 := 1 in
  let cf := s32 (cc_src env) in
  let pf := pf_of (cc_dst env) in
  let af := (cc_dst env .^ src1 .^ src2) .& 0x10 in
  let zf := zf_of (cc_dst env) in
  let sf := sf_of (cc_dst env) in
  let ov := b2z (cc_dst env .& DATA_MASK =? SIGN_MASK - 1) << 11 in
  cf .| pf .| af .| zf .| sf .| ov.

Definition compute_all_shl (env : CPUX86State) : Z :=
  let cf := (cc_src env >> (DATA_BITS - 1)) .& CC_C in
  let pf := pf_of (cc_dst env) in
  let af := 0 in
  let zf := zf_of (cc_dst env) in
  let sf := sf_of (cc_dst env) in
  (* of is defined if shift count == 1 *)
  let ov := lshift (s32 (cc_src env .^ cc_dst env)) (12 - DATA_BITS) .& CC_O in
  cf .| pf .| af .| zf .| sf .| ov.

Definition compute_c_shl (env : CPUX86State) : Z := (cc_src env >> (DATA_BITS - 1)) .& CC_C.

Definition compute_c_sar (env : CPUX86State) : Z := cc_src env .& 1.

Definition compute_all_sar (env : CPUX86State) : Z :=
  let cf := cc_src env .& 1 in
  let pf := pf_of (cc_dst env) in
  let af := 0 in
  let zf := zf_of (cc_dst env) in
  let sf := sf_of (cc_dst env) in
  (* of is defined if shift count == 1 *)
  let ov := lshift (s32 (cc_src env .^ cc_dst env)) (12 - DATA_BITS) .& CC_O in
  cf .| pf .| af .| zf .| sf .| ov.

Definition compute_c_mul (env : CPUX86State) : Z := b2z (negb (cc_src env =? 0)).

Definition compute_all_mul (env : CPUX86State) : Z :=
  let cf := b2z (negb (cc_src env =? 0)) in
  let pf := pf_of (cc_dst env) in
  let af := 0 in
  let zf := zf_of (cc_dst env) in
  let sf := sf_of (cc_dst env) in
  let ov := cf << 11 in
  cf .| pf .| af .| zf .| sf .| ov.
End Template.

(** ** The dispatch on [cc_op] *)

Definition compute_all_eflags (env : CPUX86State) : Z := s32 (cc_src env).
Definition compute_c_eflags (env : CPUX86State) : Z := cc_src env .& CC_C.

Definition helper_cc_compute_all (op : CC_OP) (env : CPUX86State) : Z :=
  u32 match op with
  | CC_OP_EFLAGS => compute_all_eflags env
  | CC_OP_MULB => compute_all_mul 8 env
  | CC_OP_MULW => compute_all_mul 16 env
  | CC_OP_MULL => compute_all_mul 32 env
  | CC_OP_ADDB => compute_all_add 8 env
  | CC_OP_ADDW => compute_all_add 16 env
  | CC_OP_ADDL => compute_all_add 32 env
  | CC_OP_ADCB => compute_all_adc 8 env
  | CC_OP_ADCW => compute_all_adc 16 env
  | CC_OP_ADCL => compute_all_adc 32 env
  | CC_OP_SUBB => compute_all_sub 8 env
  | CC_OP_SUBW => compute_all_sub 16 env
  | CC_OP_SUBL => compute_all_sub 32 env
  | CC_OP_SBBB => compute_all_sbb 8 env
  | CC_OP_SBBW => compute_all_sbb 16 env
  | CC_OP_SBBL => compute_all_sbb 32 env
  | CC_OP_LOGICB => compute_all_logic 8 env
  | CC_OP_LOGICW => compute_all_logic 16 env
  | CC_OP_LOGICL => compute_all_logic 32 env
  | CC_OP_INCB => compute_all_inc 8 env
  | CC_OP_INCW => compute_all_inc 16 env
  | CC_OP_INCL => compute_all_inc 32 env
  | CC_OP_DECB => compute_all_dec 8 env
  | CC_OP_DECW => compute_all_dec 16 env
  | CC_OP_DECL => compute_all_dec 32 env
  | CC_OP_SHLB => compute_all_shl 8 env
  | CC_OP_SHLW => compute_all_shl 16 env
  | CC_OP_SHLL => compute_all_shl 32 env
  | CC_OP_SARB => compute_all_sar 8 env
  | CC_OP_SARW => compute_all_sar 16 env
  | CC_OP_SARL => compute_all_sar 32 env
  | _ => 0
  end.

Definition helper_cc_compute_c (op : CC_OP) (env : CPUX86State) : Z :=
  u32 match op with
  | CC_OP_EFLAGS => compute_c_eflags env
  | CC_OP_MULB | CC_OP_MULW | CC_OP_MULL => compute_c_mul env
  | CC_OP_ADDB => compute_c_add 8 env
  | CC_OP_ADDW => compute_c_add 16 env
  | CC_OP_ADDL => compute_c_add 32 env
  | CC_OP_ADCB => compute_c_adc 8 env
  | CC_OP_ADCW => compute_c_adc 16 env
  | CC_OP_ADCL => compute_c_adc 32 env
  | CC_OP_SUBB => compute_c_sub 8 env
  | CC_OP_SUBW => compute_c_sub 16 env
  | CC_OP_SUBL => compute_c_sub 32 env
  | CC_OP_SBBB => compute_c_sbb 8 env
  | CC_OP_SBBW => compute_c_sbb 16 env
  | CC_OP_SBBL => compute_c_sbb 32 env
  | CC_OP_LOGICB | CC_OP_LOGICW | CC_OP_LOGICL => compute_c_logic env
  | CC_OP_INCB | CC_OP_INCW | CC_OP_INCL => compute_c_inc env
  | CC_OP_DECB | CC_OP_DECW | CC_OP_DECL => compute_c_inc env
  | CC_OP_SHLB => compute_c_shl 8 env
  | CC_OP_SHLW => compute_c_shl 16 env
  | CC_OP_SHLL => compute_c_shl 32 env
  | CC_OP_SARB | CC_OP_SARW | CC_OP_SARL => compute_c_sar env
  | _ => 0
  end.

(** exec.h *)
Definition compute_eflags (env : CPUX86State) : Z :=
  u32 (eflags env .| helper_cc_compute_all (cc_op env) env .| (df env .& DF_MASK)).

Definition load_eflags (fl update_mask : Z) (env : CPUX86State) : CPUX86State :=
  let env := env <| cc_src := fl .& (CC_O .| CC_S .| CC_Z .| CC_A .| CC_P .| CC_C) |> in
  let env := env <| df := 1 - (2 * ((fl >> 10) .& 1)) |> in
  env <| eflags := u32 ((eflags env .& ~~ update_mask) .| (fl .& update_mask) .| 0x2) |>.

Definition helper_write_eflags (t0 update_mask : Z) (env : CPUX86State) : CPUX86State :=
  load_eflags (s32 t0) (s32 update_mask) env.

Definition helper_read_eflags (env : CPUX86State) : Z :=
  let fl := helper_cc_compute_all (cc_op env) env in
  let fl := u32 (fl .| (df env .& DF_MASK)) in
  u32 (fl .| (eflags env .& ~~ (VM_MASK .| RF_MASK))).

(** ** Rotates through the carry *)

Definition rcx_count (DATA_BITS t1 : Z) : Z :=
  let count := t1 .& SHIFT1_MASK in
  if DATA_BITS =? 16 then aget rclw_table count
  else if DATA_BITS =? 8 then aget rclb_table count
  else count.

Definition helper_rcl (DATA_BITS t0 t1 : Z) (env : CPUX86State) : Z * CPUX86State :=
  let count := rcx_count DATA_BITS t1 in
  if truthy count then
    let fl := helper_cc_compute_all (cc_op env) env in
    let t0 := t0 .& DATA_MASK DATA_BITS in
    let src := t0 in
    let res := s32 (u32 (t0 << count) .| u32 ((fl .& CC_C) << (count - 1))) in
    let res := if 1 <? count then s32 (res .| (t0 >> (DATA_BITS + 1 - count))) else res in
    let t0 := u32 res in
    (t0, env <| cc_tmp := u32 ((fl .& ~~ (CC_C .| CC_O))
                               .| (lshift (s32 (src .^ t0)) (11 - (DATA_BITS - 1)) .& CC_O)
                               .| ((src >> (DATA_BITS - count)) .& CC_C)) |>)
  else (t0, env <| cc_tmp := u32 (-1) |>).

Definition helper_rcr (DATA_BITS t0 t1 : Z) (env : CPUX86State) : Z * CPUX86State :=
  let count := rcx_count DATA_BITS t1 in
  if truthy count then
    let fl := helper_cc_compute_all (cc_op env) env in
    let t0 := t0 .& DATA_MASK DATA_BITS in
    let src := t0 in
    let res := s32 ((t0 >> count) .| u32 ((fl .& CC_C) << (DATA_BITS - count))) in
    let res := if 1 <? count then s32 (res .| u32 (t0 << (DATA_BITS + 1 - count))) else res in
    let t0 := u32 res in
    (t0, env <| cc_tmp := u32 ((fl .& ~~ (CC_C .| CC_O))
                               .| (lshift (s32 (src .^ t0)) (11 - (DATA_BITS - 1)) .& CC_O)
                               .| ((src >> (count - 1)) .& CC_C)) |>)
  else (t0, env <| cc_tmp := u32 (-1) |>).

(** ** The flags as arithmetic defines them *)

Definition mkflags (cf pf af zf sf ov : bool) : Z :=
  b2z cf .| (if pf then CC_P else 0) .| (if af then CC_A else 0) .| (if zf then CC_Z else 0)
  .| (if sf then CC_S else 0) .| (if ov then CC_O else 0).

(** The low byte has an even number of ones. *)
Definition even_parity (x : Z) : bool :=
  negb (foldr xorb false (map (fun i => Z.testbit x (Z.of_nat i)) (seq 0 8))).

(** The value of a [w]-bit pattern in two's complement, and whether a value
    has one. *)
Definition signed (w x : Z) : Z := if x <? 2 ^ (w - 1) then x else x - 2 ^ w.
Definition in_s (w x : Z) : bool := (- 2 ^ (w - 1) <=? x) && (x <? 2 ^ (w - 1)).

(** [a + b + c] and [a - b - c] on [w]-bit operands, with a given carry flag
    and with the carry out. *)
Definition add_flags_cf (cf : bool) (w a b c : Z) : Z :=
  let r := a + b + c in
  mkflags cf (even_parity r) (16 <=? a mod 16 + b mod 16 + c) (r mod 2 ^ w =? 0)
    (Z.testbit r (w - 1)) (negb (in_s w (signed w a + signed w b + c))).
Definition add_flags (w a b c : Z) : Z := add_flags_cf (2 ^ w <=? a + b + c) w a b c.
Definition sub_flags_cf (cf : bool) (w a b c : Z) : Z :=
  let r := a - b - c in
  mkflags cf (even_parity r) (a mod 16 <? b mod 16 + c) (r mod 2 ^ w =? 0)
    (Z.testbit r (w - 1)) (negb (in_s w (signed w a - signed w b - c))).
Definition sub_flags (w a b c : Z) : Z := sub_flags_cf (a <? b + c) w a b c.
Definition logic_flags (w r : Z) : Z :=
  mkflags false (even_parity r) false (r =? 0) (Z.testbit r (w - 1)) false.

(** ** Bits and residues of the C conversions *)

Lemma u32_mod w x : 0 <= w <= 32 -> u32 x mod 2 ^ w = x mod 2 ^ w.
Proof.
  intros Hw. unfold u32. change 4294967296 with (2 ^ 32).
  replace (2 ^ 32) with (2 ^ w * 2 ^ (32 - w)) by (rewrite <- Z.pow_add_r by lia; f_equal; lia).
  assert (0 < 2 ^ w) by (apply Z.pow_pos_nonneg; lia). assert (0 < 2 ^ (32 - w)) by (apply Z.pow_pos_nonneg; lia).
  rewrite Z.rem_mul_r by lia. rewrite (Z.mul_comm (2 ^ w)), Z_mod_plus_full. apply Z.mod_mod. lia.
Qed.

Lemma s32_u32 x : u32 (s32 x) = u32 x.
Proof.
  unfold s32. destruct (_ <? _); unfold u32; [now rewrite Z.mod_mod|].
  replace (x mod 4294967296 - 4294967296) with (x mod 4294967296 + (-1) * 4294967296) by lia.
  now rewrite Z_mod_plus_full, Z.mod_mod.
Qed.

Lemma s32_mod w x : 0 <= w <= 32 -> s32 x mod 2 ^ w = x mod 2 ^ w.
Proof. intros. rewrite <- (u32_mod w (s32 x)), s32_u32 by done. now apply u32_mod. Qed.

Lemma s32_bits x k : 0 <= k < 32 -> Z.testbit (s32 x) k = Z.testbit x k.
Proof.
  intros Hk. pose proof (f_equal (fun y => Z.testbit y k) (s32_u32 x)) as H. cbn beta in H.
  rewrite !u32_bits in H by lia. destruct (Z.ltb_spec k 32); [|lia]. exact H.
Qed.

Lemma u32_bit x k : 0 <= k < 32 -> Z.testbit (u32 x) k = Z.testbit x k.
Proof. intros Hk. rewrite u32_bits by lia. destruct (Z.ltb_spec k 32); [done|lia]. Qed.

Lemma lshift_bit x n k : 0 <= k < 32 -> 0 <= k - n -> Z.testbit (lshift x n) k = Z.testbit x (k - n).
Proof.
  intros Hk Hn. unfold lshift. destruct (Z.leb_spec 0 n).
  - rewrite s32_bits by done. apply Z.shiftl_spec. lia.
  - rewrite Z.shiftr_spec by lia. f_equal.
Qed.

Lemma pow_split w : 1 <= w -> 2 ^ w = 2 * 2 ^ (w - 1).
Proof. intros. replace w with (Z.succ (w - 1)) at 1 by lia. apply Z.pow_succ_r. lia. Qed.

Lemma testbit_div x k : 0 <= k -> Z.testbit x k = ((x / 2 ^ k) mod 2 =? 1).
Proof.
  intros Hk. pose proof (Z.testbit_spec' x k Hk) as H. destruct (Z.testbit x k); cbn in H; rewrite <- H; reflexivity.
Qed.

(** The carry into bit [k] of a sum. *)
Lemma carry_bit a b c k : 0 <= k -> 0 <= c <= 1 ->
  xorb (Z.testbit (a + b + c) k) (xorb (Z.testbit a k) (Z.testbit b k))
  = (2 ^ k <=? a mod 2 ^ k + b mod 2 ^ k + c).
Proof.
  intros Hk Hc. rewrite !testbit_div by done. set (p := 2 ^ k). assert (0 < p) by (apply Z.pow_pos_nonneg; lia).
  pose proof (Z.div_mod a p ltac:(lia)). pose proof (Z.div_mod b p ltac:(lia)).
  pose proof (Z.mod_pos_bound a p ltac:(lia)). pose proof (Z.mod_pos_bound b p ltac:(lia)).
  destruct (Z.leb_spec p (a mod p + b mod p + c)).
  - replace (a + b + c) with (a mod p + b mod p + c - p + (a / p + b / p + 1) * p) by lia.
    rewrite Z.div_add, Z.div_small by lia.
    destruct (Z.eqb_spec ((0 + (a / p + b / p + 1)) mod 2) 1), (Z.eqb_spec ((a / p) mod 2) 1), (Z.eqb_spec ((b / p) mod 2) 1);
      cbn; Z.div_mod_to_equations; lia.
  - replace (a + b + c) with (a mod p + b mod p + c + (a / p + b / p) * p) by lia.
    rewrite Z.div_add, Z.div_small by lia.
    destruct (Z.eqb_spec ((0 + (a / p + b / p)) mod 2) 1), (Z.eqb_spec ((a / p) mod 2) 1), (Z.eqb_spec ((b / p) mod 2) 1);
      cbn; Z.div_mod_to_equations; lia.
Qed.

(** ** Single flags *)

Lemma bit_mod w x k : 0 <= k < w -> Z.testbit (x mod 2 ^ w) k = Z.testbit x k.
Proof. intros. now rewrite Z.mod_pow2_bits_low by lia. Qed.

Lemma even_parity_mod w x : 8 <= w -> even_parity (x mod 2 ^ w) = even_parity x.
Proof.
  intros Hw. unfold even_parity. f_equal. f_equal. apply map_ext_in. intros i Hi%in_seq. apply bit_mod. lia.
Qed.

Lemma parity_table_spec x : pf_of x = if even_parity x then CC_P else 0.
Proof.
  unfold pf_of. rewrite <- (even_parity_mod 8) by lia. unfold u8. change (2 ^ 8) with 256.
  pose proof (Z.mod_pos_bound x 256 ltac:(lia)). set (y := x mod 256) in *. clearbody y.
  enough ((aget parity_table y =? if even_parity y then CC_P else 0) = true) by lia.
  revert y H. apply (all_below_spec 256). vm_compute. reflexivity.
Qed.

Lemma zf_spec w x : zf_of w x = if x mod 2 ^ w =? 0 then CC_Z else 0.
Proof. unfold zf_of, DATA_TYPE, wrap. now destruct (_ =? 0). Qed.

Lemma sf_spec w x : 8 <= w <= 32 -> sf_of w x = if Z.testbit x (w - 1) then CC_S else 0.
Proof.
  intros Hw. unfold sf_of, CC_S. change 0x80 with (1 << 7). rewrite land_bit, lshift_bit by lia.
  replace (7 - (8 - w)) with (w - 1) by lia. now rewrite s32_bits by lia.
Qed.

Lemma ov_spec w z : 8 <= w <= 32 -> lshift z (12 - w) .& CC_O = if Z.testbit z (w - 1) then CC_O else 0.
Proof.
  intros Hw. unfold CC_O. change 0x800 with (1 << 11). rewrite land_bit, lshift_bit by lia.
  now replace (11 - (12 - w)) with (w - 1) by lia.
Qed.

Lemma af_spec x : x .& 0x10 = if Z.testbit x 4 then CC_A else 0.
Proof. change 0x10 with (1 << 4). now rewrite land_bit by lia. Qed.

(** The sign of a result whose quotient by the weight of the sign bit is one of
    a few values, against the range of its signed value. *)
Ltac overflow_cases q :=
  assert (q = -2 \/ q = -1 \/ q = 0 \/ q = 1 \/ q = 2 \/ q = 3) as [-> | [-> | [-> | [-> | [-> | ->]]]]] by lia;
  try lia;
  change (-2 mod 2 =? 1) with false; change (-1 mod 2 =? 1) with true;
  change (0 mod 2 =? 1) with false; change (1 mod 2 =? 1) with true;
  change (2 mod 2 =? 1) with false; change (3 mod 2 =? 1) with true;
  cbn [xorb negb andb]; lia.

(** Two conditionals whose conditions are the same boolean function. *)
Ltac same_if :=
  lazymatch goal with
  | |- (if ?x then _ else _) = (if ?y then _ else _) => replace x with y by btauto; reflexivity
  end.

Section Width.
Variable w : Z.
Hypothesis Hw : 8 <= w <= 32.

Lemma top_bit x : in_u w x -> Z.testbit x (w - 1) = (2 ^ (w - 1) <=? x).
Proof.
  intros [H0 H1]. rewrite testbit_div by lia. rewrite (pow_split w) in H1 by lia.
  set (p := 2 ^ (w - 1)) in *. assert (0 < p) by (apply Z.pow_pos_nonneg; lia).
  destruct (Z.leb_spec p x).
  - replace x with (x - p + 1 * p) by lia. rewrite Z.div_add, Z.div_small by lia. reflexivity.
  - now rewrite Z.div_small by lia.
Qed.

Lemma ov_add a b c : in_u w a -> in_u w b -> 0 <= c <= 1 ->
  negb (xorb (Z.testbit b (w - 1)) (Z.testbit a (w - 1)))
    && xorb (Z.testbit b (w - 1)) (Z.testbit (a + b + c) (w - 1))
  = negb (in_s w (signed w a + signed w b + c)).
Proof.
  intros Ha Hb Hc. rewrite !top_bit, (testbit_div (a + b + c)) by (done || lia).
  unfold in_u in *. unfold in_s, signed. rewrite (pow_split w) in * by lia.
  set (p := 2 ^ (w - 1)) in *. assert (0 < p) by (apply Z.pow_pos_nonneg; lia).
  assert (a + b + c = p * ((a + b + c) / p) + (a + b + c) mod p) as E by (apply Z.div_mod; lia).
  pose proof (Z.mod_pos_bound (a + b + c) p ltac:(lia)).
  assert (0 <= (a + b + c) / p <= 3) as Hq by (split; [apply Z.div_pos; lia | apply Z.lt_succ_r, Z.div_lt_upper_bound; lia]).
  set (q := (a + b + c) / p) in *. clearbody q. set (m := (a + b + c) mod p) in *. clearbody m.
  destruct (Z.leb_spec p a), (Z.leb_spec p b), (Z.ltb_spec a p), (Z.ltb_spec b p); try lia;
    overflow_cases q.
Qed.

Lemma ov_sub a b c : in_u w a -> in_u w b -> 0 <= c <= 1 ->
  xorb (Z.testbit a (w - 1)) (Z.testbit b (w - 1))
    && xorb (Z.testbit a (w - 1)) (Z.testbit (a - b - c) (w - 1))
  = negb (in_s w (signed w a - signed w b - c)).
Proof.
  intros Ha Hb Hc. rewrite !top_bit, (testbit_div (a - b - c)) by (done || lia).
  unfold in_u in *. unfold in_s, signed. rewrite (pow_split w) in * by lia.
  set (p := 2 ^ (w - 1)) in *. assert (0 < p) by (apply Z.pow_pos_nonneg; lia).
  assert (a - b - c = p * ((a - b - c) / p) + (a - b - c) mod p) as E by (apply Z.div_mod; lia).
  pose proof (Z.mod_pos_bound (a - b - c) p ltac:(lia)).
  assert (-2 <= (a - b - c) / p <= 1) as Hq by (split; [apply Z.div_le_lower_bound; lia | apply Z.lt_succ_r, Z.div_lt_upper_bound; lia]).
  set (q := (a - b - c) / p) in *. clearbody q. set (m := (a - b - c) mod p) in *. clearbody m.
  destruct (Z.leb_spec p a), (Z.leb_spec p b), (Z.ltb_spec a p), (Z.ltb_spec b p); try lia;
    overflow_cases q.
Qed.

(** The carry flag as a comparison of the truncated result. *)
Lemma cf_add a b : in_u w a -> in_u w b -> ((a + b + 0) mod 2 ^ w <? b) = (2 ^ w <=? a + b + 0).
Proof.
  unfold in_u. intros Ha Hb. destruct (Z.leb_spec (2 ^ w) (a + b + 0)).
  - replace (a + b + 0) with (a + b - 2 ^ w + 1 * 2 ^ w) by lia. rewrite Z_mod_plus_full, Z.mod_small by lia. lia.
  - rewrite Z.mod_small by lia. lia.
Qed.

Lemma cf_adc a b : in_u w a -> in_u w b -> ((a + b + 1) mod 2 ^ w <=? b) = (2 ^ w <=? a + b + 1).
Proof.
  unfold in_u. intros Ha Hb. destruct (Z.leb_spec (2 ^ w) (a + b + 1)).
  - replace (a + b + 1) with (a + b + 1 - 2 ^ w + 1 * 2 ^ w) by lia. rewrite Z_mod_plus_full, Z.mod_small by lia. lia.
  - rewrite Z.mod_small by lia. lia.
Qed.

Lemma af_sub a b c : 0 <= c <= 1 ->
  (16 <=? (a - b - c) mod 16 + b mod 16 + c) = (a mod 16 <? b mod 16 + c).
Proof. intros Hc. destruct (Z.leb_spec 16 ((a - b - c) mod 16 + b mod 16 + c)), (Z.ltb_spec (a mod 16) (b mod 16 + c)); Z.div_mod_to_equations; lia. Qed.

(** Congruence modulo the operand size: what an operation can see of a
    register. *)
Definition eqw (x y : Z) : Prop := x mod 2 ^ w = y mod 2 ^ w.

#[local] Instance eqw_equiv : Equivalence eqw.
Proof. split; unfold eqw; [now intros ?|now intros ?|intros ? ? ?; congruence]. Qed.

#[local] Instance eqw_add : Proper (eqw ==> eqw ==> eqw) Z.add.
Proof. intros x x' Hx y y' Hy. unfold eqw in *. rewrite Zplus_mod, Hx, Hy. symmetry. apply Zplus_mod. Qed.

#[local] Instance eqw_sub : Proper (eqw ==> eqw ==> eqw) Z.sub.
Proof. intros x x' Hx y y' Hy. unfold eqw in *. rewrite Zminus_mod, Hx, Hy. symmetry. apply Zminus_mod. Qed.

Lemma eqw_mod x : eqw (x mod 2 ^ w) x.
Proof. unfold eqw. apply Z.mod_mod. pose proof (Z.pow_pos_nonneg 2 w). lia. Qed.

Lemma eqw_u32 x : eqw (u32 x) x.
Proof. apply u32_mod. lia. Qed.

Lemma eqw_s32 x : eqw (s32 x) x.
Proof. apply s32_mod. lia. Qed.

Lemma eqw_bit x y k : eqw x y -> 0 <= k < w -> Z.testbit x k = Z.testbit y k.
Proof. intros H Hk. now rewrite <- (bit_mod w x), <- (bit_mod w y), H by done. Qed.

Lemma eqw_parity x y : eqw x y -> even_parity x = even_parity y.
Proof. intros H. now rewrite <- (even_parity_mod w x), <- (even_parity_mod w y), H by lia. Qed.

Lemma mod_in_u x : in_u w (x mod 2 ^ w).
Proof. apply Z.mod_pos_bound, Z.pow_pos_nonneg; lia. Qed.

(** The flags all operations share, from the result. *)
Lemma szp d r : eqw d r ->
  pf_of d = (if even_parity r then CC_P else 0)
  /\ zf_of w d = (if r mod 2 ^ w =? 0 then CC_Z else 0)
  /\ sf_of w d = (if Z.testbit r (w - 1) then CC_S else 0).
Proof.
  intros H. rewrite parity_table_spec, zf_spec, sf_spec, H by done.
  rewrite (eqw_parity d r H), (eqw_bit d r) by (done || lia). done.
Qed.

Lemma add_af d src1 src2 a b c : 0 <= c <= 1 -> eqw d (a + b + c) -> eqw src1 b -> eqw src2 a ->
  (d .^ src1 .^ src2) .& 0x10 = if 16 <=? a mod 16 + b mod 16 + c then CC_A else 0.
Proof.
  intros Hc Hd H1 H2.
  rewrite af_spec, !Z.lxor_spec, (eqw_bit d _ 4 Hd), (eqw_bit src1 _ 4 H1), (eqw_bit src2 _ 4 H2) by lia.
  change 16 with (2 ^ 4). rewrite <- (carry_bit a b c 4) by lia. same_if.
Qed.

Lemma sub_af d src1 src2 a b c : 0 <= c <= 1 -> eqw d (a - b - c) -> eqw src1 a -> eqw src2 b ->
  (d .^ src1 .^ src2) .& 0x10 = if a mod 16 <? b mod 16 + c then CC_A else 0.
Proof.
  intros Hc Hd H1 H2.
  rewrite af_spec, !Z.lxor_spec, (eqw_bit d _ 4 Hd), (eqw_bit src1 _ 4 H1), (eqw_bit src2 _ 4 H2) by lia.
  rewrite <- af_sub by done. change 16 with (2 ^ 4). rewrite <- (carry_bit (a - b - c) b c 4) by lia.
  replace (a - b - c + b + c) with a by lia. same_if.
Qed.

Lemma add_all cf d d' src1 src2 a b c : in_u w a -> in_u w b -> 0 <= c <= 1 ->
  eqw d (a + b + c) -> eqw d' (a + b + c) -> eqw src1 b -> eqw src2 a ->
  b2z cf .| pf_of d .| ((d .^ src1 .^ src2) .& 0x10) .| zf_of w d .| sf_of w d
    .| (lshift ((src1 .^ src2 .^ (-1)) .& (src1 .^ d')) (12 - w) .& CC_O)
  = add_flags_cf cf w a b c.
Proof.
  intros Ha Hb Hc Hd Hd' H1 H2. destruct (szp d (a + b + c) Hd) as (-> & -> & ->).
  rewrite (add_af d src1 src2 a b c) by done. unfold add_flags_cf, mkflags. f_equal.
  rewrite ov_spec by done. rewrite <- ov_add by done.
  rewrite Z.land_spec, !Z.lxor_spec, Z.bits_m1 by lia.
  rewrite (eqw_bit d' _ _ Hd'), (eqw_bit src1 _ _ H1), (eqw_bit src2 _ _ H2) by lia. same_if.
Qed.

Lemma sub_all cf d d' src1 src2 a b c : in_u w a -> in_u w b -> 0 <= c <= 1 ->
  eqw d (a - b - c) -> eqw d' (a - b - c) -> eqw src1 a -> eqw src2 b ->
  b2z cf .| pf_of d .| ((d .^ src1 .^ src2) .& 0x10) .| zf_of w d .| sf_of w d
    .| (lshift ((src1 .^ src2) .& (src1 .^ d')) (12 - w) .& CC_O)
  = sub_flags_cf cf w a b c.
Proof.
  intros Ha Hb Hc Hd Hd' H1 H2. destruct (szp d (a - b - c) Hd) as (-> & -> & ->).
  rewrite (sub_af d src1 src2 a b c) by done. unfold sub_flags_cf, mkflags. f_equal.
  rewrite ov_spec by done. rewrite <- ov_sub by done.
  rewrite Z.land_spec, !Z.lxor_spec by lia.
  rewrite (eqw_bit d' _ _ Hd'), (eqw_bit src1 _ _ H1), (eqw_bit src2 _ _ H2) by lia. reflexivity.
Qed.

(** ** The lazy flags of each operation

    [a] and [b] are the operands as the registers hold them, with anything
    above the operand size. *)

Lemma wrap_eqw x y : eqw x y -> DATA_TYPE w x = y mod 2 ^ w.
Proof. exact id. Qed.

Ltac eqw_simpl := repeat first [rewrite eqw_s32 | rewrite eqw_u32 | rewrite eqw_mod]; try reflexivity.

Lemma lazy_add env a b : cc_src env = u32 b -> cc_dst env = u32 (a + b) ->
  let a := a mod 2 ^ w in let b := b mod 2 ^ w in
  compute_all_add w env = add_flags w a b 0 /\ compute_c_add w env = b2z (2 ^ w <=? a + b + 0).
Proof.
  intros Hs Hd. cbv zeta.
  assert (compute_c_add w env = b2z (2 ^ w <=? a mod 2 ^ w + b mod 2 ^ w + 0)) as Hc.
  { unfold compute_c_add. rewrite Hs, Hd, <- cf_add by apply mod_in_u. do 2 f_equal.
    - apply wrap_eqw. eqw_simpl. now rewrite Z.add_0_r.
    - apply wrap_eqw. eqw_simpl. }
  split; [|exact Hc]. unfold add_flags. rewrite <- (add_all _ (cc_dst env) (s32 (cc_dst env)) (s32 (cc_src env)) (s32 (cc_dst env - cc_src env)));
    try apply mod_in_u; try lia; rewrite ?Hs, ?Hd; try (eqw_simpl; rewrite ?Z.add_0_r; reflexivity).
  - unfold compute_all_add. unfold compute_c_add in Hc. rewrite Hs, Hd in *. rewrite Hc. reflexivity.
  - eqw_simpl. now replace (a + b - b) with a by lia.
Qed.

Lemma lazy_adc env a b : cc_src env = u32 b -> cc_dst env = u32 (a + b + 1) ->
  let a := a mod 2 ^ w in let b := b mod 2 ^ w in
  compute_all_adc w env = add_flags w a b 1 /\ compute_c_adc w env = b2z (2 ^ w <=? a + b + 1).
Proof.
  intros Hs Hd. cbv zeta.
  assert (compute_c_adc w env = b2z (2 ^ w <=? a mod 2 ^ w + b mod 2 ^ w + 1)) as Hc.
  { unfold compute_c_adc. rewrite Hs, Hd, <- cf_adc by apply mod_in_u. do 2 f_equal; apply wrap_eqw; eqw_simpl. }
  split; [|exact Hc]. unfold add_flags.
  rewrite <- (add_all _ (cc_dst env) (s32 (cc_dst env)) (s32 (cc_src env)) (s32 (cc_dst env - cc_src env - 1)));
    try apply mod_in_u; try lia; rewrite ?Hs, ?Hd; try (eqw_simpl; reflexivity).
  - unfold compute_all_adc. unfold compute_c_adc in Hc. rewrite Hs, Hd in *. rewrite Hc. reflexivity.
  - eqw_simpl. now replace (a + b + 1 - b - 1) with a by lia.
Qed.

Lemma lazy_sub env a b : cc_src env = u32 b -> cc_dst env = u32 (a - b) ->
  let a := a mod 2 ^ w in let b := b mod 2 ^ w in
  compute_all_sub w env = sub_flags w a b 0 /\ compute_c_sub w env = b2z (a <? b + 0).
Proof.
  intros Hs Hd. cbv zeta.
  assert (eqw (s32 (u32 (a - b) + u32 b)) a) as E by (eqw_simpl; now replace (a - b + b) with a by lia).
  assert (compute_c_sub w env = b2z (a mod 2 ^ w <? b mod 2 ^ w + 0)) as Hc.
  { unfold compute_c_sub. rewrite Hs, Hd, Z.add_0_r. do 2 f_equal; apply wrap_eqw; [exact E|eqw_simpl]. }
  split; [|exact Hc]. unfold sub_flags.
  rewrite <- (sub_all _ (cc_dst env) (s32 (cc_dst env)) (s32 (cc_dst env + cc_src env)) (s32 (cc_src env)));
    try apply mod_in_u; try lia; rewrite ?Hs, ?Hd; try (eqw_simpl; rewrite ?Z.sub_0_r; reflexivity).
  - unfold compute_all_sub. unfold compute_c_sub in Hc. rewrite Hs, Hd in *. rewrite Hc. reflexivity.
  - rewrite eqw_mod. exact E.
Qed.

Lemma lazy_sbb env a b : cc_src env = u32 b -> cc_dst env = u32 (a - b - 1) ->
  let a := a mod 2 ^ w in let b := b mod 2 ^ w in
  compute_all_sbb w env = sub_flags w a b 1 /\ compute_c_sbb w env = b2z (a <? b + 1).
Proof.
  intros Hs Hd. cbv zeta.
  assert (eqw (s32 (u32 (a - b - 1) + u32 b + 1)) a) as E by (eqw_simpl; now replace (a - b - 1 + b + 1) with a by lia).
  assert (compute_c_sbb w env = b2z (a mod 2 ^ w <? b mod 2 ^ w + 1)) as Hc.
  { unfold compute_c_sbb. rewrite Hs, Hd. rewrite (wrap_eqw _ _ E), (wrap_eqw (s32 (u32 b)) b) by eqw_simpl.
    f_equal. lia. }
  split; [|exact Hc]. unfold sub_flags.
  rewrite <- (sub_all _ (cc_dst env) (s32 (cc_dst env)) (s32 (cc_dst env + cc_src env + 1)) (s32 (cc_src env)));
    try apply mod_in_u; try lia; rewrite ?Hs, ?Hd; try (eqw_simpl; reflexivity).
  - unfold compute_all_sbb. unfold compute_c_sbb in Hc. rewrite Hs, Hd in *. rewrite Hc. reflexivity.
  - rewrite eqw_mod. exact E.
Qed.

Lemma one_in_u : in_u w 1.
Proof. split; [lia|]. apply (Z.lt_le_trans _ (2 ^ 8)); [done|]. apply Z.pow_le_mono_r; lia. Qed.

Lemma half_large : 128 <= 2 ^ (w - 1).
Proof. change 128 with (2 ^ 7). apply Z.pow_le_mono_r; lia. Qed.

Lemma data_mask_mod x : x .& DATA_MASK w = x mod 2 ^ w.
Proof.
  apply land_ones_mod; [lia|]. unfold DATA_MASK. rewrite Z.shiftl_mul_pow2, Z.ones_equiv by lia. lia.
Qed.

(** The operand at the edge of the signed range. *)
Lemma ov_inc a : in_u w a ->
  ((a + 1 + 0) mod 2 ^ w =? 2 ^ (w - 1)) = negb (in_s w (signed w a + signed w 1 + 0)).
Proof.
  intros Ha. pose proof half_large. unfold in_u in *. unfold in_s, signed. rewrite (pow_split w) in * by lia.
  set (p := 2 ^ (w - 1)) in *. destruct (Z.ltb_spec 1 p); [|lia].
  destruct (Z.eq_dec a (2 * p - 1)) as [->|].
  - replace (2 * p - 1 + 1 + 0) with (0 + 1 * (2 * p)) by lia. rewrite Z_mod_plus_full, Z.mod_0_l by lia.
    destruct (Z.ltb_spec (2 * p - 1) p); lia.
  - rewrite Z.mod_small by lia. destruct (Z.ltb_spec a p); lia.
Qed.

Lemma ov_dec a : in_u w a ->
  ((a - 1 - 0) mod 2 ^ w =? 2 ^ (w - 1) - 1) = negb (in_s w (signed w a - signed w 1 - 0)).
Proof.
  intros Ha. pose proof half_large. unfold in_u in *. unfold in_s, signed. rewrite (pow_split w) in * by lia.
  set (p := 2 ^ (w - 1)) in *. destruct (Z.ltb_spec 1 p); [|lia].
  destruct (Z.eq_dec a 0) as [->|].
  - replace (0 - 1 - 0) with (2 * p - 1 + (-1) * (2 * p)) by lia. rewrite Z_mod_plus_full, Z.mod_small by lia.
    destruct (Z.ltb_spec 0 p); lia.
  - rewrite Z.mod_small by lia. destruct (Z.ltb_spec a p); lia.
Qed.

Lemma b2z_shift11 b : b2z b << 11 = if b then CC_O else 0.
Proof. now destruct b. Qed.


Lemma lazy_inc env a cf : cc_src env = b2z cf -> cc_dst env = u32 (a + 1) ->
  compute_all_inc w env = add_flags_cf cf w (a mod 2 ^ w) 1 0 /\ compute_c_inc env = b2z cf.
Proof.
  intros Hs Hd. assert (s32 (cc_src env) = b2z cf) as Es by (rewrite Hs; now destruct cf).
  split; [|exact Es]. assert (eqw (cc_dst env) (a mod 2 ^ w + 1 + 0)) as E.
  { rewrite Hd. eqw_simpl. now rewrite Z.add_0_r. }
  destruct (szp _ _ E) as (Hp & Hz & Hf). unfold compute_all_inc, add_flags_cf. rewrite Hp, Hz, Hf, Es.
  rewrite data_mask_mod, E, Z.lxor_assoc, (Z.lxor_comm (s32 _)), <- Z.lxor_assoc.
  unfold SIGN_MASK. rewrite Z.shiftl_1_l, ov_inc, b2z_shift11 by apply mod_in_u.
  rewrite (add_af (cc_dst env) 1 _ (a mod 2 ^ w) 1 0); [reflexivity|lia|exact E|reflexivity|].
  rewrite Hd. eqw_simpl. now replace (a + 1 - 1) with a by lia.
Qed.

Lemma lazy_dec env a cf : cc_src env = b2z cf -> cc_dst env = u32 (a - 1) ->
  compute_all_dec w env = sub_flags_cf cf w (a mod 2 ^ w) 1 0 /\ compute_c_inc env = b2z cf.
Proof.
  intros Hs Hd. assert (s32 (cc_src env) = b2z cf) as Es by (rewrite Hs; now destruct cf).
  split; [|exact Es]. assert (eqw (cc_dst env) (a mod 2 ^ w - 1 - 0)) as E.
  { rewrite Hd. eqw_simpl. now rewrite Z.sub_0_r. }
  destruct (szp _ _ E) as (Hp & Hz & Hf). unfold compute_all_dec, sub_flags_cf. rewrite Hp, Hz, Hf, Es.
  rewrite data_mask_mod, E. unfold SIGN_MASK. rewrite Z.shiftl_1_l, ov_dec, b2z_shift11 by apply mod_in_u.
  rewrite (sub_af (cc_dst env) _ 1 (a mod 2 ^ w) 1 0); [reflexivity|lia|exact E| |reflexivity].
  rewrite Hd. eqw_simpl. now replace (a - 1 + 1) with a by lia.
Qed.

Lemma lazy_logic env r : cc_dst env = u32 r -> compute_all_logic w env = logic_flags w (r mod 2 ^ w).
Proof.
  intros Hd. assert (eqw (cc_dst env) (r mod 2 ^ w)) as E by (rewrite Hd; eqw_simpl).
  destruct (szp _ _ E) as (Hp & Hz & Hf). unfold compute_all_logic, logic_flags. rewrite Hp, Hz, Hf.
  rewrite Z.mod_mod by (pose proof half_large; rewrite (pow_split w); lia). reflexivity.
Qed.
End Width.

(** ** Rotates: a rotation of [w + 1] bits, the carry on top *)

Definition with_carry (w x : Z) (cf : bool) : Z := x mod 2 ^ w + 2 ^ w * b2z cf.

Lemma with_carry_bit w x cf k : 0 <= k <= w ->
  Z.testbit (with_carry w x cf) k = if k =? w then cf else Z.testbit x k.
Proof.
  intros Hk. unfold with_carry. pose proof (Z.pow_pos_nonneg 2 w ltac:(lia) ltac:(lia)).
  rewrite <- lor_shift; [|lia|now apply Z.mod_pos_bound]. rewrite Z.lor_spec, Z.shiftl_spec by lia.
  destruct (Z.eqb_spec k w) as [->|].
  - rewrite Z.mod_pow2_bits_high, Z.sub_diag by lia. now destruct cf.
  - rewrite bit_mod, (Z.testbit_neg_r _ (k - w)) by lia. apply orb_false_r.
Qed.

Definition data_size (w : Z) : Prop := w = 8 \/ w = 16 \/ w = 32.

Lemma rcx_count_spec w t1 : data_size w -> rcx_count w t1 = (t1 .& 0x1f) mod (w + 1).
Proof.
  intros Hw. unfold rcx_count, SHIFT1_MASK. pose proof (land_range t1 5 0x1f ltac:(lia) eq_refl) as Hr.
  set (c := t1 .& 0x1f) in *. clearbody c.
  assert (forall p : Z -> bool, all_below 32 p = true -> p c = true) as Hall
    by (intros p Hp; apply (all_below_spec 32 p Hp); lia).
  destruct Hw as [-> | [-> | ->]]; cbn [Z.eqb Pos.eqb].
  - specialize (Hall (fun c => aget rclb_table c =? c mod 9) eq_refl). now apply Z.eqb_eq.
  - specialize (Hall (fun c => aget rclw_table c =? c mod 17) eq_refl). now apply Z.eqb_eq.
  - symmetry. apply Z.mod_small. lia.
Qed.

Lemma cc_c_bit fl : fl .& CC_C = b2z (Z.testbit fl 0).
Proof. unfold CC_C. change 1 with (1 << 0). rewrite land_bit by lia. now destruct (Z.testbit fl 0). Qed.

(** A bit of a value truncated to [w] bits. *)
Lemma masked_bit w x k : 0 <= w -> Z.testbit (x .& DATA_MASK w) k = (k <? w) && Z.testbit x k.
Proof.
  intros Hw. rewrite (land_ones_mod x w); [|lia|unfold DATA_MASK; rewrite Z.shiftl_mul_pow2, Z.ones_equiv by lia; lia].
  destruct (Z.ltb_spec k w); cbn [andb].
  - destruct (Z.lt_ge_cases k 0); [now rewrite !Z.testbit_neg_r by lia|]. apply bit_mod. lia.
  - apply Z.mod_pow2_bits_high. lia.
Qed.

Lemma shifted_bit n c k : 0 <= n -> 0 <= k -> Z.testbit (b2z c << n) k = (k =? n) && c.
Proof.
  intros Hn Hk. rewrite Z.shiftl_spec by lia. destruct (Z.eqb_spec k n) as [->|].
  - rewrite Z.sub_diag. now destruct c.
  - destruct (Z.lt_ge_cases k n); [now rewrite Z.testbit_neg_r by lia|].
    destruct c; cbn [b2z andb]; [|apply Z.bits_0]. change 1 with (1 << 0). rewrite testbit_one_shift by lia. lia.
Qed.

Lemma rcl_bit w t0 n cf i : 8 <= w <= 32 -> 0 < n <= w -> 0 <= i < w ->
  let res := s32 (u32 ((t0 .& DATA_MASK w) << n) .| u32 (b2z cf << (n - 1))) in
  Z.testbit (u32 (if 1 <? n then s32 (res .| ((t0 .& DATA_MASK w) >> (w + 1 - n))) else res)) i
  = Z.testbit (with_carry w t0 cf) ((i - n) mod (w + 1)).
Proof.
  intros Hw Hn Hi. cbv zeta. rewrite u32_bit by lia.
  transitivity (((n <=? i) && Z.testbit t0 (i - n)) || ((i =? n - 1) && cf)
    || ((i <? n - 1) && Z.testbit t0 (i + (w + 1 - n)))).
  - destruct (Z.ltb_spec 1 n); rewrite !s32_bits, !Z.lor_spec, ?s32_bits, ?Z.lor_spec, !u32_bit, Z.shiftl_spec,
      masked_bit, shifted_bit, ?Z.shiftr_spec, ?masked_bit by lia.
    + f_equal; [f_equal|].
      * destruct (Z.ltb_spec (i - n) w), (Z.leb_spec n i); cbn [andb]; try done; try lia. apply Z.testbit_neg_r. lia.
      * f_equal. lia.
    + destruct (Z.ltb_spec (i - n) w), (Z.leb_spec n i), (Z.ltb_spec i (n - 1)), (Z.eqb_spec i (n - 1)); cbn [andb]; try lia;
        rewrite ?orb_false_r; try done. now rewrite Z.testbit_neg_r by lia.
  - destruct (Z.leb_spec n i).
    + rewrite Z.mod_small, with_carry_bit by lia.
      destruct (Z.eqb_spec i (n - 1)), (Z.ltb_spec i (n - 1)), (Z.eqb_spec (i - n) w); try lia. cbn. now rewrite !orb_false_r.
    + replace (i - n) with (i - n + (w + 1) + (-1) * (w + 1)) at 2 by lia.
      rewrite Z_mod_plus_full, Z.mod_small, with_carry_bit by lia. cbn [andb orb].
      destruct (Z.eqb_spec i (n - 1)), (Z.ltb_spec i (n - 1)), (Z.eqb_spec (i - n + (w + 1)) w); try lia; cbn; [now rewrite orb_false_r|].
      f_equal. lia.
Qed.

Lemma rcr_bit w t0 n cf i : 8 <= w <= 32 -> 0 < n <= w -> 0 <= i < w ->
  let res := s32 (((t0 .& DATA_MASK w) >> n) .| u32 (b2z cf << (w - n))) in
  Z.testbit (u32 (if 1 <? n then s32 (res .| u32 ((t0 .& DATA_MASK w) << (w + 1 - n))) else res)) i
  = Z.testbit (with_carry w t0 cf) ((i + n) mod (w + 1)).
Proof.
  intros Hw Hn Hi. cbv zeta. rewrite u32_bit by lia.
  transitivity (((i + n <? w) && Z.testbit t0 (i + n)) || ((i =? w - n) && cf)
    || ((w - n <? i) && Z.testbit t0 (i - (w + 1 - n)))).
  - destruct (Z.ltb_spec 1 n); rewrite !s32_bits, !Z.lor_spec, ?s32_bits, ?Z.lor_spec, !u32_bit, Z.shiftr_spec,
      masked_bit, shifted_bit, ?Z.shiftl_spec, ?masked_bit by lia.
    + f_equal.
      destruct (Z.ltb_spec (w - n) i), (Z.ltb_spec (i - (w + 1 - n)) w); cbn [andb]; try done; try lia.
      apply Z.testbit_neg_r. lia.
    + destruct (Z.ltb_spec (w - n) i); [lia|]. cbn [andb]. now rewrite orb_false_r.
  - destruct (Z.ltb_spec (i + n) (w + 1)).
    + rewrite Z.mod_small, with_carry_bit by lia.
      destruct (Z.ltb_spec (i + n) w), (Z.eqb_spec i (w - n)), (Z.ltb_spec (w - n) i), (Z.eqb_spec (i + n) w); try lia;
        cbn; now rewrite ?orb_false_r.
    + replace ((i + n) mod (w + 1)) with ((i + n - (w + 1) + 1 * (w + 1)) mod (w + 1)) by (f_equal; lia).
      rewrite Z_mod_plus_full, Z.mod_small, with_carry_bit by lia.
      destruct (Z.ltb_spec (i + n) w), (Z.eqb_spec i (w - n)), (Z.ltb_spec (w - n) i), (Z.eqb_spec (i + n - (w + 1)) w); try lia.
      cbn. f_equal. lia.
Qed.

(** The carry the rotate leaves in [cc_tmp]. *)
Lemma rotate_cf fl m x k : Z.testbit (u32 ((fl .& ~~ (CC_C .| CC_O)) .| (m .& CC_O) .| ((x >> k) .& CC_C))) 0
  = Z.testbit (x >> k) 0.
Proof.
  rewrite u32_bit, !Z.lor_spec, !Z.land_spec, Z.lnot_spec by lia.
  change (Z.testbit (CC_C .| CC_O) 0) with true. change (Z.testbit CC_O 0) with false. change (Z.testbit CC_C 0) with true.
  cbn [negb]. now rewrite !andb_false_r, andb_true_r.
Qed.

Definition carry_in (env : CPUX86State) : bool := Z.testbit (helper_cc_compute_all (cc_op env) env) 0.

Lemma rcl_spec w t0 t1 env (r := (helper_rcl w t0 t1 env).1) (tmp := cc_tmp (helper_rcl w t0 t1 env).2) :
  data_size w ->
  let n := (t1 .& 0x1f) mod (w + 1) in
  let v := with_carry w t0 (carry_in env) in
  (forall i, 0 <= i < w -> Z.testbit r i = Z.testbit v ((i - n) mod (w + 1)))
  /\ (n = 0 -> tmp = u32 (-1)) /\ (n <> 0 -> Z.testbit tmp 0 = Z.testbit v ((w - n) mod (w + 1))).
Proof.
  intros Hw. assert (8 <= w <= 32) by (destruct Hw as [-> | [-> | ->]]; lia). subst r tmp.
  unfold helper_rcl. rewrite rcx_count_spec, cc_c_bit by done. fold (carry_in env).
  pose proof (Z.mod_pos_bound (t1 .& 0x1f) (w + 1) ltac:(lia)) as Hn.
  cbv zeta. set (n := (t1 .& 0x1f) mod (w + 1)) in *. clearbody n.
  unfold truthy. destruct (Z.eqb_spec n 0) as [->|]; cbn [negb fst snd over cc_tmp]; (split; [|split]).
  - intros i Hi. rewrite Z.sub_0_r, Z.mod_small, with_carry_bit by lia. destruct (Z.eqb_spec i w); [lia|]. reflexivity.
  - done.
  - lia.
  - intros i Hi. apply rcl_bit; lia.
  - lia.
  - intros _. rewrite rotate_cf, Z.shiftr_spec, masked_bit, Z.mod_small, with_carry_bit, Z.add_0_l by lia.
    destruct (Z.ltb_spec (w - n) w), (Z.eqb_spec (w - n) w); try lia. reflexivity.
Qed.

Lemma rcr_spec w t0 t1 env (r := (helper_rcr w t0 t1 env).1) (tmp := cc_tmp (helper_rcr w t0 t1 env).2) :
  data_size w ->
  let n := (t1 .& 0x1f) mod (w + 1) in
  let v := with_carry w t0 (carry_in env) in
  (forall i, 0 <= i < w -> Z.testbit r i = Z.testbit v ((i + n) mod (w + 1)))
  /\ (n = 0 -> tmp = u32 (-1)) /\ (n <> 0 -> Z.testbit tmp 0 = Z.testbit v ((w + n) mod (w + 1))).
Proof.
  intros Hw. assert (8 <= w <= 32) by (destruct Hw as [-> | [-> | ->]]; lia). subst r tmp.
  unfold helper_rcr. rewrite rcx_count_spec, cc_c_bit by done. fold (carry_in env).
  pose proof (Z.mod_pos_bound (t1 .& 0x1f) (w + 1) ltac:(lia)) as Hn.
  cbv zeta. set (n := (t1 .& 0x1f) mod (w + 1)) in *. clearbody n.
  unfold truthy. destruct (Z.eqb_spec n 0) as [->|]; cbn [negb fst snd over cc_tmp]; (split; [|split]).
  - intros i Hi. rewrite Z.add_0_r, Z.mod_small, with_carry_bit by lia. destruct (Z.eqb_spec i w); [lia|]. reflexivity.
  - done.
  - lia.
  - intros i Hi. apply rcr_bit; lia.
  - lia.
  - intros _. replace ((w + n) mod (w + 1)) with ((n - 1 + 1 * (w + 1)) mod (w + 1)) by (f_equal; lia).
    rewrite rotate_cf, Z.shiftr_spec, masked_bit, Z_mod_plus_full, Z.mod_small, with_carry_bit, Z.add_0_l by lia.
    destruct (Z.ltb_spec (n - 1) w), (Z.eqb_spec (n - 1) w); try lia. reflexivity.
Qed.

(** ** The carry on its own

    [cc_ok] is what the translator leaves: the flags themselves, or an operation
    of this target with its operands, the carry alone for INC and DEC. *)

Definition CC_ALL : Z := CC_O .| CC_S .| CC_Z .| CC_A .| CC_P .| CC_C.

Definition cc_ok (env : CPUX86State) : Prop :=
  match cc_op env with
  | CC_OP_EFLAGS => cc_src env .& CC_ALL = cc_src env
  | CC_OP_INCB | CC_OP_INCW | CC_OP_INCL | CC_OP_DECB | CC_OP_DECW | CC_OP_DECL =>
      exists cf, cc_src env = b2z cf
  | CC_OP_DYNAMIC | CC_OP_NB | CC_OP_MULQ | CC_OP_ADDQ | CC_OP_ADCQ | CC_OP_SUBQ | CC_OP_SBBQ
  | CC_OP_LOGICQ | CC_OP_INCQ | CC_OP_DECQ | CC_OP_SHLQ | CC_OP_SARQ => False
  | _ => True
  end.

Lemma u32_b2z b : u32 (b2z b) = b2z b.
Proof. now destruct b. Qed.

Lemma s32_b2z b : s32 (b2z b) = b2z b.
Proof. now destruct b. Qed.

Lemma bit0_b2z b : Z.testbit (b2z b) 0 = b.
Proof. now destruct b. Qed.

Lemma pf_bit0 x : Z.testbit (pf_of x) 0 = false.
Proof. rewrite parity_table_spec. now destruct (even_parity x). Qed.

Lemma zf_bit0 w x : Z.testbit (zf_of w x) 0 = false.
Proof. rewrite zf_spec. now destruct (_ =? 0). Qed.

Lemma masked_bit0 x m : Z.testbit m 0 = false -> Z.testbit (x .& m) 0 = false.
Proof. intros H. now rewrite Z.land_spec, H, andb_false_r. Qed.

Lemma bit0_shift11 b : Z.testbit (b2z b << 11) 0 = false.
Proof. now destruct b. Qed.

(** Only the carry reaches bit 0. *)
Ltac carry_only :=
  rewrite !Z.lor_spec, ?pf_bit0, ?zf_bit0, ?bit0_shift11, ?Z.bits_0;
  unfold sf_of; rewrite ?(masked_bit0 _ 0x10), ?(masked_bit0 _ 0x80), ?(masked_bit0 _ CC_O) by reflexivity;
  rewrite ?orb_false_r, ?orb_false_l.

Lemma carry_consistent env : cc_ok env -> helper_cc_compute_c (cc_op env) env = b2z (carry_in env).
Proof.
  unfold cc_ok, carry_in, helper_cc_compute_c, helper_cc_compute_all. intros H. rewrite u32_bit by lia.
  destruct (cc_op env); try done;
    try (lazymatch type of H with ex _ => destruct H as [cf H] end; unfold compute_all_inc, compute_all_dec, compute_c_inc; rewrite H, s32_b2z, u32_b2z;
         carry_only; now rewrite bit0_b2z);
    try (unfold compute_all_add, compute_c_add, compute_all_adc, compute_c_adc, compute_all_sub, compute_c_sub,
           compute_all_sbb, compute_c_sbb, compute_all_mul, compute_c_mul;
         cbv zeta; carry_only; now rewrite u32_b2z, bit0_b2z);
    try (unfold compute_all_logic, compute_c_logic; now carry_only);
    try (unfold compute_all_shl, compute_c_shl, compute_all_sar, compute_c_sar; cbv zeta;
         change (cc_src env .& 1) with (cc_src env .& CC_C); rewrite cc_c_bit; carry_only;
         now rewrite u32_b2z, bit0_b2z).
  unfold compute_c_eflags, compute_all_eflags. now rewrite cc_c_bit, u32_b2z, s32_bits by lia.
Qed.

(** ** The flags stay within the arithmetic flags *)

Definition within (x : Z) : Prop := x .& CC_ALL = x.

Lemma within_lor x y : within x -> within y -> within (x .| y).
Proof. unfold within. intros Hx Hy. now rewrite Z.land_lor_distr_l, Hx, Hy. Qed.

Lemma within_land x m : m .& CC_ALL = m -> within (x .& m).
Proof. unfold within. intros Hm. now rewrite <- Z.land_assoc, Hm. Qed.

Lemma within_land_l x y : within x -> within (x .& y).
Proof. unfold within. intros Hx. rewrite <- Z.land_assoc, (Z.land_comm y), Z.land_assoc. now rewrite Hx. Qed.

Lemma within_b2z b : within (b2z b).
Proof. now destruct b. Qed.

Lemma within_pf x : within (pf_of x).
Proof. rewrite parity_table_spec. now destruct (even_parity x). Qed.

Lemma within_zf w x : within (zf_of w x).
Proof. rewrite zf_spec. now destruct (_ =? 0). Qed.

Lemma within_sf w x : within (sf_of w x).
Proof. now apply within_land. Qed.

Lemma within_shift11 b : within (b2z b << 11).
Proof. now destruct b. Qed.

Lemma within_0 : within 0.
Proof. done. Qed.

Lemma within_u32 x : within x -> u32 x = x /\ within (u32 x).
Proof.
  intros Hx. assert (u32 x = x) as E; [|split; [done|now rewrite E]].
  rewrite <- Hx. apply u32_id. now apply in_u_land_r.
Qed.

Create HintDb flags.
#[export] Hint Resolve within_lor within_land within_land_l within_b2z within_pf within_zf within_sf within_shift11 within_0 : flags.
#[export] Hint Extern 1 (_ .& CC_ALL = _) => reflexivity : flags.

Lemma compute_within env : cc_ok env -> within (helper_cc_compute_all (cc_op env) env).
Proof.
  intros H. unfold helper_cc_compute_all. apply within_u32. unfold cc_ok in H.
  destruct (cc_op env); try done;
    unfold compute_all_add, compute_all_adc, compute_all_sub, compute_all_sbb, compute_all_mul, compute_all_logic,
      compute_all_inc, compute_all_dec, compute_all_shl, compute_all_sar, compute_all_eflags; cbv zeta;
    try (lazymatch type of H with ex _ => destruct H as [cf ->] end; rewrite s32_b2z);
    try change (cc_src env .& 1) with (cc_src env .& CC_C); auto 10 with flags.
  pose proof (in_u_land_r 12 (cc_src env) CC_ALL ltac:(lia) ltac:(now compute)) as [H0 H1].
  change (2 ^ 12) with 4096 in H1. rewrite H in H0, H1. rewrite s32_id by lia. exact H.
Qed.

Lemma mkflags_u32 cf pf af zf sf ov : u32 (mkflags cf pf af zf sf ov) = mkflags cf pf af zf sf ov.
Proof. now destruct cf, pf, af, zf, sf, ov. Qed.

Lemma mkflags_all cf pf af zf sf ov : mkflags cf pf af zf sf ov .& CC_ALL = mkflags cf pf af zf sf ov.
Proof. now destruct cf, pf, af, zf, sf, ov. Qed.

End X86.
