(* ===== verification/X86Trans.v ===== *)
(** * Translated code: arithmetic instructions of target-i386/translate.c

    The translator emits TCG operations; the definitions here are the effect of
    the operations the function of the same name emits, on the CPU state, for a
    register destination.  [T0] and [T1] are the temporaries [cpu_T].  Where the
    code is [tcg_gen_discard_tl], the value left behind is the argument [junk].
    [cc_op] is the operation in force, whether the translator has stored it yet
    or still holds it in [s->cc_op]. *)

From S2P Require Import Prelude X86Cpu.

Module X86Trans.
Import X86.
#[local] Existing Instances X86.SegmentCache_eta X86.CPUX86State_eta.

Inductive OT := OT_BYTE | OT_WORD | OT_LONG.

Inductive OP := OP_ADDL | OP_ORL | OP_ADCL | OP_SBBL | OP_ANDL | OP_SUBL | OP_XORL | OP_CMPL.

Definition ot_num (ot : OT) : Z := match ot with OT_BYTE => 0 | OT_WORD => 1 | OT_LONG => 2 end.

(** [1 << (3 + ot)] bits. *)
Definition data_bits (ot : OT) : Z := match ot with OT_BYTE => 8 | OT_WORD => 16 | OT_LONG => 32 end.

(** The enumeration of [CC_OP_*] in order, for the sums the translator forms
    ([CC_OP_ADDB + ot]). *)
Definition cc_enum : list CC_OP :=
  [ CC_OP_DYNAMIC; CC_OP_EFLAGS;
    CC_OP_MULB; CC_OP_MULW; CC_OP_MULL; CC_OP_MULQ;
    CC_OP_ADDB; CC_OP_ADDW; CC_OP_ADDL; CC_OP_ADDQ;
    CC_OP_ADCB; CC_OP_ADCW; CC_OP_ADCL; CC_OP_ADCQ;
    CC_OP_SUBB; CC_OP_SUBW; CC_OP_SUBL; CC_OP_SUBQ;
    CC_OP_SBBB; CC_OP_SBBW; CC_OP_SBBL; CC_OP_SBBQ;
    CC_OP_LOGICB; CC_OP_LOGICW; CC_OP_LOGICL; CC_OP_LOGICQ;
    CC_OP_INCB; CC_OP_INCW; CC_OP_INCL; CC_OP_INCQ;
    CC_OP_DECB; CC_OP_DECW; CC_OP_DECL; CC_OP_DECQ;
    CC_OP_SHLB; CC_OP_SHLW; CC_OP_SHLL; CC_OP_SHLQ;
    CC_OP_SARB; CC_OP_SARW; CC_OP_SARL; CC_OP_SARQ;
    CC_OP_NB ].
Fixpoint cc_index (op : CC_OP) (l : list CC_OP) : Z :=
  match l with
  | [] => 0
  | o :: l => if decide (o = op) then 0 else 1 + cc_index op l
  end.
Definition cc_plus (op : CC_OP) (k : Z) : CC_OP :=
  nth (Z.to_nat (cc_index op cc_enum + k)) cc_enum CC_OP_NB.

(** [tcg_gen_deposit_tl]: [len] bits of [v] at bit [ofs] of [x]. *)
Definition deposit (x v ofs len : Z) : Z :=
  (x .& ~~ (Z.ones len << ofs)) .| ((v .& Z.ones len) << ofs).

Definition gen_op_mov_reg_v (ot : OT) (r t0 : Z) (env : CPUX86State) : CPUX86State :=
  match ot with
  | OT_BYTE =>
      if r <? 4 then set_reg r (deposit (reg r env) t0 0 8) env
      else set_reg (r - 4) (deposit (reg (r - 4) env) t0 8 8) env
  | OT_WORD => set_reg r (deposit (reg r env) t0 0 16) env
  | OT_LONG => set_reg r t0 env
  end.

Definition gen_op_mov_v_reg (ot : OT) (r : Z) (env : CPUX86State) : Z :=
  match ot with
  | OT_BYTE => if r <? 4 then reg r env else u8 (reg (r - 4) env >> 8)
  | _ => reg r env
  end.

Section Emitted.
Variable junk : Z.

Definition gen_op_update1_cc (T0 : Z) (env : CPUX86State) : CPUX86State :=
  env <| cc_src := junk |> <| cc_dst := T0 |>.
Definition gen_op_update2_cc (T0 T1 : Z) (env : CPUX86State) : CPUX86State :=
  env <| cc_src := T1 |> <| cc_dst := T0 |>.
Definition gen_op_cmpl_T0_T1_cc (T0 T1 : Z) (env : CPUX86State) : CPUX86State :=
  env <| cc_src := T1 |> <| cc_dst := u32 (T0 - T1) |>.
Definition gen_op_update_neg_cc (T0 : Z) (env : CPUX86State) : CPUX86State :=
  env <| cc_src := u32 (- T0) |> <| cc_dst := T0 |>.

Definition gen_compute_eflags_c (env : CPUX86State) : Z := helper_cc_compute_c (cc_op env) env.

Definition gen_op (op : OP) (ot : OT) (d T1 : Z) (env : CPUX86State) : CPUX86State :=
  let T0 := gen_op_mov_v_reg ot d env in
  match op with
  | OP_ADCL =>
      let tmp4 := gen_compute_eflags_c env in
      let T0 := u32 (T0 + T1) in
      let T0 := u32 (T0 + tmp4) in
      let env := gen_op_mov_reg_v ot d T0 env in
      let env := gen_op_update2_cc T0 T1 env in
      env <| cc_op := cc_plus CC_OP_ADDB ((tmp4 << 2) + ot_num ot) |>
  | OP_SBBL =>
      let tmp4 := gen_compute_eflags_c env in
      let T0 := u32 (T0 - T1) in
      let T0 := u32 (T0 - tmp4) in
      let env := gen_op_mov_reg_v ot d T0 env in
      let env := gen_op_update2_cc T0 T1 env in
      env <| cc_op := cc_plus CC_OP_SUBB ((tmp4 << 2) + ot_num ot) |>
  | OP_ADDL =>
      let T0 := u32 (T0 + T1) in
      let env := gen_op_mov_reg_v ot d T0 env in
      let env := gen_op_update2_cc T0 T1 env in
      env <| cc_op := cc_plus CC_OP_ADDB (ot_num ot) |>
  | OP_SUBL =>
      let T0 := u32 (T0 - T1) in
      let env := gen_op_mov_reg_v ot d T0 env in
      let env := gen_op_update2_cc T0 T1 env in
      env <| cc_op := cc_plus CC_OP_SUBB (ot_num ot) |>
  | OP_ANDL =>
      let T0 := T0 .& T1 in
      let env := gen_op_mov_reg_v ot d T0 env in
      let env := gen_op_update1_cc T0 env in
      env <| cc_op := cc_plus CC_OP_LOGICB (ot_num ot) |>
  | OP_ORL =>
      let T0 := T0 .| T1 in
      let env := gen_op_mov_reg_v ot d T0 env in
      let env := gen_op_update1_cc T0 env in
      env <| cc_op := cc_plus CC_OP_LOGICB (ot_num ot) |>
  | OP_XORL =>
      let T0 := T0 .^ T1 in
      let env := gen_op_mov_reg_v ot d T0 env in
      let env := gen_op_update1_cc T0 env in
      env <| cc_op := cc_plus CC_OP_LOGICB (ot_num ot) |>
  | OP_CMPL =>
      let env := gen_op_cmpl_T0_T1_cc T0 T1 env in
      env <| cc_op := cc_plus CC_OP_SUBB (ot_num ot) |>
  end.

Definition gen_inc (ot : OT) (d c : Z) (env : CPUX86State) : CPUX86State :=
  let T0 := gen_op_mov_v_reg ot d env in
  let '(T0, op) :=
    if 0 <? c then (u32 (T0 + 1), cc_plus CC_OP_INCB (ot_num ot))
    else (u32 (T0 + (-1)), cc_plus CC_OP_DECB (ot_num ot)) in
  let env := gen_op_mov_reg_v ot d T0 env in
  (* the carry is computed from the operation stored before *)
  let env := env <| cc_src := gen_compute_eflags_c env |> in
  let env := env <| cc_dst := T0 |> in
  env <| cc_op := op |>.

(** [case 3: /* neg */] of the 0xf6/0xf7 group in [disas_insn]. *)
Definition gen_neg (ot : OT) (rm : Z) (env : CPUX86State) : CPUX86State :=
  let T0 := gen_op_mov_v_reg ot rm env in
  let T0 := u32 (- T0) in
  let env := gen_op_mov_reg_v ot rm T0 env in
  let env := gen_op_update_neg_cc T0 env in
  env <| cc_op := cc_plus CC_OP_SUBB (ot_num ot) |>.

Definition gen_rotc_rm_T1 (ot : OT) (op1 : Z) (is_right : bool) (T1 : Z) (env : CPUX86State) : CPUX86State :=
  let T0 := gen_op_mov_v_reg ot op1 env in
  let '(T0, env) :=
    if is_right then helper_rcr (data_bits ot) T0 T1 env else helper_rcl (data_bits ot) T0 T1 env in
  let env := gen_op_mov_reg_v ot op1 T0 env in
  if cc_tmp env =? u32 (-1) then env
  else
    let env := env <| cc_src := cc_tmp env |> in
    let env := env <| cc_dst := junk |> in
    env <| cc_op := CC_OP_EFLAGS |>.
End Emitted.

(** ** Operands *)

(** The register, and the bits of it, that an operand names. *)
Definition fld_reg (ot : OT) (d : Z) : Z := match ot with OT_BYTE => if d <? 4 then d else d - 4 | _ => d end.
Definition fld_ofs (ot : OT) (d : Z) : Z := match ot with OT_BYTE => if d <? 4 then 0 else 8 | _ => 0 end.

(** The value of an operand. *)
Definition operand (ot : OT) (d : Z) (env : CPUX86State) : Z := gen_op_mov_v_reg ot d env mod 2 ^ data_bits ot.

Record cpu_ok (env : CPUX86State) : Prop := {
  ok_regs : length (regs env) = 8%nat;
  ok_width : Forall (in_u 32) (regs env);
  ok_cc : cc_ok env
}.

Lemma data_bits_range ot : 8 <= data_bits ot <= 32.
Proof. destruct ot; cbn; lia. Qed.

Lemma fld_range ot d : 0 <= d < 8 ->
  0 <= fld_reg ot d < 8 /\ 0 <= fld_ofs ot d /\ fld_ofs ot d + data_bits ot <= 32.
Proof. intros Hd. unfold fld_reg, fld_ofs, data_bits. destruct ot; try lia. destruct (Z.ltb_spec d 4); lia. Qed.

Lemma deposit_bit x v ofs len k : 0 <= ofs -> 0 <= len -> 0 <= k ->
  Z.testbit (deposit x v ofs len) k
  = if (ofs <=? k) && (k <? ofs + len) then Z.testbit v (k - ofs) else Z.testbit x k.
Proof.
  intros Ho Hl Hk. unfold deposit. rewrite Z.lor_spec, Z.land_spec, lnot_spec', !Z.shiftl_spec, Z.land_spec by lia.
  destruct (Z.leb_spec ofs k); cbn [andb].
  - rewrite Z.testbit_ones_nonneg by lia.
    destruct (Z.ltb_spec (k - ofs) len), (Z.ltb_spec k (ofs + len)); try lia; cbn [negb]; autorewrite with bits; reflexivity.
  - rewrite !(Z.testbit_neg_r _ (k - ofs)) by lia. cbn [negb andb]. now autorewrite with bits.
Qed.

Lemma reg_set_eq r v env : length (regs env) = 8%nat -> 0 <= r < 8 -> reg r (set_reg r v env) = u32 v.
Proof. intros Hl Hr. unfold reg, set_reg. cbn [over regs]. apply aget_aset_eq. lia. Qed.

Lemma reg_set_ne r r' v env : 0 <= r -> 0 <= r' -> r <> r' -> reg r' (set_reg r v env) = reg r' env.
Proof. intros. unfold reg, set_reg. cbn [over regs]. now apply aget_aset_ne. Qed.

Lemma mov_reg_set ot d v env : length (regs env) = 8%nat -> 0 <= d < 8 -> exists x,
  gen_op_mov_reg_v ot d v env = set_reg (fld_reg ot d) x env
  /\ forall k, 0 <= k < 32 -> Z.testbit x k =
       if (fld_ofs ot d <=? k) && (k <? fld_ofs ot d + data_bits ot) then Z.testbit v (k - fld_ofs ot d)
       else Z.testbit (reg (fld_reg ot d) env) k.
Proof.
  intros Hl Hd. unfold gen_op_mov_reg_v, fld_reg, fld_ofs, data_bits. destruct ot.
  - destruct (d <? 4); (eexists; split; [reflexivity|]); intros k Hk; now rewrite deposit_bit by lia.
  - eexists. split; [reflexivity|]. intros k Hk. now rewrite deposit_bit by lia.
  - exists v. split; [reflexivity|]. intros k Hk.
    destruct (Z.leb_spec 0 k), (Z.ltb_spec k (0 + 32)); try lia. cbn [andb]. f_equal. lia.
Qed.

Lemma mov_v_bit ot d env k : 0 <= k < data_bits ot ->
  Z.testbit (gen_op_mov_v_reg ot d env) k = Z.testbit (reg (fld_reg ot d) env) (k + fld_ofs ot d).
Proof.
  intros Hk. unfold gen_op_mov_v_reg, fld_reg, fld_ofs, data_bits in *. destruct ot; try (f_equal; lia).
  destruct (d <? 4); [f_equal; lia|]. rewrite u8_bits, Z.shiftr_spec by lia.
  destruct (Z.ltb_spec k 8); [reflexivity|lia].
Qed.

(** An operand reads back as it was written, and nothing else changes. *)
Lemma operand_write ot d v env : length (regs env) = 8%nat -> 0 <= d < 8 ->
  operand ot d (gen_op_mov_reg_v ot d v env) = v mod 2 ^ data_bits ot.
Proof.
  intros Hl Hd. unfold operand. pose proof (data_bits_range ot). destruct (fld_range ot d Hd) as (H1 & H2 & H3).
  destruct (mov_reg_set ot d v env Hl Hd) as (x & E & Hx).
  apply Z.bits_inj'. intros k Hk. destruct (Z.lt_ge_cases k (data_bits ot)).
  - rewrite !bit_mod, mov_v_bit, E, reg_set_eq, u32_bit, Hx by (done || lia).
    destruct (Z.leb_spec (fld_ofs ot d) (k + fld_ofs ot d)), (Z.ltb_spec (k + fld_ofs ot d) (fld_ofs ot d + data_bits ot));
      try lia. cbn [andb]. f_equal. lia.
  - now rewrite !Z.mod_pow2_bits_high by lia.
Qed.

Lemma write_frame ot d v env j k : length (regs env) = 8%nat -> Forall (in_u 32) (regs env) ->
  0 <= d < 8 -> 0 <= j < 8 -> 0 <= k ->
  ~ (j = fld_reg ot d /\ fld_ofs ot d <= k < fld_ofs ot d + data_bits ot) ->
  Z.testbit (reg j (gen_op_mov_reg_v ot d v env)) k = Z.testbit (reg j env) k.
Proof.
  intros Hl Hr Hd Hj Hk Hn. destruct (fld_range ot d Hd) as (H1 & H2 & H3).
  destruct (mov_reg_set ot d v env Hl Hd) as (x & E & Hx). rewrite E.
  destruct (Z.eq_dec j (fld_reg ot d)) as [->|]; [|now rewrite reg_set_ne by lia].
  rewrite reg_set_eq, u32_bits by lia. destruct (Z.ltb_spec k 32); cbn [andb].
  - rewrite Hx by lia.
    destruct (Z.leb_spec (fld_ofs ot d) k), (Z.ltb_spec k (fld_ofs ot d + data_bits ot)); try reflexivity. lia.
  - symmetry. apply (testbit_in_u_high 32); [lia| |lia]. unfold reg. apply aget_Forall; [done|exact Hr].
Qed.

Lemma write_regs ot d v env : length (regs env) = 8%nat -> Forall (in_u 32) (regs env) ->
  let env' := gen_op_mov_reg_v ot d v env in
  length (regs env') = 8%nat /\ Forall (in_u 32) (regs env').
Proof.
  intros Hl Hr. unfold gen_op_mov_reg_v.
  assert (forall r x, length (regs (set_reg r x env)) = 8%nat /\ Forall (in_u 32) (regs (set_reg r x env))) as H.
  { intros r x. unfold set_reg. cbn [over regs]. rewrite length_aset. split; [done|]. apply aset_Forall; [|done].
    apply u32_range. }
  destruct ot; [destruct (d <? 4)| |]; apply H.
Qed.

Lemma write_cc ot d v env : let env' := gen_op_mov_reg_v ot d v env in
  cc_src env' = cc_src env /\ cc_dst env' = cc_dst env /\ cc_op env' = cc_op env.
Proof. unfold gen_op_mov_reg_v. destruct ot; [destruct (d <? 4)| |]; done. Qed.

(** ** The arithmetic instructions *)

Definition alu_result (op : OP) (w a b c : Z) : Z :=
  match op with
  | OP_ADDL => (a + b) mod 2 ^ w
  | OP_ADCL => (a + b + c) mod 2 ^ w
  | OP_SUBL => (a - b) mod 2 ^ w
  | OP_SBBL => (a - b - c) mod 2 ^ w
  | OP_ANDL => a .& b
  | OP_ORL => a .| b
  | OP_XORL => a .^ b
  | OP_CMPL => a
  end.

Definition alu_flags (op : OP) (w a b c : Z) : Z :=
  match op with
  | OP_ADDL => add_flags w a b 0
  | OP_ADCL => add_flags w a b c
  | OP_SUBL | OP_CMPL => sub_flags w a b 0
  | OP_SBBL => sub_flags w a b c
  | OP_ANDL => logic_flags w (a .& b)
  | OP_ORL => logic_flags w (a .| b)
  | OP_XORL => logic_flags w (a .^ b)
  end.

Lemma land_mod w x y : 0 <= w -> (x .& y) mod 2 ^ w = (x mod 2 ^ w) .& (y mod 2 ^ w).
Proof. intros Hw. rewrite <- !Z.land_ones by done. bitwise. Qed.

Lemma lor_mod w x y : 0 <= w -> (x .| y) mod 2 ^ w = (x mod 2 ^ w) .| (y mod 2 ^ w).
Proof. intros Hw. rewrite <- !Z.land_ones by done. bitwise. Qed.

Lemma lxor_mod w x y : 0 <= w -> (x .^ y) mod 2 ^ w = (x mod 2 ^ w) .^ (y mod 2 ^ w).
Proof. intros Hw. rewrite <- !Z.land_ones by done. bitwise. Qed.

Lemma sum_mod w x y c : (x + y + c) mod 2 ^ w = (x mod 2 ^ w + y mod 2 ^ w + c) mod 2 ^ w.
Proof. rewrite (Zplus_mod (x + y)), (Zplus_mod x y). symmetry. apply Zplus_mod. Qed.

Lemma diff_mod w x y c : (x - y - c) mod 2 ^ w = (x mod 2 ^ w - y mod 2 ^ w - c) mod 2 ^ w.
Proof. rewrite (Zminus_mod (x - y)), (Zminus_mod x y). symmetry. apply Zminus_mod. Qed.

Lemma u32_u32 x y : u32 (u32 x + y) = u32 (x + y).
Proof. unfold u32. now rewrite Zplus_mod_idemp_l. Qed.

Lemma u32_u32_sub x y : u32 (u32 x - y) = u32 (x - y).
Proof. unfold u32. now rewrite Zminus_mod_idemp_l. Qed.

(** What the store of a result leaves. *)
Lemma stored ot d v s r o env (env' := (gen_op_mov_reg_v ot d v env) <| cc_src := s |> <| cc_dst := r |> <| cc_op := o |>) :
  cpu_ok env -> 0 <= d < 8 -> cc_ok env' ->
  operand ot d env' = v mod 2 ^ data_bits ot /\ cpu_ok env'.
Proof.
  intros Ho Hd Hc. split; [exact (operand_write ot d v env (ok_regs _ Ho) Hd)|].
  destruct (write_regs ot d v env (ok_regs _ Ho) (ok_width _ Ho)) as [H1 H2].
  constructor; [exact H1|exact H2|exact Hc].
Qed.

Lemma cc_plus_ot (o : CC_OP) ot env : o = CC_OP_ADDB \/ o = CC_OP_ADCB \/ o = CC_OP_SUBB \/ o = CC_OP_SBBB \/ o = CC_OP_LOGICB ->
  cc_ok (env <| cc_op := cc_plus o (ot_num ot) |>).
Proof. intros [-> | [-> | [-> | [-> | ->]]]]; destruct ot; exact I. Qed.

Lemma adc_op b ot : cc_plus CC_OP_ADDB ((b2z b << 2) + ot_num ot) = cc_plus (if b then CC_OP_ADCB else CC_OP_ADDB) (ot_num ot).
Proof. now destruct b, ot. Qed.

Lemma sbb_op b ot : cc_plus CC_OP_SUBB ((b2z b << 2) + ot_num ot) = cc_plus (if b then CC_OP_SBBB else CC_OP_SUBB) (ot_num ot).
Proof. now destruct b, ot. Qed.

(** The flags of the operation in force, at the size of the operand. *)
Lemma compute_at ot env :
  helper_cc_compute_all (cc_plus CC_OP_ADDB (ot_num ot)) env = u32 (compute_all_add (data_bits ot) env)
  /\ helper_cc_compute_all (cc_plus CC_OP_ADCB (ot_num ot)) env = u32 (compute_all_adc (data_bits ot) env)
  /\ helper_cc_compute_all (cc_plus CC_OP_SUBB (ot_num ot)) env = u32 (compute_all_sub (data_bits ot) env)
  /\ helper_cc_compute_all (cc_plus CC_OP_SBBB (ot_num ot)) env = u32 (compute_all_sbb (data_bits ot) env)
  /\ helper_cc_compute_all (cc_plus CC_OP_LOGICB (ot_num ot)) env = u32 (compute_all_logic (data_bits ot) env)
  /\ helper_cc_compute_all (cc_plus CC_OP_INCB (ot_num ot)) env = u32 (compute_all_inc (data_bits ot) env)
  /\ helper_cc_compute_all (cc_plus CC_OP_DECB (ot_num ot)) env = u32 (compute_all_dec (data_bits ot) env).
Proof. destruct ot; repeat split. Qed.

Section Alu.
Variable junk : Z.

Lemma add_step ot d t1 env (c : bool) o v
    (env' := (gen_op_mov_reg_v ot d v env) <| cc_src := t1 |> <| cc_dst := v |> <| cc_op := cc_plus o (ot_num ot) |>)
    (w := data_bits ot) (a := operand ot d env) (b := t1 mod 2 ^ w) :
  cpu_ok env -> 0 <= d < 8 -> in_u 32 t1 ->
  v = u32 (gen_op_mov_v_reg ot d env + t1 + b2z c) -> o = (if c then CC_OP_ADCB else CC_OP_ADDB) ->
  operand ot d env' = (a + b + b2z c) mod 2 ^ w
  /\ helper_cc_compute_all (cc_op env') env' = add_flags w a b (b2z c) /\ cpu_ok env'.
Proof.
  intros Ho Hd Ht Hv Hop. pose proof (data_bits_range ot) as Hw.
  destruct (stored ot d v t1 v (cc_plus o (ot_num ot)) env Ho Hd) as [H1 H2].
  { subst o. apply cc_plus_ot. destruct c; auto. }
  split; [|split; [|exact H2]].
  - etransitivity; [exact H1|]. rewrite Hv, u32_mod by lia. apply sum_mod.
  - destruct (compute_at ot env') as (E1 & E2 & _).
    change (cc_op env') with (cc_plus o (ot_num ot)). subst o. destruct c; cbn [b2z] in *.
    + rewrite E2. fold w. destruct (lazy_adc w Hw env' (gen_op_mov_v_reg ot d env) t1) as [E _];
        [now rewrite (u32_id t1)|exact Hv|]. rewrite E. apply mkflags_u32.
    + rewrite E1. fold w. destruct (lazy_add w Hw env' (gen_op_mov_v_reg ot d env) t1) as [E _];
        [now rewrite (u32_id t1)|rewrite Z.add_0_r in Hv; exact Hv|]. rewrite E. apply mkflags_u32.
Qed.

Lemma sub_step ot d t1 env (c : bool) o v
    (env' := (gen_op_mov_reg_v ot d v env) <| cc_src := t1 |> <| cc_dst := v |> <| cc_op := cc_plus o (ot_num ot) |>)
    (w := data_bits ot) (a := operand ot d env) (b := t1 mod 2 ^ w) :
  cpu_ok env -> 0 <= d < 8 -> in_u 32 t1 ->
  v = u32 (gen_op_mov_v_reg ot d env - t1 - b2z c) -> o = (if c then CC_OP_SBBB else CC_OP_SUBB) ->
  operand ot d env' = (a - b - b2z c) mod 2 ^ w
  /\ helper_cc_compute_all (cc_op env') env' = sub_flags w a b (b2z c) /\ cpu_ok env'.
Proof.
  intros Ho Hd Ht Hv Hop. pose proof (data_bits_range ot) as Hw.
  destruct (stored ot d v t1 v (cc_plus o (ot_num ot)) env Ho Hd) as [H1 H2].
  { subst o. apply cc_plus_ot. destruct c; auto. }
  split; [|split; [|exact H2]].
  - etransitivity; [exact H1|]. rewrite Hv, u32_mod by lia. apply diff_mod.
  - destruct (compute_at ot env') as (_ & _ & E1 & E2 & _).
    change (cc_op env') with (cc_plus o (ot_num ot)). subst o. destruct c; cbn [b2z] in *.
    + rewrite E2. fold w. destruct (lazy_sbb w Hw env' (gen_op_mov_v_reg ot d env) t1) as [E _];
        [now rewrite (u32_id t1)|exact Hv|]. rewrite E. apply mkflags_u32.
    + rewrite E1. fold w. destruct (lazy_sub w Hw env' (gen_op_mov_v_reg ot d env) t1) as [E _];
        [now rewrite (u32_id t1)|rewrite Z.sub_0_r in Hv; exact Hv|]. rewrite E. apply mkflags_u32.
Qed.

Lemma logic_step ot d v r env
    (env' := (gen_op_mov_reg_v ot d v env) <| cc_src := junk |> <| cc_dst := v |>
             <| cc_op := cc_plus CC_OP_LOGICB (ot_num ot) |>)
    (w := data_bits ot) :
  cpu_ok env -> 0 <= d < 8 -> in_u 32 v -> v mod 2 ^ w = r ->
  operand ot d env' = r /\ helper_cc_compute_all (cc_op env') env' = logic_flags w r /\ cpu_ok env'.
Proof.
  intros Ho Hd Hv <-. pose proof (data_bits_range ot) as Hw.
  destruct (stored ot d v junk v (cc_plus CC_OP_LOGICB (ot_num ot)) env Ho Hd) as [H1 H2]; [apply cc_plus_ot; auto 6|].
  split; [exact H1|]. split; [|exact H2].
  destruct (compute_at ot env') as (_ & _ & _ & _ & E & _).
  change (cc_op env') with (cc_plus CC_OP_LOGICB (ot_num ot)). rewrite E. fold w. rewrite (lazy_logic w Hw env' v); [apply mkflags_u32|].
  now rewrite (u32_id v).
Qed.

(** Every bit of every register but those of the operand is unchanged. *)
Definition same_elsewhere (ot : OT) (d : Z) (env env' : CPUX86State) : Prop :=
  forall j k, 0 <= j < 8 -> 0 <= k ->
    ~ (j = fld_reg ot d /\ fld_ofs ot d <= k < fld_ofs ot d + data_bits ot) ->
    Z.testbit (reg j env') k = Z.testbit (reg j env) k.

Lemma same_write ot d v env : cpu_ok env -> 0 <= d < 8 -> same_elsewhere ot d env (gen_op_mov_reg_v ot d v env).
Proof. intros [H1 H2 _] Hd j k Hj Hk Hn. now apply write_frame. Qed.

Lemma mov_v_in_u ot d env : cpu_ok env -> in_u 32 (gen_op_mov_v_reg ot d env).
Proof.
  intros [_ H _]. assert (forall r, in_u 32 (reg r env)) as Hr by (intros r; unfold reg; now apply aget_Forall).
  unfold gen_op_mov_v_reg. destruct ot; try apply Hr. destruct (d <? 4); [apply Hr|].
  apply (in_u_mono 8); [lia|apply u8_range].
Qed.

Lemma gen_op_spec op ot d t1 env (env' := gen_op junk op ot d t1 env) (w := data_bits ot)
    (a := operand ot d env) (b := t1 mod 2 ^ w) (c := b2z (carry_in env)) :
  cpu_ok env -> 0 <= d < 8 -> in_u 32 t1 ->
  (operand ot d env' = alu_result op w a b c
   /\ helper_cc_compute_all (cc_op env') env' = alu_flags op w a b c /\ cpu_ok env')
  /\ same_elsewhere ot d env env'.
Proof.
  intros Ho Hd Ht. pose proof (data_bits_range ot) as Hw. pose proof (mov_v_in_u ot d env Ho) as Hm.
  split; [|subst env'; destruct op; try exact (same_write ot d _ env Ho Hd); intros j k _ _ _; reflexivity].
  assert (forall x y, (x + y) mod 2 ^ w = (x + y + 0) mod 2 ^ w) as P0 by (intros; f_equal; lia).
  assert (forall x y, (x - y) mod 2 ^ w = (x - y - 0) mod 2 ^ w) as M0 by (intros; f_equal; lia).
  unfold env', gen_op, gen_compute_eflags_c, gen_op_update1_cc, gen_op_update2_cc. unfold alu_result, alu_flags.
  rewrite (carry_consistent env (ok_cc _ Ho)). destruct op.
  - rewrite P0. apply (add_step ot d t1 env false CC_OP_ADDB); try done. f_equal. cbn. lia.
  - apply logic_step; auto with width. apply lor_mod. lia.
  - rewrite adc_op. apply (add_step ot d t1 env (carry_in env)); try done. apply u32_u32.
  - rewrite sbb_op. apply (sub_step ot d t1 env (carry_in env)); try done. apply u32_u32_sub.
  - apply logic_step; auto with width. apply land_mod. lia.
  - rewrite M0. apply (sub_step ot d t1 env false CC_OP_SUBB); try done. f_equal. cbn. lia.
  - apply logic_step; auto with width. apply lxor_mod. lia.
  - destruct (sub_step ot d t1 env false CC_OP_SUBB (u32 (gen_op_mov_v_reg ot d env - t1)) Ho Hd Ht) as (_ & F & K);
      [f_equal; cbn; lia|done|]. split; [reflexivity|]. split.
    + etransitivity; [|exact F]. cbn [over cc_op]. destruct ot; reflexivity.
    + destruct Ho as [H1 H2 _]. constructor; [exact H1|exact H2|destruct ot; exact I].
Qed.

(** C10: the ADD, OR, ADC, SBB, AND, SUB, XOR and CMP of the guest, on any
    register operand of 8, 16 or 32 bits: the destination holds the result
    modulo the operand size, the flags recovered later from [cc_op], [cc_src]
    and [cc_dst] are the carry, parity, adjust, zero, sign and overflow of the
    arithmetic, the carry in is the carry of the operation before, and no other
    register bit changes. *)
Theorem x86_alu_correct op ot d t1 env (env' := gen_op junk op ot d t1 env) (w := data_bits ot)
    (a := operand ot d env) (b := t1 mod 2 ^ w) (c := b2z (carry_in env)) :
  cpu_ok env -> 0 <= d < 8 -> in_u 32 t1 ->
  operand ot d env' = alu_result op w a b c
  /\ helper_cc_compute_all (cc_op env') env' = alu_flags op w a b c
  /\ cpu_ok env' /\ same_elsewhere ot d env env'.
Proof.
  intros Ho Hd Ht. destruct (gen_op_spec op ot d t1 env Ho Hd Ht) as [(H1 & H2 & H3) H4].
  exact (conj H1 (conj H2 (conj H3 H4))).
Qed.

Lemma gen_inc_spec ot d c env (env' := gen_inc ot d c env) (w := data_bits ot) (a := operand ot d env) :
  cpu_ok env -> 0 <= d < 8 ->
  operand ot d env' = (if 0 <? c then a + 1 else a - 1) mod 2 ^ w
  /\ helper_cc_compute_all (cc_op env') env'
     = (if 0 <? c then add_flags_cf else sub_flags_cf) (carry_in env) w a 1 0
  /\ cpu_ok env'.
Proof.
  intros Ho Hd. pose proof (data_bits_range ot) as Hw. unfold env', gen_inc.
  set (dir := 0 <? c). set (x := gen_op_mov_v_reg ot d env).
  set (v := if dir then u32 (x + 1) else u32 (x + -1)).
  set (o := if dir then cc_plus CC_OP_INCB (ot_num ot) else cc_plus CC_OP_DECB (ot_num ot)).
  replace (if dir then (u32 (x + 1), cc_plus CC_OP_INCB (ot_num ot)) else (u32 (x + -1), cc_plus CC_OP_DECB (ot_num ot)))
    with (v, o) by (unfold v, o; now destruct dir).
  assert (gen_compute_eflags_c (gen_op_mov_reg_v ot d v env) = b2z (carry_in env)) as Hc.
  { unfold gen_compute_eflags_c. rewrite <- (carry_consistent env (ok_cc _ Ho)).
    unfold gen_op_mov_reg_v. destruct ot; [destruct (d <? 4)| |]; reflexivity. }
  rewrite Hc. destruct (stored ot d v (b2z (carry_in env)) v o env Ho Hd) as [H1 H2].
  { unfold o. destruct dir, ot; exists (carry_in env); reflexivity. }
  split; [|split; [|exact H2]].
  - etransitivity; [exact H1|]. unfold v, a, operand. fold x. fold w.
    destruct dir; rewrite u32_mod by lia; [now rewrite Zplus_mod_idemp_l|now rewrite Zminus_mod_idemp_l].
  - set (e := (gen_op_mov_reg_v ot d v env) <| cc_src := _ |> <| cc_dst := _ |> <| cc_op := _ |>).
    destruct (compute_at ot e) as (_ & _ & _ & _ & _ & E1 & E2). change (cc_op e) with o. unfold o. destruct dir.
    + rewrite E1. fold w. destruct (lazy_inc w Hw e x (carry_in env)) as [E _]; [reflexivity|reflexivity|].
      rewrite E. apply mkflags_u32.
    + rewrite E2. fold w. destruct (lazy_dec w Hw e x (carry_in env)) as [E _]; [reflexivity|reflexivity|].
      rewrite E. apply mkflags_u32.
Qed.

(** INC and DEC of the guest add and subtract one and set every arithmetic
    flag but the carry, which is still the carry of the operation before. *)
Theorem x86_inc_keeps_carry ot d c env (env' := gen_inc ot d c env) (w := data_bits ot) (a := operand ot d env) :
  cpu_ok env -> 0 <= d < 8 ->
  operand ot d env' = (if 0 <? c then a + 1 else a - 1) mod 2 ^ w
  /\ helper_cc_compute_all (cc_op env') env'
     = (if 0 <? c then add_flags_cf else sub_flags_cf) (carry_in env) w a 1 0
  /\ cpu_ok env'.
Proof. exact (gen_inc_spec ot d c env). Qed.

(** NEG is a subtraction from zero. *)
Lemma gen_neg_spec ot d env (env' := gen_neg ot d env) (w := data_bits ot) (a := operand ot d env) :
  cpu_ok env -> 0 <= d < 8 ->
  operand ot d env' = (0 - a) mod 2 ^ w /\ helper_cc_compute_all (cc_op env') env' = sub_flags w 0 a 0 /\ cpu_ok env'.
Proof.
  intros Ho Hd. pose proof (data_bits_range ot) as Hw. unfold env', gen_neg, gen_op_update_neg_cc.
  set (x := gen_op_mov_v_reg ot d env). set (v := u32 (- x)). set (o := cc_plus CC_OP_SUBB (ot_num ot)).
  destruct (stored ot d v (u32 (- v)) v o env Ho Hd) as [H1 H2]; [apply cc_plus_ot; auto|].
  split; [|split; [|exact H2]].
  - etransitivity; [exact H1|]. unfold v. rewrite u32_mod by lia. unfold a, operand. fold x.
    rewrite Zminus_mod_idemp_r. f_equal.
  - set (e := (gen_op_mov_reg_v ot d v env) <| cc_src := _ |> <| cc_dst := _ |> <| cc_op := _ |>).
    destruct (compute_at ot e) as (_ & _ & E1 & _). change (cc_op e) with o. unfold o. rewrite E1. fold w.
    destruct (lazy_sub w Hw e 0 x) as [E _]; [| |rewrite E, Z.mod_0_l by (pose proof (Z.pow_pos_nonneg 2 w); lia); apply mkflags_u32].
    + change (u32 (- u32 (- x)) = u32 x). rewrite <- Z.sub_0_l. unfold u32. rewrite Zminus_mod_idemp_r. f_equal. lia.
    + change (u32 (- x) = u32 (0 - x)). f_equal.
Qed.

(** ** Rotates through the carry *)

(** The [data_bits ot + 1] bits the rotate turns. *)
Definition rot_value (ot : OT) (d : Z) (env : CPUX86State) : Z :=
  with_carry (data_bits ot) (operand ot d env) (carry_in env).

Lemma with_carry_mod w x cf : 0 <= w -> with_carry w (x mod 2 ^ w) cf = with_carry w x cf.
Proof. intros Hw. unfold with_carry. rewrite Z.mod_mod; [done|]. pose proof (Z.pow_pos_nonneg 2 w). lia. Qed.

Lemma rotate_tmp fl m x k : within fl -> let tmp := u32 ((fl .& ~~ (CC_C .| CC_O)) .| (m .& CC_O) .| ((x >> k) .& CC_C)) in
  within tmp /\ tmp <> u32 (-1).
Proof.
  intros Hf. cbv zeta. destruct (within_u32 ((fl .& ~~ (CC_C .| CC_O)) .| (m .& CC_O) .| ((x >> k) .& CC_C))) as [E H];
    [auto with flags|]. split; [exact H|]. intros Heq. unfold within in H. rewrite Heq in H. discriminate.
Qed.

(** Where bit [i] of a rotation by [n] comes from. *)
Definition rot_from (right : bool) (w n i : Z) : Z := (if right then i + n else i - n) mod (w + 1).

Lemma rot_helper w (right : bool) x t1 env (n := (t1 .& 0x1f) mod (w + 1)) (v := with_carry w x (carry_in env)) :
  data_size w -> cc_ok env -> exists T0 tmp,
    (if right then helper_rcr w x t1 env else helper_rcl w x t1 env) = (T0, env <| cc_tmp := tmp |>)
    /\ (forall i, 0 <= i < w -> Z.testbit T0 i = Z.testbit v (rot_from right w n i))
    /\ (n = 0 -> tmp = u32 (-1))
    /\ (n <> 0 -> Z.testbit tmp 0 = Z.testbit v (rot_from right w n w) /\ within tmp /\ tmp <> u32 (-1)).
Proof.
  intros Hs Hc. pose proof (compute_within env Hc) as Hf. unfold rot_from. destruct right.
  - destruct (rcr_spec w x t1 env Hs) as (R1 & R2 & R3).
    exists (helper_rcr w x t1 env).1, (cc_tmp (helper_rcr w x t1 env).2).
    split; [unfold helper_rcr; now destruct (truthy _)|]. split; [exact R1|]. split; [exact R2|].
    intros Hn. split; [now apply R3|]. unfold helper_rcr. rewrite rcx_count_spec by done. fold n.
    unfold truthy. destruct (Z.eqb_spec n 0); [done|]. now apply rotate_tmp.
  - destruct (rcl_spec w x t1 env Hs) as (R1 & R2 & R3).
    exists (helper_rcl w x t1 env).1, (cc_tmp (helper_rcl w x t1 env).2).
    split; [unfold helper_rcl; now destruct (truthy _)|]. split; [exact R1|]. split; [exact R2|].
    intros Hn. split; [now apply R3|]. unfold helper_rcl. rewrite rcx_count_spec by done. fold n.
    unfold truthy. destruct (Z.eqb_spec n 0); [done|]. now apply rotate_tmp.
Qed.

Lemma rot_value_bit ot d env i : 0 <= i <= data_bits ot ->
  Z.testbit (rot_value ot d env) i
  = if i =? data_bits ot then carry_in env else Z.testbit (operand ot d env) i.
Proof. intros Hi. now apply with_carry_bit. Qed.

Lemma carry_same e e' : cc_src e = cc_src e' -> cc_dst e = cc_dst e' -> cc_op e = cc_op e' -> carry_in e = carry_in e'.
Proof.
  intros C1 C2 C3. unfold carry_in. rewrite C3. unfold helper_cc_compute_all.
  destruct (cc_op e'); cbv beta delta [compute_all_add compute_all_adc compute_all_sub
    compute_all_sbb compute_all_mul compute_all_logic compute_all_inc compute_all_dec compute_all_shl
    compute_all_sar compute_all_eflags] zeta; rewrite ?C1, ?C2; reflexivity.
Qed.

Lemma rotc_spec ot d (right : bool) t1 env (env' := gen_rotc_rm_T1 junk ot d right t1 env) (w := data_bits ot)
    (n := (t1 .& 0x1f) mod (w + 1)) :
  cpu_ok env -> 0 <= d < 8 ->
  cpu_ok env' /\ forall i, 0 <= i <= w ->
    Z.testbit (rot_value ot d env') i = Z.testbit (rot_value ot d env) (rot_from right w n i).
Proof.
  intros Ho Hd. pose proof (data_bits_range ot) as Hw.
  assert (data_size w) as Hs by (unfold data_size, w; destruct ot; cbn; auto).
  destruct (rot_helper w right (gen_op_mov_v_reg ot d env) t1 env Hs (ok_cc _ Ho)) as (T0 & tmp & Hy & H1 & H2 & H3).
  fold n in H1, H2, H3. rewrite <- (with_carry_mod w) in H1, H3 by lia.
  change (with_carry w (gen_op_mov_v_reg ot d env mod 2 ^ w) (carry_in env)) with (rot_value ot d env) in H1, H3.
  assert (operand ot d (gen_op_mov_reg_v ot d T0 (env <| cc_tmp := tmp |>)) = T0 mod 2 ^ w) as Hop
    by (apply operand_write; [exact (ok_regs _ Ho)|exact Hd]).
  pose proof (write_regs ot d T0 (env <| cc_tmp := tmp |>)) as Hr.
  destruct (Hr (ok_regs _ Ho) (ok_width _ Ho)) as [Hr1 Hr2]. clear Hr.
  destruct (write_cc ot d T0 (env <| cc_tmp := tmp |>)) as (C1 & C2 & C3).
  assert (cc_tmp (gen_op_mov_reg_v ot d T0 (env <| cc_tmp := tmp |>)) = tmp) as Ct
    by (unfold gen_op_mov_reg_v; destruct ot; [destruct (d <? 4)| |]; reflexivity).
  unfold env', gen_rotc_rm_T1. fold w. rewrite Hy. set (e := gen_op_mov_reg_v ot d T0 (env <| cc_tmp := tmp |>)) in *.
  clearbody e. rewrite Ct. destruct (Z.eq_dec n 0) as [Hn|Hn].
  - rewrite (H2 Hn), Z.eqb_refl. assert (carry_in e = carry_in env) as Hcy by now apply carry_same.
    split.
    + constructor; [exact Hr1|exact Hr2|]. unfold cc_ok. rewrite C3, C1. exact (ok_cc _ Ho).
    + intros i Hi. rewrite rot_value_bit by done. fold w. rewrite Hop, Hcy.
      destruct (Z.eqb_spec i w) as [->|].
      * unfold rot_from. rewrite Hn. replace (if right then w + 0 else w - 0) with w by (destruct right; lia).
        rewrite Z.mod_small, rot_value_bit by lia. fold w. now rewrite Z.eqb_refl.
      * rewrite bit_mod by lia. apply H1. lia.
  - destruct (H3 Hn) as (B & Wt & Ne). destruct (Z.eqb_spec tmp (u32 (-1))); [done|]. split.
    + constructor; [exact Hr1|exact Hr2|exact Wt].
    + intros i Hi. rewrite rot_value_bit by done. fold w. change (operand ot d _) with (operand ot d e). rewrite Hop.
      destruct (Z.eqb_spec i w) as [->|]; [|rewrite bit_mod by lia; apply H1; lia].
      rewrite <- B. change (Z.testbit (u32 (s32 tmp)) 0 = Z.testbit tmp 0).
      now rewrite u32_bit, s32_bits by lia.
Qed.

(** RCL followed by RCR by the same count restores the operand and the
    carry, for every count, operand size and register. *)
Theorem x86_rcl_rcr_roundtrip ot d t1 env
    (env1 := gen_rotc_rm_T1 junk ot d false t1 env) (env2 := gen_rotc_rm_T1 junk ot d true t1 env1) :
  cpu_ok env -> 0 <= d < 8 ->
  operand ot d env2 = operand ot d env /\ carry_in env2 = carry_in env.
Proof.
  intros Ho Hd. pose proof (data_bits_range ot) as Hw.
  destruct (rotc_spec ot d false t1 env Ho Hd) as [O1 R1]. fold env1 in O1, R1.
  destruct (rotc_spec ot d true t1 env1 O1 Hd) as [O2 R2]. fold env2 in O2, R2.
  set (w := data_bits ot) in *. set (n := (t1 .& 0x1f) mod (w + 1)) in *.
  assert (forall i, 0 <= i <= w -> Z.testbit (rot_value ot d env2) i = Z.testbit (rot_value ot d env) i) as H.
  { intros i Hi. rewrite R2 by done. pose proof (Z.mod_pos_bound (i + n) (w + 1) ltac:(lia)).
    unfold rot_from at 1. rewrite R1 by lia. unfold rot_from. rewrite Zminus_mod_idemp_l.
    replace (i + n - n) with i by lia. now rewrite Z.mod_small by lia. }
  split.
  - apply Z.bits_inj'. intros i Hi. destruct (Z.lt_ge_cases i w).
    + specialize (H i ltac:(lia)). rewrite !rot_value_bit in H by (fold w; lia). fold w in H.
      destruct (Z.eqb_spec i w); [lia|exact H].
    + unfold operand. fold w. now rewrite !Z.mod_pow2_bits_high by lia.
  - specialize (H w ltac:(lia)). rewrite !rot_value_bit in H by (fold w; lia). fold w in H. now rewrite Z.eqb_refl in H.
Qed.
End Alu.

(** A CPU with all registers clear, for the witnesses. *)
Definition cpu_zero : CPUX86State :=
  mkCPU (replicate 8 0) 0 2 0 0 CC_OP_EFLAGS 1 0 0 (replicate 6 seg_zero)
    seg_zero seg_zero seg_zero seg_zero (replicate 5 0) (-1) 0 0 0 0 0 0 0 0 (replicate 8 0) 0 (-1) 0.

Lemma cpu_zero_ok : cpu_ok cpu_zero.
Proof. constructor; [reflexivity| |reflexivity]. repeat constructor; done. Qed.

(** [ADD AH, 0xff] with AH = 1: a zero result with the carry, adjust, parity
    and zero flags. *)
Lemma x86_alu_witness :
  let env := set_reg R_EAX 0x100 cpu_zero in
  let env' := gen_op 0 OP_ADDL OT_BYTE 4 0xff env in
  operand OT_BYTE 4 env' = 0 /\ helper_cc_compute_all (cc_op env') env' = CC_C .| CC_P .| CC_A .| CC_Z.
Proof.
  assert (cpu_ok (set_reg R_EAX 0x100 cpu_zero)) as Ho
    by (constructor; [reflexivity| |reflexivity]; repeat constructor; done).
  cbv zeta. destruct (x86_alu_correct 0 OP_ADDL OT_BYTE 4 0xff _ Ho ltac:(lia) ltac:(split; done)) as (H1 & H2 & _).
  rewrite H1, H2. split; vm_compute; reflexivity.
Defined.

(** [INC CX] after an operation with a carry. *)
Lemma x86_inc_witness :
  let env := cpu_zero <| cc_src := CC_C |> in
  let env' := gen_inc OT_WORD R_ECX 1 env in
  operand OT_WORD R_ECX env' = 1 /\ helper_cc_compute_all (cc_op env') env' = CC_C.
Proof.
  assert (cpu_ok (cpu_zero <| cc_src := CC_C |>)) as Ho
    by (constructor; [reflexivity| |reflexivity]; repeat constructor; done).
  cbv zeta. destruct (x86_inc_keeps_carry OT_WORD R_ECX 1 _ Ho ltac:(unfold R_ECX; lia)) as (H1 & H2 & _).
  rewrite H1, H2. split; vm_compute; reflexivity.
Defined.

Lemma x86_rcl_rcr_witness :
  let env := set_reg R_EDX 0x8001 cpu_zero in
  let env1 := gen_rotc_rm_T1 0 OT_WORD R_EDX false 5 env in
  operand OT_WORD R_EDX env1 = 0x28 /\ operand OT_WORD R_EDX (gen_rotc_rm_T1 0 OT_WORD R_EDX true 5 env1) = 0x8001.
Proof.
  assert (cpu_ok (set_reg R_EDX 0x8001 cpu_zero)) as Ho
    by (constructor; [reflexivity| |reflexivity]; repeat constructor; done).
  cbv zeta. split; [vm_compute; reflexivity|].
  destruct (x86_rcl_rcr_roundtrip 0 OT_WORD R_EDX 5 _ Ho ltac:(unfold R_EDX; lia)) as [H1 _].
  rewrite H1. vm_compute. reflexivity.
Defined.

End X86Trans.
