(* ===== verification/X86Alu.v ===== *)
(** * Division, decimal adjustment and bit scans of target-i386/op_helper.c

    The helpers that are called from translated code rather than emitted
    inline.  A helper that raises an exception leaves the CPU loop with the
    state [raise_interrupt] has set up ([Exc]).  [div64] and [idiv64] belong to
    the 64-bit build; they are plain functions of 64-bit words and are modelled
    as such. *)

From S2P Require Import Prelude X86Cpu X86Trans.

Module X86Alu.
Import X86.
#[local] Existing Instances X86.SegmentCache_eta X86.CPUX86State_eta.

Definition s8 (x : Z) : Z := if u8 x <? 128 then u8 x else u8 x - 256.
Definition s16 (x : Z) : Z := if u16 x <? 32768 then u16 x else u16 x - 65536.

(** ** Exceptions *)

(** The new exception number and error code, the state, and whether a triple
    fault requested a reset. *)
Definition check_exception (intno error_code : Z) (env : CPUX86State) : Z * Z * CPUX86State * bool :=
  let contributory e := (e =? 0) || ((10 <=? e) && (e <=? 13)) in
  let first_contributory := contributory (old_exception env) in
  let second_contributory := contributory intno in
  if old_exception env =? EXCP08_DBLE then (EXCP_HLT, error_code, env, true)
  else
    let '(intno, error_code) :=
      if (first_contributory && second_contributory)
         || ((old_exception env =? EXCP0E_PAGE) && (second_contributory || (intno =? EXCP0E_PAGE)))
      then (EXCP08_DBLE, 0) else (intno, error_code) in
    let env :=
      if second_contributory || (intno =? EXCP0E_PAGE) || (intno =? EXCP08_DBLE)
      then env <| old_exception := intno |> else env in
    (intno, error_code, env, false).

(** Outside SVM, where no intercept applies. *)
Definition raise_interrupt (intno is_int err next_eip_addend : Z) (env : CPUX86State) : CPUX86State :=
  let '(intno, err, env) :=
    if truthy is_int then (intno, err, env)
    else let '(intno, err, env, _) := check_exception intno err env in (intno, err, env) in
  let env := env <| exception_index := intno |> in
  let env := env <| error_code := err |> in
  let env := env <| exception_is_int := is_int |> in
  env <| exception_next_eip := u32 (eip env + next_eip_addend) |>.

Definition raise_exception_err (exception_index err : Z) (env : CPUX86State) : CPUX86State :=
  raise_interrupt exception_index 0 err 0 env.
Definition raise_exception (exception_index : Z) (env : CPUX86State) : CPUX86State :=
  raise_interrupt exception_index 0 0 0 env.

Definition helper_into (next_eip_addend : Z) (env : CPUX86State) : cpu_result CPUX86State :=
  let fl := helper_cc_compute_all (cc_op env) env in
  if tst fl CC_O then Exc (raise_interrupt EXCP04_INTO 1 0 next_eip_addend env) else Ret env.

(** ** Division *)

Definition helper_divb_AL (t0 : Z) (env : CPUX86State) : cpu_result CPUX86State :=
  let num := reg R_EAX env .& 0xffff in
  let den := t0 .& 0xff in
  if den =? 0 then Exc (raise_exception EXCP00_DIVZ env)
  else
    let q := num / den in
    if 0xff <? q then Exc (raise_exception EXCP00_DIVZ env)
    else
      let q := q .& 0xff in
      let r := (num mod den) .& 0xff in
      Ret (set_reg R_EAX ((reg R_EAX env .& ~~ 0xffff) .| (r << 8) .| q) env).

Definition helper_idivb_AL (t0 : Z) (env : CPUX86State) : cpu_result CPUX86State :=
  let num := s16 (reg R_EAX env) in
  let den := s8 t0 in
  if den =? 0 then Exc (raise_exception EXCP00_DIVZ env)
  else
    let q := Z.quot num den in
    if negb (q =? s8 q) then Exc (raise_exception EXCP00_DIVZ env)
    else
      let q := q .& 0xff in
      let r := Z.rem num den .& 0xff in
      Ret (set_reg R_EAX ((reg R_EAX env .& ~~ 0xffff) .| (r << 8) .| q) env).

Definition helper_divw_AX (t0 : Z) (env : CPUX86State) : cpu_result CPUX86State :=
  let num := (reg R_EAX env .& 0xffff) .| ((reg R_EDX env .& 0xffff) << 16) in
  let den := t0 .& 0xffff in
  if den =? 0 then Exc (raise_exception EXCP00_DIVZ env)
  else
    let q := num / den in
    if 0xffff <? q then Exc (raise_exception EXCP00_DIVZ env)
    else
      let q := q .& 0xffff in
      let r := (num mod den) .& 0xffff in
      let env := set_reg R_EAX ((reg R_EAX env .& ~~ 0xffff) .| q) env in
      Ret (set_reg R_EDX ((reg R_EDX env .& ~~ 0xffff) .| r) env).

(** [int] division wraps, as the ARM hosts of this build do it. *)
Definition helper_idivw_AX (t0 : Z) (env : CPUX86State) : cpu_result CPUX86State :=
  let num := s32 ((reg R_EAX env .& 0xffff) .| ((reg R_EDX env .& 0xffff) << 16)) in
  let den := s16 t0 in
  if den =? 0 then Exc (raise_exception EXCP00_DIVZ env)
  else
    let q := s32 (Z.quot num den) in
    if negb (q =? s16 q) then Exc (raise_exception EXCP00_DIVZ env)
    else
      let q := q .& 0xffff in
      let r := Z.rem num den .& 0xffff in
      let env := set_reg R_EAX ((reg R_EAX env .& ~~ 0xffff) .| q) env in
      Ret (set_reg R_EDX ((reg R_EDX env .& ~~ 0xffff) .| r) env).

Definition helper_divl_EAX (t0 : Z) (env : CPUX86State) : cpu_result CPUX86State :=
  let num := u32 (reg R_EAX env) .| (u32 (reg R_EDX env) << 32) in
  let den := u32 t0 in
  if den =? 0 then Exc (raise_exception EXCP00_DIVZ env)
  else
    let q := num / den in
    let r := u32 (num mod den) in
    if 0xffffffff <? q then Exc (raise_exception EXCP00_DIVZ env)
    else
      let env := set_reg R_EAX (u32 q) env in
      Ret (set_reg R_EDX (u32 r) env).

Definition helper_idivl_EAX (t0 : Z) (env : CPUX86State) : cpu_result CPUX86State :=
  let num := s64 (u32 (reg R_EAX env) .| (u32 (reg R_EDX env) << 32)) in
  let den := s32 t0 in
  if den =? 0 then Exc (raise_exception EXCP00_DIVZ env)
  else
    let q := s64 (Z.quot num den) in
    let r := s32 (Z.rem num den) in
    if negb (q =? s32 q) then Exc (raise_exception EXCP00_DIVZ env)
    else
      let env := set_reg R_EAX (u32 q) env in
      Ret (set_reg R_EDX (u32 r) env).

(** ** Decimal adjustment *)

Definition helper_aam (base : Z) (env : CPUX86State) : CPUX86State :=
  let al := reg R_EAX env .& 0xff in
  let ah := Z.quot al base in
  let al := Z.rem al base in
  let env := set_reg R_EAX ((reg R_EAX env .& ~~ 0xffff) .| al .| (ah << 8)) env in
  env <| cc_dst := al |>.

Definition helper_aad (base : Z) (env : CPUX86State) : CPUX86State :=
  let al := reg R_EAX env .& 0xff in
  let ah := (reg R_EAX env >> 8) .& 0xff in
  let al := (ah * base + al) .& 0xff in
  let env := set_reg R_EAX ((reg R_EAX env .& ~~ 0xffff) .| al) env in
  env <| cc_dst := al |>.

Definition helper_aaa (env : CPUX86State) : CPUX86State :=
  let fl := helper_cc_compute_all (cc_op env) env in
  let af := fl .& CC_A in
  let al := reg R_EAX env .& 0xff in
  let ah := (reg R_EAX env >> 8) .& 0xff in
  let icarry := b2z (0xf9 <? al) in
  let '(al, ah, fl) :=
    if (9 <? al .& 0x0f) || truthy af then
      ((al + 6) .& 0x0f, (ah + 1 + icarry) .& 0xff, fl .| (CC_C .| CC_A))
    else (al .& 0x0f, ah, fl .& ~~ (CC_C .| CC_A)) in
  let env := set_reg R_EAX ((reg R_EAX env .& ~~ 0xffff) .| al .| (ah << 8)) env in
  env <| cc_src := fl |>.

Definition helper_aas (env : CPUX86State) : CPUX86State :=
  let fl := helper_cc_compute_all (cc_op env) env in
  let af := fl .& CC_A in
  let al := reg R_EAX env .& 0xff in
  let ah := (reg R_EAX env >> 8) .& 0xff in
  let icarry := b2z (al <? 6) in
  let '(al, ah, fl) :=
    if (9 <? al .& 0x0f) || truthy af then
      ((al - 6) .& 0x0f, (ah - 1 - icarry) .& 0xff, fl .| (CC_C .| CC_A))
    else (al .& 0x0f, ah, fl .& ~~ (CC_C .| CC_A)) in
  let env := set_reg R_EAX ((reg R_EAX env .& ~~ 0xffff) .| al .| (ah << 8)) env in
  env <| cc_src := fl |>.

(** The adjustment of [helper_daa]: the byte and the flags, by hand. *)
Definition daa_al (al : Z) (af cf : bool) : Z * Z :=
  let fl := 0 in
  let '(al, fl) := if (9 <? al .& 0x0f) || af then ((al + 6) .& 0xff, fl .| CC_A) else (al, fl) in
  let '(al, fl) := if (0x9f <? al) || cf then ((al + 0x60) .& 0xff, fl .| CC_C) else (al, fl) in
  let fl := fl .| (b2z (al =? 0) << 6) in
  let fl := fl .| aget parity_table al in
  let fl := fl .| (al .& 0x80) in
  (al, fl).

Definition helper_daa (env : CPUX86State) : CPUX86State :=
  let fl := helper_cc_compute_all (cc_op env) env in
  let cf := tst fl CC_C in
  let af := tst fl CC_A in
  let '(al, fl) := daa_al (reg R_EAX env .& 0xff) af cf in
  let env := set_reg R_EAX ((reg R_EAX env .& ~~ 0xff) .| al) env in
  env <| cc_src := fl |>.

(** The adjustment of [helper_das]. *)
Definition das_al (al : Z) (af cf : bool) : Z * Z :=
  let fl := 0 in
  let al1 := al in
  let '(al, fl) :=
    if (9 <? al .& 0x0f) || af then
      let fl := fl .| CC_A in
      let fl := if (al <? 6) || cf then fl .| CC_C else fl in
      ((al - 6) .& 0xff, fl)
    else (al, fl) in
  let '(al, fl) := if (0x99 <? al1) || cf then ((al - 0x60) .& 0xff, fl .| CC_C) else (al, fl) in
  let fl := fl .| (b2z (al =? 0) << 6) in
  let fl := fl .| aget parity_table al in
  let fl := fl .| (al .& 0x80) in
  (al, fl).

Definition helper_das (env : CPUX86State) : CPUX86State :=
  let fl := helper_cc_compute_all (cc_op env) env in
  let cf := tst fl CC_C in
  let af := tst fl CC_A in
  let '(al, fl) := das_al (reg R_EAX env .& 0xff) af cf in
  let env := set_reg R_EAX ((reg R_EAX env .& ~~ 0xff) .| al) env in
  env <| cc_src := fl |>.

(** The translator sets [s->cc_op = CC_OP_EFLAGS] after each adjustment and
    [CC_OP_LOGICB] after AAM and AAD. *)
Definition gen_daa (env : CPUX86State) : CPUX86State := (helper_daa env) <| cc_op := CC_OP_EFLAGS |>.
Definition gen_das (env : CPUX86State) : CPUX86State := (helper_das env) <| cc_op := CC_OP_EFLAGS |>.
Definition gen_aam (val : Z) (env : CPUX86State) : cpu_result CPUX86State :=
  if val =? 0 then Exc (raise_exception EXCP00_DIVZ env)
  else Ret ((helper_aam val env) <| cc_op := CC_OP_LOGICB |>).
Definition gen_aad (val : Z) (env : CPUX86State) : CPUX86State :=
  (helper_aad val env) <| cc_op := CC_OP_LOGICB |>.

(** ** Bit scans *)

(** The loop of [helper_bsf]: [fuel] bounds its turns. *)
Fixpoint bsf_loop (fuel : nat) (count res : Z) : option Z :=
  match fuel with
  | O => None
  | S fuel => if res .& 1 =? 0 then bsf_loop fuel (count + 1) (res >> 1) else Some count
  end.
Definition helper_bsf (t0 : Z) : option Z := bsf_loop 33 0 t0.

Fixpoint lzcnt_loop (fuel : nat) (mask count res : Z) : option Z :=
  match fuel with
  | O => None
  | S fuel => if res .& mask =? 0 then lzcnt_loop fuel mask (count - 1) (u32 (res << 1)) else Some count
  end.
Definition helper_lzcnt (t0 wordsize : Z) : option Z :=
  if (0 <? wordsize) && (t0 =? 0) then Some wordsize
  else
    match lzcnt_loop 33 (1 << 31) 31 t0 with
    | None => None
    | Some count => Some (if 0 <? wordsize then wordsize - 1 - count else count)
    end.
Definition helper_bsr (t0 : Z) : option Z := helper_lzcnt t0 0.

(** ** 128-bit division *)

Definition add128 (low high a b : Z) : Z * Z :=
  let low := u64 (low + a) in
  let high := if low <? a then u64 (high + 1) else high in
  (low, u64 (high + b)).

Definition neg128 (low high : Z) : Z * Z := add128 (u64 (~~ low)) (u64 (~~ high)) 1 0.

(** One turn of the loop of [div64], on [(a1, a0)]. *)
Definition div64_step (b : Z) (s : Z * Z) : Z * Z :=
  let '(a1, a0) := s in
  let ab := a1 >> 63 in
  let a1 := u64 (a1 << 1) .| (a0 >> 63) in
  let '(a1, qb) := if truthy ab || (b <=? a1) then (u64 (a1 - b), 1) else (a1, 0) in
  (a1, u64 (a0 << 1) .| qb).

(** [None] on overflow, else what [plow] and [phigh] then point to. *)
Definition div64 (low high b : Z) : option (Z * Z) :=
  let a0 := low in
  let a1 := high in
  if a1 =? 0 then Some (a0 / b, a0 mod b)
  else if b <=? a1 then None
  else let '(a1, a0) := Nat.iter 64 (div64_step b) (a1, a0) in Some (a0, a1).

Definition idiv64 (low high b : Z) : option (Z * Z) :=
  let sa := s64 high <? 0 in
  let '(low, high) := if sa then neg128 low high else (low, high) in
  let sb := b <? 0 in
  let b := if sb then s64 (- b) else b in
  match div64 low high (u64 b) with
  | None => None
  | Some (low, high) =>
      let r :=
        if xorb sa sb then if (1 << 63) <? low then None else Some (u64 (- low))
        else if (1 << 63) <=? low then None else Some low in
      match r with
      | None => None
      | Some low => Some (low, if sa then u64 (- high) else high)
      end
  end.

(** ** Decimal arithmetic *)

Import X86Trans.

Definition AL (env : CPUX86State) : Z := operand OT_BYTE R_EAX env.

(** The packed decimal encoding of a number below 100. *)
Definition bcd (x : Z) : Z := (x / 10) * 16 + x mod 10.

Lemma al_masked env : reg R_EAX env .& 0xff = AL env.
Proof. unfold AL, operand. cbn [gen_op_mov_v_reg R_EAX Z.ltb Z.compare]. now apply land_ones_mod. Qed.

(** Replacing the low byte of EAX. *)
Lemma set_al x env : length (regs env) = 8%nat -> in_u 8 x ->
  AL (set_reg R_EAX ((reg R_EAX env .& ~~ 0xff) .| x) env) = x.
Proof.
  intros Hl Hx. unfold AL, operand. cbn [gen_op_mov_v_reg R_EAX Z.ltb Z.compare].
  change (reg 0 (set_reg 0 ((reg 0 env .& ~~ 255) .| x) env) mod 2 ^ 8 = x).
  rewrite reg_set_eq, u32_mod by (done || lia).
  rewrite lor_mod, land_mod by lia. change (~~ 0xff mod 2 ^ 8) with 0. rewrite Z.land_0_r, Z.lor_0_l.
  now apply Z.mod_small.
Qed.

(** AL, AF and CF enter an adjustment; AL and the flags leave it. *)
Lemma adjust_spec (f : Z -> bool -> bool -> Z * Z) env :
  let fl := helper_cc_compute_all (cc_op env) env in
  let '(al, fl') := f (AL env) (tst fl CC_A) (tst fl CC_C) in
  length (regs env) = 8%nat -> in_u 8 al ->
  let env' := (set_reg R_EAX ((reg R_EAX env .& ~~ 0xff) .| al) env) <| cc_src := fl' |> <| cc_op := CC_OP_EFLAGS |> in
  AL env' = al /\ carry_in env' = tst fl' CC_C.
Proof.
  cbv zeta. destruct (f _ _ _) as [al fl']. intros Hl Ha. split; [exact (set_al al env Hl Ha)|].
  change (Z.testbit (u32 (s32 fl')) 0 = tst fl' CC_C). rewrite u32_bit, s32_bits by lia.
  unfold tst. rewrite cc_c_bit. now destruct (Z.testbit fl' 0).
Qed.

(** All sums and differences of two packed decimal bytes and a carry. *)
Definition daa_entry (x y c : Z) : bool :=
  let a := bcd x in let b := bcd y in
  let fl := add_flags 8 a b c in
  let '(al, fl') := daa_al ((a + b + c) mod 2 ^ 8) (tst fl CC_A) (tst fl CC_C) in
  (0 <=? al) && (al <? 256) &&
  ((0xfa <=? a + b + c) && (a + b + c <=? 0xff)
   || (al =? bcd ((x + y + c) mod 100)) && Bool.eqb (tst fl' CC_C) (100 <=? x + y + c)).

Definition das_entry (x y c : Z) : bool :=
  let a := bcd x in let b := bcd y in
  let fl := sub_flags 8 a b c in
  let '(al, fl') := das_al ((a - b - c) mod 2 ^ 8) (tst fl CC_A) (tst fl CC_C) in
  (0 <=? al) && (al <? 256) &&
  ((al =? bcd ((x - y - c) mod 100)) && Bool.eqb (tst fl' CC_C) (x - y - c <? 0)).

Lemma table_spec (p : Z -> Z -> Z -> bool) x y (c : bool) :
  all_below 100 (fun x => all_below 100 (fun y => all_below 2 (fun c => p x y c))) = true ->
  0 <= x < 100 -> 0 <= y < 100 -> p x y (b2z c) = true.
Proof.
  intros H Hx Hy. pose proof (all_below_spec 100 _ H x Hx) as H1. cbn beta in H1.
  pose proof (all_below_spec 100 _ H1 y Hy) as H2. cbn beta in H2.
  apply (all_below_spec 2 _ H2). destruct c; cbn; lia.
Qed.

Lemma daa_all x y (c : bool) : 0 <= x < 100 -> 0 <= y < 100 -> daa_entry x y (b2z c) = true.
Proof. apply (table_spec daa_entry). vm_compute. reflexivity. Qed.

Lemma das_all x y (c : bool) : 0 <= x < 100 -> 0 <= y < 100 -> das_entry x y (b2z c) = true.
Proof. apply (table_spec das_entry). vm_compute. reflexivity. Qed.

(** The instruction before the adjustment. *)
Lemma bcd_op junk op t1 env x y (e := gen_op junk op OT_BYTE R_EAX t1 env) (c := b2z (carry_in env)) :
  cpu_ok env -> in_u 32 t1 -> AL env = bcd x -> t1 mod 256 = bcd y ->
  AL e = alu_result op 8 (bcd x) (bcd y) c
  /\ helper_cc_compute_all (cc_op e) e = alu_flags op 8 (bcd x) (bcd y) c /\ length (regs e) = 8%nat.
Proof.
  intros Ho Ht Ea Eb.
  destruct (gen_op_spec junk op OT_BYTE R_EAX t1 env Ho ltac:(unfold R_EAX; lia) Ht) as [(H1 & H2 & H3) _].
  fold e c (AL env) (AL e) in H1, H2, H3. change (2 ^ data_bits OT_BYTE) with 256 in H1, H2. rewrite Ea, Eb in H1, H2.
  exact (conj H1 (conj H2 (ok_regs _ H3))).
Qed.

(** packed decimal subtraction: SBB of two packed decimal bytes and DAS leave
    the decimal difference in AL and the decimal borrow in the carry. *)
Theorem x86_bcd_subtract junk t1 env x y
    (env' := gen_das (gen_op junk OP_SBBL OT_BYTE R_EAX t1 env)) (c := b2z (carry_in env)) :
  cpu_ok env -> in_u 32 t1 -> 0 <= x < 100 -> 0 <= y < 100 -> AL env = bcd x -> t1 mod 256 = bcd y ->
  AL env' = bcd ((x - y - c) mod 100) /\ carry_in env' = (x - y - c <? 0).
Proof.
  intros Ho Ht Hx Hy Ea Eb. unfold env', gen_das, c.
  destruct (bcd_op junk OP_SBBL t1 env x y Ho Ht Ea Eb) as (H1 & H2 & H3).
  set (e := gen_op junk OP_SBBL OT_BYTE R_EAX t1 env) in *. clearbody e. cbn [alu_result alu_flags] in H1, H2.
  pose proof (das_all x y (carry_in env) Hx Hy) as T. unfold das_entry in T. cbv zeta in T.
  rewrite <- H1, <- H2 in T. pose proof (adjust_spec das_al e) as S. cbv zeta in S.
  unfold helper_das. rewrite al_masked.
  destruct (das_al (AL e) _ _) as [al fl']. apply andb_prop in T as [T1 T2]. apply andb_prop in T2 as [T2 T3].
  apply eqb_prop in T3. apply Z.eqb_eq in T2.
  destruct S as [S1 S2]; [exact H3|unfold in_u; lia|]. split; [now rewrite <- T2|now rewrite <- T3].
Qed.

(** packed decimal addition: ADC of two packed decimal bytes and DAA leave the
    decimal sum in AL and the decimal carry in the carry, unless the binary sum
    is in 0xfa..0xff. *)
Theorem x86_bcd_add junk t1 env x y
    (env' := gen_daa (gen_op junk OP_ADCL OT_BYTE R_EAX t1 env)) (c := b2z (carry_in env)) :
  cpu_ok env -> in_u 32 t1 -> 0 <= x < 100 -> 0 <= y < 100 -> AL env = bcd x -> t1 mod 256 = bcd y ->
  ~ 0xfa <= bcd x + bcd y + c <= 0xff ->
  AL env' = bcd ((x + y + c) mod 100) /\ carry_in env' = (100 <=? x + y + c).
Proof.
  intros Ho Ht Hx Hy Ea Eb Hex. unfold env', gen_daa.
  destruct (bcd_op junk OP_ADCL t1 env x y Ho Ht Ea Eb) as (H1 & H2 & H3).
  set (e := gen_op junk OP_ADCL OT_BYTE R_EAX t1 env) in *. clearbody e. cbn [alu_result alu_flags] in H1, H2.
  pose proof (daa_all x y (carry_in env) Hx Hy) as T. unfold daa_entry in T. cbv zeta in T. unfold c in *.
  rewrite <- H1, <- H2 in T. pose proof (adjust_spec daa_al e) as S. cbv zeta in S.
  unfold helper_daa. rewrite al_masked.
  destruct (daa_al (AL e) _ _) as [al fl']. apply andb_prop in T as [T1 T2].
  apply orb_prop in T2 as [T2|T2]; [lia|]. apply andb_prop in T2 as [T2 T3].
  apply eqb_prop in T3. apply Z.eqb_eq in T2.
  destruct S as [S1 S2]; [exact H3|unfold in_u; lia|]. split; [now rewrite <- T2|now rewrite <- T3].
Qed.

(** 87 + 73 = 160, but DAA answers 00 without a carry: the first adjustment
    wraps AL before it is compared with 0x9f. *)
Example daa_wraps : let '(al, fl) := daa_al 0xfa false false in al = 0 /\ tst fl CC_C = false.
Proof. vm_compute. split; reflexivity. Qed.

(** ** Division is exact *)

Definition helper_div (sg : bool) (ot : OT) (t0 : Z) (env : CPUX86State) : cpu_result CPUX86State :=
  match sg, ot with
  | false, OT_BYTE => helper_divb_AL t0 env
  | false, OT_WORD => helper_divw_AX t0 env
  | false, OT_LONG => helper_divl_EAX t0 env
  | true, OT_BYTE => helper_idivb_AL t0 env
  | true, OT_WORD => helper_idivw_AX t0 env
  | true, OT_LONG => helper_idivl_EAX t0 env
  end.

(** AX, DX:AX or EDX:EAX; AL, AX or EAX; AH, DX or EDX. *)
Definition dividend (ot : OT) (env : CPUX86State) : Z :=
  match ot with
  | OT_BYTE => operand OT_WORD R_EAX env
  | _ => operand ot R_EAX env + 2 ^ data_bits ot * operand ot R_EDX env
  end.
Definition quotient (ot : OT) (env : CPUX86State) : Z := operand ot R_EAX env.
Definition remainder (ot : OT) (env : CPUX86State) : Z :=
  match ot with OT_BYTE => operand OT_BYTE 4 env | _ => operand ot R_EDX env end.

(** The value a bit pattern of [w] bits stands for. *)
Definition value (sg : bool) (w x : Z) : Z := if sg then signed w x else x.
Definition fits (sg : bool) (w x : Z) : bool := if sg then in_s w x else (0 <=? x) && (x <? 2 ^ w).

Lemma signed_mod w q : 1 <= w -> (q =? signed w (q mod 2 ^ w)) = in_s w q.
Proof.
  intros Hw. unfold signed, in_s. rewrite (pow_split w) by done. set (p := 2 ^ (w - 1)).
  assert (0 < p) by (apply Z.pow_pos_nonneg; lia).
  pose proof (Z.mod_pos_bound q (2 * p) ltac:(lia)). pose proof (Z.div_mod q (2 * p) ltac:(lia)) as E.
  set (m := q mod (2 * p)) in *. set (k := q / (2 * p)) in *. clearbody m k.
  assert (k <= -2 \/ k = -1 \/ k = 0 \/ 1 <= k) as [Hk | [-> | [-> | Hk]]] by lia;
    destruct (Z.ltb_spec m p); try lia; (destruct (Z.eqb_spec q m) || destruct (Z.eqb_spec q (m - 2 * p))); nia.
Qed.

Lemma s8_signed x : s8 x = signed 8 (x mod 2 ^ 8).
Proof. reflexivity. Qed.

Lemma s16_signed x : s16 x = signed 16 (x mod 2 ^ 16).
Proof. reflexivity. Qed.

Lemma s32_signed x : s32 x = signed 32 (x mod 2 ^ 32).
Proof. reflexivity. Qed.

Lemma s64_signed x : s64 x = signed 64 (x mod 2 ^ 64).
Proof. reflexivity. Qed.

Lemma signed_range w x : 1 <= w -> in_u w x -> - 2 ^ (w - 1) <= signed w x < 2 ^ (w - 1).
Proof.
  unfold in_u, signed. intros Hw. rewrite (pow_split w) by done. intros Hx.
  destruct (Z.ltb_spec x (2 ^ (w - 1))); lia.
Qed.

(** A quotient of a [2w]-bit value wraps only at the one value that does not
    fit [w] bits either. *)
Lemma quot_wrap w w2 q : 8 <= w -> w2 = 2 * w -> - 2 ^ (w2 - 1) <= q <= 2 ^ (w2 - 1) ->
  let q' := signed w2 (q mod 2 ^ w2) in
  (q' =? signed w (q' mod 2 ^ w)) = in_s w q /\ (in_s w q = true -> q' = q).
Proof.
  intros Hw Hw2 Hq. cbv zeta. rewrite signed_mod by lia.
  pose proof (signed_mod w2 q ltac:(lia)) as E.
  assert (2 ^ (w - 1) < 2 ^ (w2 - 1)) by (apply Z.pow_lt_mono_r; lia).
  assert (0 < 2 ^ (w - 1)) by (apply Z.pow_pos_nonneg; lia).
  destruct (Z.eq_dec q (2 ^ (w2 - 1))) as [->|].
  - replace (2 ^ (w2 - 1) mod 2 ^ w2) with (2 ^ (w2 - 1))
      by (symmetry; apply Z.mod_small; split; [lia|apply Z.pow_lt_mono_r; lia]).
    unfold signed. destruct (Z.ltb_spec (2 ^ (w2 - 1)) (2 ^ (w2 - 1))); [lia|].
    rewrite (pow_split w2) by lia. unfold in_s. split; lia.
  - assert (in_s w2 q = true) as F by (unfold in_s; lia). rewrite F in E. apply Z.eqb_eq in E.
    rewrite <- E. split; done.
Qed.

Lemma quot_range w n d : 1 <= w -> - 2 ^ (w - 1) <= n < 2 ^ (w - 1) -> d <> 0 ->
  - 2 ^ (w - 1) <= Z.quot n d <= 2 ^ (w - 1).
Proof.
  intros Hw Hn Hd. assert (Z.abs (Z.quot n d) <= Z.abs n); [|lia].
  rewrite <- Z.quot_abs by done. apply Z.quot_le_upper_bound; [lia|]. nia.
Qed.

Lemma land_low w x m : 0 <= w -> m = 2 ^ w - 1 -> x .& m = x mod 2 ^ w.
Proof. intros Hw ->. apply land_ones_mod; [done|]. rewrite Z.ones_equiv. lia. Qed.

Lemma land_ff_mod x : x .& 0xff = x mod 2 ^ 8.
Proof. now apply land_low. Qed.

Lemma land_ffff x : x .& 0xffff = x mod 2 ^ 16.
Proof. now apply land_low. Qed.

Lemma op_low ot env : operand ot R_EAX env = reg R_EAX env mod 2 ^ data_bits ot
  /\ operand ot R_EDX env = reg R_EDX env mod 2 ^ data_bits ot.
Proof. now destruct ot. Qed.

(** The divisors and dividends as the helpers form them. *)
Lemma num_w env : (reg R_EAX env .& 0xffff) .| ((reg R_EDX env .& 0xffff) << 16) = dividend OT_WORD env.
Proof.
  rewrite !land_ffff, lor_shift; [reflexivity|lia|]. apply Z.mod_pos_bound. done.
Qed.

Lemma num_l env : u32 (reg R_EAX env) .| (u32 (reg R_EDX env) << 32) = dividend OT_LONG env.
Proof. rewrite lor_shift; [reflexivity|lia|]. apply u32_range. Qed.

Lemma dividend_range ot env : in_u (2 * data_bits ot) (dividend ot env).
Proof.
  pose proof (data_bits_range ot). assert (forall ot r, 0 <= operand ot r env < 2 ^ data_bits ot) as H0.
  { intros o r. apply Z.mod_pos_bound, Z.pow_pos_nonneg; [lia|]. pose proof (data_bits_range o). lia. }
  unfold in_u, dividend. destruct ot; [apply (H0 OT_WORD)| |];
    match goal with |- context [operand ?o R_EAX env] => pose proof (H0 o R_EAX); pose proof (H0 o R_EDX) end; cbn [data_bits] in *; lia.
Qed.

(** The registers after a result is stored. *)
Lemma store_b env q r : length (regs env) = 8%nat -> in_u 8 q -> in_u 8 r ->
  let env' := set_reg R_EAX ((reg R_EAX env .& ~~ 0xffff) .| (r << 8) .| q) env in
  quotient OT_BYTE env' = q /\ remainder OT_BYTE env' = r.
Proof.
  intros Hl Hq Hr. unfold quotient, remainder, operand. cbn [data_bits gen_op_mov_v_reg R_EAX Z.ltb Z.compare Pos.compare Pos.compare_cont Z.sub Z.add Z.opp Z.pos_sub].
  assert (forall k, 0 <= k < 16 -> Z.testbit ((reg 0 env .& ~~ 0xffff) .| (r << 8) .| q) k
    = if k <? 8 then Z.testbit q k else Z.testbit r (k - 8)) as B.
  { intros k Hk. rewrite !Z.lor_spec, Z.land_spec, lnot_spec', Z.shiftl_spec by lia.
    change 0xffff with (Z.ones 16). rewrite Z.testbit_ones_nonneg by lia.
    destruct (Z.ltb_spec k 16); [|lia]. cbn [negb]. rewrite andb_false_r. cbn [orb].
    destruct (Z.ltb_spec k 8); [now rewrite Z.testbit_neg_r by lia|].
    rewrite (testbit_in_u_high 8 q) by (done || lia). apply orb_false_r. }
  split; apply Z.bits_inj'; intros k Hk; (destruct (Z.lt_ge_cases k 8); [|rewrite Z.mod_pow2_bits_high by lia; symmetry; now apply (testbit_in_u_high 8)]).
  - rewrite bit_mod, reg_set_eq, u32_bit, B by (done || lia). now destruct (Z.ltb_spec k 8); [|lia].
  - rewrite bit_mod, u8_bits, Z.shiftr_spec by lia. rewrite (reg_set_eq 0) by (done || lia).
    rewrite u32_bit, B by lia. destruct (Z.ltb_spec k 8), (Z.ltb_spec (k + 8) 8); try lia. cbn [andb]. f_equal. lia.
Qed.

Lemma low_word x q : in_u 16 q -> u32 ((x .& ~~ 0xffff) .| q) mod 2 ^ 16 = q.
Proof.
  intros Hq. rewrite u32_mod, lor_mod, land_mod by lia. change (~~ 0xffff mod 2 ^ 16) with 0.
  rewrite Z.land_0_r, Z.lor_0_l. now apply Z.mod_small.
Qed.

Lemma store_w env q r : length (regs env) = 8%nat -> in_u 16 q -> in_u 16 r ->
  let env1 := set_reg R_EAX ((reg R_EAX env .& ~~ 0xffff) .| q) env in
  let env' := set_reg R_EDX ((reg R_EDX env1 .& ~~ 0xffff) .| r) env1 in
  quotient OT_WORD env' = q /\ remainder OT_WORD env' = r.
Proof.
  intros Hl Hq Hr. cbv zeta. unfold quotient, remainder, operand. cbn [data_bits gen_op_mov_v_reg]. unfold R_EAX, R_EDX in *.
  rewrite (reg_set_ne 2 0), (reg_set_eq 0), (reg_set_eq 2) by (try done; try lia; unfold set_reg; cbn [over regs]; now rewrite length_aset).
  split; now apply low_word.
Qed.

Lemma store_l env q r : length (regs env) = 8%nat ->
  let env' := set_reg R_EDX (u32 r) (set_reg R_EAX (u32 q) env) in
  quotient OT_LONG env' = u32 q /\ remainder OT_LONG env' = u32 r.
Proof.
  intros Hl. cbv zeta. unfold quotient, remainder, operand. cbn [data_bits gen_op_mov_v_reg]. unfold R_EAX, R_EDX in *.
  rewrite (reg_set_ne 2 0), (reg_set_eq 0), (reg_set_eq 2) by (try done; try lia; unfold set_reg; cbn [over regs]; now rewrite length_aset).
  assert (forall x, u32 (u32 x) mod 2 ^ 32 = u32 x) as E by (intros x; unfold u32; change (2 ^ 32) with 4294967296; now rewrite !Z.mod_mod by lia).
  split; apply E.
Qed.

Lemma value_back sg w x : 1 <= w -> fits sg w x = true -> value sg w (x mod 2 ^ w) = x.
Proof.
  intros Hw. destruct sg; cbn [fits value]; intros H.
  - rewrite <- (signed_mod w) in H by done. symmetry. now apply Z.eqb_eq.
  - apply Z.mod_small. lia.
Qed.

Lemma value_fits sg w x : 1 <= w -> in_u w x -> fits sg w (value sg w x) = true.
Proof.
  intros Hw Hx. destruct sg; cbn [fits value].
  - pose proof (signed_range w x Hw Hx). unfold in_s. lia.
  - unfold in_u in Hx. lia.
Qed.

(** The remainder is smaller than the divisor. *)
Lemma rem_fits sg w n x : 1 <= w -> in_u w x -> (sg = false -> 0 <= n) -> value sg w x <> 0 ->
  fits sg w (Z.rem n (value sg w x)) = true.
Proof.
  intros Hw Hx Hn Hd. destruct sg; cbn [fits value] in *.
  - pose proof (signed_range w x Hw Hx). pose proof (Z.rem_bound_abs n (signed w x) Hd). unfold in_s. lia.
  - specialize (Hn eq_refl). pose proof (Z.rem_bound_pos n x). unfold in_u in Hx. lia.
Qed.

(** Each helper decides the same two conditions and stores the same patterns. *)
Definition div_shape (sg : bool) (ot : OT) (t0 : Z) (env : CPUX86State) : Prop :=
  let w := data_bits ot in
  let n := value sg (2 * w) (dividend ot env) in
  let d := value sg w (t0 mod 2 ^ w) in
  exists r, helper_div sg ot t0 env
    = (if (d =? 0) || negb (fits sg w (Z.quot n d)) then Exc (raise_exception EXCP00_DIVZ env) else Ret r)
  /\ (d <> 0 -> fits sg w (Z.quot n d) = true ->
      quotient ot r = Z.quot n d mod 2 ^ w /\ remainder ot r = Z.rem n d mod 2 ^ w).

Lemma mod_pow_in w x : 0 <= w -> in_u w (x mod 2 ^ w).
Proof. intros. apply Z.mod_pos_bound, Z.pow_pos_nonneg; lia. Qed.

Lemma idiv_shape_ok ot t0 env : length (regs env) = 8%nat -> div_shape true ot t0 env.
Proof.
  intros Hl. unfold div_shape. cbn [value fits helper_div]. pose proof (dividend_range ot env) as Hn.
  assert (dividend ot env mod 2 ^ (2 * data_bits ot) = dividend ot env) as En by (apply Z.mod_small; exact Hn).
  pose proof (data_bits_range ot) as Hw.
  pose proof (signed_range (2 * data_bits ot) (dividend ot env) ltac:(lia) Hn) as Hs.
  pose proof (fun Hz => quot_wrap (data_bits ot) (2 * data_bits ot) _ ltac:(lia) eq_refl
    (quot_range (2 * data_bits ot) _ (signed (data_bits ot) (t0 mod 2 ^ data_bits ot)) ltac:(lia) Hs Hz)) as Q.
  destruct ot; cbn [data_bits] in *.
  - unfold helper_idivb_AL. rewrite s16_signed, s8_signed. change (reg R_EAX env mod 2 ^ 16) with (dividend OT_BYTE env).
    eexists. split; [destruct (_ =? 0); [reflexivity|]; rewrite s8_signed, signed_mod by lia; destruct (in_s _ _); reflexivity|].
    intros _ _. rewrite !land_ff_mod. apply store_b; [done|now apply mod_pow_in|now apply mod_pow_in].
  - unfold helper_idivw_AX. rewrite num_w, s16_signed, (s32_signed (dividend _ _)). change (2 * 16) with 32 in *.
    rewrite En in *. set (nn := signed 32 (dividend OT_WORD env)) in *. set (dd := signed 16 (t0 mod 2 ^ 16)) in *.
    rewrite s32_signed, s16_signed.
    eexists. split; [destruct (Z.eqb_spec dd 0) as [|Hz]; [reflexivity|];
      rewrite (proj1 (Q Hz)); destruct (in_s _ _); reflexivity|].
    intros Hz Hf. rewrite (proj2 (Q Hz) Hf), (land_ffff (Z.quot _ _)), (land_ffff (Z.rem _ _)).
    apply store_w; [done|now apply mod_pow_in|now apply mod_pow_in].
  - unfold helper_idivl_EAX. rewrite num_l, (s32_signed t0), (s64_signed (dividend _ _)). change (2 * 32) with 64 in *.
    rewrite En in *. set (nn := signed 64 (dividend OT_LONG env)) in *. set (dd := signed 32 (t0 mod 2 ^ 32)) in *.
    rewrite s64_signed, (s32_signed (signed _ _)).
    eexists. split; [destruct (Z.eqb_spec dd 0) as [|Hz]; [reflexivity|];
      rewrite (proj1 (Q Hz)); destruct (in_s _ _); reflexivity|].
    intros Hz Hf. rewrite (proj2 (Q Hz) Hf). destruct (store_l env (Z.quot nn dd) (s32 (Z.rem nn dd)) Hl) as [-> ->].
    now rewrite s32_u32.
Qed.

Lemma over_fits m w q : 0 <= q -> m = 2 ^ w - 1 -> (m <? q) = negb ((0 <=? q) && (q <? 2 ^ w)).
Proof. intros Hq ->. lia. Qed.

Lemma udiv_shape_ok ot t0 env : length (regs env) = 8%nat -> div_shape false ot t0 env.
Proof.
  intros Hl. unfold div_shape. cbn [value fits helper_div]. pose proof (dividend_range ot env) as Hn.
  pose proof (mod_pow_in (data_bits ot) t0 ltac:(destruct ot; cbn; lia)) as Hd. unfold in_u in Hn, Hd.
  destruct ot; cbn [data_bits] in *.
  - unfold helper_divb_AL. rewrite land_ff_mod, land_ffff. change (reg R_EAX env mod 2 ^ 16) with (dividend OT_BYTE env).
    set (nn := dividend OT_BYTE env) in *. set (dd := t0 mod 2 ^ 8) in *.
    eexists. split; [destruct (Z.eqb_spec dd 0); [reflexivity|];
      rewrite Z.quot_div_nonneg, (over_fits _ 8) by (try apply Z.div_pos; lia); destruct (_ && _); reflexivity|].
    intros Hz _. rewrite Z.quot_div_nonneg, Z.rem_mod_nonneg, !land_ff_mod by lia.
    apply store_b; [done|now apply mod_pow_in|now apply mod_pow_in].
  - unfold helper_divw_AX. rewrite num_w, land_ffff.
    set (nn := dividend OT_WORD env) in *. set (dd := t0 mod 2 ^ 16) in *.
    eexists. split; [destruct (Z.eqb_spec dd 0); [reflexivity|];
      rewrite Z.quot_div_nonneg, (over_fits _ 16) by (try apply Z.div_pos; lia); destruct (_ && _); reflexivity|].
    intros Hz _. rewrite Z.quot_div_nonneg, Z.rem_mod_nonneg, (land_ffff (nn / dd)), (land_ffff (nn mod dd)) by lia.
    apply store_w; [done|now apply mod_pow_in|now apply mod_pow_in].
  - unfold helper_divl_EAX. rewrite num_l. change (u32 t0) with (t0 mod 2 ^ 32).
    set (nn := dividend OT_LONG env) in *. set (dd := t0 mod 2 ^ 32) in *.
    eexists. split; [destruct (Z.eqb_spec dd 0); [reflexivity|];
      rewrite Z.quot_div_nonneg, (over_fits _ 32) by (try apply Z.div_pos; lia); destruct (_ && _); reflexivity|].
    intros Hz _. rewrite Z.quot_div_nonneg, Z.rem_mod_nonneg by lia.
    destruct (store_l env (nn / dd) (u32 (nn mod dd)) Hl) as [-> ->]. split; [reflexivity|].
    change (u32 (u32 (nn mod dd)) = u32 (nn mod dd)). now rewrite (u32_id (u32 _)) by apply u32_range.
Qed.

(** C24: DIV and IDIV of 8, 16 and 32 bits divide exactly, truncating towards
    zero, and raise the divide error exactly when the divisor is zero or the
    quotient does not fit the destination. *)
Theorem x86_div_exact sg ot t0 env (w := data_bits ot)
    (n := value sg (2 * w) (dividend ot env)) (d := value sg w (t0 mod 2 ^ w)) :
  cpu_ok env ->
  ((d = 0 \/ fits sg w (Z.quot n d) = false) -> helper_div sg ot t0 env = Exc (raise_exception EXCP00_DIVZ env))
  /\ (d <> 0 -> fits sg w (Z.quot n d) = true -> exists env',
        helper_div sg ot t0 env = Ret env'
        /\ value sg w (quotient ot env') = Z.quot n d /\ value sg w (remainder ot env') = Z.rem n d).
Proof.
  intros Ho. pose proof (data_bits_range ot) as Hw.
  assert (div_shape sg ot t0 env) as (r & E & F)
    by (destruct sg; [apply idiv_shape_ok|apply udiv_shape_ok]; exact (ok_regs _ Ho)).
  fold w in E, F. fold n d in E, F. split.
  - intros [-> | Hf]; rewrite E; [now rewrite Z.eqb_refl|]. now rewrite Hf, orb_true_r.
  - intros Hd Hf. exists r. destruct (F Hd Hf) as [-> ->]. rewrite E, Hf.
    destruct (Z.eqb_spec d 0); [done|]. split; [reflexivity|].
    rewrite !value_back; try done; try lia. apply rem_fits; [lia|apply mod_pow_in; lia| |exact Hd].
    intros ->. apply dividend_range.
Qed.

(** ** The 128-bit division *)

Lemma u64_shl1 x : in_u 64 x -> u64 (x << 1) = 2 * x - 2 ^ 64 * (x / 2 ^ 63).
Proof.
  unfold in_u. intros Hx. rewrite Z.shiftl_mul_pow2 by lia. unfold u64.
  change 18446744073709551616 with (2 ^ 64). change (2 ^ 1) with 2. change (2 ^ 64) with (2 * 2 ^ 63) in *.
  rewrite (Z.mul_comm x 2), Z.mul_mod_distr_l by lia. pose proof (Z.div_mod x (2 ^ 63) ltac:(lia)). lia.
Qed.

Lemma lor_low x b : in_u 63 x -> 0 <= b <= 1 -> (2 * x) .| b = 2 * x + b.
Proof.
  intros Hx Hb. rewrite Z.lor_comm.
  assert (2 * x = x << 1) as E by (rewrite Z.shiftl_mul_pow2 by lia; change (2 ^ 1) with 2; lia).
  rewrite E at 1. rewrite lor_shift; [change (2 ^ 1) with 2; lia|lia|]. unfold in_u. change (2 ^ 1) with 2. lia.
Qed.

Lemma shl1_lor x b : in_u 64 x -> 0 <= b <= 1 -> u64 (x << 1) .| b = 2 * x - 2 ^ 64 * (x / 2 ^ 63) + b.
Proof.
  intros Hx Hb. rewrite u64_shl1 by done. pose proof (Z.div_mod x (2 ^ 63) ltac:(lia)).
  pose proof (Z.mod_pos_bound x (2 ^ 63) ltac:(lia)).
  replace (2 * x - 2 ^ 64 * (x / 2 ^ 63)) with (2 * (x mod 2 ^ 63)) by (change (2 ^ 64) with (2 * 2 ^ 63); lia).
  now apply lor_low.
Qed.

Lemma shr63 x : in_u 64 x -> x >> 63 = x / 2 ^ 63 /\ 0 <= x / 2 ^ 63 <= 1.
Proof.
  unfold in_u. intros Hx. rewrite Z.shiftr_div_pow2 by lia. split; [done|].
  split; [apply Z.div_pos; lia|]. apply Z.lt_succ_r, Z.div_lt_upper_bound; lia.
Qed.

(** One turn shifts one bit of the dividend into the partial remainder and one
    bit of the quotient into the low word. *)
Lemma div64_step_spec b a1 a0 : 0 < b < 2 ^ 64 -> 0 <= a1 < b -> in_u 64 a0 ->
  let '(r, q) := div64_step b (a1, a0) in
  exists qb, 0 <= qb <= 1 /\ 2 * a1 + a0 / 2 ^ 63 = qb * b + r /\ 0 <= r < b
    /\ q = 2 * a0 - 2 ^ 64 * (a0 / 2 ^ 63) + qb.
Proof.
  intros Hb H1 H0. assert (in_u 64 a1) as U1 by (unfold in_u; lia). unfold div64_step.
  destruct (shr63 a1 U1) as [-> T1]. destruct (shr63 a0 H0) as [-> T0]. rewrite (shl1_lor a1) by done.
  set (t := a1 / 2 ^ 63) in *. pose proof (shl1_lor a0) as L0. set (c := a0 / 2 ^ 63) in *. clearbody c.
  assert (2 ^ 63 * t <= a1 < 2 ^ 63 * t + 2 ^ 63) as Ht
    by (unfold t; pose proof (Z.div_mod a1 (2 ^ 63)); pose proof (Z.mod_pos_bound a1 (2 ^ 63)); lia).
  clearbody t. unfold truthy.
  change (2 ^ 64) with (2 * 2 ^ 63) in *. set (p := 2 ^ 63) in *.
  destruct (Z.eqb_spec t 0) as [->|Hn]; cbn [negb orb].
  - destruct (Z.leb_spec b (2 * a1 - 2 * p * 0 + c)).
    + exists 1. rewrite L0 by (done || lia). rewrite u64_id by (unfold in_u; change (2 ^ 64) with (2 * p); lia).
      split_and!; lia.
    + exists 0. rewrite L0 by (done || lia). split_and!; lia.
  - assert (t = 1) as -> by lia. exists 1. rewrite L0 by (done || lia).
    assert (u64 (2 * a1 - 2 * p * 1 + c - b) = 2 * a1 + c - b) as ->.
    { replace (2 * a1 - 2 * p * 1 + c - b) with (2 * a1 + c - b + (-1) * 2 ^ 64) by (change (2 ^ 64) with (2 * p); lia).
      unfold u64. change 18446744073709551616 with (2 ^ 64). rewrite Z_mod_plus_full. apply Z.mod_small.
      change (2 ^ 64) with (2 * p). lia. }
    split_and!; lia.
Qed.

(** After [k] turns: [k] bits of the high word's dividend are consumed. *)
Lemma div64_iter b a1 a0 k : 0 < b < 2 ^ 64 -> 0 <= a1 < b -> in_u 64 a0 -> (k <= 64)%nat ->
  let '(r, q) := Nat.iter k (div64_step b) (a1, a0) in
  exists qq, 0 <= qq < 2 ^ Z.of_nat k /\ 0 <= r < b
    /\ a1 * 2 ^ Z.of_nat k + a0 / 2 ^ (64 - Z.of_nat k) = qq * b + r
    /\ q = (a0 mod 2 ^ (64 - Z.of_nat k)) * 2 ^ Z.of_nat k + qq.
Proof.
  intros Hb H1 H0. induction k as [|k IH]; intros Hk.
  - cbn [Nat.iter]. exists 0. change (Z.of_nat 0) with 0. rewrite Z.sub_0_r.
    unfold in_u in H0. rewrite Z.div_small, Z.mod_small by lia. change (2 ^ 0) with 1. lia.
  - specialize (IH ltac:(lia)). rewrite Nat.iter_succ. destruct (Nat.iter k (div64_step b) (a1, a0)) as [r q].
    destruct IH as (qq & Hqq & Hr & E & Eq).
    set (j := 64 - Z.of_nat (S k)). assert (64 - Z.of_nat k = Z.succ j) as Ej by lia. assert (0 <= j) by lia.
    rewrite Ej, Z.pow_succ_r in * by lia. rewrite Nat2Z.inj_succ, Z.pow_succ_r by lia.
    assert (2 ^ 64 = 2 * 2 ^ j * 2 ^ Z.of_nat k) as P.
    { rewrite <- Z.pow_succ_r, <- Z.pow_add_r by lia. f_equal. lia. }
    set (K := 2 ^ Z.of_nat k) in *. set (J := 2 ^ j) in *.
    assert (0 < K /\ 0 < J) as [HK HJ] by (split; apply Z.pow_pos_nonneg; lia).
    pose proof (Z.div_mod a0 (2 * J) ltac:(lia)) as D. pose proof (Z.mod_pos_bound a0 (2 * J) ltac:(lia)) as M.
    set (m := a0 mod (2 * J)) in *. set (h := a0 / (2 * J)) in *. clearbody m h.
    (* the bit that moves *)
    pose proof (Z.div_mod m J ltac:(lia)) as Dm. pose proof (Z.mod_pos_bound m J ltac:(lia)) as Mm.
    assert (0 <= m / J <= 1) as Hc by (split; [apply Z.div_pos; lia|apply Z.lt_succ_r, Z.div_lt_upper_bound; lia]).
    set (c := m / J) in *. set (l := m mod J) in *. clearbody c l.
    assert (a0 / J = 2 * h + c) as Ea by (symmetry; apply Z.div_unique_pos with l; lia).
    assert (a0 mod J = l) as Em by (symmetry; apply Z.mod_unique_pos with (2 * h + c); lia).
    assert (q / 2 ^ 63 = c) as Ec.
    { symmetry. apply Z.div_unique_pos with (l * K + qq); [|rewrite Eq, Dm; change (2 ^ 64) with (2 * 2 ^ 63) in P; nia].
      change (2 ^ 64) with (2 * 2 ^ 63) in P. nia. }
    assert (in_u 64 q) as Hq by (unfold in_u; rewrite P, Eq; nia).
    pose proof (div64_step_spec b r q Hb Hr Hq) as S. destruct (div64_step b (r, q)) as [r' q'].
    destruct S as (qb & S1 & S2 & S3 & S4). rewrite Ec in S2, S4.
    exists (2 * qq + qb). split; [lia|]. split; [done|]. split; [rewrite Ea; nia|]. rewrite Em, S4, Eq, P, Dm. nia.
Qed.

Lemma div64_exact low high b : in_u 64 low -> in_u 64 high -> 0 < b < 2 ^ 64 ->
  let n := low + 2 ^ 64 * high in
  div64 low high b = if n / b <? 2 ^ 64 then Some (n / b, n mod b) else None.
Proof.
  intros Hl Hh Hb. cbv zeta. unfold div64. unfold in_u in *. destruct (Z.eqb_spec high 0) as [->|].
  - rewrite Z.mul_0_r, Z.add_0_r. destruct (Z.ltb_spec (low / b) (2 ^ 64)) as [|Hge]; [done|].
    assert (low / b <= low) by (apply Z.div_le_upper_bound; nia). lia.
  - destruct (Z.leb_spec b high).
    + destruct (Z.ltb_spec ((low + 2 ^ 64 * high) / b) (2 ^ 64)) as [Hlt|]; [|done].
      assert (2 ^ 64 <= (low + 2 ^ 64 * high) / b) by (apply Z.div_le_lower_bound; nia). lia.
    + pose proof (div64_iter b high low 64 Hb ltac:(lia) Hl ltac:(lia)) as I.
      destruct (Nat.iter 64 (div64_step b) (high, low)) as [r q]. destruct I as (qq & Hqq & Hr & E & Eq).
      change (64 - Z.of_nat 64) with 0 in *. change (Z.of_nat 64) with 64 in *. change (2 ^ 0) with 1 in *.
      rewrite Z.div_1_r in E. rewrite Z.mod_1_r in Eq. cbn [Z.mul Z.add] in Eq. subst q.
      assert ((low + 2 ^ 64 * high) / b = qq) as -> by (symmetry; apply Z.div_unique_pos with r; lia).
      assert ((low + 2 ^ 64 * high) mod b = r) as -> by (symmetry; apply Z.mod_unique_pos with qq; lia).
      destruct (Z.ltb_spec qq (2 ^ 64)); [done|lia].
Qed.

Lemma lnot64 x : in_u 64 x -> u64 (~~ x) = 2 ^ 64 - 1 - x.
Proof.
  unfold in_u, Z.lnot, u64. intros Hx. change 18446744073709551616 with (2 ^ 64).
  replace (Z.pred (- x)) with (2 ^ 64 - 1 - x + (-1) * 2 ^ 64) by lia. rewrite Z_mod_plus_full. apply Z.mod_small. lia.
Qed.

Lemma neg128_spec low high : in_u 64 low -> in_u 64 high -> 0 < high ->
  let '(l, h) := neg128 low high in
  in_u 64 l /\ in_u 64 h /\ l + 2 ^ 64 * h = 2 ^ 128 - (low + 2 ^ 64 * high).
Proof.
  intros Hl Hh Hp. unfold neg128, add128. rewrite !lnot64 by done. unfold in_u in *.
  change (2 ^ 128) with (2 ^ 64 * 2 ^ 64). set (p := 2 ^ 64) in *. assert (1 < p) by done.
  destruct (Z.eq_dec low 0) as [->|].
  - assert (u64 (p - 1 - 0 + 1) = 0) as -> by reflexivity. cbn [Z.ltb Z.compare].
    rewrite Z.add_0_r, !u64_id by (rewrite ?u64_id; unfold in_u; fold p; lia). split_and!; lia.
  - rewrite (u64_id (p - 1 - low + 1)) by (unfold in_u; fold p; lia).
    destruct (Z.ltb_spec (p - 1 - low + 1) 1); [lia|]. rewrite Z.add_0_r, u64_id by (unfold in_u; fold p; lia). split_and!; lia.
Qed.

(** Truncating division by magnitudes and signs. *)
Lemma quot_signs (sa sb : bool) A B : 0 <= A -> 0 < B ->
  let n := if sa then - A else A in let b := if sb then - B else B in
  Z.quot n b = (if xorb sa sb then - (A / B) else A / B) /\ Z.rem n b = (if sa then - (A mod B) else A mod B).
Proof.
  intros HA HB. cbv zeta. rewrite <- Z.quot_div_nonneg, <- Z.rem_mod_nonneg by lia.
  destruct sa, sb; cbn [xorb]; rewrite ?Z.quot_opp_opp, ?Z.quot_opp_l, ?Z.quot_opp_r, ?Z.rem_opp_opp, ?Z.rem_opp_l', ?Z.rem_opp_r' by lia; done.
Qed.

Lemma s64_neg high : in_u 64 high -> (s64 high <? 0) = (2 ^ 63 <=? high).
Proof. intros Hh. unfold s64. rewrite u64_id by done. unfold in_u in Hh. destruct (Z.ltb_spec high 9223372036854775808); lia. Qed.

(** The magnitude of the dividend. *)
Lemma dividend128 low high : in_u 64 low -> in_u 64 high ->
  let sa := s64 high <? 0 in
  let '(l, h) := if sa then neg128 low high else (low, high) in
  in_u 64 l /\ in_u 64 h
  /\ signed 128 (low + 2 ^ 64 * high) = (if sa then - (l + 2 ^ 64 * h) else l + 2 ^ 64 * h).
Proof.
  intros Hl Hh. cbv zeta. rewrite s64_neg by done. unfold signed. change (2 ^ (128 - 1)) with (2 ^ 64 * 2 ^ 63).
  destruct (Z.leb_spec (2 ^ 63) high).
  - pose proof (neg128_spec low high Hl Hh ltac:(lia)) as N. destruct (neg128 low high) as [l h].
    destruct N as (N1 & N2 & N3). split; [done|]. split; [done|]. unfold in_u in *.
    destruct (Z.ltb_spec (low + 2 ^ 64 * high) (2 ^ 64 * 2 ^ 63)); lia.
  - split; [done|]. split; [done|]. unfold in_u in *.
    destruct (Z.ltb_spec (low + 2 ^ 64 * high) (2 ^ 64 * 2 ^ 63)); [done|lia].
Qed.

Lemma idiv64_exact low high b (n := signed 128 (low + 2 ^ 64 * high)) :
  in_u 64 low -> in_u 64 high -> - 2 ^ 63 <= b < 2 ^ 63 -> b <> 0 ->
  idiv64 low high b =
    if in_s 64 (Z.quot n b) then Some (u64 (Z.quot n b), u64 (Z.rem n b)) else None.
Proof.
  intros Hl Hh Hb Hz. unfold idiv64. pose proof (dividend128 low high Hl Hh) as D. cbv zeta in D.
  set (sa := s64 high <? 0) in *. clearbody sa. destruct (if sa then neg128 low high else (low, high)) as [l h].
  destruct D as (D1 & D2 & D3). fold n in D3. set (A := l + 2 ^ 64 * h) in *.
  set (B := if b <? 0 then - b else b).
  assert (u64 (if b <? 0 then s64 (- b) else b) = B) as ->.
  { unfold B. destruct (Z.ltb_spec b 0); [|apply u64_id; unfold in_u; lia].
    destruct (Z.eq_dec b (- 2 ^ 63)) as [->|]; [reflexivity|]. rewrite s64_id by lia. apply u64_id. unfold in_u. lia. }
  assert (0 < B <= 2 ^ 63) as HB by (unfold B; destruct (Z.ltb_spec b 0); lia).
  assert (b = if b <? 0 then - B else B) as Eb by (unfold B; destruct (b <? 0); lia).
  rewrite div64_exact by (done || lia). fold A.
  assert (0 <= A) as HA by (unfold A, in_u in *; lia).
  destruct (quot_signs sa (b <? 0) A B HA ltac:(lia)) as [Q R]. rewrite <- D3, <- Eb in Q, R. rewrite Q, R.
  assert (0 <= A / B) by (apply Z.div_pos; lia). pose proof (Z.mod_pos_bound A B ltac:(lia)).
  change (1 << 63) with (2 ^ 63). unfold in_s. change (64 - 1) with 63.
  assert (u64 (A mod B) = A mod B) as Er by (apply u64_id; unfold in_u; lia).
  destruct (Z.ltb_spec (A / B) (2 ^ 64)); destruct (xorb sa (b <? 0)).
  - destruct (Z.ltb_spec (2 ^ 63) (A / B)), (Z.leb_spec (- 2 ^ 63) (- (A / B))), (Z.ltb_spec (- (A / B)) (2 ^ 63)); try lia; [done|].
    cbn [andb]. destruct sa; now rewrite ?Er.
  - destruct (Z.leb_spec (2 ^ 63) (A / B)), (Z.leb_spec (- 2 ^ 63) (A / B)), (Z.ltb_spec (A / B) (2 ^ 63)); try lia; [done|].
    cbn [andb]. rewrite (u64_id (A / B)) by (unfold in_u; lia). destruct sa; now rewrite ?Er.
  - destruct (Z.leb_spec (- 2 ^ 63) (- (A / B))), (Z.ltb_spec (- (A / B)) (2 ^ 63)); try lia; done.
  - destruct (Z.leb_spec (- 2 ^ 63) (A / B)), (Z.ltb_spec (A / B) (2 ^ 63)); try lia; done.
Qed.

(** C30: the bit-by-bit 128 by 64 division agrees with division.  Unsigned, by
    every nonzero divisor: quotient and remainder, and overflow exactly when the
    quotient does not fit 64 bits.  Signed: the truncated quotient and the
    remainder, and overflow exactly when the quotient is not a signed 64-bit
    number. *)
Theorem x86_idiv64_exact low high (u := low + 2 ^ 64 * high) (n := signed 128 u) : in_u 64 low -> in_u 64 high ->
  (forall b, 0 < b < 2 ^ 64 -> div64 low high b = if u / b <? 2 ^ 64 then Some (u / b, u mod b) else None)
  /\ (forall b, - 2 ^ 63 <= b < 2 ^ 63 -> b <> 0 ->
       idiv64 low high b = if in_s 64 (Z.quot n b) then Some (u64 (Z.quot n b), u64 (Z.rem n b)) else None).
Proof. intros Hl Hh. split; intros b Hb; [now apply div64_exact|now apply idiv64_exact]. Qed.

(** ** AAM, AAD and the bit scans *)

Lemma al_ah env : quotient OT_BYTE env = reg R_EAX env .& 0xff /\ remainder OT_BYTE env = (reg R_EAX env >> 8) .& 0xff.
Proof.
  split; [now rewrite land_ff_mod|]. rewrite land_ff_mod. unfold remainder, operand.
  change (u8 (reg R_EAX env >> 8) mod 2 ^ 8 = (reg R_EAX env >> 8) mod 2 ^ 8). unfold u8. change 256 with (2 ^ 8).
  now rewrite Z.mod_mod.
Qed.

(** AAM splits AL into two digits of any base, AAD puts them together again. *)
Lemma aam_aad_al base env : length (regs env) = 8%nat -> 0 < base < 256 ->
  AL (helper_aad base (helper_aam base env)) = AL env.
Proof.
  intros Hl Hb. set (al := reg R_EAX env .& 0xff).
  assert (0 <= al <= 255) as Ha by (unfold al; now apply (land_range _ 8)).
  assert (0 <= Z.quot al base <= 255) as Hq.
  { rewrite Z.quot_div_nonneg by lia. split; [apply Z.div_pos; lia|]. apply Z.div_le_upper_bound; nia. }
  pose proof (Z.rem_bound_pos al base ltac:(lia) ltac:(lia)) as Hr. pose proof (Z.quot_rem al base ltac:(lia)) as E.
  set (e := helper_aam base env).
  assert (quotient OT_BYTE e = Z.rem al base /\ remainder OT_BYTE e = Z.quot al base) as [E1 E2].
  { unfold e, helper_aam. fold al. rewrite <- Z.lor_assoc, (Z.lor_comm (Z.rem al base)), Z.lor_assoc.
    apply store_b; [done|unfold in_u; lia|unfold in_u; lia]. }
  assert (length (regs e) = 8%nat) as Hle by (unfold e, helper_aam, set_reg; cbn [over regs]; now rewrite length_aset).
  destruct (al_ah e) as [A1 A2]. rewrite E1 in A1. rewrite E2 in A2. unfold helper_aad. rewrite <- A1, <- A2.
  replace (Z.quot al base * base + Z.rem al base) with al by lia.
  assert (al .& 0xff = al) as -> by (rewrite land_ff_mod; apply Z.mod_small; lia).
  pose proof (store_b e al 0 Hle ltac:(unfold in_u; lia) ltac:(unfold in_u; lia)) as [S _].
  change (0 << 8) with 0 in S. rewrite Z.lor_0_r in S. etransitivity; [exact S|]. apply al_masked.
Qed.

Lemma bsf_loop_spec fuel : forall count res j, 0 <= j < Z.of_nat fuel -> Z.testbit res j = true ->
  (forall i, 0 <= i < j -> Z.testbit res i = false) -> bsf_loop fuel count res = Some (count + j).
Proof.
  induction fuel as [|fuel IH]; intros count res j Hj Hb Hlow; [lia|]. cbn [bsf_loop].
  change (res .& 1) with (res .& (1 << 0)). rewrite land_bit_eqb by lia.
  destruct (Z.eq_dec j 0) as [->|]; [rewrite Hb; cbn; f_equal; lia|].
  rewrite (Hlow 0) by lia. cbn [negb]. rewrite (IH _ _ (j - 1)); [f_equal; lia|lia| |].
  - rewrite Z.shiftr_spec by lia. now replace (j - 1 + 1) with j by lia.
  - intros i Hi. rewrite Z.shiftr_spec by lia. apply Hlow. lia.
Qed.

Lemma lzcnt_loop_spec fuel : forall count res j, 0 <= j < Z.of_nat fuel -> j <= 31 -> Z.testbit res (31 - j) = true ->
  (forall i, 31 - j < i <= 31 -> Z.testbit res i = false) -> lzcnt_loop fuel (1 << 31) count res = Some (count - j).
Proof.
  induction fuel as [|fuel IH]; intros count res j Hj H31 Hb Hhi; [lia|]. cbn [lzcnt_loop].
  rewrite land_bit_eqb by lia. destruct (Z.eq_dec j 0) as [->|].
  - rewrite Z.sub_0_r in Hb. rewrite Hb. cbn [negb]. f_equal. lia.
  - rewrite (Hhi 31) by lia. cbn [negb]. rewrite (IH _ _ (j - 1)); [f_equal; lia|lia|lia| |].
    + rewrite u32_bit, Z.shiftl_spec by lia. now replace (31 - (j - 1) - 1) with (31 - j) by lia.
    + intros i Hi. rewrite u32_bit, Z.shiftl_spec by lia. apply Hhi. lia.
Qed.

(** BSF and BSR end on every non-zero operand, and give the lowest and the
    highest set bit. *)
Theorem x86_bit_scans t0 : 0 < t0 < 2 ^ 32 ->
  (exists k, helper_bsf t0 = Some k /\ Z.testbit t0 k = true /\ forall i, 0 <= i < k -> Z.testbit t0 i = false)
  /\ helper_bsr t0 = Some (Z.log2 t0).
Proof.
  intros Ht. assert (0 <= Z.log2 t0 <= 31) as Hlog.
  { split; [apply Z.log2_nonneg|]. apply Z.lt_succ_r, Z.log2_lt_pow2; [lia|]. change (Z.succ 31) with 32. lia. }
  split.
  - assert (forall n : nat, (exists k, 0 <= k < Z.of_nat n /\ Z.testbit t0 k = true /\ forall i, 0 <= i < k -> Z.testbit t0 i = false)
      \/ forall i, 0 <= i < Z.of_nat n -> Z.testbit t0 i = false) as L.
    { induction n as [|n [(k & Hk)|IH]]; [right; lia|left; exists k; intuition lia|].
      destruct (Z.testbit t0 (Z.of_nat n)) eqn:E; [left; exists (Z.of_nat n); split; [lia|done]|].
      right. intros i Hi. destruct (Z.eq_dec i (Z.of_nat n)) as [->|]; [done|apply IH; lia]. }
    destruct (L 32%nat) as [(k & Hk & Hb & Hlow)|Hno].
    + exists k. split; [|done]. unfold helper_bsf. rewrite (bsf_loop_spec 33 0 t0 k); [done|lia|done|done].
    + exfalso. specialize (Hno (Z.log2 t0) ltac:(lia)). rewrite Z.bit_log2 in Hno by lia. done.
  - unfold helper_bsr, helper_lzcnt. cbn [Z.ltb Z.compare andb].
    rewrite (lzcnt_loop_spec 33 31 t0 (31 - Z.log2 t0)); [f_equal; lia|lia|lia| |].
    + replace (31 - (31 - Z.log2 t0)) with (Z.log2 t0) by lia. apply Z.bit_log2. lia.
    + intros i Hi. apply Z.bits_above_log2; lia.
Qed.

(** ** Witnesses *)

Definition cpu_al (v : Z) : CPUX86State := set_reg R_EAX v cpu_zero.

Lemma cpu_al_ok v : cpu_ok (cpu_al v).
Proof.
  constructor; [unfold cpu_al, set_reg; cbn [over regs]; now rewrite length_aset| |reflexivity].
  unfold cpu_al, set_reg. cbn [over regs]. apply aset_Forall; [apply u32_range|]. repeat constructor; done.
Qed.

(** 42 - 58 = 84 with a borrow. *)
Lemma x86_bcd_subtract_witness :
  let env' := gen_das (gen_op 0 OP_SBBL OT_BYTE R_EAX 0x58 (cpu_al 0x42)) in AL env' = 0x84 /\ carry_in env' = true.
Proof.
  cbv zeta. destruct (x86_bcd_subtract 0 0x58 (cpu_al 0x42) 42 58 (cpu_al_ok _) ltac:(split; done) ltac:(lia) ltac:(lia)
    eq_refl eq_refl) as [H1 H2]. rewrite H1, H2. split; reflexivity.
Defined.

(** 58 + 67 = 125. *)
Lemma x86_bcd_add_witness :
  let env' := gen_daa (gen_op 0 OP_ADCL OT_BYTE R_EAX 0x67 (cpu_al 0x58)) in AL env' = 0x25 /\ carry_in env' = true.
Proof.
  cbv zeta. destruct (x86_bcd_add 0 0x67 (cpu_al 0x58) 58 67 (cpu_al_ok _) ltac:(split; done) ltac:(lia) ltac:(lia)
    eq_refl eq_refl) as [H1 H2]; [vm_compute; intros [? _]; congruence|]. rewrite H1, H2. split; reflexivity.
Defined.

(** -100 / 7 = -14, remainder -2, in 16 bits. *)
Lemma x86_div_witness :
  let env := set_reg R_EDX 0xffff (cpu_al 0xff9c) in
  exists env', helper_div true OT_WORD 7 env = Ret env' /\ signed 16 (quotient OT_WORD env') = -14
    /\ signed 16 (remainder OT_WORD env') = -2.
Proof.
  cbv zeta. assert (cpu_ok (set_reg R_EDX 0xffff (cpu_al 0xff9c))) as Ho
    by (constructor; [reflexivity| |reflexivity]; repeat constructor; done).
  exact (proj2 (x86_div_exact true OT_WORD 7 _ Ho) ltac:(vm_compute; discriminate) eq_refl).
Defined.

(** -(2^64) / 3. *)
Lemma x86_idiv64_witness : idiv64 0 (2 ^ 64 - 1) 3 = Some (u64 (-6148914691236517205), u64 (-1)) /\ div64 5 (2 ^ 64 - 2) (2 ^ 64 - 1) = Some (2 ^ 64 - 1, 4).
Proof.
  destruct (x86_idiv64_exact 0 (2 ^ 64 - 1)) as [_ S]; [split; done|split; done|]. destruct (x86_idiv64_exact 5 (2 ^ 64 - 2)) as [U _]; [split; done|split; done|].
  split; [rewrite S by done; vm_compute; reflexivity|]. rewrite U by done. vm_compute. reflexivity.
Defined.

Lemma x86_bit_scans_witness : helper_bsr 0x1234 = Some 12.
Proof. exact (proj2 (x86_bit_scans 0x1234 ltac:(split; done))). Defined.

End X86Alu.
