(* ===== verification/X86Int.v ===== *)
(** * Real-mode interrupts and far transfers of target-i386/op_helper.c

    The stack and the vector table are in guest memory.  The class [KernelMem]
    is what the helpers use of it, the [ld*_kernel] and [st*_kernel] accesses of
    the softmmu, with the law that makes a memory out of them: a word reads back
    what was last stored there, and a store does not reach the words beside
    it.  [byte_mem] implements it with a map of bytes. *)

From S2P Require Import Prelude X86Cpu X86Trans X86Alu.

Module X86Int.
Import X86 X86Trans X86Alu.
#[local] Existing Instances X86.SegmentCache_eta X86.CPUX86State_eta.

Definition DESC_B_MASK : Z := 1 << 22.

Class KernelMem (M : Type) := {
  lduw_kernel : Z -> M -> Z;
  ldl_kernel : Z -> M -> Z;
  stw_kernel : Z -> Z -> M -> M;
  stl_kernel : Z -> Z -> M -> M;
  ldw_stw : forall a v m, 0 <= a < 0xffffffff -> lduw_kernel a (stw_kernel a v m) = u16 v;
  ldw_stw_ne : forall a b v m, 0 <= a < 0xffffffff -> 0 <= b < 0xffffffff ->
    a + 2 <= b \/ b + 2 <= a -> lduw_kernel b (stw_kernel a v m) = lduw_kernel b m
}.

Section Real.
Context {M : Type} `{!KernelMem M}.

Definition get_sp_mask (e2 : Z) : Z := if tst e2 DESC_B_MASK then 0xffffffff else 0xffff.

Definition SEG_ADDL (ssp sp sp_mask : Z) : Z := u32 (ssp + (sp .& sp_mask)).

(** The stack macros, on [(sp, memory)]. *)
Definition PUSHW (ssp sp_mask val : Z) (s : Z * M) : Z * M :=
  let '(sp, m) := s in
  let sp := u32 (sp - 2) in
  (sp, stw_kernel (u32 (ssp + (sp .& sp_mask))) val m).
Definition PUSHL (ssp sp_mask val : Z) (s : Z * M) : Z * M :=
  let '(sp, m) := s in
  let sp := u32 (sp - 4) in
  (sp, stl_kernel (SEG_ADDL ssp sp sp_mask) (u32 val) m).
Definition POPW (ssp sp_mask sp : Z) (m : M) : Z * Z :=
  (lduw_kernel (u32 (ssp + (sp .& sp_mask))) m, u32 (sp + 2)).
Definition POPL (ssp sp_mask sp : Z) (m : M) : Z * Z :=
  (u32 (ldl_kernel (SEG_ADDL ssp sp sp_mask) m), u32 (sp + 4)).

Definition set_cs_real (new_cs : Z) (env : CPUX86State) : CPUX86State :=
  set_seg R_CS ((seg R_CS env) <| selector := new_cs |> <| base := u32 (new_cs << 4) |>) env.

Definition do_interrupt_real (intno is_int err next_eip : Z) (env : CPUX86State) (m : M)
    : cpu_result (CPUX86State * M) :=
  let dt := idt env in
  if limit dt <? intno * 4 + 3 then Exc (raise_exception_err EXCP0D_GPF (intno * 8 + 2) env)
  else
    let ptr := u32 (base dt + intno * 4) in
    let offset := lduw_kernel ptr m in
    let sel := lduw_kernel (u32 (ptr + 2)) m in
    let esp := reg R_ESP env in
    let ssp := base (seg R_SS env) in
    let old_eip := if truthy is_int then next_eip else eip env in
    let old_cs := selector (seg R_CS env) in
    let '(esp, m) := PUSHW ssp 0xffff (compute_eflags env) (esp, m) in
    let '(esp, m) := PUSHW ssp 0xffff old_cs (esp, m) in
    let '(esp, m) := PUSHW ssp 0xffff old_eip (esp, m) in
    (* update processor state *)
    let env := set_reg R_ESP ((reg R_ESP env .& ~~ 0xffff) .| (esp .& 0xffff)) env in
    let env := env <| eip := offset |> in
    let env := set_cs_real sel env in
    Ret (env <| eflags := eflags env .& ~~ (IF_MASK .| TF_MASK .| AC_MASK .| RF_MASK) |>, m).

(** [helper_iret_real] for [shift] 0 and 1. *)
Definition helper_iret_real (shift : Z) (env : CPUX86State) (m : M) : CPUX86State :=
  let sp_mask := 0xffff in
  let sp := reg R_ESP env in
  let ssp := base (seg R_SS env) in
  let '(new_eip, new_cs, new_eflags, sp) :=
    if shift =? 1 then
      let '(new_eip, sp) := POPL ssp sp_mask sp m in
      let '(new_cs, sp) := POPL ssp sp_mask sp m in
      let new_cs := new_cs .& 0xffff in
      let '(new_eflags, sp) := POPL ssp sp_mask sp m in
      (new_eip, new_cs, new_eflags, sp)
    else
      let '(new_eip, sp) := POPW ssp sp_mask sp m in
      let '(new_cs, sp) := POPW ssp sp_mask sp m in
      let '(new_eflags, sp) := POPW ssp sp_mask sp m in
      (new_eip, new_cs, new_eflags, sp) in
  let env := set_reg R_ESP ((reg R_ESP env .& ~~ sp_mask) .| (sp .& sp_mask)) env in
  let env := set_cs_real new_cs env in
  let env := env <| eip := new_eip |> in
  let eflags_mask :=
    if tst (eflags env) VM_MASK
    then TF_MASK .| AC_MASK .| ID_MASK .| IF_MASK .| RF_MASK .| NT_MASK
    else TF_MASK .| AC_MASK .| ID_MASK .| IF_MASK .| IOPL_MASK .| RF_MASK .| NT_MASK in
  let eflags_mask := if shift =? 0 then eflags_mask .& 0xffff else eflags_mask in
  let env := load_eflags (s32 new_eflags) eflags_mask env in
  env <| hflags2 := hflags2 env .& ~~ HF2_NMI_MASK |>.

(** The IRET of [disas_insn] in real mode. *)
Definition gen_iret_real (shift : Z) (env : CPUX86State) (m : M) : CPUX86State :=
  (helper_iret_real shift env m) <| cc_op := CC_OP_EFLAGS |>.

Definition SET_ESP (val sp_mask : Z) (env : CPUX86State) : CPUX86State :=
  set_reg R_ESP ((reg R_ESP env .& ~~ sp_mask) .| (val .& sp_mask)) env.

Definition helper_lcall_real (new_cs new_eip1 shift next_eip : Z) (env : CPUX86State) (m : M) : CPUX86State * M :=
  let new_eip := s32 new_eip1 in
  let esp := reg R_ESP env in
  let esp_mask := get_sp_mask (flags (seg R_SS env)) in
  let ssp := base (seg R_SS env) in
  let '(esp, m) :=
    if truthy shift then
      PUSHL ssp esp_mask next_eip (PUSHL ssp esp_mask (selector (seg R_CS env)) (esp, m))
    else
      PUSHW ssp esp_mask next_eip (PUSHW ssp esp_mask (selector (seg R_CS env)) (esp, m)) in
  let env := SET_ESP esp esp_mask env in
  let env := env <| eip := u32 new_eip |> in
  (set_cs_real new_cs env, m).

(** [do_interrupt_all] in real mode, outside SVM, and its callers. *)
Definition do_interrupt (env : CPUX86State) (m : M) : cpu_result (CPUX86State * M) :=
  match do_interrupt_real (exception_index env) (exception_is_int env) (error_code env)
          (exception_next_eip env) env m with
  | Ret (env, m) => Ret (env <| old_exception := -1 |>, m)
  | Exc env => Exc env
  end.
Definition do_interrupt_x86_hardirq (intno : Z) (env : CPUX86State) (m : M) : cpu_result (CPUX86State * M) :=
  do_interrupt_real intno 0 0 0 env m.
End Real.

(** ** An interrupt and its return *)

(** A CPU in real mode between two instructions: segment bases follow the
    selectors, and [eflags] holds neither the arithmetic flags nor the
    direction flag, which are kept elsewhere. *)
Record real_mode (env : CPUX86State) : Prop := {
  rm_cpu : cpu_ok env;
  rm_segs : length (segs env) = 6%nat;
  rm_cs : in_u 16 (selector (seg R_CS env)) /\ base (seg R_CS env) = selector (seg R_CS env) << 4;
  rm_ss : 0 <= base (seg R_SS env) <= 0xffff0;
  rm_eflags : in_u 32 (eflags env);
  rm_clear : eflags env .& (CC_ALL .| DF_MASK .| VM_MASK .| 2) = 2;
  rm_df : df env = 1 \/ df env = -1
}.

(** The address of the [k]th word below the top of the stack. *)
Definition stack_word (env : CPUX86State) (k : Z) : Z :=
  base (seg R_SS env) + (reg R_ESP env - 2 * k) mod 2 ^ 16.

Lemma stack_addr ssp sp : 0 <= ssp <= 0xffff0 -> u32 (ssp + (u32 sp .& 0xffff)) = ssp + sp mod 2 ^ 16.
Proof.
  intros Hs. rewrite land_ffff, u32_mod by lia. apply u32_id. unfold in_u.
  pose proof (Z.mod_pos_bound sp (2 ^ 16) ltac:(lia)). lia.
Qed.

Lemma u32_sub2 x y : u32 (u32 x - y) = u32 (x - y).
Proof. apply u32_u32_sub. Qed.

(** ESP with its low half replaced, and put back. *)
Lemma esp_low x y : (u32 ((x .& ~~ 0xffff) .| (y .& 0xffff))) .& 0xffff = y mod 2 ^ 16.
Proof.
  rewrite land_ffff, low_word by (rewrite land_ffff; now apply mod_pow_in). apply land_ffff.
Qed.

Lemma esp_back x y z : in_u 32 x -> z mod 2 ^ 16 = x mod 2 ^ 16 ->
  u32 ((u32 ((x .& ~~ 0xffff) .| (y .& 0xffff)) .& ~~ 0xffff) .| (z .& 0xffff)) = x.
Proof.
  intros Hx Hz. rewrite (land_ffff z), Hz, <- land_ffff.
  apply Z.bits_inj'. intros k Hk. rewrite u32_bits, Z.lor_spec, !Z.land_spec, lnot_spec' by lia.
  rewrite u32_bits, Z.lor_spec, !Z.land_spec, lnot_spec' by lia.
  destruct (Z.ltb_spec k 32); cbn [andb].
  - destruct (Z.testbit 0xffff k); cbn [negb]; autorewrite with bits; reflexivity.
  - symmetry. now apply (testbit_in_u_high 32).
Qed.

(** Evaluate the bits of constants. *)
Ltac const_bits :=
  repeat match goal with
  | |- context [Z.testbit ?c ?k] =>
      let v := eval vm_compute in (Z.testbit c k) in
      lazymatch v with
      | true => change (Z.testbit c k) with true
      | false => change (Z.testbit c k) with false
      end
  end.

Lemma df_bit d k : d = 1 \/ d = -1 -> 0 <= k -> Z.testbit (d .& DF_MASK) k = (k =? 10) && (d =? -1).
Proof.
  intros Hd Hk. unfold DF_MASK. change 0x400 with (1 << 10). rewrite Z.land_spec, testbit_one_shift by lia.
  destruct (Z.eqb_spec k 10) as [->|]; [|now rewrite andb_false_r]. now destruct Hd as [-> | ->].
Qed.

Lemma df_load fl : 1 - 2 * ((fl >> 10) .& 1) = (if Z.testbit fl 10 then -1 else 1).
Proof.
  change ((fl >> 10) .& 1) with ((fl >> 10) .& CC_C). rewrite cc_c_bit, Z.shiftr_spec by lia. change (0 + 10) with 10.
  now destruct (Z.testbit fl 10).
Qed.

Lemma u16_bits x k : 0 <= k < 16 -> Z.testbit (u16 x) k = Z.testbit x k.
Proof. intros Hk. unfold u16. change 65536 with (2 ^ 16). now apply bit_mod. Qed.

(** The bits of [eflags] that are fixed. *)
Lemma clear_bit env k : real_mode env -> 0 <= k -> Z.testbit (CC_ALL .| DF_MASK .| VM_MASK .| 2) k = true ->
  Z.testbit (eflags env) k = (k =? 1).
Proof.
  intros Hr Hk Hm. pose proof (f_equal (fun x => Z.testbit x k) (rm_clear _ Hr)) as H. cbn beta in H.
  rewrite Z.land_spec, Hm, andb_true_r in H. rewrite H. change 2 with (1 << 1). now apply testbit_one_shift.
Qed.

Lemma compute_bit env k : real_mode env -> 0 <= k < 16 ->
  Z.testbit (compute_eflags env) k
  = Z.testbit (eflags env) k || Z.testbit (helper_cc_compute_all (cc_op env) env) k || ((k =? 10) && (df env =? -1)).
Proof.
  intros Hr Hk. unfold compute_eflags. rewrite u32_bit, !Z.lor_spec, df_bit by (try apply (rm_df _ Hr); lia). reflexivity.
Qed.

Lemma within_bit x k : within x -> Z.testbit x k = Z.testbit x k && Z.testbit CC_ALL k.
Proof. unfold within. intros H. rewrite <- H at 1. apply Z.land_spec. Qed.

(** The low half of the flags survives the interrupt and the return. *)
Lemma flags_back env e2 (fl := s32 (u16 (compute_eflags env)))
    (m := (TF_MASK .| AC_MASK .| ID_MASK .| IF_MASK .| IOPL_MASK .| RF_MASK .| NT_MASK) .& 0xffff) :
  real_mode env ->
  cc_op e2 = CC_OP_EFLAGS -> cc_src e2 = fl .& CC_ALL -> df e2 = 1 - 2 * ((fl >> 10) .& 1) ->
  eflags e2 = u32 (((eflags env .& ~~ (IF_MASK .| TF_MASK .| AC_MASK .| RF_MASK)) .& ~~ m) .| (fl .& m) .| 0x2) ->
  compute_eflags e2 .& 0xffff = compute_eflags env .& 0xffff.
Proof.
  intros Hr Ho Hs Hd He. apply Z.bits_inj'. intros k Hk. rewrite !Z.land_spec.
  change 0xffff with (Z.ones 16). rewrite Z.testbit_ones_nonneg by lia.
  destruct (Z.ltb_spec k 16); [|now rewrite !andb_false_r]. rewrite !andb_true_r.
  set (F := compute_eflags env) in *.
  assert (forall k, 0 <= k < 16 -> Z.testbit fl k = Z.testbit F k) as Hfl
    by (intros j Hj; unfold fl; rewrite s32_bits, u16_bits by lia; reflexivity).
  assert (compute_eflags e2
    = u32 (u32 (((eflags env .& ~~ (IF_MASK .| TF_MASK .| AC_MASK .| RF_MASK)) .& ~~ m) .| (fl .& m) .| 0x2)
           .| u32 (s32 (fl .& CC_ALL)) .| ((1 - 2 * ((fl >> 10) .& 1)) .& DF_MASK))) as ->.
  { unfold compute_eflags. rewrite Ho, He, Hd. change (helper_cc_compute_all CC_OP_EFLAGS e2) with (u32 (s32 (cc_src e2))). now rewrite Hs. }
  clearbody fl. subst m.
  rewrite df_load, u32_bit, !Z.lor_spec by lia. rewrite df_bit by (destruct (Z.testbit fl 10); auto; lia).
  rewrite !u32_bit, s32_bits, !Z.lor_spec, !Z.land_spec by lia.
  rewrite !lnot_spec' by lia. rewrite !Hfl by lia. unfold F. rewrite !compute_bit by (done || lia).
  pose proof (compute_within env (ok_cc _ (rm_cpu _ Hr))) as Hw. set (A := helper_cc_compute_all (cc_op env) env) in *.
  rewrite (within_bit A k), (within_bit A 10) by done. clearbody A.
  assert (k = 0 \/ k = 1 \/ k = 2 \/ k = 3 \/ k = 4 \/ k = 5 \/ k = 6 \/ k = 7 \/ k = 8 \/ k = 9 \/ k = 10 \/ k = 11
    \/ k = 12 \/ k = 13 \/ k = 14 \/ k = 15) as Hcases by lia.
  repeat destruct Hcases as [-> | Hcases]; [..|subst k];
    try (match goal with |- context [Z.testbit (eflags env) ?j] =>
      rewrite (clear_bit env j Hr) by (vm_compute; congruence) end);
    const_bits; cbn [negb Z.eqb Pos.eqb]; autorewrite with bits; try reflexivity; try btauto.
  destruct (df env =? -1); reflexivity.
Qed.

Section Roundtrip.
Context {M : Type} `{!KernelMem M}.

(** The state an interrupt leaves. *)
Definition int_state (sel off : Z) (env : CPUX86State) : CPUX86State :=
  let env := set_reg R_ESP ((reg R_ESP env .& ~~ 0xffff) .| (u32 (reg R_ESP env - 6) .& 0xffff)) env in
  let env := env <| eip := off |> in
  let env := set_cs_real sel env in
  env <| eflags := eflags env .& ~~ (IF_MASK .| TF_MASK .| AC_MASK .| RF_MASK) |>.

Lemma interrupt_pushes intno is_int err next_eip env (m : M) :
  real_mode env -> intno * 4 + 3 <= limit (idt env) ->
  let ptr := u32 (base (idt env) + intno * 4) in
  exists m', do_interrupt_real intno is_int err next_eip env m
      = Ret (int_state (lduw_kernel (u32 (ptr + 2)) m) (lduw_kernel ptr m) env, m')
    /\ lduw_kernel (stack_word env 1) m' = u16 (compute_eflags env)
    /\ lduw_kernel (stack_word env 2) m' = u16 (selector (seg R_CS env))
    /\ lduw_kernel (stack_word env 3) m' = u16 (if truthy is_int then next_eip else eip env).
Proof.
  intros Hr Hlim. cbv zeta. unfold do_interrupt_real. destruct (Z.ltb_spec (limit (idt env)) (intno * 4 + 3)); [lia|].
  pose proof (rm_ss _ Hr) as Hss. unfold PUSHW, int_state, stack_word.
  assert (u32 (u32 (u32 (reg R_ESP env - 2) - 2) - 2) = u32 (reg R_ESP env - 6)) as E3
    by (rewrite (u32_sub2 (reg R_ESP env - 2) 2), u32_sub2; f_equal; lia).
  assert (u32 (u32 (reg R_ESP env - 2) - 2) = u32 (reg R_ESP env - 4)) as E2 by (rewrite u32_sub2; f_equal; lia).
  rewrite E3, E2, !stack_addr by done. eexists. split; [reflexivity|].
  change (reg R_ESP env - 2) with (reg R_ESP env - 2 * 1). change (reg R_ESP env - 4) with (reg R_ESP env - 2 * 2).
  change (reg R_ESP env - 6) with (reg R_ESP env - 2 * 3).
  set (s := reg R_ESP env) in *. clearbody s. set (b := base (seg R_SS env)) in *. clearbody b.
  assert (forall k, 0 <= b + (s - 2 * k) mod 2 ^ 16 < 0xffffffff) as Hb
    by (intros k; pose proof (Z.mod_pos_bound (s - 2 * k) (2 ^ 16) ltac:(lia)); lia).
  change (2 ^ 16) with 65536 in *.
  split_and!; rewrite ?ldw_stw; try reflexivity; try apply Hb;
    repeat (rewrite ldw_stw_ne; [|apply Hb|apply Hb|Z.div_mod_to_equations; lia]); rewrite ldw_stw; try reflexivity; apply Hb.
Qed.

Lemma seg_set_cs sel env : length (segs env) = 6%nat ->
  seg R_CS (set_cs_real sel env) = (seg R_CS env) <| selector := sel |> <| base := u32 (sel << 4) |>
  /\ seg R_SS (set_cs_real sel env) = seg R_SS env.
Proof.
  intros Hl. unfold set_cs_real, set_seg, seg, R_CS, R_SS. cbn [over segs].
  destruct (segs env) as [|s0 [|s1 [|s2 l]]]; try discriminate. split; reflexivity.
Qed.

Lemma seg_int_state sel off env : length (segs env) = 6%nat ->
  seg R_CS (int_state sel off env) = (seg R_CS env) <| selector := sel |> <| base := u32 (sel << 4) |>
  /\ seg R_SS (int_state sel off env) = seg R_SS env.
Proof. exact (seg_set_cs sel env). Qed.

(** Reloading CS with the old selector undoes any other load. *)
Lemma set_cs_back sel env : real_mode env ->
  segs (set_cs_real (selector (seg R_CS env)) (set_cs_real sel env)) = segs env.
Proof.
  intros Hr. destruct (rm_cs _ Hr) as [Hc Hb]. pose proof (rm_segs _ Hr) as Hl.
  destruct (seg_set_cs sel env Hl) as [E _]. set (e := set_cs_real sel env) in *.
  change (<[1%nat := (seg R_CS e) <| selector := selector (seg R_CS env) |> <| base := u32 (selector (seg R_CS env) << 4) |>]>
    (<[1%nat := (seg R_CS env) <| selector := sel |> <| base := u32 (sel << 4) |>]> (segs env)) = segs env).
  rewrite E, list_insert_insert_eq. apply list_insert_id.
  assert (u32 (selector (seg R_CS env) << 4) = base (seg R_CS env)) as Eb.
  { rewrite Hb. apply u32_id. rewrite Z.shiftl_mul_pow2 by lia. unfold in_u in *. lia. }
  rewrite Eb. unfold seg, R_CS in *. destruct (segs env) as [|s0 [|s1 l]]; try discriminate. cbn. f_equal. now destruct s1.
Qed.

Lemma vm_clear env e : real_mode env -> tst (eflags env .& e) VM_MASK = false.
Proof.
  intros Hr. unfold VM_MASK. change 0x20000 with (1 << 17). rewrite tst_bit, Z.land_spec by lia.
  rewrite (clear_bit env 17 Hr) by (vm_compute; congruence). reflexivity.
Qed.

(** The words IRET pops are the words pushed. *)
Lemma iret_pops sel off env : real_mode env ->
  let s := reg R_ESP env in let ssp := base (seg R_SS env) in
  let sp := u32 ((s .& ~~ 0xffff) .| (u32 (s - 6) .& 0xffff)) in
  reg R_ESP (int_state sel off env) = sp /\ base (seg R_SS (int_state sel off env)) = ssp
  /\ u32 (ssp + (sp .& 0xffff)) = stack_word env 3
  /\ u32 (ssp + (u32 (sp + 2) .& 0xffff)) = stack_word env 2
  /\ u32 (ssp + (u32 (u32 (sp + 2) + 2) .& 0xffff)) = stack_word env 1
  /\ u32 (u32 (u32 (sp + 2) + 2) + 2) mod 2 ^ 16 = s mod 2 ^ 16.
Proof.
  intros Hr. cbv zeta. pose proof (ok_regs _ (rm_cpu _ Hr)) as Hl. pose proof (rm_ss _ Hr) as Hss.
  set (s := reg R_ESP env). set (ssp := base (seg R_SS env)) in *.
  set (sp := u32 ((s .& ~~ 0xffff) .| (u32 (s - 6) .& 0xffff))).
  assert (sp mod 2 ^ 16 = (s - 6) mod 2 ^ 16) as Hsp by (rewrite <- land_ffff; unfold sp; rewrite esp_low; apply u32_mod; lia).
  assert (forall k, (sp + k) mod 2 ^ 16 = (s - 6 + k) mod 2 ^ 16) as Hk
    by (intros k; rewrite <- Zplus_mod_idemp_l, Hsp; apply Zplus_mod_idemp_l).
  assert (forall k, u32 (ssp + (u32 k .& 0xffff)) = ssp + k mod 2 ^ 16) as Ha by (intros; now apply stack_addr).
  assert (u32 sp = sp) as Hu by (apply u32_id, u32_range).
  split; [now apply reg_set_eq; unfold R_ESP; [|lia]|].
  split; [f_equal; apply seg_int_state; exact (rm_segs _ Hr)|]. unfold stack_word. fold s ssp. rewrite !u32_u32, <- !Z.add_assoc.
  split_and!.
  - rewrite <- Hu at 1. rewrite Ha, Hsp. do 2 f_equal.
  - rewrite Ha, Hk. do 2 f_equal. lia.
  - rewrite Ha, Hk. do 2 f_equal. lia.
  - rewrite u32_mod, Hk by lia. f_equal. lia.
Qed.

(** C26: a real-mode interrupt enters the handler the vector table names, with
    interrupts and single stepping off; and when the handler returns with the
    three words on its stack untouched, IRET restores every register, every
    segment, the instruction pointer and the sixteen flags. *)
Theorem x86_interrupt_returns intno is_int err next_eip env (m : M)
    (ptr := u32 (base (idt env) + intno * 4)) :
  real_mode env -> intno * 4 + 3 <= limit (idt env) ->
  exists env1 m1, do_interrupt_real intno is_int err next_eip env m = Ret (env1, m1)
    /\ eip env1 = lduw_kernel ptr m /\ selector (seg R_CS env1) = lduw_kernel (u32 (ptr + 2)) m
    /\ base (seg R_CS env1) = u32 (lduw_kernel (u32 (ptr + 2)) m << 4)
    /\ tst (eflags env1) (IF_MASK .| TF_MASK) = false
    /\ forall m2, (forall k, 1 <= k <= 3 -> lduw_kernel (stack_word env k) m2 = lduw_kernel (stack_word env k) m1) ->
         let env2 := gen_iret_real 0 env1 m2 in
         regs env2 = regs env /\ segs env2 = segs env
         /\ eip env2 = u16 (if truthy is_int then next_eip else eip env)
         /\ compute_eflags env2 .& 0xffff = compute_eflags env .& 0xffff.
Proof.
  intros Hr Hlim. destruct (interrupt_pushes intno is_int err next_eip env m Hr Hlim) as (m1 & E & W1 & W2 & W3).
  fold ptr in E. set (sel := lduw_kernel (u32 (ptr + 2)) m) in *. set (off := lduw_kernel ptr m) in *.
  exists (int_state sel off env), m1. split; [exact E|]. split; [reflexivity|].
  assert (seg R_CS (int_state sel off env) = (seg R_CS env) <| selector := sel |> <| base := u32 (sel << 4) |>) as Ecs
    by (apply seg_int_state; exact (rm_segs _ Hr)).
  rewrite Ecs. split; [reflexivity|]. split; [reflexivity|]. split.
  { change (tst (eflags env .& ~~ (IF_MASK .| TF_MASK .| AC_MASK .| RF_MASK)) (IF_MASK .| TF_MASK) = false).
    unfold tst. rewrite <- Z.land_assoc. change (~~ (IF_MASK .| TF_MASK .| AC_MASK .| RF_MASK) .& (IF_MASK .| TF_MASK)) with 0.
    now rewrite Z.land_0_r. }
  intros m2 Hm. cbv zeta. destruct (iret_pops sel off env Hr) as (R1 & R2 & A3 & A2 & A1 & Sp).
  unfold gen_iret_real, helper_iret_real. cbn [Z.eqb]. unfold POPW. rewrite R1, R2, A3, A2, A1.
  rewrite !Hm, W1, W2, W3 by lia.
  assert (u16 (selector (seg R_CS env)) = selector (seg R_CS env)) as -> by (apply u16_id; exact (proj1 (rm_cs _ Hr))).
  match goal with |- context [tst (eflags ?x) VM_MASK] => change (eflags x) with (eflags env .& ~~ (IF_MASK .| TF_MASK .| AC_MASK .| RF_MASK)) end.
  rewrite vm_clear by done. pose proof (ok_regs _ (rm_cpu _ Hr)) as Hl.
  split_and!.
  - change (aset (aset (regs env) 4 (u32 ((reg R_ESP env .& ~~ 0xffff) .| (u32 (reg R_ESP env - 6) .& 0xffff)))) 4
      (u32 ((u32 ((reg R_ESP env .& ~~ 0xffff) .| (u32 (reg R_ESP env - 6) .& 0xffff)) .& ~~ 0xffff)
        .| (u32 (u32 (u32 (u32 ((reg R_ESP env .& ~~ 0xffff) .| (u32 (reg R_ESP env - 6) .& 0xffff)) + 2) + 2) + 2) .& 0xffff))) = regs env).
    rewrite esp_back; [|apply (aget_Forall _ _ R_ESP); [done|exact (ok_width _ (rm_cpu _ Hr))]|exact Sp].
    unfold aset, reg, aget. rewrite list_insert_insert_eq. apply list_insert_id.
    rewrite nth_lookup. destruct (lookup_lt_is_Some_2 (regs env) (Z.to_nat R_ESP)) as [v Hv]; [rewrite Hl; unfold R_ESP; lia|].
    change (Z.to_nat 4) with (Z.to_nat R_ESP). rewrite Hv. reflexivity.
  - exact (set_cs_back sel env Hr).
  - reflexivity.
  - apply flags_back; [exact Hr|reflexivity|reflexivity|reflexivity|reflexivity].
Qed.
End Roundtrip.

(** ** A memory of bytes *)

Definition byte_mem : Type := Z -> Z.
Definition stb (a v : Z) (m : byte_mem) : byte_mem := fun x => if x =? a then u8 v else m x.

#[export] Instance byte_mem_kernel : KernelMem byte_mem.
Proof.
  refine {|
    lduw_kernel a m := u8 (m a) + 256 * u8 (m (a + 1));
    ldl_kernel a m := u8 (m a) + 256 * u8 (m (a + 1)) + 65536 * u8 (m (a + 2)) + 16777216 * u8 (m (a + 3));
    stw_kernel a v m := stb (a + 1) (v >> 8) (stb a v m);
    stl_kernel a v m := stb (a + 3) (v >> 24) (stb (a + 2) (v >> 16) (stb (a + 1) (v >> 8) (stb a v m)))
  |}.
  - intros a v m _. unfold stb, u8, u16. rewrite Z.shiftr_div_pow2 by lia. change (2 ^ 8) with 256.
    destruct (Z.eqb_spec a (a + 1)), (Z.eqb_spec a a), (Z.eqb_spec (a + 1) (a + 1)); try lia.
    rewrite !Z.mod_mod by lia. change 65536 with (256 * 256). now rewrite Z.rem_mul_r by lia.
  - intros a b v m _ _ H. unfold stb.
    destruct (Z.eqb_spec b (a + 1)), (Z.eqb_spec b a), (Z.eqb_spec (b + 1) (a + 1)), (Z.eqb_spec (b + 1) a); lia.
Defined.

(** Vector 8 points to 0xf000:0xfea5; the CPU is interrupted at 0x0700:0x0123
    with SP wrapping below zero and the interrupt flag set. *)
Definition int_cpu : CPUX86State :=
  (set_reg R_ESP 2 cpu_zero) <| eip := 0x123 |> <| eflags := 0x202 |>
    <| segs := [seg_zero; mkSeg 0x700 0x7000 0xffff 0; mkSeg 0x800 0x8000 0xffff 0; seg_zero; seg_zero; seg_zero] |>
    <| idt := mkSeg 0 0 0x3ff 0 |>.
Definition int_mem : byte_mem := stw_kernel 0x22 0xf000 (stw_kernel 0x20 0xfea5 (fun _ => 0)).

Lemma int_cpu_real : real_mode int_cpu.
Proof.
  constructor; try done; try (vm_compute; intuition congruence).
  constructor; [reflexivity| |reflexivity]. repeat constructor; done.
Qed.

Lemma x86_interrupt_returns_witness : exists env1 m1,
  do_interrupt_real 8 0 0 0 int_cpu int_mem = Ret (env1, m1)
  /\ eip env1 = 0xfea5 /\ selector (seg R_CS env1) = 0xf000 /\ eip (gen_iret_real 0 env1 m1) = 0x123.
Proof.
  destruct (x86_interrupt_returns 8 0 0 0 int_cpu int_mem int_cpu_real ltac:(vm_compute; discriminate))
    as (env1 & m1 & E & H1 & H2 & _ & _ & H3).
  exists env1, m1. split; [exact E|]. split; [rewrite H1; vm_compute; reflexivity|].
  split; [rewrite H2; vm_compute; reflexivity|]. destruct (H3 m1 ltac:(done)) as (_ & _ & H4 & _). rewrite H4.
  vm_compute. reflexivity.
Defined.

End X86Int.
