(* ===== verification/X86Seg.v ===== *)
(** * Segments, gates and task switches of target-i386/op_helper.c

    The helpers behind segment loads, far jumps, calls and returns, interrupts
    and task switches in protected mode, for the 32-bit CPU.  A helper reads and
    writes guest memory with supervisor rights and can leave by a page fault or
    by an exception of its own, with whatever it changed before; so helpers live
    in a monad over the CPU and the machine behind it, the class [SysHost].
    SVM intercepts are not modelled. *)

From S2P Require Import Prelude X86Cpu X86Trans X86Alu X86Int.

Module X86Seg.
Import X86 X86Trans X86Alu.
Import X86Int(get_sp_mask, SEG_ADDL, SET_ESP, DESC_B_MASK).
#[local] Existing Instances X86.SegmentCache_eta X86.CPUX86State_eta.

(** ** Constants *)

Definition R_EBP : Z := 5.
Definition R_ESI : Z := 6.
Definition R_EDI : Z := 7.
Definition R_ES : Z := 0.
Definition R_DS : Z := 3.
Definition R_FS : Z := 4.
Definition R_GS : Z := 5.

Definition DESC_G_MASK : Z := 1 << 23.
Definition DESC_B_SHIFT : Z := 22.
Definition DESC_L_MASK : Z := 1 << 21.
Definition DESC_P_MASK : Z := 1 << 15.
Definition DESC_DPL_SHIFT : Z := 13.
Definition DESC_S_MASK : Z := 1 << 12.
Definition DESC_TYPE_SHIFT : Z := 8.
Definition DESC_A_MASK : Z := 1 << 8.
Definition DESC_CS_MASK : Z := 1 << 11.
Definition DESC_C_MASK : Z := 1 << 10.
Definition DESC_R_MASK : Z := 1 << 9.
Definition DESC_W_MASK : Z := 1 << 9.
Definition DESC_TSS_BUSY_MASK : Z := 1 << 9.
Definition IOPL_SHIFT : Z := 12.
Definition VIF_MASK : Z := 0x00080000.
Definition VIP_MASK : Z := 0x00100000.
Definition HF_CPL_MASK : Z := 3.
Definition HF_CS32_SHIFT : Z := 4.
Definition HF_SS32_SHIFT : Z := 5.
Definition HF_ADDSEG_SHIFT : Z := 6.
Definition HF_CS32_MASK : Z := 1 << HF_CS32_SHIFT.
Definition HF_SS32_MASK : Z := 1 << HF_SS32_SHIFT.
Definition HF_ADDSEG_MASK : Z := 1 << HF_ADDSEG_SHIFT.
Definition HF_TS_MASK : Z := 1 << 11.
Definition HF_LMA_MASK : Z := 1 << 14.
Definition HF_CS64_MASK : Z := 1 << 15.
Definition CR0_PE_MASK : Z := 1 << 0.
Definition CR0_TS_MASK : Z := 1 << 3.
Definition CR0_PG_MASK : Z := 1 << 31.
Definition EXCP0A_TSS : Z := 10.
Definition EXCP0B_NOSEG : Z := 11.
Definition EXCP0C_STACK : Z := 12.

Inductive SWITCH_TSS := SWITCH_TSS_JMP | SWITCH_TSS_IRET | SWITCH_TSS_CALL.

#[global] Instance SWITCH_TSS_eq : EqDecision SWITCH_TSS.
Proof. solve_decision. Defined.

(** ** The CPU in its machine *)

(** What a helper ends with: a value, an exception (the CPU loop goes on in the
    state left behind), or the emulator stopped by [cpu_abort]. *)
Inductive outcome (M A : Type) : Type :=
| Done (a : A) (env : CPUX86State) (m : M)
| Raised (env : CPUX86State) (m : M)
| Aborted.
Arguments Done {M A} a env m.
Arguments Raised {M A} env m.
Arguments Aborted {M A}.

Definition cpu (M A : Type) : Type := CPUX86State -> M -> outcome M A.

#[export] Instance cpu_ret M : MRet (cpu M) := fun A a env m => Done a env m.
#[export] Instance cpu_bind M : MBind (cpu M) := fun A B f e env m =>
  match e env m with
  | Done a env m => f a env m
  | Raised env m => Raised env m
  | Aborted => Aborted
  end.

(** An access to guest memory: the value, or the CPU as the page fault leaves it. *)
Inductive access (M A : Type) : Type :=
| Hit (a : A) (m : M)
| Fault (env : CPUX86State) (m : M).
Arguments Hit {M A} a m.
Arguments Fault {M A} env m.

(** The machine: supervisor accesses through the MMU, the TLB and the debugger's
    breakpoints. *)
Class SysHost (M : Type) := {
  mem_ldub : Z -> CPUX86State -> M -> access M Z;
  mem_lduw : Z -> CPUX86State -> M -> access M Z;
  mem_ldl : Z -> CPUX86State -> M -> access M Z;
  mem_stb : Z -> Z -> CPUX86State -> M -> access M unit;
  mem_stw : Z -> Z -> CPUX86State -> M -> access M unit;
  mem_stl : Z -> Z -> CPUX86State -> M -> access M unit;
  tlb_flush : Z -> CPUX86State -> M -> M;
  hw_breakpoint_remove : Z -> CPUX86State -> M -> M
}.

Definition gets {M A} (f : CPUX86State -> A) : cpu M A := fun env m => Done (f env) env m.
Definition modify {M} (f : CPUX86State -> CPUX86State) : cpu M unit := fun env m => Done tt (f env) m.
Definition host {M} (f : CPUX86State -> M -> M) : cpu M unit := fun env m => Done tt env (f env m).
Definition raise_err {M A} (intno err : Z) : cpu M A := fun env m => Raised (raise_exception_err intno err env) m.
Definition cpu_abort {M A} : cpu M A := fun _ _ => Aborted.
(** [if (b) raise_exception_err(intno, err);] *)
Definition raise_if {M} (b : bool) (intno err : Z) : cpu M unit := if b then raise_err intno err else mret tt.
Definition when {M} (b : bool) (e : cpu M unit) : cpu M unit := if b then e else mret tt.

Definition acc {M A} (f : CPUX86State -> M -> access M A) : cpu M A := fun env m =>
  match f env m with
  | Hit a m => Done a env m
  | Fault env m => Raised env m
  end.

(** ** Segment caches *)

Definition cpl_of (env : CPUX86State) : Z := hflags env .& HF_CPL_MASK.
Definition dpl_of (e2 : Z) : Z := (e2 >> DESC_DPL_SHIFT) .& 3.
Definition type_of (e2 : Z) : Z := (e2 >> DESC_TYPE_SHIFT) .& 0xf.

(** The hidden flags after a load. *)
Definition new_hflags (env : CPUX86State) : Z :=
  let f := (flags (seg R_SS env) .& DESC_B_MASK) >> (DESC_B_SHIFT - HF_SS32_SHIFT) in
  if tst (hflags env) HF_CS64_MASK then f
  else if negb (tst (aget (cr env) 0) CR0_PE_MASK) || tst (eflags env) VM_MASK || negb (tst (hflags env) HF_CS32_MASK)
  then f .| HF_ADDSEG_MASK
  else f .| (b2z (truthy (base (seg R_DS env) .| base (seg R_ES env) .| base (seg R_SS env))) << HF_ADDSEG_SHIFT).

Definition cpu_x86_load_seg_cache (seg_reg sel bs lim fl : Z) (env : CPUX86State) : CPUX86State :=
  let env := set_seg seg_reg (mkSeg sel bs lim fl) env in
  let env :=
    if seg_reg =? R_CS then
      let f := (flags (seg R_CS env) .& DESC_B_MASK) >> (DESC_B_SHIFT - HF_CS32_SHIFT) in
      env <| hflags := (hflags env .& ~~ (HF_CS32_MASK .| HF_CS64_MASK)) .| f |>
    else env in
  env <| hflags := (hflags env .& ~~ (HF_SS32_MASK .| HF_ADDSEG_MASK)) .| new_hflags env |>.

Definition cpu_x86_set_cpl (c : Z) (env : CPUX86State) : CPUX86State :=
  env <| hflags := (hflags env .& ~~ HF_CPL_MASK) .| c |>.

Definition get_seg_limit (e1 e2 : Z) : Z :=
  let lim := (e1 .& 0xffff) .| (e2 .& 0x000f0000) in
  if tst e2 DESC_G_MASK then (lim << 12) .| 0xfff else lim.

Definition get_seg_base (e1 e2 : Z) : Z := (e1 >> 16) .| ((e2 .& 0xff) << 16) .| (e2 .& 0xff000000).

Definition load_seg_cache_raw_dt (e1 e2 : Z) (sc : SegmentCache) : SegmentCache :=
  sc <| base := get_seg_base e1 e2 |> <| limit := get_seg_limit e1 e2 |> <| flags := e2 |>.

(** [cpu_x86_load_seg_cache] with a descriptor. *)
Definition load_descriptor (seg_reg sel e1 e2 : Z) : CPUX86State -> CPUX86State :=
  cpu_x86_load_seg_cache seg_reg sel (get_seg_base e1 e2) (get_seg_limit e1 e2) e2.

Definition load_seg_vm (seg_reg sel : Z) : CPUX86State -> CPUX86State :=
  let sel := sel .& 0xffff in
  cpu_x86_load_seg_cache seg_reg sel (u32 (sel << 4)) 0xffff 0.

Definition exeption_has_error_code (intno : Z) : bool :=
  match intno with 8 | 10 | 11 | 12 | 13 | 14 | 17 => true | _ => false end.

Definition hw_breakpoint_enabled (dr7 index : Z) : Z := (dr7 >> (index * 2)) .& 3.

Section Helpers.
Context {M : Type} `{!SysHost M}.
#[local] Abbreviation cpu := (cpu M).

Definition ldub_kernel (a : Z) : cpu Z := acc (mem_ldub a).
Definition lduw_kernel (a : Z) : cpu Z := acc (mem_lduw a).
Definition ldl_kernel (a : Z) : cpu Z := acc (fun env m =>
  match mem_ldl a env m with Hit v m => Hit (u32 v) m | Fault env m => Fault env m end).
Definition stb_kernel (a v : Z) : cpu unit := acc (mem_stb a v).
Definition stw_kernel (a v : Z) : cpu unit := acc (mem_stw a v).
Definition stl_kernel (a v : Z) : cpu unit := acc (mem_stl a v).

(** The stack macros: the new stack pointer, with the value of a pop. *)
Definition PUSHW (ssp sp_mask val sp : Z) : cpu Z :=
  let sp := u32 (sp - 2) in
  stw_kernel (u32 (ssp + (sp .& sp_mask))) val;;
  mret sp.
Definition PUSHL (ssp sp_mask val sp : Z) : cpu Z :=
  let sp := u32 (sp - 4) in
  stl_kernel (SEG_ADDL ssp sp sp_mask) (u32 val);;
  mret sp.
Definition POPW (ssp sp_mask sp : Z) : cpu (Z * Z) :=
  v ← lduw_kernel (u32 (ssp + (sp .& sp_mask)));
  mret (v, u32 (sp + 2)).
Definition POPL (ssp sp_mask sp : Z) : cpu (Z * Z) :=
  v ← ldl_kernel (SEG_ADDL ssp sp sp_mask);
  mret (v, u32 (sp + 4)).

(** A run of pushes of one width, and a pop of either width. *)
Definition PUSH (shift : Z) : Z -> Z -> Z -> Z -> cpu Z := if truthy shift then PUSHL else PUSHW.
Definition POP (shift : Z) : Z -> Z -> Z -> cpu (Z * Z) := if shift =? 1 then POPL else POPW.
Fixpoint push_all (shift ssp sp_mask : Z) (vals : list Z) (sp : Z) : cpu Z :=
  match vals with
  | [] => mret sp
  | v :: vals => sp ← PUSH shift ssp sp_mask v sp; push_all shift ssp sp_mask vals sp
  end.

(** ** Descriptors *)

Definition table_of (sel : Z) (env : CPUX86State) : SegmentCache := if tst sel 0x4 then ldt env else gdt env.

(** The two words of a descriptor of table [dt]; [None] beyond its limit. *)
Definition read_descriptor (dt : SegmentCache) (sel : Z) : cpu (option (Z * Z)) :=
  let index := sel .& ~~ 7 in
  if limit dt <? u32 (index + 7) then mret None
  else
    let ptr := u32 (base dt + index) in
    e1 ← ldl_kernel ptr;
    e2 ← ldl_kernel (u32 (ptr + 4));
    mret (Some (e1, e2)).

Definition load_segment (sel : Z) : cpu (option (Z * Z)) :=
  dt ← gets (table_of sel);
  read_descriptor dt sel.

(** [if (load_segment(&e1, &e2, selector) != 0) raise_exception_err(intno, err);] *)
Definition or_raise {A} (intno err : Z) (e : cpu (option A)) : cpu A :=
  o ← e;
  match o with Some a => mret a | None => raise_err intno err end.
Definition load_segment_or (intno sel : Z) : cpu (Z * Z) := or_raise intno (sel .& 0xfffc) (load_segment sel).

Definition get_ss_esp_from_tss (dpl : Z) : cpu (Z * Z) :=
  t ← gets tr;
  if negb (tst (flags t) DESC_P_MASK) then cpu_abort
  else
    let type := type_of (flags t) in
    if negb (type .& 7 =? 1) then cpu_abort
    else
      let shift := type >> 3 in
      let index := (dpl * 4 + 2) << shift in
      raise_if (limit t <? index + (4 << shift) - 1) EXCP0A_TSS (selector t .& 0xfffc);;
      if shift =? 0 then
        esp ← lduw_kernel (u32 (base t + index));
        ss ← lduw_kernel (u32 (base t + index + 2));
        mret (ss, esp)
      else
        esp ← ldl_kernel (u32 (base t + index));
        ss ← lduw_kernel (u32 (base t + index + 4));
        mret (ss, esp).

(** ** Task switches *)

Definition tss_load_seg (seg_reg sel : Z) : cpu unit :=
  let err := sel .& 0xfffc in
  if truthy err then
    '(e1, e2) ← load_segment_or EXCP0A_TSS sel;
    raise_if (negb (tst e2 DESC_S_MASK)) EXCP0A_TSS err;;
    let rpl := sel .& 3 in
    let dpl := dpl_of e2 in
    cpl ← gets cpl_of;
    (if seg_reg =? R_CS then
       raise_if (negb (tst e2 DESC_CS_MASK)) EXCP0A_TSS err;;
       raise_if (negb (dpl =? rpl)) EXCP0A_TSS err;;
       raise_if (tst e2 DESC_C_MASK && (rpl <? dpl)) EXCP0A_TSS err
     else if seg_reg =? R_SS then
       raise_if (tst e2 DESC_CS_MASK || negb (tst e2 DESC_W_MASK)) EXCP0A_TSS err;;
       raise_if (negb (dpl =? cpl) || negb (dpl =? rpl)) EXCP0A_TSS err
     else
       raise_if (tst e2 DESC_CS_MASK && negb (tst e2 DESC_R_MASK)) EXCP0A_TSS err;;
       raise_if ((type_of e2 <? 12) && ((dpl <? cpl) || (dpl <? rpl))) EXCP0A_TSS err);;
    raise_if (negb (tst e2 DESC_P_MASK)) EXCP0B_NOSEG err;;
    modify (load_descriptor seg_reg sel e1 e2)
  else raise_if ((seg_reg =? R_SS) || (seg_reg =? R_CS)) EXCP0A_TSS err.

Fixpoint in_order (es : list (cpu unit)) : cpu unit :=
  match es with [] => mret tt | e :: es => e;; in_order es end.

Definition cpu_x86_update_cr3 (new_cr3 : Z) : cpu unit :=
  modify (fun env => env <| cr := aset (cr env) 3 new_cr3 |>);;
  pg ← gets (fun env => tst (aget (cr env) 0) CR0_PG_MASK);
  when pg (host (tlb_flush 0)).

(** What a TSS holds. *)
Record task := mkTask {
  t_cr3 : Z;
  t_eip : Z;
  t_eflags : Z;
  t_regs : list Z;
  t_segs : list Z;
  t_ldt : Z
}.

Definition gate_of_task (tss_selector e1 e2 : Z) : cpu (Z * Z * Z) :=
  let type := type_of e2 in
  if type =? 5 then
    raise_if (negb (tst e2 DESC_P_MASK)) EXCP0B_NOSEG (tss_selector .& 0xfffc);;
    let tss_selector := e1 >> 16 in
    raise_if (tst tss_selector 4) EXCP0A_TSS (tss_selector .& 0xfffc);;
    '(e1, e2) ← load_segment_or EXCP0D_GPF tss_selector;
    raise_if (tst e2 DESC_S_MASK) EXCP0D_GPF (tss_selector .& 0xfffc);;
    raise_if (negb (type_of e2 .& 7 =? 1)) EXCP0D_GPF (tss_selector .& 0xfffc);;
    mret (tss_selector, e1, e2)
  else mret (tss_selector, e1, e2).

Definition tss_limit_max (type : Z) : Z := if tst type 8 then 103 else 43.

(** All of the new task's state, from the TSS at [b]. *)
Definition read_task (type b : Z) : cpu task :=
  if tst type 8 then
    cr3 ← ldl_kernel (u32 (b + 0x1c));
    ip ← ldl_kernel (u32 (b + 0x20));
    fl ← ldl_kernel (u32 (b + 0x24));
    rs ← mapM (fun i => ldl_kernel (u32 (b + (0x28 + i * 4)))) [0; 1; 2; 3; 4; 5; 6; 7];
    ss ← mapM (fun i => lduw_kernel (u32 (b + (0x48 + i * 4)))) [0; 1; 2; 3; 4; 5];
    ldt_sel ← lduw_kernel (u32 (b + 0x60));
    ldl_kernel (u32 (b + 0x64));;
    mret (mkTask cr3 ip fl rs ss ldt_sel)
  else
    ip ← lduw_kernel (u32 (b + 0x0e));
    fl ← lduw_kernel (u32 (b + 0x10));
    rs ← mapM (fun i => v ← lduw_kernel (u32 (b + (0x12 + i * 2))); mret (v .| 0xffff0000)) [0; 1; 2; 3; 4; 5; 6; 7];
    ss ← mapM (fun i => lduw_kernel (u32 (b + (0x22 + i * 4)))) [0; 1; 2; 3];
    ldt_sel ← lduw_kernel (u32 (b + 0x2a));
    mret (mkTask 0 ip fl rs (ss ++ [0; 0]) ldt_sel).

(** The busy bit of the TSS descriptor [sel] of the GDT. *)
Definition change_busy (sel : Z) (f : Z -> Z) : cpu unit :=
  b ← gets (fun env => base (gdt env));
  let ptr := u32 (b + (sel .& ~~ 7)) in
  e2 ← ldl_kernel (u32 (ptr + 4));
  stl_kernel (u32 (ptr + 4)) (f e2).

(** The outgoing state into the TSS the task register names; [type] is the type
    of the incoming TSS. *)
Definition save_task (type next_eip old_eflags : Z) : cpu unit :=
  env ← gets id;
  let b := base (tr env) in
  if tst type 8 then
    stl_kernel (u32 (b + 0x20)) next_eip;;
    stl_kernel (u32 (b + 0x24)) old_eflags;;
    in_order (map (fun i => stl_kernel (u32 (b + (0x28 + i * 4))) (reg i env)) [R_EAX; R_ECX; R_EDX; R_EBX; R_ESP; R_EBP; R_ESI; R_EDI]);;
    in_order (map (fun i => stw_kernel (u32 (b + (0x48 + i * 4))) (selector (seg i env))) [0; 1; 2; 3; 4; 5])
  else
    stw_kernel (u32 (b + 0x0e)) next_eip;;
    stw_kernel (u32 (b + 0x10)) old_eflags;;
    in_order (map (fun i => stw_kernel (u32 (b + (0x12 + i * 2))) (reg i env)) [R_EAX; R_ECX; R_EDX; R_EBX; R_ESP; R_EBP; R_ESI; R_EDI]);;
    in_order (map (fun i => stw_kernel (u32 (b + (0x22 + i * 4))) (selector (seg i env))) [0; 1; 2; 3]).

Definition all_segs (f : Z -> CPUX86State -> CPUX86State) (env : CPUX86State) : CPUX86State :=
  fold_left (fun env i => f i env) [0; 1; 2; 3; 4; 5] env.

(** The registers of the new task, before any of its segments is checked. *)
Definition load_task_regs (t : task) (env : CPUX86State) : CPUX86State :=
  fold_left (fun env i => set_reg i (aget (t_regs t) i) env) [R_EAX; R_ECX; R_EDX; R_EBX; R_ESP; R_EBP; R_ESI; R_EDI] env.

Definition load_task_selectors (t : task) (env : CPUX86State) : CPUX86State :=
  if tst (t_eflags t) VM_MASK then cpu_x86_set_cpl 3 (all_segs (fun i => load_seg_vm i (aget (t_segs t) i)) env)
  else all_segs (fun i => cpu_x86_load_seg_cache i (aget (t_segs t) i) 0 0 0)
         (cpu_x86_set_cpl (aget (t_segs t) R_CS .& 3) env).

Definition task_eflags_mask (type : Z) : Z :=
  let mask := TF_MASK .| AC_MASK .| ID_MASK .| IF_MASK .| IOPL_MASK .| VM_MASK .| RF_MASK .| NT_MASK in
  if tst type 8 then mask else mask .& 0xffff.

Definition enter_task (type : Z) (t : task) (env : CPUX86State) : CPUX86State :=
  let env := env <| eip := t_eip t |> in
  let env := load_eflags (s32 (t_eflags t)) (task_eflags_mask type) env in
  let env := load_task_regs t env in
  let env := load_task_selectors t env in
  env <| ldt := mkSeg (t_ldt t .& ~~ 4) 0 0 0 |>.

Definition load_task_ldt (new_ldt : Z) : cpu unit :=
  let err := new_ldt .& 0xfffc in
  raise_if (tst new_ldt 4) EXCP0A_TSS err;;
  when (truthy err)
    (dt ← gets gdt;
     '(e1, e2) ← or_raise EXCP0A_TSS err (read_descriptor dt new_ldt);
     raise_if (tst e2 DESC_S_MASK || negb (type_of e2 =? 2)) EXCP0A_TSS err;;
     raise_if (negb (tst e2 DESC_P_MASK)) EXCP0A_TSS err;;
     modify (fun env => env <| ldt := load_seg_cache_raw_dt e1 e2 (ldt env) |>)).

Definition reset_local_breakpoints : cpu unit :=
  dr7 ← gets (fun env => aget (dr env) 7);
  when (tst dr7 0x55)
    (in_order (map (fun i => when (hw_breakpoint_enabled dr7 i =? 1) (host (hw_breakpoint_remove i))) [0; 1; 2; 3]);;
     modify (fun env => env <| dr := aset (dr env) 7 (dr7 .& ~~ 0x55) |>)).

Definition switch_tss (tss_selector e1 e2 : Z) (source : SWITCH_TSS) (next_eip : Z) : cpu unit :=
  '(tss_selector, e1, e2) ← gate_of_task tss_selector e1 e2;
  let type := type_of e2 in
  raise_if (negb (tst e2 DESC_P_MASK)) EXCP0B_NOSEG (tss_selector .& 0xfffc);;
  let tss_limit := s32 (get_seg_limit e1 e2) in
  let tss_base := get_seg_base e1 e2 in
  raise_if (tst tss_selector 4 || (tss_limit <? tss_limit_max type)) EXCP0A_TSS (tss_selector .& 0xfffc);;
  old ← gets tr;
  let old_tss_limit_max := tss_limit_max (type_of (flags old)) in
  t ← read_task type tss_base;
  (* memory exceptions must come before the switch *)
  v1 ← ldub_kernel (base old);
  v2 ← ldub_kernel (u32 (base old + old_tss_limit_max));
  stb_kernel (base old) v1;;
  stb_kernel (u32 (base old + old_tss_limit_max)) v2;;
  when (bool_decide (source <> SWITCH_TSS_CALL)) (change_busy (selector old) (fun e2 => e2 .& ~~ DESC_TSS_BUSY_MASK));;
  fl ← gets compute_eflags;
  let old_eflags := if bool_decide (source = SWITCH_TSS_IRET) then fl .& ~~ NT_MASK else fl in
  save_task type next_eip old_eflags;;
  (* from here on, an exception is in the new task *)
  when (bool_decide (source = SWITCH_TSS_CALL)) (stw_kernel tss_base (selector old));;
  let t := if bool_decide (source = SWITCH_TSS_CALL) then mkTask (t_cr3 t) (t_eip t) (t_eflags t .| NT_MASK) (t_regs t) (t_segs t) (t_ldt t) else t in
  when (bool_decide (source <> SWITCH_TSS_IRET)) (change_busy tss_selector (fun e2 => e2 .| DESC_TSS_BUSY_MASK));;
  modify (fun env => env <| cr := aset (cr env) 0 (aget (cr env) 0 .| CR0_TS_MASK) |> <| hflags := hflags env .| HF_TS_MASK |>
    <| tr := mkSeg tss_selector tss_base (u32 tss_limit) (e2 .& ~~ DESC_TSS_BUSY_MASK) |>);;
  pg ← gets (fun env => tst (aget (cr env) 0) CR0_PG_MASK);
  when (tst type 8 && pg) (cpu_x86_update_cr3 (t_cr3 t));;
  modify (enter_task type t);;
  load_task_ldt (t_ldt t);;
  when (negb (tst (t_eflags t) VM_MASK))
    (in_order (map (fun i => tss_load_seg i (aget (t_segs t) i)) [R_CS; R_SS; R_ES; R_DS; R_FS; R_GS]));;
  lim ← gets (fun env => limit (seg R_CS env));
  raise_if (lim <? t_eip t) EXCP0D_GPF 0;;
  reset_local_breakpoints.

(** ** I/O permission *)

Definition check_io (addr size : Z) : cpu unit :=
  t ← gets tr;
  let fail := raise_err EXCP0D_GPF 0 in
  if negb (tst (flags t) DESC_P_MASK) || negb (type_of (flags t) =? 9) || (limit t <? 103) then fail
  else
    off ← lduw_kernel (u32 (base t + 0x66));
    let io_offset := off + (addr >> 3) in
    if limit t <? u32 (io_offset + 1) then fail
    else
      val ← lduw_kernel (u32 (base t + io_offset));
      let val := val >> (addr .& 7) in
      let mask := (1 << size) - 1 in
      if truthy (val .& mask) then fail else mret tt.

Definition helper_check_iob (t0 : Z) : cpu unit := check_io (s32 t0) 1.
Definition helper_check_iow (t0 : Z) : cpu unit := check_io (s32 t0) 2.
Definition helper_check_iol (t0 : Z) : cpu unit := check_io (s32 t0) 4.

(** ** Interrupts *)

(** The stack of privilege level [dpl], from the task's TSS: the selector, its
    descriptor and the stack pointer. *)
Definition inner_stack (dpl : Z) : cpu (Z * Z * Z * Z) :=
  '(ss, esp) ← get_ss_esp_from_tss dpl;
  let err := ss .& 0xfffc in
  raise_if (err =? 0) EXCP0A_TSS err;;
  raise_if (negb (ss .& 3 =? dpl)) EXCP0A_TSS err;;
  '(ss_e1, ss_e2) ← load_segment_or EXCP0A_TSS ss;
  raise_if (negb (dpl_of ss_e2 =? dpl)) EXCP0A_TSS err;;
  raise_if (negb (tst ss_e2 DESC_S_MASK) || tst ss_e2 DESC_CS_MASK || negb (tst ss_e2 DESC_W_MASK)) EXCP0A_TSS err;;
  raise_if (negb (tst ss_e2 DESC_P_MASK)) EXCP0A_TSS err;;
  mret (ss, ss_e1, ss_e2, esp).

(** Where the frame of a gate goes. *)
Record frame := mkFrame {
  f_inner : option (Z * Z * Z);   (* SS and its descriptor, on a switch of stacks *)
  f_dpl : Z;                      (* the new privilege level *)
  f_ssp : Z;
  f_mask : Z;
  f_esp : Z
}.

Definition inner_frame (dpl : Z) : cpu frame :=
  '(ss, ss_e1, ss_e2, esp) ← inner_stack dpl;
  mret (mkFrame (Some (ss, ss_e1, ss_e2)) dpl (get_seg_base ss_e1 ss_e2) (get_sp_mask ss_e2) esp).
Definition same_frame (dpl : Z) (env : CPUX86State) : frame :=
  mkFrame None dpl (base (seg R_SS env)) (get_sp_mask (flags (seg R_SS env))) (reg R_ESP env).

Definition load_inner_ss (f : frame) (env : CPUX86State) : CPUX86State :=
  match f_inner f with
  | Some (ss, ss_e1, ss_e2) => cpu_x86_load_seg_cache R_SS ((ss .& ~~ 3) .| f_dpl f) (f_ssp f) (get_seg_limit ss_e1 ss_e2) ss_e2 env
  | None => env
  end.

Definition interrupt_frame_values (f : frame) (old_eip : Z) (err : option Z) (env : CPUX86State) : list Z :=
  let sel r := selector (seg r env) in
  (if f_inner f is Some _ then (if tst (eflags env) VM_MASK then [sel R_GS; sel R_FS; sel R_DS; sel R_ES] else []) ++ [sel R_SS; reg R_ESP env] else [])
  ++ [compute_eflags env; sel R_CS; old_eip] ++ (match err with Some c => [c] | None => [] end).

(** The processor state at the handler's first instruction. *)
Definition enter_handler (type sel offset e1 e2 esp : Z) (f : frame) (env : CPUX86State) : CPUX86State :=
  let env :=
    if f_inner f is Some _ then
      let env :=
        if tst (eflags env) VM_MASK
        then fold_left (fun env r => cpu_x86_load_seg_cache r 0 0 0 0 env) [R_ES; R_DS; R_FS; R_GS] env
        else env in
      load_inner_ss f env
    else env in
  let env := SET_ESP esp (f_mask f) env in
  let env := load_descriptor R_CS ((sel .& ~~ 3) .| f_dpl f) e1 e2 env in
  let env := cpu_x86_set_cpl (f_dpl f) env in
  let env := env <| eip := offset |> in
  let env := if type .& 1 =? 0 then env <| eflags := eflags env .& ~~ IF_MASK |> else env in
  env <| eflags := eflags env .& ~~ (TF_MASK .| VM_MASK .| RF_MASK .| NT_MASK) |>.

Definition interrupt_through_gate (type gate_e1 gate_e2 intno is_int : Z) (err : option Z) (old_eip : Z) : cpu unit :=
  cpl ← gets cpl_of;
  raise_if (truthy is_int && (dpl_of gate_e2 <? cpl)) EXCP0D_GPF (intno * 8 + 2);;
  raise_if (negb (tst gate_e2 DESC_P_MASK)) EXCP0B_NOSEG (intno * 8 + 2);;
  let sel := gate_e1 >> 16 in
  let offset := (gate_e2 .& 0xffff0000) .| (gate_e1 .& 0x0000ffff) in
  raise_if (sel .& 0xfffc =? 0) EXCP0D_GPF 0;;
  '(e1, e2) ← load_segment_or EXCP0D_GPF sel;
  raise_if (negb (tst e2 DESC_S_MASK) || negb (tst e2 DESC_CS_MASK)) EXCP0D_GPF (sel .& 0xfffc);;
  let dpl := dpl_of e2 in
  raise_if (cpl <? dpl) EXCP0D_GPF (sel .& 0xfffc);;
  raise_if (negb (tst e2 DESC_P_MASK)) EXCP0B_NOSEG (sel .& 0xfffc);;
  f ← (if negb (tst e2 DESC_C_MASK) && (dpl <? cpl) then inner_frame dpl
       else if tst e2 DESC_C_MASK || (dpl =? cpl) then
         vm ← gets (fun env => tst (eflags env) VM_MASK);
         raise_if vm EXCP0D_GPF (sel .& 0xfffc);;
         gets (same_frame cpl)
       else raise_err EXCP0D_GPF (sel .& 0xfffc));
  vals ← gets (interrupt_frame_values f old_eip err);
  esp ← push_all (type >> 3) (f_ssp f) (f_mask f) vals (f_esp f);
  modify (enter_handler type sel offset e1 e2 esp f).

Definition push_task_error_code (error_code : Z) : cpu unit :=
  env ← gets id;
  let shift := type_of (flags (tr env)) >> 3 in
  let mask := get_sp_mask (flags (seg R_SS env)) in
  let esp := u32 (reg R_ESP env - (2 << shift)) .& mask in
  let ssp := u32 (base (seg R_SS env) + esp) in
  (if truthy shift then stl_kernel ssp error_code else stw_kernel ssp error_code);;
  modify (SET_ESP esp mask).

Definition do_interrupt_protected (intno is_int error_code next_eip is_hw : Z) : cpu unit :=
  let has_error_code := negb (truthy is_int) && negb (truthy is_hw) && exeption_has_error_code intno in
  old_eip ← gets (fun env => if truthy is_int then next_eip else eip env);
  dt ← gets idt;
  raise_if (limit dt <? u32 (intno * 8 + 7)) EXCP0D_GPF (intno * 8 + 2);;
  let ptr := u32 (base dt + intno * 8) in
  e1 ← ldl_kernel ptr;
  e2 ← ldl_kernel (u32 (ptr + 4));
  let type := (e2 >> DESC_TYPE_SHIFT) .& 0x1f in
  match type with
  | 5 =>
      raise_if (negb (tst e2 DESC_P_MASK)) EXCP0B_NOSEG (intno * 8 + 2);;
      switch_tss (intno * 8) e1 e2 SWITCH_TSS_CALL old_eip;;
      when has_error_code (push_task_error_code error_code)
  | 6 | 7 | 14 | 15 =>
      interrupt_through_gate type e1 e2 intno is_int (if has_error_code then Some error_code else None) old_eip
  | _ => raise_err EXCP0D_GPF (intno * 8 + 2)
  end.

Definition do_interrupt_real (intno is_int error_code next_eip : Z) : cpu unit :=
  dt ← gets idt;
  raise_if (limit dt <? u32 (intno * 4 + 3)) EXCP0D_GPF (intno * 8 + 2);;
  let ptr := u32 (base dt + intno * 4) in
  offset ← lduw_kernel ptr;
  sel ← lduw_kernel (u32 (ptr + 2));
  env ← gets id;
  let ssp := base (seg R_SS env) in
  let old_eip := if truthy is_int then next_eip else eip env in
  esp ← push_all 0 ssp 0xffff [compute_eflags env; selector (seg R_CS env); old_eip] (reg R_ESP env);
  modify (fun env =>
    let env := SET_ESP esp 0xffff env in
    let env := env <| eip := offset |> in
    let env := X86Int.set_cs_real sel env in
    env <| eflags := eflags env .& ~~ (IF_MASK .| TF_MASK .| AC_MASK .| RF_MASK) |>).

Definition do_interrupt_all (intno is_int error_code next_eip is_hw : Z) : cpu unit :=
  pe ← gets (fun env => tst (aget (cr env) 0) CR0_PE_MASK);
  if (pe : bool) then do_interrupt_protected intno is_int error_code next_eip is_hw
  else do_interrupt_real intno is_int error_code next_eip.

Definition do_interrupt : cpu unit :=
  env ← gets id;
  do_interrupt_all (exception_index env) (exception_is_int env) (error_code env) (exception_next_eip env) 0;;
  modify (fun env => env <| old_exception := -1 |>).

Definition do_interrupt_x86_hardirq (intno is_hw : Z) : cpu unit := do_interrupt_all intno 0 0 0 is_hw.

(** ** Loads of selectors *)

(** The checks of LLDT and LTR: a present system descriptor of the GDT. *)
Definition system_descriptor (sel : Z) (good : Z -> bool) : cpu (Z * Z) :=
  let err := sel .& 0xfffc in
  raise_if (tst sel 0x4) EXCP0D_GPF err;;
  dt ← gets gdt;
  '(e1, e2) ← or_raise EXCP0D_GPF err (read_descriptor dt sel);
  raise_if (tst e2 DESC_S_MASK || negb (good (type_of e2))) EXCP0D_GPF err;;
  raise_if (negb (tst e2 DESC_P_MASK)) EXCP0B_NOSEG err;;
  mret (e1, e2).

Definition helper_lldt (sel : Z) : cpu unit :=
  let sel := sel .& 0xffff in
  (if sel .& 0xfffc =? 0 then modify (fun env => env <| ldt := (ldt env) <| base := 0 |> <| limit := 0 |> |>)
   else
     '(e1, e2) ← system_descriptor sel (fun t => t =? 2);
     modify (fun env => env <| ldt := load_seg_cache_raw_dt e1 e2 (ldt env) |>));;
  modify (fun env => env <| ldt := (ldt env) <| selector := sel |> |>).

Definition helper_ltr (sel : Z) : cpu unit :=
  let sel := sel .& 0xffff in
  (if sel .& 0xfffc =? 0 then modify (fun env => env <| tr := (tr env) <| base := 0 |> <| limit := 0 |> <| flags := 0 |> |>)
   else
     '(e1, e2) ← system_descriptor sel (fun t => (t =? 1) || (t =? 9));
     modify (fun env => env <| tr := load_seg_cache_raw_dt e1 e2 (tr env) |>);;
     b ← gets (fun env => base (gdt env));
     stl_kernel (u32 (u32 (b + (sel .& ~~ 7)) + 4)) (e2 .| DESC_TSS_BUSY_MASK));;
  modify (fun env => env <| tr := (tr env) <| selector := sel |> |>).

Definition helper_load_seg (seg_reg sel : Z) : cpu unit :=
  let sel := sel .& 0xffff in
  let err := sel .& 0xfffc in
  cpl ← gets cpl_of;
  if err =? 0 then
    raise_if (seg_reg =? R_SS) EXCP0D_GPF 0;;
    modify (cpu_x86_load_seg_cache seg_reg sel 0 0 0)
  else
    dt ← gets (table_of sel);
    '(e1, e2) ← or_raise EXCP0D_GPF err (read_descriptor dt sel);
    raise_if (negb (tst e2 DESC_S_MASK)) EXCP0D_GPF err;;
    let rpl := sel .& 3 in
    let dpl := dpl_of e2 in
    (if seg_reg =? R_SS then
       raise_if (tst e2 DESC_CS_MASK || negb (tst e2 DESC_W_MASK)) EXCP0D_GPF err;;
       raise_if (negb (rpl =? cpl) || negb (dpl =? cpl)) EXCP0D_GPF err
     else
       raise_if (e2 .& (DESC_CS_MASK .| DESC_R_MASK) =? DESC_CS_MASK) EXCP0D_GPF err;;
       raise_if ((negb (tst e2 DESC_CS_MASK) || negb (tst e2 DESC_C_MASK)) && ((dpl <? cpl) || (dpl <? rpl))) EXCP0D_GPF err);;
    raise_if (negb (tst e2 DESC_P_MASK)) (if seg_reg =? R_SS then EXCP0C_STACK else EXCP0B_NOSEG) err;;
    let accessed := tst e2 DESC_A_MASK in
    let e2 := if accessed then e2 else e2 .| DESC_A_MASK in
    when (negb accessed) (stl_kernel (u32 (u32 (base dt + (sel .& ~~ 7)) + 4)) e2);;
    modify (load_descriptor seg_reg sel e1 e2).

(** ** Far jumps and calls *)

(** The checks on a code segment that a far jump or call names directly. *)
Definition direct_code_check (new_cs e2 cpl : Z) : cpu unit :=
  let err := new_cs .& 0xfffc in
  raise_if (negb (tst e2 DESC_CS_MASK)) EXCP0D_GPF err;;
  let dpl := dpl_of e2 in
  (if tst e2 DESC_C_MASK then raise_if (cpl <? dpl) EXCP0D_GPF err
   else
     raise_if (cpl <? new_cs .& 3) EXCP0D_GPF err;;
     raise_if (negb (dpl =? cpl)) EXCP0D_GPF err);;
  raise_if (negb (tst e2 DESC_P_MASK)) EXCP0B_NOSEG err.

Definition jump_through_gate (type new_cs e1 e2 cpl : Z) : cpu unit :=
  let err := new_cs .& 0xfffc in
  raise_if ((dpl_of e2 <? cpl) || (dpl_of e2 <? new_cs .& 3)) EXCP0D_GPF err;;
  raise_if (negb (tst e2 DESC_P_MASK)) EXCP0B_NOSEG err;;
  let gate_cs := e1 >> 16 in
  let new_eip := e1 .& 0xffff in
  let new_eip := if type =? 12 then new_eip .| (e2 .& 0xffff0000) else new_eip in
  let err := gate_cs .& 0xfffc in
  '(e1, e2) ← load_segment_or EXCP0D_GPF gate_cs;
  let dpl := dpl_of e2 in
  raise_if (negb (e2 .& (DESC_S_MASK .| DESC_CS_MASK) =? DESC_S_MASK .| DESC_CS_MASK)) EXCP0D_GPF err;;
  raise_if ((tst e2 DESC_C_MASK && (cpl <? dpl)) || (negb (tst e2 DESC_C_MASK) && negb (dpl =? cpl))) EXCP0D_GPF err;;
  raise_if (negb (tst e2 DESC_P_MASK)) EXCP0D_GPF err;;
  raise_if (get_seg_limit e1 e2 <? new_eip) EXCP0D_GPF 0;;
  modify (fun env => (load_descriptor R_CS (err .| cpl) e1 e2 env) <| eip := new_eip |>).

Definition helper_ljmp_protected (new_cs new_eip next_eip_addend : Z) : cpu unit :=
  let err := new_cs .& 0xfffc in
  raise_if (err =? 0) EXCP0D_GPF 0;;
  '(e1, e2) ← load_segment_or EXCP0D_GPF new_cs;
  cpl ← gets cpl_of;
  if tst e2 DESC_S_MASK then
    direct_code_check new_cs e2 cpl;;
    lma ← gets (fun env => tst (hflags env) HF_LMA_MASK);
    raise_if ((get_seg_limit e1 e2 <? new_eip) && negb lma && negb (tst e2 DESC_L_MASK)) EXCP0D_GPF err;;
    modify (fun env => (load_descriptor R_CS (err .| cpl) e1 e2 env) <| eip := new_eip |>)
  else
    let dpl := dpl_of e2 in
    match type_of e2 with
    | 1 | 9 | 5 =>
        raise_if ((dpl <? cpl) || (dpl <? new_cs .& 3)) EXCP0D_GPF err;;
        next_eip ← gets (fun env => u32 (eip env + next_eip_addend));
        switch_tss new_cs e1 e2 SWITCH_TSS_JMP next_eip;;
        modify (fun env => env <| cc_op := CC_OP_EFLAGS |>)
    | 4 => jump_through_gate 4 new_cs e1 e2 cpl
    | 12 => jump_through_gate 12 new_cs e1 e2 cpl
    | _ => raise_err EXCP0D_GPF err
    end.

Definition helper_lcall_real (new_cs new_eip1 shift next_eip : Z) : cpu unit :=
  env ← gets id;
  let esp_mask := get_sp_mask (flags (seg R_SS env)) in
  esp ← push_all shift (base (seg R_SS env)) esp_mask [selector (seg R_CS env); next_eip] (reg R_ESP env);
  modify (fun env => X86Int.set_cs_real new_cs ((SET_ESP esp esp_mask env) <| eip := u32 (s32 new_eip1) |>)).

(** The parameters of a call gate, copied from the caller's stack, the last one
    first; [i] counts down from [n]. *)
Fixpoint copy_params (n : nat) (shift old_ssp old_sp_mask old_esp ssp sp_mask sp : Z) : cpu Z :=
  match n with
  | O => mret sp
  | S i =>
      v ← (if truthy shift then ldl_kernel (u32 (old_ssp + (u32 (old_esp + Z.of_nat i * 4) .& old_sp_mask)))
           else lduw_kernel (u32 (old_ssp + (u32 (old_esp + Z.of_nat i * 2) .& old_sp_mask))));
      sp ← PUSH shift ssp sp_mask v sp;
      copy_params i shift old_ssp old_sp_mask old_esp ssp sp_mask sp
  end.

Definition call_through_gate (type new_cs gate_e1 gate_e2 cpl next_eip : Z) : cpu unit :=
  let shift := type >> 3 in
  let err := new_cs .& 0xfffc in
  raise_if ((dpl_of gate_e2 <? cpl) || (dpl_of gate_e2 <? new_cs .& 3)) EXCP0D_GPF err;;
  raise_if (negb (tst gate_e2 DESC_P_MASK)) EXCP0B_NOSEG err;;
  let sel := gate_e1 >> 16 in
  let offset := (gate_e2 .& 0xffff0000) .| (gate_e1 .& 0x0000ffff) in
  let param_count := gate_e2 .& 0x1f in
  raise_if (sel .& 0xfffc =? 0) EXCP0D_GPF 0;;
  '(e1, e2) ← load_segment_or EXCP0D_GPF sel;
  raise_if (negb (tst e2 DESC_S_MASK) || negb (tst e2 DESC_CS_MASK)) EXCP0D_GPF (sel .& 0xfffc);;
  let dpl := dpl_of e2 in
  raise_if (cpl <? dpl) EXCP0D_GPF (sel .& 0xfffc);;
  raise_if (negb (tst e2 DESC_P_MASK)) EXCP0B_NOSEG (sel .& 0xfffc);;
  env ← gets id;
  '(f, sp) ← (if negb (tst e2 DESC_C_MASK) && (dpl <? cpl) then
       f ← inner_frame dpl;
       sp ← push_all shift (f_ssp f) (f_mask f) [selector (seg R_SS env); reg R_ESP env] (f_esp f);
       sp ← copy_params (Z.to_nat param_count) shift (base (seg R_SS env)) (get_sp_mask (flags (seg R_SS env))) (reg R_ESP env) (f_ssp f) (f_mask f) sp;
       mret (f, sp)
     else mret (same_frame dpl env, reg R_ESP env));
  sp ← push_all shift (f_ssp f) (f_mask f) [selector (seg R_CS env); next_eip] sp;
  modify (fun env =>
    let env := load_inner_ss f env in
    let env := load_descriptor R_CS ((sel .& ~~ 3) .| dpl) e1 e2 env in
    let env := cpu_x86_set_cpl dpl env in
    (SET_ESP sp (f_mask f) env) <| eip := offset |>).

Definition helper_lcall_protected (new_cs new_eip shift next_eip_addend : Z) : cpu unit :=
  let err := new_cs .& 0xfffc in
  next_eip ← gets (fun env => u32 (eip env + next_eip_addend));
  raise_if (err =? 0) EXCP0D_GPF 0;;
  '(e1, e2) ← load_segment_or EXCP0D_GPF new_cs;
  cpl ← gets cpl_of;
  if tst e2 DESC_S_MASK then
    direct_code_check new_cs e2 cpl;;
    env ← gets id;
    let sp_mask := get_sp_mask (flags (seg R_SS env)) in
    sp ← push_all shift (base (seg R_SS env)) sp_mask [selector (seg R_CS env); next_eip] (reg R_ESP env);
    raise_if (get_seg_limit e1 e2 <? new_eip) EXCP0D_GPF err;;
    modify (fun env => (load_descriptor R_CS (err .| cpl) e1 e2 (SET_ESP sp sp_mask env)) <| eip := new_eip |>)
  else
    let dpl := dpl_of e2 in
    match (e2 >> DESC_TYPE_SHIFT) .& 0x1f with
    | 1 | 9 | 5 =>
        raise_if ((dpl <? cpl) || (dpl <? new_cs .& 3)) EXCP0D_GPF err;;
        switch_tss new_cs e1 e2 SWITCH_TSS_CALL next_eip;;
        modify (fun env => env <| cc_op := CC_OP_EFLAGS |>)
    | 4 => call_through_gate 4 new_cs e1 e2 cpl next_eip
    | 12 => call_through_gate 12 new_cs e1 e2 cpl next_eip
    | _ => raise_err EXCP0D_GPF err
    end.

(** ** Returns *)

Definition helper_iret_real (shift : Z) : cpu unit :=
  env ← gets id;
  let sp_mask := 0xffff in
  let ssp := base (seg R_SS env) in
  '(new_eip, sp) ← POP shift ssp sp_mask (reg R_ESP env);
  '(new_cs, sp) ← POP shift ssp sp_mask sp;
  let new_cs := if shift =? 1 then new_cs .& 0xffff else new_cs in
  '(new_eflags, sp) ← POP shift ssp sp_mask sp;
  modify (fun env =>
    let env := SET_ESP sp sp_mask env in
    let env := X86Int.set_cs_real new_cs env in
    let env := env <| eip := new_eip |> in
    let mask :=
      if tst (eflags env) VM_MASK
      then TF_MASK .| AC_MASK .| ID_MASK .| IF_MASK .| RF_MASK .| NT_MASK
      else TF_MASK .| AC_MASK .| ID_MASK .| IF_MASK .| IOPL_MASK .| RF_MASK .| NT_MASK in
    let mask := if shift =? 0 then mask .& 0xffff else mask in
    let env := load_eflags (s32 new_eflags) mask env in
    env <| hflags2 := hflags2 env .& ~~ HF2_NMI_MASK |>).

Definition validate_seg (seg_reg cpl : Z) (env : CPUX86State) : CPUX86State :=
  if ((seg_reg =? R_FS) || (seg_reg =? R_GS)) && (selector (seg seg_reg env) .& 0xfffc =? 0) then env
  else
    let e2 := flags (seg seg_reg env) in
    if (negb (tst e2 DESC_CS_MASK) || negb (tst e2 DESC_C_MASK)) && (dpl_of e2 <? cpl)
    then cpu_x86_load_seg_cache seg_reg 0 0 0 0 env
    else env.

(** The flags an IRET at privilege [cpl] may change. *)
Definition iret_eflags_mask (cpl shift : Z) (env : CPUX86State) : Z :=
  let mask := TF_MASK .| AC_MASK .| ID_MASK .| RF_MASK .| NT_MASK in
  let mask := if cpl =? 0 then mask .| IOPL_MASK else mask in
  let iopl := (eflags env >> IOPL_SHIFT) .& 3 in
  let mask := if cpl <=? iopl then mask .| IF_MASK else mask in
  if shift =? 0 then mask .& 0xffff else mask.

Definition load_vm86_segs (new_cs new_ss new_es new_ds new_fs new_gs : Z) (env : CPUX86State) : CPUX86State :=
  let env := cpu_x86_set_cpl 3 (load_seg_vm R_CS new_cs env) in
  let env := load_seg_vm R_SS new_ss env in
  let env := load_seg_vm R_ES new_es env in
  let env := load_seg_vm R_DS new_ds env in
  let env := load_seg_vm R_FS new_fs env in
  load_seg_vm R_GS new_gs env.

Definition enter_vm86 (new_eip new_cs new_eflags new_esp new_ss new_es new_ds new_fs new_gs : Z) (env : CPUX86State) : CPUX86State :=
  let env := load_eflags (s32 new_eflags)
    (TF_MASK .| AC_MASK .| ID_MASK .| IF_MASK .| IOPL_MASK .| VM_MASK .| NT_MASK .| VIF_MASK .| VIP_MASK) env in
  let env := load_vm86_segs new_cs new_ss new_es new_ds new_fs new_gs env in
  set_reg R_ESP new_esp (env <| eip := new_eip .& 0xffff |>).

Definition return_to_vm86 (new_eip new_cs new_eflags ssp sp_mask sp : Z) : cpu unit :=
  '(new_esp, sp) ← POPL ssp sp_mask sp;
  '(new_ss, sp) ← POPL ssp sp_mask sp;
  '(new_es, sp) ← POPL ssp sp_mask sp;
  '(new_ds, sp) ← POPL ssp sp_mask sp;
  '(new_fs, sp) ← POPL ssp sp_mask sp;
  '(new_gs, sp) ← POPL ssp sp_mask sp;
  modify (enter_vm86 new_eip new_cs new_eflags new_esp new_ss new_es new_ds new_fs new_gs).

(** The checks on the code segment a return names. *)
Definition return_code_segment (new_cs cpl : Z) : cpu (Z * Z) :=
  let err := new_cs .& 0xfffc in
  raise_if (err =? 0) EXCP0D_GPF err;;
  '(e1, e2) ← load_segment_or EXCP0D_GPF new_cs;
  raise_if (negb (tst e2 DESC_S_MASK) || negb (tst e2 DESC_CS_MASK)) EXCP0D_GPF err;;
  let rpl := new_cs .& 3 in
  raise_if (rpl <? cpl) EXCP0D_GPF err;;
  let dpl := dpl_of e2 in
  raise_if (if tst e2 DESC_C_MASK then rpl <? dpl else negb (dpl =? rpl)) EXCP0D_GPF err;;
  raise_if (negb (tst e2 DESC_P_MASK)) EXCP0B_NOSEG err;;
  mret (e1, e2).

(** The stack segment of the outer level. *)
Definition return_stack_segment (new_ss rpl : Z) : cpu (Z * Z) :=
  let err := new_ss .& 0xfffc in
  raise_if (err =? 0) EXCP0D_GPF 0;;
  raise_if (negb (new_ss .& 3 =? rpl)) EXCP0D_GPF err;;
  '(ss_e1, ss_e2) ← load_segment_or EXCP0D_GPF new_ss;
  raise_if (negb (tst ss_e2 DESC_S_MASK) || tst ss_e2 DESC_CS_MASK || negb (tst ss_e2 DESC_W_MASK)) EXCP0D_GPF err;;
  raise_if (negb (dpl_of ss_e2 =? rpl)) EXCP0D_GPF err;;
  raise_if (negb (tst ss_e2 DESC_P_MASK)) EXCP0B_NOSEG err;;
  mret (ss_e1, ss_e2).

(** What an outer return loads: SS, CS, the privilege level, and the data
    segments that stay usable. *)
Definition enter_outer (new_ss ss_e1 ss_e2 new_cs e1 e2 rpl : Z) (env : CPUX86State) : CPUX86State :=
  let env := load_descriptor R_SS new_ss ss_e1 ss_e2 env in
  let env := load_descriptor R_CS new_cs e1 e2 env in
  let env := cpu_x86_set_cpl rpl env in
  fold_left (fun env r => validate_seg r rpl env) [R_ES; R_DS; R_FS; R_GS] env.

Definition helper_ret_protected (shift is_iret addend : Z) : cpu unit :=
  env ← gets id;
  let sp_mask := get_sp_mask (flags (seg R_SS env)) in
  let ssp := base (seg R_SS env) in
  '(new_eip, sp) ← POP shift ssp sp_mask (reg R_ESP env);
  '(new_cs, sp) ← POP shift ssp sp_mask sp;
  let new_cs := if shift =? 1 then new_cs .& 0xffff else new_cs in
  '(new_eflags, sp) ← (if truthy is_iret then POP shift ssp sp_mask sp else mret (0, sp));
  if truthy is_iret && (shift =? 1) && tst new_eflags VM_MASK then return_to_vm86 new_eip new_cs new_eflags ssp sp_mask sp
  else
    cpl ← gets cpl_of;
    '(e1, e2) ← return_code_segment new_cs cpl;
    let rpl := new_cs .& 3 in
    let sp := u32 (sp + addend) in
    cs64 ← gets (fun env => tst (hflags env) HF_CS64_MASK);
    '(sp, sp_mask) ← (if (rpl =? cpl) && (negb cs64 || (cs64 && negb (truthy is_iret))) then
         modify (load_descriptor R_CS new_cs e1 e2);;
         mret (sp, sp_mask)
       else
         '(new_esp, sp) ← POP shift ssp sp_mask sp;
         '(new_ss, sp) ← POP shift ssp sp_mask sp;
         let new_ss := if shift =? 1 then new_ss .& 0xffff else new_ss in
         '(ss_e1, ss_e2) ← return_stack_segment new_ss rpl;
         modify (enter_outer new_ss ss_e1 ss_e2 new_cs e1 e2 rpl);;
         mret (u32 (new_esp + addend), get_sp_mask ss_e2));
    modify (fun env =>
      let env := SET_ESP sp sp_mask env in
      let env := env <| eip := new_eip |> in
      if truthy is_iret then load_eflags (s32 new_eflags) (iret_eflags_mask cpl shift env) env else env).

Definition helper_iret_protected (shift next_eip : Z) : cpu unit :=
  env ← gets id;
  (if tst (eflags env) NT_MASK then
     tss_selector ← lduw_kernel (base (tr env));
     let err := tss_selector .& 0xfffc in
     raise_if (tst tss_selector 4) EXCP0A_TSS err;;
     '(e1, e2) ← load_segment_or EXCP0A_TSS tss_selector;
     raise_if (negb ((e2 >> DESC_TYPE_SHIFT) .& 0x17 =? 3)) EXCP0A_TSS err;;
     switch_tss tss_selector e1 e2 SWITCH_TSS_IRET next_eip
   else helper_ret_protected shift 1 0);;
  modify (fun env => env <| hflags2 := hflags2 env .& ~~ HF2_NMI_MASK |>).

Definition helper_lret_protected (shift addend : Z) : cpu unit := helper_ret_protected shift 0 addend.

(** ** Fast system calls *)

Definition flat_flags (dpl fl : Z) : Z :=
  DESC_G_MASK .| DESC_B_MASK .| DESC_P_MASK .| DESC_S_MASK .| (dpl << DESC_DPL_SHIFT) .| fl.
Definition flat_code (dpl : Z) : Z := flat_flags dpl (DESC_CS_MASK .| DESC_R_MASK .| DESC_A_MASK).
Definition flat_data (dpl : Z) : Z := flat_flags dpl (DESC_W_MASK .| DESC_A_MASK).

(** The level and its flat code and stack segments. *)
Definition flat_segments (c cs ss : Z) (env : CPUX86State) : CPUX86State :=
  let env := cpu_x86_set_cpl c env in
  let env := cpu_x86_load_seg_cache R_CS cs 0 0xffffffff (flat_code c) env in
  cpu_x86_load_seg_cache R_SS ss 0 0xffffffff (flat_data c) env.

Definition helper_sysenter : cpu unit :=
  cs ← gets sysenter_cs;
  raise_if (cs =? 0) EXCP0D_GPF 0;;
  modify (fun env =>
    let env := env <| eflags := eflags env .& ~~ (VM_MASK .| IF_MASK .| RF_MASK) |> in
    let env := flat_segments 0 (cs .& 0xfffc) (u32 (cs + 8) .& 0xfffc) env in
    (set_reg R_ESP (sysenter_esp env) env) <| eip := sysenter_eip env |>).

Definition helper_sysexit (dflag : Z) : cpu unit :=
  cpl ← gets cpl_of;
  cs ← gets sysenter_cs;
  raise_if ((cs =? 0) || negb (cpl =? 0)) EXCP0D_GPF 0;;
  modify (fun env =>
    let env := flat_segments 3 ((u32 (cs + 16) .& 0xfffc) .| 3) ((u32 (cs + 24) .& 0xfffc) .| 3) env in
    (set_reg R_ESP (reg R_ECX env) env) <| eip := reg R_EDX env |>).

(** ** Questions about selectors *)

(** The common part of LSL, LAR, VERR and VERW: the descriptor, if the selector
    names one and [ok e2 dpl cpl rpl] holds. *)
Definition visible_descriptor (selector1 : Z) (ok : Z -> Z -> Z -> Z -> bool) : cpu (option (Z * Z)) :=
  let sel := selector1 .& 0xffff in
  if sel .& 0xfffc =? 0 then mret None
  else
    cpl ← gets cpl_of;
    o ← load_segment sel;
    mret (match o with
          | Some (e1, e2) => if ok e2 (dpl_of e2) cpl (sel .& 3) then Some (e1, e2) else None
          | None => None
          end).

Definition set_z (fl : Z) (z : bool) : cpu unit :=
  modify (fun env => env <| cc_src := if z then fl .| CC_Z else fl .& ~~ CC_Z |>).

Definition privileged_enough (dpl cpl rpl : Z) : bool := negb ((dpl <? cpl) || (dpl <? rpl)).

(** Which descriptors LSL and LAR look at; [system] are the system types. *)
Definition lookup_allowed (system : list Z) (e2 dpl cpl rpl : Z) : bool :=
  if tst e2 DESC_S_MASK then (tst e2 DESC_CS_MASK && tst e2 DESC_C_MASK) || privileged_enough dpl cpl rpl
  else existsb (Z.eqb (type_of e2)) system && privileged_enough dpl cpl rpl.

Definition ask (selector1 : Z) (ok : Z -> Z -> Z -> Z -> bool) (answer : Z -> Z -> Z) : cpu Z :=
  fl ← gets (fun env => helper_cc_compute_all (cc_op env) env);
  o ← visible_descriptor selector1 ok;
  match o with
  | Some (e1, e2) => set_z fl true;; mret (answer e1 e2)
  | None => set_z fl false;; mret 0
  end.

Definition helper_lsl (selector1 : Z) : cpu Z := ask selector1 (lookup_allowed [1; 2; 3; 9; 11]) get_seg_limit.
Definition helper_lar (selector1 : Z) : cpu Z :=
  ask selector1 (lookup_allowed [1; 2; 3; 4; 5; 9; 11; 12]) (fun _ e2 => e2 .& 0x00f0ff00).

Definition readable (e2 dpl cpl rpl : Z) : bool :=
  tst e2 DESC_S_MASK
  && (if tst e2 DESC_CS_MASK then tst e2 DESC_R_MASK && (tst e2 DESC_C_MASK || privileged_enough dpl cpl rpl)
      else privileged_enough dpl cpl rpl).
Definition writable (e2 dpl cpl rpl : Z) : bool :=
  tst e2 DESC_S_MASK && negb (tst e2 DESC_CS_MASK) && privileged_enough dpl cpl rpl && tst e2 DESC_W_MASK.

Definition helper_verr (selector1 : Z) : cpu unit := ask selector1 readable (fun _ _ => 0);; mret tt.
Definition helper_verw (selector1 : Z) : cpu unit := ask selector1 writable (fun _ _ => 0);; mret tt.

End Helpers.

End X86Seg.
