(* ===== verification/X86Priv.v ===== *)
(** * Privilege in protected mode

    What the helpers of [X86Seg] may load into the segment registers.  A weakest
    precondition over the CPU state, with the machine's memory left open, carries
    the checks each helper makes to the point where it changes the state. *)

From S2P Require Import Prelude X86Cpu X86Trans X86Alu X86Int X86Seg.

Module X86Priv.
Import X86 X86Trans X86Alu X86Seg.
Import X86Int(get_sp_mask, SEG_ADDL, SET_ESP, DESC_B_MASK).
#[local] Existing Instances X86.SegmentCache_eta X86.CPUX86State_eta.

(** ** States that differ in exception bookkeeping only *)

Record same_arch (e e' : CPUX86State) : Prop := {
  sa_regs : regs e' = regs e;
  sa_eip : eip e' = eip e;
  sa_eflags : eflags e' = eflags e;
  sa_cc : (cc_src e', cc_dst e', cc_op e', df e') = (cc_src e, cc_dst e, cc_op e, df e);
  sa_hflags : hflags e' = hflags e;
  sa_segs : segs e' = segs e;
  sa_tables : (ldt e', tr e', gdt e', idt e') = (ldt e, tr e, gdt e, idt e);
  sa_cr : aget (cr e') 0 = aget (cr e) 0 /\ aget (cr e') 3 = aget (cr e) 3 /\ aget (cr e') 4 = aget (cr e) 4;
  sa_sysenter : (sysenter_cs e', sysenter_esp e', sysenter_eip e') = (sysenter_cs e, sysenter_esp e, sysenter_eip e);
  sa_dr : dr e' = dr e
}.

#[global] Instance same_arch_refl : Reflexive same_arch.
Proof. intros e. now constructor. Qed.

Lemma same_raise n c e : same_arch e (raise_exception_err n c e).
Proof.
  unfold raise_exception_err, raise_interrupt, check_exception. cbn [truthy Z.eqb negb].
  repeat match goal with |- context [if ?b then _ else _] => destruct b end; now constructor.
Qed.

(** What the machine promises: a page fault leaves the architectural state alone
    but for CR2, and a load yields a value of its width. *)
Class SysLaws (M : Type) `{!SysHost M} := {
  ldub_fault : forall a e m e' m', mem_ldub a e m = Fault e' m' -> same_arch e e';
  lduw_fault : forall a e m e' m', mem_lduw a e m = Fault e' m' -> same_arch e e';
  ldl_fault : forall a e m e' m', mem_ldl a e m = Fault e' m' -> same_arch e e';
  stb_fault : forall a v e m e' m', mem_stb a v e m = Fault e' m' -> same_arch e e';
  stw_fault : forall a v e m e' m', mem_stw a v e m = Fault e' m' -> same_arch e e';
  stl_fault : forall a v e m e' m', mem_stl a v e m = Fault e' m' -> same_arch e e';
  lduw_range : forall a e m v m', mem_lduw a e m = Hit v m' -> in_u 16 v
}.

(** ** Weakest preconditions *)

Section WP.
Context {M : Type} `{!SysHost M} `{!SysLaws M}.
Implicit Types (E : CPUX86State -> Prop) (e : CPUX86State).

Definition wp {A} (c : cpu M A) (Q : A -> CPUX86State -> Prop) E e : Prop :=
  forall m, match c e m with Done a e' _ => Q a e' | Raised e' _ => E e' | Aborted => True end.

(** Leaving by an exception from state [e] is fine. *)
Definition faults E e : Prop := forall e', same_arch e e' -> E e'.

Lemma wp_ret {A} (a : A) Q E e : Q a e -> wp (mret a) Q E e.
Proof. intros H m. exact H. Qed.

Lemma wp_bind {A B} (c : cpu M A) (f : A -> cpu M B) Q E e :
  wp c (fun a e' => wp (f a) Q E e') E e -> wp (c ≫= f) Q E e.
Proof.
  intros H m. unfold mbind, cpu_bind. specialize (H m). destruct (c e m) as [a e' m'|e' m'|]; [|exact H|exact I].
  exact (H m').
Qed.

Lemma wp_mono {A} (c : cpu M A) (Q Q' : A -> CPUX86State -> Prop) E E' e :
  wp c Q E e -> (forall a e', Q a e' -> Q' a e') -> (forall e', E e' -> E' e') -> wp c Q' E' e.
Proof. intros H HQ HE m. specialize (H m). destruct (c e m); auto. Qed.

Lemma wp_gets {A} (f : CPUX86State -> A) Q E e : Q (f e) e -> wp (gets f) Q E e.
Proof. intros H m. exact H. Qed.
Lemma wp_modify f Q E e : Q tt (f e) -> wp (modify f) Q E e.
Proof. intros H m. exact H. Qed.
Lemma wp_host f Q E e : Q tt e -> wp (host f) Q E e.
Proof. intros H m. exact H. Qed.
Lemma wp_abort {A} (Q : A -> _) E e : wp cpu_abort Q E e.
Proof. now intros m. Qed.

Lemma wp_raise {A} n c (Q : A -> _) E e : faults E e -> wp (raise_err n c) Q E e.
Proof. intros H m. apply H, same_raise. Qed.
Lemma wp_raise_if b n c Q E e : faults E e -> (b = false -> Q tt e) -> wp (raise_if b n c) Q E e.
Proof. intros HE H. unfold raise_if. destruct b; [now apply wp_raise|]. apply wp_ret. auto. Qed.
Lemma wp_when b c Q E e : (b = true -> wp c Q E e) -> (b = false -> Q tt e) -> wp (when b c) Q E e.
Proof. intros H1 H2. unfold when. destruct b; [auto|]. apply wp_ret. auto. Qed.

Lemma wp_acc {A} (f : CPUX86State -> M -> access M A) (Q : A -> _) E e :
  (forall m e' m', f e m = Fault e' m' -> same_arch e e') -> faults E e -> (forall a m m', f e m = Hit a m' -> Q a e) -> wp (acc f) Q E e.
Proof.
  intros HL HE H m. unfold acc. destruct (f e m) as [a m'|e' m'] eqn:Ef; [exact (H _ _ _ Ef)|]. apply HE. exact (HL _ _ _ Ef).
Qed.

Lemma wp_ldub a Q E e : faults E e -> (forall v, Q v e) -> wp (ldub_kernel a) Q E e.
Proof. intros HE H. apply wp_acc; [intros m e' m'; apply ldub_fault|exact HE|auto]. Qed.
Lemma wp_lduw a Q E e : faults E e -> (forall v, in_u 16 v -> Q v e) -> wp (lduw_kernel a) Q E e.
Proof. intros HE H. apply wp_acc; [intros m e' m'; apply lduw_fault|exact HE|]. intros v m m' Ev. apply H. exact (lduw_range _ _ _ _ _ Ev). Qed.
Lemma wp_ldl a Q E e : faults E e -> (forall v, in_u 32 v -> Q v e) -> wp (ldl_kernel a) Q E e.
Proof.
  intros HE H. apply wp_acc; [intros m e' m'|exact HE|intros v m m'].
  - destruct (mem_ldl a e m) as [v m1|e1 m1] eqn:Em; [discriminate|]. intros [= <- <-]. exact (ldl_fault _ _ _ _ _ Em).
  - destruct (mem_ldl a e m) as [v2 m2|e2 m2]; [|discriminate]. intros E1. injection E1 as <- _. apply H, u32_range.
Qed.
Lemma wp_stb a v Q E e : faults E e -> Q tt e -> wp (stb_kernel a v) Q E e.
Proof. intros HE H. apply wp_acc; [intros m e' m'; apply stb_fault|exact HE|]. now intros []. Qed.
Lemma wp_stw a v Q E e : faults E e -> Q tt e -> wp (stw_kernel a v) Q E e.
Proof. intros HE H. apply wp_acc; [intros m e' m'; apply stw_fault|exact HE|]. now intros []. Qed.
Lemma wp_stl a v Q E e : faults E e -> Q tt e -> wp (stl_kernel a v) Q E e.
Proof. intros HE H. apply wp_acc; [intros m e' m'; apply stl_fault|exact HE|]. now intros []. Qed.

Ltac wp_step :=
  lazymatch goal with
  | |- wp (_ ≫= _) _ _ _ => apply wp_bind
  | |- wp (mret _) _ _ _ => apply wp_ret
  | |- wp (gets _) _ _ _ => apply wp_gets
  | |- wp (modify _) _ _ _ => apply wp_modify
  | |- wp (host _) _ _ _ => apply wp_host
  | |- wp cpu_abort _ _ _ => apply wp_abort
  | |- wp (raise_err _ _) _ _ _ => apply wp_raise; assumption
  | |- wp (raise_if _ _ _) _ _ _ => apply wp_raise_if; [assumption|intros ?]
  | |- wp (ldub_kernel _) _ _ _ => apply wp_ldub; [assumption|intros ?]
  | |- wp (lduw_kernel _) _ _ _ => apply wp_lduw; [assumption|intros ? ?]
  | |- wp (ldl_kernel _) _ _ _ => apply wp_ldl; [assumption|intros ? ?]
  | |- wp (stb_kernel _ _) _ _ _ => apply wp_stb; [assumption|]
  | |- wp (stw_kernel _ _) _ _ _ => apply wp_stw; [assumption|]
  | |- wp (stl_kernel _ _) _ _ _ => apply wp_stl; [assumption|]
  end.
Ltac wp_steps := repeat (wp_step; cbn beta iota zeta).

Lemma wp_push shift ssp mask v sp Q E e : faults E e -> (forall sp', Q sp' e) -> wp (PUSH shift ssp mask v sp) Q E e.
Proof. intros HE H. unfold PUSH, PUSHL, PUSHW. destruct (truthy shift); wp_steps; apply H. Qed.

Lemma wp_push_all shift ssp mask vals sp Q E e : faults E e -> (forall sp', Q sp' e) -> wp (push_all shift ssp mask vals sp) Q E e.
Proof.
  intros HE H. revert sp. induction vals as [|v vals IH]; intros sp; cbn [push_all]; [wp_steps; apply H|].
  wp_step. apply wp_push; [assumption|]. exact IH.
Qed.

Lemma wp_pop shift ssp mask sp Q E e : faults E e -> (forall v sp', in_u 32 v -> Q (v, sp') e) -> wp (POP shift ssp mask sp) Q E e.
Proof.
  intros HE H. unfold POP, POPL, POPW. destruct (shift =? 1); wp_steps; apply H; [assumption|]. unfold in_u in *. lia.
Qed.
Lemma wp_popl ssp mask sp Q E e : faults E e -> (forall v sp', in_u 32 v -> Q (v, sp') e) -> wp (POPL ssp mask sp) Q E e.
Proof. intros HE H. unfold POPL. wp_steps. now apply H. Qed.

Lemma wp_copy_params n shift a b c d f sp Q E e : faults E e -> (forall sp', Q sp' e) -> wp (copy_params n shift a b c d f sp) Q E e.
Proof.
  intros HE H. revert sp. induction n as [|n IH]; intros sp; cbn [copy_params]; [wp_steps; apply H|].
  wp_step. destruct (truthy shift); wp_step; wp_step; (apply wp_push; [assumption|exact IH]).
Qed.

Lemma wp_read_descriptor dt sel Q E e : faults E e -> Q None e -> (forall e1 e2 : Z, Q (Some (e1, e2)) e) -> wp (read_descriptor dt sel) Q E e.
Proof. intros HE H0 H. unfold read_descriptor. cbv zeta. destruct (_ <? _); wp_steps; auto. Qed.

Lemma wp_or_raise {A} n c (k : cpu M (option A)) Q E e : faults E e ->
  wp k (fun o e' => match o with Some a => Q a e' | None => e' = e end) E e -> wp (or_raise n c k) Q E e.
Proof.
  intros HE H. unfold or_raise. apply wp_bind. eapply wp_mono; [exact H| |auto].
  intros [a|] e' He; [now apply wp_ret|]. subst e'. now apply wp_raise.
Qed.

Lemma wp_descriptor dt sel n c Q E e : faults E e -> (forall e1 e2 : Z, Q (e1, e2) e) -> wp (or_raise n c (read_descriptor dt sel)) Q E e.
Proof. intros HE H. apply wp_or_raise; [assumption|]. now apply wp_read_descriptor. Qed.

Lemma wp_load_segment_or n sel Q E e : faults E e -> (forall e1 e2 : Z, Q (e1, e2) e) -> wp (load_segment_or n sel) Q E e.
Proof.
  intros HE H. apply wp_or_raise; [assumption|]. unfold load_segment. wp_steps. now apply wp_read_descriptor.
Qed.

Lemma wp_in_order {A} (f : A -> cpu M unit) l Q E e : (forall x, In x l -> forall (Q' : unit -> _), Q' tt e -> wp (f x) Q' E e) -> Q tt e ->
  wp (in_order (map f l)) Q E e.
Proof.
  intros Hf HQ. induction l as [|x l IH]; cbn [map in_order]; [now apply wp_ret|].
  apply wp_bind. apply Hf; [now left|]. apply IH. intros y Hy. apply Hf. now right.
Qed.

Lemma wp_mapM {A B} (f : A -> cpu M B) (l : list A) Q E e : (forall x Q', (forall b, Q' b e) -> wp (f x) Q' E e) -> (forall bs, length bs = length l -> Q bs e) ->
  wp (mapM f l) Q E e.
Proof.
  intros Hf. revert Q. induction l as [|x l IH]; intros Q HQ; cbn [mapM]; [apply wp_ret; now apply HQ|].
  apply wp_bind, Hf. intros b. apply wp_bind, IH. intros bs Hl. apply wp_ret, HQ. cbn. now rewrite Hl.
Qed.
End WP.

(** The step tactic outside the section. *)
Ltac wp_step :=
  lazymatch goal with
  | |- wp (_ ≫= _) _ _ _ => apply wp_bind
  | |- wp (mret _) _ _ _ => apply wp_ret
  | |- wp (gets _) _ _ _ => apply wp_gets
  | |- wp (modify _) _ _ _ => apply wp_modify
  | |- wp (host _) _ _ _ => apply wp_host
  | |- wp cpu_abort _ _ _ => apply wp_abort
  | |- wp (raise_err _ _) _ _ _ => apply wp_raise; assumption
  | |- wp (raise_if _ _ _) _ _ _ => apply wp_raise_if; [assumption|intros ?]
  | |- wp (ldub_kernel _) _ _ _ => apply wp_ldub; [assumption|intros ?]
  | |- wp (lduw_kernel _) _ _ _ => apply wp_lduw; [assumption|intros ? ?]
  | |- wp (ldl_kernel _) _ _ _ => apply wp_ldl; [assumption|intros ? ?]
  | |- wp (stb_kernel _ _) _ _ _ => apply wp_stb; [assumption|]
  | |- wp (stw_kernel _ _) _ _ _ => apply wp_stw; [assumption|]
  | |- wp (stl_kernel _ _) _ _ _ => apply wp_stl; [assumption|]
  | |- wp (PUSH _ _ _ _ _) _ _ _ => apply wp_push; [assumption|intros ?]
  | |- wp (push_all _ _ _ _ _) _ _ _ => apply wp_push_all; [assumption|intros ?]
  | |- wp (POP _ _ _ _) _ _ _ => apply wp_pop; [assumption|intros ? ? ?]
  | |- wp (POPL _ _ _) _ _ _ => apply wp_popl; [assumption|intros ? ? ?]
  | |- wp (copy_params _ _ _ _ _ _ _ _) _ _ _ => apply wp_copy_params; [assumption|intros ?]
  | |- wp (or_raise _ _ (read_descriptor _ _)) _ _ _ => apply wp_descriptor; [assumption|intros ? ?]
  | |- wp (load_segment_or _ _) _ _ _ => apply wp_load_segment_or; [assumption|intros ? ?]
  end.
Ltac wp_steps := repeat (wp_step; cbn beta iota zeta).

(** ** The privilege invariant *)

Definition usable (sc : SegmentCache) : bool := tst (flags sc) DESC_P_MASK.

(** What the flags of a usable segment must be at privilege level [cpl]. *)
Definition code_rights (cpl fl : Z) : bool :=
  tst fl DESC_S_MASK && tst fl DESC_CS_MASK && (if tst fl DESC_C_MASK then dpl_of fl <=? cpl else dpl_of fl =? cpl).
Definition stack_rights (cpl fl : Z) : bool :=
  tst fl DESC_S_MASK && negb (tst fl DESC_CS_MASK) && tst fl DESC_W_MASK && (dpl_of fl =? cpl).
Definition data_rights (cpl fl : Z) : bool :=
  tst fl DESC_S_MASK && (negb (tst fl DESC_CS_MASK) || tst fl DESC_R_MASK)
  && ((tst fl DESC_CS_MASK && tst fl DESC_C_MASK) || (cpl <=? dpl_of fl)).

Definition data_reg (r : Z) : Prop := r = R_ES \/ r = R_DS \/ r = R_FS \/ r = R_GS.

Record priv (cpl : Z) (vm : bool) (s : Z -> SegmentCache) : Prop := {
  pv_level : selector (s R_CS) .& 3 = cpl \/ (vm = true /\ cpl = 3);
  pv_code : usable (s R_CS) = true -> code_rights cpl (flags (s R_CS)) = true;
  pv_stack : usable (s R_SS) = true -> stack_rights cpl (flags (s R_SS)) = true;
  pv_data : forall r, data_reg r -> usable (s r) = true -> data_rights cpl (flags (s r)) = true;
  pv_null : forall r, r = R_FS \/ r = R_GS -> selector (s r) .& 0xfffc = 0 -> usable (s r) = false
}.

(** In protected mode: the privilege level is the one in CS (or 3, in virtual-8086
    mode), and no usable segment register gives more than its descriptor and
    the privilege level allow. *)
Definition priv_ok (e : CPUX86State) : Prop :=
  length (segs e) = 6%nat /\ priv (cpl_of e) (tst (eflags e) VM_MASK) (fun r => seg r e).

Lemma cpl_range e : 0 <= cpl_of e <= 3.
Proof. unfold cpl_of, HF_CPL_MASK. apply (land_range _ 2 3); [lia|reflexivity]. Qed.

Lemma same_priv e e' : same_arch e e' -> priv_ok e -> priv_ok e'.
Proof.
  intros [? ? Ef ? Eh Es ? ? ? ?]. unfold priv_ok, cpl_of, seg. now rewrite Ef, Eh, Es.
Qed.
Lemma faults_priv e : priv_ok e -> faults priv_ok e.
Proof. intros H e' S. exact (same_priv _ _ S H). Qed.

Lemma data_rights_mono c c' fl : c' <= c -> data_rights c fl = true -> data_rights c' fl = true.
Proof.
  unfold data_rights. rewrite !andb_true_iff, !orb_true_iff, !Z.leb_le. intros Hc [H1 [H2|H2]]; split; auto; right; lia.
Qed.

(** ** What loads change *)

Lemma seg_same_hflags r e h : seg r (e <| hflags := h |>) = seg r e.
Proof. reflexivity. Qed.

Lemma seg_set_seg r r' c e : length (segs e) = 6%nat -> 0 <= r < 6 -> 0 <= r' < 6 ->
  seg r (set_seg r' c e) = if r =? r' then c else seg r e.
Proof.
  intros Hl Hr Hr'. unfold seg, set_seg. change (segs (e <| segs := <[Z.to_nat r':=c]> (segs e) |>)) with (<[Z.to_nat r':=c]> (segs e)).
  rewrite !nth_lookup. destruct (Z.eqb_spec r r') as [->|Hn].
  - rewrite list_lookup_insert_eq by lia. reflexivity.
  - rewrite list_lookup_insert_ne by lia. reflexivity.
Qed.

(** Replacing hidden flags above the privilege level. *)
Lemma keep_cpl x m f : m .& HF_CPL_MASK = 0 -> f .& HF_CPL_MASK = 0 -> ((x .& ~~ m) .| f) .& HF_CPL_MASK = x .& HF_CPL_MASK.
Proof.
  intros Hm Hf. rewrite Z.land_lor_distr_l, Hf, Z.lor_0_r, <- Z.land_assoc. f_equal.
  apply Z.bits_inj'. intros n Hn. pose proof (f_equal (fun y => Z.testbit y n) Hm) as B. cbn beta in B.
  rewrite Z.land_spec, Z.bits_0 in B. rewrite Z.land_spec, lnot_spec' by done. destruct (Z.testbit m n), (Z.testbit HF_CPL_MASK n); cbn in *; congruence.
Qed.

Lemma b_flag_cpl x k : (k = DESC_B_SHIFT - HF_SS32_SHIFT \/ k = DESC_B_SHIFT - HF_CS32_SHIFT) -> ((x .& DESC_B_MASK) >> k) .& HF_CPL_MASK = 0.
Proof.
  intros Hk. unfold DESC_B_MASK. rewrite land_bit by lia. destruct Hk as [-> | ->], (Z.testbit x 22); reflexivity.
Qed.

Lemma new_hflags_cpl e : new_hflags e .& HF_CPL_MASK = 0.
Proof.
  unfold new_hflags. cbv zeta. set (f := _ >> _). assert (f .& HF_CPL_MASK = 0) as Hf by (apply b_flag_cpl; now left). clearbody f.
  destruct (tst _ _); [exact Hf|]. destruct (_ || _); rewrite Z.land_lor_distr_l, Hf; [reflexivity|]. destruct (truthy _); reflexivity.
Qed.

(** A load stores the cache and touches no other state than the hidden flags. *)
Lemma load_cache_split r sel b l fl e : exists h, cpu_x86_load_seg_cache r sel b l fl e = (set_seg r (mkSeg sel b l fl) e) <| hflags := h |>
  /\ h .& HF_CPL_MASK = cpl_of e.
Proof.
  unfold cpu_x86_load_seg_cache. destruct (r =? R_CS); eexists; (split; [reflexivity|]); rewrite keep_cpl by (reflexivity || apply new_hflags_cpl); [|reflexivity].
  match goal with |- hflags (?x <| hflags := ?v |>) .& _ = _ => change (v .& HF_CPL_MASK = cpl_of e) end.
  rewrite keep_cpl; [reflexivity|reflexivity|]. apply b_flag_cpl. now right.
Qed.

Section Load.
Variables (r sel b l fl : Z) (e : CPUX86State).
Let e' := cpu_x86_load_seg_cache r sel b l fl e.

Lemma cpl_load : cpl_of e' = cpl_of e.
Proof. unfold e'. destruct (load_cache_split r sel b l fl e) as (h & -> & Hh). exact Hh. Qed.
Lemma eflags_load : eflags e' = eflags e.
Proof. unfold e'. destruct (load_cache_split r sel b l fl e) as (h & -> & Hh). reflexivity. Qed.
Lemma segs_len_load : length (segs e') = length (segs e).
Proof. unfold e'. destruct (load_cache_split r sel b l fl e) as (h & -> & Hh). apply length_insert. Qed.
Lemma seg_load k : length (segs e) = 6%nat -> 0 <= k < 6 -> 0 <= r < 6 -> seg k e' = if k =? r then mkSeg sel b l fl else seg k e.
Proof. unfold e'. destruct (load_cache_split r sel b l fl e) as (h & -> & Hh). rewrite seg_same_hflags. apply seg_set_seg. Qed.
Lemma regs_load : regs e' = regs e.
Proof. unfold e'. destruct (load_cache_split r sel b l fl e) as (h & -> & Hh). reflexivity. Qed.
Lemma cr_load : cr e' = cr e.
Proof. unfold e'. destruct (load_cache_split r sel b l fl e) as (h & -> & Hh). reflexivity. Qed.
Lemma tables_load : (ldt e', tr e', gdt e', idt e') = (ldt e, tr e, gdt e, idt e).
Proof. unfold e'. destruct (load_cache_split r sel b l fl e) as (h & -> & Hh). reflexivity. Qed.
End Load.

Lemma cpl_set c e : 0 <= c <= 3 -> cpl_of (cpu_x86_set_cpl c e) = c.
Proof.
  intros Hc. unfold cpl_of, cpu_x86_set_cpl. change (hflags (e <| hflags := ?h |>)) with h. cbv beta.
  change ((((hflags e .& ~~ HF_CPL_MASK) .| c)) .& HF_CPL_MASK = c). rewrite Z.land_lor_distr_l, <- Z.land_assoc.
  change (~~ HF_CPL_MASK .& HF_CPL_MASK) with 0. rewrite Z.land_0_r, Z.lor_0_l.
  assert (c = 0 \/ c = 1 \/ c = 2 \/ c = 3) as [-> | [-> | [-> | ->]]] by lia; reflexivity.
Qed.

(** ** Loading one register *)

Lemma priv_load_data r sel b l fl e : data_reg r -> (tst fl DESC_P_MASK = true -> data_rights (cpl_of e) fl = true) ->
  (r = R_FS \/ r = R_GS -> sel .& 0xfffc = 0 -> tst fl DESC_P_MASK = false) -> priv_ok e ->
  priv_ok (cpu_x86_load_seg_cache r sel b l fl e).
Proof.
  intros Hr Hd Hn [Hl [P1 P2 P3 P4 P5]]. assert (0 <= r < 6 /\ r <> R_CS /\ r <> R_SS) as (R0 & R1 & R2) by (unfold data_reg, R_CS, R_SS in *; unfold R_ES, R_DS, R_FS, R_GS in *; lia).
  split; [now rewrite segs_len_load|]. rewrite cpl_load, eflags_load.
  assert (forall k, 0 <= k < 6 -> seg k (cpu_x86_load_seg_cache r sel b l fl e) = if k =? r then mkSeg sel b l fl else seg k e) as S by (intros; now apply seg_load).
  assert (seg R_CS (cpu_x86_load_seg_cache r sel b l fl e) = seg R_CS e) as E1 by (rewrite S by done; now rewrite (proj2 (Z.eqb_neq R_CS r)) by auto).
  assert (seg R_SS (cpu_x86_load_seg_cache r sel b l fl e) = seg R_SS e) as E2 by (rewrite S by done; now rewrite (proj2 (Z.eqb_neq R_SS r)) by auto).
  constructor; cbn beta; rewrite ?E1, ?E2; try assumption; intros k Hk; rewrite S by (unfold data_reg, R_ES, R_DS, R_FS, R_GS in *; lia);
    destruct (Z.eqb_spec k r) as [->|]; auto.
Qed.

Lemma priv_load_ss sel b l fl e : (tst fl DESC_P_MASK = true -> stack_rights (cpl_of e) fl = true) -> priv_ok e ->
  priv_ok (cpu_x86_load_seg_cache R_SS sel b l fl e).
Proof.
  intros Hd [Hl [P1 P2 P3 P4 P5]]. split; [now rewrite segs_len_load|]. rewrite cpl_load, eflags_load.
  constructor; cbn beta; try (intros k Hk); rewrite seg_load by (assumption || done || unfold data_reg, R_ES, R_DS, R_FS, R_GS, R_SS in *; lia); auto.
  - replace (k =? R_SS) with false; [now apply P4|]. symmetry. apply Z.eqb_neq. destruct Hk as [-> | [-> | [-> | ->]]]; discriminate.
  - replace (k =? R_SS) with false; [now apply P5|]. symmetry. apply Z.eqb_neq. destruct Hk as [-> | ->]; discriminate.
Qed.

Lemma priv_load_cs sel b l fl e : sel .& 3 = cpl_of e ->
  (tst fl DESC_P_MASK = true -> code_rights (cpl_of e) fl = true) -> priv_ok e ->
  priv_ok (cpu_x86_load_seg_cache R_CS sel b l fl e).
Proof.
  intros Hs Hd [Hl [P1 P2 P3 P4 P5]]. split; [now rewrite segs_len_load|]. rewrite cpl_load, eflags_load.
  constructor; cbn beta; try (intros k Hk); rewrite seg_load by (assumption || done || unfold data_reg, R_ES, R_DS, R_FS, R_GS, R_CS in *; lia); auto.
  - replace (k =? R_CS) with false; [now apply P4|]. symmetry. apply Z.eqb_neq. destruct Hk as [-> | [-> | [-> | ->]]]; discriminate.
  - replace (k =? R_CS) with false; [now apply P5|]. symmetry. apply Z.eqb_neq. destruct Hk as [-> | ->]; discriminate.
Qed.

(** ** The helpers that load one segment *)

(** Decide a goal about rights from the checks in the context. *)
Ltac rights :=
  unfold code_rights, stack_rights, data_rights, usable in *;
  repeat match goal with
  | H : context [tst ?x ?m] |- _ => let b := fresh "b" in set (b := tst x m) in *; clearbody b; destruct b; cbn [negb andb orb] in *
  | |- context [tst ?x ?m] => let b := fresh "b" in set (b := tst x m) in *; clearbody b; destruct b; cbn [negb andb orb] in *
  end; try discriminate; try lia.

(** The accessed bit is not part of the rights. *)
Lemma accessed_tst e2 k : 0 <= k -> k <> 8 -> tst (if tst e2 DESC_A_MASK then e2 else e2 .| DESC_A_MASK) (1 << k) = tst e2 (1 << k).
Proof.
  intros Hk Hn. destruct (tst e2 DESC_A_MASK); [done|]. rewrite !tst_bit by done. rewrite Z.lor_spec. unfold DESC_A_MASK. rewrite testbit_one_shift by lia.
  rewrite (proj2 (Z.eqb_neq k 8)) by done. apply orb_false_r.
Qed.
Lemma accessed_dpl e2 : dpl_of (if tst e2 DESC_A_MASK then e2 else e2 .| DESC_A_MASK) = dpl_of e2.
Proof.
  destruct (tst e2 DESC_A_MASK); [done|]. unfold dpl_of. rewrite Z.shiftr_lor, Z.land_lor_distr_l. change ((DESC_A_MASK >> DESC_DPL_SHIFT) .& 3) with 0. apply Z.lor_0_r.
Qed.
Lemma accessed_rights c e2 (e2' := if tst e2 DESC_A_MASK then e2 else e2 .| DESC_A_MASK) :
  stack_rights c e2' = stack_rights c e2 /\ data_rights c e2' = data_rights c e2.
Proof.
  unfold stack_rights, data_rights, e2', DESC_S_MASK, DESC_CS_MASK, DESC_C_MASK, DESC_W_MASK, DESC_R_MASK.
  now rewrite accessed_dpl, !accessed_tst by lia.
Qed.

(** Tests of two bits at once. *)
Lemma land_two x i j : 0 <= i -> 0 <= j -> i <> j ->
  (x .& ((1 << i) .| (1 << j)) =? 1 << i) = tst x (1 << i) && negb (tst x (1 << j))
  /\ (x .& ((1 << i) .| (1 << j)) =? (1 << i) .| (1 << j)) = tst x (1 << i) && tst x (1 << j).
Proof.
  intros Hi Hj Hn. rewrite Z.land_lor_distr_r, !land_bit, !tst_bit by done.
  assert (0 < 1 << i) by (rewrite Z.shiftl_1_l; lia). assert (0 < 1 << j) by (rewrite Z.shiftl_1_l; lia).
  assert ((1 << i) .& (1 << j) = 0) as D.
  { rewrite land_bit, testbit_one_shift by done. now rewrite (proj2 (Z.eqb_neq j i)) by auto. }
  assert (1 << i <> 1 << j) by (intros E; rewrite E, Z.land_diag in D; lia).
  pose proof (Z.add_nocarry_lxor _ _ D) as L1. rewrite (Z.lxor_lor _ _ D) in L1.
  destruct (Z.testbit x i), (Z.testbit x j); cbn [andb negb]; rewrite ?Z.lor_0_r, ?Z.lor_0_l, <- ?L1; split; try apply Z.eqb_refl; apply Z.eqb_neq; lia.
Qed.

Lemma code_unreadable e2 : (e2 .& (DESC_CS_MASK .| DESC_R_MASK) =? DESC_CS_MASK) = tst e2 DESC_CS_MASK && negb (tst e2 DESC_R_MASK).
Proof. exact (proj1 (land_two e2 11 9 ltac:(lia) ltac:(lia) ltac:(lia))). Qed.
Lemma code_segment e2 : (e2 .& (DESC_S_MASK .| DESC_CS_MASK) =? DESC_S_MASK .| DESC_CS_MASK) = tst e2 DESC_S_MASK && tst e2 DESC_CS_MASK.
Proof. exact (proj2 (land_two e2 12 11 ltac:(lia) ltac:(lia) ltac:(lia))). Qed.

(** Types of 12 and more are conforming code. *)
Lemma type_conforming e2 : (type_of e2 <? 12) = negb (tst e2 DESC_CS_MASK && tst e2 DESC_C_MASK).
Proof.
  unfold DESC_CS_MASK, DESC_C_MASK. rewrite !tst_bit by lia.
  assert (forall k, 0 <= k < 4 -> Z.testbit (type_of e2) k = Z.testbit e2 (k + 8)) as B.
  { intros k Hk. unfold type_of. rewrite Z.land_spec, Z.shiftr_spec by lia. change 0xf with (Z.ones 4).
    rewrite Z.testbit_ones_nonneg by lia. rewrite (proj2 (Z.ltb_lt k 4)) by lia. apply andb_true_r. }
  change 11 with (3 + 8). change 10 with (2 + 8). rewrite <- (B 3), <- (B 2) by lia. assert (0 <= type_of e2 <= 15) as R by (apply (land_range _ 4 15); [lia|reflexivity]).
  clear B. generalize dependent (type_of e2). intros t Ht.
  apply eqb_prop. apply (all_below_spec 16 (fun t => eqb (t <? 12) (negb (Z.testbit t 3 && Z.testbit t 2)))); [reflexivity|lia].
Qed.

(** ** Changing the privilege level *)

Lemma priv_commit c e e' : priv_ok e -> length (segs e') = 6%nat -> cpl_of e' = c -> c <= cpl_of e ->
  selector (seg R_CS e') .& 3 = c ->
  (usable (seg R_CS e') = true -> code_rights c (flags (seg R_CS e')) = true) ->
  (usable (seg R_SS e') = true -> stack_rights c (flags (seg R_SS e')) = true) ->
  (forall r, data_reg r -> seg r e' = seg r e \/ usable (seg r e') = false) -> priv_ok e'.
Proof.
  intros [Hl [P1 P2 P3 P4 P5]] Hl' Hc Hle Hs Hcs Hss Hd. split; [exact Hl'|]. rewrite Hc. constructor; auto.
  - intros r Hr U. destruct (Hd r Hr) as [E|E]; [|congruence]. rewrite E in *. apply (data_rights_mono (cpl_of e)); auto.
  - intros r Hr Hz. destruct (Hd r) as [E|E]; [unfold data_reg; tauto| |exact E]. rewrite E in *. auto.
Qed.

(** With every segment unusable only the level counts. *)
Lemma priv_unusable e : length (segs e) = 6%nat -> (forall k, 0 <= k < 6 -> flags (seg k e) = 0) ->
  selector (seg R_CS e) .& 3 = cpl_of e \/ (tst (eflags e) VM_MASK = true /\ cpl_of e = 3) -> priv_ok e.
Proof.
  intros Hl Hf Hc. assert (forall k, 0 <= k < 6 -> usable (seg k e) = false) as U by (intros k Hk; unfold usable; rewrite Hf by done; reflexivity).
  split; [done|]. constructor; [exact Hc| | | |]; cbn beta.
  - rewrite U by done. discriminate.
  - rewrite U by done. discriminate.
  - intros r Hr. rewrite U by (unfold data_reg, R_ES, R_DS, R_FS, R_GS in Hr; lia). discriminate.
  - intros r Hr _. apply U. unfold R_FS, R_GS in Hr. lia.
Qed.

Lemma set_rpl sel d : 0 <= d <= 3 -> ((sel .& ~~ 3) .| d) .& 3 = d.
Proof.
  intros Hd. rewrite Z.land_lor_distr_l, <- Z.land_assoc. change (~~ 3 .& 3) with 0. rewrite Z.land_0_r, Z.lor_0_l.
  assert (d = 0 \/ d = 1 \/ d = 2 \/ d = 3) as [-> | [-> | [-> | ->]]] by lia; reflexivity.
Qed.

Lemma err_rpl sel d : 0 <= d <= 3 -> ((sel .& 0xfffc) .| d) .& 3 = d.
Proof.
  intros Hd. rewrite Z.land_lor_distr_l, <- Z.land_assoc. change (0xfffc .& 3) with 0. rewrite Z.land_0_r, Z.lor_0_l.
  assert (d = 0 \/ d = 1 \/ d = 2 \/ d = 3) as [-> | [-> | [-> | ->]]] by lia; reflexivity.
Qed.

(** What a chain of loads leaves in a register. *)
Ltac seg_calc :=
  repeat (rewrite seg_load by (rewrite ?segs_len_load; assumption || (vm_compute; split; congruence)));
  cbn [Z.eqb Pos.eqb R_CS R_SS R_ES R_DS R_FS R_GS].

(** All six registers loaded with flags 0. *)
Lemma all_segs_flat (sel bs lim : Z -> Z) e (e' := all_segs (fun i => cpu_x86_load_seg_cache i (sel i) (bs i) (lim i) 0) e) :
  length (segs e) = 6%nat -> length (segs e') = 6%nat /\ cpl_of e' = cpl_of e /\ eflags e' = eflags e
  /\ forall k, 0 <= k < 6 -> seg k e' = mkSeg (sel k) (bs k) (lim k) 0.
Proof.
  intros Hl. unfold e', all_segs. cbn [fold_left]. rewrite !segs_len_load, !cpl_load, !eflags_load. do 3 (split; [done|]).
  intros k Hk. assert (k = 0 \/ k = 1 \/ k = 2 \/ k = 3 \/ k = 4 \/ k = 5) as Hc by lia.
  repeat destruct Hc as [-> | Hc]; try subst k; seg_calc; reflexivity.
Qed.

(** The flags a load replaces. *)
Lemma load_eflags_bit fl mask e k : 0 <= k < 32 -> k <> 1 ->
  Z.testbit (eflags (load_eflags fl mask e)) k = if Z.testbit mask k then Z.testbit fl k else Z.testbit (eflags e) k.
Proof.
  intros Hk H1. unfold load_eflags. match goal with |- Z.testbit (eflags (?x <| eflags := ?v |>)) _ = _ => change (Z.testbit v k = if Z.testbit mask k then Z.testbit fl k else Z.testbit (eflags e) k) end.
  rewrite u32_bit, !Z.lor_spec, !Z.land_spec, lnot_spec' by lia. change (0x2) with (1 << 1). rewrite testbit_one_shift, (proj2 (Z.eqb_neq k 1)) by lia.
  change (Z.testbit (eflags (e <| cc_src := _ |> <| df := _ |>)) k) with (Z.testbit (eflags e) k).
  destruct (Z.testbit mask k); cbn [negb]; autorewrite with bits; reflexivity.
Qed.

Lemma load_task_regs_same t e : segs (load_task_regs t e) = segs e /\ eflags (load_task_regs t e) = eflags e.
Proof.
  unfold load_task_regs. generalize [R_EAX; R_ECX; R_EDX; R_EBX; R_ESP; R_EBP; R_ESI; R_EDI]. intros l. revert e.
  induction l as [|i l IH]; intros e; cbn [fold_left]; [now split|]. destruct (IH (set_reg i (aget (t_regs t) i) e)) as [-> ->]. now split.
Qed.

Lemma set_cpl_same c e : segs (cpu_x86_set_cpl c e) = segs e /\ eflags (cpu_x86_set_cpl c e) = eflags e.
Proof. now split. Qed.
Lemma seg_of_segs r e e' : segs e' = segs e -> seg r e' = seg r e.
Proof. unfold seg. now intros ->. Qed.

Lemma all_segs_vm sel e : length (segs e) = 6%nat ->
  let z := all_segs (fun i => load_seg_vm i (sel i)) e in
  length (segs z) = 6%nat /\ eflags z = eflags e /\ forall k, 0 <= k < 6 -> flags (seg k z) = 0.
Proof.
  intros Hl z. destruct (all_segs_flat (fun i => sel i .& 0xffff) (fun i => u32 ((sel i .& 0xffff) << 4)) (fun _ => 0xffff) e Hl) as (A1 & A2 & A3 & A4).
  split; [exact A1|]. split; [exact A3|]. intros k Hk. exact (f_equal flags (A4 k Hk)).
Qed.

Lemma load_task_selectors_ok t e : length (segs e) = 6%nat ->
  let z := load_task_selectors t e in
  length (segs z) = 6%nat /\ (forall k, 0 <= k < 6 -> flags (seg k z) = 0) /\ eflags z = eflags e
  /\ (if tst (t_eflags t) VM_MASK then cpl_of z = 3
      else selector (seg R_CS z) = aget (t_segs t) R_CS /\ cpl_of z = aget (t_segs t) R_CS .& 3).
Proof.
  intros Hl z. unfold z, load_task_selectors. clear z. destruct (tst (t_eflags t) VM_MASK).
  - destruct (all_segs_vm (aget (t_segs t)) e Hl) as (A1 & A3 & A4). generalize dependent (all_segs (fun i => load_seg_vm i (aget (t_segs t) i)) e). intros E A1 A3 A4.
    destruct (set_cpl_same 3 E) as [S F]. split; [congruence|]. split; [intros k Hk; rewrite (seg_of_segs k _ _ S); auto|]. split; [congruence|]. now apply cpl_set.
  - destruct (set_cpl_same (aget (t_segs t) R_CS .& 3) e) as [S F].
    assert (cpl_of (cpu_x86_set_cpl (aget (t_segs t) R_CS .& 3) e) = aget (t_segs t) R_CS .& 3) as C2 by (apply cpl_set, (land_range _ 2 3); [lia|reflexivity]).
    generalize dependent (cpu_x86_set_cpl (aget (t_segs t) R_CS .& 3) e). intros e2 S F C2.
    destruct (all_segs_flat (aget (t_segs t)) (fun _ => 0) (fun _ => 0) e2 ltac:(congruence)) as (A1 & A2 & A3 & A4).
    generalize dependent (all_segs (fun i => cpu_x86_load_seg_cache i (aget (t_segs t) i) 0 0 0) e2). intros E A1 A2 A3 A4.
    split; [exact A1|]. split; [intros k Hk; now rewrite A4|]. split; [congruence|]. split; [now rewrite A4|congruence].
Qed.

Lemma enter_task_priv type t e (e' := enter_task type t e) : length (segs e) = 6%nat ->
  (tst type 8 = false -> tst (t_eflags t) VM_MASK = false) ->
  priv_ok e' /\ (tst (t_eflags t) VM_MASK = false -> cpl_of e' = aget (t_segs t) R_CS .& 3).
Proof.
  intros Hl Ht. unfold e', enter_task. cbv zeta. set (e0 := e <| eip := t_eip t |>). assert (length (segs e0) = 6%nat) as L0 by exact Hl. clearbody e0.
  set (e1 := load_eflags _ _ e0). assert (length (segs e1) = 6%nat) as L1 by exact L0.
  assert (tst (t_eflags t) VM_MASK = true -> tst (eflags e1) VM_MASK = true) as V1.
  { unfold VM_MASK in *. change 0x20000 with (1 << 17) in *. rewrite !tst_bit in * by lia. intros V. unfold e1. rewrite load_eflags_bit by lia.
    unfold task_eflags_mask. destruct (tst type 8); [now rewrite s32_bits by lia|rewrite Ht in V by done; discriminate]. }
  clearbody e1. destruct (load_task_regs_same t e1) as [S2 F2]. set (e2 := load_task_regs t e1) in *. clearbody e2.
  destruct (load_task_selectors_ok t e2 ltac:(congruence)) as (A1 & A2 & A3 & A4). generalize dependent (load_task_selectors t e2). intros E A1 A2 A3 A4.
  change (cpl_of (E <| ldt := mkSeg (t_ldt t .& ~~ 4) 0 0 0 |>)) with (cpl_of E). split; [|intros V; rewrite V in A4; apply A4].
  apply priv_unusable; [exact A1|exact A2|]. change (selector (seg R_CS E) .& 3 = cpl_of E \/ tst (eflags E) VM_MASK = true /\ cpl_of E = 3).
  rewrite A3, F2. destruct (tst (t_eflags t) VM_MASK); [right; split; auto|left; destruct A4 as [-> ->]; reflexivity].
Qed.

Section Ops.
Context {M : Type} `{!SysHost M} `{!SysLaws M}.

Definition keeps_priv {A} (c : cpu M A) : Prop := forall e, priv_ok e -> wp c (fun _ => priv_ok) priv_ok e.

Lemma helper_lldt_priv sel : keeps_priv (helper_lldt sel).
Proof.
  intros e H. pose proof (faults_priv _ H). unfold helper_lldt, system_descriptor. cbv zeta. wp_step.
  destruct (_ =? 0); wp_steps; exact H.
Qed.

Lemma helper_ltr_priv sel : keeps_priv (helper_ltr sel).
Proof.
  intros e H. pose proof (faults_priv _ H). unfold helper_ltr, system_descriptor. cbv zeta. wp_step.
  destruct (_ =? 0); [wp_steps; exact H|]. wp_steps. apply wp_stl; [apply faults_priv; exact H|]. wp_steps. exact H.
Qed.

Lemma null_lor sel : sel .& 0xffff .& 0xfffc = sel .& 0xfffc.
Proof. now rewrite <- Z.land_assoc. Qed.

Lemma helper_load_seg_priv r sel : data_reg r \/ r = R_SS -> keeps_priv (helper_load_seg r sel).
Proof.
  intros Hr e H. pose proof (faults_priv _ H) as HF. unfold helper_load_seg. cbv zeta. wp_steps.
  destruct (Z.eqb_spec ((sel .& 0xffff) .& 0xfffc) 0) as [E0|E0].
  - wp_steps. destruct Hr as [Hr| ->]; [|discriminate]. apply priv_load_data; [exact Hr|discriminate|auto|exact H].
  - pose proof (accessed_rights (cpl_of e)) as HA. wp_steps. specialize (HA e2). destruct HA as [HA1 HA2].
    set (e2' := if tst e2 DESC_A_MASK then e2 else e2 .| DESC_A_MASK) in *. clearbody e2'.
    destruct (Z.eqb_spec r R_SS) as [->|Hs].
    + wp_steps. apply wp_when; intros _; wp_steps; (apply priv_load_ss; [intros _; rewrite HA1; rights|exact H]).
    + destruct Hr as [Hr|]; [|done]. wp_steps.
      rewrite code_unreadable in *.
      apply wp_when; intros _; wp_steps; (apply priv_load_data; [exact Hr|intros _; rewrite HA2; rights|now rewrite null_lor in *|exact H]).
Qed.

Lemma tss_load_seg_priv r sel : data_reg r \/ r = R_SS -> keeps_priv (tss_load_seg r sel).
Proof.
  intros Hr e H. pose proof (faults_priv _ H) as HF. unfold tss_load_seg. cbv zeta.
  destruct (truthy _) eqn:E0; [|wp_steps; exact H]. wp_steps.
  assert ((r =? R_CS) = false) as -> by (apply Z.eqb_neq; unfold data_reg in Hr; intros ->; destruct Hr as [[|[|[|]]]|]; discriminate).
  destruct (Z.eqb_spec r R_SS) as [->|Hs]; wp_steps.
  - apply priv_load_ss; [intros _; rights|exact H].
  - match goal with H1 : (type_of _ <? 12) && _ = false |- _ => rewrite type_conforming in H1 end.
    destruct Hr as [Hr|]; [|done]. apply priv_load_data; [exact Hr|intros _; rights| |exact H].
    intros _ Hn. unfold truthy in E0. rewrite Hn in E0. discriminate.
Qed.

Lemma tss_load_cs_priv sel e : sel .& 3 = cpl_of e -> priv_ok e -> wp (M := M) (tss_load_seg R_CS sel) (fun _ e' => priv_ok e' /\ cpl_of e' = cpl_of e) priv_ok e.
Proof.
  intros Hs H. pose proof (faults_priv _ H) as HF. unfold tss_load_seg. cbv zeta.
  destruct (truthy _) eqn:E0; [|wp_steps; discriminate]. wp_steps. cbn [Z.eqb Pos.eqb R_CS]. wp_steps.
  split; [|apply cpl_load]. apply priv_load_cs; [exact Hs|intros _; rewrite Hs in *; rights|exact H].
Qed.


(** ** Task switches *)

Lemma load_task_ldt_priv sel e : priv_ok e -> wp (M := M) (load_task_ldt sel) (fun _ e' => priv_ok e' /\ cpl_of e' = cpl_of e) priv_ok e.
Proof.
  intros H. pose proof (faults_priv _ H) as HF. unfold load_task_ldt. cbv zeta. wp_steps. apply wp_when; intros _; wp_steps; now split.
Qed.

Lemma reset_breakpoints_priv : keeps_priv reset_local_breakpoints.
Proof.
  intros e H. unfold reset_local_breakpoints. wp_steps. apply wp_when; intros _; [|exact H]. wp_steps.
  apply wp_in_order; [|wp_steps; exact H]. intros i _ Q' HQ. apply wp_when; intros _; [now apply wp_host|exact HQ].
Qed.

Lemma in_order_priv {A} (f : A -> cpu M unit) l e : priv_ok e -> (forall x, In x l -> keeps_priv (f x)) ->
  wp (in_order (map f l)) (fun _ => priv_ok) priv_ok e.
Proof.
  intros H Hf. revert e H. induction l as [|x l IH]; intros e H; cbn [map in_order]; [now apply wp_ret|].
  apply wp_bind. eapply wp_mono; [apply Hf; [now left|exact H]| |auto]. intros [] e' H'. cbn beta. apply IH; [|exact H']. intros y Hy. apply Hf. now right.
Qed.


Lemma wp_change_busy sel f Q E e : faults E e -> Q tt e -> wp (M := M) (change_busy sel f) Q E e.
Proof. intros HE H. unfold change_busy. wp_steps. exact H. Qed.

Lemma wp_save_task type next fl Q E e : faults E e -> Q tt e -> wp (M := M) (save_task type next fl) Q E e.
Proof.
  intros HE H. unfold save_task. wp_steps. destruct (tst type 8); wp_steps;
    (apply wp_in_order; [intros; wp_steps; assumption|]; apply wp_in_order; [intros; wp_steps; assumption|exact H]).
Qed.

(** A 16-bit task has no upper half of EFLAGS. *)
Lemma wp_read_task type b Q E e : faults E e -> (forall t, (tst type 8 = false -> tst (t_eflags t) VM_MASK = false) -> Q t e) ->
  wp (M := M) (read_task type b) Q E e.
Proof.
  intros HE H. unfold read_task. destruct (tst type 8); wp_steps.
  - apply wp_mapM; [intros x Q' HQ; wp_steps; apply HQ|]. intros rs _. wp_step.
    apply wp_mapM; [intros x Q' HQ; wp_steps; apply HQ|]. intros ss _. wp_steps. now apply H.
  - apply wp_mapM; [intros x Q' HQ; wp_steps; apply HQ|]. intros rs _. wp_step.
    apply wp_mapM; [intros x Q' HQ; wp_steps; apply HQ|]. intros ss _. wp_steps. apply H. intros _. cbn [t_eflags].
    unfold VM_MASK. change 0x20000 with (1 << 17). rewrite tst_bit by lia. apply (testbit_in_u_high 16); [lia|assumption|lia].
Qed.

Lemma wp_gate_of_task sel e1 e2 Q E e : faults E e -> (forall s d1 d2, Q (s, d1, d2) e) -> wp (M := M) (gate_of_task sel e1 e2) Q E e.
Proof. intros HE H. unfold gate_of_task. cbv zeta. destruct (_ =? 5); wp_steps; apply H. Qed.

Lemma ts_flag_priv e sc : priv_ok e -> priv_ok (e <| cr := aset (cr e) 0 (aget (cr e) 0 .| CR0_TS_MASK) |> <| hflags := hflags e .| HF_TS_MASK |> <| tr := sc |>).
Proof.
  intros [Hl Hp]. split; [exact Hl|]. match goal with |- priv (cpl_of ?x) _ _ => assert (cpl_of x = cpl_of e) as -> end; [|exact Hp].
  unfold cpl_of. match goal with |- hflags ?x .& _ = _ => change (hflags x) with (hflags e .| HF_TS_MASK) end.
  rewrite Z.land_lor_distr_l. change (HF_TS_MASK .& HF_CPL_MASK) with 0. apply Z.lor_0_r.
Qed.

Lemma nt_not_vm x : tst (x .| NT_MASK) VM_MASK = tst x VM_MASK.
Proof. unfold tst. rewrite Z.land_lor_distr_l. change (NT_MASK .& VM_MASK) with 0. now rewrite Z.lor_0_r. Qed.

(** From the moment the new task's registers are in. *)
Lemma load_task_segments_priv t e : priv_ok e -> (tst (t_eflags t) VM_MASK = false -> cpl_of e = aget (t_segs t) R_CS .& 3) ->
  wp (M := M) (when (negb (tst (t_eflags t) VM_MASK))
    (in_order (map (fun i => tss_load_seg i (aget (t_segs t) i)) [R_CS; R_SS; R_ES; R_DS; R_FS; R_GS]))) (fun _ => priv_ok) priv_ok e.
Proof.
  intros H Hc. apply wp_when; [|intros _; exact H]. intros V. apply negb_true_iff in V. cbn [map in_order]. apply wp_bind.
  eapply wp_mono; [apply tss_load_cs_priv; [symmetry; exact (Hc V)|exact H]| |auto]. intros [] e' [H' _]. cbn beta.
  change (wp (M := M) (in_order (map (fun i => tss_load_seg i (aget (t_segs t) i)) [R_SS; R_ES; R_DS; R_FS; R_GS])) (fun _ => priv_ok) priv_ok e').
  apply in_order_priv; [exact H'|]. intros x Hx. apply tss_load_seg_priv. unfold data_reg. cbn in Hx. intuition auto.
Qed.

Lemma wp_when_keep b (c : cpu M unit) Q E e : (forall Q' : unit -> CPUX86State -> Prop, Q' tt e -> wp c Q' E e) -> Q tt e -> wp (when b c) Q E e.
Proof. intros Hc HQ. apply wp_when; auto. Qed.

Lemma update_cr3_priv v : keeps_priv (cpu_x86_update_cr3 v).
Proof.
  intros e H. unfold cpu_x86_update_cr3. wp_steps. apply wp_when; intros _; wp_steps; exact H.
Qed.

(** The second half of a task switch, in the new task. *)
Lemma finish_switch type t e : priv_ok e -> (tst type 8 = false -> tst (t_eflags t) VM_MASK = false) ->
  wp (M := M) (pg ← gets (fun env => tst (aget (cr env) 0) CR0_PG_MASK);
    when (tst type 8 && pg) (cpu_x86_update_cr3 (t_cr3 t));;
    modify (enter_task type t);;
    load_task_ldt (t_ldt t);;
    when (negb (tst (t_eflags t) VM_MASK))
      (in_order (map (fun i => tss_load_seg i (aget (t_segs t) i)) [R_CS; R_SS; R_ES; R_DS; R_FS; R_GS]));;
    lim ← gets (fun env => limit (seg R_CS env));
    raise_if (lim <? t_eip t) EXCP0D_GPF 0;;
    reset_local_breakpoints) (fun _ => priv_ok) priv_ok e.
Proof.
  intros H Ht. wp_step. wp_step. cbn beta. wp_step.
  eapply wp_mono with (Q := fun _ => priv_ok) (E := priv_ok); [|intros [] e1 H1; cbn beta|auto].
  { apply wp_when; intros _; [now apply update_cr3_priv|exact H]. }
  wp_step. wp_step. destruct (enter_task_priv type t e1 (proj1 H1) Ht) as [H2 C2]. set (e2 := enter_task type t e1) in *. clearbody e2.
  wp_step. eapply wp_mono; [now apply load_task_ldt_priv| |auto]. intros [] e3 [H3 C3]. cbn beta. wp_step.
  eapply wp_mono; [apply load_task_segments_priv; [exact H3|now rewrite C3]| |auto]. intros [] e4 H4. cbn beta.
  pose proof (faults_priv _ H4). wp_step. wp_step. cbn beta. wp_step. wp_step. now apply reset_breakpoints_priv.
Qed.

Lemma switch_tss_priv sel e1 e2 source next : keeps_priv (switch_tss sel e1 e2 source next).
Proof.
  intros e H. pose proof (faults_priv _ H) as HF. unfold switch_tss. wp_step. apply wp_gate_of_task; [assumption|]. intros s d1 d2. cbv zeta.
  do 4 (wp_step; cbn beta iota). wp_step. wp_step. cbn beta. wp_step. apply wp_read_task; [assumption|]. intros t Ht. do 4 (wp_step; wp_step; cbn beta iota).
  wp_step. apply wp_when_keep; [intros; apply wp_change_busy; assumption|]. wp_step. wp_step. cbn beta. wp_step. apply wp_save_task; [assumption|].
  wp_step. apply wp_when_keep; [intros; now wp_step|]. set (t' := if bool_decide _ then _ else t).
  assert (tst (type_of d2) 8 = false -> tst (t_eflags t') VM_MASK = false) as Ht'.
  { unfold t'. destruct (bool_decide _); [|exact Ht]. cbn [t_eflags]. now rewrite nt_not_vm. }
  clearbody t'. wp_step. apply wp_when_keep; [intros; apply wp_change_busy; assumption|]. wp_step. wp_step.
  eapply finish_switch; [apply ts_flag_priv; exact H|exact Ht'].
Qed.

(** ** Far jumps *)

Lemma by_gate {A} (P : A -> Prop) x a (b : Z -> A) d : (x = 5 -> P a) -> (x = 6 \/ x = 7 \/ x = 14 \/ x = 15 -> P (b x)) -> P d ->
  P (match x with 5 => a | 6 | 7 | 14 | 15 => b x | _ => d end).
Proof. intros H1 H2 H3. destruct x as [|p|p]; try assumption. do 4 (destruct p as [p|p|]; try assumption; try (apply H1; reflexivity); try (apply H2; tauto)). Qed.

(** The dispatch on a system descriptor's type. *)
Lemma by_type {A} (P : A -> Prop) x a b c d : (x = 1 \/ x = 9 \/ x = 5 -> P a) -> (x = 4 -> P b) -> (x = 12 -> P c) -> P d ->
  P (match x with 1 | 9 | 5 => a | 4 => b | 12 => c | _ => d end).
Proof. intros. destruct x as [|p|p]; try assumption. do 4 (destruct p as [p|p|]; auto). Qed.

Lemma wp_direct_code new_cs e2 cpl Q E e : faults E e ->
  (code_rights cpl e2 = true \/ tst e2 DESC_S_MASK = false -> Q tt e) -> wp (M := M) (direct_code_check new_cs e2 cpl) Q E e.
Proof.
  intros HE H. unfold direct_code_check. cbv zeta. wp_steps. destruct (tst e2 DESC_C_MASK) eqn:C; wp_steps; apply H; unfold code_rights; rewrite C; rights; now auto.
Qed.

Lemma priv_far e new_cs e1 e2 ip : priv_ok e -> code_rights (cpl_of e) e2 = true ->
  priv_ok ((load_descriptor R_CS ((new_cs .& 0xfffc) .| cpl_of e) e1 e2 e) <| eip := ip |>).
Proof. intros H Hr. apply (priv_load_cs _ _ _ _ e); [apply err_rpl, cpl_range|intros _; exact Hr|exact H]. Qed.

Lemma jump_through_gate_priv type new_cs e1 e2 e : priv_ok e -> wp (M := M) (jump_through_gate type new_cs e1 e2 (cpl_of e)) (fun _ => priv_ok) priv_ok e.
Proof.
  intros H. pose proof (faults_priv _ H) as HF. unfold jump_through_gate. cbv zeta. wp_steps. rewrite code_segment in *.
  apply priv_far; [exact H|]. rights.
Qed.

Lemma helper_ljmp_protected_priv new_cs new_eip add : keeps_priv (helper_ljmp_protected new_cs new_eip add).
Proof.
  intros e H. pose proof (faults_priv _ H) as HF. unfold helper_ljmp_protected. cbv zeta. wp_steps. destruct (tst _ DESC_S_MASK) eqn:S.
  - wp_step. apply wp_direct_code; [assumption|]. intros [R|R]; [|congruence]. wp_steps. now apply priv_far.
  - apply (by_type (fun c : cpu M unit => wp c (fun _ => priv_ok) priv_ok e)).
    + intros _. wp_steps. eapply wp_mono; [apply switch_tss_priv; exact H| |auto]. intros [] e' H'. wp_steps. exact H'.
    + intros _. now apply jump_through_gate_priv.
    + intros _. now apply jump_through_gate_priv.
    + wp_steps.
Qed.

(** ** Gates *)

Lemma wp_get_ss_esp dpl Q E e : faults E e -> (forall ss esp, in_u 16 ss -> Q (ss, esp) e) -> wp (M := M) (get_ss_esp_from_tss dpl) Q E e.
Proof.
  intros HE H. unfold get_ss_esp_from_tss. wp_steps. destruct (negb _); [wp_steps|]. cbv zeta. destruct (negb _); [wp_steps|]. wp_steps.
  destruct (_ =? 0); wp_steps; now apply H.
Qed.

Lemma wp_inner_frame dpl Q E e : faults E e ->
  (forall ss e1 e2 esp, in_u 16 ss -> ss .& 0xfffc <> 0 -> ss .& 3 = dpl -> stack_rights dpl e2 = true ->
     Q (mkFrame (Some (ss, e1, e2)) dpl (get_seg_base e1 e2) (get_sp_mask e2) esp) e) -> wp (M := M) (inner_frame dpl) Q E e.
Proof.
  intros HE H. unfold inner_frame, inner_stack. wp_step. wp_step. apply wp_get_ss_esp; [assumption|]. intros ss esp Hss. wp_steps.
  apply H; [assumption|lia|lia|clear H; rights].
Qed.

(** The frames an interrupt may use. *)
Definition frame_ok (f : frame) (e : CPUX86State) : Prop :=
  0 <= f_dpl f <= cpl_of e /\ match f_inner f with
  | Some (ss, e1, e2) => stack_rights (f_dpl f) e2 = true /\ f_dpl f < cpl_of e
  | None => f_dpl f = cpl_of e
  end.

(** CS and the level change together; SS and the data registers already fit. *)
Lemma switch_level c sel e1 e2 e x z (y := load_descriptor R_CS ((sel .& ~~ 3) .| c) e1 e2 x) : priv_ok e -> 0 <= c <= cpl_of e -> code_rights c e2 = true ->
  length (segs x) = 6%nat -> (usable (seg R_SS x) = true -> stack_rights c (flags (seg R_SS x)) = true) ->
  (forall r, data_reg r -> seg r x = seg r e \/ usable (seg r x) = false) ->
  segs z = segs y -> hflags z = hflags (cpu_x86_set_cpl c y) -> priv_ok z /\ cpl_of z = c.
Proof.
  intros H Hc Hr Lx Sx Dx Ez Hz. pose proof (cpl_range e). assert (forall r, seg r z = seg r y) as Sz by (intros r; unfold seg; now rewrite Ez).
  assert (cpl_of z = c) as Cz by (unfold cpl_of; rewrite Hz; apply cpl_set; lia). split; [|exact Cz].
  assert (forall r, 0 <= r < 6 -> seg r z = if r =? R_CS then mkSeg ((sel .& ~~ 3) .| c) (get_seg_base e1 e2) (get_seg_limit e1 e2) e2 else seg r x) as S
    by (intros r Hr0; rewrite Sz; apply seg_load; [exact Lx|exact Hr0|done]).
  apply (priv_commit c e); try assumption.
  - rewrite Ez. unfold y, load_descriptor. now rewrite segs_len_load.
  - lia.
  - rewrite S by done. apply set_rpl. lia.
  - rewrite S by done. intros _. exact Hr.
  - rewrite S by done. exact Sx.
  - intros r Hr0. specialize (Dx r Hr0). rewrite S by (unfold data_reg, R_ES, R_DS, R_FS, R_GS in Hr0; lia).
    rewrite (proj2 (Z.eqb_neq r R_CS)); [exact Dx|]. destruct Hr0 as [-> | [-> | [-> | ->]]]; discriminate.
Qed.

Lemma enter_handler_priv type sel off e1 e2 esp f e : priv_ok e -> frame_ok f e -> code_rights (f_dpl f) e2 = true ->
  priv_ok (enter_handler type sel off e1 e2 esp f e) /\ cpl_of (enter_handler type sel off e1 e2 esp f e) = f_dpl f.
Proof.
  intros H [Hd Hf] Hr. pose proof H as [Hl HP]. pose proof (cpl_range e) as HR. unfold enter_handler.
  set (en := match f_inner f with Some _ => _ | None => e end).
  assert (length (segs en) = 6%nat /\ seg R_SS en = (match f_inner f with Some (ss, s1, s2) => mkSeg ((ss .& ~~ 3) .| f_dpl f) (f_ssp f) (get_seg_limit s1 s2) s2 | None => seg R_SS e end)
    /\ forall r, data_reg r -> seg r en = seg r e \/ usable (seg r en) = false) as (Ln & Sn & Dn).
  { unfold en. destruct (f_inner f) as [[[ss s1] s2]|] eqn:EI; [|split_and!; auto]. unfold load_inner_ss. rewrite EI.
    destruct (tst (eflags e) VM_MASK); cbn [fold_left]; rewrite !segs_len_load; (split; [exact Hl|]); (split; [now seg_calc|]);
      intros r [-> | [-> | [-> | ->]]]; seg_calc; auto. }
  clearbody en. set (x := SET_ESP esp (f_mask f) en).
  match goal with |- priv_ok ?F /\ _ => apply (switch_level (f_dpl f) sel e1 e2 e x F) end; try assumption.
  - change (seg R_SS x) with (seg R_SS en). rewrite Sn. destruct (f_inner f) as [[[ss s1] s2]|]; [intros _; apply Hf|].
    rewrite Hf. exact (pv_stack _ _ _ HP).
  - destruct (_ =? 0); reflexivity.
  - destruct (_ =? 0); reflexivity.
Qed.

(** The frame of an interrupt, and where it leads. *)
Lemma through_gate_priv type g1 g2 intno is_int err old e : priv_ok e ->
  wp (M := M) (interrupt_through_gate type g1 g2 intno is_int err old) (fun _ => priv_ok) priv_ok e.
Proof.
  intros H. pose proof (faults_priv _ H) as HF. pose proof (cpl_range e). unfold interrupt_through_gate. cbv zeta. wp_steps.
  match goal with |- context [negb (tst ?d DESC_C_MASK) && _] => rename d into d2 end.
  assert (0 <= dpl_of d2) by (apply (land_range _ 2 3); [lia|reflexivity]).
  destruct (negb (tst d2 DESC_C_MASK) && (dpl_of d2 <? cpl_of e)) eqn:I.
  - apply wp_inner_frame; [assumption|]. intros ss s1 s2 esp _ _ _ Hs. wp_steps. apply enter_handler_priv; [exact H| |cbn [f_dpl]; rights].
    split; cbn [f_dpl f_inner]; [lia|]. split; [exact Hs|lia].
  - destruct (tst d2 DESC_C_MASK || (dpl_of d2 =? cpl_of e)) eqn:S; [|wp_steps]. wp_steps. apply enter_handler_priv; [exact H|split; cbn [f_dpl f_inner same_frame]; [lia|done]|cbn [f_dpl same_frame]; rights].
Qed.

Lemma do_interrupt_protected_priv intno is_int code next hw : keeps_priv (do_interrupt_protected intno is_int code next hw).
Proof.
  intros e H. pose proof (faults_priv _ H) as HF. unfold do_interrupt_protected. cbv zeta. wp_steps.
  match goal with |- context [?g >> DESC_TYPE_SHIFT] => refine (by_gate (fun c : cpu M unit => wp c (fun _ => priv_ok) priv_ok e) ((g >> DESC_TYPE_SHIFT) .& 0x1f) _
    (fun ty => interrupt_through_gate ty _ g intno is_int _ _) _ _ _ _) end.
  - intros _. wp_steps. eapply wp_mono; [apply switch_tss_priv; exact H| |auto]. intros [] e' H'. cbn beta. pose proof (faults_priv _ H').
    apply wp_when; intros _; [|exact H']. unfold push_task_error_code. wp_steps. destruct (truthy _); wp_steps; exact H'.
  - intros _. now apply through_gate_priv.
  - wp_steps.
Qed.

(** ** Far calls *)

(** The invariant with the registers [out] taken as empty. *)
Definition priv_without (out : Z -> bool) (e : CPUX86State) : Prop :=
  length (segs e) = 6%nat /\ priv (cpl_of e) (tst (eflags e) VM_MASK) (fun r => if out r then seg_zero else seg r e).

(** [new_cs] selects a call gate. *)
Definition gate_call (new_cs : Z) (e : CPUX86State) (m : M) : Prop :=
  exists e1 e2 e' m', load_segment_or EXCP0D_GPF new_cs e m = Done (e1, e2) e' m'
    /\ tst e2 DESC_S_MASK = false /\ ((e2 >> DESC_TYPE_SHIFT) .& 0x1f = 4 \/ (e2 >> DESC_TYPE_SHIFT) .& 0x1f = 12).

(** The way in which a call leaves the invariant: through a call gate to a
    conforming segment of a more privileged level, the level changes without the
    stack.  Every other register fits the new level. *)
Definition conforming_escape (e e' : CPUX86State) : Prop :=
  tst (flags (seg R_CS e')) DESC_C_MASK = true /\ cpl_of e' < cpl_of e /\ seg R_SS e' = seg R_SS e
  /\ priv_without (Z.eqb R_SS) e'.

Lemma load_inner_ss_segs f e : length (segs e) = 6%nat -> length (segs (load_inner_ss f e)) = 6%nat
  /\ (forall r, data_reg r -> seg r (load_inner_ss f e) = seg r e)
  /\ match f_inner f with Some (ss, s1, s2) => flags (seg R_SS (load_inner_ss f e)) = s2 | None => load_inner_ss f e = e end.
Proof.
  intros Hl. unfold load_inner_ss. destruct (f_inner f) as [[[ss s1] s2]|]; [|auto]. rewrite segs_len_load. split; [done|].
  split; [|now seg_calc]. intros r [-> | [-> | [-> | ->]]]; now seg_calc.
Qed.

Lemma call_commit_priv f sel off e1 e2 sp e : priv_ok e ->
  match f_inner f with Some (ss, s1, s2) => stack_rights (dpl_of e2) s2 = true | None => dpl_of e2 = cpl_of e end ->
  dpl_of e2 <= cpl_of e -> code_rights (dpl_of e2) e2 = true ->
  priv_ok ((SET_ESP sp (f_mask f) (cpu_x86_set_cpl (dpl_of e2) (load_descriptor R_CS ((sel .& ~~ 3) .| dpl_of e2) e1 e2 (load_inner_ss f e)))) <| eip := off |>).
Proof.
  intros H Hf Hd Hr. destruct (load_inner_ss_segs f e (proj1 H)) as (L & D & SS). set (en := load_inner_ss f e) in *. clearbody en.
  apply (switch_level (dpl_of e2) sel e1 e2 e en); try assumption; try reflexivity.
  - split; [|exact Hd]. apply (land_range _ 2 3); [lia|reflexivity].
  - destruct (f_inner f) as [[[ss s1] s2]|]; [rewrite SS; now intros _|]. subst en. rewrite Hf. exact (pv_stack _ _ _ (proj2 H)).
  - intros r Hr0. left. auto.
Qed.

(** Where the stack stays although the level changes. *)
Lemma escape_commit sel off e1 e2 sp mask e (z := (SET_ESP sp mask (cpu_x86_set_cpl (dpl_of e2) (load_descriptor R_CS ((sel .& ~~ 3) .| dpl_of e2) e1 e2 e))) <| eip := off |>) :
  priv_ok e -> dpl_of e2 < cpl_of e -> code_rights (dpl_of e2) e2 = true -> tst e2 DESC_C_MASK = true -> conforming_escape e z.
Proof.
  intros [Hl P] Hd Hr C. assert (0 <= dpl_of e2 <= 3) as Hd3 by (apply (land_range _ 2 3); [lia|reflexivity]). unfold z. clear z. set (y := load_descriptor _ _ _ _ e).
  match goal with |- conforming_escape _ ?v => assert (segs v = segs y) as Ez by reflexivity; assert (cpl_of v = cpl_of (cpu_x86_set_cpl (dpl_of e2) y)) as Cz by reflexivity; set (w := v) in *; clearbody w end.
  rewrite cpl_set in Cz by exact Hd3.
  assert (length (segs y) = 6%nat /\ forall r, 0 <= r < 6 -> seg r y = if r =? R_CS then mkSeg ((sel .& ~~ 3) .| dpl_of e2) (get_seg_base e1 e2) (get_seg_limit e1 e2) e2 else seg r e) as [Ly Sy].
  { unfold y, load_descriptor. split; [now rewrite segs_len_load|]. intros r Hr0. now apply seg_load. }
  assert (forall r, 0 <= r < 6 -> seg r w = if r =? R_CS then mkSeg ((sel .& ~~ 3) .| dpl_of e2) (get_seg_base e1 e2) (get_seg_limit e1 e2) e2 else seg r e) as S
    by (intros r Hr0; rewrite (seg_of_segs r _ _ Ez); auto).
  unfold conforming_escape, priv_without. rewrite Cz, Ez, !S by done. do 3 (split; [try exact C; try exact Hd; reflexivity|]). split; [exact Ly|].
  constructor; cbn beta iota; try discriminate.
  - change (R_SS =? R_CS) with false. cbn iota. rewrite S by done. left. apply set_rpl. exact Hd3.
  - change (R_SS =? R_CS) with false. cbn iota. rewrite S by done. intros _. exact Hr.
  - intros r Hr0 U. assert (seg r w = seg r e) as E by (destruct Hr0 as [-> | [-> | [-> | ->]]]; now rewrite S).
    assert ((R_SS =? r) = false) as N by (destruct Hr0 as [-> | [-> | [-> | ->]]]; reflexivity). rewrite N, E in *.
    apply (data_rights_mono (cpl_of e)); [lia|]. now apply (pv_data _ _ _ P).
  - intros r Hr0. assert (seg r w = seg r e) as E by (destruct Hr0 as [-> | ->]; now rewrite S).
    assert ((R_SS =? r) = false) as N by (destruct Hr0 as [-> | ->]; reflexivity). rewrite N, E. exact (pv_null _ _ _ P r Hr0).
Qed.

Lemma call_gate_priv type new_cs g1 g2 next e : priv_ok e ->
  wp (M := M) (call_through_gate type new_cs g1 g2 (cpl_of e) next) (fun _ e' => priv_ok e' \/ conforming_escape e e') priv_ok e.
Proof.
  intros H. pose proof (faults_priv _ H) as HF. unfold call_through_gate. cbv zeta. wp_steps.
  match goal with |- context [negb (tst ?d DESC_C_MASK) && _] => rename d into d2 end.
  destruct (negb (tst d2 DESC_C_MASK) && (dpl_of d2 <? cpl_of e)) eqn:I; wp_step.
  - apply wp_inner_frame; [assumption|]. intros ss s1 s2 esp _ _ _ Hs. wp_steps. left.
    apply (call_commit_priv (mkFrame (Some (ss, s1, s2)) _ _ _ _)); [exact H|exact Hs|lia|rights].
  - wp_steps. destruct (Z.eqb_spec (dpl_of d2) (cpl_of e)) as [E|E].
    + left. apply (call_commit_priv (mkFrame None _ _ _ _)); [exact H|exact E|lia|rights].
    + right. unfold load_inner_ss. cbn [same_frame f_inner f_mask]. apply escape_commit; [exact H|lia|rights|rights].
Qed.

Lemma bind_gets {A B} (f : CPUX86State -> A) (k : A -> cpu M B) e m : (gets f ≫= k) e m = k (f e) e m.
Proof. reflexivity. Qed.
Lemma bind_pass {B} n c (k : unit -> cpu M B) e m : (raise_if false n c ≫= k) e m = k tt e m.
Proof. reflexivity. Qed.

(** Which branch a call takes is decided by the descriptor it finds first. *)
Lemma helper_lcall_protected_priv new_cs new_eip shift add e m : priv_ok e ->
  match helper_lcall_protected new_cs new_eip shift add e m with
  | Done _ e' _ => priv_ok e' \/ (gate_call new_cs e m /\ conforming_escape e e')
  | Raised e' _ => priv_ok e'
  | Aborted => True
  end.
Proof.
  intros H. pose proof (faults_priv _ H) as HF. unfold helper_lcall_protected. cbv zeta.
  rewrite bind_gets. destruct (_ =? 0); [exact (HF _ (same_raise _ _ _))|]. rewrite bind_pass.
  match goal with |- context [(load_segment_or _ _ ≫= ?k) e m] => set (K := k) end.
  assert (forall e1 e2, wp (K (e1, e2)) (fun _ e' => priv_ok e' \/
      ((tst e2 DESC_S_MASK = false /\ ((e2 >> DESC_TYPE_SHIFT) .& 0x1f = 4 \/ (e2 >> DESC_TYPE_SHIFT) .& 0x1f = 12)) /\ conforming_escape e e')) priv_ok e) as HK.
  { intros e1 e2. unfold K. cbn beta iota. do 2 (wp_step; cbn beta iota zeta). destruct (tst e2 DESC_S_MASK) eqn:S.
    - wp_step. apply wp_direct_code; [assumption|]. intros [R|R]; [|congruence]. wp_steps. left. now apply (priv_far (SET_ESP _ _ e)).
    - match goal with |- wp _ ?post _ _ => set (QQ := post) end. apply (by_type (fun c : cpu M unit => wp c QQ priv_ok e)); unfold QQ.
      + intros _. wp_steps. eapply wp_mono; [apply switch_tss_priv; exact H| |auto]. intros [] e' H'. wp_steps. left. exact H'.
      + intros T. eapply wp_mono; [now apply call_gate_priv| |auto]. cbn beta. intros _ e' [P|P]; auto.
      + intros T. eapply wp_mono; [now apply call_gate_priv| |auto]. cbn beta. intros _ e' [P|P]; auto 6.
      + wp_steps. }
  clearbody K. unfold mbind, cpu_bind.
  pose proof (wp_load_segment_or EXCP0D_GPF new_cs (fun _ e' => e' = e) priv_ok e HF (fun _ _ => eq_refl) m) as WL.
  destruct (load_segment_or EXCP0D_GPF new_cs e m) as [[e1 e2] e0 m1|e0 m1|] eqn:EL; [|exact WL|exact I]. cbn beta in WL. subst e0.
  specialize (HK e1 e2 m1). destruct (K (e1, e2) e m1) as [[] e' m'|e' m'|]; [|exact HK|exact I].
  destruct HK as [P|[[S T] P]]; [now left|right]. split; [|exact P]. exists e1, e2, e, m1. auto.
Qed.

(** ** Returns *)

Lemma wp_return_cs new_cs cpl Q E e : faults E e -> (forall e1 e2, code_rights (new_cs .& 3) e2 = true -> cpl <= new_cs .& 3 -> Q (e1, e2) e) ->
  wp (M := M) (return_code_segment new_cs cpl) Q E e.
Proof.
  intros HE H. unfold return_code_segment. cbv zeta. wp_steps. apply H; [clear H; rights|lia].
Qed.

Lemma wp_return_ss new_ss rpl Q E e : faults E e -> (forall e1 e2, stack_rights rpl e2 = true -> Q (e1, e2) e) ->
  wp (M := M) (return_stack_segment new_ss rpl) Q E e.
Proof. intros HE H. unfold return_stack_segment. cbv zeta. wp_steps. apply H. clear H; rights. Qed.

(** A data register after [validate_seg] is fit for the level, the others are as
    before. *)
Lemma validate_seg_ok r c old e (e' := validate_seg r c e) : data_reg r -> length (segs e) = 6%nat ->
  (usable (seg r e) = true -> data_rights old (flags (seg r e)) = true) ->
  (r = R_FS \/ r = R_GS -> selector (seg r e) .& 0xfffc = 0 -> usable (seg r e) = false) ->
  length (segs e') = 6%nat /\ cpl_of e' = cpl_of e /\ eflags e' = eflags e
  /\ (forall k, 0 <= k < 6 -> k <> r -> seg k e' = seg k e)
  /\ (usable (seg r e') = true -> data_rights c (flags (seg r e')) = true)
  /\ (r = R_FS \/ r = R_GS -> selector (seg r e') .& 0xfffc = 0 -> usable (seg r e') = false).
Proof.
  intros Hr Hl Hd Hn. assert (0 <= r < 6) as Rr by (unfold data_reg, R_ES, R_DS, R_FS, R_GS in Hr; lia). unfold e', validate_seg. cbv zeta.
  destruct (((r =? R_FS) || (r =? R_GS)) && (selector (seg r e) .& 0xfffc =? 0)) eqn:N.
  - split_and!; auto. intros U. rewrite Hn in U; [discriminate| |]; lia.
  - match goal with |- context [if ?b then cpu_x86_load_seg_cache _ _ _ _ _ _ else _] => destruct b eqn:V end.
    + rewrite segs_len_load, cpl_load, eflags_load. do 3 (split; [done|]). split.
      { intros k Hk Hne. rewrite seg_load by assumption. now rewrite (proj2 (Z.eqb_neq k r)). }
      rewrite seg_load, Z.eqb_refl by assumption. split; [discriminate|reflexivity].
    + split_and!; auto. intros U. specialize (Hd U). rights.
Qed.

Definition fits (c : Z) (r : Z) (e : CPUX86State) : Prop :=
  (usable (seg r e) = true -> data_rights c (flags (seg r e)) = true)
  /\ (r = R_FS \/ r = R_GS -> selector (seg r e) .& 0xfffc = 0 -> usable (seg r e) = false).

Lemma fits_same c r e e' : seg r e' = seg r e -> fits c r e -> fits c r e'.
Proof. unfold fits. now intros ->. Qed.

Lemma validate_all l c old x : Forall data_reg l -> NoDup l -> length (segs x) = 6%nat -> (forall r, In r l -> fits old r x) ->
  let z := fold_left (fun e r => validate_seg r c e) l x in
  length (segs z) = 6%nat /\ cpl_of z = cpl_of x /\ eflags z = eflags x
  /\ (forall r, In r l -> fits c r z) /\ (forall k, 0 <= k < 6 -> ~ In k l -> seg k z = seg k x).
Proof.
  revert x. induction l as [|r l IH]; intros x HF HN Hl Ho; cbn [fold_left]; [split_and!; auto; now intros r []|].
  apply List.Forall_cons_iff in HF. destruct HF as [Hr HF]. pose proof (NoDup_cons_1_1 _ _ HN) as Hni. apply NoDup_cons_1_2 in HN.
  assert (forall k, data_reg k -> 0 <= k < 6) as RD by (intros k; unfold data_reg, R_ES, R_DS, R_FS, R_GS; lia).
  destruct (Ho r) as [O1 O2]; [now left|]. destruct (validate_seg_ok r c old x Hr Hl O1 O2) as (A1 & A2 & A3 & A4 & A5 & A6).
  set (y := validate_seg r c x) in *. clearbody y.
  assert (~ In r l) as Hni' by (now rewrite <- list_elem_of_In).
  destruct (IH y HF HN A1) as (B1 & B2 & B3 & B4 & B5).
  { intros k Hk. apply (fits_same old k x); [|apply Ho; now right]. apply A4; [|intros ->; contradiction]. apply RD. rewrite List.Forall_forall in HF. auto. }
  split; [exact B1|]. split; [congruence|]. split; [congruence|]. split.
  - intros k [<-|Hk]; [|auto]. apply (fits_same c r y); [apply B5; auto|now split].
  - intros k Hk Hn. rewrite B5, A4; [reflexivity|exact Hk|intros ->; apply Hn; now left|exact Hk|intros Hin; apply Hn; now right].
Qed.

Lemma data_regs : Forall data_reg [R_ES; R_DS; R_FS; R_GS] /\ NoDup [R_ES; R_DS; R_FS; R_GS].
Proof.
  split; [|apply (bool_decide_eq_true_1 (NoDup [R_ES; R_DS; R_FS; R_GS])); reflexivity].
  repeat (apply List.Forall_cons; [unfold data_reg; auto|]). apply List.Forall_nil.
Qed.

Lemma enter_outer_priv new_ss s1 s2 new_cs e1 e2 rpl e (z := enter_outer new_ss s1 s2 new_cs e1 e2 rpl e) : priv_ok e ->
  new_cs .& 3 = rpl -> code_rights rpl e2 = true -> stack_rights rpl s2 = true ->
  priv_ok z /\ cpl_of z = rpl /\ eflags z = eflags e.
Proof.
  intros [Hl [P1 P2 P3 P4 P5]] Hc Hcs Hss. unfold z, enter_outer. set (x := cpu_x86_set_cpl rpl _).
  assert (0 <= rpl <= 3) as Hr by (rewrite <- Hc; apply (land_range _ 2 3); [lia|reflexivity]).
  assert (length (segs x) = 6%nat) as Lx by (change (segs x) with (segs (load_descriptor R_CS new_cs e1 e2 (load_descriptor R_SS new_ss s1 s2 e))); unfold load_descriptor; now rewrite !segs_len_load).
  assert (cpl_of x = rpl) as Cx by now apply cpl_set.
  assert (eflags x = eflags e) as Ex by (change (eflags x) with (eflags (load_descriptor R_CS new_cs e1 e2 (load_descriptor R_SS new_ss s1 s2 e))); unfold load_descriptor; now rewrite !eflags_load).
  assert (forall r, seg r x = seg r (load_descriptor R_CS new_cs e1 e2 (load_descriptor R_SS new_ss s1 s2 e))) as Sx by reflexivity.
  assert (flags (seg R_CS x) = e2 /\ selector (seg R_CS x) = new_cs /\ flags (seg R_SS x) = s2 /\ forall r, data_reg r -> seg r x = seg r e) as (X1 & X2 & X3 & X4).
  { rewrite !Sx. unfold load_descriptor. seg_calc. do 3 (split; [reflexivity|]). intros r Hd. rewrite Sx. unfold load_descriptor. destruct Hd as [-> | [-> | [-> | ->]]]; now seg_calc. }
  clearbody x. clear Sx.
  destruct (validate_all [R_ES; R_DS; R_FS; R_GS] rpl (cpl_of e) x) as (A1 & A2 & A3 & A4 & A5); [apply data_regs|apply data_regs|exact Lx| |].
  { intros r Hin. assert (data_reg r) as Hd by (unfold data_reg; cbn in Hin; intuition auto). apply (fits_same _ _ e); [now apply X4|]. split; [now apply P4|intros Hf; now apply P5]. }
  cbv zeta in *. set (w := fold_left _ _ x) in *. clearbody w. split; [|split; congruence].
  assert (seg R_CS w = seg R_CS x) as W1 by (apply A5; [done|cbn; intuition discriminate]).
  assert (seg R_SS w = seg R_SS x) as W2 by (apply A5; [done|cbn; intuition discriminate]).
  split; [exact A1|]. rewrite A2, Cx. constructor; cbn beta; rewrite ?W1, ?W2, ?X1, ?X2, ?X3; auto.
  - intros r Hd. apply (proj1 (A4 r ltac:(unfold data_reg in Hd; cbn; intuition auto))).
  - intros r Hd. apply (proj2 (A4 r ltac:(cbn; intuition auto)) Hd).
Qed.

(** The iret path into virtual-8086 mode. *)
Lemma load_seg_vm_eq r s e : load_seg_vm r s e = cpu_x86_load_seg_cache r (s .& 0xffff) (u32 ((s .& 0xffff) << 4)) 0xffff 0 e.
Proof. reflexivity. Qed.

Lemma load_vm86_segs_ok cs ss es ds fs gs e : length (segs e) = 6%nat ->
  let x := load_vm86_segs cs ss es ds fs gs e in
  length (segs x) = 6%nat /\ eflags x = eflags e /\ cpl_of x = 3 /\ forall k, 0 <= k < 6 -> flags (seg k x) = 0.
Proof.
  intros Hl. cbv zeta. unfold load_vm86_segs. rewrite !load_seg_vm_eq.
  set (y1 := cpu_x86_load_seg_cache R_CS _ _ _ _ e).
  assert (length (segs y1) = 6%nat /\ eflags y1 = eflags e /\ flags (seg R_CS y1) = 0) as (L0 & F0 & S0).
  { unfold y1. rewrite segs_len_load, eflags_load. seg_calc. auto. }
  clearbody y1. destruct (set_cpl_same 3 y1) as [S F]. pose proof (cpl_set 3 y1 ltac:(lia)) as C2.
  generalize dependent (cpu_x86_set_cpl 3 y1). intros y S F C2. assert (length (segs y) = 6%nat) as L2 by congruence.
  assert (flags (seg R_CS y) = 0) as S2 by (now rewrite (seg_of_segs R_CS _ _ S)).
  rewrite !segs_len_load, !eflags_load, !cpl_load. split; [exact L2|]. split; [congruence|]. split; [exact C2|]. intros k Hk.
  assert (k = 0 \/ k = 1 \/ k = 2 \/ k = 3 \/ k = 4 \/ k = 5) as Hc by lia. repeat destruct Hc as [-> | Hc]; try subst k; seg_calc; try reflexivity. exact S2.
Qed.

Lemma enter_vm86_priv ip cs fl sp ss es ds fs gs e : tst fl VM_MASK = true -> length (segs e) = 6%nat ->
  let z := enter_vm86 ip cs fl sp ss es ds fs gs e in priv_ok z /\ cpl_of z = 3 /\ tst (eflags z) VM_MASK = true.
Proof.
  intros V Hl. cbv zeta. unfold enter_vm86. set (e1 := load_eflags _ _ e).
  assert (tst (eflags e1) VM_MASK = true) as V1.
  { unfold VM_MASK in *. change 0x20000 with (1 << 17) in *. rewrite tst_bit in * by lia. unfold e1. rewrite load_eflags_bit, s32_bits by lia. exact V. }
  assert (length (segs e1) = 6%nat) as L1 by exact Hl. clearbody e1.
  destruct (load_vm86_segs_ok cs ss es ds fs gs e1 L1) as (L3 & F3 & C3 & S3).
  generalize dependent (load_vm86_segs cs ss es ds fs gs e1). intros x L3 F3 C3 S3.
  split; [|split; [exact C3|change (tst (eflags x) VM_MASK = true); now rewrite F3]].
  apply (priv_unusable (set_reg R_ESP sp (x <| eip := ip .& 0xffff |>))); [exact L3|exact S3|].
  right. split; [|exact C3]. change (tst (eflags x) VM_MASK = true). now rewrite F3.
Qed.

Lemma return_to_vm86_priv ip cs fl ssp mask sp e : tst fl VM_MASK = true -> priv_ok e ->
  wp (M := M) (return_to_vm86 ip cs fl ssp mask sp) (fun _ e' => priv_ok e' /\ cpl_of e' = 3 /\ tst (eflags e') VM_MASK = true) priv_ok e.
Proof.
  intros V H. pose proof (faults_priv _ H) as HF. unfold return_to_vm86. wp_steps. apply enter_vm86_priv; [exact V|exact (proj1 H)].
Qed.

(** What a return may do: it never gains privilege; below level 0 the I/O
    privilege level stays, and below the I/O privilege level the interrupt flag.
    The return to virtual-8086 mode is told by the flag it sets. *)
Definition return_post (e e' : CPUX86State) : Prop :=
  priv_ok e' /\ cpl_of e <= cpl_of e'
  /\ (tst (eflags e') VM_MASK = tst (eflags e) VM_MASK ->
      (0 < cpl_of e -> eflags e' .& IOPL_MASK = eflags e .& IOPL_MASK)
      /\ ((eflags e >> IOPL_SHIFT) .& 3 < cpl_of e -> tst (eflags e') IF_MASK = tst (eflags e) IF_MASK)).


Lemma iret_mask_bits c shift e : Z.testbit (iret_eflags_mask c shift e) 17 = false
  /\ (0 < c -> Z.testbit (iret_eflags_mask c shift e) 12 = false /\ Z.testbit (iret_eflags_mask c shift e) 13 = false)
  /\ ((eflags e >> IOPL_SHIFT) .& 3 < c -> Z.testbit (iret_eflags_mask c shift e) 9 = false).
Proof.
  unfold iret_eflags_mask. cbv zeta. split_and!; intros; [|split|]; destruct (Z.eqb_spec c 0), (Z.leb_spec c ((eflags e >> IOPL_SHIFT) .& 3)), (shift =? 0);
    try lia; reflexivity.
Qed.

Lemma testbit_tst x y k : 0 <= k -> Z.testbit x k = Z.testbit y k -> tst x (1 << k) = tst y (1 << k).
Proof. intros Hk H. now rewrite !tst_bit. Qed.

Lemma iret_flags fl c shift e (z := load_eflags fl (iret_eflags_mask c shift e) e) :
  tst (eflags z) VM_MASK = tst (eflags e) VM_MASK
  /\ (0 < c -> eflags z .& IOPL_MASK = eflags e .& IOPL_MASK)
  /\ ((eflags e >> IOPL_SHIFT) .& 3 < c -> tst (eflags z) IF_MASK = tst (eflags e) IF_MASK).
Proof.
  destruct (iret_mask_bits c shift e) as (M1 & M2 & M3). unfold z. split_and!.
  - apply (testbit_tst _ _ 17); [lia|]. now rewrite load_eflags_bit, M1 by lia.
  - intros Hc. specialize (M2 Hc). apply Z.bits_inj'. intros k Hk. rewrite !Z.land_spec.
    destruct (Z.testbit IOPL_MASK k) eqn:B; [|now rewrite !andb_false_r]. rewrite !andb_true_r.
    assert (k = 12 \/ k = 13) as [-> | ->].
    { change IOPL_MASK with ((1 << 12) .| (1 << 13)) in B. rewrite Z.lor_spec, !testbit_one_shift in B by lia. lia. }
    + now rewrite load_eflags_bit, (proj1 M2) by lia.
    + now rewrite load_eflags_bit, (proj2 M2) by lia.
  - intros Hc. apply (testbit_tst _ _ 9); [lia|]. now rewrite load_eflags_bit, M3 by lia.
Qed.

(** The last step of a return, from the state with the segments loaded. *)
Lemma finish_return e x sp mask ip fl shift is_iret : priv_ok x -> cpl_of e <= cpl_of x -> eflags x = eflags e ->
  return_post e (let env := (SET_ESP sp mask x) <| eip := ip |> in
                 if truthy is_iret then load_eflags (s32 fl) (iret_eflags_mask (cpl_of e) shift env) env else env).
Proof.
  intros H Hc Ef. cbv zeta. set (y := (SET_ESP sp mask x) <| eip := ip |>).
  assert (priv_ok y /\ cpl_of y = cpl_of x /\ eflags y = eflags e) as (Hy & Cy & Fy) by (split; [exact H|]; split; [reflexivity|exact Ef]).
  clearbody y. destruct (truthy is_iret); [|split; [exact Hy|]; rewrite Cy, Fy; auto].
  destruct (iret_flags (s32 fl) (cpl_of e) shift y) as (V & I1 & I2). set (z := load_eflags _ _ y) in *.
  assert (segs z = segs y /\ hflags z = hflags y) as [Sz Hz] by (split; reflexivity). clearbody z. rewrite Fy in *.
  assert (cpl_of z = cpl_of y) as Cz by (unfold cpl_of; now rewrite Hz).
  split; [|split; [lia|auto]]. destruct Hy as [Ly Py]. split; [now rewrite Sz|]. unfold seg in *. rewrite Cz, V, Sz. rewrite Fy in Py. exact Py.
Qed.

Lemma ret_protected_priv shift is_iret addend e : priv_ok e -> tst (eflags e) VM_MASK = false ->
  wp (M := M) (helper_ret_protected shift is_iret addend) (fun _ => return_post e) priv_ok e.
Proof.
  intros H V. pose proof (faults_priv _ H) as HF. unfold helper_ret_protected. wp_step. wp_step. cbn beta. change (id e) with e.
  set (mask := get_sp_mask _). clearbody mask. set (ssp := base _). clearbody ssp. generalize (reg R_ESP e). intros sp0. cbv beta zeta.
  wp_step. wp_step. cbn beta iota. wp_step. wp_step. cbn beta iota. set (cs := if shift =? 1 then _ else _). clearbody cs. wp_step.
  eapply (wp_mono _ (fun _ e' => e' = e) _ priv_ok); [destruct (truthy is_iret); wp_step; reflexivity| |auto].
  intros [fl sp] e' ->. destruct (truthy is_iret && (shift =? 1) && tst fl VM_MASK) eqn:VM.
  - eapply wp_mono; [apply return_to_vm86_priv; [|exact H]; destruct (tst fl VM_MASK); [done|now rewrite andb_false_r in VM]| |auto].
    intros [] e' (P & C & V'). split; [exact P|]. split; [rewrite C; apply cpl_range|]. congruence.
  - wp_step. wp_step. wp_step. apply wp_return_cs; [assumption|]. intros e1 e2 Rc Hc. cbn beta iota. wp_step. wp_step. cbn beta. wp_step.
    destruct ((cs .& 3 =? cpl_of e) && _) eqn:Same.
    + wp_step. wp_step. wp_step. cbn beta iota. wp_step. apply andb_true_iff in Same. destruct Same as [Same _]. apply Z.eqb_eq in Same. rewrite Same in Rc.
      apply finish_return; [apply priv_load_cs; auto|unfold load_descriptor; rewrite cpl_load; lia|apply eflags_load].
    + wp_step. wp_step. cbn beta iota. wp_step. wp_step. cbn beta iota. wp_step. apply wp_return_ss; [assumption|]. intros s1 s2 Rs. cbn beta iota.
      match goal with |- context [enter_outer ?ss _ _ _ _ _ _] => destruct (enter_outer_priv ss s1 s2 cs e1 e2 (cs .& 3) e H eq_refl Rc Rs) as (P & C & F) end.
      wp_step. wp_step. wp_step. cbn beta iota. wp_step. apply finish_return; [exact P|rewrite C; exact Hc|exact F].
Qed.

Lemma helper_iret_protected_priv shift next e : priv_ok e -> tst (eflags e) VM_MASK = false ->
  wp (M := M) (helper_iret_protected shift next) (fun _ => priv_ok) priv_ok e.
Proof.
  intros H V. pose proof (faults_priv _ H) as HF. unfold helper_iret_protected. wp_step. wp_step. change (id e) with e. wp_step.
  eapply (wp_mono _ (fun _ => priv_ok) _ priv_ok); [|intros [] e' H'; wp_step; exact H'|auto].
  destruct (tst (eflags e) NT_MASK).
  - wp_step. wp_step. cbv zeta. wp_step. wp_step. wp_step. wp_step. cbn beta iota. wp_step. wp_step. now apply switch_tss_priv.
  - eapply wp_mono; [now apply ret_protected_priv| |auto]. intros [] e' (P & _). exact P.
Qed.

(** ** Fast system calls *)

Lemma flat_rights d : 0 <= d <= 3 -> code_rights d (flat_code d) = true /\ stack_rights d (flat_data d) = true.
Proof. intros Hd. assert (d = 0 \/ d = 1 \/ d = 2 \/ d = 3) as [-> | [-> | [-> | ->]]] by lia; now split. Qed.

(** The flat segments of SYSENTER and SYSEXIT: what they leave out is the data
    registers, which stay. *)
Definition data_regb (r : Z) : bool := existsb (Z.eqb r) [R_ES; R_DS; R_FS; R_GS].

Lemma flat_switch d cs ss e e0 (z := flat_segments d cs ss e0) : length (segs e) = 6%nat -> 0 <= d <= 3 -> cs .& 3 = d -> segs e0 = segs e ->
  priv_without data_regb z /\ cpl_of z = d /\ forall r, data_reg r -> seg r z = seg r e.
Proof.
  intros Hl Hd Hc S0. unfold z, flat_segments. clear z. destruct (set_cpl_same d e0) as [Sx _]. pose proof (cpl_set d e0 Hd) as Cx. rewrite S0 in Sx.
  cbv zeta. generalize dependent (cpu_x86_set_cpl d e0). intros x Sx Cx. assert (length (segs x) = 6%nat) as Lx by congruence. destruct (flat_rights d Hd) as [R1 R2].
  unfold priv_without. rewrite !cpl_load, !segs_len_load, Cx. split; [split; [exact Lx|]|split; [reflexivity|]].
  - constructor; cbn beta.
    + seg_calc. now left.
    + seg_calc. intros _. exact R1.
    + seg_calc. intros _. exact R2.
    + intros r [-> | [-> | [-> | ->]]]; discriminate.
    + intros r [-> | ->]; reflexivity.
  - intros r Hr. rewrite <- (seg_of_segs r _ _ Sx). destruct Hr as [-> | [-> | [-> | ->]]]; now seg_calc.
Qed.

(** With data registers that fit, that is the invariant. *)
Lemma flat_priv e e' : priv_without data_regb e' -> (forall r, data_reg r -> seg r e' = seg r e) -> (forall r, data_reg r -> fits (cpl_of e') r e) -> priv_ok e'.
Proof.
  intros [L P] D F. split; [exact L|]. constructor; cbn beta.
  - exact (pv_level _ _ _ P).
  - exact (pv_code _ _ _ P).
  - exact (pv_stack _ _ _ P).
  - intros r Hr. rewrite D by exact Hr. apply (F r Hr).
  - intros r Hr. assert (data_reg r) as Hd by (unfold data_reg; tauto). rewrite D by exact Hd. now apply F.
Qed.

(** A stack pointer and an instruction pointer are no part of it. *)
Lemma priv_esp_eip r v ip x : priv_ok x -> priv_ok ((set_reg r v x) <| eip := ip |>).
Proof. exact id. Qed.

Lemma priv_fits d e r : priv_ok e -> d <= cpl_of e -> data_reg r -> fits d r e.
Proof.
  intros [_ P] Hd Hr. split; [|now apply (pv_null _ _ _ P)]. intros U. apply (data_rights_mono (cpl_of e)); [exact Hd|]. now apply (pv_data _ _ _ P).
Qed.

Lemma helper_sysenter_priv : keeps_priv helper_sysenter.
Proof.
  intros e H. pose proof (faults_priv _ H) as HF. unfold helper_sysenter. wp_step. wp_step. cbn beta. wp_step. wp_step. wp_step.
  apply priv_esp_eip. match goal with |- priv_ok (flat_segments 0 ?cs ?ss ?e0) => destruct (flat_switch 0 cs ss e e0 (proj1 H)) as (P & C & D); [lia| |reflexivity|] end.
  - rewrite <- Z.land_assoc. change (0xfffc .& 3) with 0. apply Z.land_0_r.
  - apply (flat_priv e); [exact P|exact D|]. intros r Hr. rewrite C. apply priv_fits; [exact H|apply cpl_range|exact Hr].
Qed.

(** The other way to leave the invariant: SYSEXIT looks at no data register, so
    one that the kernel left loaded stays usable at level 3. *)
Definition sysexit_escape (e e' : CPUX86State) : Prop :=
  cpl_of e = 0 /\ cpl_of e' = 3 /\ priv_without data_regb e' /\ (forall r, data_reg r -> seg r e' = seg r e)
  /\ exists r, data_reg r /\ usable (seg r e) = true /\ data_rights 3 (flags (seg r e)) = false.

Definition unfit (e : CPUX86State) (r : Z) : bool := usable (seg r e) && negb (data_rights 3 (flags (seg r e))).

Lemma helper_sysexit_priv dflag e : priv_ok e -> wp (M := M) (helper_sysexit dflag) (fun _ e' => priv_ok e' \/ sysexit_escape e e') priv_ok e.
Proof.
  intros H. pose proof (faults_priv _ H) as HF. unfold helper_sysexit. do 4 (wp_step; cbn beta). wp_step. wp_step. wp_step.
  match goal with |- context [flat_segments 3 ?cs ?ss ?e0] => destruct (flat_switch 3 cs ss e e0 (proj1 H)) as (P & C & D); [lia|apply err_rpl; lia|reflexivity|]; set (z := flat_segments 3 cs ss e0) in * end.
  clearbody z. destruct (existsb (unfit e) [R_ES; R_DS; R_FS; R_GS]) eqn:X.
  - right. apply existsb_exists in X. destruct X as (r & Hin & U). unfold unfit in U. apply andb_true_iff in U. destruct U as [U1 U2].
    assert (cpl_of e = 0) as C0 by lia. split; [exact C0|]. split; [exact C|]. split; [exact P|]. split; [exact D|].
    exists r. split; [unfold data_reg; cbn in Hin; intuition auto|]. split; [exact U1|]. now destruct (data_rights _ _).
  - left. apply priv_esp_eip, (flat_priv e); [exact P|exact D|]. intros r Hr. rewrite C. split; [|now apply (pv_null _ _ _ (proj2 H))].
    intros U. assert (unfit e r = false) as N.
    { destruct (unfit e r) eqn:N; [|done]. rewrite <- X. symmetry. apply existsb_exists. exists r. split; [unfold data_reg in Hr; cbn; intuition auto|exact N]. }
    unfold unfit in N. rewrite U in N. now destruct (data_rights _ _).
Qed.

(** ** All of it *)

(** The operations of protected mode that load segments or change the level. *)
Inductive sys_op :=
| LoadSeg (seg_reg sel : Z)
| LoadLdt (sel : Z)
| LoadTr (sel : Z)
| FarJump (new_cs new_eip addend : Z)
| FarCall (new_cs new_eip shift addend : Z)
| FarRet (shift addend : Z)
| InterruptRet (shift next_eip : Z)
| Interrupt (intno is_int error_code next_eip is_hw : Z)
| Sysenter
| Sysexit (dflag : Z).

Definition sys_run (o : sys_op) : cpu M unit :=
  match o with
  | LoadSeg r sel => helper_load_seg r sel
  | LoadLdt sel => helper_lldt sel
  | LoadTr sel => helper_ltr sel
  | FarJump cs ip n => helper_ljmp_protected cs ip n
  | FarCall cs ip shift n => helper_lcall_protected cs ip shift n
  | FarRet shift n => helper_lret_protected shift n
  | InterruptRet shift next => helper_iret_protected shift next
  | Interrupt n i c next hw => do_interrupt_protected n i c next hw
  | Sysenter => helper_sysenter
  | Sysexit dflag => helper_sysexit dflag
  end.

(** When the translator emits the operation: CS is never the target of a load,
    and returns are real-mode ones in virtual-8086 mode. *)
Definition sys_pre (o : sys_op) (e : CPUX86State) : Prop :=
  match o with
  | LoadSeg r _ => data_reg r \/ r = R_SS
  | FarRet _ _ | InterruptRet _ _ => tst (eflags e) VM_MASK = false
  | _ => True
  end.

(** The two operations that may leave the invariant, and how. *)
Definition escape (o : sys_op) (e : CPUX86State) (m : M) (e' : CPUX86State) : Prop :=
  match o with
  | FarCall cs _ _ _ => gate_call cs e m /\ conforming_escape e e'
  | Sysexit _ => sysexit_escape e e'
  | _ => False
  end.

Lemma sys_run_priv o e m : priv_ok e -> sys_pre o e ->
  match sys_run o e m with
  | Done _ e' _ => priv_ok e' \/ escape o e m e'
  | Raised e' _ => priv_ok e'
  | Aborted => True
  end.
Proof.
  intros H Ho. assert (forall c : cpu M unit, wp c (fun _ => priv_ok) priv_ok e -> match c e m with Done _ e' _ => priv_ok e' \/ escape o e m e' | Raised e' _ => priv_ok e' | Aborted => True end) as W
    by (intros c Hc; specialize (Hc m); destruct (c e m); auto).
  destruct o; cbn [sys_run sys_pre] in *; [apply W..| |apply W|apply W|apply W|apply W|].
  - now apply helper_load_seg_priv.
  - now apply helper_lldt_priv.
  - now apply helper_ltr_priv.
  - now apply helper_ljmp_protected_priv.
  - now apply helper_lcall_protected_priv.
  - unfold helper_lret_protected. eapply wp_mono; [now apply ret_protected_priv|now intros ? ? []|auto].
  - now apply helper_iret_protected_priv.
  - now apply do_interrupt_protected_priv.
  - now apply helper_sysenter_priv.
  - exact (helper_sysexit_priv dflag e H m).
Qed.

(** One event: an operation that succeeds or raises an exception, or anything
    else the machine does to memory and to the rest of the CPU. *)
Inductive sys_step : CPUX86State * M -> CPUX86State * M -> Prop :=
| step_done o e m e' m' : sys_pre o e -> sys_run o e m = Done tt e' m' -> ~ escape o e m e' -> sys_step (e, m) (e', m')
| step_raised o e m e' m' : sys_pre o e -> sys_run o e m = Raised e' m' -> sys_step (e, m) (e', m')
| step_other e m e' m' : segs e' = segs e -> cpl_of e' = cpl_of e -> tst (eflags e') VM_MASK = tst (eflags e) VM_MASK -> sys_step (e, m) (e', m').

(** C4: In protected mode, over any sequence of segment loads, far jumps, calls
    and returns, interrupts, task switches and fast system calls, successful or
    ended by an exception anywhere, with arbitrary descriptor tables and page
    faults: the current privilege level is the one in CS (3 in virtual-8086
    mode), the code and stack segments have exactly its rights, and every usable
    data segment is one that level may use.  Each further operation keeps this,
    with two exceptions, which the sequence leaves out: a far call through a call
    gate to a conforming segment of a more privileged level, which changes the
    level and not the stack; and a SYSEXIT at level 0 with a data register loaded
    that level 3 may not use, which stays usable.  In both, the other registers
    still fit the new level. *)
Theorem x86_privilege_invariant e0 m0 e m : priv_ok e0 -> rtc sys_step (e0, m0) (e, m) ->
  priv_ok e /\ forall o, sys_pre o e ->
    match sys_run o e m with
    | Done _ e' _ => priv_ok e' \/ escape o e m e'
    | Raised e' _ => priv_ok e'
    | Aborted => True
    end.
Proof.
  intros H0 Hr. assert (priv_ok e) as H.
  { refine (rtc_invariant sys_step (fun x => priv_ok x.1) _ _ _ Hr H0). intros x y Hx Hs.
    destruct Hs as [o e1 m1 e2 m2 Ho E N | o e1 m1 e2 m2 Ho E | e1 m1 e2 m2 Es Ec Ev].
    - pose proof (sys_run_priv o e1 m1 Hx Ho) as W. rewrite E in W. now destruct W.
    - pose proof (sys_run_priv o e1 m1 Hx Ho) as W. now rewrite E in W.
    - cbn [fst] in *. destruct Hx as [L P]. split; [congruence|]. rewrite Ec, Ev. unfold seg in *. now rewrite Es. }
  split; [exact H|]. intros o Ho. exact (sys_run_priv o e m H Ho).
Qed.

(** C23: A far return or an IRET within the task never gains privilege.  Unless it
    enters virtual-8086 mode, it keeps the I/O privilege level outside level 0
    and the interrupt flag outside the I/O privilege level. *)
Theorem x86_return_confined shift is_iret addend e m : priv_ok e -> tst (eflags e) VM_MASK = false ->
  match helper_ret_protected shift is_iret addend e m with
  | Done _ e' _ => priv_ok e' /\ cpl_of e <= cpl_of e'
      /\ (tst (eflags e') VM_MASK = false ->
          (0 < cpl_of e -> eflags e' .& IOPL_MASK = eflags e .& IOPL_MASK)
          /\ ((eflags e >> IOPL_SHIFT) .& 3 < cpl_of e -> tst (eflags e') IF_MASK = tst (eflags e) IF_MASK))
  | Raised e' _ => priv_ok e'
  | Aborted => True
  end.
Proof.
  intros H V. pose proof (ret_protected_priv shift is_iret addend e H V m) as W. rewrite <- V.
  destruct (helper_ret_protected shift is_iret addend e m); exact W.
Qed.
End Ops.
End X86Priv.
