(* ===== verification/X86Gate.v ===== *)
(** * Gates on a guest with plain memory

    Memory that never faults as an instance of [SysHost], a kernel with one gate
    and one user task in it, and what interrupts and returns do there. *)

From S2P Require Import Prelude X86Cpu X86Trans X86Alu X86Int X86Seg X86Priv.

Module X86Gate.
Import X86 X86Trans X86Alu X86Seg X86Priv.
Import X86Int(get_sp_mask, SEG_ADDL, SET_ESP, DESC_B_MASK).
#[local] Existing Instances X86.SegmentCache_eta X86.CPUX86State_eta.

(** ** Plain memory *)

(** Little-endian accesses of three widths; only double words are related by
    laws, as the frames and tables here are made of them. *)
Class Ram (M : Type) := {
  rd8 : Z -> M -> Z;
  rd16 : Z -> M -> Z;
  rd32 : Z -> M -> Z;
  wr8 : Z -> Z -> M -> M;
  wr16 : Z -> Z -> M -> M;
  wr32 : Z -> Z -> M -> M;
  rd16_range : forall a m, in_u 16 (rd16 a m);
  rd32_wr32 : forall a v m, rd32 a (wr32 a v m) = u32 v;
  rd32_wr32_ne : forall a b v m, a + 4 <= b \/ b + 4 <= a -> rd32 b (wr32 a v m) = rd32 b m
}.

#[export] Instance ram_host {M} `{!Ram M} : SysHost M := {
  mem_ldub a _ m := Hit (rd8 a m) m;
  mem_lduw a _ m := Hit (rd16 a m) m;
  mem_ldl a _ m := Hit (rd32 a m) m;
  mem_stb a v _ m := Hit tt (wr8 a v m);
  mem_stw a v _ m := Hit tt (wr16 a v m);
  mem_stl a v _ m := Hit tt (wr32 a v m);
  tlb_flush _ _ m := m;
  hw_breakpoint_remove _ _ m := m
}.

#[export] Instance ram_laws {M} `{!Ram M} : SysLaws M.
Proof. constructor; try discriminate. intros a e m v m' [= <- <-]. apply rd16_range. Qed.

(** Bytes in a function. *)
Definition bytes : Type := Z -> Z.
Definition store1 (a v : Z) (m : bytes) : bytes := fun x => if x =? a then u8 v else m x.

#[export] Instance bytes_ram : Ram bytes.
Proof.
  refine {|
    rd8 a m := u8 (m a);
    rd16 a m := u8 (m a) + 256 * u8 (m (a + 1));
    rd32 a m := u8 (m a) + 256 * u8 (m (a + 1)) + 65536 * u8 (m (a + 2)) + 16777216 * u8 (m (a + 3));
    wr8 := store1;
    wr16 a v m := store1 (a + 1) (v >> 8) (store1 a v m);
    wr32 a v m := store1 (a + 3) (v >> 24) (store1 (a + 2) (v >> 16) (store1 (a + 1) (v >> 8) (store1 a v m)))
  |}.
  - intros a m. unfold in_u, u8. pose proof (Z.mod_pos_bound (m a) 256). pose proof (Z.mod_pos_bound (m (a + 1)) 256). lia.
  - intros a v m. unfold store1.
    repeat match goal with |- context [?x =? ?y] => destruct (Z.eqb_spec x y); try lia end.
    unfold u8, u32. rewrite !Z.mod_mod, !Z.shiftr_div_pow2 by lia. change (2 ^ 8) with 256. change (2 ^ 16) with 65536. change (2 ^ 24) with 16777216.
    Z.div_mod_to_equations. lia.
  - intros a b v m H. unfold store1.
    repeat match goal with |- context [?x =? ?y] => destruct (Z.eqb_spec x y); try lia end.
Defined.

(** ** A kernel with one user task *)

(** The tables at 0x1000: flat code and data of levels 0 and 3, a 386 TSS at
    0x2000 with the stack 0x10:0x9000 for level 0, and vector 0x80 leading to
    0x08:0x4000 from level 3. *)
Definition descriptor (a e1 e2 : Z) (m : bytes) : bytes := wr32 (a + 4) e2 (wr32 a e1 m).
Definition guest_memory : bytes :=
  descriptor 0x1008 0x0000ffff 0x00cf9b00
  (descriptor 0x1010 0x0000ffff 0x00cf9300
  (descriptor 0x1018 0x0000ffff 0x00cffb00
  (descriptor 0x1020 0x0000ffff 0x00cff300
  (descriptor 0x1c00 0x00084000 0x0000ee00
  (wr32 0x2004 0x9000 (wr32 0x2008 0x10 (fun _ => 0))))))).

Definition user_cpu : CPUX86State :=
  (set_reg R_ESP 0x7000 cpu_zero) <| eip := 0x400123 |> <| eflags := 0x202 |> <| hflags := 0xb3 |>
    <| cr := [1; 0; 0; 0; 0] |>
    <| segs := [mkSeg 0x23 0 0xffffffff 0x00cff300; mkSeg 0x1b 0 0xffffffff 0x00cffb00; mkSeg 0x23 0 0xffffffff 0x00cff300;
                mkSeg 0x23 0 0xffffffff 0x00cff300; seg_zero; seg_zero] |>
    <| gdt := mkSeg 0 0x1000 0xff 0 |> <| idt := mkSeg 0 0x1800 0x7ff 0 |> <| tr := mkSeg 0x28 0x2000 0x67 0x8900 |>.

Lemma user_priv : priv_ok user_cpu.
Proof.
  split; [reflexivity|]. constructor; cbn beta; try (vm_compute; intuition congruence).
  - intros r [-> | [-> | [-> | ->]]]; vm_compute; congruence.
  - intros r [-> | ->] _; vm_compute; reflexivity.
Qed.

Definition done_env {M A} (o : outcome M A) : option CPUX86State := match o with Done _ e _ => Some e | _ => None end.

(** INT 0x80 from level 3 succeeds and ends in level 0. *)
Definition int80 : sys_op := Interrupt 0x80 1 0 0x400125 0.

Lemma x86_privilege_invariant_witness : exists e m, sys_run int80 user_cpu guest_memory = Done tt e m /\ cpl_of e = 0 /\ priv_ok e.
Proof.
  assert (option_map cpl_of (done_env (sys_run int80 user_cpu guest_memory)) = Some 0) as X by (vm_compute; reflexivity).
  destruct (sys_run int80 user_cpu guest_memory) as [[] e m|e m|] eqn:E; [|discriminate X|discriminate X].
  cbn [option_map done_env] in X. injection X as C. exists e, m. split; [reflexivity|]. split; [exact C|].
  assert (~ escape int80 user_cpu guest_memory e) as N by exact id.
  exact (proj1 (x86_privilege_invariant user_cpu guest_memory e m user_priv (rtc_once _ _ (step_done int80 _ _ _ _ I E N)))).
Defined.

(** An IRET at level 3 to the same level with every flag set on the stack: the
    I/O privilege level and the interrupt flag stay. *)
Definition iret_memory : bytes := wr32 0x7000 0x400000 (wr32 0x7004 0x1b (wr32 0x7008 0x7ffd7 guest_memory)).
Definition iret_memory_novm : bytes := wr32 0x7008 0x5ffd7 iret_memory.

Lemma x86_return_confined_witness : match helper_ret_protected 1 1 0 user_cpu iret_memory_novm with
  | Done _ e' _ => tst (eflags e') VM_MASK = false /\ eflags e' .& IOPL_MASK = 0
  | _ => False end.
Proof.
  pose proof (x86_return_confined 1 1 0 user_cpu iret_memory_novm user_priv eq_refl) as W.
  assert (option_map (fun x => tst (eflags x) VM_MASK) (done_env (helper_ret_protected 1 1 0 user_cpu iret_memory_novm)) = Some false) as X by (vm_compute; reflexivity).
  destruct (helper_ret_protected 1 1 0 user_cpu iret_memory_novm) as [[] e m|e m|]; [|discriminate X|discriminate X].
  cbn [option_map done_env] in X. injection X as V. split; [exact V|]. destruct W as (_ & _ & W). exact (proj1 (W V) eq_refl).
Defined.

(** *** Ways to more privilege *)

(** IRET at level 3 with the VM flag on the stack is let into virtual-8086 mode,
    with the I/O privilege level from the stack. *)
Example iret_to_vm86_takes_iopl :
  match helper_ret_protected 1 1 0 user_cpu iret_memory with
  | Done _ e' _ => eflags user_cpu .& IOPL_MASK = 0 /\ eflags e' .& IOPL_MASK = IOPL_MASK
  | _ => False end.
Proof. vm_compute. split; reflexivity. Qed.

(** A call gate (selector 0x30, level 3) to a conforming code segment of level 0
    (selector 0x38): the caller runs at level 0 on its own stack. *)
Definition conforming_memory : bytes :=
  descriptor 0x1030 0x00384000 0x0000ec00 (descriptor 0x1038 0x0000ffff 0x00cf9f00 guest_memory).

Example call_gate_escape :
  match helper_lcall_protected 0x33 0 1 7 user_cpu conforming_memory with
  | Done _ e' _ => cpl_of user_cpu = 3 /\ cpl_of e' = 0 /\ seg R_SS e' = seg R_SS user_cpu
  | _ => False end.
Proof. vm_compute. split_and!; reflexivity. Qed.

(** A task gate of level 0 for vector 0x81, to a task of level 0 (TSS selector
    0x40 at 0x3000): INT 0x81 at level 3 switches to it. *)
Definition task_memory : bytes :=
  descriptor 0x1040 0x30000067 0x00008900 (descriptor 0x1c08 0x00400000 0x00008500
    (wr32 0x3020 0x5000 (wr32 0x3024 2 (wr32 0x304c 0x08 (wr32 0x3050 0x10 guest_memory))))).

Example int_through_task_gate :
  match do_interrupt_protected 0x81 1 0 0x400125 0 user_cpu task_memory with
  | Done _ e' _ => dpl_of (rd32 0x1c0c task_memory) = 0 /\ cpl_of user_cpu = 3 /\ cpl_of e' = 0 /\ eip e' = 0x5000
  | _ => False end.
Proof. vm_compute. split_and!; reflexivity. Qed.

(** SYSEXIT with the kernel's data segment left in DS: level 3 may use it. *)
Definition kernel_cpu : CPUX86State :=
  user_cpu <| hflags := 0xb0 |> <| sysenter_cs := 0x08 |>
    <| segs := [seg_zero; mkSeg 0x08 0 0xffffffff 0x00cf9b00; mkSeg 0x10 0 0xffffffff 0x00cf9300;
                mkSeg 0x10 0 0xffffffff 0x00cf9300; seg_zero; seg_zero] |>.

Example sysexit_keeps_kernel_ds :
  match helper_sysexit 1 kernel_cpu guest_memory with
  | Done _ e' _ => cpl_of e' = 3 /\ usable (seg R_DS e') = true /\ dpl_of (flags (seg R_DS e')) = 0
  | _ => False end.
Proof. vm_compute. split_and!; reflexivity. Qed.

(** ** What a handler finds *)

Section Entry.
Context {M : Type} `{!SysHost M} `{!SysLaws M}.

(** State that a load of a segment register leaves alone. *)
Definition outside (e : CPUX86State) :=
  (regs e, eip e, eflags e, (cc_src e, cc_dst e, cc_op e, df e), (ldt e, tr e, gdt e, idt e)).

Lemma outside_load r sel b l fl e : outside (cpu_x86_load_seg_cache r sel b l fl e) = outside e.
Proof. destruct (load_cache_split r sel b l fl e) as (h & -> & _). reflexivity. Qed.

Lemma outside_loads f l e : (forall r e, outside (f r e) = outside e) -> outside (fold_left (fun e (r : Z) => f r e) l e) = outside e.
Proof. intros Hf. revert e. induction l as [|r l IH]; intros e; cbn [fold_left]; [done|]. now rewrite IH, Hf. Qed.

Lemma load_inner_outside f e : outside (load_inner_ss f e) = outside e.
Proof. unfold load_inner_ss. destruct (f_inner f) as [[[? ?] ?]|]; [apply outside_load|done]. Qed.

(** The flags at the handler's first instruction. *)
Definition handler_eflags (type fl : Z) : Z :=
  (if type .& 1 =? 0 then fl .& ~~ IF_MASK else fl) .& ~~ (TF_MASK .| VM_MASK .| RF_MASK .| NT_MASK).

Lemma regs_set_esp a b e e' : regs e' = regs e -> regs (SET_ESP a b e') = regs (SET_ESP a b e).
Proof. intros H. unfold SET_ESP, reg. rewrite H. cbn [set_reg]. unfold set_reg. cbn. now rewrite H. Qed.

Lemma enter_handler_state type sel off e1 e2 esp f e (z := enter_handler type sel off e1 e2 esp f e) : length (segs e) = 6%nat ->
  eip z = off /\ eflags z = handler_eflags type (eflags e) /\ regs z = regs (SET_ESP esp (f_mask f) e)
  /\ (cc_src z, cc_dst z, cc_op z, df z) = (cc_src e, cc_dst e, cc_op e, df e) /\ (ldt z, tr z, gdt z, idt z) = (ldt e, tr e, gdt e, idt e)
  /\ length (segs z) = 6%nat /\ seg R_CS z = mkSeg ((sel .& ~~ 3) .| f_dpl f) (get_seg_base e1 e2) (get_seg_limit e1 e2) e2
  /\ seg R_SS z = (match f_inner f with Some (ss, s1, s2) => mkSeg ((ss .& ~~ 3) .| f_dpl f) (f_ssp f) (get_seg_limit s1 s2) s2 | None => seg R_SS e end)
  /\ (tst (eflags e) VM_MASK = false -> forall r, data_reg r -> seg r z = seg r e).
Proof.
  intros Hl. unfold z, enter_handler. clear z. set (en := match f_inner f with Some _ => _ | None => e end).
  assert (outside en = outside e) as On.
  { unfold en. destruct (f_inner f) as [[[ss s1] s2]|] eqn:EI; [|done]. rewrite load_inner_outside. destruct (tst (eflags e) VM_MASK); [|done].
    apply (outside_loads (fun r => cpu_x86_load_seg_cache r 0 0 0 0)). intros. apply outside_load. }
  assert (length (segs en) = 6%nat /\ seg R_SS en = (match f_inner f with Some (ss, s1, s2) => mkSeg ((ss .& ~~ 3) .| f_dpl f) (f_ssp f) (get_seg_limit s1 s2) s2 | None => seg R_SS e end)
    /\ (tst (eflags e) VM_MASK = false -> forall r, data_reg r -> seg r en = seg r e)) as (Ln & Sn & Dn).
  { unfold en. destruct (f_inner f) as [[[ss s1] s2]|] eqn:EI; [|split_and!; auto]. unfold load_inner_ss. rewrite EI.
    destruct (tst (eflags e) VM_MASK); cbn [fold_left]; rewrite !segs_len_load; (split; [exact Hl|]); (split; [now seg_calc|]); [discriminate|].
    intros _ r [-> | [-> | [-> | ->]]]; now seg_calc. }
  clearbody en. set (y := load_descriptor R_CS ((sel .& ~~ 3) .| f_dpl f) e1 e2 (SET_ESP esp (f_mask f) en)).
  assert (outside y = outside (SET_ESP esp (f_mask f) en)) as Oy by apply outside_load.
  assert (length (segs y) = 6%nat /\ forall r, 0 <= r < 6 -> seg r y = if r =? R_CS then mkSeg ((sel .& ~~ 3) .| f_dpl f) (get_seg_base e1 e2) (get_seg_limit e1 e2) e2 else seg r en) as [Ly Sy].
  { assert (length (segs (SET_ESP esp (f_mask f) en)) = 6%nat) as L by exact Ln. unfold y, load_descriptor. split; [now rewrite segs_len_load|].
    intros r Hr. now rewrite seg_load. }
  clearbody y. unfold outside in On, Oy. injection On as R1 R2 R3 R4 R5 R6 R7 R8 R9 R10 R11.
  injection Oy as Q1 Q2 Q3 Q4 Q5 Q6 Q7 Q8 Q9 Q10 Q11.
  match goal with |- eip ?w = _ /\ _ => assert (eip w = off /\ eflags w = handler_eflags type (eflags y) /\ regs w = regs y
    /\ (cc_src w, cc_dst w, cc_op w, df w) = (cc_src y, cc_dst y, cc_op y, df y) /\ (ldt w, tr w, gdt w, idt w) = (ldt y, tr y, gdt y, idt y) /\ segs w = segs y) as (W1 & W2 & W3 & W4 & W5 & W6)
    by (unfold handler_eflags; destruct (_ =? 0); now split_and!); set (v := w) in *; clearbody v end.
  rewrite (seg_of_segs R_CS _ _ W6), (seg_of_segs R_SS _ _ W6), !Sy by done. split_and!; try assumption; try congruence.
  - rewrite W3, Q1. now apply regs_set_esp.
  - reflexivity.
  - intros V r Hr. rewrite (seg_of_segs r _ _ W6), Sy by (unfold data_reg, R_ES, R_DS, R_FS, R_GS in Hr; lia).
    rewrite (proj2 (Z.eqb_neq r R_CS)); [now apply Dn|]. destruct Hr as [-> | [-> | [-> | ->]]]; discriminate.
Qed.

(** Inversion of a computation that ends normally. *)
Lemma bind_inv {A B} (c : cpu M A) (f : A -> cpu M B) e m b e' m' : (c ≫= f) e m = Done b e' m' ->
  exists a e1 m1, c e m = Done a e1 m1 /\ f a e1 m1 = Done b e' m'.
Proof. unfold mbind, cpu_bind. destruct (c e m) as [a e1 m1|e1 m1|]; [|discriminate|discriminate]. eauto. Qed.
Lemma raise_if_inv b n c e (m : M) u e' m' : raise_if b n c e m = Done u e' m' -> b = false /\ e' = e /\ m' = m.
Proof. unfold raise_if. destruct b; [discriminate|]. now intros [= _ <- <-]. Qed.
Lemma ldl_inv a e (m : M) v e' m' : ldl_kernel a e m = Done v e' m' -> exists w, mem_ldl a e m = Hit w m' /\ v = u32 w /\ e' = e.
Proof. unfold ldl_kernel, acc. destruct (mem_ldl a e m) as [w m1|]; [|discriminate]. intros [= <- <- <-]. eauto. Qed.

(** From [e], the interrupt gate ([g1], [g2]) has been entered. *)
Record gate_entered (type g1 g2 is_int : Z) (e e' : CPUX86State) : Prop := {
  ge_allowed : truthy is_int = true -> cpl_of e <= dpl_of g2;
  ge_present : tst g2 DESC_P_MASK = true;
  ge_eip : eip e' = (g2 .& 0xffff0000) .| (g1 .& 0x0000ffff);
  ge_cs : selector (seg R_CS e') = ((g1 >> 16) .& ~~ 3) .| cpl_of e';
  ge_level : cpl_of e' <= cpl_of e;
  ge_flags : eflags e' = handler_eflags type (eflags e);
  ge_regs : forall r, 0 <= r < 8 -> r <> R_ESP -> reg r e' = reg r e;
  ge_stack : cpl_of e' < cpl_of e -> stack_rights (cpl_of e') (flags (seg R_SS e')) = true;
  ge_priv : priv_ok e'
}.

Lemma reg_set_esp_ne a b e e' r : regs e' = regs (SET_ESP a b e) -> 0 <= r -> r <> R_ESP -> reg r e' = reg r e.
Proof.
  intros H Hr Hn. unfold reg at 1. rewrite H. change (regs (SET_ESP a b e)) with (aset (regs e) R_ESP (u32 ((reg R_ESP e .& ~~ b) .| (a .& b)))).
  unfold reg, aget, aset. rewrite !nth_lookup, list_lookup_insert_ne; [done|]. unfold R_ESP in *. lia.
Qed.

Lemma frame_entered type g1 g2 is_int e1 e2 esp f e : priv_ok e -> frame_ok f e -> code_rights (f_dpl f) e2 = true ->
  (truthy is_int = true -> cpl_of e <= dpl_of g2) -> tst g2 DESC_P_MASK = true ->
  gate_entered type g1 g2 is_int e (enter_handler type (g1 >> 16) ((g2 .& 0xffff0000) .| (g1 .& 0x0000ffff)) e1 e2 esp f e).
Proof.
  intros H Hf Hr HA HP. destruct (enter_handler_priv type (g1 >> 16) ((g2 .& 0xffff0000) .| (g1 .& 0x0000ffff)) e1 e2 esp f e H Hf Hr) as [P C].
  destruct (enter_handler_state type (g1 >> 16) ((g2 .& 0xffff0000) .| (g1 .& 0x0000ffff)) e1 e2 esp f e (proj1 H)) as (S1 & S2 & S3 & _ & _ & _ & S7 & S8 & _).
  set (z := enter_handler _ _ _ _ _ _ _ e) in *. clearbody z. destruct Hf as [Hd Hf]. constructor; try assumption.
  - now rewrite S7, C.
  - lia.
  - intros r Hr0 Hn. apply (reg_set_esp_ne esp (f_mask f)); [exact S3|lia|exact Hn].
  - rewrite C, S8. destruct (f_inner f) as [[[ss s1] s2]|]; [intros _; apply Hf|lia].
Qed.

Lemma through_gate_entered type g1 g2 intno is_int err old e : priv_ok e ->
  wp (M := M) (interrupt_through_gate type g1 g2 intno is_int err old) (fun _ => gate_entered type g1 g2 is_int e) (fun _ => True) e.
Proof.
  intros H. assert (faults (fun _ => True) e) as HF by done. pose proof (cpl_range e). unfold interrupt_through_gate. cbv zeta. wp_steps.
  match goal with |- context [negb (tst ?d DESC_C_MASK) && _] => rename d into d2 end.
  assert (0 <= dpl_of d2) by (apply (land_range _ 2 3); [lia|reflexivity]).
  assert (truthy is_int = true -> cpl_of e <= dpl_of g2) as HA by (intros T; rewrite T in *; lia).
  assert (tst g2 DESC_P_MASK = true) as HP by (destruct (tst g2 DESC_P_MASK); [done|discriminate]).
  destruct (negb (tst d2 DESC_C_MASK) && (dpl_of d2 <? cpl_of e)) eqn:I.
  - apply wp_inner_frame; [assumption|]. intros ss s1 s2 esp _ _ _ Hs. wp_steps. apply frame_entered; try assumption; [|cbn [f_dpl]; clear HA HP; rights].
    split; cbn [f_dpl f_inner]; [lia|]. split; [exact Hs|lia].
  - destruct (tst d2 DESC_C_MASK || (dpl_of d2 =? cpl_of e)) eqn:S; [|wp_steps]. wp_steps.
    apply frame_entered; try assumption; [split; cbn [f_dpl f_inner same_frame]; [lia|done]|cbn [f_dpl same_frame]; clear HA HP; rights].
Qed.

(** From [e], the task gate ([g1], [g2]) has been taken: it is present, the task
    it names has been switched to, and no more than an error code was pushed on
    that task's stack.  The level of the gate is not looked at. *)
Definition task_entered (sel g1 g2 old_eip : Z) (e : CPUX86State) (m : M) (e' : CPUX86State) : Prop :=
  tst g2 DESC_P_MASK = true
  /\ exists x m', switch_tss sel g1 g2 SWITCH_TSS_CALL old_eip e m = Done tt x m'
       /\ priv_ok x /\ e' = x <| regs := regs e' |> /\ forall r, 0 <= r < 8 -> r <> R_ESP -> reg r e' = reg r x.

Lemma push_error_frame code x (m : M) u e' m' : push_task_error_code code x m = Done u e' m' ->
  e' = x <| regs := regs e' |> /\ forall r, 0 <= r < 8 -> r <> R_ESP -> reg r e' = reg r x.
Proof.
  unfold push_task_error_code. cbv zeta. intros E. apply bind_inv in E. destruct E as (env & x1 & y1 & [= <- <- <-] & E). change (id x) with x in E.
  apply bind_inv in E. destruct E as ([] & x2 & y2 & E2 & E). assert (x2 = x) as ->.
  { revert E2. unfold stl_kernel, stw_kernel, acc. destruct (truthy _); [destruct (mem_stl _ _ _ _)|destruct (mem_stw _ _ _ _)]; intros [=]; congruence. }
  injection E as _ <- _. split; [destruct x; reflexivity|]. intros r Hr Hn. eapply reg_set_esp_ne; [reflexivity|lia|exact Hn].
Qed.

End Entry.

(** ** Memory that does not fault

    Where every word access goes to the plain memory of [X86Int], the real-mode
    helpers are those of that file. *)
Section Plain.
Context {M : Type} `{!SysHost M} `{!X86Int.KernelMem M}.
Hypothesis lduw_plain : forall a e (m : M), mem_lduw a e m = Hit (X86Int.lduw_kernel a m) m.
Hypothesis ldl_plain : forall a e (m : M), mem_ldl a e m = Hit (X86Int.ldl_kernel a m) m.
Hypothesis stw_plain : forall a v e (m : M), mem_stw a v e m = Hit tt (X86Int.stw_kernel a v m).

(** One access at a time, the rest of the computation following. *)
Lemma run_lduw {B} a (f : Z -> cpu M B) e m : (lduw_kernel a ≫= f) e m = f (X86Int.lduw_kernel a m) e m.
Proof. unfold mbind, cpu_bind, lduw_kernel, acc. now rewrite lduw_plain. Qed.
Lemma run_ldl {B} a (f : Z -> cpu M B) e m : (ldl_kernel a ≫= f) e m = f (u32 (X86Int.ldl_kernel a m)) e m.
Proof. unfold mbind, cpu_bind, ldl_kernel, acc. now rewrite ldl_plain. Qed.
Lemma run_stw {B} a v (f : unit -> cpu M B) e m : (stw_kernel a v ≫= f) e m = f tt e (X86Int.stw_kernel a v m).
Proof. unfold mbind, cpu_bind, stw_kernel, acc. now rewrite stw_plain. Qed.
Lemma bind_assoc {A B C} (c : cpu M A) (f : A -> cpu M B) (g : B -> cpu M C) e m : ((c ≫= f) ≫= g) e m = (c ≫= (fun x => f x ≫= g)) e m.
Proof. unfold mbind, cpu_bind. now destruct (c e m). Qed.
Lemma run_pop {B} shift ssp mask sp (f : Z * Z -> cpu M B) e m :
  (POP shift ssp mask sp ≫= f) e m = f (if shift =? 1 then X86Int.POPL ssp mask sp m else X86Int.POPW ssp mask sp m) e m.
Proof. unfold POP, POPL, POPW. destruct (shift =? 1); rewrite bind_assoc; [now rewrite run_ldl|now rewrite run_lduw]. Qed.
Lemma run_push {B} ssp mask v vals sp (f : Z -> cpu M B) e m :
  (push_all 0 ssp mask (v :: vals) sp ≫= f) e m = let '(sp, m) := X86Int.PUSHW ssp mask v (sp, m) in (push_all 0 ssp mask vals sp ≫= f) e m.
Proof. cbn [push_all]. unfold PUSH. cbn [truthy Z.eqb negb]. unfold PUSHW. now rewrite !bind_assoc, run_stw. Qed.

Lemma real_interrupt_agrees intno is_int err next e m : 0 <= intno < 256 ->
  do_interrupt_real intno is_int err next e m =
  match X86Int.do_interrupt_real intno is_int err next e m with Ret (e', m') => Done tt e' m' | Exc e' => Raised e' m end.
Proof.
  intros Hi. unfold do_interrupt_real, X86Int.do_interrupt_real. cbv zeta.
  change ((gets idt ≫= ?f) e m) with (f (idt e) e m). cbv beta. rewrite (u32_id (intno * 4 + 3)) by (unfold in_u; lia).
  destruct (_ <? _); [reflexivity|]. change ((raise_if false ?n ?c ≫= ?f) e m) with (f tt e m). cbv beta.
  rewrite !run_lduw. change ((gets id ≫= ?f) e m) with (f e e m). cbv beta.
  do 3 (rewrite run_push; match goal with |- context [X86Int.PUSHW ?s ?k ?v ?p] => destruct (X86Int.PUSHW s k v p) end). reflexivity.
Qed.

Lemma real_iret_agrees shift e m : helper_iret_real shift e m = Done tt (X86Int.helper_iret_real shift e m) m.
Proof.
  unfold helper_iret_real, X86Int.helper_iret_real. cbv zeta. change ((gets id ≫= ?f) e m) with (f e e m). cbv beta.
  destruct (shift =? 1) eqn:S; rewrite run_pop, S; cbn [X86Int.POPL X86Int.POPW]; rewrite run_pop, S; cbn [X86Int.POPL X86Int.POPW]; rewrite run_pop, S; reflexivity.
Qed.
End Plain.

End X86Gate.
