(* ===== verification/SoftTlb.v ===== *)
(** * The translation cache of exec.c

    A direct-mapped cache of page translations for each MMU mode, with the three
    access kinds in one entry, and the region that remembers large pages.  The
    physical page map and the host addresses of RAM are the class [Board].  The
    last part proves that invalidating any address of a page, of whatever size,
    leaves no entry of that page. *)

From S2P Require Import Prelude.

Module SoftTlb.

(** ** Constants *)

Definition TARGET_PAGE_BITS : Z := 12.
Definition TARGET_PAGE_SIZE : Z := 1 << TARGET_PAGE_BITS.
Definition TARGET_PAGE_MASK : Z := ~~ (TARGET_PAGE_SIZE - 1).
Definition CPU_TLB_BITS : Z := 8.
Definition CPU_TLB_SIZE : Z := 1 << CPU_TLB_BITS.
Definition NB_MMU_MODES : Z := 2.
Definition TB_JMP_CACHE_BITS : Z := 12.
Definition TB_JMP_CACHE_SIZE : Z := 1 << TB_JMP_CACHE_BITS.
Definition TB_JMP_PAGE_BITS : Z := Z.quot TB_JMP_CACHE_BITS 2.
Definition TB_JMP_PAGE_SIZE : Z := 1 << TB_JMP_PAGE_BITS.
Definition TB_JMP_PAGE_MASK : Z := TB_JMP_CACHE_SIZE - TB_JMP_PAGE_SIZE.

Definition PAGE_READ : Z := 1.
Definition PAGE_WRITE : Z := 2.
Definition PAGE_EXEC : Z := 4.

Definition TLB_INVALID_MASK : Z := 1 << 3.
Definition TLB_NOTDIRTY : Z := 1 << 4.
Definition TLB_MMIO : Z := 1 << 5.

Definition IO_MEM_SHIFT : Z := 3.
Definition IO_MEM_RAM : Z := 0 << IO_MEM_SHIFT.
Definition IO_MEM_ROM : Z := 1 << IO_MEM_SHIFT.
Definition IO_MEM_UNASSIGNED : Z := 2 << IO_MEM_SHIFT.
Definition IO_MEM_NOTDIRTY : Z := 3 << IO_MEM_SHIFT.
Definition IO_MEM_ROMD : Z := 1.
Definition IO_MEM_NB_ENTRIES : Z := 1 << (TARGET_PAGE_BITS - IO_MEM_SHIFT).

Definition BP_MEM_READ : Z := 1.
Definition CPU_INTERRUPT_EXITTB : Z := 4.

(** ** State *)

(** The width of [unsigned long] on the host. *)
Class HostWidth := { host_bits : Z; host_bits_ok : 32 <= host_bits }.
Definition ulong `{!HostWidth} (x : Z) : Z := wrap host_bits x.

Record PhysPageDesc := mkPage { phys_offset : Z; region_offset : Z }.

(** What the cache needs of the machine: the physical page map, the host address
    of a RAM offset and back, the dirty map, the index of the watchpoint
    handlers. *)
Class Board (M : Type) := {
  phys_page_find : Z -> M -> option PhysPageDesc;
  qemu_get_ram_ptr : Z -> M -> Z;
  qemu_ram_addr_from_host_nofail : Z -> M -> Z;
  cpu_physical_memory_is_dirty : Z -> M -> bool;
  io_mem_watch : Z
}.

Record CPUTLBEntry := mkTE {
  addr_read : Z;
  addr_write : Z;
  addr_code : Z;
  addend : Z
}.
#[export] Instance CPUTLBEntry_eta : Eta CPUTLBEntry := fun e => mkTE (addr_read e) (addr_write e) (addr_code e) (addend e).

Record CPUWatchpoint := mkWP { wp_vaddr : Z; wp_flags : Z }.

(** The part of [CPU_COMMON] the cache is in. *)
Record cpu_common := mkCommon {
  current_tb : Z;                       (* 0 for NULL *)
  mem_io_pc : Z;
  mem_io_vaddr : Z;
  interrupt_request : Z;
  tlb_table : list (list CPUTLBEntry);
  iotlb : list (list Z);
  tlb_flush_addr : Z;
  tlb_flush_mask : Z;
  tb_jmp_cache : list Z;
  watchpoints : list CPUWatchpoint
}.
#[export] Instance cpu_common_eta : Eta cpu_common := fun s =>
  mkCommon (current_tb s) (mem_io_pc s) (mem_io_vaddr s) (interrupt_request s) (tlb_table s) (iotlb s) (tlb_flush_addr s) (tlb_flush_mask s) (tb_jmp_cache s) (watchpoints s).

Section Tlb.
Context {HW : HostWidth}.

Definition s_cputlb_empty_entry : CPUTLBEntry := mkTE (u32 (-1)) (u32 (-1)) (u32 (-1)) (ulong (-1)).

Definition tlb_entry (mmu_idx index : Z) (t : cpu_common) : CPUTLBEntry :=
  nth (Z.to_nat index) (nth (Z.to_nat mmu_idx) (tlb_table t) []) s_cputlb_empty_entry.
Definition upd_entry (mmu_idx index : Z) (f : CPUTLBEntry -> CPUTLBEntry) (t : cpu_common) : cpu_common :=
  t <| tlb_table := alter (alter f (Z.to_nat index)) (Z.to_nat mmu_idx) (tlb_table t) |>.
Definition iotlb_of (mmu_idx index : Z) (t : cpu_common) : Z := aget (nth (Z.to_nat mmu_idx) (iotlb t) []) index.

Definition tlb_index (addr : Z) : Z := (addr >> TARGET_PAGE_BITS) .& (CPU_TLB_SIZE - 1).

(** ** Flushing *)

Definition tb_jmp_cache_hash_page (pc : Z) : Z :=
  let tmp := pc .^ (pc >> (TARGET_PAGE_BITS - TB_JMP_PAGE_BITS)) in
  (tmp >> (TARGET_PAGE_BITS - TB_JMP_PAGE_BITS)) .& TB_JMP_PAGE_MASK.

Definition clear_jmp_page (i : Z) (c : list Z) : list Z :=
  take (Z.to_nat i) c ++ replicate (Z.to_nat TB_JMP_PAGE_SIZE) 0 ++ drop (Z.to_nat (i + TB_JMP_PAGE_SIZE)) c.

Definition tlb_flush_jmp_cache (addr : Z) (t : cpu_common) : cpu_common :=
  let t := t <| tb_jmp_cache := clear_jmp_page (tb_jmp_cache_hash_page (u32 (addr - TARGET_PAGE_SIZE))) (tb_jmp_cache t) |> in
  t <| tb_jmp_cache := clear_jmp_page (tb_jmp_cache_hash_page addr) (tb_jmp_cache t) |>.

Definition tlb_flush (flush_global : Z) (t : cpu_common) : cpu_common :=
  let t := t <| current_tb := 0 |> in
  let t := t <| tlb_table := map (map (fun _ => s_cputlb_empty_entry)) (tlb_table t) |> in
  let t := t <| tb_jmp_cache := map (fun _ => 0) (tb_jmp_cache t) |> in
  t <| tlb_flush_addr := u32 (-1) |> <| tlb_flush_mask := 0 |>.

Definition tlb_flush_entry (addr : Z) (e : CPUTLBEntry) : CPUTLBEntry :=
  let m := TARGET_PAGE_MASK .| TLB_INVALID_MASK in
  if (addr =? addr_read e .& m) || (addr =? addr_write e .& m) || (addr =? addr_code e .& m)
  then s_cputlb_empty_entry else e.

Definition tlb_flush_page (addr : Z) (t : cpu_common) : cpu_common :=
  if addr .& tlb_flush_mask t =? tlb_flush_addr t then tlb_flush 1 t
  else
    let t := t <| current_tb := 0 |> in
    let addr := addr .& TARGET_PAGE_MASK in
    let t := fold_left (fun t mmu_idx => upd_entry mmu_idx (tlb_index addr) (tlb_flush_entry addr) t) [0; 1] t in
    tlb_flush_jmp_cache addr t.

(** ** Filling *)

(** [while (((env->tlb_flush_addr ^ vaddr) & mask) != 0) mask <<= 1;] *)
Fixpoint widen (fuel : nat) (diff mask : Z) : Z :=
  match fuel with
  | O => mask
  | S fuel => if diff .& mask =? 0 then mask else widen fuel diff (u32 (mask << 1))
  end.

Definition tlb_add_large_page (vaddr size : Z) (t : cpu_common) : cpu_common :=
  let mask := u32 (~~ (size - 1)) in
  if tlb_flush_addr t =? u32 (-1) then
    t <| tlb_flush_addr := vaddr .& mask |> <| tlb_flush_mask := mask |>
  else
    let mask := mask .& tlb_flush_mask t in
    let mask := widen 33 (tlb_flush_addr t .^ vaddr) mask in
    t <| tlb_flush_addr := tlb_flush_addr t .& mask |> <| tlb_flush_mask := mask |>.

Section Fill.
Context {M : Type} `{!Board M}.

(** The entry of [iotlb] for a page: its RAM offset, or the index of its I/O
    handlers with the address they get. *)
Definition iotlb_value (pd paddr : Z) (p : option PhysPageDesc) : Z :=
  let io := pd .& ~~ TARGET_PAGE_MASK in
  if io <=? IO_MEM_ROM then (pd .& TARGET_PAGE_MASK) .| (if io =? IO_MEM_RAM then IO_MEM_NOTDIRTY else IO_MEM_ROM)
  else match p with Some p => io + region_offset p | None => io + paddr end.

Definition page_pd (p : option PhysPageDesc) : Z :=
  match p with Some p => ulong (phys_offset p) | None => IO_MEM_UNASSIGNED end.

(** Whether a watchpoint makes accesses to the page go through the handlers. *)
Definition watched (vaddr prot : Z) (wps : list CPUWatchpoint) : bool :=
  existsb (fun wp => (vaddr =? wp_vaddr wp .& TARGET_PAGE_MASK) && (tst prot PAGE_WRITE || tst (wp_flags wp) BP_MEM_READ)) wps.

(** The entry a page gets. *)
Definition new_entry (vaddr address code_address pd prot addend : Z) (m : M) : CPUTLBEntry :=
  let io := pd .& ~~ TARGET_PAGE_MASK in
  mkTE (if tst prot PAGE_READ then address else u32 (-1))
    (if tst prot PAGE_WRITE then
       if (io =? IO_MEM_ROM) || tst pd IO_MEM_ROMD then address .| TLB_MMIO
       else if (io =? IO_MEM_RAM) && negb (cpu_physical_memory_is_dirty pd m) then address .| TLB_NOTDIRTY
       else address
     else u32 (-1))
    (if tst prot PAGE_EXEC then code_address else u32 (-1))
    (ulong (addend - vaddr)).

(** [None] is the failed assertion on the size. *)
Definition tlb_set_page (vaddr paddr prot mmu_idx size : Z) (t : cpu_common) (m : M) : option cpu_common :=
  if size <? TARGET_PAGE_SIZE then None
  else
    let t := if negb (size =? TARGET_PAGE_SIZE) then tlb_add_large_page vaddr size t else t in
    let p := phys_page_find (paddr >> TARGET_PAGE_BITS) m in
    let pd := page_pd p in
    let io := pd .& ~~ TARGET_PAGE_MASK in
    let code_address := if (IO_MEM_ROM <? io) && negb (tst pd IO_MEM_ROMD) then vaddr .| TLB_MMIO else vaddr in
    let addend := ulong (qemu_get_ram_ptr (pd .& TARGET_PAGE_MASK) m) in
    let w := watched vaddr prot (watchpoints t) in
    let io_value := if w then io_mem_watch + paddr else iotlb_value pd paddr p in
    let address := if w then code_address .| TLB_MMIO else code_address in
    let index := tlb_index vaddr in
    let t := t <| iotlb := alter (fun l => aset l index (u64 (io_value - vaddr))) (Z.to_nat mmu_idx) (iotlb t) |> in
    Some (upd_entry mmu_idx index (fun _ => new_entry vaddr address code_address pd prot addend m) t).

(** ** Dirty pages *)

Definition tlb_reset_dirty_range (start length : Z) (e : CPUTLBEntry) : CPUTLBEntry :=
  if addr_write e .& ~~ TARGET_PAGE_MASK =? IO_MEM_RAM then
    let addr := ulong ((addr_write e .& TARGET_PAGE_MASK) + addend e) in
    if ulong (addr - start) <? length then e <| addr_write := (addr_write e .& TARGET_PAGE_MASK) .| TLB_NOTDIRTY |> else e
  else e.

Definition tlb_update_dirty (m : M) (e : CPUTLBEntry) : CPUTLBEntry :=
  if addr_write e .& ~~ TARGET_PAGE_MASK =? IO_MEM_RAM then
    let p := ulong ((addr_write e .& TARGET_PAGE_MASK) + addend e) in
    if negb (cpu_physical_memory_is_dirty (qemu_ram_addr_from_host_nofail p m) m)
    then e <| addr_write := addr_write e .| TLB_NOTDIRTY |> else e
  else e.

Definition all_entries (f : CPUTLBEntry -> CPUTLBEntry) (t : cpu_common) : cpu_common :=
  t <| tlb_table := map (map f) (tlb_table t) |>.

Definition cpu_tlb_update_dirty (m : M) (t : cpu_common) : cpu_common := all_entries (tlb_update_dirty m) t.

(** The entries of one CPU, for RAM from the host address [start1] on. *)
Definition tlb_reset_dirty (start1 length : Z) (t : cpu_common) : cpu_common := all_entries (tlb_reset_dirty_range start1 length) t.

Definition tlb_set_dirty1 (vaddr : Z) (e : CPUTLBEntry) : CPUTLBEntry :=
  if addr_write e =? vaddr .| TLB_NOTDIRTY then e <| addr_write := vaddr |> else e.

Definition tlb_set_dirty (vaddr : Z) (t : cpu_common) : cpu_common :=
  let vaddr := vaddr .& TARGET_PAGE_MASK in
  fold_left (fun t mmu_idx => upd_entry mmu_idx (tlb_index vaddr) (tlb_set_dirty1 vaddr) t) [0; 1] t.
End Fill.

(** ** What a lookup finds *)

(** The test of the memory access macros and of softmmu_template.h. *)
Definition hits (addr tlb_addr : Z) : bool :=
  addr .& TARGET_PAGE_MASK =? tlb_addr .& (TARGET_PAGE_MASK .| TLB_INVALID_MASK).

Definition valid (addr : Z) (e : CPUTLBEntry) : bool := hits addr (addr_read e) || hits addr (addr_write e) || hits addr (addr_code e).

(** The field an access of a kind looks at: 0 read, 1 write, 2 instruction fetch. *)
Definition addr_of (kind : Z) (e : CPUTLBEntry) : Z :=
  if kind =? 2 then addr_code e else if kind =? 1 then addr_write e else addr_read e.

(** Some access to [addr] in mode [mmu_idx] hits. *)
Definition cached (mmu_idx addr : Z) (t : cpu_common) : bool := valid addr (tlb_entry mmu_idx (tlb_index addr) t).

Definition mode_ok (mmu_idx : Z) : Prop := mmu_idx = 0 \/ mmu_idx = 1.

Record shape (t : cpu_common) : Prop := {
  sh_modes : length (tlb_table t) = 2%nat;
  sh_size : forall l, In l (tlb_table t) -> length l = 256%nat
}.

Lemma tlb_index_range v : 0 <= tlb_index v < 256.
Proof. unfold tlb_index. change (CPU_TLB_SIZE - 1) with (Z.ones 8). rewrite Z.land_ones by lia. apply Z.mod_pos_bound. lia. Qed.

Lemma nth_alter {A} (f : A -> A) (l : list A) i j d : (i < length l)%nat -> nth j (alter f i l) d = if (i =? j)%nat then f (nth j l d) else nth j l d.
Proof.
  intros Hi. rewrite !nth_lookup. destruct (Nat.eqb_spec i j) as [->|N].
  - rewrite list_lookup_alter_eq. destruct (l !! j) eqn:E; [done|]. apply lookup_ge_None in E. lia.
  - now rewrite list_lookup_alter_ne.
Qed.

Lemma shape_tables t : shape t -> exists l0 l1, tlb_table t = [l0; l1] /\ length l0 = 256%nat /\ length l1 = 256%nat.
Proof.
  intros [H2 H]. destruct (tlb_table t) as [|l0 [|l1 [|]]]; try discriminate. exists l0, l1. split; [done|]. split; apply H; cbn; auto.
Qed.

Lemma tlb_entry_upd t mm i f mmu j : shape t -> mode_ok mm -> mode_ok mmu -> 0 <= i < 256 -> 0 <= j < 256 ->
  tlb_entry mmu j (upd_entry mm i f t) = if (mm =? mmu) && (i =? j) then f (tlb_entry mmu j t) else tlb_entry mmu j t.
Proof.
  intros H Hm Hm' Hi Hj. destruct (shape_tables t H) as (l0 & l1 & E & L0 & L1). unfold tlb_entry, upd_entry. cbn [tlb_table over]. rewrite E.
  assert (forall l, length l = 256%nat -> nth (Z.to_nat j) (alter f (Z.to_nat i) l) s_cputlb_empty_entry =
    if i =? j then f (nth (Z.to_nat j) l s_cputlb_empty_entry) else nth (Z.to_nat j) l s_cputlb_empty_entry) as N.
  { intros l L. rewrite nth_alter by lia. destruct (Z.eqb_spec i j) as [->|D]; [now rewrite Nat.eqb_refl|]. rewrite (proj2 (Nat.eqb_neq _ _)); [done|]. lia. }
  destruct Hm as [-> | ->]; [change (alter ?g (Z.to_nat 0) [l0; l1]) with [g l0; l1]|change (alter ?g (Z.to_nat 1) [l0; l1]) with [l0; g l1]];
    destruct Hm' as [-> | ->]; first [change (nth (Z.to_nat 0) [?x; ?y] []) with x | change (nth (Z.to_nat 1) [?x; ?y] []) with y]; first [exact (N _ L0) | exact (N _ L1) | reflexivity].
Qed.

Lemma shape_upd t mm i f : shape t -> mode_ok mm -> shape (upd_entry mm i f t).
Proof.
  intros H Hm. destruct (shape_tables t H) as (l0 & l1 & E & L0 & L1). unfold upd_entry.
  assert (forall l, length l = 256%nat -> length (alter f (Z.to_nat i) l) = 256%nat) as L by (intros l Hl; now rewrite length_alter).
  destruct Hm as [-> | ->]; split; cbn [tlb_table over]; rewrite E; [reflexivity| |reflexivity|];
    intros l [<- | [<- | []]]; first [exact L0 | exact L1 | now apply L].
Qed.

Lemma cached_upd t mm i f mmu v : shape t -> mode_ok mm -> mode_ok mmu -> 0 <= i < 256 ->
  cached mmu v (upd_entry mm i f t) = if (mm =? mmu) && (i =? tlb_index v) then valid v (f (tlb_entry mmu i t)) else cached mmu v t.
Proof.
  intros H Hm Hm' Hi. unfold cached. rewrite tlb_entry_upd by (auto using tlb_index_range).
  destruct (mm =? mmu); cbn [andb]; [|done]. destruct (Z.eqb_spec i (tlb_index v)) as [->|]; done.
Qed.

Lemma page_of_bits v n : 0 <= n -> Z.testbit (v .& TARGET_PAGE_MASK) n = Z.testbit v n && (12 <=? n).
Proof.
  intros Hn. change TARGET_PAGE_MASK with (~~ Z.ones 12). rewrite <- Z.ldiff_land, Z.ldiff_spec, Z.testbit_ones by lia.
  destruct (Z.leb_spec 12 n), (Z.ltb_spec n 12), (Z.leb_spec 0 n); lia || now rewrite ?andb_true_r, ?andb_false_r.
Qed.

Lemma mask_bits n : 0 <= n -> Z.testbit (TARGET_PAGE_MASK .| TLB_INVALID_MASK) n = (12 <=? n) || (n =? 3).
Proof.
  intros Hn. rewrite Z.lor_spec. unfold TLB_INVALID_MASK. rewrite testbit_one_shift by lia. f_equal.
  change TARGET_PAGE_MASK with (~~ Z.ones 12). rewrite lnot_spec', Z.testbit_ones by lia. destruct (Z.leb_spec 12 n), (Z.ltb_spec n 12), (Z.leb_spec 0 n); lia || done.
Qed.

(** Flag bits other than the invalid bit do not matter to a lookup. *)
Lemma hits_flags a x f : f .& (TARGET_PAGE_MASK .| TLB_INVALID_MASK) = 0 -> hits a (x .| f) = hits a x.
Proof. intros H. unfold hits. now rewrite Z.land_lor_distr_l, H, Z.lor_0_r. Qed.

Lemma hits_none a : hits a (u32 (-1)) = false.
Proof.
  unfold hits. apply Z.eqb_neq. intros E. assert (Z.testbit (a .& TARGET_PAGE_MASK) 3 = Z.testbit (u32 (-1) .& (TARGET_PAGE_MASK .| TLB_INVALID_MASK)) 3) as X by now rewrite E.
  rewrite page_of_bits, andb_comm in X by lia. discriminate.
Qed.

Lemma valid_empty a : valid a s_cputlb_empty_entry = false.
Proof. unfold valid, s_cputlb_empty_entry. cbn [addr_read addr_write addr_code]. now rewrite hits_none. Qed.

Lemma hits_page a v : v .& TARGET_PAGE_MASK = v -> hits a v = (a .& TARGET_PAGE_MASK =? v).
Proof.
  intros H. unfold hits. f_equal. rewrite <- H at 1. apply Z.bits_inj'. intros n Hn. rewrite Z.land_spec, page_of_bits, mask_bits by done.
  rewrite <- H at 2. rewrite page_of_bits by done. now destruct (12 <=? n), (n =? 3), (Z.testbit v n).
Qed.
(** ** The region of large pages *)

(** The mask of the addresses above bit [k]. *)
Definition region (k : Z) : Z := Z.ones (32 - k) << k.

Lemma region_bits k n : 0 <= k <= 32 -> 0 <= n -> Z.testbit (region k) n = (k <=? n) && (n <? 32).
Proof.
  intros Hk Hn. unfold region. rewrite Z.shiftl_spec by done. destruct (Z.leb_spec k n); [|now rewrite Z.testbit_neg_r by lia].
  rewrite Z.testbit_ones by lia. destruct (Z.leb_spec 0 (n - k)), (Z.ltb_spec (n - k) (32 - k)), (Z.ltb_spec n 32); lia || done.
Qed.

Ltac region_tac := apply Z.bits_inj'; intros n Hn; rewrite ?Z.land_spec, ?region_bits by lia.

Lemma region_size s : 0 <= s <= 32 -> u32 (~~ (2 ^ s - 1)) = region s.
Proof.
  intros Hs. replace (2 ^ s - 1) with (Z.ones s) by (rewrite Z.ones_equiv; lia). region_tac.
  rewrite u32_bits, lnot_spec', Z.testbit_ones by lia. destruct (Z.leb_spec 0 n), (Z.leb_spec s n), (Z.ltb_spec n s), (n <? 32); lia || done.
Qed.

Lemma region_double k : 0 <= k < 32 -> u32 (region k << 1) = region (k + 1).
Proof.
  intros Hk. region_tac. rewrite u32_bits, Z.shiftl_spec by done. destruct (Z.leb_spec 1 n).
  - rewrite region_bits by lia. destruct (Z.leb_spec k (n - 1)), (Z.leb_spec (k + 1) n), (Z.ltb_spec (n - 1) 32), (Z.ltb_spec n 32); lia || done.
  - rewrite Z.testbit_neg_r by lia. destruct (Z.leb_spec (k + 1) n); [lia|]. now rewrite andb_false_r.
Qed.

Lemma region_land a k : 0 <= a <= 32 -> 0 <= k <= 32 -> region a .& region k = region (Z.max a k).
Proof.
  intros Ha Hk. region_tac. destruct (Z.leb_spec a n), (Z.leb_spec k n), (Z.leb_spec (Z.max a k) n), (n <? 32); lia || done.
Qed.

Lemma land_region_le v a k : 0 <= a <= k -> k <= 32 -> v .& region a .& region k = v .& region k.
Proof. intros Ha Hk. rewrite <- Z.land_assoc, region_land by lia. now replace (Z.max a k) with k by lia. Qed.

(** The loop ends with a region the two addresses share. *)
Lemma widen_region fuel k diff : 0 <= k <= 32 -> 32 - k < Z.of_nat fuel ->
  exists k', k <= k' <= 32 /\ widen fuel diff (region k) = region k' /\ diff .& region k' = 0.
Proof.
  revert k. induction fuel as [|fuel IH]; intros k Hk Hf; [lia|]. cbn [widen]. destruct (Z.eqb_spec (diff .& region k) 0) as [E|E]; [now exists k|].
  assert (k <> 32) by (intros ->; apply E; change (region 32) with 0; apply Z.land_0_r).
  rewrite region_double by lia. destruct (IH (k + 1)) as (k' & H1 & H2 & H3); [lia|lia|]. exists k'. split; [lia|done].
Qed.

(** A page of 2^s bytes at [v] is in the region. *)
Definition covered (t : cpu_common) (v s : Z) : Prop :=
  exists k, s <= k <= 32 /\ tlb_flush_mask t = region k /\ v .& region k = tlb_flush_addr t.

Definition region_ok (t : cpu_common) : Prop :=
  (tlb_flush_addr t = u32 (-1) /\ tlb_flush_mask t = 0)
  \/ exists k, 12 <= k <= 32 /\ tlb_flush_mask t = region k /\ tlb_flush_addr t .& region k = tlb_flush_addr t.

Lemma region_addr x k : 12 <= k <= 32 -> x .& region k <> u32 (-1).
Proof.
  intros Hk E. assert (Z.testbit (x .& region k) 0 = Z.testbit (u32 (-1)) 0) as X by now rewrite E.
  rewrite Z.land_spec, region_bits in X by lia. destruct (Z.leb_spec k 0); [lia|]. rewrite andb_comm in X. discriminate.
Qed.

Lemma add_large_page v s t (t' := tlb_add_large_page v (2 ^ s) t) : 12 <= s <= 32 -> region_ok t ->
  region_ok t' /\ covered t' v s /\ forall w j, 12 <= j -> covered t w j -> covered t' w j.
Proof.
  intros Hs R. subst t'. unfold tlb_add_large_page. rewrite region_size by lia. destruct R as [[Ra Rm]|(k & Hk & Rm & Ra)].
  - rewrite Ra. cbn [Z.eqb Pos.eqb]. change (u32 (-1) =? u32 (-1)) with true. cbn iota. split; [right; exists s|split].
    + split; [lia|]. split; [done|]. cbn. now rewrite land_region_le by lia.
    + now exists s.
    + intros w j Hj (k & Hk & Ek & Ew). exfalso. rewrite Ra in Ew. now apply (region_addr w k) in Ew; [|lia].
  - rewrite (proj2 (Z.eqb_neq _ _)) by (rewrite <- Ra; now apply region_addr). rewrite Rm, region_land by lia.
    destruct (widen_region 33 (Z.max s k) (tlb_flush_addr t .^ v)) as (k' & H1 & -> & H3); [lia|lia|].
    assert (tlb_flush_addr t .& region k' = v .& region k') as E.
    { apply Z.bits_inj'. intros n Hn. pose proof (f_equal (fun x => Z.testbit x n) H3) as X. cbn beta in X. rewrite Z.land_spec, Z.lxor_spec, Z.bits_0 in X.
      rewrite !Z.land_spec. now destruct (Z.testbit (region k') n), (Z.testbit (tlb_flush_addr t) n), (Z.testbit v n). }
    split; [right; exists k'|split].
    + split; [lia|]. split; [done|]. cbn. now rewrite land_region_le by lia.
    + exists k'. split; [lia|]. split; [done|]. cbn. now symmetry.
    + intros w j Hj (k2 & Hk2 & E2 & Ew). exists k'. split; [|split; [done|]].
      * split; [|lia]. rewrite Rm in E2. assert (k2 <= k) as L; [|lia]. destruct (Z.le_gt_cases k2 k) as [|G]; [done|exfalso].
        assert (Z.testbit (region k) k = Z.testbit (region k2) k) as X by now rewrite E2. rewrite !region_bits in X by lia.
        destruct (Z.leb_spec k k), (Z.ltb_spec k 32), (Z.leb_spec k2 k); lia || discriminate.
      * cbn. rewrite <- Ew, <- E2, Rm. now rewrite land_region_le by lia.
Qed.

Lemma same_region v w s k : 12 <= s <= k -> k <= 32 -> v >> s = w >> s -> v .& region k = w .& region k.
Proof.
  intros Hs Hk E. region_tac. destruct (Z.leb_spec k n); [|now rewrite !andb_false_r]. f_equal.
  replace n with (n - s + s) by lia. rewrite <- !(Z.shiftr_spec _ _ (n - s)) by lia. now rewrite E.
Qed.
(** ** Sequences of operations *)

Section Ops.
Context {M : Type} `{!Board M}.

(** [SetPage] maps the page at [vaddr], part of a guest page of 2^s bytes. *)
Inductive tlb_op :=
| SetPage (vaddr paddr prot mmu_idx s : Z) (m : M)
| FlushPage (addr : Z)
| Flush (flush_global : Z)
| SetDirty (vaddr : Z)
| UpdateDirty (m : M)
| ResetDirty (start1 length : Z).

Definition tlb_run1 (o : tlb_op) (t : cpu_common) : option cpu_common :=
  match o with
  | SetPage v p prot mm s m => tlb_set_page v p prot mm (2 ^ s) t m
  | FlushPage a => Some (tlb_flush_page a t)
  | Flush g => Some (tlb_flush g t)
  | SetDirty v => Some (tlb_set_dirty v t)
  | UpdateDirty m => Some (cpu_tlb_update_dirty m t)
  | ResetDirty a l => Some (tlb_reset_dirty a l t)
  end.

Definition tlb_run (os : list tlb_op) (t : cpu_common) : option cpu_common :=
  fold_left (fun t o => match t with Some t => tlb_run1 o t | None => None end) os (Some t).

(** Page-aligned addresses and page sizes that are powers of two; the x86 MMU maps
    pages of 4 KB, 2 MB and 4 MB. *)
Definition tlb_op_ok (o : tlb_op) : Prop :=
  match o with
  | SetPage v _ _ mm s _ => v .& TARGET_PAGE_MASK = v /\ mode_ok mm /\ 12 <= s <= 32
  | _ => True
  end.

(** The size with which a page was last mapped in a mode. *)
Definition last_size (mmu_idx page : Z) (os : list tlb_op) : option Z :=
  fold_left (fun acc o => match o with
    | SetPage v _ _ mm s _ => if (mm =? mmu_idx) && (v =? page) then Some s else acc
    | _ => acc
    end) os None.

Record tlb_inv (os : list tlb_op) (t : cpu_common) : Prop := {
  ti_shape : shape t;
  ti_region : region_ok t;
  ti_cached : forall mmu v, mode_ok mmu -> cached mmu v t = true ->
    exists s, last_size mmu (v .& TARGET_PAGE_MASK) os = Some s /\ (s = 12 \/ (12 < s /\ covered t (v .& TARGET_PAGE_MASK) s))
}.

Lemma last_size_snoc mmu page os o : last_size mmu page (os ++ [o]) =
  match o with SetPage v _ _ mm s _ => if (mm =? mmu) && (v =? page) then Some s else last_size mmu page os | _ => last_size mmu page os end.
Proof. unfold last_size. now rewrite fold_left_app. Qed.

Lemma shape_table t t' : tlb_table t' = tlb_table t -> shape t -> shape t'.
Proof. intros E [H2 H]. now split; rewrite E. Qed.

Lemma shape_map f t : shape t -> shape (t <| tlb_table := map (map f) (tlb_table t) |>).
Proof.
  intros [H2 H]. split; cbn [tlb_table over]; [now rewrite length_map|]. intros l Hl. apply in_map_iff in Hl. destruct Hl as (l0 & <- & Hl). rewrite length_map. auto.
Qed.

Lemma tlb_entry_map f t mmu i : shape t -> mode_ok mmu -> 0 <= i < 256 ->
  tlb_entry mmu i (t <| tlb_table := map (map f) (tlb_table t) |>) = f (tlb_entry mmu i t).
Proof.
  intros H Hm Hi. destruct (shape_tables t H) as (l0 & l1 & E & L0 & L1). unfold tlb_entry. cbn [tlb_table over]. rewrite E.
  assert (forall l, length l = 256%nat -> nth (Z.to_nat i) (map f l) s_cputlb_empty_entry = f (nth (Z.to_nat i) l s_cputlb_empty_entry)) as N.
  { intros l L. rewrite (nth_indep _ _ (f s_cputlb_empty_entry)) by (rewrite length_map; lia). apply map_nth. }
  destruct Hm as [-> | ->]; [apply (N l0 L0)|apply (N l1 L1)].
Qed.

Lemma flush_inv os t g : shape t -> tlb_inv os (tlb_flush g t).
Proof.
  intros H. constructor.
  - refine (shape_table _ (tlb_flush g t) _ (shape_map (fun _ => s_cputlb_empty_entry) t H)). reflexivity.
  - now left.
  - intros mmu v Hm Hc. exfalso. unfold cached in Hc.
    assert (tlb_entry mmu (tlb_index v) (tlb_flush g t) = s_cputlb_empty_entry) as E by exact (tlb_entry_map (fun _ => s_cputlb_empty_entry) t mmu _ H Hm (tlb_index_range v)).
    now rewrite E, valid_empty in Hc.
Qed.

(** An operation that keeps the region and makes no entry hit that did not. *)
Lemma inv_shrinks os o t t' : tlb_inv os t -> shape t' -> (forall mmu page, last_size mmu page (os ++ [o]) = last_size mmu page os) ->
  tlb_flush_addr t' = tlb_flush_addr t -> tlb_flush_mask t' = tlb_flush_mask t ->
  (forall mmu v, mode_ok mmu -> cached mmu v t' = true -> cached mmu v t = true) -> tlb_inv (os ++ [o]) t'.
Proof.
  intros [H1 H2 H3] S L Ea Em Hc. constructor; [exact S|unfold region_ok; now rewrite Ea, Em|].
  intros mmu v Hm C. destruct (H3 mmu v Hm (Hc _ _ Hm C)) as (s & E & D). exists s. rewrite L. split; [exact E|]. unfold covered in *. now rewrite Ea, Em.
Qed.

Lemma valid_write e w v : hits v w = hits v (addr_write e) -> valid v (e <| addr_write := w |>) = valid v e.
Proof. intros H. unfold valid. cbn [addr_read addr_write addr_code over]. now rewrite H. Qed.

Lemma no_flags x : x .& ~~ TARGET_PAGE_MASK = 0 -> x .& TARGET_PAGE_MASK = x.
Proof.
  intros H. apply Z.bits_inj'. intros n Hn. pose proof (f_equal (fun y => Z.testbit y n) H) as X. cbn beta in X.
  rewrite Z.land_spec, lnot_spec', Z.bits_0 in X by done. rewrite Z.land_spec. now destruct (Z.testbit x n), (Z.testbit TARGET_PAGE_MASK n).
Qed.

Lemma valid_reset_dirty a l e v : valid v (tlb_reset_dirty_range a l e) = valid v e.
Proof.
  unfold tlb_reset_dirty_range. destruct (Z.eqb_spec (addr_write e .& ~~ TARGET_PAGE_MASK) IO_MEM_RAM) as [E|]; [|done].
  destruct (_ <? _); [|done]. apply valid_write. rewrite no_flags by exact E. now apply hits_flags.
Qed.

Lemma valid_update_dirty (m : M) e v : valid v (tlb_update_dirty m e) = valid v e.
Proof.
  unfold tlb_update_dirty. destruct (_ =? _); [|done]. destruct (negb _); [|done]. apply valid_write. now apply hits_flags.
Qed.

Lemma valid_set_dirty a e v : valid v (tlb_set_dirty1 a e) = valid v e.
Proof.
  unfold tlb_set_dirty1. destruct (Z.eqb_spec (addr_write e) (a .| TLB_NOTDIRTY)) as [E|]; [|done]. apply valid_write. rewrite E. now rewrite hits_flags.
Qed.

Lemma all_entries_inv os o t f : tlb_inv os t -> (forall mmu page, last_size mmu page (os ++ [o]) = last_size mmu page os) ->
  (forall v e, valid v (f e) = valid v e) -> tlb_inv (os ++ [o]) (all_entries f t).
Proof.
  intros H L Hf. apply (inv_shrinks os o t); try done; [apply shape_map, H|].
  intros mmu v Hm. unfold cached, all_entries. rewrite tlb_entry_map by (auto using tlb_index_range; apply H). now rewrite Hf.
Qed.

Lemma both_modes t i f mmu v (t' := fold_left (fun t mm => upd_entry mm i f t) [0; 1] t) : shape t -> mode_ok mmu -> 0 <= i < 256 ->
  shape t' /\ cached mmu v t' = (if i =? tlb_index v then valid v (f (tlb_entry mmu i t)) else cached mmu v t).
Proof.
  intros H Hm Hi. subst t'. cbn [fold_left]. assert (shape (upd_entry 0 i f t)) as H0 by (apply shape_upd; [done|now left]).
  split; [apply shape_upd; [done|now right]|]. rewrite (cached_upd (upd_entry 0 i f t) 1 i f mmu v H0 (or_intror eq_refl) Hm Hi), cached_upd, tlb_entry_upd; auto; try now left.
  rewrite Z.eqb_refl. destruct Hm as [-> | ->]; cbn [Z.eqb Pos.eqb andb]; now destruct (i =? tlb_index v).
Qed.

Lemma tlb_index_page v : tlb_index (v .& TARGET_PAGE_MASK) = tlb_index v.
Proof.
  unfold tlb_index. f_equal. apply Z.bits_inj'. intros n Hn. rewrite !Z.shiftr_spec, page_of_bits by (unfold TARGET_PAGE_BITS; lia).
  unfold TARGET_PAGE_BITS. destruct (Z.leb_spec 12 (n + 12)); [now rewrite andb_true_r|lia].
Qed.

Lemma valid_flush_entry a e v : valid v (tlb_flush_entry a e) = true -> valid v e = true /\ v .& TARGET_PAGE_MASK <> a.
Proof.
  unfold tlb_flush_entry. destruct (_ || _) eqn:E; [now rewrite valid_empty|]. intros V. split; [exact V|]. intros <-.
  unfold valid, hits in V. congruence.
Qed.

Lemma flush_page_cached t a mmu v (t' := tlb_flush_page a t) : shape t -> mode_ok mmu -> a .& tlb_flush_mask t <> tlb_flush_addr t ->
  shape t' /\ tlb_flush_addr t' = tlb_flush_addr t /\ tlb_flush_mask t' = tlb_flush_mask t
  /\ (cached mmu v t' = true -> cached mmu v t = true /\ v .& TARGET_PAGE_MASK <> a .& TARGET_PAGE_MASK).
Proof.
  intros H Hm N. subst t'. unfold tlb_flush_page. rewrite (proj2 (Z.eqb_neq _ _) N). set (p := a .& TARGET_PAGE_MASK).
  destruct (both_modes (t <| current_tb := 0 |>) (tlb_index p) (tlb_flush_entry p) mmu v) as [S C]; [now apply (shape_table t)|done|apply tlb_index_range|].
  split; [revert S; now apply shape_table|]. split; [done|]. split; [done|].
  change (cached mmu v (tlb_flush_jmp_cache ?a ?x)) with (cached mmu v x). rewrite C. destruct (Z.eqb_spec (tlb_index p) (tlb_index v)) as [E|E].
  - intros V. apply valid_flush_entry in V. destruct V as [V Hp]. split; [|exact Hp]. unfold cached. now rewrite <- E.
  - intros V. split; [exact V|]. intros Hp. apply E. now rewrite <- Hp, tlb_index_page.
Qed.

Lemma valid_new va w pd prot ad v (m : M) :
  va .& TARGET_PAGE_MASK = va -> let code := if (IO_MEM_ROM <? pd .& ~~ TARGET_PAGE_MASK) && negb (tst pd IO_MEM_ROMD) then va .| TLB_MMIO else va in
  valid v (new_entry va (if (w : bool) then code .| TLB_MMIO else code) code pd prot ad m) = true -> v .& TARGET_PAGE_MASK = va.
Proof.
  intros Hv code V. apply Z.eqb_eq. rewrite <- hits_page by exact Hv. revert V. unfold valid, new_entry. cbn [addr_read addr_write addr_code].
  assert (hits v code = hits v va) as C by (unfold code; destruct (_ && _); [now apply hits_flags|done]).
  assert (hits v (if w then code .| TLB_MMIO else code) = hits v va) as A by (destruct w; [now rewrite hits_flags|exact C]).
  destruct (hits v va); [done|]. repeat (destruct (tst _ _); cbn [orb]); repeat (destruct (_ =? _); cbn [orb andb]);
    repeat match goal with |- context [if ?b then _ else _] => destruct b end; rewrite ?hits_flags, ?A, ?C, ?hits_none by reflexivity; discriminate.
Qed.

(** The access a fill allows. *)
Definition grants (kind prot : Z) : bool := tst prot (if kind =? 2 then PAGE_EXEC else if kind =? 1 then PAGE_WRITE else PAGE_READ).

Lemma new_hits va w pd prot ad v kind (m : M) : va .& TARGET_PAGE_MASK = va -> v .& TARGET_PAGE_MASK = va ->
  let code := if (IO_MEM_ROM <? pd .& ~~ TARGET_PAGE_MASK) && negb (tst pd IO_MEM_ROMD) then va .| TLB_MMIO else va in
  hits v (addr_of kind (new_entry va (if (w : bool) then code .| TLB_MMIO else code) code pd prot ad m)) = grants kind prot.
Proof.
  intros Hv Hp code. assert (hits v va = true) as C0 by (rewrite hits_page by exact Hv; now apply Z.eqb_eq).
  assert (hits v code = true) as C by (unfold code; destruct (_ && _); [now rewrite hits_flags|exact C0]).
  assert (hits v (if w then code .| TLB_MMIO else code) = true) as A by (destruct w; [now rewrite hits_flags|exact C]).
  revert A. generalize (if w then code .| TLB_MMIO else code). intros adr A.
  unfold addr_of, grants, new_entry. cbn [addr_read addr_write addr_code]. destruct (kind =? 2); [destruct (tst prot PAGE_EXEC); [exact C|apply hits_none]|].
  destruct (kind =? 1); [|destruct (tst prot PAGE_READ); [exact A|apply hits_none]].
  destruct (tst prot PAGE_WRITE); [|apply hits_none]. repeat match goal with |- context [if ?b then _ else _] => destruct b end; rewrite ?hits_flags by reflexivity; exact A.
Qed.

(** What a fill does to the table. *)
Lemma set_page_entries va pa prot mm s t (m : M) : va .& TARGET_PAGE_MASK = va -> 12 <= s -> shape t -> mode_ok mm ->
  let p := phys_page_find (pa >> TARGET_PAGE_BITS) m in let pd := page_pd p in
  let code := if (IO_MEM_ROM <? pd .& ~~ TARGET_PAGE_MASK) && negb (tst pd IO_MEM_ROMD) then va .| TLB_MMIO else va in
  let new := new_entry va (if watched va prot (watchpoints t) then code .| TLB_MMIO else code) code pd prot (ulong (qemu_get_ram_ptr (pd .& TARGET_PAGE_MASK) m)) m in
  exists t', tlb_set_page va pa prot mm (2 ^ s) t m = Some t' /\ shape t' /\ watchpoints t' = watchpoints t
  /\ forall mmu j, mode_ok mmu -> 0 <= j < 256 -> tlb_entry mmu j t' = if (mm =? mmu) && (tlb_index va =? j) then new else tlb_entry mmu j t.
Proof.
  intros Hv Hs H Hm p pd code new. unfold tlb_set_page. fold p. fold pd.
  assert (2 ^ 12 <= 2 ^ s) as P by (apply Z.pow_le_mono_r; lia). rewrite (proj2 (Z.ltb_ge _ _)) by exact P.
  set (t1 := if negb (2 ^ s =? TARGET_PAGE_SIZE) then tlb_add_large_page va (2 ^ s) t else t).
  assert (tlb_table t1 = tlb_table t /\ watchpoints t1 = watchpoints t) as [T1 W1] by (unfold t1, tlb_add_large_page; destruct (negb (2 ^ s =? TARGET_PAGE_SIZE)); [destruct (tlb_flush_addr t =? u32 (-1))|]; split; reflexivity).
  clearbody t1. rewrite W1. fold code. fold new. set (t2 := t1 <| iotlb := _ |>). assert (tlb_table t2 = tlb_table t) as T2 by exact T1. assert (watchpoints t2 = watchpoints t) as W2 by exact W1. clearbody t2.
  assert (shape t2) as S2 by now apply (shape_table t). eexists. split; [reflexivity|]. split; [now apply shape_upd|]. split; [exact W2|].
  intros mmu j Hm' Hj. rewrite tlb_entry_upd by (auto using tlb_index_range). unfold tlb_entry. now rewrite T2.
Qed.

Lemma set_page_inv os va pa prot mm s m t t' : tlb_inv os t -> tlb_op_ok (SetPage va pa prot mm s m) ->
  tlb_set_page va pa prot mm (2 ^ s) t m = Some t' -> tlb_inv (os ++ [SetPage va pa prot mm s m]) t'.
Proof.
  intros [H1 H2 H3] (Hv & Hmm & Hs). unfold tlb_set_page. destruct (_ <? _); [discriminate|].
  set (t1 := if negb (2 ^ s =? TARGET_PAGE_SIZE) then tlb_add_large_page va (2 ^ s) t else t).
  assert (shape t1 /\ region_ok t1 /\ (s = 12 \/ (12 < s /\ covered t1 va s)) /\ (forall w j, 12 <= j -> covered t w j -> covered t1 w j) /\ tlb_table t1 = tlb_table t) as (S1 & R1 & C1 & K1 & T1).
  { unfold t1. destruct (Z.eqb_spec (2 ^ s) TARGET_PAGE_SIZE) as [E|E]; cbn [negb].
    - assert (s = 12) by (apply (Z.pow_inj_r 2); [lia|lia|lia|exact E]). split_and!; auto.
    - assert (12 < s) by (destruct (decide (s = 12)) as [->|]; [now contradiction E|lia]). destruct (add_large_page va s t Hs H2) as (A & B & C).
      assert (tlb_table (tlb_add_large_page va (2 ^ s) t) = tlb_table t) as T by (unfold tlb_add_large_page; now destruct (_ =? _)).
      split_and!; auto. now apply (shape_table t). }
  clearbody t1. intros [= <-]. set (t2 := t1 <| iotlb := _ |>). assert (shape t2) as S2 by now apply (shape_table t1).
  assert (forall mmu v, cached mmu v t2 = cached mmu v t) as E2 by (intros; unfold cached, tlb_entry; change (tlb_table t2) with (tlb_table t1); now rewrite T1).
  constructor; [now apply shape_upd|exact R1|]. intros mmu v Hm. rewrite cached_upd, E2 by (auto; apply tlb_index_range). rewrite last_size_snoc.
  destruct ((mm =? mmu) && (tlb_index va =? tlb_index v)) eqn:D.
  - intros V. apply valid_new in V; [|exact Hv]. apply andb_prop in D. destruct D as [D _]. rewrite D, <- V, Z.eqb_refl. cbn [andb]. exists s. split; [done|]. now rewrite V.
  - intros V. destruct (H3 mmu v Hm V) as (j & E & J). exists j. split; [|destruct J as [J|[J J']]; [now left|right; split; [done|apply K1; [lia|exact J']]]].
    destruct (Z.eqb_spec mm mmu) as [->|]; [|exact E]. destruct (Z.eqb_spec va (v .& TARGET_PAGE_MASK)) as [->|]; [|exact E].
    rewrite tlb_index_page, Z.eqb_refl in D. discriminate.
Qed.

Lemma tlb_run1_inv os o t t' : tlb_inv os t -> tlb_op_ok o -> tlb_run1 o t = Some t' -> tlb_inv (os ++ [o]) t'.
Proof.
  intros H Ho E. destruct o as [va pa prot mm s m|a|g|a|m|a l]; cbn [tlb_run1] in E.
  - exact (set_page_inv _ _ _ _ _ _ _ _ _ H Ho E).
  - injection E as <-. destruct (Z.eq_dec (a .& tlb_flush_mask t) (tlb_flush_addr t)) as [X|X].
    + unfold tlb_flush_page. rewrite (proj2 (Z.eqb_eq _ _) X). apply flush_inv, H.
    + apply (inv_shrinks os _ t); [exact H| |intros; apply last_size_snoc| | |];
        [| | |intros mmu v Hm V; exact (proj1 (proj2 (proj2 (proj2 (flush_page_cached t a mmu v (ti_shape _ _ H) Hm X))) V))];
        apply (flush_page_cached t a 0 0 (ti_shape _ _ H) (or_introl eq_refl) X).
  - injection E as <-. apply flush_inv, H.
  - injection E as <-. destruct (both_modes t (tlb_index (a .& TARGET_PAGE_MASK)) (tlb_set_dirty1 (a .& TARGET_PAGE_MASK)) 0 0 (ti_shape _ _ H) (or_introl eq_refl) (tlb_index_range _)) as [S _].
    apply (inv_shrinks os _ t); [exact H|exact S|intros; apply last_size_snoc|done|done|]. intros mmu v Hm V. unfold tlb_set_dirty in V.
    rewrite (proj2 (both_modes t _ _ mmu v (ti_shape _ _ H) Hm (tlb_index_range _))), valid_set_dirty in V.
    destruct (Z.eqb_spec (tlb_index (a .& TARGET_PAGE_MASK)) (tlb_index v)) as [X|]; [|exact V]. unfold cached. now rewrite <- X.
  - injection E as <-. apply all_entries_inv; [exact H|intros; apply last_size_snoc|intros; apply valid_update_dirty].
  - injection E as <-. apply all_entries_inv; [exact H|intros; apply last_size_snoc|intros; apply valid_reset_dirty].
Qed.

Lemma tlb_run_inv os t0 t : shape t0 -> Forall tlb_op_ok os -> tlb_run os (tlb_flush 1 t0) = Some t -> tlb_inv os t.
Proof.
  intros H. revert t. induction os as [|o os IH] using rev_ind; intros t F; [intros [= <-]; now apply flush_inv|].
  apply List.Forall_app in F. destruct F as [F Fo]. apply List.Forall_inv in Fo. unfold tlb_run. rewrite fold_left_app. cbn [fold_left].
  destruct (fold_left _ os _) as [t1|] eqn:E; [|discriminate]. exact (tlb_run1_inv os o t1 t (IH _ F E) Fo).
Qed.

(** C16: The guest's page invalidation: over any sequence of fills, flushes and
    dirty-tracking updates since a full flush, invalidating an address leaves no
    entry, for any access and in either mode, of a page that was last mapped as
    part of the same guest page, be it of 4 KB, 2 MB, 4 MB or any other size. *)
Theorem tlb_flush_page_drops os t0 t addr mmu v s : shape t0 -> Forall tlb_op_ok os -> tlb_run os (tlb_flush 1 t0) = Some t ->
  mode_ok mmu -> last_size mmu (v .& TARGET_PAGE_MASK) os = Some s -> v >> s = addr >> s ->
  cached mmu v (tlb_flush_page addr t) = false.
Proof.
  intros H0 F E Hm L Hp. pose proof (tlb_run_inv os t0 t H0 F E) as [H1 H2 H3].
  destruct (cached mmu v (tlb_flush_page addr t)) eqn:C; [exfalso|done].
  destruct (Z.eq_dec (addr .& tlb_flush_mask t) (tlb_flush_addr t)) as [X|X].
  - unfold tlb_flush_page in C. rewrite (proj2 (Z.eqb_eq _ _) X) in C.
    destruct (ti_cached [] _ (flush_inv [] t 1 H1) mmu v Hm C) as (j & J & _). discriminate.
  - destruct (flush_page_cached t addr mmu v H1 Hm X) as (_ & _ & _ & N). destruct (N C) as [V P].
    destruct (H3 mmu v Hm V) as (j & Ej & D). rewrite L in Ej. injection Ej as <-. destruct D as [-> | [D (k & Hk & Ek & Ea)]].
    + apply P. apply Z.bits_inj'. intros n Hn. rewrite !page_of_bits by done. destruct (Z.leb_spec 12 n); [|now rewrite !andb_false_r]. f_equal.
      replace n with (n - 12 + 12) by lia. rewrite <- !(Z.shiftr_spec _ _ (n - 12)) by lia. now rewrite Hp.
    + apply X. rewrite <- Ea, Ek. rewrite (same_region addr v s k) by (auto; lia). apply Z.bits_inj'. intros n Hn.
      rewrite !(Z.land_spec _ (region k)), page_of_bits, region_bits by lia. destruct (Z.leb_spec k n), (Z.leb_spec 12 n); rewrite ?andb_true_r, ?andb_false_r; lia || done.
Qed.
End Ops.
End Tlb.
End SoftTlb.
