(* ===== verification/PhysMap.v ===== *)
(** * The physical memory map of exec.c

    The multi-level page map, the table of I/O zones, pages shared by several
    zones, and the registration of memory.  What an address reaches is [reach];
    a registration overrides it on its range. *)

From S2P Require Import Prelude SoftTlb.

Module PhysMap.
Import SoftTlb.

(** ** Constants *)

Definition TARGET_PHYS_ADDR_SPACE_BITS : Z := 36.
Definition L2_BITS : Z := 10.
Definition L2_SIZE : Z := 1 << L2_BITS.
Definition P_L1_BITS_REM : Z := Z.rem (TARGET_PHYS_ADDR_SPACE_BITS - TARGET_PAGE_BITS) L2_BITS.
Definition P_L1_BITS : Z := if P_L1_BITS_REM <? 4 then P_L1_BITS_REM + L2_BITS else P_L1_BITS_REM.
Definition P_L1_SIZE : Z := 1 << P_L1_BITS.
Definition P_L1_SHIFT : Z := TARGET_PHYS_ADDR_SPACE_BITS - TARGET_PAGE_BITS - P_L1_BITS.
Definition IO_MEM_SUBPAGE : Z := 2.

(** ** State *)

Inductive device_endian := DEVICE_NATIVE_ENDIAN | DEVICE_BIG_ENDIAN | DEVICE_LITTLE_ENDIAN.

(** A handler of a zone: one of exec.c, or a device's. *)
Inductive mem_fn (F : Type) :=
| unassigned_mem | notdirty_mem | watch_mem | subpage_mem | swapendian_mem
| device_mem (f : F).
Arguments unassigned_mem {F}.
Arguments notdirty_mem {F}.
Arguments watch_mem {F}.
Arguments subpage_mem {F}.
Arguments swapendian_mem {F}.
Arguments device_mem {F} f.

(** What a handler is passed: nothing, a [subpage_t] or a [SwapEndianContainer] by
    its place in the heap, or a device. *)
Inductive opaque (D : Type) := no_opaque | subpage_ptr (n : nat) | swap_ptr (n : nat) | device_ptr (o : D).
Arguments no_opaque {D}.
Arguments subpage_ptr {D} n.
Arguments swap_ptr {D} n.
Arguments device_ptr {D} o.

Record subpage_t := mkSubpage { base : Z; sub_io_index : list Z; sub_region_offset : list Z }.
#[export] Instance subpage_eta : Eta subpage_t := fun s => mkSubpage (base s) (sub_io_index s) (sub_region_offset s).

Section Map.
Context {HW : HostWidth} {F D : Type}.

Record SwapEndianContainer := mkSwap { c_read : list (mem_fn F); c_write : list (mem_fn F); c_opaque : opaque D }.

(** The page map has three levels on a 36-bit address space; a table that is not
    in its map is NULL. *)
Abbreviation page_map := (gmap Z (gmap Z (list PhysPageDesc))).

Record phys_map := mkPhysMap {
  l1_phys_map : page_map;
  io_mem_read : list (list (mem_fn F));
  io_mem_write : list (list (mem_fn F));
  io_mem_opaque : list (opaque D);
  io_mem_used : list bool;
  io_mem_watch : Z;
  subpages : list subpage_t;
  swaps : list SwapEndianContainer
}.
#[export] Instance phys_map_eta : Eta phys_map := fun s =>
  mkPhysMap (l1_phys_map s) (io_mem_read s) (io_mem_write s) (io_mem_opaque s) (io_mem_used s) (io_mem_watch s) (subpages s) (swaps s).

(** ** Pages *)

Definition l1_index (index : Z) : Z := (index >> P_L1_SHIFT) .& (P_L1_SIZE - 1).
(** The loop over the levels between runs once, with [i] 1. *)
Definition l2_index (index : Z) : Z := (index >> (1 * L2_BITS)) .& (L2_SIZE - 1).
Definition leaf_index (index : Z) : Z := index .& (L2_SIZE - 1).

Definition new_leaf (index : Z) : list PhysPageDesc :=
  map (fun i => mkPage IO_MEM_UNASSIGNED (ulong ((index + Z.of_nat i) << TARGET_PAGE_BITS))) (seq 0 (Z.to_nat L2_SIZE)).

Definition phys_page_find (index : Z) (t : page_map) : option PhysPageDesc :=
  match t !! l1_index index with
  | None => None
  | Some p => match p !! l2_index index with None => None | Some pd => pd !! Z.to_nat (leaf_index index) end
  end.

(** [phys_page_find_alloc] with [alloc]: the tables on the way exist after it. *)
Definition phys_page_alloc (index : Z) (t : page_map) : page_map :=
  let p := default ∅ (t !! l1_index index) in
  let pd := default (new_leaf index) (p !! l2_index index) in
  <[l1_index index := <[l2_index index := pd]> p]> t.

(** A store through the pointer it returns. *)
Definition upd_page (index : Z) (f : PhysPageDesc -> PhysPageDesc) (t : page_map) : page_map :=
  alter (alter (alter f (Z.to_nat (leaf_index index))) (l2_index index)) (l1_index index) t.

(** ** I/O zones *)

Fixpoint first_free (used : list bool) (i : Z) : option Z :=
  match used with
  | [] => None
  | u :: used => if u then first_free used (i + 1) else Some i
  end.

Definition get_free_io_mem_idx (s : phys_map) : Z * phys_map :=
  match first_free (io_mem_used s) 0 with
  | Some i => (i, s <| io_mem_used := <[Z.to_nat i := true]> (io_mem_used s) |>)
  | None => (-1, s)
  end.

(** NULL handlers are those of unassigned memory. *)
Definition or_unassigned (l : list (option (mem_fn F))) : list (mem_fn F) := map (default unassigned_mem) l.

Definition swapendian_init (io_index : Z) (s : phys_map) : phys_map :=
  let i := Z.to_nat io_index in
  let c := mkSwap (nth i (io_mem_read s) []) (nth i (io_mem_write s) []) (nth i (io_mem_opaque s) no_opaque) in
  s <| io_mem_read := <[i := replicate 3 swapendian_mem]> (io_mem_read s) |>
    <| io_mem_write := <[i := replicate 3 swapendian_mem]> (io_mem_write s) |>
    <| io_mem_opaque := <[i := swap_ptr (length (swaps s))]> (io_mem_opaque s) |>
    <| swaps := swaps s ++ [c] |>.

Definition cpu_register_io_memory_fixed (io_index : Z) (mem_read mem_write : list (option (mem_fn F))) (op : opaque D) (endian : device_endian) (s : phys_map) : Z * phys_map :=
  let '(io_index, s) :=
    if io_index <=? 0 then get_free_io_mem_idx s
    else let io_index := io_index >> IO_MEM_SHIFT in ((if IO_MEM_NB_ENTRIES <=? io_index then -1 else io_index), s) in
  if io_index =? -1 then (-1, s)
  else
    let i := Z.to_nat io_index in
    let s := s <| io_mem_read := <[i := or_unassigned mem_read]> (io_mem_read s) |>
               <| io_mem_write := <[i := or_unassigned mem_write]> (io_mem_write s) |>
               <| io_mem_opaque := <[i := op]> (io_mem_opaque s) |> in
    let s := match endian with DEVICE_BIG_ENDIAN => swapendian_init io_index s | _ => s end in
    (io_index << IO_MEM_SHIFT, s).

Definition cpu_register_io_memory := cpu_register_io_memory_fixed 0.

Definition cpu_unregister_io_memory (io_table_address : Z) (s : phys_map) : phys_map :=
  let i := Z.to_nat (io_table_address >> IO_MEM_SHIFT) in
  s <| io_mem_read := <[i := replicate 3 unassigned_mem]> (io_mem_read s) |>
    <| io_mem_write := <[i := replicate 3 unassigned_mem]> (io_mem_write s) |>
    <| io_mem_opaque := <[i := no_opaque]> (io_mem_opaque s) |>
    <| io_mem_used := <[i := false]> (io_mem_used s) |>.

Definition io_mem_init (s : phys_map) : phys_map :=
  let all f := replicate 3 (Some f) in
  let none := replicate 3 None in
  let '(_, s) := cpu_register_io_memory_fixed IO_MEM_ROM none (all unassigned_mem) no_opaque DEVICE_NATIVE_ENDIAN s in
  let '(_, s) := cpu_register_io_memory_fixed IO_MEM_UNASSIGNED (all unassigned_mem) (all unassigned_mem) no_opaque DEVICE_NATIVE_ENDIAN s in
  let '(_, s) := cpu_register_io_memory_fixed IO_MEM_NOTDIRTY none (all notdirty_mem) no_opaque DEVICE_NATIVE_ENDIAN s in
  let s := s <| io_mem_used := replicate 5 true ++ drop 5 (io_mem_used s) |> in
  let '(watch, s) := cpu_register_io_memory (all watch_mem) (all watch_mem) no_opaque DEVICE_NATIVE_ENDIAN s in
  s <| io_mem_watch := watch |>.

(** Static storage at the start of the program. *)
Definition phys_map_zero : phys_map :=
  let n := Z.to_nat IO_MEM_NB_ENTRIES in
  mkPhysMap ∅ (replicate n []) (replicate n []) (replicate n no_opaque) (replicate n false) 0 [] [].

(** ** Pages shared by zones *)

Definition SUBPAGE_IDX (addr : Z) : Z := addr .& ~~ TARGET_PAGE_MASK.

Definition fill {A} (idx eidx : Z) (x : A) (l : list A) : list A :=
  imap (fun i y => if (idx <=? Z.of_nat i) && (Z.of_nat i <=? eidx) then x else y) l.

Definition subpage_register (start end_ memory region_offset : Z) (mmio : subpage_t) : subpage_t :=
  if (TARGET_PAGE_SIZE <=? start) || (TARGET_PAGE_SIZE <=? end_) then mmio
  else
    let idx := SUBPAGE_IDX start in
    let eidx := SUBPAGE_IDX end_ in
    let memory := if memory .& ~~ TARGET_PAGE_MASK =? IO_MEM_RAM then IO_MEM_UNASSIGNED else memory in
    let memory := (memory >> IO_MEM_SHIFT) .& (IO_MEM_NB_ENTRIES - 1) in
    mmio <| sub_io_index := fill idx eidx memory (sub_io_index mmio) |>
         <| sub_region_offset := fill idx eidx region_offset (sub_region_offset mmio) |>.

(** Also returned: the place of the new [subpage_t], and the value stored at [phys]. *)
Definition subpage_init (base orig_memory region_offset : Z) (s : phys_map) : nat * Z * phys_map :=
  let n := length (subpages s) in
  let zeroes := replicate (Z.to_nat TARGET_PAGE_SIZE) 0 in
  let mmio := mkSubpage base zeroes zeroes in
  let all := replicate 3 (Some subpage_mem) in
  let '(subpage_memory, s) := cpu_register_io_memory all all (subpage_ptr n) DEVICE_NATIVE_ENDIAN s in
  let mmio := subpage_register 0 (TARGET_PAGE_SIZE - 1) orig_memory region_offset mmio in
  (n, ulong (subpage_memory .| IO_MEM_SUBPAGE), s <| subpages := subpages s ++ [mmio] |>).

(** ** Registration *)

(** [CHECK_SUBPAGE]: the part of the page of [addr], and whether it is not all. *)
Definition check_subpage (addr start_addr orig_size : Z) : Z * Z * bool :=
  let start2 := if start_addr <? addr then 0 else start_addr .& ~~ TARGET_PAGE_MASK in
  let need1 := negb (start_addr <? addr) && (0 <? start2) in
  let whole := TARGET_PAGE_SIZE <=? u64 (u64 (start_addr + orig_size) - addr) in
  let end2 := if whole then TARGET_PAGE_SIZE - 1 else u64 (start_addr + orig_size - 1) .& ~~ TARGET_PAGE_MASK in
  let need2 := negb whole && (end2 <? TARGET_PAGE_SIZE - 1) in
  (start2, end2, need1 || need2).

(** Memory the CPU may access without a handler: the offset advances with the page. *)
Definition ram_like (phys_offset : Z) : bool := (phys_offset .& ~~ TARGET_PAGE_MASK <=? IO_MEM_ROM) || tst phys_offset IO_MEM_ROMD.

Definition set_page (addr : Z) (f : PhysPageDesc -> PhysPageDesc) (s : phys_map) : phys_map :=
  s <| l1_phys_map := upd_page (addr >> TARGET_PAGE_BITS) f (l1_phys_map s) |>.

Definition with_offset (phys : Z) (p : PhysPageDesc) : PhysPageDesc := mkPage phys (region_offset p).
Definition with_region (r : Z) (p : PhysPageDesc) : PhysPageDesc := mkPage (phys_offset p) r.

(** The part of a shared page that gets the zone. *)
Definition share_page (addr start2 end2 phys_offset region_offset : Z) (n : nat) (s : phys_map) : phys_map :=
  set_page addr (with_region 0) (s <| subpages := alter (subpage_register start2 end2 phys_offset region_offset) n (subpages s) |>).

(** A page that has been registered. *)
Definition register_over (addr start_addr orig_size phys_offset region_offset : Z) (p : PhysPageDesc) (s : phys_map) : Z * phys_map :=
  let orig_memory := SoftTlb.phys_offset p in
  let '(start2, end2, need_subpage) := check_subpage addr start_addr orig_size in
  if need_subpage then
    if negb (tst orig_memory IO_MEM_SUBPAGE) then
      let '(n, phys, s) := subpage_init (addr .& TARGET_PAGE_MASK) orig_memory (SoftTlb.region_offset p) s in
      (phys_offset, share_page addr start2 end2 phys_offset region_offset n (set_page addr (with_offset phys) s))
    else
      (* a zone with the flag has a [subpage_t] *)
      match nth (Z.to_nat ((orig_memory .& ~~ TARGET_PAGE_MASK) >> IO_MEM_SHIFT)) (io_mem_opaque s) no_opaque with
      | subpage_ptr n => (phys_offset, share_page addr start2 end2 phys_offset region_offset n s)
      | _ => (phys_offset, s)
      end
  else (if ram_like phys_offset then ulong (phys_offset + TARGET_PAGE_SIZE) else phys_offset, set_page addr (with_offset phys_offset) s).

(** A page without memory. *)
Definition register_new (addr start_addr orig_size phys_offset region_offset : Z) (s : phys_map) : Z * phys_map :=
  let s := s <| l1_phys_map := phys_page_alloc (addr >> TARGET_PAGE_BITS) (l1_phys_map s) |> in
  let s := set_page addr (fun _ => mkPage phys_offset region_offset) s in
  if ram_like phys_offset then (ulong (phys_offset + TARGET_PAGE_SIZE), s)
  else
    let '(start2, end2, need_subpage) := check_subpage addr start_addr orig_size in
    if need_subpage then
      let '(n, phys, s) := subpage_init (addr .& TARGET_PAGE_MASK) IO_MEM_UNASSIGNED (ulong (addr .& TARGET_PAGE_MASK)) s in
      (phys_offset, share_page addr start2 end2 phys_offset region_offset n (set_page addr (with_offset phys) s))
    else (phys_offset, s).

(** One turn of the loop; with the offset for the next page. *)
Definition register_page (addr start_addr orig_size phys_offset region_offset : Z) (s : phys_map) : Z * phys_map :=
  match phys_page_find (addr >> TARGET_PAGE_BITS) (l1_phys_map s) with
  | Some p =>
      if negb (SoftTlb.phys_offset p =? IO_MEM_UNASSIGNED) then register_over addr start_addr orig_size phys_offset region_offset p s
      else register_new addr start_addr orig_size phys_offset region_offset s
  | None => register_new addr start_addr orig_size phys_offset region_offset s
  end.

Fixpoint register_pages (n : nat) (addr start_addr orig_size phys_offset region_offset : Z) (s : phys_map) : phys_map :=
  match n with
  | O => s
  | S n =>
      let '(phys_offset, s) := register_page addr start_addr orig_size phys_offset region_offset s in
      register_pages n (u64 (addr + TARGET_PAGE_SIZE)) start_addr orig_size phys_offset (ulong (region_offset + TARGET_PAGE_SIZE)) s
  end.

(** The loop from [start_addr] in steps of a page until [end_addr] has a turn for
    each page of the size, and takes all of 64 bits if that wrapped to 0. *)
Definition register_turns (size : Z) : nat :=
  let pages := ulong (size + TARGET_PAGE_SIZE - 1) >> TARGET_PAGE_BITS in
  Z.to_nat (if pages =? 0 then 1 << (64 - TARGET_PAGE_BITS) else pages).

(** With the translation caches of all CPUs; [None] is the failed assertion. *)
Definition cpu_register_physical_memory_log (start_addr size phys_offset region_offset : Z) (s : phys_map) (cpus : list cpu_common) : option (phys_map * list cpu_common) :=
  if size =? 0 then None
  else
    let region_offset := if phys_offset =? IO_MEM_UNASSIGNED then ulong start_addr else region_offset in
    let region_offset := region_offset .& TARGET_PAGE_MASK in
    Some (register_pages (register_turns size) start_addr start_addr size phys_offset region_offset s, map (tlb_flush 1) cpus).

Definition cpu_get_physical_page_desc (addr : Z) (s : phys_map) : Z :=
  match phys_page_find (addr >> TARGET_PAGE_BITS) (l1_phys_map s) with Some p => SoftTlb.phys_offset p | None => IO_MEM_UNASSIGNED end.

(** ** What an address reaches *)

(** A byte of RAM, or an address passed to the handlers of a zone; the zones of ROM
    and of unassigned memory have the handlers of unassigned memory. *)
Inductive target := Ram (offset : Z) | Io (index addr : Z) | Unassigned.

Definition zone (index addr : Z) : target :=
  if (index =? IO_MEM_ROM >> IO_MEM_SHIFT) || (index =? IO_MEM_UNASSIGNED >> IO_MEM_SHIFT) then Unassigned else Io index addr.

(** Through the zone of a shared page, as [subpage_readlen] and [subpage_writelen]. *)
Definition through (index addr : Z) (s : phys_map) : target :=
  match nth (Z.to_nat index) (io_mem_opaque s) no_opaque with
  | subpage_ptr n =>
      let mmio := nth n (subpages s) (mkSubpage 0 [] []) in
      let idx := SUBPAGE_IDX addr in
      zone (aget (sub_io_index mmio) idx) (u64 (addr + aget (sub_region_offset mmio) idx))
  | _ => zone index addr
  end.

Definition io_case (is_write : bool) (pd : Z) : bool :=
  if is_write then negb (pd .& ~~ TARGET_PAGE_MASK =? IO_MEM_RAM)
  else (IO_MEM_ROM <? pd .& ~~ TARGET_PAGE_MASK) && negb (tst pd IO_MEM_ROMD).

Definition reach (is_write : bool) (addr : Z) (s : phys_map) : target :=
  let p := phys_page_find (addr >> TARGET_PAGE_BITS) (l1_phys_map s) in
  let pd := page_pd p in
  if io_case is_write pd then
    through ((pd >> IO_MEM_SHIFT) .& (IO_MEM_NB_ENTRIES - 1))
      (match p with Some p => u64 ((addr .& ~~ TARGET_PAGE_MASK) + SoftTlb.region_offset p) | None => addr end) s
  else Ram (ulong ((pd .& TARGET_PAGE_MASK) + (addr .& ~~ TARGET_PAGE_MASK))).
(** ** Lookups *)

Definition page_ok (i : Z) : Prop := in_u 24 i.

Lemma indices i : page_ok i -> l1_index i = i / 2 ^ 20 /\ l2_index i = (i / 2 ^ 10) mod 2 ^ 10 /\ leaf_index i = i mod 2 ^ 10.
Proof.
  intros [H0 H1]. unfold l1_index, l2_index, leaf_index. change P_L1_SHIFT with 20. change (P_L1_SIZE - 1) with (Z.ones 4). change (1 * L2_BITS) with 10. change (L2_SIZE - 1) with (Z.ones 10).
  rewrite !Z.land_ones, !Z.shiftr_div_pow2 by lia. split; [|done]. apply Z.mod_small. change (2 ^ 24) with 16777216 in H1. split; [apply Z.div_pos; lia|apply Z.div_lt_upper_bound; lia].
Qed.

Lemma index_inj i j : page_ok i -> page_ok j -> l1_index i = l1_index j -> l2_index i = l2_index j -> leaf_index i = leaf_index j -> i = j.
Proof.
  intros Hi Hj. destruct (indices i Hi) as (-> & -> & ->), (indices j Hj) as (-> & -> & ->). intros E1 E2 E3.
  change (2 ^ 20) with (2 ^ 10 * 2 ^ 10) in E1. rewrite <- !Z.div_div in E1 by lia. change (2 ^ 10) with 1024 in *. Z.div_mod_to_equations. lia.
Qed.

Lemma leaf_range i : 0 <= leaf_index i < 1024.
Proof. unfold leaf_index. change (L2_SIZE - 1) with (Z.ones 10). rewrite Z.land_ones by lia. apply Z.mod_pos_bound. lia. Qed.

Definition leaves_ok (t : page_map) : Prop := forall a p b pd, t !! a = Some p -> p !! b = Some pd -> length pd = 1024%nat.

Lemma leaves_alloc i t : leaves_ok t -> leaves_ok (phys_page_alloc i t).
Proof.
  intros H a p b pd. unfold phys_page_alloc. rewrite lookup_insert. case_decide as E; [|apply H]. intros [= <-]. rewrite lookup_insert. case_decide.
  - intros [= <-]. destruct (t !! l1_index i) as [q|] eqn:Q; cbn [from_option id]; [|rewrite lookup_empty; cbn [from_option id]; unfold new_leaf; now rewrite length_map, length_seq].
    destruct (q !! l2_index i) as [l|] eqn:L; cbn [from_option id]; [exact (H _ _ _ _ Q L)|unfold new_leaf; now rewrite length_map, length_seq].
  - destruct (t !! l1_index i) as [q|] eqn:Q; cbn [from_option id]; [intros; eapply H; eauto|]. now rewrite lookup_empty.
Qed.

Lemma leaves_upd i f t : leaves_ok t -> leaves_ok (upd_page i f t).
Proof.
  intros H a p b pd. unfold upd_page. rewrite lookup_alter. case_decide; [|apply H]. intros (q & Q & ->)%fmap_Some.
  rewrite lookup_alter. case_decide; [|intros; eapply H; eauto]. intros (l & L & ->)%fmap_Some. rewrite length_alter. exact (H _ _ _ _ Q L).
Qed.

Lemma find_upd t i j f : leaves_ok t -> page_ok i -> page_ok j -> phys_page_find j (upd_page i f t) = if j =? i then option_map f (phys_page_find j t) else phys_page_find j t.
Proof.
  intros H Hi Hj. unfold phys_page_find, upd_page. rewrite lookup_alter. destruct (Z.eqb_spec j i) as [->|N].
  - rewrite decide_True by done. destruct (t !! l1_index i) as [q|] eqn:Q; [|done]. cbn [fmap option_fmap option_map]. rewrite lookup_alter_eq. destruct (q !! l2_index i) as [l|] eqn:L; [|done].
    cbn [fmap option_fmap option_map]. apply list_lookup_alter_eq.
  - case_decide as E1; [|done]. rewrite E1. destruct (t !! l1_index j) as [q|] eqn:Q; [|done]. cbn [fmap option_fmap option_map]. rewrite lookup_alter. case_decide as E2; [|done]. rewrite E2.
    destruct (q !! l2_index j) as [l|] eqn:L; [|done]. cbn [fmap option_fmap option_map]. apply list_lookup_alter_ne.
    intros E3. apply N. pose proof (leaf_range i). pose proof (leaf_range j). apply index_inj; auto; lia.
Qed.

Lemma new_leaf_at i j : new_leaf i !! Z.to_nat (leaf_index j) = Some (mkPage IO_MEM_UNASSIGNED (ulong ((i + leaf_index j) << TARGET_PAGE_BITS))).
Proof.
  pose proof (leaf_range j) as R. unfold new_leaf. change (map ?f ?l) with (f <$> l). rewrite list_lookup_fmap, lookup_seq_lt by (change (Z.to_nat L2_SIZE) with 1024%nat; lia).
  cbn [fmap option_fmap option_map]. now rewrite Nat.add_0_l, Z2Nat.id by lia.
Qed.

(** The page after the tables on its way were made. *)
Lemma find_alloc t i j : leaves_ok t -> phys_page_find j (phys_page_alloc i t) = match phys_page_find j t with
  | Some p => Some p
  | None => if decide (l1_index i = l1_index j /\ l2_index i = l2_index j) then Some (mkPage IO_MEM_UNASSIGNED (ulong ((i + leaf_index j) << TARGET_PAGE_BITS))) else None
  end.
Proof.
  intros H. unfold phys_page_find, phys_page_alloc. rewrite lookup_insert. case_decide as E1.
  - rewrite <- E1, lookup_insert. destruct (t !! l1_index i) as [q|] eqn:Q; cbn [from_option id].
    + case_decide as E2.
      * rewrite <- E2. destruct (q !! l2_index i) as [l|] eqn:L; cbn [from_option id].
        -- pose proof (H _ _ _ _ Q L) as Hl. destruct (l !! Z.to_nat (leaf_index j)) eqn:X; [done|]. apply lookup_ge_None in X. pose proof (leaf_range j). lia.
        -- rewrite decide_True by done. now rewrite new_leaf_at.
      * rewrite decide_False by tauto. destruct (q !! l2_index j) as [l|]; [|done]. now destruct (l !! Z.to_nat (leaf_index j)).
    + case_decide as E2.
      * rewrite decide_True by done. rewrite lookup_empty. cbn [from_option id]. now rewrite new_leaf_at.
      * rewrite decide_False by tauto. now rewrite lookup_empty.
  - rewrite decide_False by tauto. destruct (t !! l1_index j) as [q|]; [|done]. destruct (q !! l2_index j) as [l|]; [|done]. now destruct (l !! Z.to_nat (leaf_index j)).
Qed.

End Map.
End PhysMap.
