(* ===== verification/PhysReach.v ===== *)
(** * What registrations do to the physical memory map

    In every reachable state of the map of [PhysMap], registering memory makes
    its range reach what was registered and leaves everything else as it was. *)

From S2P Require Import Prelude SoftTlb PhysMap.

Module PhysReach.
Import SoftTlb PhysMap.
#[local] Existing Instances PhysMap.phys_map_eta PhysMap.subpage_eta.

Section Reach.
Context {HW : HostWidth} {F D : Type}.
Abbreviation phys_map := (@phys_map F D).
Implicit Types (s : phys_map) (p : PhysPageDesc).

Definition zone_of (pd : Z) : Z := (pd >> IO_MEM_SHIFT) .& (IO_MEM_NB_ENTRIES - 1).
Definition opaque_of (z : Z) s : opaque D := nth (Z.to_nat z) (io_mem_opaque s) no_opaque.

(** A zone in use that is not a shared page. *)
Definition plain (z : Z) s : Prop := 0 <= z < 512 /\ nth (Z.to_nat z) (io_mem_used s) false = true /\ forall n, opaque_of z s <> subpage_ptr n.

Definition mmio_ok s (mmio : subpage_t) : Prop :=
  length (sub_io_index mmio) = 4096%nat /\ length (sub_region_offset mmio) = 4096%nat /\ Forall (fun z => plain z s) (sub_io_index mmio).

Definition in_ulong (x : Z) : Prop := in_u host_bits x.

Definition desc_ok s p : Prop :=
  in_ulong (phys_offset p) /\ in_ulong (region_offset p) /\
  if tst (phys_offset p) IO_MEM_SUBPAGE
  then tst (phys_offset p) IO_MEM_ROMD = false /\ IO_MEM_ROM < phys_offset p .& ~~ TARGET_PAGE_MASK
    /\ region_offset p = 0 /\ exists n, opaque_of (zone_of (phys_offset p)) s = subpage_ptr n
  else plain (zone_of (phys_offset p)) s.

Definition find (i : Z) s : option PhysPageDesc := phys_page_find i (l1_phys_map s).

Record phys_ok s : Prop := {
  po_leaves : leaves_ok (l1_phys_map s);
  po_zones : length (io_mem_opaque s) = 512%nat /\ length (io_mem_used s) = 512%nat;
  po_fixed : plain 0 s /\ plain 1 s /\ plain 2 s;
  po_sub : forall z n, 0 <= z -> opaque_of z s = subpage_ptr n -> z < 512 /\ nth (Z.to_nat z) (io_mem_used s) false = true
    /\ exists mmio, subpages s !! n = Some mmio /\ mmio_ok s mmio;
  po_inj : forall z z' n, 0 <= z -> 0 <= z' -> opaque_of z s = subpage_ptr n -> opaque_of z' s = subpage_ptr n -> z = z';
  po_page : forall i p, page_ok i -> find i s = Some p -> desc_ok s p;
  po_distinct : forall i j p q, page_ok i -> page_ok j -> find i s = Some p -> find j s = Some q ->
    tst (phys_offset p) IO_MEM_SUBPAGE = true -> tst (phys_offset q) IO_MEM_SUBPAGE = true -> zone_of (phys_offset p) = zone_of (phys_offset q) -> i = j
}.

(** ** One page *)

Definition page_offset (a : Z) : Z := a .& ~~ TARGET_PAGE_MASK.

Definition page_target (w : bool) (phys region a : Z) : target :=
  if io_case w phys then zone (zone_of phys) (u64 (page_offset a + region)) else Ram (ulong ((phys .& TARGET_PAGE_MASK) + page_offset a)).

Definition sub_target (mmio : subpage_t) (a : Z) : target :=
  zone (aget (sub_io_index mmio) (page_offset a)) (u64 (page_offset a + aget (sub_region_offset mmio) (page_offset a))).

Lemma ulong_id x : in_ulong x -> ulong x = x.
Proof. apply Z.mod_small. Qed.

Lemma page_offset_range a : 0 <= page_offset a < 4096.
Proof. unfold page_offset. change (~~ TARGET_PAGE_MASK) with (Z.ones 12). rewrite Z.land_ones by lia. apply Z.mod_pos_bound. lia. Qed.

Lemma page_offset_idem a : page_offset (page_offset a) = page_offset a.
Proof. unfold page_offset. now rewrite <- Z.land_assoc, Z.land_diag. Qed.

Lemma through_plain z a s : plain z s -> through z a s = zone z a.
Proof. intros (_ & _ & H). unfold through. fold (opaque_of z s). specialize (H). destruct (opaque_of z s) eqn:E; try done. now destruct (H n). Qed.

Lemma reach_direct w a s p : find (a >> TARGET_PAGE_BITS) s = Some p -> desc_ok s p -> tst (phys_offset p) IO_MEM_SUBPAGE = false ->
  reach w a s = page_target w (phys_offset p) (region_offset p) a.
Proof.
  intros E (H1 & H2 & H3) T. rewrite T in H3. unfold reach. unfold find in E. rewrite E. cbn [page_pd]. rewrite ulong_id by exact H1. unfold page_target.
  destruct (io_case w (phys_offset p)); [|done]. fold (zone_of (phys_offset p)). now rewrite through_plain.
Qed.

Lemma sub_io_case w pd : tst pd IO_MEM_ROMD = false -> IO_MEM_ROM < pd .& ~~ TARGET_PAGE_MASK -> io_case w pd = true.
Proof.
  intros T R. unfold io_case. rewrite T, (proj2 (Z.ltb_lt _ _)) by exact R. destruct w; [|done].
  apply negb_true_iff, Z.eqb_neq. change IO_MEM_RAM with 0. change IO_MEM_ROM with 8 in R. lia.
Qed.

Lemma reach_shared w a s p n mmio : find (a >> TARGET_PAGE_BITS) s = Some p -> desc_ok s p -> tst (phys_offset p) IO_MEM_SUBPAGE = true ->
  opaque_of (zone_of (phys_offset p)) s = subpage_ptr n -> subpages s !! n = Some mmio -> reach w a s = sub_target mmio a.
Proof.
  intros E (H1 & H2 & H3) T Hn Hm. rewrite T in H3. destruct H3 as (R & G & Z0 & _). unfold reach. unfold find in E. rewrite E. cbn [page_pd]. rewrite ulong_id by exact H1.
  rewrite (sub_io_case w) by done. fold (zone_of (phys_offset p)). unfold through. fold (opaque_of (zone_of (phys_offset p)) s). rewrite Hn, Z0, Z.add_0_r.
  rewrite nth_lookup, Hm. cbn [from_option id]. fold (page_offset a). pose proof (page_offset_range a). rewrite u64_id by (split; change (2 ^ 64) with 18446744073709551616; lia).
  unfold SUBPAGE_IDX. fold (page_offset (page_offset a)). now rewrite page_offset_idem.
Qed.

Lemma reach_none w a s : phys_ok s -> find (a >> TARGET_PAGE_BITS) s = None -> reach w a s = Unassigned.
Proof.
  intros H E. unfold reach. unfold find in E. rewrite E. cbn [page_pd]. assert (io_case w IO_MEM_UNASSIGNED = true) as -> by now destruct w.
  change ((IO_MEM_UNASSIGNED >> IO_MEM_SHIFT) .& (IO_MEM_NB_ENTRIES - 1)) with 2. now rewrite through_plain by apply H.
Qed.

Lemma unassigned_target w r a : page_target w IO_MEM_UNASSIGNED r a = Unassigned.
Proof. unfold page_target. assert (io_case w IO_MEM_UNASSIGNED = true) as -> by now destruct w. reflexivity. Qed.

Lemma reach_unassigned w a s p : phys_ok s -> page_ok (a >> TARGET_PAGE_BITS) -> find (a >> TARGET_PAGE_BITS) s = Some p -> phys_offset p = IO_MEM_UNASSIGNED -> reach w a s = Unassigned.
Proof.
  intros H Hi E U. rewrite (reach_direct w a s p E (po_page s H _ _ Hi E)) by now rewrite U. rewrite U. apply unassigned_target.
Qed.

(** ** A page of its own *)

(** The page is there, or it may come into being unassigned. *)
Definition page_eqv (o o' : option PhysPageDesc) : Prop :=
  o' = o \/ (o = None /\ exists r, in_ulong r /\ o' = Some (mkPage IO_MEM_UNASSIGNED r)).

Definition same_zones s s' : Prop := io_mem_opaque s' = io_mem_opaque s /\ io_mem_used s' = io_mem_used s /\ subpages s' = subpages s.

Lemma same_plain s s' z : same_zones s s' -> plain z s -> plain z s'.
Proof. intros (E1 & E2 & _) (H1 & H2 & H3). unfold plain, opaque_of in *. now rewrite E1, E2. Qed.

Lemma same_desc s s' p : same_zones s s' -> desc_ok s p -> desc_ok s' p.
Proof.
  intros E (H1 & H2 & H3). split; [done|]. split; [done|]. destruct (tst _ _).
  - unfold opaque_of in *. now rewrite (proj1 E).
  - now apply (same_plain s).
Qed.

Lemma same_mmio s s' mmio : same_zones s s' -> mmio_ok s mmio -> mmio_ok s' mmio.
Proof. intros E (H1 & H2 & H3). split; [done|]. split; [done|]. refine (List.Forall_impl _ _ H3). intros z. now apply same_plain. Qed.

Lemma unassigned_ok s r : phys_ok s -> in_ulong r -> desc_ok s (mkPage IO_MEM_UNASSIGNED r).
Proof.
  intros H Hr. split; [|split; [exact Hr|exact (proj2 (proj2 (po_fixed s H)))]]. unfold in_ulong, in_u. cbn [phys_offset]. split; [done|].
  apply (Z.lt_le_trans _ (2 ^ 32)); [done|]. apply Z.pow_le_mono_r; [lia|apply host_bits_ok].
Qed.

Lemma ok_own i s s' p : phys_ok s -> same_zones s s' -> leaves_ok (l1_phys_map s') -> page_ok i ->
  (forall j, page_ok j -> j <> i -> page_eqv (find j s) (find j s')) -> find i s' = Some p -> desc_ok s p -> tst (phys_offset p) IO_MEM_SUBPAGE = false -> phys_ok s'.
Proof.
  intros H Z L Hi E Ei Hp T. pose proof Z as (Z1 & Z2 & Z3).
  assert (forall j q, page_ok j -> find j s' = Some q -> (j = i /\ q = p) \/ (find j s = Some q \/ exists r, in_ulong r /\ q = mkPage IO_MEM_UNASSIGNED r)) as C.
  { intros j q Hj Ej. destruct (Z.eq_dec j i) as [->|N]; [left; rewrite Ei in Ej; now injection Ej|right].
    destruct (E j Hj N) as [E'|(E' & r & Hr & E2)]; [left; now rewrite <- E'|right]. exists r. split; [done|]. rewrite E2 in Ej. now injection Ej. }
  constructor.
  - exact L.
  - rewrite Z1, Z2. apply H.
  - destruct (po_fixed s H) as (P0 & P1 & P2). split_and!; now apply (same_plain s).
  - intros z n Hz. unfold opaque_of. rewrite Z1, Z2, Z3. intros Hn. destruct (po_sub s H z n Hz Hn) as (A & B & mmio & M1 & M2). split_and!; try done. exists mmio. split; [done|]. now apply (same_mmio s).
  - intros z z' n. unfold opaque_of. rewrite Z1. apply (po_inj s H).
  - intros j q Hj Ej. apply (same_desc s); [exact Z|]. destruct (C j q Hj Ej) as [[-> ->]|[E'|(r & Hr & ->)]]; [done|exact (po_page s H j q Hj E')|now apply unassigned_ok].
  - intros j k q q' Hj Hk Ej Ek Tq Tq' X. destruct (C j q Hj Ej) as [[-> ->]|[E1|(r & _ & ->)]]; [congruence| |discriminate].
    destruct (C k q' Hk Ek) as [[-> ->]|[E2|(r & _ & ->)]]; [congruence| |discriminate]. exact (po_distinct s H j k q q' Hj Hk E1 E2 Tq Tq' X).
Qed.

Lemma reach_eqv w a s s' : phys_ok s -> phys_ok s' -> same_zones s s' -> page_ok (a >> TARGET_PAGE_BITS) -> page_eqv (find (a >> TARGET_PAGE_BITS) s) (find (a >> TARGET_PAGE_BITS) s') ->
  reach w a s' = reach w a s.
Proof.
  intros H H' (Z1 & Z2 & Z3) Ha [E|(E & r & Hr & E')].
  - unfold find in E. unfold reach, through. now rewrite E, Z1, Z3.
  - rewrite (reach_none w a s H E). exact (reach_unassigned w a s' _ H' Ha E' eq_refl).
Qed.

(** Other pages keep what they reach, this one gets its own. *)
Definition own_page (i phys region : Z) s s' : Prop :=
  phys_ok s' /\ (forall w a, page_ok (a >> TARGET_PAGE_BITS) -> reach w a s' = if a >> TARGET_PAGE_BITS =? i then page_target w phys region a else reach w a s)
  /\ forall j, page_ok j -> j <> i -> page_eqv (find j s) (find j s').

Lemma own_page_ok i s s' p : phys_ok s -> same_zones s s' -> leaves_ok (l1_phys_map s') -> page_ok i ->
  (forall j, page_ok j -> j <> i -> page_eqv (find j s) (find j s')) -> find i s' = Some p -> desc_ok s p -> tst (phys_offset p) IO_MEM_SUBPAGE = false ->
  own_page i (phys_offset p) (region_offset p) s s'.
Proof.
  intros H Z L Hi E Ei Hp T. assert (phys_ok s') as H' by exact (ok_own i s s' p H Z L Hi E Ei Hp T). split; [exact H'|]. split; [|exact E].
  intros w a Ha. destruct (Z.eqb_spec (a >> TARGET_PAGE_BITS) i) as [<-|N]; [|apply reach_eqv; auto]. apply (reach_direct w a s' p Ei); [|exact T]. now apply (same_desc s).
Qed.

Lemma set_page_find i f s j : phys_ok s -> page_ok i -> page_ok j -> phys_page_find j (upd_page i f (l1_phys_map s)) = if j =? i then option_map f (find j s) else find j s.
Proof. intros H Hi Hj. now apply find_upd; [apply H| |]. Qed.

(** The whole page is replaced, the region offset stays. *)
Lemma set_over addr phys s p (i := addr >> TARGET_PAGE_BITS) : phys_ok s -> page_ok i -> find i s = Some p -> in_ulong phys -> tst phys IO_MEM_SUBPAGE = false -> plain (zone_of phys) s ->
  own_page i phys (region_offset p) s (set_page addr (with_offset phys) s).
Proof.
  intros H Hi E Hp T P. set (s' := set_page addr (with_offset phys) s). apply (own_page_ok i s s' (mkPage phys (region_offset p)) H); try done.
  - apply leaves_upd, H.
  - intros j Hj N. left. unfold find at 1. cbn. unfold s', set_page. cbn [l1_phys_map over]. rewrite set_page_find by done. now rewrite (proj2 (Z.eqb_neq _ _)).
  - unfold find, s', set_page. cbn [l1_phys_map over]. fold i. rewrite set_page_find by done. now rewrite Z.eqb_refl, E.
  - split; [exact Hp|]. split; [exact (proj1 (proj2 (po_page s H i p Hi E)))|]. cbn [phys_offset]. now rewrite T.
Qed.

(** A page without memory gets it. *)
Lemma alloc_find i j s : phys_ok s -> page_eqv (find j s) (phys_page_find j (phys_page_alloc i (l1_phys_map s))).
Proof.
  intros H. rewrite find_alloc by apply H. unfold find. destruct (phys_page_find j (l1_phys_map s)) as [p|]; [now left|]. case_decide; [right|now left].
  split; [done|]. eexists. split; [|reflexivity]. apply Z.mod_pos_bound. pose proof host_bits_ok. apply Z.pow_pos_nonneg; lia.
Qed.

Lemma set_new addr phys region s (i := addr >> TARGET_PAGE_BITS) : phys_ok s -> page_ok i -> in_ulong phys -> in_ulong region -> tst phys IO_MEM_SUBPAGE = false -> plain (zone_of phys) s ->
  own_page i phys region s (set_page addr (fun _ => mkPage phys region) (s <| l1_phys_map := phys_page_alloc i (l1_phys_map s) |>)).
Proof.
  intros H Hi Hp Hr T P. set (s1 := s <| l1_phys_map := _ |>). set (s' := set_page addr _ s1). assert (leaves_ok (l1_phys_map s1)) as L1 by (apply leaves_alloc, H).
  assert (forall j, page_ok j -> find j s' = if j =? i then option_map (fun _ => mkPage phys region) (find j s1) else find j s1) as Fj by (intros j Hj; now apply find_upd).
  apply (own_page_ok i s s' (mkPage phys region) H); try done.
  - now apply leaves_upd.
  - intros j Hj N. rewrite Fj, (proj2 (Z.eqb_neq _ _)) by done. now apply alloc_find.
  - rewrite Fj, Z.eqb_refl by done. assert (find i s1 <> None) as X; [|now destruct (find i s1)]. unfold find, s1. cbn [l1_phys_map over]. rewrite find_alloc by apply H.
    destruct (phys_page_find i _); [done|]. now rewrite decide_True by done.
  - split; [exact Hp|]. split; [exact Hr|]. cbn [phys_offset]. now rewrite T.
Qed.

(** ** A shared page *)

Lemma fill_at {A} idx eidx (x d : A) l k : (k < length l)%nat -> nth k (fill idx eidx x l) d = if (idx <=? Z.of_nat k) && (Z.of_nat k <=? eidx) then x else nth k l d.
Proof.
  intros Hk. unfold fill. rewrite !nth_lookup, list_lookup_imap. destruct (l !! k) eqn:E; [cbn; now destruct (_ && _)|]. apply lookup_ge_None in E. lia.
Qed.

Lemma fill_Forall {A} (P : A -> Prop) idx eidx x l : P x -> Forall P l -> Forall P (fill idx eidx x l).
Proof.
  intros Hx Hl. apply List.Forall_forall. intros y Hy. apply list_elem_of_In, list_elem_of_lookup in Hy. destruct Hy as (k & Hy). unfold fill in Hy. rewrite list_lookup_imap in Hy.
  destruct (l !! k) eqn:E; [|discriminate]. cbn in Hy. injection Hy as <-. destruct (_ && _); [exact Hx|]. rewrite List.Forall_forall in Hl. apply Hl, list_elem_of_In, list_elem_of_lookup. eauto.
Qed.

(** What a zone that is registered on a part of a page is in its table. *)
Definition sub_zone (phys : Z) : Z := zone_of (if phys .& ~~ TARGET_PAGE_MASK =? IO_MEM_RAM then IO_MEM_UNASSIGNED else phys).

Lemma register_mmio s start2 end2 phys r mmio (mmio' := subpage_register start2 end2 phys r mmio) : 0 <= start2 < 4096 -> 0 <= end2 < 4096 -> mmio_ok s mmio -> plain (sub_zone phys) s ->
  mmio_ok s mmio' /\ forall a, sub_target mmio' a = if (start2 <=? page_offset a) && (page_offset a <=? end2) then zone (sub_zone phys) (u64 (page_offset a + r)) else sub_target mmio a.
Proof.
  intros Hs He (L1 & L2 & P) Hp. subst mmio'. unfold subpage_register. change TARGET_PAGE_SIZE with 4096. rewrite !(proj2 (Z.leb_gt 4096 _)) by lia. cbn [orb].
  assert (forall k, 0 <= k < 4096 -> SUBPAGE_IDX k = k) as I by (intros k Hk; unfold SUBPAGE_IDX; change (~~ TARGET_PAGE_MASK) with (Z.ones 12); rewrite Z.land_ones by lia; now apply Z.mod_small).
  rewrite !I by done. fold (zone_of (if phys .& ~~ TARGET_PAGE_MASK =? IO_MEM_RAM then IO_MEM_UNASSIGNED else phys)). fold (sub_zone phys). split.
  - split; cbn [sub_io_index sub_region_offset over]; [unfold fill; now rewrite length_imap|]. split; [unfold fill; now rewrite length_imap|]. now apply fill_Forall.
  - intros a. pose proof (page_offset_range a) as R. unfold sub_target, aget. cbn [sub_io_index sub_region_offset over]. rewrite !fill_at by lia. rewrite Z2Nat.id by lia. now destruct (_ && _).
Qed.

Lemma first_free_spec used i z : first_free used i = Some z -> i <= z < i + Z.of_nat (length used) /\ nth (Z.to_nat (z - i)) used false = false.
Proof.
  revert i. induction used as [|u used IH]; intros i; [discriminate|]. cbn [first_free length]. destruct u.
  - intros E. destruct (IH _ E) as [R N]. split; [lia|]. replace (Z.to_nat (z - i)) with (S (Z.to_nat (z - (i + 1)))) by lia. exact N.
  - intros [= ->]. split; [lia|]. now rewrite Z.sub_diag.
Qed.

(** The offset of a page that is zone [z], shared. *)
Definition shared_offset (z : Z) : Z := ulong ((z << IO_MEM_SHIFT) .| IO_MEM_SUBPAGE).

Definition shared_bits (v z : Z) : bool :=
  (0 <=? v) && (v <? 4096) && tst v IO_MEM_SUBPAGE && negb (tst v IO_MEM_ROMD) && (IO_MEM_ROM <? v .& ~~ TARGET_PAGE_MASK) && (zone_of v =? z).

Lemma shared_bits_ok z : 1 <= z < 512 -> shared_bits ((z << IO_MEM_SHIFT) .| IO_MEM_SUBPAGE) z = true.
Proof.
  intros Hz. assert (forallb (fun z => shared_bits ((z << IO_MEM_SHIFT) .| IO_MEM_SUBPAGE) z) (map Z.of_nat (seq 1 511)) = true) as C by (vm_compute; reflexivity).
  rewrite forallb_forall in C. apply C, in_map_iff. exists (Z.to_nat z). split; [lia|]. apply in_seq. lia.
Qed.

Lemma shared_offset_ok z : 1 <= z < 512 -> in_ulong (shared_offset z) /\ tst (shared_offset z) IO_MEM_SUBPAGE = true /\ tst (shared_offset z) IO_MEM_ROMD = false
  /\ IO_MEM_ROM < shared_offset z .& ~~ TARGET_PAGE_MASK /\ zone_of (shared_offset z) = z.
Proof.
  intros Hz. pose proof (shared_bits_ok z Hz) as C. unfold shared_offset. set (v := (z << IO_MEM_SHIFT) .| IO_MEM_SUBPAGE) in *. clearbody v. unfold shared_bits in C.
  repeat (apply andb_prop in C; destruct C as [C ?]). assert (in_ulong v) as V.
  { split; [lia|]. apply (Z.lt_le_trans _ (2 ^ 32)); [lia|]. apply Z.pow_le_mono_r; [lia|apply host_bits_ok]. }
  rewrite ulong_id by exact V. split_and!; try done; try lia. now apply negb_true_iff.
Qed.

(** The tables after a zone [z] was taken for a new shared page. *)
Record grown (z : Z) (mmio : subpage_t) s s' : Prop := {
  gr_opaque : io_mem_opaque s' = <[Z.to_nat z := subpage_ptr (length (subpages s))]> (io_mem_opaque s);
  gr_used : io_mem_used s' = <[Z.to_nat z := true]> (io_mem_used s);
  gr_subpages : subpages s' = subpages s ++ [mmio]
}.

Lemma grown_opaque z mmio s s' y : phys_ok s -> grown z mmio s s' -> 0 <= z < 512 -> 0 <= y -> opaque_of y s' = if y =? z then subpage_ptr (length (subpages s)) else opaque_of y s.
Proof.
  intros H G Hz Hy. unfold opaque_of. rewrite (gr_opaque _ _ _ _ G). rewrite !nth_lookup. destruct (Z.eqb_spec y z) as [->|N].
  - rewrite list_lookup_insert_eq; [done|]. rewrite (proj1 (po_zones s H)). lia.
  - rewrite list_lookup_insert_ne by lia. done.
Qed.

Lemma grown_plain z mmio s s' y : phys_ok s -> grown z mmio s s' -> 0 <= z < 512 -> nth (Z.to_nat z) (io_mem_used s) false = false -> plain y s -> y <> z /\ plain y s'.
Proof.
  intros H G Hz U (P1 & P2 & P3). assert (y <> z) as N by (intros ->; congruence). split; [exact N|]. split; [exact P1|]. split.
  - rewrite (gr_used _ _ _ _ G), nth_lookup, list_lookup_insert_ne by lia. now rewrite <- nth_lookup.
  - intros n. rewrite (grown_opaque z mmio s s' y H G Hz) by lia. now rewrite (proj2 (Z.eqb_neq _ _) N).
Qed.

Lemma grown_mmio z mmio s s' x : phys_ok s -> grown z mmio s s' -> 0 <= z < 512 -> nth (Z.to_nat z) (io_mem_used s) false = false -> mmio_ok s x -> mmio_ok s' x.
Proof.
  intros H G Hz U (L1 & L2 & P). split; [done|]. split; [done|]. refine (List.Forall_impl _ _ P). intros y Hy. now apply (grown_plain z mmio s s' y).
Qed.

Lemma zone_range pd : 0 <= zone_of pd < 512.
Proof. unfold zone_of. change (IO_MEM_NB_ENTRIES - 1) with (Z.ones 9). rewrite Z.land_ones by lia. apply Z.mod_pos_bound. lia. Qed.

Lemma grown_desc z mmio s s' p : phys_ok s -> grown z mmio s s' -> 0 <= z < 512 -> nth (Z.to_nat z) (io_mem_used s) false = false -> desc_ok s p ->
  zone_of (phys_offset p) <> z /\ desc_ok s' p.
Proof.
  intros H G Hz U (H1 & H2 & H3). pose proof (zone_range (phys_offset p)) as R. unfold desc_ok. destruct (tst (phys_offset p) IO_MEM_SUBPAGE).
  - destruct H3 as (A & B & C & n & Hn). assert (zone_of (phys_offset p) <> z) as N by (intros E; pose proof (po_sub s H _ n (proj1 R) Hn) as (_ & X & _); congruence).
    split; [exact N|]. split_and!; try done. exists n. rewrite (grown_opaque z mmio s s' _ H G Hz) by lia. now rewrite (proj2 (Z.eqb_neq _ _) N).
  - destruct (grown_plain z mmio s s' _ H G Hz U H3) as [N P]. split; [exact N|]. now split_and!.
Qed.

(** Page [i] becomes the shared page of zone [z]. *)
Lemma ok_shared i z mmio s s' : phys_ok s -> grown z mmio s s' -> 1 <= z < 512 -> nth (Z.to_nat z) (io_mem_used s) false = false -> mmio_ok s mmio ->
  leaves_ok (l1_phys_map s') -> page_ok i -> (forall j, page_ok j -> j <> i -> page_eqv (find j s) (find j s')) -> find i s' = Some (mkPage (shared_offset z) 0) -> phys_ok s'.
Proof.
  intros H G Hz U M L Hi E Ei. assert (0 <= z < 512) as Hz' by lia. destruct (shared_offset_ok z Hz) as (V & T & T1 & T2 & ZO).
  assert (forall j q, page_ok j -> find j s' = Some q -> (j = i /\ q = mkPage (shared_offset z) 0) \/ (find j s = Some q \/ exists r, in_ulong r /\ q = mkPage IO_MEM_UNASSIGNED r)) as C.
  { intros j q Hj Ej. destruct (Z.eq_dec j i) as [->|N]; [left; rewrite Ei in Ej; now injection Ej|right].
    destruct (E j Hj N) as [E'|(E' & r & Hr & E2)]; [left; now rewrite <- E'|right]. exists r. split; [done|]. rewrite E2 in Ej. now injection Ej. }
  pose proof (fun y => grown_opaque z mmio s s' y H G Hz') as GO. constructor.
  - exact L.
  - rewrite (gr_opaque _ _ _ _ G), (gr_used _ _ _ _ G), !length_insert. apply H.
  - destruct (po_fixed s H) as (P0 & P1 & P2). split_and!; now apply (grown_plain z mmio s s').
  - intros y n Hy. rewrite GO by done. destruct (Z.eqb_spec y z) as [->|N].
    + intros [= <-]. split; [lia|]. split; [rewrite (gr_used _ _ _ _ G), nth_lookup, list_lookup_insert_eq; [done|]; rewrite (proj2 (po_zones s H)); lia|].
      exists mmio. split; [rewrite (gr_subpages _ _ _ _ G); apply list_lookup_middle; lia|now apply (grown_mmio z mmio s s')].
    + intros Hn. destruct (po_sub s H y n Hy Hn) as (A & B & x & X1 & X2). split; [exact A|]. split; [rewrite (gr_used _ _ _ _ G), nth_lookup, list_lookup_insert_ne by lia; now rewrite <- nth_lookup|].
      exists x. split; [rewrite (gr_subpages _ _ _ _ G); now apply lookup_app_l_Some|now apply (grown_mmio z mmio s s')].
  - intros y y' n Hy Hy'. rewrite !GO by done. assert (forall y n, 0 <= y -> opaque_of y s = subpage_ptr n -> (n < length (subpages s))%nat) as B
      by (intros y1 n1 Hy1 E1; destruct (po_sub s H y1 n1 Hy1 E1) as (_ & _ & x & X & _); now apply lookup_lt_Some in X).
    destruct (Z.eqb_spec y z) as [->|], (Z.eqb_spec y' z) as [->|]; try done; [intros [= <-] X; apply B in X; lia|intros X [= <-]; apply B in X; lia|apply (po_inj s H); done].
  - intros j q Hj Ej. destruct (C j q Hj Ej) as [[-> ->]|[E'|(r & Hr & ->)]].
    + split; [exact V|]. split; [split; [done|]; apply Z.pow_pos_nonneg; [lia|pose proof host_bits_ok; lia]|]. cbn [phys_offset region_offset]. rewrite T. split_and!; try done. exists (length (subpages s)).
      rewrite ZO, GO by lia. now rewrite Z.eqb_refl.
    + apply (grown_desc z mmio s s' q H G Hz' U). exact (po_page s H j q Hj E').
    + apply (grown_desc z mmio s s' _ H G Hz' U). now apply unassigned_ok.
  - assert (forall k q, page_ok k -> find k s = Some q -> zone_of (phys_offset q) <> z) as N by (intros k q Hk Ek; exact (proj1 (grown_desc z mmio s s' q H G Hz' U (po_page s H k q Hk Ek)))).
    intros j k q q' Hj Hk Ej Ek Tq Tq' X. destruct (C j q Hj Ej) as [[-> ->]|[E1|(r & _ & ->)]]; [|destruct (C k q' Hk Ek) as [[-> ->]|[E2|(r & _ & ->)]]; [|exact (po_distinct s H j k q q' Hj Hk E1 E2 Tq Tq' X)|discriminate]|discriminate].
    + destruct (C k q' Hk Ek) as [[-> ->]|[E2|(r & _ & ->)]]; [done| |discriminate]. exfalso. apply (N k q' Hk E2). cbn [phys_offset] in X. now rewrite <- X, ZO.
    + exfalso. apply (N j q Hj E1). cbn [phys_offset] in X. now rewrite X, ZO.
Qed.

(** Two states in which a page and what it refers to are the same. *)
Lemma reach_kept w a s s' : phys_ok s -> phys_ok s' -> page_ok (a >> TARGET_PAGE_BITS) -> page_eqv (find (a >> TARGET_PAGE_BITS) s) (find (a >> TARGET_PAGE_BITS) s') ->
  (forall p n x, find (a >> TARGET_PAGE_BITS) s = Some p -> tst (phys_offset p) IO_MEM_SUBPAGE = true -> opaque_of (zone_of (phys_offset p)) s = subpage_ptr n -> subpages s !! n = Some x ->
     opaque_of (zone_of (phys_offset p)) s' = subpage_ptr n /\ subpages s' !! n = Some x) -> reach w a s' = reach w a s.
Proof.
  intros H H' Ha [E|(E & r & Hr & E')] K; [|rewrite (reach_none w a s H E); exact (reach_unassigned w a s' _ H' Ha E' eq_refl)].
  destruct (find (a >> TARGET_PAGE_BITS) s) as [p|] eqn:X; [|now rewrite (reach_none w a s H X), (reach_none w a s' H' E)].
  pose proof (po_page s H _ p Ha X) as D1. pose proof (po_page s' H' _ p Ha E) as D2. destruct (tst (phys_offset p) IO_MEM_SUBPAGE) eqn:T.
  - pose proof D1 as (_ & _ & D3). rewrite T in D3. destruct D3 as (_ & _ & _ & n & Hn). destruct (po_sub s H _ n (proj1 (zone_range _)) Hn) as (_ & _ & x & Hx & _).
    destruct (K p n x eq_refl T Hn Hx) as [K1 K2]. now rewrite (reach_shared w a s p n x X D1 T Hn Hx), (reach_shared w a s' p n x E D2 T K1 K2).
  - now rewrite (reach_direct w a s p X D1 T), (reach_direct w a s' p E D2 T).
Qed.

(** Other pages keep what they reach, this one reaches what its table says. *)
Definition shared_page (i : Z) (mmio : subpage_t) s s' : Prop :=
  phys_ok s' /\ (forall w a, page_ok (a >> TARGET_PAGE_BITS) -> reach w a s' = if a >> TARGET_PAGE_BITS =? i then sub_target mmio a else reach w a s)
  /\ forall j, page_ok j -> j <> i -> page_eqv (find j s) (find j s').

Lemma shared_page_new i z mmio s s' : phys_ok s -> grown z mmio s s' -> 1 <= z < 512 -> nth (Z.to_nat z) (io_mem_used s) false = false -> mmio_ok s mmio ->
  leaves_ok (l1_phys_map s') -> page_ok i -> (forall j, page_ok j -> j <> i -> page_eqv (find j s) (find j s')) -> find i s' = Some (mkPage (shared_offset z) 0) -> shared_page i mmio s s'.
Proof.
  intros H G Hz U M L Hi E Ei. assert (phys_ok s') as H' by now apply (ok_shared i z mmio s s'). assert (0 <= z < 512) as Hz' by lia.
  split; [exact H'|]. split; [|exact E]. intros w a Ha. destruct (shared_offset_ok z Hz) as (V & T & _ & _ & ZO). destruct (Z.eqb_spec (a >> TARGET_PAGE_BITS) i) as [<-|N].
  - apply (reach_shared w a s' _ (length (subpages s)) mmio Ei (po_page s' H' _ _ Ha Ei) T); [cbn [phys_offset]; rewrite ZO, (grown_opaque z mmio s s' z H G Hz') by lia; now rewrite Z.eqb_refl|].
    rewrite (gr_subpages _ _ _ _ G). apply list_lookup_middle. lia.
  - apply (reach_kept w a s s' H H' Ha); [now apply E|]. intros p n x X Tp Hn Hx. pose proof (proj1 (grown_desc z mmio s s' p H G Hz' U (po_page s H _ p Ha X))) as NZ.
    rewrite (grown_opaque z mmio s s' _ H G Hz' (proj1 (zone_range _))), (proj2 (Z.eqb_neq _ _) NZ), (gr_subpages _ _ _ _ G). split; [exact Hn|]. now apply lookup_app_l_Some.
Qed.

(** A new shared page starts as what the page was. *)
Lemma subpage_init_spec base0 orig region s z : phys_ok s -> first_free (io_mem_used s) 0 = Some z -> plain (sub_zone orig) s ->
  exists mmio s', subpage_init base0 orig region s = (length (subpages s), shared_offset z, s') /\ grown z mmio s s' /\ l1_phys_map s' = l1_phys_map s
  /\ mmio_ok s mmio /\ forall a, sub_target mmio a = zone (sub_zone orig) (u64 (page_offset a + region)).
Proof.
  intros H Fz P. destruct (first_free_spec _ _ _ Fz) as [R _]. rewrite (proj2 (po_zones s H)) in R.
  unfold subpage_init, cpu_register_io_memory, cpu_register_io_memory_fixed, get_free_io_mem_idx. cbn [Z.leb Z.compare]. rewrite Fz. rewrite (proj2 (Z.eqb_neq z (-1))) by lia.
  set (mmio0 := mkSubpage _ _ _). destruct (register_mmio s 0 4095 orig region mmio0 ltac:(lia) ltac:(lia)) as [M1 M2].
  - split; [reflexivity|]. split; [reflexivity|]. cbn [sub_io_index mmio0]. apply List.Forall_forall. intros y Hy. apply list_elem_of_In, elem_of_replicate in Hy. destruct Hy as [-> _]. exact (proj1 (po_fixed s H)).
  - exact P.
  - eexists _, _. split; [reflexivity|]. split; [constructor; reflexivity|]. split; [reflexivity|]. split; [exact M1|]. intros a. rewrite M2. pose proof (page_offset_range a).
    now rewrite (proj2 (Z.leb_le 0 _)), (proj2 (Z.leb_le _ 4095)) by lia.
Qed.

(** What a part of a page reaches, given the rest. *)
Definition part_target (start2 end2 phys region : Z) (rest : target) (a : Z) : target :=
  if (start2 <=? page_offset a) && (page_offset a <=? end2) then zone (sub_zone phys) (u64 (page_offset a + region)) else rest.

(** A page becomes shared. *)
Lemma share_step addr b orig r0 start2 end2 phys region s p z (i := addr >> TARGET_PAGE_BITS) : phys_ok s -> page_ok i -> find i s = Some p -> first_free (io_mem_used s) 0 = Some z ->
  plain (sub_zone orig) s -> plain (sub_zone phys) s -> 0 <= start2 < 4096 -> 0 <= end2 < 4096 ->
  exists mmio s', (let '(n, v, s0) := subpage_init b orig r0 s in share_page addr start2 end2 phys region n (set_page addr (with_offset v) s0)) = s'
  /\ shared_page i mmio s s' /\ forall a, sub_target mmio a = part_target start2 end2 phys region (zone (sub_zone orig) (u64 (page_offset a + r0))) a.
Proof.
  intros H Hi E Fz P P' Hs He. destruct (subpage_init_spec b orig r0 s z H Fz P) as (mmio & s0 & -> & G & L0 & M & T). destruct (first_free_spec _ _ _ Fz) as [R U]. rewrite Z.sub_0_r in U.
  rewrite (proj2 (po_zones s H)) in R. destruct (register_mmio s start2 end2 phys region mmio Hs He M P') as [M' T'].
  assert (1 <= z < 512) as Hz by (destruct (Z.eq_dec z 0) as [->|]; [destruct (proj1 (po_fixed s H)) as (_ & X & _); congruence|lia]).
  eexists (subpage_register start2 end2 phys region mmio), _. split; [reflexivity|]. split; [|intros a; rewrite T', T; reflexivity].
  unfold share_page, set_page. cbn [l1_phys_map subpages over]. rewrite L0, (gr_subpages _ _ _ _ G). set (s' := over _ _). fold i in s'.
  assert (forall j, page_ok j -> find j s' = if j =? i then Some (mkPage (shared_offset z) 0) else find j s) as Fj.
  { intros j Hj. unfold find, s'. cbn [l1_phys_map over]. rewrite find_upd by (done || apply leaves_upd, H). rewrite find_upd by (done || apply H).
    unfold find in E. destruct (Z.eqb_spec j i) as [->|]; [now rewrite E|done]. }
  apply (shared_page_new i z (subpage_register start2 end2 phys region mmio) s s' H); try done.
  - constructor; unfold s'; cbn [io_mem_opaque io_mem_used subpages over]; [exact (gr_opaque _ _ _ _ G)|exact (gr_used _ _ _ _ G)|].
    rewrite alter_app_r_alt by lia. now rewrite Nat.sub_diag.
  - unfold s'. cbn [l1_phys_map over]. apply leaves_upd, leaves_upd, H.
  - intros j Hj N. left. now rewrite Fj, (proj2 (Z.eqb_neq _ _) N).
  - now rewrite Fj, Z.eqb_refl.
Qed.

(** One more zone on a shared page. *)
Lemma share_again addr start2 end2 phys region s p n mmio (i := addr >> TARGET_PAGE_BITS) : phys_ok s -> page_ok i -> find i s = Some p -> tst (phys_offset p) IO_MEM_SUBPAGE = true ->
  opaque_of (zone_of (phys_offset p)) s = subpage_ptr n -> subpages s !! n = Some mmio -> plain (sub_zone phys) s -> 0 <= start2 < 4096 -> 0 <= end2 < 4096 ->
  shared_page i (subpage_register start2 end2 phys region mmio) s (share_page addr start2 end2 phys region n s).
Proof.
  intros H Hi E T Hn Hm P Hs He. set (s' := share_page addr start2 end2 phys region n s).
  assert (forall j, page_ok j -> find j s' = find j s) as Fj.
  { intros j Hj. unfold find, s', share_page, set_page. cbn [l1_phys_map over]. fold i. rewrite find_upd by (done || apply H). destruct (Z.eqb_spec j i) as [->|]; [|done].
    unfold find in E. rewrite E. cbn [option_map]. pose proof (po_page s H i p Hi E) as (_ & _ & DD). rewrite T in DD. destruct DD as (_ & _ & Z0 & _). destruct p as [ph r]. cbn [region_offset] in Z0. now subst r. }
  assert (forall z, plain z s -> plain z s') as PP by done. destruct (po_sub s H _ n (proj1 (zone_range _)) Hn) as (_ & _ & x & Hx & Mx). rewrite Hm in Hx. injection Hx as <-.
  destruct (register_mmio s start2 end2 phys region mmio Hs He Mx P) as [M' _].
  assert (subpages s' = alter (subpage_register start2 end2 phys region) n (subpages s)) as Sub by reflexivity.
  assert (phys_ok s') as H'.
  { constructor; try exact (po_zones s H); try exact (po_fixed s H); try exact (po_inj s H).
    - unfold s', share_page, set_page. cbn [l1_phys_map over]. apply leaves_upd, H.
    - intros z k Hz Hk. destruct (po_sub s H z k Hz Hk) as (A & B & x & X1 & X2). split; [exact A|]. split; [exact B|]. rewrite Sub. destruct (Nat.eq_dec k n) as [->|N].
      + exists (subpage_register start2 end2 phys region mmio). split; [now rewrite list_lookup_alter_eq, Hm|exact M'].
      + exists x. split; [rewrite list_lookup_alter_ne by done; exact X1|exact X2].
    - intros j q Hj. rewrite Fj by done. exact (po_page s H j q Hj).
    - intros j k q q' Hj Hk. rewrite !Fj by done. exact (po_distinct s H j k q q' Hj Hk). }
  split; [exact H'|]. split; [|intros j Hj _; left; now apply Fj]. intros w a Ha. destruct (Z.eqb_spec (a >> TARGET_PAGE_BITS) i) as [<-|N].
  - apply (reach_shared w a s' p n); try done; [now rewrite Fj|apply (po_page s' H' _ p Ha); now rewrite Fj|]. now rewrite Sub, list_lookup_alter_eq, Hm.
  - apply (reach_kept w a s s' H H' Ha); [left; now apply Fj|]. intros q k x Eq Tq Hk Hx. split; [exact Hk|]. rewrite Sub, list_lookup_alter_ne; [exact Hx|]. intros ->.
    apply N. apply (po_distinct s H _ i q p Ha Hi Eq E Tq T). apply (po_inj s H _ _ k (proj1 (zone_range _)) (proj1 (zone_range _)) Hk Hn).
Qed.

(** ** Registration *)

(** What a registration at [start] makes [a] reach: the byte of RAM, or the address
    in the region, both counted from the page of [start]. *)
Definition registered (w : bool) (start phys region a : Z) : target :=
  let off := a - (start .& TARGET_PAGE_MASK) in
  if io_case w phys then zone (zone_of phys) (u64 ((region .& TARGET_PAGE_MASK) + off)) else Ram (ulong ((phys .& TARGET_PAGE_MASK) + off)).

Definition unassigned (i : Z) s : Prop := match find i s with Some p => phys_offset p = IO_MEM_UNASSIGNED | None => True end.

(** Memory that does not use the region offset. *)
Definition simple (phys : Z) : Prop := phys .& ~~ TARGET_PAGE_MASK = IO_MEM_RAM \/ phys .& ~~ TARGET_PAGE_MASK = IO_MEM_ROM \/ phys = IO_MEM_UNASSIGNED.

Lemma zone_low phys : zone_of phys = (phys .& ~~ TARGET_PAGE_MASK) >> 3.
Proof.
  unfold zone_of. change IO_MEM_SHIFT with 3. change (IO_MEM_NB_ENTRIES - 1) with (Z.ones 9). change (~~ TARGET_PAGE_MASK) with (Z.ones 12). apply Z.bits_inj'. intros n Hn.
  rewrite Z.land_spec, !Z.shiftr_spec, Z.land_spec, !Z.testbit_ones by lia. f_equal. destruct (Z.leb_spec 0 n), (Z.ltb_spec n 9), (Z.leb_spec 0 (n + 3)), (Z.ltb_spec (n + 3) 12); lia || done.
Qed.

Lemma simple_zone w phys x y : simple phys -> io_case w phys = true -> zone (zone_of phys) x = zone (zone_of phys) y.
Proof.
  intros [E|[E|E]] C.
  - exfalso. unfold io_case in C. rewrite E in C. now destruct w.
  - now rewrite zone_low, E.
  - now subst phys.
Qed.

Lemma simple_target w phys r r' a : simple phys -> page_target w phys r a = page_target w phys r' a.
Proof. intros S. unfold page_target. destruct (io_case w phys) eqn:C; [now apply (simple_zone w)|done]. Qed.

Lemma io_case_ram w phys : ram_like phys = false -> io_case w phys = true.
Proof.
  unfold ram_like. intros [R T]%orb_false_iff. apply Z.leb_gt in R. now apply sub_io_case.
Qed.

(** A turn of the loop that takes a whole page. *)
Lemma page_step addr start size phys region s (i := addr >> TARGET_PAGE_BITS) : phys_ok s -> page_ok i -> (check_subpage addr start size).2 = false ->
  in_ulong phys -> in_ulong region -> tst phys IO_MEM_SUBPAGE = false -> plain (zone_of phys) s -> unassigned i s \/ simple phys ->
  exists s', register_page addr start size phys region s = (if ram_like phys then ulong (phys + TARGET_PAGE_SIZE) else phys, s') /\ own_page i phys region s s' /\ forall z, plain z s -> plain z s'.
Proof.
  intros H Hi C Hp Hr T P U. unfold register_page. fold i. fold (find i s). destruct (check_subpage addr start size) as [[start2 end2] need] eqn:CE. cbn [snd] in C. subst need.
  assert (exists s', register_new addr start size phys region s = (if ram_like phys then ulong (phys + TARGET_PAGE_SIZE) else phys, s') /\ own_page i phys region s s' /\ forall z, plain z s -> plain z s') as N.
  { unfold register_new. rewrite CE. eexists. split; [now destruct (ram_like phys)|]. split; [now apply set_new|done]. }
  destruct (find i s) as [p|] eqn:E; [|exact N]. destruct (Z.eqb_spec (phys_offset p) IO_MEM_UNASSIGNED) as [X|X]; [exact N|]. cbn [negb]. unfold register_over. rewrite CE. eexists. split; [reflexivity|].
  assert (simple phys) as S by (unfold unassigned in U; rewrite E in U; now destruct U). destruct (set_over addr phys s p H Hi E Hp T P) as (A & B & G). split; [|done]. split; [exact A|]. split; [|exact G].
  intros w a Ha. rewrite B by done. fold i. destruct (_ =? _); [now apply simple_target|done].
Qed.

Lemma page_offset_sub a : page_offset a = a - (a .& TARGET_PAGE_MASK).
Proof.
  unfold page_offset. pose proof (Z.add_lor_land (a .& TARGET_PAGE_MASK) (a .& ~~ TARGET_PAGE_MASK)) as X. rewrite <- Z.land_lor_distr_r, Z.lor_lnot_diag, Z.land_m1_r in X.
  assert (a .& TARGET_PAGE_MASK .& (a .& ~~ TARGET_PAGE_MASK) = 0) as Y; [|lia].
  apply Z.bits_inj'. intros n Hn. rewrite !Z.land_spec, lnot_spec', Z.bits_0 by done. now destruct (Z.testbit a n), (Z.testbit TARGET_PAGE_MASK n).
Qed.

Lemma page_base a : a .& TARGET_PAGE_MASK = 4096 * (a >> TARGET_PAGE_BITS).
Proof.
  change TARGET_PAGE_MASK with (~~ Z.ones 12). rewrite <- Z.ldiff_land, Z.ldiff_ones_r, Z.shiftl_mul_pow2 by lia. change TARGET_PAGE_BITS with 12. lia.
Qed.

(** The page of the registration's start. *)
Lemma target_registered w start phys region a : a >> TARGET_PAGE_BITS = start >> TARGET_PAGE_BITS -> page_target w phys (region .& TARGET_PAGE_MASK) a = registered w start phys region a.
Proof.
  intros E. unfold page_target, registered. rewrite page_offset_sub, !page_base, E. now replace (a - 4096 * (start >> TARGET_PAGE_BITS) + 4096 * (region >> TARGET_PAGE_BITS)) with (4096 * (region >> TARGET_PAGE_BITS) + (a - 4096 * (start >> TARGET_PAGE_BITS))) by lia.
Qed.

Lemma no_low_flags' x : page_offset x = 0 -> x .& TARGET_PAGE_MASK = x.
Proof. rewrite page_offset_sub. lia. Qed.

Lemma shift_next a : (a + TARGET_PAGE_SIZE) >> TARGET_PAGE_BITS = (a >> TARGET_PAGE_BITS) + 1.
Proof. change TARGET_PAGE_SIZE with (1 * 2 ^ 12). change TARGET_PAGE_BITS with 12. rewrite !Z.shiftr_div_pow2, Z.div_add by lia. done. Qed.

Lemma offset_next a : (a + TARGET_PAGE_SIZE) .& ~~ TARGET_PAGE_MASK = a .& ~~ TARGET_PAGE_MASK.
Proof. change (~~ TARGET_PAGE_MASK) with (Z.ones 12). change TARGET_PAGE_SIZE with (1 * 2 ^ 12). rewrite !Z.land_ones, Z.mod_add by lia. done. Qed.

Lemma romd_next a : tst (a + TARGET_PAGE_SIZE) IO_MEM_ROMD = tst a IO_MEM_ROMD.
Proof.
  assert (forall x, tst x IO_MEM_ROMD = tst (x .& ~~ TARGET_PAGE_MASK) IO_MEM_ROMD) as X by (intros x; unfold tst; now rewrite <- Z.land_assoc).
  now rewrite X, offset_next, <- X.
Qed.

Lemma subpage_next a : tst (a + TARGET_PAGE_SIZE) IO_MEM_SUBPAGE = tst a IO_MEM_SUBPAGE.
Proof.
  assert (forall x, tst x IO_MEM_SUBPAGE = tst (x .& ~~ TARGET_PAGE_MASK) IO_MEM_SUBPAGE) as X by (intros x; unfold tst; now rewrite <- Z.land_assoc).
  now rewrite X, offset_next, <- X.
Qed.

(** The next page's offsets say the same of it. *)
Lemma registered_next w start phys region a (phys' := if ram_like phys then phys + TARGET_PAGE_SIZE else phys) :
  registered w (start + TARGET_PAGE_SIZE) phys' (region + TARGET_PAGE_SIZE) a = registered w start phys region a.
Proof.
  unfold registered. assert (forall x, (x + TARGET_PAGE_SIZE) .& TARGET_PAGE_MASK = (x .& TARGET_PAGE_MASK) + TARGET_PAGE_SIZE) as M by (intros; rewrite !page_base, shift_next; change TARGET_PAGE_SIZE with 4096; lia).
  rewrite !M. assert (io_case w phys' = io_case w phys /\ zone_of phys' = zone_of phys) as [-> ->].
  { subst phys'. destruct (ram_like phys); [|done]. unfold io_case. now rewrite romd_next, !zone_low, offset_next. }
  replace ((region .& TARGET_PAGE_MASK) + TARGET_PAGE_SIZE + (a - ((start .& TARGET_PAGE_MASK) + TARGET_PAGE_SIZE))) with ((region .& TARGET_PAGE_MASK) + (a - (start .& TARGET_PAGE_MASK))) by lia.
  destruct (io_case w phys) eqn:C; [done|]. subst phys'. destruct (ram_like phys) eqn:R; [|now rewrite io_case_ram in C]. rewrite M. f_equal. f_equal. lia.
Qed.

Lemma registered_simple w start phys r r' a : simple phys -> registered w start phys r a = registered w start phys r' a.
Proof. intros S. unfold registered. destruct (io_case w phys) eqn:C; [now apply (simple_zone w)|done]. Qed.

Lemma simple_next phys : ram_like phys = true -> simple phys -> simple (phys + TARGET_PAGE_SIZE).
Proof. intros R [E|[E|E]]; [left; now rewrite offset_next|right; left; now rewrite offset_next|subst phys; discriminate]. Qed.

Lemma page_of_addr a : in_u 36 a -> page_ok (a >> TARGET_PAGE_BITS).
Proof. intros [H0 H1]. split; [now apply Z.shiftr_nonneg|]. rewrite Z.shiftr_div_pow2 by (unfold TARGET_PAGE_BITS; lia). apply Z.div_lt_upper_bound; [done|]. exact H1. Qed.

(** The loop over whole pages. *)
Lemma register_loop start size n addr phys region s : phys_ok s -> 0 <= addr -> addr + 4096 * Z.of_nat n <= 2 ^ 36 ->
  (forall j, 0 <= j < Z.of_nat n -> (check_subpage (addr + 4096 * j) start size).2 = false) ->
  in_ulong phys -> in_ulong region -> region .& TARGET_PAGE_MASK = region -> tst phys IO_MEM_SUBPAGE = false -> plain (zone_of phys) s ->
  (forall j, 0 <= j < Z.of_nat n -> unassigned ((addr >> TARGET_PAGE_BITS) + j) s) \/ simple phys ->
  (ram_like phys = true -> phys + 4096 * Z.of_nat n < 2 ^ host_bits) -> simple phys \/ region + 4096 * Z.of_nat n < 2 ^ host_bits ->
  phys_ok (register_pages n addr start size phys region s)
  /\ forall w a, in_u 36 a -> reach w a (register_pages n addr start size phys region s) =
       if (addr >> TARGET_PAGE_BITS <=? a >> TARGET_PAGE_BITS) && (a >> TARGET_PAGE_BITS <? (addr >> TARGET_PAGE_BITS) + Z.of_nat n) then registered w addr phys region a else reach w a s.
Proof.
  revert addr phys region s. induction n as [|n IH]; intros addr phys region s H Ha Hn C Hp Hr Hm T P U W V.
  { split; [exact H|]. intros w a _. cbn [register_pages]. destruct (Z.leb_spec (addr >> TARGET_PAGE_BITS) (a >> TARGET_PAGE_BITS)), (Z.ltb_spec (a >> TARGET_PAGE_BITS) ((addr >> TARGET_PAGE_BITS) + Z.of_nat 0)); lia || done. }
  assert (page_ok (addr >> TARGET_PAGE_BITS)) as Hi by (apply page_of_addr; split; lia). cbn [register_pages].
  destruct (page_step addr start size phys region s H Hi) as (s1 & -> & (H1 & R1 & E1) & P1); try done.
  { rewrite <- (Z.add_0_r addr). apply (C 0). lia. }
  { destruct U as [U|U]; [left; rewrite <- (Z.add_0_r (_ >> _)); apply U; lia|now right]. }
  set (phys' := if ram_like phys then phys + TARGET_PAGE_SIZE else phys).
  assert (in_ulong phys') as Hp'.
  { subst phys'. destruct (ram_like phys) eqn:R; [|exact Hp]. specialize (W eq_refl). unfold in_ulong, in_u in *. change TARGET_PAGE_SIZE with 4096. lia. }
  assert ((if ram_like phys then ulong (phys + TARGET_PAGE_SIZE) else phys) = phys') as -> by (subst phys'; destruct (ram_like phys); [now apply ulong_id|done]).
  set (region' := ulong (region + TARGET_PAGE_SIZE)).
  assert (u64 (addr + TARGET_PAGE_SIZE) = addr + TARGET_PAGE_SIZE) as -> by (apply u64_id; split; change TARGET_PAGE_SIZE with 4096; change (2 ^ 64) with 18446744073709551616; change (2 ^ 36) with 68719476736 in Hn; lia).
  assert (in_ulong region') as Hr' by (apply Z.mod_pos_bound; pose proof host_bits_ok; apply Z.pow_pos_nonneg; lia).
  assert (region' .& TARGET_PAGE_MASK = region') as Hm'.
  { apply no_low_flags'. subst region'. rewrite <- Hm. unfold page_offset, ulong, wrap. rewrite page_base. change (~~ TARGET_PAGE_MASK) with (Z.ones 12). rewrite Z.land_ones by lia. pose proof host_bits_ok.
    rewrite Z.mod_mod_divide by (exists (2 ^ (host_bits - 12)); rewrite <- Z.pow_add_r by lia; f_equal; lia). change TARGET_PAGE_SIZE with 4096. change (2 ^ 12) with 4096. Z.div_mod_to_equations. lia. }
  assert (tst phys' IO_MEM_SUBPAGE = false /\ zone_of phys' = zone_of phys /\ ram_like phys' = ram_like phys) as (T' & Z' & L').
  { subst phys'. destruct (ram_like phys) eqn:R; [|now split_and!]. unfold ram_like in R |- *. rewrite subpage_next, !zone_low, romd_next, offset_next. now split_and!. }
  destruct (IH (addr + TARGET_PAGE_SIZE) phys' region' s1) as [H2 R2]; try done.
  - change TARGET_PAGE_SIZE with 4096. lia.
  - change TARGET_PAGE_SIZE with 4096. lia.
  - intros j Hj. replace (addr + TARGET_PAGE_SIZE + 4096 * j) with (addr + 4096 * (j + 1)) by (change TARGET_PAGE_SIZE with 4096; lia). apply C. lia.
  - rewrite Z'. now apply P1.
  - destruct U as [U|U]; [left|right; subst phys'; destruct (ram_like phys) eqn:R; [now apply simple_next|done]].
    intros j Hj. rewrite shift_next. replace ((addr >> TARGET_PAGE_BITS) + 1 + j) with ((addr >> TARGET_PAGE_BITS) + (j + 1)) by lia. specialize (U (j + 1) ltac:(lia)). unfold unassigned in *.
    destruct (E1 ((addr >> TARGET_PAGE_BITS) + (j + 1))) as [->|(_ & r & _ & ->)]; [|lia|exact U|done].
    replace ((addr >> TARGET_PAGE_BITS) + (j + 1)) with ((addr + 4096 * (j + 1)) >> TARGET_PAGE_BITS); [apply page_of_addr; split; lia|].
    change TARGET_PAGE_BITS with 12. rewrite !Z.shiftr_div_pow2 by lia. change 4096 with (2 ^ 12). rewrite Z.mul_comm, Z.div_add by lia. done.
  - rewrite L'. intros R. specialize (W R). subst phys'. rewrite R. change TARGET_PAGE_SIZE with 4096. lia.
  - destruct V as [V|V]; [left; subst phys'; destruct (ram_like phys) eqn:R; [now apply simple_next|done]|right]. subst region'.
    rewrite ulong_id; change TARGET_PAGE_SIZE with 4096 in *; unfold in_ulong, in_u in *; lia.
  - split; [exact H2|]. intros w a Haa. rewrite R2 by done. rewrite shift_next.
    assert (registered w (addr + TARGET_PAGE_SIZE) phys' region' a = registered w addr phys region a) as ->.
    { destruct V as [V|V].
      - rewrite <- (registered_next w addr phys region a). apply registered_simple. subst phys'. destruct (ram_like phys) eqn:R; [now apply simple_next|done].
      - rewrite <- (registered_next w addr phys region a). f_equal. subst region'. apply ulong_id. change TARGET_PAGE_SIZE with 4096. unfold in_ulong, in_u in *. lia. }
    rewrite R1 by (now apply page_of_addr).
    destruct (Z.eqb_spec (a >> TARGET_PAGE_BITS) (addr >> TARGET_PAGE_BITS)) as [Q|Q].
    + rewrite <- (target_registered w addr phys region a) by exact Q. rewrite Hm, Q. rewrite (proj2 (Z.leb_gt _ _)), (proj2 (Z.leb_le _ _)), !(proj2 (Z.ltb_lt _ _)) by lia. done.
    + destruct (Z.leb_spec ((addr >> TARGET_PAGE_BITS) + 1) (a >> TARGET_PAGE_BITS)), (Z.leb_spec (addr >> TARGET_PAGE_BITS) (a >> TARGET_PAGE_BITS)); try lia; cbn [andb];
        [|done]. now replace ((addr >> TARGET_PAGE_BITS) + 1 + Z.of_nat n) with ((addr >> TARGET_PAGE_BITS) + Z.of_nat (S n)) by lia.
Qed.

Lemma page_eqv_trans o o1 o2 : page_eqv o o1 -> page_eqv o1 o2 -> page_eqv o o2.
Proof. intros [->|(-> & r & Hr & ->)] [->|(E & r' & Hr' & ->)]; unfold page_eqv; eauto 6; discriminate. Qed.

Lemma handled_zone phys : ram_like phys = false -> sub_zone phys = zone_of phys.
Proof.
  unfold sub_zone, ram_like. intros [R _]%orb_false_iff. apply Z.leb_gt in R. change IO_MEM_RAM with 0. change IO_MEM_ROM with 8 in R. now rewrite (proj2 (Z.eqb_neq _ 0)) by lia.
Qed.

(** A turn of the loop on a part of a page: the zone there, and what was reached
    before on the rest. *)
Definition part_registered (start2 end2 phys region i : Z) s s' : Prop :=
  exists mmio rest, shared_page i mmio s s' /\ (forall a, sub_target mmio a = part_target start2 end2 phys region (rest a) a) /\ forall w a, a >> TARGET_PAGE_BITS = i -> rest a = reach w a s.

Lemma part_over start size start2 end2 phys region p s z (i := start >> TARGET_PAGE_BITS) : phys_ok s -> page_ok i -> find i s = Some p -> ram_like (phys_offset p) = false ->
  check_subpage start start size = (start2, end2, true) -> 0 <= start2 < 4096 -> 0 <= end2 < 4096 -> plain (sub_zone phys) s -> first_free (io_mem_used s) 0 = Some z ->
  part_registered start2 end2 phys region i s (register_over start start size phys region p s).2.
Proof.
  intros H Hi E O C Hs He P Fz. unfold register_over. rewrite C. pose proof (po_page s H i p Hi E) as DD. destruct (tst (phys_offset p) IO_MEM_SUBPAGE) eqn:T; cbn [negb].
  - pose proof DD as (_ & _ & DD'). rewrite T in DD'. destruct DD' as (_ & _ & _ & n & Hn). destruct (po_sub s H _ n (proj1 (zone_range _)) Hn) as (_ & _ & mmio & Hm & M).
    assert (nth (Z.to_nat ((phys_offset p .& ~~ TARGET_PAGE_MASK) >> IO_MEM_SHIFT)) (io_mem_opaque s) no_opaque = subpage_ptr n) as -> by (change IO_MEM_SHIFT with 3; now rewrite <- zone_low).
    exists (subpage_register start2 end2 phys region mmio), (sub_target mmio). split; [now apply (share_again start start2 end2 phys region s p n mmio)|]. split; [apply (register_mmio s); done|].
    intros w a <-. symmetry. now apply (reach_shared w a s p n mmio).
  - pose proof DD as (_ & _ & DD'). rewrite T in DD'. rewrite <- (handled_zone _ O) in DD'.
    destruct (share_step start (start .& TARGET_PAGE_MASK) (phys_offset p) (region_offset p) start2 end2 phys region s p z H Hi E Fz DD' P Hs He) as (mmio & s' & Es & S & M).
    exists mmio, (fun a => zone (sub_zone (phys_offset p)) (u64 (page_offset a + region_offset p))).
    destruct (subpage_init _ _ _ s) as [[n v] s0]. cbn [snd]. rewrite Es. split; [exact S|]. split; [exact M|]. intros w a <-. rewrite (reach_direct w a s p E DD T). unfold page_target. now rewrite io_case_ram, handled_zone.
Qed.

Lemma part_new start size start2 end2 phys region s z (i := start >> TARGET_PAGE_BITS) : phys_ok s -> page_ok i -> unassigned i s -> ram_like phys = false ->
  check_subpage start start size = (start2, end2, true) -> 0 <= start2 < 4096 -> 0 <= end2 < 4096 -> in_ulong phys -> in_ulong region -> tst phys IO_MEM_SUBPAGE = false -> plain (zone_of phys) s ->
  first_free (io_mem_used s) 0 = Some z -> part_registered start2 end2 phys region i s (register_new start start size phys region s).2.
Proof.
  intros H Hi U R C Hs He Hp Hr T P Fz. unfold register_new. rewrite R, C. destruct (set_new start phys region s H Hi Hp Hr T P) as (H2 & R2 & E2). set (s2 := set_page start _ _) in *.
  assert (exists p, find i s2 = Some p) as (p & E).
  { unfold find, s2, set_page. cbn [l1_phys_map over]. fold i. rewrite find_upd by (done || apply leaves_alloc, H). rewrite Z.eqb_refl, find_alloc by apply H.
    destruct (phys_page_find i _); [cbn; eauto|]. rewrite decide_True by done. cbn. eauto. }
  destruct (share_step start (start .& TARGET_PAGE_MASK) IO_MEM_UNASSIGNED (ulong (start .& TARGET_PAGE_MASK)) start2 end2 phys region s2 p z H2 Hi E Fz) as (mmio & s' & Es & (H' & R' & E') & M); try done.
  { exact (proj2 (proj2 (po_fixed s2 H2))). }
  { rewrite handled_zone by exact R. exact P. }
  exists mmio, (fun _ => Unassigned). destruct (subpage_init _ _ _ s2) as [[n v] s0]. cbn [snd]. rewrite Es. split; [split; [exact H'|split]|split; [exact M|]].
  - intros w a Ha. rewrite R' by done. fold i. destruct (a >> TARGET_PAGE_BITS =? i) eqn:Q; [done|]. rewrite R2 by done. fold i. now rewrite Q.
  - intros j Hj N. eapply page_eqv_trans; [now apply E2|now apply E'].
  - intros w a <-. symmetry. unfold unassigned in U. destruct (find (a >> TARGET_PAGE_BITS) s) as [q|] eqn:Q; [now apply (reach_unassigned w a s q)|now apply reach_none].
Qed.

(** A registration on a part of one page. *)
Lemma register_part start size phys region s z (i := start >> TARGET_PAGE_BITS) : phys_ok s -> in_u 36 start -> 0 < size -> page_offset start + size <= 4096 -> size < 4096 ->
  in_ulong phys -> in_ulong region -> tst phys IO_MEM_SUBPAGE = false -> plain (zone_of phys) s -> ram_like phys = false -> first_free (io_mem_used s) 0 = Some z ->
  match find i s with Some p => ram_like (phys_offset p) = false | None => True end ->
  let s' := (register_page start start size phys (region .& TARGET_PAGE_MASK) s).2 in
  phys_ok s' /\ forall w a, in_u 36 a -> reach w a s' = if (start <=? a) && (a <? start + size) then registered w start phys region a else reach w a s.
Proof.
  intros H Hst H0 Hsz Hlt Hp Hr T P R Fz O s'. assert (page_ok i) as Hi by now apply page_of_addr. pose proof (page_offset_range start) as Ro.
  assert (check_subpage start start size = (page_offset start, page_offset start + size - 1, true)) as C.
  { unfold check_subpage. rewrite Z.ltb_irrefl. fold (page_offset start). cbn [negb andb]. destruct Hst as [S0 S1]. change (2 ^ 36) with 68719476736 in S1.
    rewrite !u64_id by (split; change (2 ^ 64) with 18446744073709551616; try (rewrite u64_id by (split; change (2 ^ 64) with 18446744073709551616; lia)); lia).
    rewrite (proj2 (Z.leb_gt _ _)) by (change TARGET_PAGE_SIZE with 4096; lia). cbn [negb andb].
    assert ((start + size - 1) .& ~~ TARGET_PAGE_MASK = page_offset start + size - 1) as ->.
    { pose proof (page_offset_sub start) as X. rewrite page_base in X. fold (page_offset (start + size - 1)). pose proof (page_offset_sub (start + size - 1)) as Y. rewrite page_base in Y. pose proof (page_offset_range (start + size - 1)). lia. }
    f_equal. change TARGET_PAGE_SIZE with 4096. destruct (Z.ltb_spec 0 (page_offset start)), (Z.ltb_spec (page_offset start + size - 1) (4096 - 1)); lia || done. }
  pose proof (handled_zone phys R) as SZ.
  assert (in_ulong (region .& TARGET_PAGE_MASK)) as Hr' by (apply in_u_land; [pose proof host_bits_ok; lia|exact Hr]).
  assert (part_registered (page_offset start) (page_offset start + size - 1) phys (region .& TARGET_PAGE_MASK) i s s') as (mmio & rest & (H' & R' & _) & M' & Q').
  { subst s'. unfold register_page. fold i. fold (find i s). destruct (find i s) as [p|] eqn:E; [destruct (Z.eqb_spec (phys_offset p) IO_MEM_UNASSIGNED); cbn [negb]|].
    - apply (part_new start size _ _ phys _ s z); try done; try lia. unfold unassigned. fold i. now rewrite E.
    - apply (part_over start size _ _ phys _ p s z); try done; try lia. now rewrite SZ.
    - apply (part_new start size _ _ phys _ s z); try done; try lia. unfold unassigned. fold i. now rewrite E. }
  split; [exact H'|]. intros w a Ha. rewrite R' by now apply page_of_addr.
  pose proof (page_offset_sub start) as X. pose proof (page_offset_sub a) as Y. rewrite page_base in X, Y. fold i in X. destruct (Z.eqb_spec (a >> TARGET_PAGE_BITS) i) as [E|E].
  - rewrite M'. unfold part_target. rewrite SZ. rewrite (Q' w a E). rewrite E in Y. assert ((page_offset start <=? page_offset a) && (page_offset a <=? page_offset start + size - 1) = (start <=? a) && (a <? start + size)) as ->.
    { destruct (Z.leb_spec (page_offset start) (page_offset a)), (Z.leb_spec (page_offset a) (page_offset start + size - 1)), (Z.leb_spec start a), (Z.ltb_spec a (start + size)); lia || done. }
    destruct (_ && _); [|done]. rewrite <- target_registered by exact E. unfold page_target. now rewrite io_case_ram.
  - pose proof (page_offset_range a). destruct (Z.leb_spec start a), (Z.ltb_spec a (start + size)); try done. exfalso. apply E. lia.
Qed.

(** ** All registrations *)

(** The registrations that are covered: the range is in the address space, the zone
    is in use, and the offsets do not wrap; either whole pages, which are without
    memory or get memory that does not use the region offset; or a part of a page
    that is not RAM, with a zone left for it.  Not all callers keep to this:
    [i440fx_update_memory_mappings] and [update_pam] (hw/piix_pci.c) register the
    zone of a device over pages in use, where the page keeps its old region
    offset. *)
Record reg_ok (start size phys region : Z) s : Prop := {
  rg_range : 0 <= start /\ 0 < size /\ start + size <= 2 ^ 36 /\ size + 4096 < 2 ^ host_bits;
  rg_zone : in_ulong phys /\ tst phys IO_MEM_SUBPAGE = false /\ plain (zone_of phys) s;
  rg_region : 0 <= region /\ region + size < 2 ^ host_bits;
  rg_pages :
    (page_offset start = 0 /\ page_offset size = 0 /\ (ram_like phys = true -> phys + size < 2 ^ host_bits)
      /\ ((forall i, start >> TARGET_PAGE_BITS <= i < (start + size) >> TARGET_PAGE_BITS -> unassigned i s) \/ simple phys))
    \/ (page_offset start + size <= 4096 /\ size < 4096 /\ ram_like phys = false /\ first_free (io_mem_used s) 0 <> None
      /\ match find (start >> TARGET_PAGE_BITS) s with Some p => ram_like (phys_offset p) = false | None => True end)
}.

Lemma whole_pages x : 0 <= x -> page_offset x = 0 -> x = 4096 * (x >> TARGET_PAGE_BITS).
Proof. intros _ E. pose proof (page_offset_sub x). rewrite page_base in H. lia. Qed.

Lemma whole_check start size j : 0 <= start -> start + size <= 2 ^ 36 -> page_offset start = 0 -> page_offset size = 0 -> 0 <= j < size >> TARGET_PAGE_BITS ->
  (check_subpage (start + 4096 * j) start size).2 = false.
Proof.
  intros H0 H1 S0 S1 Hj. unfold check_subpage. fold (page_offset start). rewrite S0. pose proof (page_offset_sub size) as X. rewrite S1, page_base in X. change (2 ^ 36) with 68719476736 in H1.
  rewrite (u64_id (start + size)) by (split; change (2 ^ 64) with 18446744073709551616; lia). rewrite u64_id by (split; change (2 ^ 64) with 18446744073709551616; lia).
  change TARGET_PAGE_SIZE with 4096. rewrite (proj2 (Z.leb_le _ _)) by lia. now destruct (start <? start + 4096 * j).
Qed.

Lemma turns_of size n : size = 4096 * n -> 0 < n -> size + 4096 < 2 ^ host_bits -> register_turns size = Z.to_nat n.
Proof.
  intros E Hn Hb. unfold register_turns. rewrite ulong_id by (split; change TARGET_PAGE_SIZE with 4096; lia). change TARGET_PAGE_SIZE with 4096. change TARGET_PAGE_BITS with 12.
  rewrite Z.shiftr_div_pow2 by lia. assert ((size + 4096 - 1) / 2 ^ 12 = n) as -> by (change (2 ^ 12) with 4096; Z.div_mod_to_equations; lia). now rewrite (proj2 (Z.eqb_neq n 0)) by lia.
Qed.

Lemma turns_part size : 0 < size < 4096 -> register_turns size = 1%nat.
Proof.
  intros Hs. unfold register_turns. rewrite ulong_id.
  - change TARGET_PAGE_SIZE with 4096. change TARGET_PAGE_BITS with 12. rewrite Z.shiftr_div_pow2 by lia. assert ((size + 4096 - 1) / 2 ^ 12 = 1) as -> by (change (2 ^ 12) with 4096; Z.div_mod_to_equations; lia). done.
  - split; change TARGET_PAGE_SIZE with 4096; [lia|]. apply (Z.lt_le_trans _ (2 ^ 32)); [lia|]. apply Z.pow_le_mono_r; [lia|apply host_bits_ok].
Qed.

Lemma ulong_range x : in_ulong (ulong x).
Proof. apply Z.mod_pos_bound. pose proof host_bits_ok. apply Z.pow_pos_nonneg; lia. Qed.

(** The region of the loop is the region that was asked for, or does not matter. *)
Lemma registered_region w start phys region a :
  registered w start phys ((if phys =? IO_MEM_UNASSIGNED then ulong start else region) .& TARGET_PAGE_MASK) a = registered w start phys region a.
Proof.
  destruct (Z.eqb_spec phys IO_MEM_UNASSIGNED) as [->|N]; [apply registered_simple; unfold simple; tauto|]. unfold registered. rewrite <- Z.land_assoc, Z.land_diag. done.
Qed.

Lemma register_all start size phys region s (region' := (if phys =? IO_MEM_UNASSIGNED then ulong start else region) .& TARGET_PAGE_MASK) : phys_ok s -> reg_ok start size phys region s ->
  let s' := register_pages (register_turns size) start start size phys region' s in
  phys_ok s' /\ forall w a, in_u 36 a -> reach w a s' = if (start <=? a) && (a <? start + size) then registered w start phys region a else reach w a s.
Proof.
  intros H [(G1 & G2 & G3 & G4) (G5 & G6 & G7) (G8 & G9) G10]. assert (in_ulong (if phys =? IO_MEM_UNASSIGNED then ulong start else region)) as Hr0 by (destruct (_ =? _); [apply ulong_range|split; lia]).
  assert (in_ulong region') as Hr by (apply in_u_land; [pose proof host_bits_ok; lia|exact Hr0]).
  assert (forall w a, registered w start phys region' a = registered w start phys region a) as Reg by (intros; apply registered_region).
  destruct G10 as [(S0 & S1 & W & U)|(S0 & S1 & R & Fz & O)].
  - pose proof (whole_pages size ltac:(lia) S1) as Es. set (n := size >> TARGET_PAGE_BITS) in *. rewrite (turns_of size n) by lia. intros s'.
    assert (region' .& TARGET_PAGE_MASK = region') as Hm by (subst region'; rewrite <- Z.land_assoc; now rewrite Z.land_diag).
    assert ((start + size) >> TARGET_PAGE_BITS = (start >> TARGET_PAGE_BITS) + n) as Se.
    { rewrite Es. change TARGET_PAGE_BITS with 12. rewrite !Z.shiftr_div_pow2, Z.mul_comm by lia. change 4096 with (2 ^ 12). now rewrite Z.div_add by lia. }
    destruct (register_loop start size (Z.to_nat n) start phys region' s H G1) as [H' R']; try done; rewrite ?Z2Nat.id by lia; try lia.
    + intros j Hj. apply whole_check; try done.
    + destruct U as [U|U]; [left|now right]. intros j Hj. apply U. lia.
    + intros L. specialize (W L). lia.
    + subst region'. destruct (Z.eqb_spec phys IO_MEM_UNASSIGNED) as [->|]; [left; right; now right|right]. rewrite page_base. pose proof (page_offset_sub region) as X. rewrite page_base in X. pose proof (page_offset_range region). lia.
    + split; [exact H'|]. intros w a Ha. unfold s'. rewrite R' by done. rewrite Reg, Z2Nat.id by lia. pose proof (whole_pages start G1 S0) as Est. pose proof (page_offset_sub a) as X. rewrite page_base in X. pose proof (page_offset_range a).
      destruct (Z.leb_spec (start >> TARGET_PAGE_BITS) (a >> TARGET_PAGE_BITS)), (Z.ltb_spec (a >> TARGET_PAGE_BITS) ((start >> TARGET_PAGE_BITS) + n)), (Z.leb_spec start a), (Z.ltb_spec a (start + size)); lia || done.
  - rewrite turns_part by lia. cbn [register_pages]. destruct (first_free (io_mem_used s) 0) as [z|] eqn:Ez; [|done].
    destruct (register_part start size phys (if phys =? IO_MEM_UNASSIGNED then ulong start else region) s z) as [H' R']; try done; [split; lia|]. fold region' in H', R'.
    destruct (register_page start start size phys region' s) as [phys' s1]. cbn [snd] in H', R'. split; [exact H'|]. intros w a Ha. rewrite R' by done. rewrite <- (registered_region w start phys region a). unfold registered. now rewrite <- (Z.land_assoc _ TARGET_PAGE_MASK), Z.land_diag.
Qed.

(** ** Reachable maps *)

(** A state that took one more zone, not for a shared page. *)
Lemma ok_new_zone z o s s' : phys_ok s -> 0 <= z < 512 -> nth (Z.to_nat z) (io_mem_used s) false = false -> (forall n, o <> subpage_ptr n) ->
  l1_phys_map s' = l1_phys_map s -> subpages s' = subpages s -> io_mem_opaque s' = <[Z.to_nat z := o]> (io_mem_opaque s) -> io_mem_used s' = <[Z.to_nat z := true]> (io_mem_used s) -> phys_ok s'.
Proof.
  intros H Hz U No E1 E2 E3 E4.
  assert (forall y, 0 <= y -> opaque_of y s' = if y =? z then o else opaque_of y s) as GO.
  { intros y Hy. unfold opaque_of. rewrite E3, !nth_lookup. destruct (Z.eqb_spec y z) as [->|N]; [rewrite list_lookup_insert_eq; [done|rewrite (proj1 (po_zones s H)); lia]|now rewrite list_lookup_insert_ne by lia]. }
  assert (forall y, nth (Z.to_nat y) (io_mem_used s) false = true -> 0 <= y -> y <> z /\ nth (Z.to_nat y) (io_mem_used s') false = true) as GU.
  { intros y Hy Y0. assert (y <> z) as N by (intros ->; congruence). split; [exact N|]. rewrite E4, nth_lookup, list_lookup_insert_ne by lia. now rewrite <- nth_lookup. }
  assert (forall y, plain y s -> plain y s') as GP.
  { intros y (P1 & P2 & P3). destruct (GU y P2 (proj1 P1)) as [N P2']. split; [exact P1|]. split; [exact P2'|]. intros n. rewrite GO, (proj2 (Z.eqb_neq _ _) N) by lia. apply P3. }
  assert (forall y n, 0 <= y -> opaque_of y s' = subpage_ptr n -> y <> z /\ opaque_of y s = subpage_ptr n) as GS.
  { intros y n Hy. rewrite GO by done. destruct (Z.eqb_spec y z); [intros X; now destruct (No n)|done]. }
  assert (forall i, find i s' = find i s) as GF by (intros; unfold find; now rewrite E1).
  constructor.
  - rewrite E1. apply H.
  - rewrite E3, E4, !length_insert. apply H.
  - destruct (po_fixed s H) as (P0 & P1 & P2). auto.
  - intros y n Hy X. destruct (GS y n Hy X) as [N X']. destruct (po_sub s H y n Hy X') as (A & B & x & X1 & L1 & L2 & P). split; [exact A|]. split; [now apply GU|]. exists x. rewrite E2. split; [exact X1|].
    split; [exact L1|]. split; [exact L2|]. exact (List.Forall_impl _ GP P).
  - intros y y' n Hy Hy' X X'. apply (po_inj s H y y' n Hy Hy'); now apply GS.
  - intros i p Hi. rewrite GF. intros E. destruct (po_page s H i p Hi E) as (A & B & C). split; [exact A|]. split; [exact B|]. destruct (tst _ _); [|now apply GP].
    destruct C as (C1 & C2 & C3 & n & Cn). split_and!; try done. exists n. rewrite GO by apply zone_range. destruct (Z.eqb_spec (zone_of (phys_offset p)) z) as [Y|]; [|exact Cn].
    pose proof (po_sub s H _ n (proj1 (zone_range _)) Cn) as (_ & X & _). congruence.
  - intros i j p q Hi Hj. rewrite !GF. apply (po_distinct s H); done.
Qed.

Lemma ok_register_zone rd wr o e s : phys_ok s -> phys_ok (cpu_register_io_memory rd wr (device_ptr o) e s).2.
Proof.
  intros H. unfold cpu_register_io_memory, cpu_register_io_memory_fixed, get_free_io_mem_idx. cbn [Z.leb Z.compare]. destruct (first_free (io_mem_used s) 0) as [z|] eqn:E; [|exact H].
  destruct (first_free_spec _ _ _ E) as [R U]. rewrite Z.sub_0_r in U. rewrite (proj2 (po_zones s H)) in R. rewrite (proj2 (Z.eqb_neq z (-1))) by lia.
  destruct e; cbn [snd]; [apply (ok_new_zone z (device_ptr o) s); done || lia| |apply (ok_new_zone z (device_ptr o) s); done || lia].
  apply (ok_new_zone z (swap_ptr (length (swaps s))) s); try done; try lia. unfold swapendian_init. cbn [io_mem_opaque over]. now rewrite list_insert_insert_eq.
Qed.

Lemma ok_init : phys_ok (io_mem_init phys_map_zero).
Proof.
  set (s := io_mem_init phys_map_zero). assert (io_mem_opaque s = replicate 512 no_opaque) as Eo by (vm_compute; reflexivity).
  assert (io_mem_used s = replicate 6 true ++ replicate 506 false) as Eu by (vm_compute; reflexivity). assert (l1_phys_map s = ∅) as El by reflexivity.
  assert (forall z n, opaque_of z s <> subpage_ptr n) as No.
  { intros z n. unfold opaque_of. rewrite Eo. assert (In (nth (Z.to_nat z) (replicate 512 (@no_opaque D)) no_opaque) (no_opaque :: replicate 512 no_opaque)) as [<-|X]; [|done|].
    { destruct (nth_in_or_default (Z.to_nat z) (replicate 512 (@no_opaque D)) no_opaque) as [X| ->]; [now right|now left]. }
    apply list_elem_of_In, elem_of_replicate in X. now rewrite (proj1 X). }
  assert (forall i, find i s = None) as Fn by (intros; unfold find; now rewrite El).
  assert (forall z, 0 <= z < 6 -> plain z s) as P.
  { intros z Hz. split; [lia|]. split; [|apply No]. rewrite Eu. assert (z = 0 \/ z = 1 \/ z = 2 \/ z = 3 \/ z = 4 \/ z = 5) as X by lia. destruct X as [-> | [-> | [-> | [-> | [-> | ->]]]]]; reflexivity. }
  constructor.
  - rewrite El. intros a p b pd X. discriminate.
  - now rewrite Eo, Eu.
  - split_and!; apply P; lia.
  - intros z n _ X. now destruct (No z n).
  - intros z z' n _ _ X. now destruct (No z n).
  - intros i p _ X. now rewrite Fn in X.
  - intros i j p q _ _ X. now rewrite Fn in X.
Qed.

(** The devices' zones, and memory registered by the rules of [reg_ok]. *)
Inductive map_step : phys_map -> phys_map -> Prop :=
| step_zone rd wr o e s : map_step s (cpu_register_io_memory rd wr (device_ptr o) e s).2
| step_memory start size phys region s s' cpus cpus' : reg_ok start size phys region s ->
    cpu_register_physical_memory_log start size phys region s cpus = Some (s', cpus') -> map_step s s'.

Lemma register_log start size phys region s cpus : 0 < size ->
  cpu_register_physical_memory_log start size phys region s cpus =
    Some (register_pages (register_turns size) start start size phys ((if phys =? IO_MEM_UNASSIGNED then ulong start else region) .& TARGET_PAGE_MASK) s, map (tlb_flush 1) cpus).
Proof. intros Hs. unfold cpu_register_physical_memory_log. now rewrite (proj2 (Z.eqb_neq size 0)) by lia. Qed.

Lemma map_step_ok s s' : phys_ok s -> map_step s s' -> phys_ok s'.
Proof.
  intros H X. destruct X as [rd wr o e s|start size phys region s s' cpus cpus' G E]; [now apply ok_register_zone|].
  rewrite register_log in E by apply (rg_range _ _ _ _ _ G). injection E as <- _. now apply register_all.
Qed.

(** C7: The physical memory map does what registrations say: from its
    initialisation on, over any sequence of zones and memory registered by the
    rules, whole pages or parts of a page shared by several zones, a registration
    makes exactly its range reach the memory or, through the zone's handlers, the
    address in the region that was registered, for reads and writes; every other
    address reaches what it did, although pages are looked up in tables that are
    made on the way and a shared page is a zone of its own; and the translation
    caches of all CPUs are flushed. *)
Theorem registration_overrides start size phys region s cpus : rtc map_step (io_mem_init phys_map_zero) s -> reg_ok start size phys region s ->
  exists s', cpu_register_physical_memory_log start size phys region s cpus = Some (s', map (tlb_flush 1) cpus)
  /\ forall w a, in_u 36 a -> reach w a s' = if (start <=? a) && (a <? start + size) then registered w start phys region a else reach w a s.
Proof.
  intros R G. assert (phys_ok s) as H by exact (rtc_invariant map_step phys_ok map_step_ok _ _ R ok_init).
  eexists. split; [apply register_log; apply (rg_range _ _ _ _ _ G)|]. now apply register_all.
Qed.
End Reach.
End PhysReach.
