(* ===== verification/PhysDemo.v ===== *)
(** * A small physical memory map

    RAM and a device's registers registered one after the other, the theorem of
    [PhysReach] applied to them, and registrations outside its rules that do not do
    what was asked. *)

From S2P Require Import Prelude SoftTlb PhysMap PhysReach.

Module PhysDemo.
Import SoftTlb PhysMap PhysReach.
#[local] Existing Instances PhysMap.phys_map_eta PhysMap.subpage_eta.

#[local] Instance host_64 : HostWidth := {| host_bits := 64; host_bits_ok := ltac:(lia) |}.

(** Devices and their handlers are numbers. *)
Abbreviation map_of := (@phys_map nat nat).

Definition empty_map : map_of := io_mem_init phys_map_zero.
Definition timer : list (option (mem_fn nat)) := [None; None; Some (device_mem 1%nat)].
Definition with_timer : map_of := (cpu_register_io_memory timer timer (device_ptr 1%nat) DEVICE_NATIVE_ENDIAN empty_map).2.
Definition timer_zone : Z := 6 << IO_MEM_SHIFT.

Definition register (start size phys region : Z) (s : map_of) : map_of :=
  match cpu_register_physical_memory_log start size phys region s [] with Some (s, _) => s | None => s end.

(** 64 KB of RAM. *)
Definition with_ram : map_of := register 0 0x10000 0 0 with_timer.

Lemma ram_zone_ok : reg_ok 0 0x10000 0 0 with_timer.
Proof.
  constructor; [split_and!; done|split_and!; [done|done|]|split; done|].
  - split; [done|]. split; [vm_compute; reflexivity|]. intros n. vm_compute. discriminate.
  - left. split_and!; try done. left. intros i _. unfold unassigned, find. reflexivity.
Qed.

Lemma with_timer_reached : rtc map_step (io_mem_init phys_map_zero) with_timer.
Proof. apply rtc_once. unfold with_timer, empty_map. apply step_zone. Qed.

Lemma register_runs start size phys region s : 0 < size -> cpu_register_physical_memory_log start size phys region s [] = Some (register start size phys region s, []).
Proof. intros Hs. unfold register. now rewrite register_log. Qed.

Lemma with_ram_reached : rtc map_step (io_mem_init phys_map_zero) with_ram.
Proof. eapply rtc_r; [exact with_timer_reached|]. eapply step_memory; [exact ram_zone_ok|]. now apply register_runs. Qed.

Lemma timer_plain : plain (zone_of timer_zone) with_ram.
Proof. split; [done|]. split; [vm_compute; reflexivity|]. intros n. vm_compute. discriminate. Qed.

Lemma room_for_more : first_free (io_mem_used with_ram) 0 <> None /\ match find (0xfed00000 >> TARGET_PAGE_BITS) with_ram with Some p => ram_like (phys_offset p) = false | None => True end.
Proof. split; vm_compute; [discriminate|exact I]. Qed.

Lemma timer_zone_ok : reg_ok 0xfed00000 0x400 timer_zone 0 with_ram.
Proof.
  constructor; [split_and!; done|split; [done|split; [done|exact timer_plain]]|split; done|right].
  split; [done|]. split; [done|]. split; [done|]. exact room_for_more.
Qed.

(** The registers, 1 KB of a page, take their range and leave the RAM. *)
Lemma registration_overrides_witness : exists s', cpu_register_physical_memory_log 0xfed00000 0x400 timer_zone 0 with_ram [] = Some (s', [])
  /\ reach true 0xfed003fc s' = Io 6 0x3fc /\ reach false 0xfed00400 s' = Unassigned /\ reach true 0x5123 s' = Ram 0x5123.
Proof.
  destruct (registration_overrides 0xfed00000 0x400 timer_zone 0 with_ram [] with_ram_reached timer_zone_ok) as (s' & E & R).
  cbn [map] in E. exists s'. split; [exact E|]. split; [|split].
  - rewrite R by (split; done). reflexivity.
  - rewrite R by (split; done). vm_compute. reflexivity.
  - rewrite R by (split; done). vm_compute. reflexivity.
Defined.

(** ** Outside the rules *)

(** A region of 4 KB from the middle of a page on takes one turn of the loop, but
    lies in two pages: its end is not registered. *)
Example unaligned_tail_lost : register_turns 0x1000 = 1%nat /\ (0x800 + 0x1000 - 1) >> TARGET_PAGE_BITS = (0x800 >> TARGET_PAGE_BITS) + 1.
Proof. split; reflexivity. Qed.

(** Handlers over memory that was there get addresses in the old region, here the
    RAM's, and not in the region that starts at 0. *)
Example stale_region_offset : let s := register 0x3000 0x1000 timer_zone 0 with_ram in reach true 0x3010 s = Io 6 0x3010 /\ registered true 0x3000 timer_zone 0 0x3010 = Io 6 0x10.
Proof. split; vm_compute; reflexivity. Qed.

(** A page of RAM that becomes shared keeps nothing of it. *)
Example shared_ram_lost off : zone (sub_zone 0x3000) off = Unassigned.
Proof. reflexivity. Qed.

(** The region offsets of pages without memory depend on which was looked up first. *)
Example leaf_offsets_shifted : option_map region_offset (phys_page_find 5 (phys_page_alloc 3 ∅)) = Some 0x8000.
Proof. vm_compute. reflexivity. Qed.
End PhysDemo.
