(* ===== verification/RamList.v ===== *)
(** * RAM blocks and dirty flags: exec.c, cpu-all.h

    The list of RAM blocks with its allocation of offsets, the host pointers of
    offsets and back, and the flags by page. *)

From S2P Require Import Prelude SoftTlb.
From Stdlib Require Import String.

Module RamList.
Import SoftTlb.

Definition CODE_DIRTY_FLAG : Z := 2.
Definition RAM_PREALLOC_MASK : Z := 1 << 0.

(** [host] is a pointer as a number, 0 for NULL. *)
Record RAMBlock := mkBlock { host : Z; offset : Z; length : Z; flags : Z; idstr : string }.
#[export] Instance RAMBlock_eta : Eta RAMBlock := fun b => mkBlock (host b) (offset b) (length b) (flags b) (idstr b).
#[export] Instance RAMBlock_eq_dec : EqDecision RAMBlock.
Proof. unfold EqDecision, Decision. repeat decide equality. Defined.

Record RAMList := mkRam { phys_dirty : list Z; blocks : list RAMBlock }.
#[export] Instance RAMList_eta : Eta RAMList := fun s => mkRam (phys_dirty s) (blocks s).

Section Ram.
Context {HW : HostWidth}.

Definition ULONG_MAX : Z := 2 ^ host_bits - 1.
Definition TARGET_PAGE_ALIGN (addr : Z) : Z := ulong (addr + TARGET_PAGE_SIZE - 1) .& TARGET_PAGE_MASK.

(** ** Allocation *)

(** The start of the block after [end_]. *)
Definition next_start (end_ : Z) (l : list RAMBlock) : Z :=
  fold_left (fun next b => if end_ <=? offset b then Z.min next (offset b) else next) l ULONG_MAX.

Definition find_ram_offset (size : Z) (l : list RAMBlock) : Z :=
  match l with
  | [] => 0
  | _ =>
      fst (fold_left (fun '(off, mingap) b =>
        let end_ := ulong (offset b + length b) in
        let gap := ulong (next_start end_ l - end_) in
        if (size <=? gap) && (gap <? mingap) then (end_, gap) else (off, mingap)) l (0, ULONG_MAX))
  end.

Definition last_ram_offset (l : list RAMBlock) : Z := fold_left (fun last b => Z.max last (ulong (offset b + length b))) l 0.

Definition resize_flags (n : nat) (l : list Z) : list Z := take n l ++ replicate (n - List.length l) 0.

(** [memset] of a range. *)
Definition fill_flags (start n : nat) (x : Z) (l : list Z) : list Z := take start l ++ replicate n x ++ drop (start + n) l.

(** [id] is the name with the device's path before it; [fresh] is the memory the host
    gives if the caller has none. [None]: the block exists already, abort. *)
Definition qemu_ram_alloc_from_ptr (id : string) (size host fresh : Z) (s : RAMList) : option (Z * RAMList) :=
  let size := TARGET_PAGE_ALIGN size in
  if existsb (fun b => String.eqb (idstr b) id) (blocks s) then None
  else
    let off := find_ram_offset size (blocks s) in
    let b := if truthy host then mkBlock host off size RAM_PREALLOC_MASK id else mkBlock fresh off size 0 id in
    let l := b :: blocks s in
    let flags := resize_flags (Z.to_nat (last_ram_offset l >> TARGET_PAGE_BITS)) (phys_dirty s) in
    Some (off, mkRam (fill_flags (Z.to_nat (off >> TARGET_PAGE_BITS)) (Z.to_nat (size >> TARGET_PAGE_BITS)) 0xff flags) l).

Definition qemu_ram_alloc (id : string) (size fresh : Z) (s : RAMList) : option (Z * RAMList) := qemu_ram_alloc_from_ptr id size 0 fresh s.

Fixpoint remove_first (p : RAMBlock -> bool) (l : list RAMBlock) : list RAMBlock :=
  match l with
  | [] => []
  | b :: l => if p b then l else b :: remove_first p l
  end.

Definition qemu_ram_free_from_ptr (addr : Z) (s : RAMList) : RAMList := s <| blocks := remove_first (fun b => addr =? offset b) (blocks s) |>.

(** Also returned: the block whose memory goes back to the host, unless it was the caller's. *)
Definition qemu_ram_free (addr : Z) (s : RAMList) : option RAMBlock * RAMList :=
  (match List.find (fun b => addr =? offset b) (blocks s) with
   | Some b => if tst (flags b) RAM_PREALLOC_MASK then None else Some b
   | None => None
   end, qemu_ram_free_from_ptr addr s).

(** ** Pointers *)

Definition holds (addr : Z) (b : RAMBlock) : bool := ulong (addr - offset b) <? length b.

Definition ptr_in (addr : Z) (b : RAMBlock) : Z := host b + ulong (addr - offset b).

(** The block found moves to the start of the list. [None] is abort. *)
Definition qemu_get_ram_ptr (addr : Z) (s : RAMList) : option (Z * RAMList) :=
  match List.find (holds addr) (blocks s) with
  | Some b => Some (ptr_in addr b, s <| blocks := b :: remove_first (holds addr) (blocks s) |>)
  | None => None
  end.

Definition qemu_safe_ram_ptr (addr : Z) (s : RAMList) : option Z := option_map (ptr_in addr) (List.find (holds addr) (blocks s)).

(** With the size cut at the end of the block; a size of 0 gives NULL. *)
Definition qemu_ram_ptr_length (addr size : Z) (s : RAMList) : option (Z * Z) :=
  if size =? 0 then Some (0, 0)
  else
    match List.find (holds addr) (blocks s) with
    | Some b => Some (ptr_in addr b, if length b <? ulong (ulong (addr - offset b) + size) then ulong (length b - addr + offset b) else size)
    | None => None
    end.

Definition qemu_ram_addr_from_host (ptr : Z) (s : RAMList) : option Z :=
  option_map (fun b => ulong (offset b + (ptr - host b)))
    (List.find (fun b => negb (host b =? 0) && (ulong (ptr - host b) <? length b)) (blocks s)).

(** ** Dirty flags *)

Definition flags_index (addr : Z) : Z := addr >> TARGET_PAGE_BITS.

Definition cpu_physical_memory_get_dirty_flags (addr : Z) (s : RAMList) : Z := aget (phys_dirty s) (flags_index addr).
Definition cpu_physical_memory_is_dirty (addr : Z) (s : RAMList) : bool := cpu_physical_memory_get_dirty_flags addr s =? 0xff.
Definition cpu_physical_memory_get_dirty (addr dirty_flags : Z) (s : RAMList) : Z := cpu_physical_memory_get_dirty_flags addr s .& dirty_flags.

Definition cpu_physical_memory_set_dirty (addr : Z) (s : RAMList) : RAMList := s <| phys_dirty := aset (phys_dirty s) (flags_index addr) 0xff |>.
Definition cpu_physical_memory_set_dirty_flags (addr dirty_flags : Z) (s : RAMList) : RAMList :=
  s <| phys_dirty := aset (phys_dirty s) (flags_index addr) (u8 (cpu_physical_memory_get_dirty_flags addr s .| dirty_flags)) |>.

Definition cpu_physical_memory_mask_dirty_range (start len dirty_flags : Z) (s : RAMList) : RAMList :=
  let first := flags_index start in
  let n := s32 len >> TARGET_PAGE_BITS in     (* the length is passed as an int *)
  s <| phys_dirty := imap (fun i x => if (first <=? Z.of_nat i) && (Z.of_nat i <? first + n) then u8 (x .& ~~ dirty_flags) else x) (phys_dirty s) |>.

(** With the caches of all CPUs. [None]: the range is not in one block, abort. *)
Definition cpu_physical_memory_reset_dirty (start end_ dirty_flags : Z) (s : RAMList) (cpus : list cpu_common) : option (RAMList * list cpu_common) :=
  let start := start .& TARGET_PAGE_MASK in
  let end_ := TARGET_PAGE_ALIGN end_ in
  let len := ulong (end_ - start) in
  if len =? 0 then Some (s, cpus)
  else
    let s := cpu_physical_memory_mask_dirty_range start len dirty_flags s in
    match qemu_safe_ram_ptr start s, qemu_safe_ram_ptr (ulong (end_ - 1)) s with
    | Some start1, Some last =>
        if negb (ulong (last - start1) =? ulong (end_ - 1 - start)) then None
        else Some (s, map (tlb_reset_dirty start1 len) cpus)
    | _, _ => None
    end.

(** ** Blocks apart *)

Definition apart (x n y k : Z) : Prop := x + n <= y \/ y + k <= x.

Record block_ok (b : RAMBlock) : Prop := {
  bo_offset : 0 <= offset b /\ 0 < length b /\ offset b + length b < 2 ^ host_bits;
  bo_pages : offset b mod 4096 = 0 /\ length b mod 4096 = 0;
  bo_host : 0 < host b /\ host b + length b < 2 ^ host_bits
}.

Definition blocks_apart (b b' : RAMBlock) : Prop := apart (offset b) (length b) (offset b') (length b') /\ apart (host b) (length b) (host b') (length b').

Record ram_ok (s : RAMList) : Prop := {
  ro_nodup : List.NoDup (blocks s);
  ro_blocks : forall b, b ∈ blocks s -> block_ok b;
  ro_apart : forall b b', b ∈ blocks s -> b' ∈ blocks s -> b <> b' -> blocks_apart b b';
  ro_flags : forall b, b ∈ blocks s -> (offset b + length b) >> TARGET_PAGE_BITS <= Z.of_nat (List.length (phys_dirty s))
}.

Lemma ulong_small x : 0 <= x < 2 ^ host_bits -> ulong x = x.
Proof. apply Z.mod_small. Qed.

Lemma holds_range addr b : block_ok b -> 0 <= addr < 2 ^ host_bits -> holds addr b = true <-> offset b <= addr < offset b + length b.
Proof.
  intros [(B1 & B2 & B3) _ _] Ha. unfold holds. rewrite Z.ltb_lt. destruct (Z.lt_ge_cases addr (offset b)).
  - assert (ulong (addr - offset b) = addr - offset b + 2 ^ host_bits) as ->; [|lia]. unfold ulong, wrap. rewrite <- (Z.mod_add _ 1) by lia. rewrite Z.mul_1_l. apply Z.mod_small. lia.
  - rewrite ulong_small by lia. lia.
Qed.

Definition points_in (ptr : Z) (b : RAMBlock) : bool := negb (host b =? 0) && (ulong (ptr - host b) <? length b).

Lemma points_range ptr b : block_ok b -> 0 <= ptr < 2 ^ host_bits -> points_in ptr b = true <-> host b <= ptr < host b + length b.
Proof.
  intros [(B1 & B2 & B3) _ (B4 & B5)] Hp. unfold points_in. rewrite (proj2 (Z.eqb_neq (host b) 0)) by lia. cbn [negb andb]. rewrite Z.ltb_lt. destruct (Z.lt_ge_cases ptr (host b)).
  - assert (ulong (ptr - host b) = ptr - host b + 2 ^ host_bits) as ->; [|lia]. unfold ulong, wrap. rewrite <- (Z.mod_add _ 1) by lia. rewrite Z.mul_1_l. apply Z.mod_small. lia.
  - rewrite ulong_small by lia. lia.
Qed.

(** The only block with a property is the one that is found. *)
Lemma find_only {A} (P : A -> bool) l x : x ∈ l -> P x = true -> (forall y, y ∈ l -> P y = true -> y = x) -> List.find P l = Some x.
Proof.
  intros Hx Px U. destruct (List.find P l) as [y|] eqn:E.
  - apply List.find_some in E. destruct E as [E1 E2]. f_equal. apply U; [now apply list_elem_of_In|exact E2].
  - apply list_elem_of_In in Hx. now rewrite (List.find_none _ _ E x Hx) in Px.
Qed.

Lemma find_in {A} (P : A -> bool) l x : List.find P l = Some x -> x ∈ l /\ P x = true.
Proof. intros E. apply List.find_some in E. rewrite list_elem_of_In. exact E. Qed.

Lemma holds_one s addr b b' : ram_ok s -> 0 <= addr < 2 ^ host_bits -> b ∈ blocks s -> b' ∈ blocks s -> holds addr b = true -> holds addr b' = true -> b' = b.
Proof.
  intros H Ha Hb Hb' E E'. rewrite holds_range in E, E' by (done || now apply (ro_blocks s H)). destruct (decide (b' = b)) as [|N]; [done|].
  destruct (ro_apart s H b' b Hb' Hb N) as [[A|A] _]; lia.
Qed.

Lemma points_one s ptr b b' : ram_ok s -> 0 <= ptr < 2 ^ host_bits -> b ∈ blocks s -> b' ∈ blocks s -> points_in ptr b = true -> points_in ptr b' = true -> b' = b.
Proof.
  intros H Ha Hb Hb' E E'. rewrite points_range in E, E' by (done || now apply (ro_blocks s H)). destruct (decide (b' = b)) as [|N]; [done|].
  destruct (ro_apart s H b' b Hb' Hb N) as [_ [A|A]]; lia.
Qed.

(** The same blocks in another order. *)
Definition same_blocks (s s' : RAMList) : Prop := forall b, b ∈ blocks s' <-> b ∈ blocks s.

Lemma find_same s s' (P : RAMBlock -> bool) : same_blocks s s' -> (forall b b', b ∈ blocks s -> b' ∈ blocks s -> P b = true -> P b' = true -> b' = b) ->
  List.find P (blocks s') = List.find P (blocks s).
Proof.
  intros S U. destruct (List.find P (blocks s)) as [b|] eqn:E.
  - apply find_in in E. destruct E as [E1 E2]. apply find_only; [now apply S|exact E2|]. intros y Hy Py. apply (U b y); auto. now apply S.
  - destruct (List.find P (blocks s')) as [b|] eqn:E'; [|done]. apply find_in in E'. destruct E' as [E1 E2]. apply S, list_elem_of_In in E1. now rewrite (List.find_none _ _ E b E1) in E2.
Qed.

Lemma remove_first_in (P : RAMBlock -> bool) l b : List.find P l = Some b -> List.NoDup l -> (forall x, x ∈ b :: remove_first P l <-> x ∈ l) /\ List.NoDup (b :: remove_first P l).
Proof.
  induction l as [|a l IH]; [discriminate|]. cbn [List.find remove_first]. intros E ND. apply List.NoDup_cons_iff in ND. destruct ND as [N ND]. destruct (P a).
  - injection E as ->. split; [done|]. now apply List.NoDup_cons_iff.
  - destruct (IH E ND) as [I D]. split.
    + intros x. rewrite !elem_of_cons. specialize (I x). rewrite elem_of_cons in I. tauto.
    + apply List.NoDup_cons_iff in D. destruct D as [D1 D2]. assert (a <> b) as Q by (intros ->; apply find_in in E; rewrite <- list_elem_of_In in N; tauto). apply List.NoDup_cons_iff. split.
      * intros [X|X]; [congruence|now apply D1].
      * apply List.NoDup_cons_iff. split; [|exact D2]. intros X. apply N. apply list_elem_of_In, I, elem_of_cons. right. now apply list_elem_of_In.
Qed.

Lemma remove_first_sub (P : RAMBlock -> bool) l : (forall x, x ∈ remove_first P l -> x ∈ l) /\ (List.NoDup l -> List.NoDup (remove_first P l)).
Proof.
  induction l as [|a l [I N]]; [done|]. cbn [remove_first]. destruct (P a).
  - split; [intros x Hx; apply elem_of_cons; now right|]. intros D. now apply List.NoDup_cons_iff in D.
  - split.
    + intros x. rewrite !elem_of_cons. intros [X|X]; [now left|right; auto].
    + intros D. apply List.NoDup_cons_iff in D. destruct D as [D1 D2]. apply List.NoDup_cons_iff. split; [|auto]. intros X. apply D1, list_elem_of_In, I. now apply list_elem_of_In.
Qed.

(** ** The gap that is chosen *)

Definition block_end (b : RAMBlock) : Z := offset b + length b.
Definition gap (l : list RAMBlock) (b : RAMBlock) : Z := next_start (block_end b) l - block_end b.

Lemma next_fold end_ l acc : end_ <= acc -> let r := fold_left (fun next b => if end_ <=? offset b then Z.min next (offset b) else next) l acc in
  end_ <= r <= acc /\ forall b, b ∈ l -> end_ <= offset b -> r <= offset b.
Proof.
  revert acc. induction l as [|a l IH]; intros acc Hacc; cbn [fold_left].
  - split; [lia|]. intros b Hb. now apply elem_of_nil in Hb.
  - destruct (Z.leb_spec end_ (offset a)) as [L|L].
    + destruct (IH (Z.min acc (offset a)) ltac:(lia)) as [I1 I2]. split; [lia|]. intros b [->|Hb]%elem_of_cons Hle; [lia|now apply I2].
    + destruct (IH acc Hacc) as [I1 I2]. split; [lia|]. intros b [->|Hb]%elem_of_cons Hle; [lia|now apply I2].
Qed.

Lemma gap_range l b : block_ok b -> 0 <= gap l b < ULONG_MAX /\ forall b', b' ∈ l -> block_end b <= offset b' -> block_end b + gap l b <= offset b'.
Proof.
  intros [(B1 & B2 & B3) _ _]. unfold gap, block_end in *. destruct (next_fold (offset b + length b) l ULONG_MAX) as [N1 N2]; [unfold ULONG_MAX; lia|].
  fold (next_start (offset b + length b) l) in N1, N2. split; [lia|]. intros b' Hb' Hle. specialize (N2 b' Hb' Hle). lia.
Qed.

Definition best_gap (size : Z) (l : list RAMBlock) (acc : Z * Z) (b : RAMBlock) : Z * Z :=
  if (size <=? gap l b) && (gap l b <? snd acc) then (block_end b, gap l b) else acc.

(** Among the gaps of [done_] that are large enough, the smallest one. *)
Definition is_best (size : Z) (l done_ : list RAMBlock) (acc : Z * Z) : Prop :=
  (snd acc = ULONG_MAX \/ exists b, b ∈ done_ /\ acc = (block_end b, gap l b) /\ size <= gap l b) /\ forall b, b ∈ done_ -> size <= gap l b -> snd acc <= gap l b.

Lemma best_gap_fold size l rest : (forall b, b ∈ rest -> block_ok b) -> forall done_ acc, is_best size l done_ acc -> is_best size l (done_ ++ rest) (fold_left (best_gap size l) rest acc).
Proof.
  induction rest as [|a rest IH]; intros Ok done_ acc H; cbn [fold_left]; [now rewrite app_nil_r|]. rewrite cons_middle, app_assoc. apply IH; [intros b Hb; apply Ok, elem_of_cons; now right|].
  destruct H as [H1 H2]. unfold best_gap. destruct ((size <=? gap l a) && (gap l a <? snd acc)) eqn:E.
  - apply andb_true_iff in E. rewrite Z.leb_le, Z.ltb_lt in E. split.
    + right. exists a. split; [apply elem_of_app; right; now apply list_elem_of_singleton|split; [done|lia]].
    + cbn [snd]. intros b [Hb| ->%list_elem_of_singleton]%elem_of_app Hs; [|lia]. specialize (H2 b Hb Hs). lia.
  - split.
    + destruct H1 as [H1|(b & Hb & Hr)]; [now left|]. right. exists b. split; [apply elem_of_app; now left|exact Hr].
    + intros b [Hb| ->%list_elem_of_singleton]%elem_of_app Hs; [now apply H2|]. rewrite (proj2 (Z.leb_le _ _) Hs) in E. cbn [andb] in E. now apply Z.ltb_ge in E.
Qed.

Lemma find_ram_offset_fold size l : (forall b, b ∈ l -> block_ok b) -> l <> [] -> find_ram_offset size l = fst (fold_left (best_gap size l) l (0, ULONG_MAX)).
Proof.
  intros Ok N. destruct l as [|a l]; [done|]. unfold find_ram_offset. f_equal. set (k := a :: l) in *. clearbody k. clear N.
  assert (forall r acc, (forall b, b ∈ r -> b ∈ k) -> fold_left (fun '(off, mingap) b => let end_ := ulong (offset b + length b) in let g := ulong (next_start end_ k - end_) in
    if (size <=? g) && (g <? mingap) then (end_, g) else (off, mingap)) r acc = fold_left (best_gap size k) r acc) as F; [|now apply F].
  induction r as [|b r IH]; intros [off m] S; [done|]. cbn [fold_left]. rewrite IH by (intros x Hx; apply S, elem_of_cons; now right). f_equal.
  assert (block_ok b) as Hb by (apply Ok, S, elem_of_cons; now left). destruct (gap_range k b Hb) as [G _]. pose proof Hb as [(B1 & B2 & B3) _ _]. unfold best_gap. cbn [snd]. cbv zeta.
  rewrite (ulong_small (offset b + length b)) by lia. fold (block_end b). unfold gap in *. rewrite (ulong_small (next_start (block_end b) k - block_end b)) by (unfold ULONG_MAX in G; lia). done.
Qed.

(** There is room: no block yet, or a gap of the size. *)
Definition has_room (size : Z) (l : list RAMBlock) : Prop := l = [] \/ exists b, b ∈ l /\ size <= gap l b.

(** With room the offset is the end of a block, in the smallest gap that is large enough. *)
Lemma find_ram_offset_best size l : (forall b, b ∈ l -> block_ok b) -> l <> [] -> has_room size l ->
  exists b, b ∈ l /\ find_ram_offset size l = block_end b /\ size <= gap l b /\ forall b', b' ∈ l -> size <= gap l b' -> gap l b <= gap l b'.
Proof.
  intros Ok N [E|(b0 & Hb0 & Hs)]; [done|]. rewrite find_ram_offset_fold by done.
  assert (is_best size l [] (0, ULONG_MAX)) as I0 by (split; [now left|intros b Hb; now apply elem_of_nil in Hb]).
  destruct (best_gap_fold size l l Ok [] _ I0) as [[E|(b & Hb & E & Hg)] Hmin]; cbn [app] in *.
  - specialize (Hmin b0 Hb0 Hs). rewrite E in Hmin. destruct (gap_range l b0 (Ok b0 Hb0)) as [G _]. lia.
  - exists b. rewrite E in *. cbn [fst snd] in *. auto.
Qed.

Lemma new_apart size l o b : (forall b b', b ∈ l -> b' ∈ l -> b <> b' -> blocks_apart b b') -> (forall b, b ∈ l -> block_ok b) ->
  o ∈ l -> size <= gap l o -> b ∈ l -> apart (block_end o) size (offset b) (length b).
Proof.
  intros A Ok Ho Hs Hb. destruct (gap_range l o (Ok o Ho)) as [_ G]. destruct (Z.le_gt_cases (block_end o) (offset b)) as [L|L].
  - left. specialize (G b Hb L). lia.
  - right. unfold block_end in *. destruct (decide (o = b)) as [->|N]; [lia|]. destruct (Ok o Ho) as [(B1 & B2 & B3) _ _]. destruct (A o b Ho Hb N) as [[Q|Q] _]; lia.
Qed.

Lemma end_aligned b : block_ok b -> block_end b mod 4096 = 0.
Proof. intros [_ (B1 & B2) _]. unfold block_end. rewrite Z.add_mod, B1, B2 by lia. done. Qed.

Lemma target_page_align size : 0 < size <= 2 ^ host_bits - 4096 -> size <= TARGET_PAGE_ALIGN size /\ TARGET_PAGE_ALIGN size < 2 ^ host_bits /\ TARGET_PAGE_ALIGN size mod 4096 = 0.
Proof.
  intros H. unfold TARGET_PAGE_ALIGN. change TARGET_PAGE_SIZE with 4096. rewrite ulong_small by lia.
  assert (forall x, x .& TARGET_PAGE_MASK = 4096 * (x / 4096)) as ->.
  { intros x. change TARGET_PAGE_MASK with (Z.lnot (Z.ones 12)). rewrite <- Z.ldiff_land, Z.ldiff_ones_r, Z.shiftl_mul_pow2, Z.shiftr_div_pow2 by lia. change (2 ^ 12) with 4096. lia. }
  pose proof (Z.div_mod (size + 4096 - 1) 4096 ltac:(lia)). pose proof (Z.mod_pos_bound (size + 4096 - 1) 4096 ltac:(lia)). repeat split; [lia|lia|]. now rewrite Z.mul_comm, Z.mod_mul.
Qed.

Lemma last_ram_offset_bound l : (forall b, b ∈ l -> block_ok b) -> 0 <= last_ram_offset l /\ forall b, b ∈ l -> block_end b <= last_ram_offset l.
Proof.
  unfold last_ram_offset. assert (forall l acc, (forall b, b ∈ l -> block_ok b) -> let r := fold_left (fun last b => Z.max last (ulong (offset b + length b))) l acc in acc <= r /\ forall b, b ∈ l -> block_end b <= r) as F.
  { clear l. induction l as [|a l IH]; intros acc Ok; cbn [fold_left]; [split; [lia|]; intros b Hb; now apply elem_of_nil in Hb|].
    destruct (Ok a ltac:(apply elem_of_cons; now left)) as [(B1 & B2 & B3) _ _]. rewrite (ulong_small (offset a + length a)) by lia.
    destruct (IH (Z.max acc (offset a + length a)) ltac:(intros b Hb; apply Ok, elem_of_cons; now right)) as [I1 I2]. split; [lia|]. intros b [->|Hb]%elem_of_cons; [unfold block_end; lia|now apply I2]. }
  intros Ok. now apply F.
Qed.

Lemma fill_flags_length start n x l : (start + n <= List.length l)%nat -> List.length (fill_flags start n x l) = List.length l.
Proof. intros H. unfold fill_flags. rewrite !length_app, length_take, length_replicate, length_drop. lia. Qed.

Lemma resize_flags_length n l : List.length (resize_flags n l) = n.
Proof. unfold resize_flags. rewrite length_app, length_take, length_replicate. lia. Qed.

Lemma aget_fill_flags start n x l i : (start + n <= List.length l)%nat -> 0 <= i ->
  aget (fill_flags start n x l) i = if (Z.of_nat start <=? i) && (i <? Z.of_nat (start + n)) then x else aget l i.
Proof.
  intros H Hi. unfold aget, fill_flags. rewrite <- (Z2Nat.id i) at 2 3 by lia. set (j := Z.to_nat i). clearbody j. clear i Hi. rewrite !nth_lookup.
  destruct (Nat.lt_ge_cases j start) as [L|L].
  - rewrite (proj2 (Z.leb_gt _ _)) by lia. cbn [andb]. rewrite lookup_app_l by (rewrite length_take; lia). now rewrite lookup_take_lt.
  - rewrite (proj2 (Z.leb_le _ _)) by lia. cbn [andb]. rewrite lookup_app_r, length_take by (rewrite length_take; lia). rewrite Nat.min_l by lia. destruct (Z.ltb_spec (Z.of_nat j) (Z.of_nat (start + n))) as [K|K].
    + rewrite lookup_app_l by (rewrite length_replicate; lia). now rewrite lookup_replicate_2 by lia.
    + rewrite lookup_app_r, length_replicate by (rewrite length_replicate; lia). rewrite lookup_drop. do 2 f_equal. lia.
Qed.

Lemma aget_resize_flags n l i : 0 <= i < Z.of_nat n -> i < Z.of_nat (List.length l) -> aget (resize_flags n l) i = aget l i.
Proof.
  intros H K. unfold aget, resize_flags. rewrite !nth_lookup. rewrite lookup_app_l by (rewrite length_take; lia). now rewrite lookup_take_lt by lia.
Qed.

Lemma page_index_lt a e : 0 <= a < e -> e mod 4096 = 0 -> flags_index a < flags_index e.
Proof. intros H E. unfold flags_index. rewrite !Z.shiftr_div_pow2 by (unfold TARGET_PAGE_BITS; lia). change (2 ^ TARGET_PAGE_BITS) with 4096. apply Z.div_lt_upper_bound; [lia|]. pose proof (Z.div_mod e 4096 ltac:(lia)). lia. Qed.

Lemma page_index_le a e : a <= e -> flags_index a <= flags_index e.
Proof. intros H. unfold flags_index. rewrite !Z.shiftr_div_pow2 by (unfold TARGET_PAGE_BITS; lia). apply Z.div_le_mono; [done|exact H]. Qed.

Lemma page_index_add a n : a mod 4096 = 0 -> flags_index (a + n) = flags_index a + flags_index n.
Proof. intros E. unfold flags_index. rewrite !Z.shiftr_div_pow2 by (unfold TARGET_PAGE_BITS; lia). change (2 ^ TARGET_PAGE_BITS) with 4096. pose proof (Z.div_mod a 4096 ltac:(lia)) as D. rewrite E, Z.add_0_r in D. rewrite D at 1. rewrite Z.mul_comm, Z.add_comm, Z.div_add by lia. lia. Qed.

Lemma page_index_nonneg a : 0 <= a -> 0 <= flags_index a.
Proof. intros H. now apply Z.shiftr_nonneg. Qed.

(** ** Allocation keeps the blocks apart *)

(** The memory of the new block: the caller's, or what the host gives. *)
Definition new_host (host fresh : Z) : Z := if truthy host then host else fresh.

(** An allocation that finds room: the code checks neither that some gap between the
    blocks is large enough (without one, [find_ram_offset] gives the offset 0 of
    another block) nor what the host's allocator or the caller promises, memory that
    no block has. *)
Record alloc_ok (size host fresh : Z) (s : RAMList) : Prop := {
  ao_size : 0 < size <= 2 ^ host_bits - 4096;
  ao_room : has_room (TARGET_PAGE_ALIGN size) (blocks s);
  ao_host : 0 < new_host host fresh /\ new_host host fresh + TARGET_PAGE_ALIGN size < 2 ^ host_bits;
  ao_fresh : forall b, b ∈ blocks s -> apart (new_host host fresh) (TARGET_PAGE_ALIGN size) (RamList.host b) (length b)
}.

Definition new_block (id : string) (size host fresh : Z) (s : RAMList) : RAMBlock :=
  let sz := TARGET_PAGE_ALIGN size in mkBlock (new_host host fresh) (find_ram_offset sz (blocks s)) sz (if truthy host then RAM_PREALLOC_MASK else 0) id.

Lemma apart_sym x n y k : apart x n y k -> apart y k x n.
Proof. unfold apart. tauto. Qed.

Lemma new_block_ok id size host fresh s (b := new_block id size host fresh s) : ram_ok s -> alloc_ok size host fresh s ->
  block_ok b /\ forall b', b' ∈ blocks s -> blocks_apart b b'.
Proof.
  intros H A. destruct (target_page_align size (ao_size _ _ _ _ A)) as (T1 & T2 & T3). pose proof (ao_size _ _ _ _ A) as S. destruct (ao_host _ _ _ _ A) as [H1 H2].
  destruct (blocks s) as [|a l] eqn:E.
  - split; [|intros b' Hb'; now apply elem_of_nil in Hb']. unfold b, new_block. rewrite E. constructor; cbn; [lia|done|lia].
  - rewrite <- E. pose proof (ao_room _ _ _ _ A) as F. destruct (find_ram_offset_best (TARGET_PAGE_ALIGN size) (blocks s)) as (o & Ho & Eo & Hg & _); [apply (ro_blocks s H)|now rewrite E|exact F|].
    pose proof (ro_blocks s H o Ho) as Ok. destruct (gap_range (blocks s) o Ok) as [G _]. split.
    + pose proof Ok as [(B1 & B2 & B3) _ _]. unfold b, new_block. rewrite Eo. constructor; cbn [offset length RamList.host]; [|split; [now apply end_aligned|done]|lia].
      destruct (next_fold (block_end o) (blocks s) ULONG_MAX) as [N _]; [unfold ULONG_MAX, block_end; lia|]. unfold gap, next_start in Hg. unfold ULONG_MAX, block_end in *. lia.
    + intros b' Hb'. unfold b, new_block. split; cbn [offset length RamList.host]; [|now apply (ao_fresh _ _ _ _ A)]. rewrite Eo. apply (new_apart _ (blocks s)); auto; [apply (ro_apart s H)|apply (ro_blocks s H)].
Qed.

Lemma blocks_apart_ne b b' : block_ok b -> blocks_apart b b' -> b <> b'.
Proof. intros [(B1 & B2 & B3) _ _] [[A|A] _] ->; lia. Qed.

Lemma cons_ok b s fl : ram_ok s -> block_ok b -> (forall b', b' ∈ blocks s -> blocks_apart b b') ->
  (forall b', b' ∈ b :: blocks s -> flags_index (block_end b') <= Z.of_nat (List.length fl)) -> ram_ok (mkRam fl (b :: blocks s)).
Proof.
  intros H Ok A F. constructor; cbn [blocks phys_dirty].
  - apply List.NoDup_cons_iff. split; [|apply (ro_nodup s H)]. intros X. apply list_elem_of_In in X. exact (blocks_apart_ne b b Ok (A b X) eq_refl).
  - intros b' [->|Hb']%elem_of_cons; [done|now apply (ro_blocks s H)].
  - intros x y [->|Hx]%elem_of_cons [->|Hy]%elem_of_cons N; [done|now apply A| |now apply (ro_apart s H)]. destruct (A x Hx). split; now apply apart_sym.
  - exact F.
Qed.

(** A new block is apart from the others; its pages are dirty, and the flags of the others are as they were. *)
Lemma alloc_spec id size host fresh s off s' : ram_ok s -> alloc_ok size host fresh s -> qemu_ram_alloc_from_ptr id size host fresh s = Some (off, s') ->
  let b := new_block id size host fresh s in
  ram_ok s' /\ off = offset b /\ blocks s' = b :: blocks s /\
  (forall addr, off <= addr < block_end b -> cpu_physical_memory_get_dirty_flags addr s' = 0xff) /\
  (forall b' addr, b' ∈ blocks s -> offset b' <= addr < block_end b' -> cpu_physical_memory_get_dirty_flags addr s' = cpu_physical_memory_get_dirty_flags addr s).
Proof.
  intros H A E b. unfold qemu_ram_alloc_from_ptr in E. cbv zeta in E. destruct (existsb _ _); [discriminate|].
  destruct (new_block_ok id size host fresh s H A) as [Ok Ap]. fold b in Ok, Ap. pose proof Ok as [(O1 & O2 & O3) (O4 & O5) _].
  assert ((if truthy host then mkBlock host (find_ram_offset (TARGET_PAGE_ALIGN size) (blocks s)) (TARGET_PAGE_ALIGN size) RAM_PREALLOC_MASK id
    else mkBlock fresh (find_ram_offset (TARGET_PAGE_ALIGN size) (blocks s)) (TARGET_PAGE_ALIGN size) 0 id) = b) as Eb by (unfold b, new_block, new_host; now destruct (truthy host)).
  rewrite Eb in E. change (find_ram_offset (TARGET_PAGE_ALIGN size) (blocks s)) with (offset b) in E. change (TARGET_PAGE_ALIGN size) with (length b) in E.
  clear Eb. clearbody b. injection E as <- <-. set (n := last_ram_offset (b :: blocks s)). fold (flags_index n) (flags_index (offset b)) (flags_index (length b)).
  destruct (last_ram_offset_bound (b :: blocks s)) as [L0 L]; [intros x [->|Hx]%elem_of_cons; [done|now apply (ro_blocks s H)]|]. fold n in L0, L.
  assert (flags_index (block_end b) <= flags_index n) as Lb by (apply page_index_le, L, elem_of_cons; now left).
  pose proof (page_index_nonneg (offset b) O1) as I1. pose proof (page_index_nonneg (length b) ltac:(lia)) as I2. unfold block_end in Lb. rewrite (page_index_add _ _ O4) in Lb.
  assert (Z.to_nat (flags_index (offset b)) + Z.to_nat (flags_index (length b)) <= List.length (resize_flags (Z.to_nat (flags_index n)) (phys_dirty s)))%nat as Le by (rewrite resize_flags_length; lia).
  split_and!; [|done|done| |].
  - apply cons_ok; auto. intros x Hx. rewrite fill_flags_length, resize_flags_length by exact Le. pose proof (page_index_le _ _ (L x Hx)). pose proof (page_index_nonneg n L0). lia.
  - intros addr Ha. unfold cpu_physical_memory_get_dirty_flags. cbn [phys_dirty]. pose proof (page_index_le (offset b) addr ltac:(lia)). pose proof (page_index_lt addr (block_end b) ltac:(lia) (end_aligned b Ok)) as U.
    unfold block_end in U. rewrite (page_index_add _ _ O4) in U. rewrite aget_fill_flags by (exact Le || lia). rewrite (proj2 (Z.leb_le _ _)), (proj2 (Z.ltb_lt _ _)) by lia. done.
  - intros b' addr Hb' Ha. pose proof (ro_blocks s H b' Hb') as Ok'. pose proof Ok' as [(P1 & P2 & P3) (P4 & _) _]. pose proof (page_index_lt addr (block_end b') ltac:(lia) (end_aligned b' Ok')) as U. pose proof (page_index_nonneg addr ltac:(lia)) as U0.
    pose proof (page_index_le _ _ (L b' ltac:(apply elem_of_cons; now right))) as U1. pose proof (ro_flags s H b' Hb') as U2. fold (flags_index (offset b' + length b')) in U2. fold (block_end b') in U2.
    unfold cpu_physical_memory_get_dirty_flags. cbn [phys_dirty]. rewrite aget_fill_flags by (exact Le || lia).
    rewrite aget_resize_flags by lia. destruct (_ && _) eqn:Q; [|done]. exfalso. apply andb_true_iff in Q. rewrite Z.leb_le, Z.ltb_lt in Q. destruct (Ap b' Hb') as [[X|X] _].
    + pose proof (page_index_le (offset b + length b) addr ltac:(lia)) as V. rewrite (page_index_add _ _ O4) in V. lia.
    + pose proof (page_index_le (block_end b') (offset b) X). lia.
Qed.

(** ** Steps *)

Lemma sub_ok s s' : ram_ok s -> List.NoDup (blocks s') -> (forall b, b ∈ blocks s' -> b ∈ blocks s) -> List.length (phys_dirty s') = List.length (phys_dirty s) -> ram_ok s'.
Proof.
  intros H N S L. constructor; [exact N| | |].
  - intros b Hb. now apply (ro_blocks s H), S.
  - intros b b' Hb Hb'. apply (ro_apart s H); now apply S.
  - intros b Hb. rewrite L. now apply (ro_flags s H), S.
Qed.

Lemma get_ram_ptr_spec addr s p s' : ram_ok s -> qemu_get_ram_ptr addr s = Some (p, s') -> ram_ok s' /\ same_blocks s s' /\ phys_dirty s' = phys_dirty s.
Proof.
  intros H E. unfold qemu_get_ram_ptr in E. destruct (List.find _ _) as [b|] eqn:F; [|discriminate]. injection E as <- <-.
  destruct (remove_first_in _ _ _ F (ro_nodup s H)) as [I N]. split_and!; [|exact I|done]. apply (sub_ok s); [done|done|apply I|done].
Qed.

Lemma free_spec addr s : ram_ok s -> ram_ok (qemu_ram_free addr s).2 /\ phys_dirty (qemu_ram_free addr s).2 = phys_dirty s /\ forall b, b ∈ blocks (qemu_ram_free addr s).2 -> b ∈ blocks s.
Proof.
  intros H. destruct (remove_first_sub (fun b => addr =? offset b) (blocks s)) as [I N]. split_and!; [|done|exact I]. apply (sub_ok s); [done|apply N, (ro_nodup s H)|exact I|done].
Qed.

Lemma mask_range_length start len f s : List.length (phys_dirty (cpu_physical_memory_mask_dirty_range start len f s)) = List.length (phys_dirty s).
Proof. apply length_imap. Qed.

Lemma reset_dirty_split start end_ f s cpus s' cpus' : cpu_physical_memory_reset_dirty start end_ f s cpus = Some (s', cpus') ->
  blocks s' = blocks s /\ List.length (phys_dirty s') = List.length (phys_dirty s).
Proof.
  unfold cpu_physical_memory_reset_dirty. destruct (_ =? 0); [now intros [= <- <-]|]. destruct (qemu_safe_ram_ptr _ _); [|discriminate]. destruct (qemu_safe_ram_ptr _ _); [|discriminate].
  destruct (negb _); [discriminate|]. intros [= <- <-]. split; [done|apply mask_range_length].
Qed.

(** The operations on the list of blocks and the flags. *)
Inductive ram_step (s : RAMList) : RAMList -> Prop :=
| rs_alloc id size host fresh off s' : alloc_ok size host fresh s -> qemu_ram_alloc_from_ptr id size host fresh s = Some (off, s') -> ram_step s s'
| rs_free addr : ram_step s (qemu_ram_free addr s).2
| rs_get_ptr addr p s' : qemu_get_ram_ptr addr s = Some (p, s') -> ram_step s s'
| rs_set addr : ram_step s (cpu_physical_memory_set_dirty addr s)
| rs_flags addr f : ram_step s (cpu_physical_memory_set_dirty_flags addr f s)
| rs_reset start end_ f cpus s' cpus' : cpu_physical_memory_reset_dirty start end_ f s cpus = Some (s', cpus') -> ram_step s s'.

Lemma ram_step_ok s s' : ram_ok s -> ram_step s s' -> ram_ok s'.
Proof.
  intros H R. destruct R as [id size host fresh off s' A E|addr|addr p s' E|addr|addr f|start end_ f cpus s' cpus' E].
  - now apply (alloc_spec _ _ _ _ _ _ _ H A E).
  - now apply free_spec.
  - now apply (get_ram_ptr_spec _ _ _ _ H E).
  - apply (sub_ok s); [done|apply (ro_nodup s H)|done|]. apply length_insert.
  - apply (sub_ok s); [done|apply (ro_nodup s H)|done|]. apply length_insert.
  - destruct (reset_dirty_split _ _ _ _ _ _ _ E) as [B L]. apply (sub_ok s); [done|rewrite B; apply (ro_nodup s H)|now rewrite B|exact L].
Qed.

Lemma empty_ok fl : ram_ok (mkRam fl []).
Proof. constructor; cbn [blocks]; [apply List.NoDup_nil| | |]; set_solver. Qed.

Lemma ram_reach_ok s : rtc ram_step (mkRam [] []) s -> ram_ok s.
Proof. intros R. remember (mkRam [] []) as i eqn:E. assert (ram_ok i) as H by (rewrite E; apply empty_ok). clear E. induction R as [|x y z S R IH]; [done|]. apply IH. now apply (ram_step_ok x). Qed.

(** ** Pointers and back *)

Lemma ptr_in_range addr b : block_ok b -> offset b <= addr < block_end b -> ptr_in addr b = host b + (addr - offset b) /\ points_in (ptr_in addr b) b = true.
Proof.
  intros Ok Ha. pose proof Ok as [(B1 & B2 & B3) _ (B4 & B5)]. unfold block_end in Ha. assert (ptr_in addr b = host b + (addr - offset b)) as E by (unfold ptr_in; now rewrite ulong_small by lia).
  split; [exact E|]. rewrite E. apply points_range; [done|lia|lia].
Qed.

Lemma find_holds s addr b : ram_ok s -> b ∈ blocks s -> offset b <= addr < block_end b -> List.find (holds addr) (blocks s) = Some b.
Proof.
  intros H Hb Ha. pose proof (ro_blocks s H b Hb) as Ok. pose proof Ok as [(B1 & B2 & B3) _ _]. unfold block_end in Ha. assert (0 <= addr < 2 ^ host_bits) as Hr by lia.
  assert (holds addr b = true) as Hh by now apply holds_range. apply find_only; [done|done|]. intros y Hy Py. now apply (holds_one s addr b y).
Qed.

Lemma find_points s addr b : ram_ok s -> b ∈ blocks s -> offset b <= addr < block_end b -> List.find (points_in (ptr_in addr b)) (blocks s) = Some b.
Proof.
  intros H Hb Ha. pose proof (ro_blocks s H b Hb) as Ok. pose proof Ok as [(B1 & B2 & B3) _ (B4 & B5)]. destruct (ptr_in_range addr b Ok Ha) as [E P]. apply find_only; [done|done|].
  intros y Hy Py. unfold block_end in Ha. apply (points_one s (ptr_in addr b) b y); auto. lia.
Qed.

Lemma from_host_ptr s addr b : ram_ok s -> b ∈ blocks s -> offset b <= addr < block_end b -> qemu_ram_addr_from_host (ptr_in addr b) s = Some addr.
Proof.
  intros H Hb Ha. unfold qemu_ram_addr_from_host. fold (points_in (ptr_in addr b)). rewrite (find_points s addr b H Hb Ha). cbn [option_map]. f_equal.
  pose proof (ro_blocks s H b Hb) as Ok. destruct (ptr_in_range addr b Ok Ha) as [-> _]. pose proof Ok as [(B1 & B2 & B3) _ _]. unfold block_end in Ha. rewrite ulong_small by lia. lia.
Qed.

Lemma safe_ptr_same s s' addr : ram_ok s -> same_blocks s s' -> 0 <= addr < 2 ^ host_bits -> qemu_safe_ram_ptr addr s' = qemu_safe_ram_ptr addr s.
Proof. intros H S Ha. unfold qemu_safe_ram_ptr. f_equal. apply find_same; [done|]. intros b b'. now apply holds_one. Qed.

(** C18: In every state the operations of the RAM list lead to from the empty list,
    where each allocation finds a gap that is large enough and memory of the host
    apart from that of the blocks, blocks take apart ranges of offsets, in whole
    pages, with a flag byte for each page. The pointer [qemu_get_ram_ptr] gives for an offset in a
    block is in the memory of that block at the same distance and goes back to the
    offset by [qemu_ram_addr_from_host]; moving the block to the front of the list
    changes no later answer; [qemu_ram_ptr_length] gives the same pointer, with the
    size cut at the end of the block. *)
Theorem ram_pointers_roundtrip s : rtc ram_step (mkRam [] []) s ->
  ram_ok s /\
  forall addr b, b ∈ blocks s -> offset b <= addr < offset b + length b ->
    exists s', qemu_get_ram_ptr addr s = Some (host b + (addr - offset b), s') /\ ram_ok s' /\
      qemu_ram_addr_from_host (host b + (addr - offset b)) s' = Some addr /\
      (forall a, 0 <= a < 2 ^ host_bits -> qemu_safe_ram_ptr a s' = qemu_safe_ram_ptr a s) /\
      forall size, 0 < size -> addr + size < 2 ^ host_bits -> qemu_ram_ptr_length addr size s' = Some (host b + (addr - offset b), Z.min size (offset b + length b - addr)).
Proof.
  intros R. pose proof (ram_reach_ok s R) as H. split; [exact H|]. intros addr b Hb Ha. pose proof (ro_blocks s H b Hb) as Ok. destruct (ptr_in_range addr b Ok Ha) as [<- _].
  assert (exists s', qemu_get_ram_ptr addr s = Some (ptr_in addr b, s')) as [s' E] by (unfold qemu_get_ram_ptr; rewrite (find_holds s addr b H Hb Ha); eauto). exists s'.
  destruct (get_ram_ptr_spec _ _ _ _ H E) as (H' & S & _). split_and!; [done|done| | |].
  - apply from_host_ptr; [done|now apply S|exact Ha].
  - intros a Hr. now apply safe_ptr_same.
  - intros size Hs Hl. unfold qemu_ram_ptr_length. rewrite (proj2 (Z.eqb_neq size 0)) by lia. rewrite (find_holds s' addr b H') by (exact Ha || now apply S). do 2 f_equal.
    pose proof Ok as [(B1 & B2 & B3) _ _]. rewrite (ulong_small (addr - offset b)) by lia. rewrite ulong_small by lia. destruct (Z.ltb_spec (length b) (addr - offset b + size)); [rewrite ulong_small by lia|]; lia.
Qed.
End Ram.
End RamList.
