(* ===== verification/DirtyLog.v ===== *)
(** * The dirty log: exec.c

    Stores of the guest go to RAM without a call only through entries of the
    translation cache that are not marked.  The log of dirty pages is complete if
    such an entry never names a page with a clear flag; every operation on the RAM
    list, the flags, the page map and the caches of the CPUs keeps this. *)

From S2P Require Import Prelude SoftTlb PhysMap RamList.
From Stdlib Require Import String.

Module DirtyLog.
Import SoftTlb.
Import RamList(RAMList, RAMBlock, offset, length, host, blocks, phys_dirty, ram_ok, block_ok, block_end, points_in, ptr_in, flags_index, TARGET_PAGE_ALIGN, CODE_DIRTY_FLAG).
#[local] Existing Instances RamList.RAMBlock_eta RamList.RAMList_eta PhysMap.phys_map_eta.

Abbreviation get_flags := RamList.cpu_physical_memory_get_dirty_flags.
Abbreviation is_dirty := RamList.cpu_physical_memory_is_dirty.
Abbreviation from_host := RamList.qemu_ram_addr_from_host.
Abbreviation set_flags := RamList.cpu_physical_memory_set_dirty_flags.
Abbreviation reset_dirty := RamList.cpu_physical_memory_reset_dirty.

Section Log.
Context {HW : HostWidth} {F D : Type}.

(** ** The machine behind the caches *)

Record machine := mkMachine { map_ : @PhysMap.phys_map F D; ram_list : RAMList }.

(** Filling a cache looks the pointer up without a move of its block, which no
    answer shows; an offset outside the blocks aborts the program. *)
#[export] Instance machine_board : Board machine := {
  phys_page_find i m := PhysMap.phys_page_find i (PhysMap.l1_phys_map (map_ m));
  qemu_get_ram_ptr o m := default 0 (RamList.qemu_safe_ram_ptr o (ram_list m));
  qemu_ram_addr_from_host_nofail p m := default 0 (from_host p (ram_list m));
  cpu_physical_memory_is_dirty a m := is_dirty a (ram_list m);
  io_mem_watch := PhysMap.io_mem_watch (PhysMap.io_mem_init (@PhysMap.phys_map_zero F D))
}.

(** ** Stores to a marked page *)

(** The cache of translated code: it drops the code of the bytes, and unprotects the
    page if no code is left on it. *)
Variable tb_invalidate_phys_page_fast : Z -> Z -> RAMList -> RAMList.

Definition tlb_protect_code (ram_addr : Z) (s : RAMList) (cpus : list cpu_common) : option (RAMList * list cpu_common) :=
  reset_dirty ram_addr (ulong (ram_addr + TARGET_PAGE_SIZE)) CODE_DIRTY_FLAG s cpus.

Definition tlb_unprotect_code_phys (ram_addr : Z) (s : RAMList) : RAMList := set_flags ram_addr CODE_DIRTY_FLAG s.

(** [notdirty_mem_writeb], [w] and [l] for a [len] of 1, 2 and 4. Also returned is the
    host address of the store; [None] is abort. *)
Definition notdirty_mem_write (len ram_addr : Z) (s : RAMList) (t : cpu_common) : option (Z * RAMList * cpu_common) :=
  let dirty_flags := get_flags ram_addr s in
  let '(s, dirty_flags) :=
    if negb (tst dirty_flags CODE_DIRTY_FLAG) then
      let s := tb_invalidate_phys_page_fast ram_addr len s in (s, get_flags ram_addr s)
    else (s, dirty_flags) in
  match RamList.qemu_get_ram_ptr ram_addr s with
  | None => None
  | Some (p, s) =>
      let dirty_flags := dirty_flags .| (0xff .& ~~ CODE_DIRTY_FLAG) in
      let s := set_flags ram_addr dirty_flags s in
      Some (p, s, if dirty_flags =? 0xff then tlb_set_dirty (mem_io_vaddr t) t else t)
  end.

(** ** What the log promises *)

Definition entry_in (e : CPUTLBEntry) (t : cpu_common) : Prop := exists l, l ∈ tlb_table t /\ e ∈ l.

(** Stores through the entry go to RAM at once. *)
Definition direct (e : CPUTLBEntry) : Prop := addr_write e .& ~~ TARGET_PAGE_MASK = IO_MEM_RAM.

Definition store_page (e : CPUTLBEntry) : Z := ulong ((addr_write e .& TARGET_PAGE_MASK) + addend e).

Definition log_sound (s : RAMList) (cpus : list cpu_common) : Prop :=
  forall t e a, t ∈ cpus -> entry_in e t -> direct e -> from_host (store_page e) s = Some a -> is_dirty a s = true.

Lemma ulong_bounds x : 0 <= ulong x < 2 ^ host_bits.
Proof. apply Z.mod_pos_bound. pose proof host_bits_ok. lia. Qed.

Lemma from_host_in p s a : ram_ok s -> 0 <= p < 2 ^ host_bits -> from_host p s = Some a ->
  exists b, b ∈ blocks s /\ offset b <= a < block_end b /\ p = host b + (a - offset b).
Proof.
  intros H Hp E. unfold from_host in E. fold (points_in p) in E. destruct (List.find _ _) as [b|] eqn:Q; [|discriminate]. injection E as <-.
  apply RamList.find_in in Q. destruct Q as [Hb Pb]. exists b. pose proof (RamList.ro_blocks s H b Hb) as Ok. apply (RamList.points_range p b Ok Hp) in Pb.
  pose proof Ok as [(B1 & B2 & B3) _ _]. unfold block_end. rewrite RamList.ulong_small by lia. split; [done|lia].
Qed.

Lemma from_host_back p s a b : ram_ok s -> b ∈ blocks s -> offset b <= a < block_end b -> p = host b + (a - offset b) -> from_host p s = Some a.
Proof. intros H Hb Ha ->. destruct (RamList.ptr_in_range a b (RamList.ro_blocks s H b Hb) Ha) as [<- _]. now apply RamList.from_host_ptr. Qed.

(** What a step may do: the page of a pointer keeps its flag, or is dirty after it;
    an entry for direct stores was one before, or names a dirty page. *)
Lemma log_mono s s' cpus cpus' : log_sound s cpus ->
  (forall p a, 0 <= p < 2 ^ host_bits -> from_host p s' = Some a -> (from_host p s = Some a /\ (is_dirty a s = true -> is_dirty a s' = true)) \/ is_dirty a s' = true) ->
  (forall t e, t ∈ cpus' -> entry_in e t -> direct e ->
    (exists t0 e0, t0 ∈ cpus /\ entry_in e0 t0 /\ direct e0 /\ store_page e0 = store_page e) \/ forall a, from_host (store_page e) s' = Some a -> is_dirty a s' = true) ->
  log_sound s' cpus'.
Proof.
  intros H P Q t e a Ht He Hd Ha. destruct (Q t e Ht He Hd) as [(t0 & e0 & H1 & H2 & H3 & H4)|H1]; [|now apply H1].
  destruct (P (store_page e) a (ulong_bounds _) Ha) as [[P1 P2]|P1]; [|exact P1]. apply P2. rewrite <- H4 in P1. now apply (H t0 e0 a).
Qed.

(** The case of the same caches. *)
Lemma log_same_cpus s s' cpus : log_sound s cpus ->
  (forall p a, 0 <= p < 2 ^ host_bits -> from_host p s' = Some a -> (from_host p s = Some a /\ (is_dirty a s = true -> is_dirty a s' = true)) \/ is_dirty a s' = true) -> log_sound s' cpus.
Proof. intros H P. apply (log_mono s s' cpus cpus H P). intros t e Ht He Hd. left. exists t, e. auto. Qed.

(** ** The RAM list *)

Lemma from_host_sub s s' p a : ram_ok s -> ram_ok s' -> 0 <= p < 2 ^ host_bits -> (forall b, b ∈ blocks s' -> b ∈ blocks s) -> from_host p s' = Some a -> from_host p s = Some a.
Proof. intros H H' Hp S E. destruct (from_host_in p s' a H' Hp E) as (b & Hb & Ha & Ep). apply (from_host_back p s a b); auto. Qed.

Lemma same_flags_dirty s s' a : get_flags a s' = get_flags a s -> is_dirty a s' = is_dirty a s.
Proof. unfold is_dirty. now intros ->. Qed.

Lemma dirty_aset s i v x : (aget (phys_dirty s) i = 0xff -> v = 0xff) -> 0 <= i -> 0 <= x -> is_dirty x s = true -> is_dirty x (s <| phys_dirty := aset (phys_dirty s) i v |>) = true.
Proof.
  intros Hv Hi Hx E. unfold is_dirty, get_flags in *. change (phys_dirty (s <| phys_dirty := aset (phys_dirty s) i v |>)) with (aset (phys_dirty s) i v). apply Z.eqb_eq in E. apply Z.eqb_eq. destruct (Z.eq_dec i (flags_index x)) as [->|N].
  - unfold aget, aset in *. rewrite nth_lookup in *. destruct (Nat.lt_ge_cases (Z.to_nat (flags_index x)) (List.length (phys_dirty s))) as [L|L].
    + rewrite list_lookup_insert_eq by exact L. now apply Hv.
    + now rewrite list_insert_ge by exact L.
  - rewrite aget_aset_ne; [exact E|done|now apply RamList.page_index_nonneg|exact N].
Qed.

Lemma u8_lor_ff f : u8 (0xff .| f) = 0xff.
Proof.
  assert (u8 (0xff .| f) = (0xff .| f) .& Z.ones 8) as -> by (now rewrite Z.land_ones). change 0xff with (Z.ones 8). apply Z.bits_inj'. intros n Hn.
  rewrite Z.land_spec, Z.lor_spec. destruct (Z.testbit (Z.ones 8) n); [done|apply andb_false_r].
Qed.

Lemma mask_clear x f : u8 (x .& ~~ f) .& f = 0.
Proof.
  assert (u8 (x .& ~~ f) = x .& ~~ f .& Z.ones 8) as -> by (now rewrite Z.land_ones). apply Z.bits_inj'. intros n Hn. rewrite !Z.land_spec, Z.lnot_spec, Z.bits_0 by exact Hn.
  destruct (Z.testbit f n); [now rewrite andb_false_r|apply andb_false_r].
Qed.

(** Flags that only grow. *)
Lemma log_grow s s' cpus : ram_ok s -> ram_ok s' -> (forall b, b ∈ blocks s' -> b ∈ blocks s) -> (forall a, 0 <= a -> is_dirty a s = true -> is_dirty a s' = true) -> log_sound s cpus -> log_sound s' cpus.
Proof.
  intros H H' S G L. apply (log_same_cpus s s' cpus L). intros p a Hp E. left. pose proof (from_host_sub s s' p a H H' Hp S E) as E'. split; [exact E'|]. apply G.
  destruct (from_host_in p s a H Hp E') as (b & Hb & Ha & _). destruct (RamList.ro_blocks s H b Hb) as [(B1 & _) _ _]. lia.
Qed.

Lemma set_dirty_grow addr s a : 0 <= addr -> 0 <= a -> is_dirty a s = true -> is_dirty a (RamList.cpu_physical_memory_set_dirty addr s) = true.
Proof. intros Hd Ha E. apply dirty_aset; auto. now apply RamList.page_index_nonneg. Qed.

Lemma set_flags_grow addr f s a : 0 <= addr -> 0 <= a -> is_dirty a s = true -> is_dirty a (set_flags addr f s) = true.
Proof. intros Hd Ha E. apply dirty_aset; auto; [|now apply RamList.page_index_nonneg]. unfold get_flags. intros ->. apply u8_lor_ff. Qed.

Lemma alloc_log id size host fresh s off s' cpus : ram_ok s -> RamList.alloc_ok size host fresh s -> RamList.qemu_ram_alloc_from_ptr id size host fresh s = Some (off, s') -> log_sound s cpus -> log_sound s' cpus.
Proof.
  intros H A E L. destruct (RamList.alloc_spec _ _ _ _ _ _ _ H A E) as (H' & Eo & Eb & Hnew & Hold). apply (log_same_cpus s s' cpus L). intros p a Hp Ef.
  destruct (from_host_in p s' a H' Hp Ef) as (b & Hb & Ha & Ep). rewrite Eb in Hb. apply elem_of_cons in Hb. destruct Hb as [->|Hb].
  - right. unfold is_dirty. apply Z.eqb_eq, Hnew. lia.
  - left. split; [now apply (from_host_back p s a b)|]. now rewrite (same_flags_dirty s s' a (Hold b a Hb Ha)).
Qed.

(** The operations that leave the caches alone. *)
Inductive quiet_step (s : RAMList) : RAMList -> Prop :=
| qs_alloc id size host fresh off s' : RamList.alloc_ok size host fresh s -> RamList.qemu_ram_alloc_from_ptr id size host fresh s = Some (off, s') -> quiet_step s s'
| qs_free addr : quiet_step s (RamList.qemu_ram_free addr s).2
| qs_get_ptr addr p s' : RamList.qemu_get_ram_ptr addr s = Some (p, s') -> quiet_step s s'
| qs_set addr : 0 <= addr -> quiet_step s (RamList.cpu_physical_memory_set_dirty addr s)
| qs_flags addr f : 0 <= addr -> quiet_step s (set_flags addr f s).

Lemma quiet_ram s s' : quiet_step s s' -> RamList.ram_step s s'.
Proof.
  intros [id size h fresh off s0 A E|addr|addr p s0 E|addr N|addr f N].
  - exact (RamList.rs_alloc s id size h fresh off s0 A E).
  - apply RamList.rs_free.
  - exact (RamList.rs_get_ptr s addr p s0 E).
  - apply RamList.rs_set.
  - apply RamList.rs_flags.
Qed.

Lemma same_dirty s s' a : phys_dirty s' = phys_dirty s -> is_dirty a s = true -> is_dirty a s' = true.
Proof. unfold is_dirty, get_flags. now intros ->. Qed.

Lemma quiet_log s s' cpus : ram_ok s -> quiet_step s s' -> log_sound s cpus -> ram_ok s' /\ log_sound s' cpus.
Proof.
  intros H Q L. pose proof (RamList.ram_step_ok s s' H (quiet_ram s s' Q)) as H'. split; [exact H'|]. destruct Q as [id size h fresh off s' A E|addr|addr p s' E|addr N|addr f N].
  - exact (alloc_log _ _ _ _ _ _ _ _ H A E L).
  - destruct (RamList.free_spec addr s H) as (_ & P & S). apply (log_grow s); auto; intros a _; now apply same_dirty.
  - destruct (RamList.get_ram_ptr_spec _ _ _ _ H E) as (_ & S & P). apply (log_grow s); auto; [intros b; apply S|intros a _; now apply same_dirty].
  - apply (log_grow s); auto. intros a Ha. now apply set_dirty_grow.
  - apply (log_grow s); auto. intros a Ha. now apply set_flags_grow.
Qed.

(** ** Clearing flags *)

Lemma mask_flags start len f s a : 0 <= a -> 0 <= start -> flags_index a < Z.of_nat (List.length (phys_dirty s)) ->
  get_flags a (RamList.cpu_physical_memory_mask_dirty_range start len f s) =
  if (flags_index start <=? flags_index a) && (flags_index a <? flags_index start + (s32 len >> TARGET_PAGE_BITS)) then u8 (get_flags a s .& ~~ f) else get_flags a s.
Proof.
  intros Ha Hs Hl. unfold RamList.cpu_physical_memory_mask_dirty_range, get_flags. change (phys_dirty (s <| phys_dirty := ?l |>)) with l. unfold aget. rewrite !nth_lookup, list_lookup_imap.
  pose proof (RamList.page_index_nonneg a Ha). destruct (phys_dirty s !! Z.to_nat (flags_index a)) as [x|] eqn:E; cbn [fmap option_fmap option_map from_option id].
  - rewrite Z2Nat.id by lia. done.
  - apply lookup_ge_None in E. lia.
Qed.

(** A range of whole pages in a block. *)
Definition in_block (start end_ : Z) (b : RAMBlock) : Prop := offset b <= start <= end_ /\ start < block_end b /\ end_ <= block_end b.

Lemma page_down x : x .& TARGET_PAGE_MASK = 4096 * (x / 4096).
Proof.
  change TARGET_PAGE_MASK with (Z.lnot (Z.ones 12)). rewrite <- Z.ldiff_land, Z.ldiff_ones_r, Z.shiftl_mul_pow2, Z.shiftr_div_pow2 by lia. change (2 ^ 12) with 4096. apply Z.mul_comm.
Qed.

Lemma range_pages b start end_ (lo := start .& TARGET_PAGE_MASK) (hi := TARGET_PAGE_ALIGN end_) : block_ok b -> in_block start end_ b ->
  offset b <= lo <= start /\ end_ <= hi <= block_end b /\ lo <= hi /\ lo mod 4096 = 0 /\ hi mod 4096 = 0.
Proof.
  intros Ok (H1 & H2 & H3). pose proof Ok as [(B1 & B2 & B3) (B4 & B5) _]. pose proof (RamList.end_aligned b Ok) as B6. unfold block_end in *. subst lo hi. unfold TARGET_PAGE_ALIGN. change TARGET_PAGE_SIZE with 4096.
  pose proof (Z.div_mod (offset b + length b) 4096 ltac:(lia)). assert (2 ^ host_bits mod 4096 = 0) as P.
  { pose proof host_bits_ok. change 4096 with (2 ^ 12). replace host_bits with (host_bits - 12 + 12) by lia. rewrite Z.pow_add_r by lia. apply Z.mod_mul. lia. }
  pose proof (Z.div_mod (2 ^ host_bits) 4096 ltac:(lia)). rewrite (RamList.ulong_small (end_ + 4096 - 1)) by lia. rewrite !page_down. rewrite !(Z.mul_comm 4096), !Z.mod_mul by lia. Z.div_mod_to_equations. lia.
Qed.

(** In a block, clearing does not abort: it masks the flags of the pages and marks
    the entries for their host memory. *)
Lemma reset_eq s b start end_ f cpus (lo := start .& TARGET_PAGE_MASK) (hi := TARGET_PAGE_ALIGN end_) : ram_ok s -> b ∈ blocks s -> in_block start end_ b ->
  reset_dirty start end_ f s cpus = if hi - lo =? 0 then Some (s, cpus)
    else Some (RamList.cpu_physical_memory_mask_dirty_range lo (hi - lo) f s, map (tlb_reset_dirty (host b + (lo - offset b)) (hi - lo)) cpus).
Proof.
  intros H Hb I. pose proof (RamList.ro_blocks s H b Hb) as Ok. destruct (range_pages b start end_ Ok I) as (R1 & R2 & R3 & _ & _). fold lo hi in R1, R2, R3. pose proof Ok as [(B1 & B2 & B3) _ (B4 & B5)]. unfold block_end in *.
  unfold reset_dirty. fold lo hi. rewrite (RamList.ulong_small (hi - lo)) by lia. destruct (Z.eqb_spec (hi - lo) 0) as [|N]; [done|].
  set (s1 := RamList.cpu_physical_memory_mask_dirty_range lo (hi - lo) f s).
  assert (forall x, offset b <= x < block_end b -> RamList.qemu_safe_ram_ptr x s1 = Some (host b + (x - offset b))) as P.
  { intros x Hx. unfold RamList.qemu_safe_ram_ptr. change (blocks s1) with (blocks s). rewrite (RamList.find_holds s x b H Hb Hx). cbn [option_map]. f_equal. now apply RamList.ptr_in_range. }
  unfold block_end in P. rewrite (RamList.ulong_small (hi - 1)) by lia. rewrite !P by lia. rewrite !RamList.ulong_small by lia.
  rewrite (proj2 (Z.eqb_eq _ _)) by lia. done.
Qed.

Lemma s32_le x : 0 <= x -> s32 x <= x.
Proof. intros H. unfold s32. assert (u32 x <= x) by (apply Z.mod_le; [exact H|done]). destruct (_ <? _); lia. Qed.

(** The flags that are masked are those of the range. *)
Lemma masked_in lo len a : 0 <= a -> 0 <= lo -> 0 <= len -> lo mod 4096 = 0 -> flags_index lo <= flags_index a -> flags_index a < flags_index lo + (s32 len >> TARGET_PAGE_BITS) -> lo <= a < lo + len.
Proof.
  intros Ha Hlo Hlen M H1 H2. split.
  - destruct (Z.le_gt_cases lo a) as [|L]; [done|]. pose proof (RamList.page_index_lt a lo ltac:(lia) M). lia.
  - destruct (Z.lt_ge_cases a (lo + len)) as [|L]; [done|]. pose proof (RamList.page_index_le (lo + len) a L) as Q. rewrite (RamList.page_index_add lo len M) in Q. pose proof (RamList.page_index_le _ _ (s32_le len Hlen)). unfold flags_index in *. lia.
Qed.

Lemma in_flags s b a : ram_ok s -> b ∈ blocks s -> offset b <= a < block_end b -> 0 <= a /\ flags_index a < Z.of_nat (List.length (phys_dirty s)).
Proof.
  intros H Hb Ha. pose proof (RamList.ro_blocks s H b Hb) as Ok. pose proof Ok as [(B1 & B2 & B3) _ _]. split; [lia|]. pose proof (RamList.page_index_lt a (block_end b) ltac:(lia) (RamList.end_aligned b Ok)).
  pose proof (RamList.ro_flags s H b Hb) as Q. fold (flags_index (offset b + length b)) in Q. unfold block_end in *. lia.
Qed.

(** ** Entries of the caches *)

Lemma low_bits_of x y : y .& ~~ TARGET_PAGE_MASK = y -> (x .& TARGET_PAGE_MASK .| y) .& ~~ TARGET_PAGE_MASK = y.
Proof.
  intros Hy. rewrite Z.land_lor_distr_l, Hy. rewrite <- Z.land_assoc. replace (TARGET_PAGE_MASK .& ~~ TARGET_PAGE_MASK) with 0 by reflexivity. now rewrite Z.land_0_r, Z.lor_0_l.
Qed.

Lemma all_entries_in f t e : entry_in e (all_entries f t) -> exists e0, entry_in e0 t /\ e = f e0.
Proof.
  intros (l & Hl & He). unfold all_entries in Hl. change (tlb_table (t <| tlb_table := ?x |>)) with x in Hl. apply list_elem_of_In, in_map_iff in Hl. destruct Hl as (l0 & <- & Hl0).
  apply list_elem_of_In, in_map_iff in He. destruct He as (e0 & <- & He0). exists e0. split; [|done]. exists l0. split; now apply list_elem_of_In.
Qed.

(** An entry that a clearing leaves for direct stores is outside its range. *)
Lemma reset_range_direct start len e : direct (tlb_reset_dirty_range start len e) -> tlb_reset_dirty_range start len e = e /\ direct e /\ len <= ulong (store_page e - start).
Proof.
  unfold tlb_reset_dirty_range, direct. destruct (Z.eqb_spec (addr_write e .& ~~ TARGET_PAGE_MASK) IO_MEM_RAM) as [E|N]; [|done].
  fold (store_page e). destruct (Z.ltb_spec (ulong (store_page e - start)) len) as [L|L]; [|done].
  change (addr_write (e <| addr_write := ?x |>)) with x. rewrite low_bits_of by reflexivity. discriminate.
Qed.

Lemma map_cpus_in (f : cpu_common -> cpu_common) cpus t : t ∈ map f cpus -> exists t0, t0 ∈ cpus /\ t = f t0.
Proof. intros Ht. apply list_elem_of_In, in_map_iff in Ht. destruct Ht as (t0 & <- & H). exists t0. split; [now apply list_elem_of_In|done]. Qed.

(** An entry for direct stores that is left names no page of the range. *)
Lemma reset_entries s b lo len cpus t e a : ram_ok s -> b ∈ blocks s -> offset b <= lo -> lo + len <= block_end b -> t ∈ map (tlb_reset_dirty (host b + (lo - offset b)) len) cpus -> entry_in e t -> direct e ->
  (exists t0, t0 ∈ cpus /\ entry_in e t0) /\ (from_host (store_page e) s = Some a -> ~ lo <= a < lo + len).
Proof.
  intros H Hb L1 L2 Ht He Hd. apply map_cpus_in in Ht. destruct Ht as (t0 & Ht0 & ->). apply all_entries_in in He. destruct He as (e0 & He0 & ->).
  destruct (reset_range_direct _ _ _ Hd) as (E & Hd0 & Hout). rewrite E. split; [eauto|]. intros Ef Ha.
  destruct (from_host_in _ s a H (ulong_bounds _) Ef) as (b' & Hb' & Ha' & Ep). assert (b' = b) as ->.
  { pose proof (RamList.find_holds s a b' H Hb' Ha') as Q. rewrite (RamList.find_holds s a b H Hb) in Q by lia. congruence. }
  fold (store_page e0) in Ep. rewrite Ep in Hout. pose proof (RamList.ro_blocks s H b Hb) as [(B1 & B2 & B3) _ _]. unfold block_end in *. rewrite RamList.ulong_small in Hout by lia. lia.
Qed.

Lemma reset_log s b start end_ f cpus s' cpus' : ram_ok s -> b ∈ blocks s -> in_block start end_ b -> reset_dirty start end_ f s cpus = Some (s', cpus') -> log_sound s cpus -> ram_ok s' /\ log_sound s' cpus'.
Proof.
  intros H Hb I E L. pose proof (RamList.ro_blocks s H b Hb) as Ok. pose proof Ok as [(B1 & _) _ _]. destruct (range_pages b start end_ Ok I) as (R1 & R2 & R3 & R4 & R5). split; [exact (RamList.ram_step_ok s s' H (RamList.rs_reset s _ _ _ _ _ _ E))|].
  rewrite (reset_eq s b _ _ _ _ H Hb I) in E. set (lo := start .& TARGET_PAGE_MASK) in *. set (hi := TARGET_PAGE_ALIGN end_) in *. clearbody lo hi. destruct (hi - lo =? 0); [now injection E as <- <-|].
  injection E as <- <-. intros t e a Ht He Hd Ef. change (from_host (store_page e) s = Some a) in Ef. destruct (reset_entries s b lo (hi - lo) cpus t e a H Hb ltac:(lia) ltac:(lia) Ht He Hd) as ((t0 & Ht0 & He0) & Hout).
  specialize (Hout Ef). destruct (from_host_in _ s a H (ulong_bounds _) Ef) as (b' & Hb' & Ha' & _). destruct (in_flags s b' a H Hb' Ha') as [A1 A2].
  rewrite (same_flags_dirty s); [now apply (L t0 e a)|]. rewrite mask_flags by (done || lia). destruct (_ && _) eqn:Q; [|done]. apply andb_true_iff in Q. rewrite Z.leb_le, Z.ltb_lt in Q. destruct Q as [Q1 Q2].
  exfalso. apply Hout. apply (masked_in lo (hi - lo) a); lia.
Qed.

(** Changes of one cache. *)
Lemma log_cpu s cpus i t t' : log_sound s cpus -> cpus !! i = Some t ->
  (forall e, entry_in e t' -> direct e -> entry_in e t \/ forall a, from_host (store_page e) s = Some a -> is_dirty a s = true) -> log_sound s (<[i := t']> cpus).
Proof.
  intros L Hi Q. assert (t ∈ cpus) as Ht by (now apply list_elem_of_lookup_2 in Hi). apply (log_mono s s cpus _ L); [tauto|]. intros x e Hx He Hd. apply list_elem_of_lookup in Hx. destruct Hx as [j Hj].
  destruct (decide (i = j)) as [<-|N].
  - rewrite list_lookup_insert_eq in Hj by (now apply lookup_lt_Some in Hi). injection Hj as <-. destruct (Q e He Hd) as [He0|Hdirty]; [left; exists t, e; auto|now right].
  - rewrite list_lookup_insert_ne in Hj by exact N. left. exists x, e. split; [now apply list_elem_of_lookup_2 in Hj|auto].
Qed.

Lemma upd_entry_in mm i f t e : entry_in e (upd_entry mm i f t) -> entry_in e t \/ exists e0, entry_in e0 t /\ e = f e0.
Proof.
  assert (forall {A} (g : A -> A) k (l : list A) x, x ∈ alter g k l -> x ∈ l \/ exists y, y ∈ l /\ x = g y) as P.
  { intros A g k l x Hx. apply list_elem_of_lookup in Hx. destruct Hx as [j Hj]. destruct (decide (k = j)) as [<-|N].
    - rewrite list_lookup_alter_eq in Hj. apply fmap_Some in Hj. destruct Hj as (y & Hy & ->). right. exists y. split; [now apply list_elem_of_lookup_2 in Hy|done].
    - rewrite list_lookup_alter_ne in Hj by exact N. left. now apply list_elem_of_lookup_2 in Hj. }
  intros (l & Hl & He). unfold upd_entry in Hl. change (tlb_table (t <| tlb_table := ?x |>)) with x in Hl. apply P in Hl. destruct Hl as [Hl|(l0 & Hl0 & ->)]; [left; exists l; auto|].
  apply P in He. destruct He as [He|(e0 & He0 & ->)]; [left; exists l0; auto|]. right. exists e0. split; [exists l0; auto|done].
Qed.

Lemma empty_not_direct : ~ direct s_cputlb_empty_entry.
Proof. discriminate. Qed.

Lemma flush_in g t e : entry_in e (tlb_flush g t) -> ~ direct e.
Proof.
  intros (l & Hl & He). change (l ∈ map (map (fun _ => s_cputlb_empty_entry)) (tlb_table t)) in Hl. apply list_elem_of_In, in_map_iff in Hl. destruct Hl as (l0 & <- & _).
  apply list_elem_of_In, in_map_iff in He. destruct He as (e0 & <- & _). apply empty_not_direct.
Qed.

Lemma flush_page_in addr t e : entry_in e (tlb_flush_page addr t) -> direct e -> entry_in e t.
Proof.
  unfold tlb_flush_page. destruct (_ =? _); [intros He Hd; now apply flush_in in He|]. cbn [fold_left]. set (t0 := t <| current_tb := 0 |>). set (v := addr .& TARGET_PAGE_MASK).
  assert (forall mm x, (entry_in e (upd_entry mm (tlb_index v) (tlb_flush_entry v) x) -> direct e -> entry_in e x)) as P.
  { intros mm x He Hd. apply upd_entry_in in He. destruct He as [He|(e0 & He0 & E)]; [done|]. unfold tlb_flush_entry in E. destruct (_ || _); [rewrite E in Hd; now apply empty_not_direct in Hd|now rewrite E]. }
  intros He Hd. change (entry_in e t0). apply (P 0); [|exact Hd]. apply (P 1); [exact He|exact Hd].
Qed.

Lemma update_dirty_in (m : machine) t e : entry_in e (cpu_tlb_update_dirty m t) -> direct e -> entry_in e t.
Proof.
  intros He Hd. apply all_entries_in in He. destruct He as (e0 & He0 & ->). unfold tlb_update_dirty in *. destruct (Z.eqb_spec (addr_write e0 .& ~~ TARGET_PAGE_MASK) IO_MEM_RAM) as [E|N]; [|done].
  destruct (negb _); [|done]. exfalso. unfold direct in Hd. change (addr_write (e0 <| addr_write := ?x |>)) with x in Hd. rewrite Z.land_lor_distr_l, E in Hd. discriminate.
Qed.

(** The entries of the page [v] that are marked, in both modes, are for the page of [ram_addr]. *)
Definition marked_for (v ram_addr : Z) (s : RAMList) (t : cpu_common) : Prop :=
  forall e a, entry_in e t -> addr_write e = v .| TLB_NOTDIRTY -> from_host (ulong (v + addend e)) s = Some a -> flags_index a = flags_index ram_addr.

Lemma page_page v : v .& TARGET_PAGE_MASK .& TARGET_PAGE_MASK = v .& TARGET_PAGE_MASK.
Proof. now rewrite <- Z.land_assoc, Z.land_diag. Qed.

Lemma page_low v : v .& TARGET_PAGE_MASK .& ~~ TARGET_PAGE_MASK = 0.
Proof. rewrite <- Z.land_assoc. replace (TARGET_PAGE_MASK .& ~~ TARGET_PAGE_MASK) with 0 by reflexivity. apply Z.land_0_r. Qed.

Lemma set_dirty_in v t e : entry_in e (tlb_set_dirty v t) ->
  let p := v .& TARGET_PAGE_MASK in entry_in e t \/ exists e0, entry_in e0 t /\ addr_write e0 = p .| TLB_NOTDIRTY /\ e = e0 <| addr_write := p |>.
Proof.
  intros He p. unfold tlb_set_dirty in He. fold p in He. cbn [fold_left] in He.
  assert (forall mm x, entry_in e (upd_entry mm (tlb_index p) (tlb_set_dirty1 p) x) -> entry_in e x \/ exists e0, entry_in e0 x /\ addr_write e0 = p .| TLB_NOTDIRTY /\ e = e0 <| addr_write := p |>) as P.
  { intros mm x Hx. apply upd_entry_in in Hx. destruct Hx as [Hx|(e0 & He0 & E)]; [now left|]. unfold tlb_set_dirty1 in E. destruct (Z.eqb_spec (addr_write e0) (p .| TLB_NOTDIRTY)) as [Q|]; [right; eauto|left; now rewrite E]. }
  destruct (P _ _ He) as [H1|(e0 & H1 & H2 & H3)]; [now apply (P 0)|]. right. exists e0. split; [|auto]. apply upd_entry_in in H1. destruct H1 as [H1|(e1 & H1 & E)]; [done|].
  unfold tlb_set_dirty1 in E. destruct (_ =? _); [|now rewrite E]. exfalso. rewrite E in H2. change (addr_write (e1 <| addr_write := ?x |>)) with x in H2.
  assert (Z.testbit p 4 = Z.testbit (p .| TLB_NOTDIRTY) 4) as T by (now rewrite <- H2). rewrite Z.lor_spec in T. unfold p in T. rewrite page_of_bits in T by lia. rewrite andb_false_r in T. discriminate.
Qed.

(** ** Filling *)

(** A page is RAM in a block, or ROM or a zone of I/O. *)
Definition page_good (pd : Z) (s : RAMList) : Prop :=
  (pd .& ~~ TARGET_PAGE_MASK = IO_MEM_RAM /\ exists b, b ∈ blocks s /\ offset b <= pd .& TARGET_PAGE_MASK < block_end b)
  \/ IO_MEM_ROM <= pd .& ~~ TARGET_PAGE_MASK \/ tst pd IO_MEM_ROMD = true.

(** A page address with a flag is not for direct stores. *)
Ltac flagged Hd Hv := exfalso; rewrite ?Z.land_lor_distr_l, Hv in Hd; discriminate Hd.

Lemma store_page_of v p e : v .& TARGET_PAGE_MASK = v -> 0 <= p < 2 ^ host_bits -> addr_write e = v -> addend e = ulong (p - v) -> store_page e = p.
Proof.
  intros Hv Hp E1 E2. unfold store_page. rewrite E1, Hv, E2. unfold ulong, wrap. rewrite Zplus_mod_idemp_r. replace (v + (p - v)) with p by lia. now apply Z.mod_small.
Qed.

Lemma dirty_page x y s : flags_index x = flags_index y -> is_dirty x s = is_dirty y s.
Proof. unfold is_dirty, get_flags. now intros ->. Qed.

Lemma page_index_mask x : flags_index (x .& TARGET_PAGE_MASK) = flags_index x.
Proof. rewrite page_down. unfold flags_index. rewrite !Z.shiftr_div_pow2 by (unfold TARGET_PAGE_BITS; lia). change (2 ^ TARGET_PAGE_BITS) with 4096. rewrite Z.mul_comm. now apply Z.div_mul. Qed.

Lemma new_entry_log (m : machine) v address code_address pd prot w : ram_ok (ram_list m) -> v .& TARGET_PAGE_MASK = v -> page_good pd (ram_list m) ->
  let io := pd .& ~~ TARGET_PAGE_MASK in
  code_address = (if (IO_MEM_ROM <? io) && negb (tst pd IO_MEM_ROMD) then v .| TLB_MMIO else v) -> address = (if w : bool then code_address .| TLB_MMIO else code_address) ->
  let e := new_entry v address code_address pd prot (ulong (qemu_get_ram_ptr (pd .& TARGET_PAGE_MASK) m)) m in
  direct e -> forall a, from_host (store_page e) (ram_list m) = Some a -> is_dirty a (ram_list m) = true.
Proof.
  intros H Hv G io Ec Ea e Hd a Hf. unfold direct, e, new_entry in Hd. cbn [addr_write] in Hd. fold io in Hd. destruct (tst prot PAGE_WRITE) eqn:W; [|discriminate].
  assert (v .& ~~ TARGET_PAGE_MASK = 0) as Hv0 by (rewrite <- Hv; apply page_low).
  destruct w; [subst address; destruct (_ && negb _); subst code_address; repeat match type of Hd with context [if ?c then _ else _] => destruct c end; flagged Hd Hv0|].
  destruct ((io =? IO_MEM_ROM) || tst pd IO_MEM_ROMD) eqn:R.
  { subst address. destruct (_ && negb _); subst code_address; flagged Hd Hv0. }
  apply orb_false_iff in R. destruct R as [R1 R2]. apply Z.eqb_neq in R1. rewrite R2, andb_true_r in Ec. destruct G as [(G1 & b & Hb & Hin)|[G|G]]; [| |congruence].
  - fold io in G1. rewrite G1 in Ec, Hd. change (IO_MEM_ROM <? IO_MEM_RAM) with false in Ec. subst code_address. subst address. change (IO_MEM_RAM =? IO_MEM_RAM) with true in Hd. cbn [andb] in Hd.
    destruct (negb _) eqn:Q; [flagged Hd Hv0|]. apply negb_false_iff in Q. cbn in Q.
    assert (qemu_get_ram_ptr (pd .& TARGET_PAGE_MASK) m = host b + (pd .& TARGET_PAGE_MASK - offset b)) as P.
    { cbn [SoftTlb.qemu_get_ram_ptr machine_board]. unfold RamList.qemu_safe_ram_ptr. rewrite (RamList.find_holds _ _ b H Hb Hin). cbn [option_map from_option id]. now apply RamList.ptr_in_range; [apply (RamList.ro_blocks _ H)|]. }
    pose proof (RamList.ro_blocks _ H b Hb) as [(B1 & B2 & B3) _ (B4 & B5)]. unfold block_end in Hin. rewrite (from_host_back (store_page e) (ram_list m) (pd .& TARGET_PAGE_MASK) b H Hb Hin) in Hf.
    + injection Hf as <-. rewrite <- Q. apply dirty_page, page_index_mask.
    + apply (store_page_of v); [done|lia| |].
      * unfold e, new_entry. cbn [addr_write]. fold io. rewrite W, R2, G1. cbn [orb]. change (IO_MEM_RAM =? IO_MEM_ROM) with false. change (IO_MEM_RAM =? IO_MEM_RAM) with true. cbn [orb andb]. cbn. now rewrite Q.
      * unfold e, new_entry. cbn [addend]. now rewrite P, (RamList.ulong_small (host b + _)) by lia.
  - fold io in G. rewrite (proj2 (Z.ltb_lt _ _)) in Ec by lia. subst code_address. subst address. destruct (_ && _); flagged Hd Hv0.
Qed.

Lemma large_page_table v size t : tlb_table (tlb_add_large_page v size t) = tlb_table t.
Proof. unfold tlb_add_large_page. now destruct (_ =? _). Qed.

Definition page_of (paddr : Z) (m : machine) : Z := page_pd (phys_page_find (paddr >> TARGET_PAGE_BITS) m).

Lemma set_page_in v paddr prot mmu size t (m : machine) t' e : ram_ok (ram_list m) -> v .& TARGET_PAGE_MASK = v -> page_good (page_of paddr m) (ram_list m) -> tlb_set_page v paddr prot mmu size t m = Some t' ->
  entry_in e t' -> direct e -> entry_in e t \/ forall a, from_host (store_page e) (ram_list m) = Some a -> is_dirty a (ram_list m) = true.
Proof.
  intros H Hv G E He Hd. unfold tlb_set_page in E. destruct (size <? TARGET_PAGE_SIZE); [discriminate|]. cbv zeta in E. injection E as <-. apply upd_entry_in in He. destruct He as [He|(e0 & _ & ->)].
  - left. destruct He as (l & Hl & He). exists l. split; [|exact He]. change (tlb_table (?x <| iotlb := ?y |>)) with (tlb_table x) in Hl. destruct (negb _); [|exact Hl]. now rewrite large_page_table in Hl.
  - right. intros a. eapply (new_entry_log m v _ _ (page_of paddr m) prot); [exact H|exact Hv|exact G|reflexivity|reflexivity|exact Hd].
Qed.

(** ** Stores to marked pages *)

Hypothesis tb_invalidate_flags : forall a len s, 0 <= a -> tb_invalidate_phys_page_fast a len s = s \/ tb_invalidate_phys_page_fast a len s = tlb_unprotect_code_phys a s.

Lemma set_flags_get a f s : 0 <= a -> flags_index a < Z.of_nat (List.length (phys_dirty s)) -> get_flags a (set_flags a f s) = u8 (get_flags a s .| f).
Proof. intros Ha Hl. unfold set_flags, get_flags. change (phys_dirty (s <| phys_dirty := ?l |>)) with l. apply aget_aset_eq. split; [now apply RamList.page_index_nonneg|exact Hl]. Qed.

(** The store goes to the byte of the RAM block; the page is dirty but for its code. *)
Lemma notdirty_spec len a s t p s' t' b cpus : ram_ok s -> b ∈ blocks s -> offset b <= a < block_end b -> log_sound s cpus -> notdirty_mem_write len a s t = Some (p, s', t') ->
  ram_ok s' /\ log_sound s' cpus /\ RamList.same_blocks s s' /\ p = host b + (a - offset b) /\ ((t' = tlb_set_dirty (mem_io_vaddr t) t /\ is_dirty a s' = true) \/ t' = t).
Proof.
  intros H Hb Ha L E. assert (0 <= a) as Ha0 by (destruct (RamList.ro_blocks s H b Hb) as [(B1 & _) _ _]; lia). unfold notdirty_mem_write in E.
  set (r := if negb _ then _ else _) in E. assert (exists s1, r = (s1, get_flags a s1) /\ ram_ok s1 /\ log_sound s1 cpus /\ blocks s1 = blocks s) as (s1 & Er & H1 & L1 & Eb).
  { unfold r. destruct (negb _); [|exists s; auto]. exists (tb_invalidate_phys_page_fast a len s). split; [done|]. destruct (tb_invalidate_flags a len s Ha0) as [->| ->]; [auto|].
    destruct (quiet_log s _ cpus H (qs_flags s a CODE_DIRTY_FLAG Ha0) L). auto. }
  rewrite Er in E. clear r Er. destruct (RamList.qemu_get_ram_ptr a s1) as [[p0 s2]|] eqn:Q; [|discriminate]. destruct (quiet_log s1 s2 cpus H1 (qs_get_ptr _ _ _ _ Q) L1) as [H2 L2].
  destruct (RamList.get_ram_ptr_spec _ _ _ _ H1 Q) as (_ & S2 & P2). injection E as <- <- <-. destruct (quiet_log s2 _ cpus H2 (qs_flags s2 a (get_flags a s1 .| (0xff .& ~~ CODE_DIRTY_FLAG)) Ha0) L2) as [H3 L3].
  assert (RamList.same_blocks s s2) as S by (intros x; rewrite (S2 x), Eb; done). split_and!; [exact H3|exact L3|exact S| |].
  - unfold RamList.qemu_get_ram_ptr in Q. rewrite (RamList.find_holds s1 a b H1) in Q by (exact Ha || now rewrite Eb). injection Q as <- _. apply RamList.ptr_in_range; [now apply (RamList.ro_blocks s H)|exact Ha].
  - destruct (Z.eqb_spec (get_flags a s1 .| (0xff .& ~~ CODE_DIRTY_FLAG)) 0xff) as [W|W]; [left|now right]. split; [done|]. unfold is_dirty. apply Z.eqb_eq.
    destruct (in_flags s2 b a H2 (proj2 (S b) Hb) Ha) as [_ Hf]. rewrite set_flags_get by (done || lia). rewrite W. rewrite Z.lor_comm. apply u8_lor_ff.
Qed.

Lemma notdirty_log len a s t p s' t' b cpus i : ram_ok s -> b ∈ blocks s -> offset b <= a < block_end b -> log_sound s cpus -> cpus !! i = Some t -> marked_for (mem_io_vaddr t .& TARGET_PAGE_MASK) a s t ->
  notdirty_mem_write len a s t = Some (p, s', t') -> ram_ok s' /\ log_sound s' (<[i := t']> cpus).
Proof.
  intros H Hb Ha L Hi Hm E. destruct (notdirty_spec len a s t p s' t' b cpus H Hb Ha L E) as (H' & L' & S & _ & [[-> Hd]| ->]); (split; [exact H'|]).
  - apply (log_cpu s' cpus i t); [exact L'|exact Hi|]. intros e He Hdir. destruct (set_dirty_in _ _ _ He) as [He0|(e0 & He0 & Hw & ->)]; [now left|]. right. intros x Hx.
    rewrite (dirty_page x a s'); [exact Hd|]. apply (Hm e0); [exact He0|exact Hw|]. unfold store_page in Hx. change (addr_write (e0 <| addr_write := ?y |>)) with y in Hx. rewrite page_page in Hx.
    apply (from_host_sub s s'); [exact H|exact H'|apply ulong_bounds|intros y; apply S|exact Hx].
  - apply (log_cpu s' cpus i t); [exact L'|exact Hi|auto].
Qed.

(** ** Runs *)

Inductive log_step : machine * list cpu_common -> machine * list cpu_common -> Prop :=
| st_ram m s' cpus : quiet_step (ram_list m) s' -> log_step (m, cpus) (mkMachine (map_ m) s', cpus)
| st_reset m start end_ f b cpus s' cpus' : b ∈ blocks (ram_list m) -> in_block start end_ b ->
    reset_dirty start end_ f (ram_list m) cpus = Some (s', cpus') -> log_step (m, cpus) (mkMachine (map_ m) s', cpus')
| st_register m start_addr size phys_offset region_offset cpus p cpus' :
    PhysMap.cpu_register_physical_memory_log start_addr size phys_offset region_offset (map_ m) cpus = Some (p, cpus') -> log_step (m, cpus) (mkMachine p (ram_list m), cpus')
| st_flush m cpus i t g : cpus !! i = Some t -> log_step (m, cpus) (m, <[i := tlb_flush g t]> cpus)
| st_flush_page m cpus i t addr : cpus !! i = Some t -> log_step (m, cpus) (m, <[i := tlb_flush_page addr t]> cpus)
| st_update m cpus i t : cpus !! i = Some t -> log_step (m, cpus) (m, <[i := cpu_tlb_update_dirty m t]> cpus)
| st_fill m cpus i t v paddr prot mmu size t' : cpus !! i = Some t -> v .& TARGET_PAGE_MASK = v -> page_good (page_of paddr m) (ram_list m) ->
    tlb_set_page v paddr prot mmu size t m = Some t' -> log_step (m, cpus) (m, <[i := t']> cpus)
| st_store m cpus i t len a b p s' t' : cpus !! i = Some t -> b ∈ blocks (ram_list m) -> offset b <= a < block_end b ->
    marked_for (mem_io_vaddr t .& TARGET_PAGE_MASK) a (ram_list m) t -> notdirty_mem_write len a (ram_list m) t = Some (p, s', t') ->
    log_step (m, cpus) (mkMachine (map_ m) s', <[i := t']> cpus).

Lemma step_log x y : log_step x y -> ram_ok (ram_list x.1) -> log_sound (ram_list x.1) x.2 -> ram_ok (ram_list y.1) /\ log_sound (ram_list y.1) y.2.
Proof.
  intros S H L. destruct S as [m s' cpus Q|m start end_ f b cpus s' cpus' Hb I E|m sa sz po ro cpus p cpus' E|m cpus i t g Hi|m cpus i t addr Hi|m cpus i t Hi|m cpus i t v paddr prot mmu size t' Hi Hv G E|m cpus i t len a b p s' t' Hi Hb Ha Hm E];
    cbn [fst snd ram_list] in *.
  - now apply (quiet_log (ram_list m)).
  - now apply (reset_log (ram_list m) b start end_ f cpus).
  - split; [exact H|]. unfold PhysMap.cpu_register_physical_memory_log in E. destruct (sz =? 0); [discriminate|]. injection E as _ <-. intros t e a Ht He Hd. apply map_cpus_in in Ht. destruct Ht as (t0 & _ & ->). now apply flush_in in He.
  - split; [exact H|]. apply (log_cpu _ _ _ t); [exact L|exact Hi|]. intros e He Hd. now apply flush_in in He.
  - split; [exact H|]. apply (log_cpu _ _ _ t); [exact L|exact Hi|]. intros e He Hd. left. now apply flush_page_in in He.
  - split; [exact H|]. apply (log_cpu _ _ _ t); [exact L|exact Hi|]. intros e He Hd. left. now apply update_dirty_in in He.
  - split; [exact H|]. apply (log_cpu _ _ _ t); [exact L|exact Hi|]. intros e He Hd. exact (set_page_in v paddr prot mmu size t m t' e H Hv G E He Hd).
  - now apply (notdirty_log len a (ram_list m) t p s' t' b cpus i).
Qed.

(** The machine before any memory, with flushed caches. *)
Definition start_state (map0 : PhysMap.phys_map) (cpus : list cpu_common) : machine * list cpu_common := (mkMachine map0 (RamList.mkRam [] []), map (tlb_flush 1) cpus).

Lemma run_log map0 cpus0 x : rtc log_step (start_state map0 cpus0) x -> ram_ok (ram_list x.1) /\ log_sound (ram_list x.1) x.2.
Proof.
  intros R. remember (start_state map0 cpus0) as x0 eqn:E0. assert (ram_ok (ram_list x0.1) /\ log_sound (ram_list x0.1) x0.2) as H.
  { rewrite E0. split; [apply RamList.empty_ok|]. intros t e a Ht He Hd. apply map_cpus_in in Ht. destruct Ht as (t0 & _ & ->). now apply flush_in in He. }
  clear E0. induction R as [|x y z S R IH]; [done|]. apply IH. now apply (step_log x).
Qed.

(** C8: The dirty log misses no store. In every state that allocation (where a gap is
    large enough and the host's memory is new) and freeing of RAM, changes of flags,
    registrations of memory, flushes of the caches of all CPUs, fills with pages that
    are RAM of a block, ROM or I/O, and stores to marked pages lead to, an entry
    through which a CPU stores to RAM without a call names a page whose flags are all
    set. The stores are those for which every marked entry of the virtual page, in
    both modes, is for the page of RAM stored to; without this an unlogged entry is
    possible. Clearing flags of a range in a block does not abort and leaves no CPU an
    entry for direct stores to the range; if the range is below 2 GB, the flags are
    clear on every page of it. *)
Theorem no_silent_store map0 cpus0 m cpus : rtc log_step (start_state map0 cpus0) (m, cpus) ->
  log_sound (ram_list m) cpus /\
  forall start end_ f b, b ∈ blocks (ram_list m) -> in_block start end_ b ->
    exists s' cpus', reset_dirty start end_ f (ram_list m) cpus = Some (s', cpus') /\
      forall a, start .& TARGET_PAGE_MASK <= a < TARGET_PAGE_ALIGN end_ ->
        (TARGET_PAGE_ALIGN end_ - start .& TARGET_PAGE_MASK < 2 ^ 31 -> RamList.cpu_physical_memory_get_dirty a f s' = 0) /\
        forall t e, t ∈ cpus' -> entry_in e t -> direct e -> from_host (store_page e) s' <> Some a.
Proof.
  intros R. destruct (run_log _ _ _ R) as [H L]. cbn [fst snd] in *. split; [exact L|]. intros start end_ f b Hb I. set (s := ram_list m) in *. clearbody s. clear R m.
  pose proof (RamList.ro_blocks s H b Hb) as Ok. pose proof Ok as [(B1 & _) _ _]. destruct (range_pages b start end_ Ok I) as (R1 & R2 & R3 & R4 & R5). rewrite (reset_eq s b start end_ f cpus H Hb I).
  set (lo := start .& TARGET_PAGE_MASK) in *. set (hi := TARGET_PAGE_ALIGN end_) in *. clearbody lo hi. destruct (Z.eqb_spec (hi - lo) 0) as [Z0|N].
  - exists s, cpus. split; [done|]. intros a Ha. lia.
  - eexists _, _. split; [done|]. intros a Ha. assert (offset b <= a < block_end b) as Hin by lia. destruct (in_flags s b a H Hb Hin) as [A1 A2]. split.
    + intros Hlen. unfold RamList.cpu_physical_memory_get_dirty. rewrite mask_flags by (done || lia). rewrite s32_id by lia. rewrite (proj2 (Z.leb_le _ _)) by (apply RamList.page_index_le; lia).
      pose proof (RamList.page_index_lt a hi ltac:(lia) R5) as U. replace hi with (lo + (hi - lo)) in U by lia. rewrite (RamList.page_index_add lo _ R4) in U. fold (flags_index (hi - lo)). rewrite (proj2 (Z.ltb_lt _ _)) by exact U. cbn [andb].
      apply mask_clear.
    + intros t e Ht He Hd Ef. destruct (reset_entries s b lo (hi - lo) cpus t e a H Hb ltac:(lia) ltac:(lia) Ht He Hd) as [_ Q]. apply Q; [exact Ef|lia].
Qed.
End Log.
End DirtyLog.
