(* ===== verification/PhysRw.v ===== *)
(** * Access to physical memory: exec.c

    The copies to and from physical addresses, the single accesses of a width and an
    endianness, and the mapping of a range for a device, with its bounce buffer. *)

From S2P Require Import Prelude SoftTlb PhysMap RamList DirtyLog.
From Stdlib Require Import String.

Module PhysRw.
Import SoftTlb PhysMap.
Import RamList(RAMList, RAMBlock, offset, length, host, blocks, phys_dirty, ram_ok, block_ok, block_end, ptr_in, flags_index, CODE_DIRTY_FLAG).
#[local] Existing Instances RamList.RAMBlock_eta RamList.RAMList_eta RamList.RAMBlock_eq_dec PhysMap.phys_map_eta.

Abbreviation is_dirty := RamList.cpu_physical_memory_is_dirty.
Abbreviation get_flags := RamList.cpu_physical_memory_get_dirty_flags.
Abbreviation set_flags := RamList.cpu_physical_memory_set_dirty_flags.

(** ** Bytes and numbers *)

Fixpoint le_val (l : list Z) : Z := match l with [] => 0 | x :: l => u8 x .| (le_val l << 8) end.
Fixpoint le_bytes (n : nat) (v : Z) : list Z := match n with O => [] | S n => u8 v :: le_bytes n (v >> 8) end.

(** Of [n] bytes in the order of a device; the target's own is little. *)
Definition bytes_val (e : device_endian) (l : list Z) : Z := match e with DEVICE_BIG_ENDIAN => le_val (rev l) | _ => le_val l end.
Definition val_bytes (e : device_endian) (n : nat) (v : Z) : list Z := match e with DEVICE_BIG_ENDIAN => rev (le_bytes n v) | _ => le_bytes n v end.

Definition bswap (n : nat) (v : Z) : Z := le_val (rev (le_bytes n v)).

Lemma le_val_bits n v i : 0 <= i -> Z.testbit (le_val (le_bytes n v)) i = (i <? 8 * Z.of_nat n) && Z.testbit v i.
Proof.
  revert v i. induction n as [|n IH]; intros v i Hi; cbn [le_bytes le_val].
  - rewrite Z.bits_0. now rewrite (proj2 (Z.ltb_ge _ _)) by lia.
  - assert (u8 (u8 v) = v .& Z.ones 8) as -> by (rewrite Z.land_ones by lia; apply Zmod_mod). rewrite Z.lor_spec, Z.land_spec, Z.testbit_ones_nonneg by lia. destruct (Z.ltb_spec i 8) as [L|L].
    + rewrite Z.shiftl_spec_low by lia. rewrite andb_true_r, orb_false_r. now rewrite (proj2 (Z.ltb_lt _ _)) by lia.
    + rewrite andb_false_r. cbn [orb]. rewrite Z.shiftl_spec, IH, Z.shiftr_spec by lia. replace (i - 8 + 8) with i by lia. f_equal. apply eq_true_iff_eq. rewrite !Z.ltb_lt. lia.
Qed.

Lemma le_val_bytes n v : le_val (le_bytes n v) = v mod 2 ^ (8 * Z.of_nat n).
Proof.
  rewrite <- Z.land_ones by lia. apply Z.bits_inj'. intros i Hi. rewrite le_val_bits, Z.land_spec, Z.testbit_ones_nonneg by lia. apply andb_comm.
Qed.

Lemma val_bytes_roundtrip e n v : bytes_val e (val_bytes e n v) = v mod 2 ^ (8 * Z.of_nat n).
Proof. destruct e; cbn [bytes_val val_bytes]; rewrite ?rev_involutive; apply le_val_bytes. Qed.

Lemma val_bytes_length e n v : List.length (val_bytes e n v) = n.
Proof.
  assert (forall n v, List.length (le_bytes n v) = n) as L by (clear; induction n as [|n IH]; intros v; [done|]; cbn; now rewrite IH). destruct e; cbn [val_bytes]; rewrite ?length_rev; apply L.
Qed.

Section Rw.
Context {HW : HostWidth} {F D W C : Type}.

(** ** State *)

Record BounceBuffer := mkBounce { buffer : Z; bounce_addr : Z; bounce_len : Z }.

(** [mem] is the memory of the host by address, [world] the devices. *)
Record phys_state := mkPS {
  pmap : @phys_map F D;
  ram_list : RAMList;
  mem : gmap Z Z;
  bounce : BounceBuffer;
  map_client_list : list (Z * C);
  in_migration : bool;
  world : W
}.
#[export] Instance phys_state_eta : Eta phys_state := fun s => mkPS (pmap s) (ram_list s) (mem s) (bounce s) (map_client_list s) (in_migration s) (world s).

(** The handlers in the tables of I/O zones, by the size's index, with the state they
    may change; the cache of translated code; the callbacks of clients. *)
Variable io_read : Z -> Z -> Z -> phys_state -> Z * phys_state.
Variable io_write : Z -> Z -> Z -> Z -> phys_state -> phys_state.
Variable tb_invalidate_phys_page_range : Z -> Z -> RAMList -> RAMList.
Variable callback : C -> phys_state -> phys_state.

Definition mem_at (p : Z) (s : phys_state) : Z := default 0 (mem s !! p).

(** [memcpy] to and from host memory. *)
Fixpoint store_bytes (p : Z) (l : list Z) (m : gmap Z Z) : gmap Z Z := match l with [] => m | x :: l => store_bytes (p + 1) l (<[p := x]> m) end.
Fixpoint load_bytes (p : Z) (n : nat) (s : phys_state) : list Z := match n with O => [] | S n => mem_at p s :: load_bytes (p + 1) n s end.

(** ** Pages *)

Definition page_find (addr : Z) (s : phys_state) : option PhysPageDesc := phys_page_find (addr >> TARGET_PAGE_BITS) (l1_phys_map (pmap s)).

(** The bytes left in the page of [addr], at most [len]. *)
Definition page_len (addr len : Z) : Z := Z.min (s32 (u64 ((addr .& TARGET_PAGE_MASK) + TARGET_PAGE_SIZE - addr))) len.

Definition io_index_of (pd : Z) : Z := (pd >> IO_MEM_SHIFT) .& (IO_MEM_NB_ENTRIES - 1).
Definition io_addr (addr : Z) (p : option PhysPageDesc) : Z := match p with Some p => u64 ((addr .& ~~ TARGET_PAGE_MASK) + region_offset p) | None => addr end.

(** The host address of a RAM offset; [None] is abort. *)
Definition ram_ptr (o : Z) (s : phys_state) : option (Z * phys_state) :=
  match RamList.qemu_get_ram_ptr o (ram_list s) with Some (p, r) => Some (p, s <| ram_list := r |>) | None => None end.

(** After a store to [n] bytes of RAM at [addr1]. *)
Definition log_store (addr1 n : Z) (s : phys_state) : phys_state :=
  if negb (is_dirty addr1 (ram_list s)) then
    s <| ram_list := set_flags addr1 (0xff .& ~~ CODE_DIRTY_FLAG) (tb_invalidate_phys_page_range addr1 (ulong (addr1 + n)) (ram_list s)) |>
  else s.

(** The widest access that the bytes left and the alignment allow. *)
Definition io_width (l addr1 : Z) : Z := if (4 <=? l) && (addr1 .& 3 =? 0) then 2 else if (2 <=? l) && (addr1 .& 1 =? 0) then 1 else 0.

(** ** Copies *)

(** A turn of the loop of [cpu_physical_memory_rw] that writes: the bytes done and the state after it. *)
Definition rw_write_turn (addr : Z) (buf : list Z) (s : phys_state) : option (Z * phys_state) :=
  let l := page_len addr (Z.of_nat (List.length buf)) in
  let p := page_find addr s in
  let pd := page_pd p in
  if negb (pd .& ~~ TARGET_PAGE_MASK =? IO_MEM_RAM) then
    let addr1 := io_addr addr p in
    let k := io_width l addr1 in
    Some (1 << k, io_write (io_index_of pd) k addr1 (le_val (take (Z.to_nat (1 << k)) buf)) s)
  else
    let addr1 := ulong ((pd .& TARGET_PAGE_MASK) + (addr .& ~~ TARGET_PAGE_MASK)) in
    match ram_ptr addr1 s with
    | None => None
    | Some (ptr, s) => Some (l, log_store addr1 l (s <| mem := store_bytes ptr (take (Z.to_nat l) buf) (mem s) |>))
    end.

(** A turn that reads. *)
Definition rw_read_turn (addr len : Z) (s : phys_state) : option (list Z * phys_state) :=
  let l := page_len addr len in
  let p := page_find addr s in
  let pd := page_pd p in
  if (IO_MEM_ROM <? pd .& ~~ TARGET_PAGE_MASK) && negb (tst pd IO_MEM_ROMD) then
    let addr1 := io_addr addr p in
    let k := io_width l addr1 in
    let '(val, s) := io_read (io_index_of pd) k addr1 s in
    Some (le_bytes (Z.to_nat (1 << k)) val, s)
  else
    match ram_ptr (pd .& TARGET_PAGE_MASK) s with
    | None => None
    | Some (ptr, s) => Some (load_bytes (ptr + (addr .& ~~ TARGET_PAGE_MASK)) (Z.to_nat l) s, s)
    end.

Fixpoint rw_write_loop (fuel : nat) (addr : Z) (buf : list Z) (s : phys_state) : option phys_state :=
  match buf, fuel with
  | [], _ => Some s
  | _, O => None
  | _, S fuel =>
      match rw_write_turn addr buf s with
      | None => None
      | Some (l, s) => rw_write_loop fuel (u64 (addr + l)) (drop (Z.to_nat l) buf) s
      end
  end.

Fixpoint rw_read_loop (fuel : nat) (addr len : Z) (s : phys_state) : option (list Z * phys_state) :=
  if len <=? 0 then Some ([], s)
  else
    match fuel with
    | O => None
    | S fuel =>
        match rw_read_turn addr len s with
        | None => None
        | Some (l, s) =>
            let n := Z.of_nat (List.length l) in
            match rw_read_loop fuel (u64 (addr + n)) (len - n) s with
            | None => None
            | Some (l', s) => Some (l ++ l', s)
            end
        end
    end.

(** Each turn moves a byte at least. *)
Definition cpu_physical_memory_write (addr : Z) (buf : list Z) (s : phys_state) : option phys_state := rw_write_loop (List.length buf) addr buf s.
Definition cpu_physical_memory_read (addr len : Z) (s : phys_state) : option (list Z * phys_state) := rw_read_loop (Z.to_nat len) addr len s.

(** ROM can be written too; the log and the code stay as they are. *)
Definition write_rom_turn (addr : Z) (buf : list Z) (s : phys_state) : option (Z * phys_state) :=
  let l := page_len addr (Z.of_nat (List.length buf)) in
  let pd := page_pd (page_find addr s) in
  let io := pd .& ~~ TARGET_PAGE_MASK in
  if negb (io =? IO_MEM_RAM) && negb (io =? IO_MEM_ROM) && negb (tst pd IO_MEM_ROMD) then Some (l, s)
  else
    match ram_ptr (ulong ((pd .& TARGET_PAGE_MASK) + (addr .& ~~ TARGET_PAGE_MASK))) s with
    | None => None
    | Some (ptr, s) => Some (l, s <| mem := store_bytes ptr (take (Z.to_nat l) buf) (mem s) |>)
    end.

Fixpoint write_rom_loop (fuel : nat) (addr : Z) (buf : list Z) (s : phys_state) : option phys_state :=
  match buf, fuel with
  | [], _ => Some s
  | _, O => None
  | _, S fuel =>
      match write_rom_turn addr buf s with
      | None => None
      | Some (l, s) => write_rom_loop fuel (u64 (addr + l)) (drop (Z.to_nat l) buf) s
      end
  end.

Definition cpu_physical_memory_write_rom (addr : Z) (buf : list Z) (s : phys_state) : option phys_state := write_rom_loop (List.length buf) addr buf s.

(** ** Accesses of one width *)

(** Loads of [1 << k] bytes, RAM or by the handler of the width's index. *)
Definition ld_phys (k : Z) (addr : Z) (endian : device_endian) (s : phys_state) : option (Z * phys_state) :=
  let n := Z.to_nat (1 << k) in
  let p := page_find addr s in
  let pd := page_pd p in
  if (IO_MEM_ROM <? pd .& ~~ TARGET_PAGE_MASK) && negb (tst pd IO_MEM_ROMD) then
    let '(val, s) := io_read (io_index_of pd) k (io_addr addr p) s in
    Some (match endian with DEVICE_BIG_ENDIAN => bswap n val | _ => val end, s)
  else
    match ram_ptr (pd .& TARGET_PAGE_MASK) s with
    | None => None
    | Some (ptr, s) => Some (bytes_val endian (load_bytes (ptr + (addr .& ~~ TARGET_PAGE_MASK)) n s), s)
    end.

Definition lduw_phys_internal : Z -> device_endian -> phys_state -> option (Z * phys_state) := ld_phys 1.
Definition ldl_phys_internal : Z -> device_endian -> phys_state -> option (Z * phys_state) := ld_phys 2.

(** Two accesses to a device, low half first, in the target's order whatever [endian] is. *)
Definition ldq_phys_internal (addr : Z) (endian : device_endian) (s : phys_state) : option (Z * phys_state) :=
  let p := page_find addr s in
  let pd := page_pd p in
  if (IO_MEM_ROM <? pd .& ~~ TARGET_PAGE_MASK) && negb (tst pd IO_MEM_ROMD) then
    let addr := io_addr addr p in
    let '(lo, s) := io_read (io_index_of pd) 2 addr s in
    let '(hi, s) := io_read (io_index_of pd) 2 (u64 (addr + 4)) s in
    Some (lo .| (hi << 32), s)
  else
    match ram_ptr (pd .& TARGET_PAGE_MASK) s with
    | None => None
    | Some (ptr, s) => Some (bytes_val endian (load_bytes (ptr + (addr .& ~~ TARGET_PAGE_MASK)) 8 s), s)
    end.

Definition ldub_phys (addr : Z) (s : phys_state) : option (Z * phys_state) :=
  match cpu_physical_memory_read addr 1 s with Some (l, s) => Some (nth 0 l 0, s) | None => None end.

Definition lduw_phys (addr : Z) := lduw_phys_internal addr DEVICE_NATIVE_ENDIAN.
Definition lduw_le_phys (addr : Z) := lduw_phys_internal addr DEVICE_LITTLE_ENDIAN.
Definition lduw_be_phys (addr : Z) := lduw_phys_internal addr DEVICE_BIG_ENDIAN.
Definition ldl_phys (addr : Z) := ldl_phys_internal addr DEVICE_NATIVE_ENDIAN.
Definition ldl_le_phys (addr : Z) := ldl_phys_internal addr DEVICE_LITTLE_ENDIAN.
Definition ldl_be_phys (addr : Z) := ldl_phys_internal addr DEVICE_BIG_ENDIAN.
Definition ldq_phys (addr : Z) := ldq_phys_internal addr DEVICE_NATIVE_ENDIAN.
Definition ldq_le_phys (addr : Z) := ldq_phys_internal addr DEVICE_LITTLE_ENDIAN.
Definition ldq_be_phys (addr : Z) := ldq_phys_internal addr DEVICE_BIG_ENDIAN.

(** Stores of [1 << k] bytes. *)
Definition st_phys (k : Z) (addr val : Z) (endian : device_endian) (s : phys_state) : option phys_state :=
  let n := Z.to_nat (1 << k) in
  let p := page_find addr s in
  let pd := page_pd p in
  if negb (pd .& ~~ TARGET_PAGE_MASK =? IO_MEM_RAM) then
    let val := match endian with DEVICE_BIG_ENDIAN => bswap n val | _ => val end in
    Some (io_write (io_index_of pd) k (io_addr addr p) val s)
  else
    let addr1 := ulong ((pd .& TARGET_PAGE_MASK) + (addr .& ~~ TARGET_PAGE_MASK)) in
    match ram_ptr addr1 s with
    | None => None
    | Some (ptr, s) => Some (log_store addr1 (1 << k) (s <| mem := store_bytes ptr (val_bytes endian n val) (mem s) |>))
    end.

Definition stw_phys_internal : Z -> Z -> device_endian -> phys_state -> option phys_state := st_phys 1.
Definition stl_phys_internal : Z -> Z -> device_endian -> phys_state -> option phys_state := st_phys 2.

Definition stw_phys (addr val : Z) := stw_phys_internal addr val DEVICE_NATIVE_ENDIAN.
Definition stw_le_phys (addr val : Z) := stw_phys_internal addr val DEVICE_LITTLE_ENDIAN.
Definition stw_be_phys (addr val : Z) := stw_phys_internal addr val DEVICE_BIG_ENDIAN.
Definition stl_phys (addr val : Z) := stl_phys_internal addr val DEVICE_NATIVE_ENDIAN.
Definition stl_le_phys (addr val : Z) := stl_phys_internal addr val DEVICE_LITTLE_ENDIAN.
Definition stl_be_phys (addr val : Z) := stl_phys_internal addr val DEVICE_BIG_ENDIAN.

Definition stb_phys (addr val : Z) (s : phys_state) : option phys_state := cpu_physical_memory_write addr [u8 val] s.
Definition stq_phys (addr val : Z) (s : phys_state) : option phys_state := cpu_physical_memory_write addr (val_bytes DEVICE_NATIVE_ENDIAN 8 val) s.
Definition stq_le_phys (addr val : Z) (s : phys_state) : option phys_state := cpu_physical_memory_write addr (val_bytes DEVICE_LITTLE_ENDIAN 8 val) s.
Definition stq_be_phys (addr val : Z) (s : phys_state) : option phys_state := cpu_physical_memory_write addr (val_bytes DEVICE_BIG_ENDIAN 8 val) s.

(** For page tables: the page is not marked dirty, but during migration. *)
Definition stl_phys_notdirty (addr val : Z) (s : phys_state) : option phys_state :=
  let p := page_find addr s in
  let pd := page_pd p in
  if negb (pd .& ~~ TARGET_PAGE_MASK =? IO_MEM_RAM) then Some (io_write (io_index_of pd) 2 (io_addr addr p) val s)
  else
    let addr1 := ulong ((pd .& TARGET_PAGE_MASK) + (addr .& ~~ TARGET_PAGE_MASK)) in
    match ram_ptr addr1 s with
    | None => None
    | Some (ptr, s) =>
        let s := s <| mem := store_bytes ptr (le_bytes 4 val) (mem s) |> in
        Some (if in_migration s then log_store addr1 4 s else s)
    end.

Definition stq_phys_notdirty (addr val : Z) (s : phys_state) : option phys_state :=
  let p := page_find addr s in
  let pd := page_pd p in
  if negb (pd .& ~~ TARGET_PAGE_MASK =? IO_MEM_RAM) then
    let addr := io_addr addr p in
    let s := io_write (io_index_of pd) 2 addr (u32 val) s in
    Some (io_write (io_index_of pd) 2 (u64 (addr + 4)) (u32 (val >> 32)) s)
  else
    match ram_ptr (pd .& TARGET_PAGE_MASK) s with
    | None => None
    | Some (ptr, s) => Some (s <| mem := store_bytes (ptr + (addr .& ~~ TARGET_PAGE_MASK)) (le_bytes 8 val) (mem s) |>)
    end.

(** ** Mapping for a device *)

Definition cpu_register_map_client (id : Z) (c : C) (s : phys_state) : phys_state := s <| map_client_list := (id, c) :: map_client_list s |>.

Definition cpu_unregister_map_client (id : Z) (s : phys_state) : phys_state := s <| map_client_list := List.filter (fun x => negb (x.1 =? id)) (map_client_list s) |>.

(** A callback may register clients. *)
Fixpoint cpu_notify_map_clients (fuel : nat) (s : phys_state) : phys_state :=
  match map_client_list s, fuel with
  | [], _ | _, O => s
  | (id, c) :: _, S fuel => cpu_notify_map_clients fuel (cpu_unregister_map_client id (callback c s))
  end.

Inductive mapping_turn := Bounced (addr l : Z) | Stopped | More (l raddr : Z).

(** A turn of the loop of [cpu_physical_memory_map]. *)
Definition map_turn (addr len todo raddr : Z) (s : phys_state) : mapping_turn :=
  let l := page_len addr len in
  let pd := page_pd (page_find addr s) in
  if negb (pd .& ~~ TARGET_PAGE_MASK =? IO_MEM_RAM) then
    if truthy todo || truthy (buffer (bounce s)) then Stopped else Bounced addr l
  else More l (if truthy todo then raddr else ulong ((pd .& TARGET_PAGE_MASK) + (addr .& ~~ TARGET_PAGE_MASK))).

Inductive map_result := MapBounce (addr l : Z) | MapRam (raddr todo : Z) | MapFuel.

Fixpoint map_loop (fuel : nat) (addr len todo raddr : Z) (s : phys_state) : map_result :=
  if len <=? 0 then MapRam raddr todo
  else
    match fuel with
    | O => MapFuel
    | S fuel =>
        match map_turn addr len todo raddr s with
        | Bounced a l => MapBounce a l
        | Stopped => MapRam raddr todo
        | More l raddr => map_loop fuel (u64 (addr + l)) (len - l) (todo + l) raddr s
        end
    end.

(** The pointer, 0 for NULL, with the length that is mapped; [fresh] is the memory for
    the bounce buffer. [None] is abort. *)
Definition cpu_physical_memory_map (addr plen : Z) (is_write : bool) (fresh : Z) (s : phys_state) : option (Z * Z * phys_state) :=
  match map_loop (Z.to_nat plen) addr plen 0 RamList.ULONG_MAX s with
  | MapFuel => None
  | MapBounce addr l =>
      let s := s <| bounce := mkBounce fresh addr l |> in
      if is_write then Some (fresh, l, s)
      else
        match cpu_physical_memory_read addr l s with
        | Some (b, s) => Some (fresh, l, s <| mem := store_bytes fresh b (mem s) |>)
        | None => None
        end
  | MapRam raddr todo =>
      match RamList.qemu_ram_ptr_length raddr todo (ram_list s) with
      | Some (p, rlen) => Some (p, rlen, s)
      | None => None
      end
  end.

(** The pages of a mapping that were written. *)
Fixpoint unmap_loop (fuel : nat) (addr1 access_len : Z) (s : phys_state) : phys_state :=
  match fuel with
  | O => s
  | S fuel =>
      if access_len =? 0 then s
      else let l := Z.min TARGET_PAGE_SIZE access_len in unmap_loop fuel (ulong (addr1 + l)) (access_len - l) (log_store addr1 l s)
  end.

(** [clients] bounds the callbacks. *)
Definition cpu_physical_memory_unmap (buf len : Z) (is_write : bool) (access_len : Z) (clients : nat) (s : phys_state) : option phys_state :=
  if negb (buf =? buffer (bounce s)) then
    if is_write then
      match RamList.qemu_ram_addr_from_host buf (ram_list s) with
      | Some addr1 => Some (unmap_loop (Z.to_nat access_len) addr1 access_len s)
      | None => None
      end
    else Some s
  else
    match (if is_write then cpu_physical_memory_write (bounce_addr (bounce s)) (load_bytes (buffer (bounce s)) (Z.to_nat access_len) s) s else Some s) with
    | Some s => Some (cpu_notify_map_clients clients (s <| bounce := mkBounce 0 (bounce_addr (bounce s)) (bounce_len (bounce s)) |>))
    | None => None
    end.

(** ** RAM as an array of bytes *)

(** The byte at an offset of RAM. *)
Definition ram_at (o : Z) (s : phys_state) : Z := match RamList.qemu_safe_ram_ptr o (ram_list s) with Some p => mem_at p s | None => 0 end.

Definition in_ram (o : Z) (s : phys_state) : Prop := exists b, b ∈ blocks (ram_list s) /\ offset b <= o < block_end b.

(** The RAM offset of a physical address. *)
Definition ram_target (a : Z) (s : phys_state) : Z := ulong ((page_pd (page_find a s) .& TARGET_PAGE_MASK) + (a .& ~~ TARGET_PAGE_MASK)).

(** The address is RAM, for accesses of the kind, in a block. *)
Definition ram_access (is_write : bool) (a : Z) (s : phys_state) : Prop := io_case is_write (page_pd (page_find a s)) = false /\ in_ram (ram_target a s) s.

(** What a byte by byte copy to the addresses from [a] on makes of an array. *)
Fixpoint put_bytes (target : Z -> Z) (a : Z) (l : list Z) (v : Z -> Z) : Z -> Z :=
  match l with
  | [] => v
  | x :: l => put_bytes target (u64 (a + 1)) l (fun o => if o =? target a then x else v o)
  end.

(** Nothing but bytes and flags changes; the blocks may be in another order. *)
Record same_frame (s s' : phys_state) : Prop := {
  sf_map : pmap s' = pmap s;
  sf_blocks : RamList.same_blocks (ram_list s) (ram_list s');
  sf_bounce : bounce s' = bounce s;
  sf_clients : map_client_list s' = map_client_list s;
  sf_migration : in_migration s' = in_migration s;
  sf_world : world s' = world s
}.

Lemma same_frame_refl s : same_frame s s.
Proof. now constructor. Qed.

Lemma same_frame_trans s s' s'' : same_frame s s' -> same_frame s' s'' -> same_frame s s''.
Proof. intros [A1 A2 A3 A4 A5 A6] [B1 B2 B3 B4 B5 B6]. constructor; try congruence. intros b. now rewrite (B2 b). Qed.

Lemma in_ram_same s s' o : same_frame s s' -> in_ram o s <-> in_ram o s'.
Proof. intros S. unfold in_ram. split; intros (b & Hb & Ho); exists b; (split; [now apply (sf_blocks _ _ S)|exact Ho]). Qed.

Lemma page_find_same s s' a : same_frame s s' -> page_find a s' = page_find a s.
Proof. intros S. unfold page_find. now rewrite (sf_map _ _ S). Qed.

Lemma ram_target_same s s' a : same_frame s s' -> ram_target a s' = ram_target a s.
Proof. intros S. unfold ram_target. now rewrite (page_find_same _ _ _ S). Qed.

Lemma ram_access_same s s' w a : same_frame s s' -> ram_access w a s -> ram_access w a s'.
Proof. intros S [H1 H2]. unfold ram_access. rewrite (page_find_same _ _ _ S), (ram_target_same _ _ _ S). split; [exact H1|now apply (in_ram_same s)]. Qed.

(** ** Bytes in host memory *)

Lemma store_bytes_at l p q (m : gmap Z Z) : default 0 (store_bytes p l m !! q) = if (p <=? q) && (q <? p + Z.of_nat (List.length l)) then nth (Z.to_nat (q - p)) l 0 else default 0 (m !! q).
Proof.
  revert p m. induction l as [|x l IH]; intros p m; cbn [store_bytes List.length].
  - replace (p + Z.of_nat 0) with p by lia. destruct (Z.leb_spec p q), (Z.ltb_spec q p); try done; lia.
  - rewrite IH. destruct (Z.eq_dec q p) as [->|N].
    + rewrite (proj2 (Z.leb_gt _ _)) by lia. cbn [andb]. rewrite (proj2 (Z.leb_le p p)), (proj2 (Z.ltb_lt _ _)) by lia. cbn [andb]. now rewrite lookup_insert_eq, Z.sub_diag.
    + rewrite lookup_insert_ne by congruence. destruct (Z.leb_spec (p + 1) q), (Z.leb_spec p q); try lia; cbn [andb]; [|done]. replace (p + 1 + Z.of_nat (List.length l)) with (p + Z.of_nat (S (List.length l))) by lia.
      destruct (_ <? _); [|done]. replace (Z.to_nat (q - p)) with (S (Z.to_nat (q - (p + 1)))) by lia. done.
Qed.

Lemma put_bytes_ext target l a v v' o : v o = v' o -> put_bytes target a l v o = put_bytes target a l v' o.
Proof. revert a v v'. induction l as [|x l IH]; intros a v v' E; [exact E|]. cbn [put_bytes]. apply IH. now rewrite E. Qed.

Lemma u64_u64_add x y : u64 (u64 x + y) = u64 (x + y).
Proof. unfold u64, wrap. apply Zplus_mod_idemp_l. Qed.

Lemma put_bytes_app target l l' a v : in_u 64 a -> put_bytes target a (l ++ l') v = put_bytes target (u64 (a + Z.of_nat (List.length l))) l' (put_bytes target a l v).
Proof.
  revert a v. induction l as [|x l IH]; intros a v Ha; cbn [put_bytes app List.length].
  - rewrite Z.add_0_r, u64_id by exact Ha. done.
  - rewrite IH by apply u64_range. rewrite u64_u64_add. do 2 f_equal. lia.
Qed.

(** A run of addresses that goes on in RAM. *)
Lemma put_bytes_run target l a t v o : (forall i, 0 <= i < Z.of_nat (List.length l) -> target (u64 (a + i)) = t + i) -> in_u 64 a ->
  put_bytes target a l v o = if (t <=? o) && (o <? t + Z.of_nat (List.length l)) then nth (Z.to_nat (o - t)) l 0 else v o.
Proof.
  revert a t v. induction l as [|x l IH]; intros a t v H Ha; cbn [put_bytes List.length].
  - destruct (Z.leb_spec t o), (Z.ltb_spec o (t + Z.of_nat 0)); try done; lia.
  - cbn [List.length] in H. rewrite (IH _ (t + 1)); [|intros i Hi; rewrite u64_u64_add, <- Z.add_assoc, H by lia; lia|apply u64_range].
    assert (target a = t) as -> by (specialize (H 0 ltac:(lia)); rewrite Z.add_0_r, u64_id in H by exact Ha; lia). destruct (Z.eqb_spec o t) as [->|N].
    + rewrite (proj2 (Z.leb_gt _ _)) by lia. cbn [andb]. rewrite (proj2 (Z.leb_le t t)), (proj2 (Z.ltb_lt _ _)) by lia. cbn [andb]. now rewrite Z.sub_diag.
    + destruct (Z.leb_spec (t + 1) o), (Z.leb_spec t o); try lia; cbn [andb]; [|done]. replace (t + 1 + Z.of_nat (List.length l)) with (t + Z.of_nat (S (List.length l))) by lia.
      destruct (_ <? _); [|done]. replace (Z.to_nat (o - t)) with (S (Z.to_nat (o - (t + 1)))) by lia. done.
Qed.

(** ** Pages *)

Lemma low_part a : a .& ~~ TARGET_PAGE_MASK = a mod 4096.
Proof. change (~~ TARGET_PAGE_MASK) with (Z.ones 12). now rewrite Z.land_ones. Qed.

Lemma page_pd_range p : 0 <= page_pd p < 2 ^ host_bits.
Proof.
  pose proof host_bits_ok as H. destruct p as [p|]; [apply DirtyLog.ulong_bounds|]. cbn [page_pd]. change IO_MEM_UNASSIGNED with 16. split; [lia|]. apply (Z.lt_le_trans _ (2 ^ 32)); [done|now apply Z.pow_le_mono_r].
Qed.

Lemma host_pages : 2 ^ host_bits mod 4096 = 0.
Proof. pose proof host_bits_ok. change 4096 with (2 ^ 12). replace host_bits with (host_bits - 12 + 12) by lia. rewrite Z.pow_add_r by lia. apply Z.mod_mul. lia. Qed.

Lemma ram_target_eq a s : ram_target a s = 4096 * (page_pd (page_find a s) / 4096) + a mod 4096 /\ 0 <= ram_target a s < 2 ^ host_bits.
Proof.
  unfold ram_target. rewrite DirtyLog.page_down, low_part. pose proof (page_pd_range (page_find a s)) as R. pose proof host_pages as P. pose proof (Z.mod_pos_bound a 4096 ltac:(lia)).
  rewrite RamList.ulong_small; Z.div_mod_to_equations; lia.
Qed.

Lemma page_len_eq a len : page_len a len = Z.min (4096 - a mod 4096) len.
Proof.
  unfold page_len. f_equal. rewrite DirtyLog.page_down. change TARGET_PAGE_SIZE with 4096. pose proof (Z.div_mod a 4096 ltac:(lia)). pose proof (Z.mod_pos_bound a 4096 ltac:(lia)).
  replace (4096 * (a / 4096) + 4096 - a) with (4096 - a mod 4096) by lia. rewrite u64_id by (unfold in_u; lia). apply s32_id. lia.
Qed.

(** The addresses of a page. *)
Lemma same_page a i s : in_u 64 a -> 0 <= i < 4096 - a mod 4096 -> u64 (a + i) = a + i /\ page_find (a + i) s = page_find a s /\ (a + i) mod 4096 = a mod 4096 + i.
Proof.
  intros Ha Hi. unfold in_u in Ha. assert ((a + i) / 4096 = a / 4096 /\ (a + i) mod 4096 = a mod 4096 + i) as [E1 E2] by (Z.div_mod_to_equations; lia). split_and!; [|unfold page_find|exact E2].
  - apply u64_id. unfold in_u. change (2 ^ 64) with (4096 * 2 ^ 52) in *. Z.div_mod_to_equations. lia.
  - rewrite !Z.shiftr_div_pow2 by (unfold TARGET_PAGE_BITS; lia). change (2 ^ TARGET_PAGE_BITS) with 4096. now rewrite E1.
Qed.

Lemma ram_target_run a i s : in_u 64 a -> 0 <= i < 4096 - a mod 4096 -> ram_target (u64 (a + i)) s = ram_target a s + i.
Proof.
  intros Ha Hi. destruct (same_page a i s Ha Hi) as (-> & E1 & E2). destruct (ram_target_eq (a + i) s) as [-> _]. destruct (ram_target_eq a s) as [-> _]. rewrite E1, E2. lia.
Qed.

(** A page of RAM is in one block. *)
Lemma page_in_block a b s i : ram_ok (ram_list s) -> b ∈ blocks (ram_list s) -> offset b <= ram_target a s < block_end b -> - (a mod 4096) <= i < 4096 - a mod 4096 -> offset b <= ram_target a s + i < block_end b.
Proof.
  intros H Hb Ho Hi. pose proof (RamList.ro_blocks _ H b Hb) as [_ (B1 & B2) _]. destruct (ram_target_eq a s) as [E _]. rewrite E in *. unfold block_end in *. pose proof (Z.mod_pos_bound a 4096 ltac:(lia)). Z.div_mod_to_equations. lia.
Qed.

(** ** Pointers, bytes and flags *)

Lemma safe_ptr_block o b r : ram_ok r -> b ∈ blocks r -> offset b <= o < block_end b -> RamList.qemu_safe_ram_ptr o r = Some (host b + (o - offset b)).
Proof.
  intros H Hb Ho. unfold RamList.qemu_safe_ram_ptr. rewrite (RamList.find_holds r o b H Hb Ho). cbn [option_map]. f_equal. apply RamList.ptr_in_range; [now apply (RamList.ro_blocks r H)|exact Ho].
Qed.

Lemma ram_at_block o b s : ram_ok (ram_list s) -> b ∈ blocks (ram_list s) -> offset b <= o < block_end b -> ram_at o s = mem_at (host b + (o - offset b)) s.
Proof. intros H Hb Ho. unfold ram_at. now rewrite (safe_ptr_block o b _ H Hb Ho). Qed.

Lemma ram_ptr_block o b s : ram_ok (ram_list s) -> b ∈ blocks (ram_list s) -> offset b <= o < block_end b ->
  exists s1, ram_ptr o s = Some (host b + (o - offset b), s1) /\ same_frame s s1 /\ ram_ok (ram_list s1) /\ mem s1 = mem s /\ phys_dirty (ram_list s1) = phys_dirty (ram_list s).
Proof.
  intros H Hb Ho. unfold ram_ptr. destruct (RamList.qemu_get_ram_ptr o (ram_list s)) as [[p r]|] eqn:E.
  - destruct (RamList.get_ram_ptr_spec _ _ _ _ H E) as (H' & S & P). unfold RamList.qemu_get_ram_ptr in E. rewrite (RamList.find_holds _ o b H Hb Ho) in E. injection E as <- _.
    exists (s <| ram_list := r |>). split_and!; [|now constructor|done|done|done]. do 2 f_equal. apply RamList.ptr_in_range; [now apply (RamList.ro_blocks _ H)|exact Ho].
  - unfold RamList.qemu_get_ram_ptr in E. now rewrite (RamList.find_holds _ o b H Hb Ho) in E.
Qed.

(** What noting a store does to the flags [x] of its page: all but that of code are
    set, none is cleared, and that of code may be set as translated code of the
    page is dropped. *)
Definition noted (x y : Z) : Prop := y = u8 (x .| (0xff .& ~~ CODE_DIRTY_FLAG)) \/ y = 0xff.

(** The flags of the pages in [p] may have been noted, all others are the same. *)
Definition log_within (p : Z -> Prop) (s s' : phys_state) : Prop := forall o, 0 <= o ->
  get_flags o (ram_list s') = get_flags o (ram_list s) \/ p (flags_index o) /\ noted (get_flags o (ram_list s)) (get_flags o (ram_list s')).

Hypothesis tb_range_flags : forall a e r, 0 <= a -> tb_invalidate_phys_page_range a e r = r \/ tb_invalidate_phys_page_range a e r = set_flags a CODE_DIRTY_FLAG r.

Lemma in_ram_flags o s : ram_ok (ram_list s) -> in_ram o s -> 0 <= o /\ flags_index o < Z.of_nat (List.length (phys_dirty (ram_list s))).
Proof. intros H (b & Hb & Ho). now apply (DirtyLog.in_flags _ b). Qed.

Lemma u8_ones x : u8 x = x .& Z.ones 8.
Proof. now rewrite Z.land_ones. Qed.

(** Noting twice is noting once. *)
Lemma noted_trans x y z : noted x y -> noted y z -> noted x z.
Proof.
  intros A B. assert (u8 (0xff .| (0xff .& ~~ CODE_DIRTY_FLAG)) = 0xff) as Ef by reflexivity. destruct B as [->|B]; [|now right].
  destruct A as [-> | ->]; [|right; exact Ef]. left. generalize (0xff .& ~~ CODE_DIRTY_FLAG). intros f. rewrite !u8_ones. apply Z.bits_inj'. intros n Hn. rewrite !Z.land_spec, !Z.lor_spec, !Z.land_spec, !Z.lor_spec.
  destruct (Z.testbit x n), (Z.testbit f n), (Z.testbit (Z.ones 8) n); reflexivity.
Qed.

(** With the flag of code set before. *)
Lemma noted_code x : noted x (u8 (u8 (x .| CODE_DIRTY_FLAG) .| (0xff .& ~~ CODE_DIRTY_FLAG))).
Proof.
  right. rewrite !u8_ones. apply Z.bits_inj'. intros n Hn. change 0xff with (Z.ones 8). rewrite !Z.land_spec, !Z.lor_spec, !Z.land_spec, !Z.lor_spec, Z.lnot_spec by exact Hn.
  destruct (Z.testbit x n), (Z.testbit CODE_DIRTY_FLAG n), (Z.testbit (Z.ones 8) n); reflexivity.
Qed.

(** Noting clears nothing. *)
Lemma noted_keeps x y n : in_u 8 x -> noted x y -> Z.testbit x n = true -> Z.testbit y n = true.
Proof.
  intros Hx Hn B. assert (0 <= n < 8) as Hb.
  { destruct (Z.lt_ge_cases n 0); [now rewrite Z.testbit_neg_r in B|]. split; [lia|]. destruct (Z.lt_ge_cases n 8); [lia|]. rewrite <- (u8_id x Hx), u8_ones, Z.land_spec, Z.ones_spec_high in B by lia. now rewrite andb_false_r in B. }
  assert (Z.testbit (Z.ones 8) n = true) as O by (apply Z.ones_spec_low; lia).
  destruct Hn as [-> | ->]; [|exact O]. now rewrite u8_ones, Z.land_spec, Z.lor_spec, B, O.
Qed.

Lemma set_flags_other a o f r : 0 <= a -> 0 <= o -> flags_index o <> flags_index a -> get_flags o (set_flags a f r) = get_flags o r.
Proof. intros Ha Ho N. unfold set_flags, get_flags. change (phys_dirty (r <| phys_dirty := ?l |>)) with l. apply aget_aset_ne; try now apply RamList.page_index_nonneg. congruence. Qed.

Lemma log_within_refl p s s' : phys_dirty (ram_list s') = phys_dirty (ram_list s) -> log_within p s s'.
Proof. intros E o _. left. unfold get_flags. now rewrite E. Qed.

Lemma log_within_trans (p : Z -> Prop) s s' s'' : log_within p s s' -> log_within p s' s'' -> log_within p s s''.
Proof.
  intros A B o Ho. destruct (A o Ho) as [E1|[P1 N1]], (B o Ho) as [E2|[P2 N2]].
  - left. congruence.
  - right. split; [exact P2|]. now rewrite <- E1.
  - right. split; [exact P1|]. now rewrite E2.
  - right. split; [exact P1|exact (noted_trans _ _ _ N1 N2)].
Qed.

Lemma log_within_mono (p p' : Z -> Prop) s s' : (forall k, p k -> p' k) -> log_within p s s' -> log_within p' s s'.
Proof. intros Hp L o Ho. destruct (L o Ho) as [E|[P N]]; auto. Qed.

(** A page that has been noted stays so. *)
Lemma noted_within p s s' s'' o : 0 <= o -> noted (get_flags o (ram_list s)) (get_flags o (ram_list s')) -> log_within p s' s'' ->
  noted (get_flags o (ram_list s)) (get_flags o (ram_list s'')).
Proof. intros Ho N L. destruct (L o Ho) as [->|[_ M]]; [exact N|exact (noted_trans _ _ _ N M)]. Qed.
Lemma within_noted p s s' s'' o : 0 <= o -> log_within p s s' -> noted (get_flags o (ram_list s')) (get_flags o (ram_list s'')) ->
  noted (get_flags o (ram_list s)) (get_flags o (ram_list s'')).
Proof. intros Ho L N. destruct (L o Ho) as [<-|[_ M]]; [exact N|exact (noted_trans _ _ _ M N)]. Qed.

Lemma get_flags_page o o' r : flags_index o = flags_index o' -> get_flags o r = get_flags o' r.
Proof. unfold get_flags. now intros ->. Qed.

(** A store is noted in the flags of its page, and nowhere else. *)
Lemma log_store_spec a n s (s' := log_store a n s) : ram_ok (ram_list s) -> in_ram a s ->
  ram_ok (ram_list s') /\ same_frame s s' /\ mem s' = mem s /\ log_within (eq (flags_index a)) s s' /\ noted (get_flags a (ram_list s)) (get_flags a (ram_list s')).
Proof.
  intros H Ha. destruct (in_ram_flags a s H Ha) as [A1 A2]. subst s'. unfold log_store. destruct (negb _) eqn:E.
  - set (r := tb_invalidate_phys_page_range _ _ _). assert (r = ram_list s \/ r = set_flags a CODE_DIRTY_FLAG (ram_list s)) as R by (apply tb_range_flags; exact A1). clearbody r.
    assert (ram_ok r /\ flags_index a < Z.of_nat (List.length (phys_dirty r)) /\ (forall o, 0 <= o -> flags_index o <> flags_index a -> get_flags o r = get_flags o (ram_list s))
      /\ noted (get_flags a (ram_list s)) (u8 (get_flags a r .| (0xff .& ~~ CODE_DIRTY_FLAG))) /\ same_frame s (s <| ram_list := r |>)) as (R1 & R2 & R3 & R4 & R5).
    { destruct R as [-> | ->]; [split_and!; [exact H|exact A2|done|now left|now constructor]|]. assert (ram_ok (set_flags a CODE_DIRTY_FLAG (ram_list s))) as R1 by exact (RamList.ram_step_ok _ _ H (RamList.rs_flags _ a CODE_DIRTY_FLAG)).
      assert (same_frame s (s <| ram_list := set_flags a CODE_DIRTY_FLAG (ram_list s) |>)) as R5 by now constructor.
      split_and!; [exact R1|exact (proj2 (in_ram_flags a (s <| ram_list := set_flags a CODE_DIRTY_FLAG (ram_list s) |>) R1 (proj1 (in_ram_same _ _ a R5) Ha)))|intros o Ho No; now apply set_flags_other| |exact R5].
      rewrite DirtyLog.set_flags_get by (exact A1 || exact A2). apply noted_code. }
    assert (noted (get_flags a (ram_list s)) (get_flags a (set_flags a (0xff .& ~~ CODE_DIRTY_FLAG) r))) as N by (rewrite DirtyLog.set_flags_get by (exact A1 || exact R2); exact R4).
    split_and!; [exact (RamList.ram_step_ok _ _ R1 (RamList.rs_flags _ a _))|apply (same_frame_trans _ _ _ R5); now constructor|done| |exact N].
    intros o Ho. change (ram_list (s <| ram_list := ?x |>)) with x. destruct (Z.eq_dec (flags_index o) (flags_index a)) as [Q|Q].
    + right. split; [now symmetry|]. rewrite !(get_flags_page o a) by exact Q. exact N.
    + left. rewrite set_flags_other by assumption. now apply R3.
  - apply negb_false_iff, Z.eqb_eq in E. split_and!; [done|apply same_frame_refl|done|now apply log_within_refl|]. right. exact E.
Qed.

(** ** Copies *)

(** Bytes stored in a block show at their offsets and nowhere else. *)
Lemma store_ram_at s b t l o (s' := s <| mem := store_bytes (host b + (t - offset b)) l (mem s) |>) : ram_ok (ram_list s) -> b ∈ blocks (ram_list s) -> offset b <= t -> t + Z.of_nat (List.length l) <= block_end b -> in_ram o s ->
  ram_at o s' = if (t <=? o) && (o <? t + Z.of_nat (List.length l)) then nth (Z.to_nat (o - t)) l 0 else ram_at o s.
Proof.
  intros H Hb Ht Hl (b' & Hb' & Ho). assert (ram_at o s' = mem_at (host b' + (o - offset b')) s') as -> by now apply (ram_at_block o b' s'). rewrite (ram_at_block o b' s H Hb' Ho). unfold s', mem_at. change (mem (s <| mem := ?x |>)) with x. rewrite store_bytes_at.
  destruct (decide (b' = b)) as [->|N].
  - replace ((host b + (t - offset b)) <=? (host b + (o - offset b))) with (t <=? o) by (apply eq_true_iff_eq; rewrite !Z.leb_le; lia).
    replace ((host b + (o - offset b)) <? (host b + (t - offset b) + Z.of_nat (List.length l))) with (o <? t + Z.of_nat (List.length l)) by (apply eq_true_iff_eq; rewrite !Z.ltb_lt; lia).
    now replace (host b + (o - offset b) - (host b + (t - offset b))) with (o - t) by lia.
  - destruct (RamList.ro_apart _ H b' b Hb' Hb N) as [A1 A2]. unfold RamList.apart, block_end in *. destruct (_ && _) eqn:E1.
    + apply andb_true_iff in E1. rewrite Z.leb_le, Z.ltb_lt in E1. lia.
    + destruct ((t <=? o) && (o <? t + Z.of_nat (List.length l))) eqn:E2; [|done]. apply andb_true_iff in E2. rewrite Z.leb_le, Z.ltb_lt in E2. lia.
Qed.

Lemma run_index a i s : in_u 64 a -> 0 <= i < 4096 - a mod 4096 -> flags_index (ram_target a s + i) = flags_index (ram_target a s).
Proof.
  intros Ha Hi. destruct (ram_target_eq a s) as [E _]. unfold flags_index. rewrite !Z.shiftr_div_pow2 by (unfold TARGET_PAGE_BITS; lia). change (2 ^ TARGET_PAGE_BITS) with 4096. rewrite E. pose proof (Z.mod_pos_bound a 4096 ltac:(lia)). Z.div_mod_to_equations. lia.
Qed.

(** The page with index [k] has one of the [n] addresses from [a] on. *)
Definition pages_of (a n : Z) (s : phys_state) (k : Z) : Prop := exists i, 0 <= i < n /\ k = flags_index (ram_target (u64 (a + i)) s).

(** What a copy of [buf] to the addresses from [a] on does. *)
Record written_to (a : Z) (buf : list Z) (s s' : phys_state) : Prop := {
  wt_ok : ram_ok (ram_list s');
  wt_frame : same_frame s s';
  wt_bytes : forall o, in_ram o s -> ram_at o s' = put_bytes (fun x => ram_target x s) a buf (fun o => ram_at o s) o;
  wt_within : log_within (pages_of a (Z.of_nat (List.length buf)) s) s s';
  wt_logged : forall i (o := ram_target (u64 (a + i)) s), 0 <= i < Z.of_nat (List.length buf) -> in_ram o s /\ noted (get_flags o (ram_list s)) (get_flags o (ram_list s'))
}.

Lemma write_turn_spec a buf s (l := page_len a (Z.of_nat (List.length buf))) : 0 < Z.of_nat (List.length buf) -> ram_ok (ram_list s) -> in_u 64 a -> ram_access true a s -> exists s', rw_write_turn a buf s = Some (l, s') /\ written_to a (take (Z.to_nat l) buf) s s'.
Proof.
  intros Hpos H Ha [Hio (b & Hb & Ho)]. unfold rw_write_turn. fold l. cbn [io_case] in Hio. rewrite Hio. cbv zeta. fold (ram_target a s).
  destruct (ram_ptr_block _ b s H Hb Ho) as (s1 & -> & F1 & H1 & M1 & P1). set (bytes := take (Z.to_nat l) buf). set (s2 := s1 <| mem := store_bytes (host b + (ram_target a s - offset b)) bytes (mem s1) |>).
  assert (0 < l <= 4096 - a mod 4096 /\ Z.of_nat (List.length bytes) = l) as [Hl Hn] by (unfold bytes, l; rewrite length_take, page_len_eq; pose proof (Z.mod_pos_bound a 4096 ltac:(lia)); lia).
  assert (in_ram (ram_target a s) s2) as I2 by (exists b; split; [now apply (sf_blocks _ _ F1)|exact Ho]). assert (same_frame s s2) as F2 by (destruct F1; now constructor).
  destruct (log_store_spec (ram_target a s) l s2 H1 I2) as (H3 & F3 & M3 & G3 & L3). assert (log_within (eq (flags_index (ram_target a s))) s s2) as G2 by (apply log_within_refl; exact P1). eexists. split; [reflexivity|]. constructor.
  - exact H3.
  - exact (same_frame_trans _ _ _ F2 F3).
  - intros o Io. rewrite (put_bytes_run _ bytes a (ram_target a s)); [|intros i Hi; apply ram_target_run; [exact Ha|lia]|exact Ha].
    assert (ram_at o (log_store (ram_target a s) l s2) = ram_at o s2) as ->.
    { destruct (proj1 (in_ram_same s s2 o F2) Io) as (b' & Hb' & Ho'). rewrite (ram_at_block o b' s2 H1 Hb' Ho'), (ram_at_block o b' _ H3) by (exact Ho' || now apply (sf_blocks _ _ F3)). unfold mem_at. now rewrite M3. }
    assert (ram_at o s1 = ram_at o s) as <-.
    { destruct Io as (b' & Hb' & Ho'). rewrite (ram_at_block o b' s H Hb' Ho'), (ram_at_block o b' s1 H1) by (exact Ho' || now apply (sf_blocks _ _ F1)). unfold mem_at. now rewrite M1. }
    apply (store_ram_at s1 b (ram_target a s) bytes o H1); [now apply (sf_blocks _ _ F1)|lia| |now apply (in_ram_same s)].
    pose proof (page_in_block a b s (l - 1) H Hb Ho) as Q. pose proof (Z.mod_pos_bound a 4096 ltac:(lia)). lia.
  - apply (log_within_mono (eq (flags_index (ram_target a s)))); [|exact (log_within_trans _ _ _ _ G2 G3)]. intros k <-. exists 0. rewrite Z.add_0_r, u64_id by exact Ha. split; [lia|done].
  - intros i o Hi. unfold o. clear o. rewrite ram_target_run by (exact Ha || lia). split; [exists b; split; [exact Hb|apply (page_in_block a b s i H Hb Ho); pose proof (Z.mod_pos_bound a 4096 ltac:(lia)); lia]|]. rewrite !(get_flags_page (ram_target a s + i) (ram_target a s)) by (apply run_index; [exact Ha|lia]).
    apply (within_noted _ _ _ _ _ (proj1 (in_ram_flags _ s2 H1 I2)) G2 L3).
Qed.

Lemma put_bytes_target f g l a v o : (forall x, f x = g x) -> put_bytes f a l v o = put_bytes g a l v o.
Proof. intros E. revert a v. induction l as [|x l IH]; intros a v; [done|]. cbn [put_bytes]. rewrite IH. apply put_bytes_ext. now rewrite E. Qed.

Lemma written_app a l1 l2 s s1 s2 : in_u 64 a -> written_to a l1 s s1 -> written_to (u64 (a + Z.of_nat (List.length l1))) l2 s1 s2 -> written_to a (l1 ++ l2) s s2.
Proof.
  intros Ha [A1 A2 A4 A3 A5] [B1 B2 B4 B3 B5]. assert (forall i, ram_target (u64 (u64 (a + Z.of_nat (List.length l1)) + i)) s1 = ram_target (u64 (a + (Z.of_nat (List.length l1) + i))) s) as T
    by (intros i; rewrite u64_u64_add, (ram_target_same _ _ _ A2), <- Z.add_assoc; reflexivity).
  constructor; [exact B1|exact (same_frame_trans _ _ _ A2 B2)| | |].
  - intros o Ho. rewrite B4 by now apply (in_ram_same s). rewrite put_bytes_app by exact Ha. rewrite (put_bytes_target _ (fun x => ram_target x s)) by (intros x; apply (ram_target_same _ _ _ A2)). apply put_bytes_ext. now apply A4.
  - rewrite length_app. apply (log_within_trans _ s s1); [apply (log_within_mono (pages_of a (Z.of_nat (List.length l1)) s)); [|exact A3]|apply (log_within_mono (pages_of (u64 (a + Z.of_nat (List.length l1))) (Z.of_nat (List.length l2)) s1)); [|exact B3]].
    + intros k (i & Hi & E). exists i. split; [lia|exact E].
    + intros k (i & Hi & E). exists (Z.of_nat (List.length l1) + i). rewrite T in E. split; [lia|exact E].
  - intros i o Hi. rewrite length_app in Hi. destruct (Z.lt_ge_cases i (Z.of_nat (List.length l1))) as [L|L].
    + destruct (A5 i ltac:(lia)) as [I L1]. split; [exact I|]. exact (noted_within _ _ _ _ _ (proj1 (proj2 (ram_target_eq _ s))) L1 B3).
    + specialize (B5 (i - Z.of_nat (List.length l1)) ltac:(lia)). cbv zeta in B5. rewrite T in B5. replace (Z.of_nat (List.length l1) + (i - Z.of_nat (List.length l1))) with i in B5 by lia. destruct B5 as [I L1]. split; [now apply (in_ram_same s s1)|].
      exact (within_noted _ _ _ _ _ (proj1 (proj2 (ram_target_eq _ s))) A3 L1).
Qed.

Lemma written_nil a s : ram_ok (ram_list s) -> written_to a [] s s.
Proof. intros H. constructor; [exact H|apply same_frame_refl|done|now apply log_within_refl|]. cbn. lia. Qed.

Lemma write_loop_spec fuel a buf s : (List.length buf <= fuel)%nat -> ram_ok (ram_list s) -> in_u 64 a -> (forall i, 0 <= i < Z.of_nat (List.length buf) -> ram_access true (u64 (a + i)) s) ->
  exists s', rw_write_loop fuel a buf s = Some s' /\ written_to a buf s s'.
Proof.
  revert a buf s. induction fuel as [|fuel IH]; intros a buf s Hf H Ha Hacc.
  - destruct buf as [|x buf]; [|cbn in Hf; lia]. exists s. split; [done|now apply written_nil].
  - destruct buf as [|x buf]; [exists s; split; [done|now apply written_nil]|]. cbn [rw_write_loop]. set (l := x :: buf) in *. assert (0 < Z.of_nat (List.length l)) as Hpos by (unfold l; cbn [List.length]; lia). clearbody l.
    assert (ram_access true a s) as Ha0 by (specialize (Hacc 0 ltac:(lia)); rewrite Z.add_0_r, u64_id in Hacc by exact Ha; exact Hacc).
    destruct (write_turn_spec a l s Hpos H Ha Ha0) as (s1 & -> & W1). set (n := page_len a (Z.of_nat (List.length l))) in *.
    assert (0 < n <= Z.of_nat (List.length l)) as Hn by (unfold n; rewrite page_len_eq; pose proof (Z.mod_pos_bound a 4096 ltac:(lia)); lia). clearbody n.
    assert (Z.of_nat (List.length (take (Z.to_nat n) l)) = n) as En by (rewrite length_take; lia).
    destruct (IH (u64 (a + n)) (drop (Z.to_nat n) l) s1) as (s2 & E2 & W2); [rewrite length_drop; lia|exact (wt_ok _ _ _ _ W1)|apply u64_range| |].
    + intros i Hi. rewrite length_drop in Hi. rewrite u64_u64_add, <- Z.add_assoc. apply (ram_access_same s); [exact (wt_frame _ _ _ _ W1)|]. apply Hacc. lia.
    + exists s2. split; [exact E2|]. rewrite <- (take_drop (Z.to_nat n) l). apply (written_app _ _ _ s s1); [exact Ha|exact W1|]. now rewrite En.
Qed.

(** A read leaves the bytes and the flags. *)
Record read_only (s s' : phys_state) : Prop := { ro_ok : ram_ok (ram_list s'); ro_frame : same_frame s s'; ro_mem : mem s' = mem s; ro_dirty : phys_dirty (ram_list s') = phys_dirty (ram_list s) }.

Lemma read_only_trans s s' s'' : read_only s s' -> read_only s' s'' -> read_only s s''.
Proof. intros [A1 A2 A3 A4] [B1 B2 B3 B4]. constructor; [exact B1|exact (same_frame_trans _ _ _ A2 B2)|congruence|congruence]. Qed.

Lemma read_only_ram_at s s' o : ram_ok (ram_list s) -> read_only s s' -> in_ram o s -> ram_at o s' = ram_at o s.
Proof.
  intros H [R1 R2 R3 _] (b & Hb & Ho). rewrite (ram_at_block o b s H Hb Ho), (ram_at_block o b s' R1) by (exact Ho || now apply (sf_blocks _ _ R2)). unfold mem_at. now rewrite R3.
Qed.

(** The bytes of RAM at the addresses from [a] on. *)
Fixpoint get_bytes (a : Z) (n : nat) (s : phys_state) : list Z := match n with O => [] | S n => ram_at (ram_target a s) s :: get_bytes (u64 (a + 1)) n s end.

Lemma get_bytes_length a n s : List.length (get_bytes a n s) = n.
Proof. revert a. induction n as [|n IH]; intros a; [done|]. cbn. now rewrite IH. Qed.

Lemma get_bytes_app a n k s : in_u 64 a -> get_bytes a (n + k) s = get_bytes a n s ++ get_bytes (u64 (a + Z.of_nat n)) k s.
Proof.
  revert a. induction n as [|n IH]; intros a Ha; cbn [get_bytes app Nat.add].
  - now rewrite Z.add_0_r, u64_id.
  - rewrite IH by apply u64_range. rewrite u64_u64_add. now replace (a + Z.of_nat (S n)) with (a + 1 + Z.of_nat n) by lia.
Qed.

Lemma get_bytes_load a n s p s' : in_u 64 a -> (forall i, 0 <= i < Z.of_nat n -> ram_at (ram_target (u64 (a + i)) s) s = mem_at (p + i) s') -> get_bytes a n s = load_bytes p n s'.
Proof.
  revert a p. induction n as [|n IH]; intros a p Ha H; [done|]. cbn [get_bytes load_bytes]. f_equal.
  - specialize (H 0 ltac:(lia)). now rewrite !Z.add_0_r, u64_id in H.
  - apply IH; [apply u64_range|]. intros i Hi. specialize (H (i + 1) ltac:(lia)). rewrite u64_u64_add. replace (a + 1 + i) with (a + (i + 1)) by lia. replace (p + 1 + i) with (p + (i + 1)) by lia. exact H.
Qed.

Lemma get_bytes_same a n s s' : in_u 64 a -> same_frame s s' -> (forall i, 0 <= i < Z.of_nat n -> ram_at (ram_target (u64 (a + i)) s) s' = ram_at (ram_target (u64 (a + i)) s) s) -> get_bytes a n s' = get_bytes a n s.
Proof.
  intros Ha S. revert a Ha. induction n as [|n IH]; intros a Ha H; [done|]. cbn [get_bytes]. rewrite (ram_target_same _ _ _ S). f_equal.
  - specialize (H 0 ltac:(lia)). now rewrite Z.add_0_r, u64_id in H.
  - apply IH; [apply u64_range|]. intros i Hi. specialize (H (i + 1) ltac:(lia)). rewrite u64_u64_add. now replace (a + 1 + i) with (a + (i + 1)) by lia.
Qed.

Lemma page_offset_block a b s : ram_ok (ram_list s) -> b ∈ blocks (ram_list s) -> offset b <= ram_target a s < block_end b ->
  let o := page_pd (page_find a s) .& TARGET_PAGE_MASK in offset b <= o < block_end b /\ o + (a .& ~~ TARGET_PAGE_MASK) = ram_target a s.
Proof.
  intros H Hb Ho o. destruct (ram_target_eq a s) as [E _]. pose proof (page_in_block a b s (- (a mod 4096)) H Hb Ho) as Q. pose proof (Z.mod_pos_bound a 4096 ltac:(lia)). unfold o. rewrite DirtyLog.page_down, low_part. lia.
Qed.

Lemma ram_load_spec a n s : ram_ok (ram_list s) -> in_u 64 a -> in_ram (ram_target a s) s -> Z.of_nat n <= 4096 - a mod 4096 ->
  exists ptr s', ram_ptr (page_pd (page_find a s) .& TARGET_PAGE_MASK) s = Some (ptr, s') /\ load_bytes (ptr + (a .& ~~ TARGET_PAGE_MASK)) n s' = get_bytes a n s /\ read_only s s'.
Proof.
  intros H Ha (b & Hb & Ho) Hn. destruct (page_offset_block a b s H Hb Ho) as [Q1 Q2]. destruct (ram_ptr_block _ b s H Hb Q1) as (s1 & -> & F1 & H1 & M1 & P1). eexists _, s1. split; [reflexivity|]. split; [|now constructor].
  symmetry. apply get_bytes_load; [exact Ha|]. intros i Hi. rewrite ram_target_run by (exact Ha || lia). rewrite (ram_at_block _ b s H Hb) by (apply (page_in_block a b s i H Hb Ho); pose proof (Z.mod_pos_bound a 4096 ltac:(lia)); lia).
  unfold mem_at. rewrite M1. do 2 f_equal. lia.
Qed.

Lemma read_turn_spec a len s (l := page_len a len) : ram_ok (ram_list s) -> in_u 64 a -> 0 < len -> ram_access false a s -> exists s', rw_read_turn a len s = Some (get_bytes a (Z.to_nat l) s, s') /\ read_only s s'.
Proof.
  intros H Ha Hlen [Hio Hr]. unfold rw_read_turn. fold l. cbn [io_case] in Hio. rewrite Hio. cbv zeta.
  destruct (ram_load_spec a (Z.to_nat l) s H Ha Hr) as (ptr & s1 & -> & -> & R); [unfold l; rewrite page_len_eq; pose proof (Z.mod_pos_bound a 4096 ltac:(lia)); lia|]. eauto.
Qed.

Lemma read_loop_spec fuel a len s : (Z.to_nat len <= fuel)%nat -> ram_ok (ram_list s) -> in_u 64 a -> (forall i, 0 <= i < len -> ram_access false (u64 (a + i)) s) ->
  exists s', rw_read_loop fuel a len s = Some (get_bytes a (Z.to_nat len) s, s') /\ read_only s s'.
Proof.
  revert a len s. induction fuel as [|fuel IH]; intros a len s Hf H Ha Hacc; cbn [rw_read_loop]; destruct (Z.leb_spec len 0) as [L|L].
  1, 3: exists s; replace (Z.to_nat len) with O by lia; split; [done|now constructor].
  { lia. }
  assert (ram_access false a s) as Ha0 by (specialize (Hacc 0 ltac:(lia)); rewrite Z.add_0_r, u64_id in Hacc by exact Ha; exact Hacc).
  destruct (read_turn_spec a len s H Ha L Ha0) as (s1 & -> & R1). set (n := page_len a len) in *. rewrite get_bytes_length.
  assert (0 < n <= len) as Hn by (unfold n; rewrite page_len_eq; pose proof (Z.mod_pos_bound a 4096 ltac:(lia)); lia). clearbody n. rewrite Z2Nat.id by lia.
  destruct (IH (u64 (a + n)) (len - n) s1) as (s2 & E2 & R2); [lia|exact (ro_ok _ _ R1)|apply u64_range| |].
  - intros i Hi. rewrite u64_u64_add, <- Z.add_assoc. apply (ram_access_same s); [exact (ro_frame _ _ R1)|]. apply Hacc. lia.
  - rewrite E2. exists s2. split; [|exact (read_only_trans _ _ _ R1 R2)]. do 2 f_equal. replace (Z.to_nat len) with (Z.to_nat n + Z.to_nat (len - n))%nat by lia. rewrite get_bytes_app by exact Ha. rewrite Z2Nat.id by lia. f_equal.
    apply get_bytes_same; [apply u64_range|exact (ro_frame _ _ R1)|]. intros i Hi. apply (read_only_ram_at s); [exact H|exact R1|]. rewrite u64_u64_add, <- Z.add_assoc. apply Hacc. lia.
Qed.

(** ** Single accesses *)

(** An access inside a page. *)
Definition in_page (a : Z) (n : nat) : Prop := 0 < Z.of_nat n <= 4096 - a mod 4096.

Lemma page_len_all a n : in_page a n -> page_len a (Z.of_nat n) = Z.of_nat n.
Proof. intros H. rewrite page_len_eq. unfold in_page in H. lia. Qed.

Lemma read_one a n s : in_page a n -> io_case false (page_pd (page_find a s)) = false ->
  cpu_physical_memory_read a (Z.of_nat n) s = match ram_ptr (page_pd (page_find a s) .& TARGET_PAGE_MASK) s with None => None | Some (ptr, s) => Some (load_bytes (ptr + (a .& ~~ TARGET_PAGE_MASK)) n s, s) end.
Proof.
  intros H Hio. unfold cpu_physical_memory_read. rewrite Nat2Z.id. destruct n as [|n]; [unfold in_page in H; lia|]. cbn [rw_read_loop]. rewrite (proj2 (Z.leb_gt _ _)) by lia. unfold rw_read_turn. cbn [io_case] in Hio. rewrite Hio. cbv zeta. rewrite (page_len_all a (S n) H), Nat2Z.id.
  destruct (ram_ptr _ _) as [[ptr s1]|]; [|done]. assert (forall m p s, List.length (load_bytes p m s) = m) as L by (clear; induction m as [|m IH]; intros p s; [done|]; cbn; now rewrite IH). rewrite L, Z.sub_diag. assert (forall f x y, rw_read_loop f x 0 y = Some ([], y)) as -> by (now intros []). now rewrite app_nil_r.
Qed.

Lemma write_one a l s : in_page a (List.length l) -> io_case true (page_pd (page_find a s)) = false ->
  cpu_physical_memory_write a l s = match ram_ptr (ram_target a s) s with None => None | Some (ptr, s1) => Some (log_store (ram_target a s) (Z.of_nat (List.length l)) (s1 <| mem := store_bytes ptr l (mem s1) |>)) end.
Proof.
  intros H Hio. unfold cpu_physical_memory_write. destruct l as [|x l]; [unfold in_page in H; cbn in H; lia|]. cbn [rw_write_loop List.length]. set (b := x :: l). change (S (List.length l)) with (List.length b). unfold rw_write_turn. cbn [io_case] in Hio. rewrite Hio. cbv zeta. change (S (List.length l)) with (List.length b) in H.
  rewrite (page_len_all a (List.length b) H), Nat2Z.id. fold (ram_target a s). destruct (ram_ptr _ _) as [[ptr s1]|]; [|done]. rewrite firstn_all, Nat2Z.id, drop_all. now destruct (List.length l).
Qed.

Lemma st_phys_eq k a v e s : 0 <= k -> in_page a (Z.to_nat (1 << k)) -> io_case true (page_pd (page_find a s)) = false ->
  st_phys k a v e s = cpu_physical_memory_write a (val_bytes e (Z.to_nat (1 << k)) v) s.
Proof.
  intros Hk H Hio. rewrite write_one by (rewrite ?val_bytes_length; done). unfold st_phys. cbn [io_case] in Hio. rewrite Hio. cbv zeta. fold (ram_target a s). rewrite val_bytes_length. rewrite Z2Nat.id by (apply Z.shiftl_nonneg; lia). done.
Qed.

Lemma ld_phys_eq k a e s : 0 <= k -> in_page a (Z.to_nat (1 << k)) -> io_case false (page_pd (page_find a s)) = false ->
  ld_phys k a e s = match cpu_physical_memory_read a (1 << k) s with Some (l, s') => Some (bytes_val e l, s') | None => None end.
Proof.
  intros Hk H Hio. assert (1 << k = Z.of_nat (Z.to_nat (1 << k))) as E by (rewrite Z2Nat.id; [done|apply Z.shiftl_nonneg; lia]). rewrite E. rewrite read_one by done. unfold ld_phys. cbn [io_case] in Hio. rewrite Hio. cbv zeta. now destruct (ram_ptr _ _) as [[ptr s1]|].
Qed.

Lemma ldq_phys_eq a e s : in_page a 8 -> io_case false (page_pd (page_find a s)) = false ->
  ldq_phys_internal a e s = match cpu_physical_memory_read a 8 s with Some (l, s') => Some (bytes_val e l, s') | None => None end.
Proof.
  intros H Hio. change (cpu_physical_memory_read a 8 s) with (cpu_physical_memory_read a (Z.of_nat 8) s). rewrite read_one by done. unfold ldq_phys_internal. cbn [io_case] in Hio. rewrite Hio. cbv zeta. now destruct (ram_ptr _ _) as [[ptr s1]|].
Qed.

Lemma get_bytes_nth a n s i : in_u 64 a -> 0 <= i < Z.of_nat n -> nth (Z.to_nat i) (get_bytes a n s) 0 = ram_at (ram_target (u64 (a + i)) s) s.
Proof.
  revert a i. induction n as [|n IH]; intros a i Ha Hi; [lia|]. cbn [get_bytes]. destruct (Z.eq_dec i 0) as [->|N].
  - rewrite Z.add_0_r, (u64_id a Ha). reflexivity.
  - replace (Z.to_nat i) with (S (Z.to_nat (i - 1))) by lia. cbn [nth]. rewrite IH by (apply u64_range || lia). rewrite u64_u64_add. now replace (a + 1 + (i - 1)) with (a + i) by lia.
Qed.

(** Inside a page, what is written is read back. *)
Lemma written_page a l s s' : in_u 64 a -> in_page a (List.length l) -> written_to a l s s' -> get_bytes a (List.length l) s' = l.
Proof.
  intros Ha Hp Wt. apply (nth_ext _ _ 0 0); [apply get_bytes_length|]. rewrite get_bytes_length. intros i Hi. rewrite <- (Nat2Z.id i). rewrite get_bytes_nth by (exact Ha || lia). unfold in_page in Hp.
  destruct (wt_logged _ _ _ _ Wt (Z.of_nat i) ltac:(lia)) as [I _]. rewrite (ram_target_same _ _ _ (wt_frame _ _ _ _ Wt)), (wt_bytes _ _ _ _ Wt) by exact I. rewrite ram_target_run by (exact Ha || lia).
  rewrite (put_bytes_run _ l a (ram_target a s)); [|intros x Hx; apply ram_target_run; [exact Ha|lia]|exact Ha]. rewrite (proj2 (Z.leb_le _ _)), (proj2 (Z.ltb_lt _ _)) by lia. cbn [andb]. f_equal. lia.
Qed.

Lemma page_access w a n s i : in_u 64 a -> in_page a n -> ram_ok (ram_list s) -> ram_access w a s -> 0 <= i < Z.of_nat n -> ram_access w (u64 (a + i)) s.
Proof.
  intros Ha Hp H [Hio (b & Hb & Ho)] Hi. unfold in_page in Hp. unfold ram_access. rewrite ram_target_run by (exact Ha || lia). destruct (same_page a i s Ha ltac:(lia)) as (-> & -> & _). split; [exact Hio|]. exists b. split; [exact Hb|].
  apply (page_in_block a b s i H Hb Ho). pose proof (Z.mod_pos_bound a 4096 ltac:(lia)). lia.
Qed.

Lemma aligned_page k a : 0 <= k <= 3 -> a mod (1 << k) = 0 -> in_page a (Z.to_nat (1 << k)).
Proof.
  intros Hk E. unfold in_page. rewrite Z2Nat.id by (apply Z.shiftl_nonneg; lia). assert (k = 0 \/ k = 1 \/ k = 2 \/ k = 3) as [-> | [-> | [-> | ->]]] by lia.
  - change (1 << 0) with 1 in *. Z.div_mod_to_equations. lia.
  - change (1 << 1) with 2 in *. Z.div_mod_to_equations. lia.
  - change (1 << 2) with 4 in *. Z.div_mod_to_equations. lia.
  - change (1 << 3) with 8 in *. Z.div_mod_to_equations. lia.
Qed.

(** C9: A copy to physical memory whose addresses are all RAM does not abort, whatever
    pages and blocks it crosses, and changes the bytes of RAM exactly as a copy byte by
    byte to the offsets of the addresses does, later bytes over earlier ones where
    pages are mapped twice; the map, the blocks (their order in the list aside), devices
    and clients stay as they are; in the log, all flags but that of code are set for every page written, and
    nothing else changes, except that a page written may get that of code too, as its
    translated code is dropped. A copy from any addresses that are RAM or ROM then returns those bytes and
    changes nothing. *)
Theorem phys_copy_refines a buf s : ram_ok (ram_list s) -> in_u 64 a -> (forall i, 0 <= i < Z.of_nat (List.length buf) -> ram_access true (u64 (a + i)) s) ->
  exists s', cpu_physical_memory_write a buf s = Some s' /\ written_to a buf s s' /\
    forall a2 len, in_u 64 a2 -> (forall i, 0 <= i < len -> ram_access false (u64 (a2 + i)) s) ->
      exists l s'', cpu_physical_memory_read a2 len s' = Some (l, s'') /\ read_only s' s'' /\ Z.of_nat (List.length l) = Z.max 0 len /\
        forall i, 0 <= i < len -> nth (Z.to_nat i) l 0 = put_bytes (fun x => ram_target x s) a buf (fun o => ram_at o s) (ram_target (u64 (a2 + i)) s).
Proof.
  intros H Ha Hacc. destruct (write_loop_spec (List.length buf) a buf s (Nat.le_refl _) H Ha Hacc) as (s1 & E1 & W1). exists s1. split; [exact E1|]. split; [exact W1|]. intros a2 len Ha2 Hr.
  destruct (read_loop_spec (Z.to_nat len) a2 len s1 (Nat.le_refl _) (wt_ok _ _ _ _ W1) Ha2) as (s2 & E2 & R2); [intros i Hi; apply (ram_access_same s); [exact (wt_frame _ _ _ _ W1)|now apply Hr]|].
  eexists _, s2. split; [exact E2|]. split; [exact R2|]. split; [rewrite get_bytes_length; lia|]. intros i Hi. rewrite get_bytes_nth by (exact Ha2 || lia).
  rewrite (ram_target_same _ _ _ (wt_frame _ _ _ _ W1)). apply (wt_bytes _ _ _ _ W1). now apply Hr.
Qed.

(** C19: The single accesses to RAM are copies: an aligned store of two or four bytes in
    either byte order is the copy of its bytes in that order, an aligned load of two,
    four or eight bytes is the number of the bytes a copy returns, and a load after a
    store of the width gives the value stored, modulo the width. *)
Theorem phys_access_equiv a v e s : ram_ok (ram_list s) -> in_u 64 a -> ram_access true a s -> ram_access false a s ->
  (forall k, 1 <= k <= 2 -> a mod (1 << k) = 0 -> st_phys k a v e s = cpu_physical_memory_write a (val_bytes e (Z.to_nat (1 << k)) v) s) /\
  (forall k, 1 <= k <= 2 -> a mod (1 << k) = 0 -> ld_phys k a e s = match cpu_physical_memory_read a (1 << k) s with Some (l, s') => Some (bytes_val e l, s') | None => None end) /\
  (a mod 8 = 0 -> ldq_phys_internal a e s = match cpu_physical_memory_read a 8 s with Some (l, s') => Some (bytes_val e l, s') | None => None end) /\
  (forall k, 1 <= k <= 2 -> a mod (1 << k) = 0 -> exists s1 s2, st_phys k a v e s = Some s1 /\ written_to a (val_bytes e (Z.to_nat (1 << k)) v) s s1 /\ ld_phys k a e s1 = Some (v mod 2 ^ (8 << k), s2) /\ read_only s1 s2).
Proof.
  intros H Ha Wr R. split_and!.
  - intros k Hk E. apply st_phys_eq; [lia|apply aligned_page; [lia|exact E]|apply Wr].
  - intros k Hk E. apply ld_phys_eq; [lia|apply aligned_page; [lia|exact E]|apply R].
  - intros E. apply ldq_phys_eq; [exact (aligned_page 3 a ltac:(lia) E)|apply R].
  - intros k Hk E. pose proof (aligned_page k a ltac:(lia) E) as P. set (n := Z.to_nat (1 << k)) in *. rewrite (st_phys_eq k a v e s ltac:(lia) P (proj1 Wr)). fold n. set (l := val_bytes e n v). assert (List.length l = n) as L by apply val_bytes_length.
    destruct (write_loop_spec (List.length l) a l s (Nat.le_refl _) H Ha) as (s1 & E1 & W1); [rewrite L; intros i Hi; now apply (page_access _ a n)|]. exists s1.
    pose proof (ram_access_same _ _ _ _ (wt_frame _ _ _ _ W1) R) as [R1 R2]. rewrite (ld_phys_eq k a e s1 ltac:(lia) P R1). assert (1 << k = Z.of_nat n) as -> by (unfold n; rewrite Z2Nat.id; [done|apply Z.shiftl_nonneg; lia]).
    destruct (read_loop_spec (Z.to_nat (Z.of_nat n)) a (Z.of_nat n) s1 (Nat.le_refl _) (wt_ok _ _ _ _ W1) Ha) as (s2 & E2 & O2); [intros i Hi; apply (page_access false a n s1 i Ha P (wt_ok _ _ _ _ W1) (conj R1 R2) Hi)|].
    exists s2. unfold cpu_physical_memory_read. rewrite E2, Nat2Z.id. split_and!; [exact E1|exact W1| |exact O2]. rewrite <- L. rewrite (written_page a l s s1 Ha) by (rewrite ?L; done). unfold l. rewrite val_bytes_roundtrip. do 4 f_equal. unfold n. rewrite Z2Nat.id by (apply Z.shiftl_nonneg; lia). rewrite !Z.shiftl_mul_pow2 by lia. lia.
Qed.

(** ** Mapping for a device *)

Lemma map_loop_ram fuel a len todo raddr s : (Z.to_nat len <= fuel)%nat -> in_u 64 a -> 0 <= todo -> (forall i, 0 <= i < len -> io_case true (page_pd (page_find (u64 (a + i)) s)) = false) ->
  0 < len -> map_loop fuel a len todo raddr s = MapRam (if truthy todo then raddr else ram_target a s) (todo + len).
Proof.
  revert a len todo raddr. induction fuel as [|fuel IH]; intros a len todo raddr Hf Ha Ht Hio Hlen; [lia|]. cbn [map_loop]. rewrite (proj2 (Z.leb_gt _ _)) by lia. unfold map_turn.
  pose proof (Hio 0 ltac:(lia)) as H0. rewrite Z.add_0_r, (u64_id a Ha) in H0. cbn [io_case] in H0. rewrite H0. cbv zeta. fold (ram_target a s). set (n := page_len a len).
  assert (0 < n <= len) as Hn by (unfold n; rewrite page_len_eq; pose proof (Z.mod_pos_bound a 4096 ltac:(lia)); lia). clearbody n. destruct (Z.eq_dec n len) as [->|N].
  - rewrite Z.sub_diag. now destruct fuel.
  - rewrite IH; [|lia|apply u64_range|lia| |lia].
    + replace (truthy (todo + n)) with true by (unfold truthy; rewrite (proj2 (Z.eqb_neq _ _)) by lia; done). f_equal. lia.
    + intros i Hi. rewrite u64_u64_add, <- Z.add_assoc. apply Hio. lia.
Qed.

Lemma in_ram_small o s : ram_ok (ram_list s) -> in_ram o s -> 0 <= o /\ o + 1 < 2 ^ host_bits.
Proof. intros H (b & Hb & Ho). pose proof (RamList.ro_blocks _ H b Hb) as [(B1 & B2 & B3) _ _]. unfold block_end in Ho. lia. Qed.

(** From the start of a page on, every page of the range is logged. *)
Lemma unmap_loop_spec fuel t n s : (Z.to_nat n <= fuel)%nat -> 0 <= n -> t mod 4096 = 0 -> ram_ok (ram_list s) -> (forall i, 0 <= i < n -> in_ram (t + i) s) ->
  let s' := unmap_loop fuel t n s in ram_ok (ram_list s') /\ same_frame s s' /\ mem s' = mem s /\ log_within (fun k => exists i, 0 <= i < n /\ k = flags_index (t + i)) s s'
    /\ forall i, 0 <= i < n -> noted (get_flags (t + i) (ram_list s)) (get_flags (t + i) (ram_list s')).
Proof.
  revert t n s. induction fuel as [|fuel IH]; intros t n s Hf Hn Ht H Hin; cbv zeta; cbn [unmap_loop].
  - split_and!; [done|apply same_frame_refl|done|now apply log_within_refl|lia].
  - destruct (Z.eqb_spec n 0) as [->|N]; [split_and!; [done|apply same_frame_refl|done|now apply log_within_refl|lia]|]. change TARGET_PAGE_SIZE with 4096. set (l := Z.min 4096 n).
    assert (in_ram t s) as I0 by (rewrite <- (Z.add_0_r t); apply Hin; lia). destruct (log_store_spec t l s H I0) as (H1 & F1 & M1 & G1 & L1). set (s1 := log_store t l s) in *. clearbody s1.
    assert (forall i, 0 <= i < l -> flags_index (t + i) = flags_index t) as Page.
    { intros i Hi. unfold flags_index. rewrite !Z.shiftr_div_pow2 by (unfold TARGET_PAGE_BITS; lia). change (2 ^ TARGET_PAGE_BITS) with 4096. Z.div_mod_to_equations. lia. }
    destruct (in_ram_small (t + (l - 1)) s H (Hin (l - 1) ltac:(lia))) as [_ S]. destruct (in_ram_small t s H I0) as [S0 _]. rewrite RamList.ulong_small by lia.
    assert (forall i, 0 <= i < l -> noted (get_flags (t + i) (ram_list s)) (get_flags (t + i) (ram_list s1))) as L1' by (intros i Hi; rewrite !(get_flags_page (t + i) t) by (now apply Page); exact L1).
    apply (log_within_mono _ (fun k => exists i, 0 <= i < n /\ k = flags_index (t + i))) in G1; [|intros k <-; exists 0; rewrite Z.add_0_r; split; [lia|done]].
    assert (n - l = 0 \/ (t + l) mod 4096 = 0) as [E|E]; [unfold l; Z.div_mod_to_equations; lia| |].
    + rewrite E. assert (unmap_loop fuel (t + l) 0 s1 = s1) as -> by (now destruct fuel). split_and!; [exact H1|exact F1|exact M1|exact G1|]. intros i Hi. apply L1'. lia.
    + destruct (IH (t + l) (n - l) s1) as (H2 & F2 & M2 & G2 & L2); [lia|lia|exact E|exact H1|intros i Hi; apply (in_ram_same s); [exact F1|]; rewrite <- Z.add_assoc; apply Hin; lia|].
      split_and!; [exact H2|exact (same_frame_trans _ _ _ F1 F2)|congruence|apply (log_within_trans _ _ _ _ G1); eapply log_within_mono; [|exact G2]|].
      * intros k (i & Hi & ->). exists (l + i). split; [lia|f_equal; lia].
      * intros i Hi. destruct (Z.lt_ge_cases i l) as [Q|Q].
        -- eapply noted_within; [lia|apply L1'; lia|exact G2].
        -- specialize (L2 (i - l) ltac:(lia)). replace (t + l + (i - l)) with (t + i) in L2 by lia. eapply within_noted; [lia|exact G1|exact L2].
Qed.

(** Physical addresses that are RAM, one after the other. *)
Definition ram_run (a len : Z) (s : phys_state) : Prop := forall i, 0 <= i < len -> ram_access true (u64 (a + i)) s /\ ram_target (u64 (a + i)) s = ram_target a s + i.

Lemma run_first a len s : in_u 64 a -> 0 < len -> ram_run a len s -> ram_access true a s.
Proof. intros Ha Hl R. destruct (R 0 ltac:(lia)) as [A _]. now rewrite Z.add_0_r, (u64_id a Ha) in A. Qed.

Lemma map_ram a len w fresh s b : ram_ok (ram_list s) -> in_u 64 a -> 0 < len -> ram_run a len s -> b ∈ blocks (ram_list s) -> offset b <= ram_target a s < block_end b ->
  cpu_physical_memory_map a len w fresh s = Some (host b + (ram_target a s - offset b), Z.min len (block_end b - ram_target a s), s).
Proof.
  intros H Ha Hl R Hb Ho. unfold cpu_physical_memory_map. rewrite map_loop_ram; [|lia|exact Ha|lia|intros i Hi; apply (R i Hi)|exact Hl]. change (truthy 0) with false. cbv iota.
  destruct (R (len - 1) ltac:(lia)) as [[_ I] E]. rewrite E in I. destruct (in_ram_small _ s H I) as [_ S]. unfold RamList.qemu_ram_ptr_length. rewrite Z.add_0_l, (proj2 (Z.eqb_neq len 0)) by lia.
  rewrite (RamList.find_holds _ _ b H Hb Ho). destruct (RamList.ptr_in_range _ b (RamList.ro_blocks _ H b Hb) Ho) as [-> _]. pose proof (RamList.ro_blocks _ H b Hb) as [(B1 & B2 & B3) _ _]. unfold block_end in *. do 3 f_equal.
  rewrite (RamList.ulong_small (ram_target a s - offset b)) by lia. rewrite (RamList.ulong_small (ram_target a s - offset b + len)) by lia.
  destruct (Z.ltb_spec (length b) (ram_target a s - offset b + len)); [rewrite RamList.ulong_small by lia|]; lia.
Qed.


(** Memory that is not RAM is mapped through the only bounce buffer: until it is
    unmapped, the next such mapping gives NULL. *)
Lemma bounce_exclusive a len fresh s a2 len2 w2 fresh2 : in_u 64 a -> in_u 64 a2 -> 0 < len -> 0 < len2 -> fresh <> 0 -> buffer (bounce s) = 0 ->
  io_case true (page_pd (page_find a s)) = true -> io_case true (page_pd (page_find a2 s)) = true ->
  exists s1, cpu_physical_memory_map a len true fresh s = Some (fresh, page_len a len, s1) /\ cpu_physical_memory_map a2 len2 w2 fresh2 s1 = Some (0, 0, s1).
Proof.
  intros Ha Ha2 Hl Hl2 Hf Hb Hio Hio2. cbn [io_case] in Hio, Hio2. set (s1 := s <| bounce := mkBounce fresh a (page_len a len) |>). exists s1. split.
  - unfold cpu_physical_memory_map. destruct (Z.to_nat len) as [|k] eqn:E; [lia|]. cbn [map_loop]. rewrite (proj2 (Z.leb_gt len 0)) by lia. unfold map_turn. rewrite Hio, Hb. done.
  - unfold cpu_physical_memory_map. destruct (Z.to_nat len2) as [|k] eqn:E; [lia|]. cbn [map_loop]. rewrite (proj2 (Z.leb_gt len2 0)) by lia. unfold map_turn. change (page_find a2 s1) with (page_find a2 s). rewrite Hio2. change (buffer (bounce s1)) with fresh.
    assert (truthy fresh = true) as -> by (unfold truthy; now rewrite (proj2 (Z.eqb_neq _ _)) by exact Hf). rewrite orb_true_r. done.
Qed.
End Rw.
End PhysRw.
