(* ===== verification/RamDemo.v ===== *)
(** * RAM blocks and the dirty log on examples *)

From S2P Require Import Prelude SoftTlb PhysMap RamList DirtyLog.
From Stdlib Require Import String.

Module RamDemo.
Import SoftTlb.
Import RamList(RAMList, RAMBlock, mkBlock, mkRam, offset, length, host, blocks, phys_dirty, ram_ok, block_end, ram_step).
Import DirtyLog(machine, mkMachine, map_, ram_list, log_step, start_state).

#[local] Existing Instance DirtyLog.machine_board.
#[local] Instance host_width_64 : HostWidth := {| host_bits := 64; host_bits_ok := ltac:(lia) |}.

(** ** Two blocks, one freed, a third in its place *)

Definition state_after {A} (s : RAMList) (o : option (A * RAMList)) : RAMList := match o with Some (_, s) => s | None => s end.

Definition ram1 : RAMList := state_after (mkRam [] []) (RamList.qemu_ram_alloc_from_ptr "pc.ram" 10000 0 0x10000 (mkRam [] [])).
Definition ram2 : RAMList := state_after ram1 (RamList.qemu_ram_alloc_from_ptr "pc.bios" 0x2000 0 0x20000 ram1).
Definition ram3 : RAMList := state_after ram2 (RamList.qemu_ram_alloc_from_ptr "vga.vram" 0x1000 0x30000 0 ram2).
Definition ram4 : RAMList := (RamList.qemu_ram_free 0x3000 ram3).2.
Definition ram5 : RAMList := state_after ram4 (RamList.qemu_ram_alloc_from_ptr "rom" 1 0 0x50000 ram4).

Example ram5_blocks : blocks ram5 =
  [mkBlock 0x50000 0x3000 0x1000 0 "rom"; mkBlock 0x30000 0x5000 0x1000 1 "vga.vram"; mkBlock 0x10000 0 0x3000 0 "pc.ram"].
Proof. reflexivity. Qed.

Lemma alloc_step id size h fresh s s' off : RamList.alloc_ok size h fresh s -> RamList.qemu_ram_alloc_from_ptr id size h fresh s = Some (off, s') -> ram_step s s'.
Proof. apply RamList.rs_alloc. Qed.

Ltac solve_alloc := constructor;
  [vm_compute; split; [reflexivity|discriminate]|first [left; reflexivity|right; eexists; split; [left|vm_compute; discriminate]]|vm_compute; split; [reflexivity|reflexivity]
  |let b := fresh in let H := fresh in intros b H; apply list_elem_of_In in H; vm_compute in H; unfold RamList.apart; repeat destruct H as [<-|H]; try destruct H; vm_compute; solve [left; discriminate|right; discriminate]].

Lemma ram5_reached : rtc ram_step (mkRam [] []) ram5.
Proof.
  eapply rtc_l; [apply (alloc_step "pc.ram" 10000 0 0x10000 _ ram1 0); [solve_alloc|reflexivity]|].
  eapply rtc_l; [apply (alloc_step "pc.bios" 0x2000 0 0x20000 _ ram2 0x3000); [solve_alloc|reflexivity]|].
  eapply rtc_l; [apply (alloc_step "vga.vram" 0x1000 0x30000 0 _ ram3 0x5000); [solve_alloc|reflexivity]|].
  eapply rtc_l; [apply (RamList.rs_free _ 0x3000)|].
  eapply rtc_l; [apply (alloc_step "rom" 1 0 0x50000 ram4 ram5 0x3000); [|reflexivity]|apply rtc_refl]. solve_alloc.
Qed.

Lemma ram_pointers_roundtrip_witness : rtc ram_step (mkRam [] []) ram5 /\ exists s', RamList.qemu_get_ram_ptr 0x2345 ram5 = Some (0x12345, s') /\ RamList.qemu_ram_addr_from_host 0x12345 s' = Some 0x2345.
Proof.
  split; [exact ram5_reached|]. destruct (RamList.ram_pointers_roundtrip ram5 ram5_reached) as [_ H].
  destruct (H 0x2345 (mkBlock 0x10000 0 0x3000 0 "pc.ram")) as (s' & H1 & _ & H2 & _); [rewrite ram5_blocks; do 2 right; left|cbn; lia|].
  exists s'. split; [exact H1|exact H2].
Defined.

(** ** A page is stored to, cleared, and stored to again *)

Abbreviation board := (@machine unit unit).

(** No code on any page. *)
Definition no_code (a len : Z) (s : RAMList) : RAMList := DirtyLog.tlb_unprotect_code_phys a s.

Definition cpu0 : cpu_common := mkCommon 0 0 0 0 (replicate 2 (replicate 256 s_cputlb_empty_entry)) (replicate 2 (replicate 256 0)) 0 0 (replicate 16 0) [].
Definition map0 : @PhysMap.phys_map unit unit := PhysMap.io_mem_init PhysMap.phys_map_zero.
Definition cpu_of (o : option cpu_common) : cpu_common := default cpu0 o.

Definition s1 : RAMList := state_after (mkRam [] []) (RamList.qemu_ram_alloc_from_ptr "pc.ram" 0x2000 0 0x10000 (mkRam [] [])).
Definition r2 := default (map0, []) (PhysMap.cpu_register_physical_memory_log 0 0x2000 0 0 map0 [tlb_flush 1 cpu0]).
Definition m2 : board := mkMachine r2.1 s1.
Definition t2 : cpu_common := tlb_flush 1 (tlb_flush 1 cpu0).
Definition t3 : cpu_common := cpu_of (tlb_set_page 0 0 (PAGE_READ .| PAGE_WRITE) 0 4096 t2 m2).
Definition t4 : cpu_common := cpu_of (tlb_set_page 0 0 (PAGE_READ .| PAGE_WRITE) 1 4096 t3 m2).
Definition r5 := default (s1, []) (RamList.cpu_physical_memory_reset_dirty 0 0x2000 8 s1 [t4]).
Definition t5 : cpu_common := cpu_of (head r5.2).
Definition r6 := default (0, s1, t5) (DirtyLog.notdirty_mem_write no_code 4 0x10 r5.1 t5).

Definition ram_block : RAMBlock := mkBlock 0x10000 0 0x2000 0 "pc.ram".

Example marked_then_direct :
  (addr_write (tlb_entry 1 0 t4), addr_write (tlb_entry 1 0 t5), addr_write (tlb_entry 1 0 r6.2), phys_dirty r5.1, phys_dirty r6.1.2, r6.1.1) = (0, 16, 0, [0xf7; 0xf7], [0xff; 0xf7], 0x10010).
Proof. vm_compute. reflexivity. Qed.

(** [marked_for] as a test of the table. *)
Definition marked_test (v ram_addr : Z) (s : RAMList) (t : cpu_common) : bool :=
  forallb (forallb (fun e => negb (addr_write e =? v .| TLB_NOTDIRTY) ||
    match RamList.qemu_ram_addr_from_host (ulong (v + addend e)) s with Some a => RamList.flags_index a =? RamList.flags_index ram_addr | None => true end)) (tlb_table t).

Lemma marked_test_ok v ram_addr s t : marked_test v ram_addr s t = true -> DirtyLog.marked_for v ram_addr s t.
Proof.
  intros H e a (l & Hl & He) Hw Hf. unfold marked_test in H. rewrite forallb_forall in H. apply list_elem_of_In in Hl, He. specialize (H l Hl). rewrite forallb_forall in H. specialize (H e He).
  rewrite (proj2 (Z.eqb_eq _ _) Hw), Hf in H. now apply Z.eqb_eq in H.
Qed.

Lemma page_good_0 : DirtyLog.page_good (DirtyLog.page_of 0 m2) s1.
Proof. left. split; [vm_compute; reflexivity|]. exists ram_block. split; [left|vm_compute; split; [discriminate|reflexivity]]. Qed.

Lemma range_in_ram : DirtyLog.in_block 0 0x2000 ram_block.
Proof. vm_compute. repeat split; discriminate. Qed.

Definition final : board * list cpu_common := (mkMachine r2.1 r6.1.2, [r6.2]).

Lemma final_reached : rtc (log_step no_code) (start_state map0 [cpu0]) final.
Proof.
  eapply rtc_l; [apply (DirtyLog.st_ram no_code (mkMachine map0 (mkRam [] [])) s1); apply (DirtyLog.qs_alloc _ "pc.ram" 0x2000 0 0x10000 0); [solve_alloc|reflexivity]|].
  eapply rtc_l; [apply (DirtyLog.st_register no_code _ 0 0x2000 0 0 _ r2.1 [t2]); vm_compute; reflexivity|].
  eapply rtc_l; [apply (DirtyLog.st_fill no_code m2 [t2] 0 t2 0 0 3 0 4096 t3); [reflexivity|reflexivity|exact page_good_0|vm_compute; reflexivity]|].
  eapply rtc_l; [apply (DirtyLog.st_fill no_code m2 [t3] 0 t3 0 0 3 1 4096 t4); [reflexivity|reflexivity|exact page_good_0|vm_compute; reflexivity]|].
  eapply rtc_l; [apply (DirtyLog.st_reset no_code m2 0 0x2000 8 ram_block [t4] r5.1 [t5]); [left|exact range_in_ram|vm_compute; reflexivity]|].
  eapply rtc_l; [apply (DirtyLog.st_store no_code (mkMachine r2.1 r5.1) [t5] 0 t5 4 0x10 ram_block 0x10010 r6.1.2 r6.2); [reflexivity|left|vm_compute; split; [discriminate|reflexivity]| |vm_compute; reflexivity]|apply rtc_refl].
  apply marked_test_ok. vm_compute. reflexivity.
Qed.

Lemma no_silent_store_witness : rtc (log_step no_code) (start_state map0 [cpu0]) final /\ DirtyLog.log_sound (ram_list final.1) final.2.
Proof.
  split; [exact final_reached|]. apply (DirtyLog.no_silent_store no_code ltac:(intros; now right) map0 [cpu0] final.1 final.2 final_reached).
Defined.

(** ** Where the promises end *)

(** The guest changes a page table entry between an access of the kernel and one of a
    user program and does not invalidate the page, which a CPU allows: the modes have
    different pages. A store of the user program makes both entries direct, and stores
    of the kernel to its page no longer reach the log. *)
Definition t7 : cpu_common := cpu_of (tlb_set_page 0 0x1000 (PAGE_READ .| PAGE_WRITE) 0 4096 t2 m2).
Definition t8 : cpu_common := cpu_of (tlb_set_page 0 0 (PAGE_READ .| PAGE_WRITE) 1 4096 t7 m2).
Definition r9 := default (s1, []) (RamList.cpu_physical_memory_reset_dirty 0 0x2000 8 s1 [t8]).
Definition r10 := default (0, s1, t8) (DirtyLog.notdirty_mem_write no_code 4 0x10 r9.1 (cpu_of (head r9.2))).

Example other_mode_unlogged :
  let e := tlb_entry 0 0 r10.2 in
  addr_write e .& ~~ TARGET_PAGE_MASK = IO_MEM_RAM /\ RamList.qemu_ram_addr_from_host (DirtyLog.store_page e) r10.1.2 = Some 0x1000 /\ RamList.cpu_physical_memory_is_dirty 0x1000 r10.1.2 = false.
Proof. vm_compute. auto. Qed.

(** No gap is large enough: the new block gets the offset 0 of another one. *)
Definition full : list RAMBlock := [mkBlock 0x10000 0 (2 ^ 64 - 0x3000) 0 "pc.ram"].

Example no_gap_overlaps : RamList.find_ram_offset 0x4000 full = 0.
Proof. vm_compute. reflexivity. Qed.

(** The length of 2 GB as an int is negative: no flag is cleared. *)
Example large_range_not_cleared : RamList.cpu_physical_memory_mask_dirty_range 0 (2 ^ 31) 8 (mkRam [0xff; 0xff] []) = mkRam [0xff; 0xff] [].
Proof. vm_compute. reflexivity. Qed.
End RamDemo.
