(* ===== verification/PhysRwDemo.v ===== *)
(** * Copies and mappings on the machine of the dirty log's example *)

From S2P Require Import Prelude SoftTlb PhysMap RamList DirtyLog PhysRw RamDemo.
From Stdlib Require Import String.

Module PhysRwDemo.
Import SoftTlb PhysMap PhysRw.
Import RamList(RAMList, RAMBlock, mkBlock, mkRam, offset, length, host, blocks, phys_dirty, ram_ok, block_end).
#[local] Existing Instances RamDemo.host_width_64 PhysRw.phys_state_eta.

Abbreviation state := (@phys_state unit unit unit unit).

(** 8 KB of RAM at 0 and no device. *)
Definition no_read (i k a : Z) (s : state) : Z * state := (0, s).
Definition no_write (i k a v : Z) (s : state) : state := s.
Definition no_range (a e : Z) (r : RAMList) : RAMList := r.
Definition no_client (c : unit) (s : state) : state := s.

Definition rw_start : state := mkPS RamDemo.r2.1 RamDemo.s1 ∅ (mkBounce 0 0 0) [] false tt.

Lemma start_ok : ram_ok (ram_list rw_start).
Proof.
  apply RamList.ram_reach_ok. eapply rtc_l; [|apply rtc_refl]. apply (RamDemo.alloc_step "pc.ram" 0x2000 0 0x10000 _ RamDemo.s1 0); [|reflexivity].
  constructor; [vm_compute; split; [reflexivity|discriminate]|now left|vm_compute; split; reflexivity|]. intros b Hb. now apply elem_of_nil in Hb.
Qed.

Ltac solve_access := split; [vm_compute; reflexivity|exists RamDemo.ram_block; split; [left|vm_compute; split; [discriminate|reflexivity]]].

Lemma across i : 0 <= i < 4 -> ram_access true (u64 (0xffe + i)) rw_start /\ ram_access false (u64 (0xffe + i)) rw_start.
Proof. intros H. assert (i = 0 \/ i = 1 \/ i = 2 \/ i = 3) as [-> | [-> | [-> | ->]]] by lia; (split; solve_access). Qed.

(** Four bytes over the end of a page. *)
Lemma phys_copy_refines_witness : exists s', cpu_physical_memory_write no_write no_range 0xffe [1; 2; 3; 4] rw_start = Some s' /\ written_to 0xffe [1; 2; 3; 4] rw_start s' /\
  exists l s'', cpu_physical_memory_read no_read 0xffe 4 s' = Some (l, s'') /\ read_only s' s''.
Proof.
  destruct (phys_copy_refines no_read no_write no_range no_client ltac:(intros; now left) 0xffe [1; 2; 3; 4] rw_start start_ok ltac:(vm_compute; split; [discriminate|reflexivity])) as (s' & E & Wt & Rd).
  - intros i Hi. now apply across.
  - exists s'. split; [exact E|]. split; [exact Wt|]. destruct (Rd 0xffe 4 ltac:(vm_compute; split; [discriminate|reflexivity])) as (l & s'' & R1 & R2 & _); [intros i Hi; now apply across|]. exists l, s''. split; [exact R1|exact R2].
Defined.

Definition copied : state := default rw_start (cpu_physical_memory_write no_write no_range 0xffe [1; 2; 3; 4] rw_start).

Example read_back : option_map fst (cpu_physical_memory_read no_read 0xffc 8 copied) = Some [0; 0; 1; 2; 3; 4; 0; 0].
Proof. vm_compute. reflexivity. Qed.

Lemma phys_access_equiv_witness : exists s1 s2, stl_phys_internal no_write no_range 0x1004 0x12345678 DEVICE_BIG_ENDIAN rw_start = Some s1 /\ ldl_phys_internal no_read 0x1004 DEVICE_BIG_ENDIAN s1 = Some (0x12345678, s2).
Proof.
  destruct (phys_access_equiv no_read no_write no_range no_client ltac:(intros; now left) 0x1004 0x12345678 DEVICE_BIG_ENDIAN rw_start start_ok ltac:(vm_compute; split; [discriminate|reflexivity]) ltac:(solve_access) ltac:(solve_access)) as (_ & _ & _ & Rt).
  destruct (Rt 2 ltac:(lia) eq_refl) as (s1 & s2 & E1 & _ & E2 & _). exists s1, s2. split; [exact E1|exact E2].
Defined.

Lemma run_4 : ram_run 0x1000 4 rw_start.
Proof. intros i H. assert (i = 0 \/ i = 1 \/ i = 2 \/ i = 3) as [-> | [-> | [-> | ->]]] by lia; (split; [solve_access|vm_compute; reflexivity]). Qed.

Lemma run_4_mapped : option_map fst (cpu_physical_memory_map no_read 0x1000 4 true 0x70000 rw_start) = Some (0x11000, 4).
Proof. vm_compute. reflexivity. Qed.


(** ** Where the mapping goes wrong *)

(** A device writes a page's length from the middle of a page on: only the first of
    the two pages is marked. *)
Definition clean : state := rw_start <| ram_list := RamList.cpu_physical_memory_mask_dirty_range 0 0x2000 8 (ram_list rw_start) |>.

Example unmap_tail_unlogged :
  option_map (fun x => (x.1.1, x.1.2)) (cpu_physical_memory_map no_read 0x800 0x1000 true 0x70000 clean) = Some (0x10800, 0x1000) /\
  option_map (fun s => phys_dirty (ram_list s)) (cpu_physical_memory_unmap no_write no_range no_client 0x10800 0x1000 true 0x1000 0 clean) = Some [0xff; 0xf7].
Proof. vm_compute. auto. Qed.

(** Two pages of RAM that do not follow each other: the mapping has the RAM after the
    first page, a copy that of the second. *)
Definition apart_map : @phys_map unit unit :=
  let reg a o m := fst (default (m, []) (cpu_register_physical_memory_log a 0x1000 o 0 m [])) in reg 0x1000 0x2000 (reg 0 0 RamDemo.map0).
Definition split_ram : state := mkPS apart_map (mkRam [0xff; 0xff; 0xff] [mkBlock 0x10000 0 0x3000 0 "pc.ram"]) {[0x11000 := 1; 0x12000 := 2]} (mkBounce 0 0 0) [] false tt.

Example map_takes_next_page :
  option_map (fun x => (x.1.1, x.1.2)) (cpu_physical_memory_map no_read 0 0x2000 false 0x70000 split_ram) = Some (0x10000, 0x2000) /\
  load_bytes 0x11000 1 split_ram = [1] /\ option_map fst (cpu_physical_memory_read no_read 0x1000 1 split_ram) = Some [2].
Proof. vm_compute. auto. Qed.
End PhysRwDemo.
