(* ===== verification/X86Mmu.v ===== *)
(** * Control registers and page tables of target-i386/helper.c

    The updates of CR0, CR3, CR4 and of the A20 gate, and the page table walk for
    32-bit and PAE paging.  The walk ends with a mapping for the translation cache
    or with a page fault; the tables are in physical memory, the class [PhysMem]
    with its aligned double words. *)

From S2P Require Import Prelude X86Cpu X86Trans X86Alu X86Seg SoftTlb.

Module X86Mmu.
Import X86 X86Trans X86Alu SoftTlb.
Import X86Seg(CR0_PE_MASK, CR0_TS_MASK, CR0_PG_MASK, HF_ADDSEG_SHIFT, HF_TS_MASK).
#[local] Existing Instances X86.SegmentCache_eta X86.CPUX86State_eta SoftTlb.cpu_common_eta.

(** ** Constants *)

Definition CR0_WP_MASK : Z := 1 << 16.
Definition CR0_ET_MASK : Z := 1 << 4.
Definition CR4_PSE_MASK : Z := 1 << 4.
Definition CR4_PAE_MASK : Z := 1 << 5.
Definition CR4_PGE_MASK : Z := 1 << 7.
Definition CR4_OSFXSR_SHIFT : Z := 9.
Definition CR4_OSFXSR_MASK : Z := 1 << CR4_OSFXSR_SHIFT.
Definition HF_PE_SHIFT : Z := 7.
Definition HF_MP_SHIFT : Z := 9.
Definition HF_EM_SHIFT : Z := 10.
Definition HF_OSFXSR_SHIFT : Z := 22.
Definition HF_PE_MASK : Z := 1 << HF_PE_SHIFT.
Definition HF_MP_MASK : Z := 1 << HF_MP_SHIFT.
Definition HF_EM_MASK : Z := 1 << HF_EM_SHIFT.
Definition HF_OSFXSR_MASK : Z := 1 << HF_OSFXSR_SHIFT.
Definition CPUID_SSE : Z := 1 << 25.
Definition MSR_EFER_NXE : Z := 1 << 11.
Definition MMU_USER_IDX : Z := 1.

Definition PG_PRESENT_BIT : Z := 0.
Definition PG_RW_BIT : Z := 1.
Definition PG_USER_BIT : Z := 2.
Definition PG_ACCESSED_BIT : Z := 5.
Definition PG_DIRTY_BIT : Z := 6.
Definition PG_PSE_BIT : Z := 7.
Definition PG_NX_BIT : Z := 63.
Definition PG_PRESENT_MASK : Z := 1 << PG_PRESENT_BIT.
Definition PG_RW_MASK : Z := 1 << PG_RW_BIT.
Definition PG_USER_MASK : Z := 1 << PG_USER_BIT.
Definition PG_ACCESSED_MASK : Z := 1 << PG_ACCESSED_BIT.
Definition PG_DIRTY_MASK : Z := 1 << PG_DIRTY_BIT.
Definition PG_PSE_MASK : Z := 1 << PG_PSE_BIT.
Definition PG_NX_MASK : Z := 1 << PG_NX_BIT.
Definition PG_ERROR_W_BIT : Z := 1.
Definition PG_ERROR_P_MASK : Z := 0x01.
Definition PG_ERROR_U_MASK : Z := 0x04.
Definition PG_ERROR_RSVD_MASK : Z := 0x08.
Definition PG_ERROR_I_D_MASK : Z := 0x10.
Definition PHYS_ADDR_MASK : Z := 0xffffff000.

(** ** Control registers *)

Section Control.
Context {HW : HostWidth}.

Definition cpu_x86_set_a20 (a20_state : Z) (env : CPUX86State) (t : cpu_common) : CPUX86State * cpu_common :=
  let a20_state := b2z (truthy a20_state) in
  if negb (a20_state =? (a20_mask env >> 20) .& 1) then
    let t := t <| interrupt_request := interrupt_request t .| CPU_INTERRUPT_EXITTB |> in
    let t := tlb_flush 1 t in
    (env <| a20_mask := s32 (~~ (1 << 20) .| (a20_state << 20)) |>, t)
  else (env, t).

Definition cpu_x86_update_cr0 (new_cr0 : Z) (env : CPUX86State) (t : cpu_common) : CPUX86State * cpu_common :=
  let m := CR0_PG_MASK .| CR0_WP_MASK .| CR0_PE_MASK in
  let t := if negb (new_cr0 .& m =? aget (cr env) 0 .& m) then tlb_flush 1 t else t in
  let env := env <| cr := aset (cr env) 0 (new_cr0 .| CR0_ET_MASK) |> in
  (* update PE flag in hidden flags *)
  let pe_state := aget (cr env) 0 .& CR0_PE_MASK in
  let env := env <| hflags := (hflags env .& ~~ HF_PE_MASK) .| (pe_state << HF_PE_SHIFT) |> in
  (* ensure that ADDSEG is always set in real mode *)
  let env := env <| hflags := hflags env .| ((pe_state .^ 1) << HF_ADDSEG_SHIFT) |> in
  (* update FPU flags *)
  let fpu := HF_MP_MASK .| HF_EM_MASK .| HF_TS_MASK in
  (env <| hflags := (hflags env .& ~~ fpu) .| ((new_cr0 << (HF_MP_SHIFT - 1)) .& fpu) |>, t).

Definition cpu_x86_update_cr3 (new_cr3 : Z) (env : CPUX86State) (t : cpu_common) : CPUX86State * cpu_common :=
  let env := env <| cr := aset (cr env) 3 new_cr3 |> in
  (env, if tst (aget (cr env) 0) CR0_PG_MASK then tlb_flush 0 t else t).

Definition cpu_x86_update_cr4 (new_cr4 : Z) (env : CPUX86State) (t : cpu_common) : CPUX86State * cpu_common :=
  let m := CR4_PGE_MASK .| CR4_PAE_MASK .| CR4_PSE_MASK in
  let t := if negb (new_cr4 .& m =? aget (cr env) 4 .& m) then tlb_flush 1 t else t in
  (* SSE handling *)
  let new_cr4 := if negb (tst (cpuid_features env) CPUID_SSE) then new_cr4 .& ~~ CR4_OSFXSR_MASK else new_cr4 in
  let env :=
    if tst new_cr4 CR4_OSFXSR_MASK then env <| hflags := hflags env .| HF_OSFXSR_MASK |>
    else env <| hflags := hflags env .& ~~ HF_OSFXSR_MASK |> in
  (env <| cr := aset (cr env) 4 new_cr4 |>, t).
End Control.

(** ** The walk *)

(** Aligned physical memory, where the tables are. *)
Class PhysMem (M : Type) := {
  ldl_phys : Z -> M -> Z;
  ldq_phys : Z -> M -> Z;
  stl_phys_notdirty : Z -> Z -> M -> M;
  ldl_range : forall a m, in_u 32 (ldl_phys a m);
  ldq_halves : forall a m, ldq_phys a m = ldl_phys a m .| (ldl_phys (a + 4) m << 32);
  ldl_stl : forall a b v m, a .& 3 = 0 -> b .& 3 = 0 -> ldl_phys b (stl_phys_notdirty a v m) = if b =? a then u32 v else ldl_phys b m
}.

(** What the walk leaves for the end of the function: an error code, or the entry
    with the rights of the path, the page's start and its size. *)
Inductive walk :=
| do_fault (error_code : Z)
| do_map (pte ptep virt_addr page_size : Z).

(** The arguments of the call to [tlb_set_page]. *)
Record mapping := mkMapping { mp_vaddr : Z; mp_paddr : Z; mp_prot : Z; mp_size : Z }.

Section Walk.
Context {M : Type} `{!PhysMem M}.

(** The rights check on the leaf. *)
Definition protected (env : CPUX86State) (ptep : Z) (is_user is_write : bool) : bool :=
  if is_user then negb (tst ptep PG_USER_MASK) || (is_write && negb (tst ptep PG_RW_MASK))
  else tst (aget (cr env) 0) CR0_WP_MASK && is_write && negb (tst ptep PG_RW_MASK).

(** The accessed bit of a table entry. *)
Definition set_accessed (a e : Z) (m : M) : Z * M :=
  if negb (tst e PG_ACCESSED_MASK) then let e := e .| PG_ACCESSED_MASK in (e, stl_phys_notdirty a (u32 e) m) else (e, m).

(** The accessed and dirty bits of a leaf. *)
Definition set_used (a e : Z) (is_write : bool) (m : M) : Z * M :=
  let is_dirty := is_write && negb (tst e PG_DIRTY_MASK) in
  if negb (tst e PG_ACCESSED_MASK) || is_dirty then
    let e := e .| PG_ACCESSED_MASK in
    let e := if is_dirty then e .| PG_DIRTY_MASK else e in
    (e, stl_phys_notdirty a (u32 e) m)
  else (e, m).

Definition nx_reserved (env : CPUX86State) (e : Z) : bool := negb (tst (efer env) MSR_EFER_NXE) && tst e PG_NX_MASK.

Definition walk_pae (env : CPUX86State) (addr is_write1 : Z) (is_user is_write : bool) (m : M) : walk * M :=
  let pdpe_addr := u32 ((aget (cr env) 3 .& ~~ 0x1f) + ((addr >> 27) .& 0x18)) .& a20_mask env in
  let pdpe := ldq_phys pdpe_addr m in
  if negb (tst pdpe PG_PRESENT_MASK) then (do_fault 0, m)
  else
    let ptep := PG_NX_MASK .| PG_USER_MASK .| PG_RW_MASK in
    let pde_addr := u32 (((pdpe .& PHYS_ADDR_MASK) + (((addr >> 21) .& 0x1ff) << 3)) .& a20_mask env) in
    let pde := ldq_phys pde_addr m in
    if negb (tst pde PG_PRESENT_MASK) then (do_fault 0, m)
    else if nx_reserved env pde then (do_fault PG_ERROR_RSVD_MASK, m)
    else
      let ptep := ptep .& (pde .^ PG_NX_MASK) in
      if tst pde PG_PSE_MASK then
        (* 2 MB page *)
        let page_size := 2048 * 1024 in
        let ptep := ptep .^ PG_NX_MASK in
        if tst ptep PG_NX_MASK && (is_write1 =? 2) then (do_fault PG_ERROR_P_MASK, m)
        else if protected env ptep is_user is_write then (do_fault PG_ERROR_P_MASK, m)
        else
          let '(pde, m) := set_used pde_addr pde is_write m in
          (* align to page_size *)
          let pte := pde .& ((PHYS_ADDR_MASK .& ~~ (page_size - 1)) .| 0xfff) in
          (do_map pte ptep (addr .& ~~ (page_size - 1)) page_size, m)
      else
        (* 4 KB page *)
        let '(pde, m) := set_accessed pde_addr pde m in
        let pte_addr := u32 (((pde .& PHYS_ADDR_MASK) + (((addr >> 12) .& 0x1ff) << 3)) .& a20_mask env) in
        let pte := ldq_phys pte_addr m in
        if negb (tst pte PG_PRESENT_MASK) then (do_fault 0, m)
        else if nx_reserved env pte then (do_fault PG_ERROR_RSVD_MASK, m)
        else
          (* combine pde and pte nx, user and rw protections *)
          let ptep := ptep .& (pte .^ PG_NX_MASK) in
          let ptep := ptep .^ PG_NX_MASK in
          if tst ptep PG_NX_MASK && (is_write1 =? 2) then (do_fault PG_ERROR_P_MASK, m)
          else if protected env ptep is_user is_write then (do_fault PG_ERROR_P_MASK, m)
          else
            let '(pte, m) := set_used pte_addr pte is_write m in
            (do_map (pte .& (PHYS_ADDR_MASK .| 0xfff)) ptep (addr .& ~~ 0xfff) 4096, m).

Definition walk_32 (env : CPUX86State) (addr : Z) (is_user is_write : bool) (m : M) : walk * M :=
  (* page directory entry *)
  let pde_addr := u32 ((aget (cr env) 3 .& ~~ 0xfff) + ((addr >> 20) .& 0xffc)) .& a20_mask env in
  let pde := ldl_phys pde_addr m in
  if negb (tst pde PG_PRESENT_MASK) then (do_fault 0, m)
  else if tst pde PG_PSE_MASK && tst (aget (cr env) 4) CR4_PSE_MASK then
    let page_size := 4096 * 1024 in
    if protected env pde is_user is_write then (do_fault PG_ERROR_P_MASK, m)
    else
      let '(pde, m) := set_used pde_addr pde is_write m in
      let pte := pde .& ~~ ((page_size - 1) .& ~~ 0xfff) in
      (do_map pte pte (addr .& ~~ (page_size - 1)) page_size, m)
  else
    let '(pde, m) := set_accessed pde_addr pde m in
    let pte_addr := u32 ((pde .& ~~ 0xfff) + ((addr >> 10) .& 0xffc)) .& a20_mask env in
    let pte := ldl_phys pte_addr m in
    if negb (tst pte PG_PRESENT_MASK) then (do_fault 0, m)
    else
      (* combine pde and pte user and rw protections *)
      let ptep := pte .& pde in
      if protected env ptep is_user is_write then (do_fault PG_ERROR_P_MASK, m)
      else
        let '(pte, m) := set_used pte_addr pte is_write m in
        (do_map pte ptep (addr .& ~~ 0xfff) 4096, m).

(** The rights put into the cache; write access only once the page is dirty. *)
Definition tlb_prot (env : CPUX86State) (pte ptep : Z) (is_user : bool) : Z :=
  let prot := PAGE_READ in
  let prot := if negb (tst ptep PG_NX_MASK) then prot .| PAGE_EXEC else prot in
  if tst pte PG_DIRTY_MASK then
    if is_user then (if tst ptep PG_RW_MASK then prot .| PAGE_WRITE else prot)
    else if negb (tst (aget (cr env) 0) CR0_WP_MASK) || tst ptep PG_RW_MASK then prot .| PAGE_WRITE else prot
  else prot.

Definition do_mapping (env : CPUX86State) (addr pte prot virt_addr page_size : Z) : mapping :=
  let pte := pte .& a20_mask env in
  let page_offset := addr .& TARGET_PAGE_MASK .& (page_size - 1) in
  mkMapping (u32 (virt_addr + page_offset)) ((pte .& TARGET_PAGE_MASK) + page_offset) prot page_size.

Definition raise_page_fault (env : CPUX86State) (addr error_code is_write1 : Z) (is_user is_write : bool) : CPUX86State :=
  let error_code := error_code .| (b2z is_write << PG_ERROR_W_BIT) in
  let error_code := if is_user then error_code .| PG_ERROR_U_MASK else error_code in
  let error_code :=
    if (is_write1 =? 2) && tst (efer env) MSR_EFER_NXE && tst (aget (cr env) 4) CR4_PAE_MASK
    then error_code .| PG_ERROR_I_D_MASK else error_code in
  env <| cr := aset (cr env) 2 addr |> <| X86.error_code := error_code |> <| exception_index := EXCP0E_PAGE |>.

(** The function up to its call of [tlb_set_page]: [Some] mapping for 0, [None] for 1. *)
Definition cpu_x86_handle_mmu_fault (addr is_write1 mmu_idx : Z) (env : CPUX86State) (m : M) : option mapping * CPUX86State * M :=
  let is_user := mmu_idx =? MMU_USER_IDX in
  let is_write := truthy (is_write1 .& 1) in
  if negb (tst (aget (cr env) 0) CR0_PG_MASK) then
    (Some (do_mapping env addr addr (PAGE_READ .| PAGE_WRITE .| PAGE_EXEC) (addr .& TARGET_PAGE_MASK) 4096), env, m)
  else
    let '(w, m) :=
      if tst (aget (cr env) 4) CR4_PAE_MASK then walk_pae env addr is_write1 is_user is_write m
      else walk_32 env addr is_user is_write m in
    match w with
    | do_fault error_code => (None, raise_page_fault env addr error_code is_write1 is_user is_write, m)
    | do_map pte ptep virt_addr page_size => (Some (do_mapping env addr pte (tlb_prot env pte ptep is_user) virt_addr page_size), env, m)
    end.

(** The translation without its effects, for the debugger; [None] is -1. *)
Definition debug_paddr (addr pte page_size : Z) : Z := (pte .& TARGET_PAGE_MASK) + (addr .& TARGET_PAGE_MASK .& (page_size - 1)).

Definition debug_pae (addr : Z) (env : CPUX86State) (m : M) : option Z :=
  let pdpe_addr := u32 ((aget (cr env) 3 .& ~~ 0x1f) + ((addr >> 27) .& 0x18)) .& a20_mask env in
  let pdpe := ldq_phys pdpe_addr m in
  if negb (tst pdpe PG_PRESENT_MASK) then None
  else
    let pde_addr := u32 (((pdpe .& ~~ 0xfff) + (((addr >> 21) .& 0x1ff) << 3)) .& a20_mask env) in
    let pde := ldq_phys pde_addr m in
    if negb (tst pde PG_PRESENT_MASK) then None
    else
      let '(pte, page_size) :=
        if tst pde PG_PSE_MASK then (pde .& ~~ ((2048 * 1024 - 1) .& ~~ 0xfff), 2048 * 1024)
        else (ldq_phys (u32 (((pde .& ~~ 0xfff) + (((addr >> 12) .& 0x1ff) << 3)) .& a20_mask env)) m, 4096) in
      if negb (tst pte PG_PRESENT_MASK) then None else Some (debug_paddr addr pte page_size).

Definition debug_32 (addr : Z) (env : CPUX86State) (m : M) : option Z :=
  if negb (tst (aget (cr env) 0) CR0_PG_MASK) then Some (debug_paddr addr (addr .& a20_mask env) 4096)
  else
    let pde := ldl_phys (u32 ((aget (cr env) 3 .& ~~ 0xfff) + ((addr >> 20) .& 0xffc)) .& a20_mask env) m in
    if negb (tst pde PG_PRESENT_MASK) then None
    else if tst pde PG_PSE_MASK && tst (aget (cr env) 4) CR4_PSE_MASK
    then Some (debug_paddr addr (pde .& ~~ 0x003ff000 .& a20_mask env) (4096 * 1024))
    else
      let pte := ldl_phys (u32 ((pde .& ~~ 0xfff) + ((addr >> 10) .& 0xffc)) .& a20_mask env) m in
      if negb (tst pte PG_PRESENT_MASK) then None else Some (debug_paddr addr (pte .& a20_mask env) 4096).

Definition cpu_get_phys_page_debug (addr : Z) (env : CPUX86State) (m : M) : option Z :=
  if tst (aget (cr env) 4) CR4_PAE_MASK then debug_pae addr env m else debug_32 addr env m.
End Walk.
End X86Mmu.
