(* ===== verification/X86Walk.v ===== *)
(** * Page tables as a radix tree

    The address translation of the processor, for 32-bit and PAE paging alike, as a
    walk down a list of levels over unchanging memory, with the rights of the path
    collected.  The walk of [X86Mmu] is that, and leaves exactly the accessed and
    dirty bits behind. *)

From S2P Require Import Prelude X86Cpu X86Trans X86Alu X86Seg SoftTlb X86Mmu.

Module X86Walk.
Import X86 X86Trans X86Alu SoftTlb X86Mmu.
Import X86Seg(CR0_PE_MASK, CR0_TS_MASK, CR0_PG_MASK, HF_ADDSEG_SHIFT, HF_TS_MASK).
#[local] Existing Instances X86.SegmentCache_eta X86.CPUX86State_eta SoftTlb.cpu_common_eta.

(** ** The reference *)

Section Reference.
Context {M : Type} `{!PhysMem M}.

Record rights := mkRights { r_user : bool; r_write : bool; r_exec : bool }.
Definition all_rights : rights := mkRights true true true.
Definition restrict (r : rights) (e : Z) : rights :=
  mkRights (r_user r && Z.testbit e 2) (r_write r && Z.testbit e 1) (r_exec r && negb (Z.testbit e 63)).

(** A level: where the entry is, given its table, how wide it is, whether it has
    rights and an accessed bit, and the size (as a power of two) of the page if
    the entry is a leaf. *)
Record level := mkLevel {
  lv_slot : Z -> Z;
  lv_load : Z -> M -> Z;
  lv_full : bool;
  lv_leaf : Z -> option Z
}.

(** The outcome: an error code, or the leaf entry and its address, the rights of the
    path and the size; with the table entries passed on the way. *)
Inductive lookup :=
| Missing (code : Z) (passed : list Z)
| Leaf (e a : Z) (r : rights) (log : Z) (passed : list Z).

Definition frame_of (e : Z) : Z := e .& PHYS_ADDR_MASK.

Fixpoint radix (nx : bool) (ls : list level) (table : Z) (r : rights) (passed : list Z) (m : M) : lookup :=
  match ls with
  | [] => Missing 0 passed
  | l :: ls =>
      let a := lv_slot l table in
      let e := lv_load l a m in
      if negb (Z.testbit e 0) then Missing 0 passed
      else if lv_full l && negb nx && Z.testbit e 63 then Missing PG_ERROR_RSVD_MASK passed
      else
        let r := if lv_full l then restrict r e else r in
        match lv_leaf l e with
        | Some log => Leaf e a r log passed
        | None => radix nx ls (frame_of e) r (if lv_full l then passed ++ [a] else passed) m
        end
  end.

(** Bits [lo] to [lo + n - 1] of the address select an entry of [w] bytes. *)
Definition slot (a20 addr lo n w table : Z) : Z := u32 (table + w * ((addr >> lo) .& (2 ^ n - 1))) .& a20.

Definition levels (env : CPUX86State) (addr : Z) : list level :=
  let a20 := a20_mask env in
  if tst (aget (cr env) 4) CR4_PAE_MASK then
    [mkLevel (slot a20 addr 30 2 8) ldq_phys false (fun _ => None);
     mkLevel (slot a20 addr 21 9 8) ldq_phys true (fun e => if Z.testbit e 7 then Some 21 else None);
     mkLevel (slot a20 addr 12 9 8) ldq_phys true (fun _ => Some 12)]
  else
    [mkLevel (slot a20 addr 22 10 4) ldl_phys true (fun e => if Z.testbit e 7 && tst (aget (cr env) 4) CR4_PSE_MASK then Some 22 else None);
     mkLevel (slot a20 addr 12 10 4) ldl_phys true (fun _ => Some 12)].

Definition translate (env : CPUX86State) (addr : Z) (m : M) : lookup :=
  let root := if tst (aget (cr env) 4) CR4_PAE_MASK then aget (cr env) 3 .& ~~ 0x1f else aget (cr env) 3 .& ~~ 0xfff in
  radix (tst (efer env) MSR_EFER_NXE) (levels env addr) root all_rights [] m.

(** Kinds of access: 0 read, 1 write, 2 instruction fetch. *)
Definition may_write (env : CPUX86State) (user : bool) (r : rights) : bool :=
  r_write r || (negb user && negb (tst (aget (cr env) 0) CR0_WP_MASK)).
Definition permitted (env : CPUX86State) (kind : Z) (user : bool) (r : rights) : bool :=
  (negb user || r_user r) && (negb (kind =? 1) || may_write env user r) && (negb (kind =? 2) || r_exec r).

(** The physical address of the 4 KB page of [addr], in a page of 2^log bytes. *)
Definition page_address (env : CPUX86State) (addr e log : Z) : Z :=
  (frame_of e .& ~~ (2 ^ log - 1) .& a20_mask env) + (addr .& TARGET_PAGE_MASK .& (2 ^ log - 1)).

(** What the cache may do with the page: writes wait for the dirty bit. *)
Definition granted (env : CPUX86State) (kind e : Z) (user : bool) (r : rights) : Z :=
  PAGE_READ .| (if r_exec r then PAGE_EXEC else 0)
  .| (if may_write env user r && ((kind =? 1) || Z.testbit e 6) then PAGE_WRITE else 0).

Definition fault_code (env : CPUX86State) (code kind : Z) (user : bool) : Z :=
  code .| (if kind =? 1 then 2 else 0) .| (if user then 4 else 0)
  .| (if (kind =? 2) && tst (efer env) MSR_EFER_NXE && tst (aget (cr env) 4) CR4_PAE_MASK then 16 else 0).

Definition page_fault (addr code : Z) (env : CPUX86State) : CPUX86State :=
  env <| cr := aset (cr env) 2 addr |> <| error_code := code |> <| exception_index := EXCP0E_PAGE |>.

(** [m'] is [m] with bits set in the double words of [marks]. *)
Definition marked (marks : list (Z * Z)) (m m' : M) : Prop :=
  forall b, b .& 3 = 0 -> ldl_phys b m' = fold_left (fun v x => if b =? x.1 then v .| x.2 else v) marks (ldl_phys b m).

Definition used_bits (kind : Z) : Z := if kind =? 1 then PG_ACCESSED_MASK .| PG_DIRTY_MASK else PG_ACCESSED_MASK.
End Reference.

(** ** Bits *)

(** The code's way of scaling an index: shift less and mask more. *)
Lemma scaled_field addr lo n w : 0 <= lo -> 0 <= n -> 0 <= w -> (addr >> lo) .& (Z.ones n << w) = 2 ^ w * ((addr >> (lo + w)) .& (2 ^ n - 1)).
Proof.
  intros Hl Hn Hw. rewrite Z.mul_comm, <- Z.shiftl_mul_pow2 by done. replace (2 ^ n - 1) with (Z.ones n) by (rewrite Z.ones_equiv; lia).
  apply Z.bits_inj'. intros i Hi. rewrite Z.land_spec, !Z.shiftl_spec by done. destruct (Z.lt_ge_cases i w) as [L|L].
  - rewrite !(Z.testbit_neg_r _ (i - w)) by lia. apply andb_false_r.
  - rewrite Z.land_spec, !Z.shiftr_spec by lia. f_equal. f_equal. lia.
Qed.

Lemma u32_land x a : u32 (x .& a) = u32 x .& a.
Proof. bitwise. Qed.

Lemma aligned_slot k a20 addr lo n w table : 0 <= k <= 32 -> table mod 2 ^ k = 0 -> w mod 2 ^ k = 0 -> slot a20 addr lo n w table .& (2 ^ k - 1) = 0.
Proof.
  intros Hk Ht Hw. unfold slot. replace (2 ^ k - 1) with (Z.ones k) by (rewrite Z.ones_equiv; lia).
  assert (0 < 2 ^ k) by (apply Z.pow_pos_nonneg; lia). rewrite <- Z.land_assoc, (Z.land_comm a20), Z.land_assoc, Z.land_ones by lia.
  assert (u32 (table + w * ((addr >> lo) .& (2 ^ n - 1))) mod 2 ^ k = 0) as ->; [|apply Z.land_0_l].
  unfold u32. change 4294967296 with (2 ^ 32). rewrite Z.mod_mod_divide by (exists (2 ^ (32 - k)); rewrite <- Z.pow_add_r by lia; f_equal; lia).
  rewrite Z.add_mod, Ht, Z.mul_mod, Hw by lia. rewrite Z.mul_0_l. now rewrite !Z.mod_0_l by lia.
Qed.

Lemma land_3_of_7 x : x .& 7 = 0 -> x .& 3 = 0.
Proof. intros H. change 3 with (7 .& 3). now rewrite Z.land_assoc, H. Qed.

Lemma root_aligned x k : 0 <= k -> (x .& ~~ (2 ^ k - 1)) mod 2 ^ k = 0.
Proof.
  intros Hk. replace (2 ^ k - 1) with (Z.ones k) by (rewrite Z.ones_equiv; lia). rewrite <- Z.ldiff_land, Z.ldiff_ones_r, Z.shiftl_mul_pow2 by done. apply Z.mod_mul.
  assert (0 < 2 ^ k) by (apply Z.pow_pos_nonneg; lia). lia.
Qed.

Lemma mod_pow_le t j k : 0 <= k <= j -> t mod 2 ^ j = 0 -> t mod 2 ^ k = 0.
Proof.
  intros Hk H. assert ((t mod 2 ^ j) mod 2 ^ k = t mod 2 ^ k) as <-; [|now rewrite H].
  apply Z.mod_mod_divide. exists (2 ^ (j - k)). rewrite <- Z.pow_add_r by lia. f_equal. lia.
Qed.

Lemma frame_bits e n : 0 <= n -> Z.testbit (frame_of e) n = Z.testbit e n && (12 <=? n) && (n <? 36).
Proof.
  intros Hn. unfold frame_of. change PHYS_ADDR_MASK with (Z.ones 24 << 12). rewrite Z.land_spec, Z.shiftl_spec by done. rewrite <- andb_assoc. f_equal.
  destruct (Z.leb_spec 12 n); [|now rewrite Z.testbit_neg_r by lia]. rewrite Z.testbit_ones by lia.
  destruct (Z.leb_spec 0 (n - 12)), (Z.ltb_spec (n - 12) 24), (Z.ltb_spec n 36); lia || done.
Qed.

Lemma frame_aligned e : frame_of e mod 4096 = 0.
Proof. unfold frame_of. change PHYS_ADDR_MASK with (PHYS_ADDR_MASK .& ~~ (2 ^ 12 - 1)). rewrite Z.land_assoc. now apply (root_aligned _ 12). Qed.

Lemma frame_32 e : in_u 32 e -> e .& ~~ 0xfff = frame_of e.
Proof.
  intros He. change 0xfff with (Z.ones 12). apply Z.bits_inj'. intros n Hn. rewrite frame_bits, Z.land_spec, lnot_spec', Z.testbit_ones by (done || lia).
  destruct (Z.lt_ge_cases n 32).
  - destruct (Z.leb_spec 0 n), (Z.ltb_spec n 12), (Z.leb_spec 12 n), (Z.ltb_spec n 36); try lia; now rewrite ?andb_true_r, ?andb_false_r.
  - now rewrite (testbit_in_u_high 32 e n) by (done || lia).
Qed.

(** Bits that an access sets in an entry do not change what it translates to. *)
Definition is_mark (x : Z) : Prop := x = 0 \/ x = PG_ACCESSED_MASK \/ x = PG_ACCESSED_MASK .| PG_DIRTY_MASK.

Lemma mark_bit e x n : is_mark x -> 0 <= n -> n <> 5 -> n <> 6 -> Z.testbit (e .| x) n = Z.testbit e n.
Proof.
  intros Hx Hn H5 H6. rewrite Z.lor_spec. assert (Z.testbit x n = false) as ->; [|apply orb_false_r].
  destruct Hx as [-> | [-> | ->]]; [apply Z.bits_0| |rewrite Z.lor_spec];
    unfold PG_ACCESSED_MASK, PG_DIRTY_MASK, PG_ACCESSED_BIT, PG_DIRTY_BIT; rewrite !testbit_one_shift by lia; now rewrite ?(proj2 (Z.eqb_neq _ _)) by done.
Qed.

Lemma mark_frame e x : is_mark x -> frame_of (e .| x) = frame_of e.
Proof.
  intros Hx. apply Z.bits_inj'. intros n Hn. rewrite !frame_bits by done. destruct (Z.leb_spec 12 n); [|now rewrite !andb_false_r].
  now rewrite mark_bit by (done || lia).
Qed.

(** ** Memory *)

Section Memory.
Context {M : Type} `{!PhysMem M}.

Lemma marked_nil m : marked [] m m.
Proof. now intros b _. Qed.

Lemma marked_app l1 l2 m m1 m2 : marked l1 m m1 -> marked l2 m1 m2 -> marked (l1 ++ l2) m m2.
Proof. intros H1 H2 b Hb. now rewrite (H2 b Hb), (H1 b Hb), fold_left_app. Qed.

Lemma u32_ldq a m : u32 (ldq_phys a m) = ldl_phys a m.
Proof.
  rewrite ldq_halves. apply Z.bits_inj'. intros n Hn. rewrite u32_bits, Z.lor_spec, Z.shiftl_spec by done. destruct (Z.ltb_spec n 32).
  - rewrite (Z.testbit_neg_r _ (n - 32)) by lia. apply orb_false_r.
  - symmetry. apply (testbit_in_u_high 32); [lia|apply ldl_range|lia].
Qed.

Lemma tst_mark (b : bool) e k : 0 <= k -> tst e (1 << k) = true -> (if b then e .| (1 << k) else e) = e.
Proof.
  intros Hk H. rewrite tst_bit in H by done. destruct b; [|done]. bitwise. now rewrite H.
Qed.

Lemma marked_store a e x m : a .& 3 = 0 -> u32 e = ldl_phys a m -> in_u 32 x -> marked [(a, x)] m (stl_phys_notdirty a (u32 (e .| x)) m).
Proof.
  intros Ha He Hx b Hb. cbn [fold_left fst snd]. rewrite ldl_stl by done. destruct (Z.eqb_spec b a) as [->|]; [|done].
  rewrite (u32_id (u32 _)) by apply u32_range. rewrite <- He. apply Z.bits_inj'. intros n Hn. rewrite u32_bits, !Z.lor_spec, u32_bits by done.
  destruct (Z.ltb_spec n 32); [done|]. symmetry. apply (testbit_in_u_high 32); [lia|done|lia].
Qed.

Lemma marked_idle a e x m : u32 e = ldl_phys a m -> in_u 32 x -> e .| x = e -> marked [(a, x)] m m.
Proof.
  intros He Hx E b Hb. cbn [fold_left fst snd]. destruct (Z.eqb_spec b a) as [->|]; [|done]. rewrite <- He. apply Z.bits_inj'. intros n Hn.
  rewrite Z.lor_spec, !u32_bits by done. pose proof (f_equal (fun y => Z.testbit y n) E) as X. cbn beta in X. rewrite Z.lor_spec in X.
  destruct (Z.ltb_spec n 32); cbn [andb orb]; [now rewrite X|]. symmetry. apply (testbit_in_u_high 32); [lia|done|lia].
Qed.

Lemma set_accessed_spec a e m e' m' : a .& 3 = 0 -> u32 e = ldl_phys a m -> set_accessed a e m = (e', m') ->
  e' = e .| PG_ACCESSED_MASK /\ marked [(a, PG_ACCESSED_MASK)] m m'.
Proof.
  intros Ha He. unfold set_accessed. destruct (tst e PG_ACCESSED_MASK) eqn:T; cbn [negb]; intros [= <- <-].
  - pose proof (tst_mark true e PG_ACCESSED_BIT ltac:(unfold PG_ACCESSED_BIT; lia) T) as E. cbn iota in E. split; [now symmetry|]. now apply (marked_idle a e).
  - split; [done|]. now apply marked_store.
Qed.

Lemma set_used_spec a e kind m e' m' : a .& 3 = 0 -> u32 e = ldl_phys a m -> set_used a e (kind =? 1) m = (e', m') ->
  e' = e .| used_bits kind /\ marked [(a, used_bits kind)] m m'.
Proof.
  intros Ha He. set (x := used_bits kind).
  assert (set_used a e (kind =? 1) m = (e .| x, m) /\ e .| x = e \/ set_used a e (kind =? 1) m = (e .| x, stl_phys_notdirty a (u32 (e .| x)) m)) as [[-> E] | ->].
  { unfold set_used, x, used_bits. pose proof (tst_mark true e PG_ACCESSED_BIT ltac:(unfold PG_ACCESSED_BIT; lia)) as EA.
    pose proof (tst_mark true e PG_DIRTY_BIT ltac:(unfold PG_DIRTY_BIT; lia)) as ED. cbn iota in EA, ED. fold PG_ACCESSED_MASK in EA. fold PG_DIRTY_MASK in ED.
    assert (tst e PG_ACCESSED_MASK = true -> e .| (PG_ACCESSED_MASK .| PG_DIRTY_MASK) = e .| PG_DIRTY_MASK) as E1 by (intros T; now rewrite Z.lor_assoc, EA).
    assert (tst e PG_DIRTY_MASK = true -> e .| (PG_ACCESSED_MASK .| PG_DIRTY_MASK) = e .| PG_ACCESSED_MASK) as E2
      by (intros T; now rewrite (Z.lor_comm PG_ACCESSED_MASK), Z.lor_assoc, ED).
    destruct (kind =? 1); cbn [andb]; destruct (tst e PG_ACCESSED_MASK), (tst e PG_DIRTY_MASK); cbn [negb orb];
      first [left; rewrite ?E1, ?EA, ?ED by done; now rewrite ?ED by done | right; rewrite ?E1, ?E2, ?EA by done; now rewrite <- ?Z.lor_assoc]. }
  - intros [= <- <-]. split; [done|]. apply (marked_idle a e); [done|unfold x, used_bits; now destruct (kind =? 1)|done].
  - intros [= <- <-]. split; [done|]. apply marked_store; [done|done|unfold x, used_bits; now destruct (kind =? 1)].
Qed.

(** Entries read after a table entry was marked. *)
Lemma ldl_marked a b m m1 : b .& 3 = 0 -> marked [(a, PG_ACCESSED_MASK)] m m1 -> exists x, (x = 0 \/ x = PG_ACCESSED_MASK) /\ ldl_phys b m1 = ldl_phys b m .| x.
Proof.
  intros Hb Hm. rewrite (Hm b Hb). cbn [fold_left fst snd]. destruct (b =? a); [exists PG_ACCESSED_MASK|exists 0; rewrite Z.lor_0_r]; auto.
Qed.

Lemma ldq_marked a b m m1 : a .& 7 = 0 -> b .& 7 = 0 -> marked [(a, PG_ACCESSED_MASK)] m m1 -> exists x, (x = 0 \/ x = PG_ACCESSED_MASK) /\ ldq_phys b m1 = ldq_phys b m .| x.
Proof.
  intros Ha Hb Hm. rewrite !ldq_halves. destruct (ldl_marked a b m m1 (land_3_of_7 _ Hb) Hm) as (x & Hx & ->). exists x. split; [exact Hx|].
  assert (a mod 8 = 0 /\ b mod 8 = 0) as [A B] by (now rewrite <- !land_7).
  rewrite (Hm (b + 4)).
  - cbn [fold_left fst snd]. rewrite (proj2 (Z.eqb_neq (b + 4) a)) by (Z.div_mod_to_equations; lia). now rewrite <- !Z.lor_assoc, (Z.lor_comm x).
  - rewrite (land_ones_mod (b + 4) 2) by (done || lia). change (2 ^ 2) with 4. Z.div_mod_to_equations. lia.
Qed.
End Memory.

(** ** The walk and the reference *)

Section Agree.
Context {M : Type} `{!PhysMem M}.

Lemma tst_present e : tst e PG_PRESENT_MASK = Z.testbit e 0.
Proof. now apply (tst_bit e 0). Qed.
Lemma tst_rw e : tst e PG_RW_MASK = Z.testbit e 1.
Proof. now apply (tst_bit e 1). Qed.
Lemma tst_user e : tst e PG_USER_MASK = Z.testbit e 2.
Proof. now apply (tst_bit e 2). Qed.
Lemma tst_dirty e : tst e PG_DIRTY_MASK = Z.testbit e 6.
Proof. now apply (tst_bit e 6). Qed.
Lemma tst_pse e : tst e PG_PSE_MASK = Z.testbit e 7.
Proof. now apply (tst_bit e 7). Qed.
Lemma tst_nx e : tst e PG_NX_MASK = Z.testbit e 63.
Proof. now apply (tst_bit e 63). Qed.

(** The code's check of a leaf, for the rights in [ptep]. *)
Definition rights_in (ptep : Z) (r : rights) : Prop :=
  Z.testbit ptep 2 = r_user r /\ Z.testbit ptep 1 = r_write r /\ Z.testbit ptep 63 = negb (r_exec r).

Lemma protected_permitted env ptep r user kind : rights_in ptep r ->
  (tst ptep PG_NX_MASK && (kind =? 2)) || protected env ptep user (kind =? 1) = negb (permitted env kind user r).
Proof.
  intros (Eu & Ew & Ex). unfold protected, permitted, may_write. rewrite tst_nx, tst_user, tst_rw, Eu, Ew, Ex.
  destruct user, (r_user r), (r_write r), (r_exec r), (kind =? 1), (kind =? 2), (tst (aget (cr env) 0) CR0_WP_MASK); reflexivity.
Qed.

Definition accessed (passed : list Z) : list (Z * Z) := map (fun a => (a, PG_ACCESSED_MASK)) passed.

(** How the end of the walk matches the outcome of the reference. *)
Definition walk_agrees (env : CPUX86State) (addr kind : Z) (user : bool) (m : M) (res : walk * M) (o : lookup) : Prop :=
  let '(w, m') := res in
  match o with
  | Missing code passed => w = do_fault code /\ marked (accessed passed) m m'
  | Leaf e a r log passed =>
      if permitted env kind user r then
        (exists pte ptep, w = do_map pte ptep (addr .& ~~ (2 ^ log - 1)) (2 ^ log) /\ rights_in ptep r
           /\ (forall n, 12 <= n -> Z.testbit pte n = Z.testbit (frame_of e) n && (log <=? n))
           /\ Z.testbit pte 6 = (Z.testbit e 6 || (kind =? 1)))
        /\ marked (accessed passed ++ [(a, used_bits kind)]) m m'
      else w = do_fault PG_ERROR_P_MASK /\ marked (accessed passed) m m'
  end.

Lemma used_mark kind : is_mark (used_bits kind).
Proof. unfold is_mark, used_bits. destruct (kind =? 1); auto. Qed.

Lemma used_dirty e kind : Z.testbit (e .| used_bits kind) 6 = (Z.testbit e 6 || (kind =? 1)).
Proof. rewrite Z.lor_spec. unfold used_bits. now destruct (kind =? 1). Qed.

Lemma mark_dirty e x : x = 0 \/ x = PG_ACCESSED_MASK -> Z.testbit (e .| x) 6 = Z.testbit e 6.
Proof. intros [-> | ->]; rewrite Z.lor_spec; apply orb_false_r. Qed.

(** The common end of all cases: the leaf, [e] but for marks, at [a]; [rest]
    is what the code keeps of it for the rights. *)
Lemma leaf_agrees env addr kind user m m1 passed e x a r log ptep (mask : Z) (rest : Z -> Z) :
  a .& 3 = 0 -> x = 0 \/ x = PG_ACCESSED_MASK -> u32 (e .| x) = ldl_phys a m1 -> marked (accessed passed) m m1 ->
  rights_in ptep r -> (forall y, is_mark y -> rights_in (rest (e .| x .| y)) r) ->
  (forall n, 12 <= n -> Z.testbit mask n = (log <=? n) && (n <? 36) || negb (Z.testbit e n) && Z.testbit mask n) -> Z.testbit mask 6 = true ->
  walk_agrees env addr kind user m
    (if (tst ptep PG_NX_MASK && (kind =? 2)) || protected env ptep user (kind =? 1) then (do_fault PG_ERROR_P_MASK, m1)
     else let '(e', m2) := set_used a (e .| x) (kind =? 1) m1 in (do_map (e' .& mask) (rest e') (addr .& ~~ (2 ^ log - 1)) (2 ^ log), m2))
    (Leaf e a r log passed).
Proof.
  intros Ha Hx He Hm Hr Hrest Hmask H6. rewrite (protected_permitted env ptep r user kind Hr). unfold walk_agrees.
  destruct (permitted env kind user r); cbn [negb]; [|done].
  destruct (set_used a (e .| x) (kind =? 1) m1) as [e' m2] eqn:E. apply set_used_spec in E; [|done|done]. destruct E as [-> E].
  split; [|now apply (marked_app _ _ _ m1)]. eexists _, _. split; [reflexivity|]. split; [apply Hrest, used_mark|].
  assert (is_mark x) as Mx by (unfold is_mark; tauto). split.
  - intros n Hn. rewrite Z.land_spec, Hmask, frame_bits, !mark_bit by (assumption || apply used_mark || lia).
    destruct (Z.leb_spec 12 n); [|lia]. rewrite andb_true_r. destruct (Z.testbit e n), (log <=? n), (n <? 36); reflexivity.
  - rewrite Z.land_spec, H6, andb_true_r, used_dirty, mark_dirty by done. reflexivity.
Qed.

Lemma slot_32 a20 addr table : u32 (table + ((addr >> 20) .& 0xffc)) .& a20 = slot a20 addr 22 10 4 table /\ u32 (table + ((addr >> 10) .& 0xffc)) .& a20 = slot a20 addr 12 10 4 table.
Proof. unfold slot. change 0xffc with (Z.ones 10 << 2). now rewrite !scaled_field by lia. Qed.

Lemma bit63 e : in_u 32 e -> Z.testbit e 63 = false.
Proof. intros H. apply (testbit_in_u_high 32); [lia|exact H|lia]. Qed.

Lemma u32_mark e x : in_u 32 e -> is_mark x -> u32 (e .| x) = e .| x.
Proof. intros He Hx. apply u32_id, in_u_lor; [lia|exact He|]. destruct Hx as [-> | [-> | ->]]; now compute. Qed.

Lemma mask_4m n : 12 <= n -> Z.testbit (~~ ((4096 * 1024 - 1) .& ~~ 0xfff)) n = (22 <=? n).
Proof.
  intros Hn. change (4096 * 1024 - 1) with (Z.ones 22). change 0xfff with (Z.ones 12). rewrite lnot_spec', Z.land_spec, lnot_spec', !Z.testbit_ones by lia.
  destruct (Z.leb_spec 0 n), (Z.ltb_spec n 22), (Z.ltb_spec n 12), (Z.leb_spec 22 n); lia || done.
Qed.

Lemma walk_32_agrees env addr kind user m : tst (aget (cr env) 4) CR4_PAE_MASK = false ->
  walk_agrees env addr kind user m (walk_32 env addr user (kind =? 1) m) (translate env addr m).
Proof.
  intros HP. unfold walk_32, translate, levels. rewrite HP, (proj1 (slot_32 _ _ _)). cbn [radix lv_slot lv_load lv_full lv_leaf andb].
  set (a := slot _ _ 22 _ _ _). assert (a .& 3 = 0) as A1 by (apply (aligned_slot 2); [lia|exact (mod_pow_le _ 12 2 ltac:(lia) (root_aligned _ 12 ltac:(lia)))|done]).
  clearbody a. set (e := ldl_phys a m). assert (in_u 32 e) as He by apply ldl_range. assert (u32 e = ldl_phys a m) as Ue by now apply u32_id.
  rewrite tst_present, tst_pse, (bit63 e He), andb_false_r. destruct (Z.testbit e 0); cbn [negb]; [|split; [done|apply marked_nil]].
  destruct (Z.testbit e 7 && tst (aget (cr env) 4) CR4_PSE_MASK).
  - pose proof (leaf_agrees env addr kind user m m [] e 0 a (restrict all_rights e) 22 e (~~ ((4096 * 1024 - 1) .& ~~ 0xfff)) (fun e' => e' .& ~~ ((4096 * 1024 - 1) .& ~~ 0xfff))) as L.
    rewrite !Z.lor_0_r in L. rewrite tst_nx, (bit63 e He) in L. cbn [andb orb] in L. apply L; clear L; auto using marked_nil.
    + split; [done|]. split; [done|]. cbn. now rewrite negb_involutive.
    + intros y Hy. unfold rights_in. rewrite !Z.land_spec, !mark_bit, (bit63 e He) by (assumption || lia).
      change (Z.testbit (~~ _) 2) with true. change (Z.testbit (~~ _) 1) with true. cbn [restrict all_rights r_user r_write r_exec andb negb].
      now rewrite !andb_true_r, negb_involutive, (bit63 e He).
    + intros n Hn. rewrite mask_4m by done. destruct (Z.leb_spec 22 n); cbn [andb]; [|now rewrite andb_false_r]. destruct (Z.ltb_spec n 36); [done|].
      now rewrite (testbit_in_u_high 32 e n) by (done || lia).
  - destruct (set_accessed a e m) as [e' m1] eqn:E. apply set_accessed_spec in E; [|done|done]. destruct E as [-> E1].
    assert (is_mark PG_ACCESSED_MASK) as MA by (right; now left).
    rewrite (proj2 (slot_32 _ _ _)), frame_32, mark_frame by (first [exact MA | apply in_u_lor; [lia|exact He|now compute]]).
    set (b := slot _ _ 12 _ _ _). assert (b .& 3 = 0) as B1 by (apply (aligned_slot 2); [lia|exact (mod_pow_le _ 12 2 ltac:(lia) (frame_aligned e))|done]).
    clearbody b. destruct (ldl_marked a b m m1 B1 E1) as (x & Hx & Ex). rewrite Ex. set (p := ldl_phys b m) in *. assert (in_u 32 p) as Hp by apply ldl_range.
    assert (is_mark x) as Mx by (unfold is_mark; tauto). rewrite tst_present, mark_bit, (bit63 p Hp), andb_false_r by (done || lia). destruct (Z.testbit p 0); cbn [negb]; [|now split].
    set (ptep := (p .| x) .& (e .| PG_ACCESSED_MASK)).
    assert (rights_in ptep (restrict (restrict all_rights e) p)) as R.
    { unfold rights_in, ptep. rewrite !Z.land_spec, !mark_bit, (bit63 p Hp), (bit63 e He) by (assumption || lia).
      cbn [restrict all_rights r_user r_write r_exec andb negb]. rewrite (bit63 p Hp), (bit63 e He). split_and!; [apply andb_comm|apply andb_comm|done]. }
    pose proof (leaf_agrees env addr kind user m m1 [a] p x b (restrict (restrict all_rights e) p) 12 ptep (-1) (fun _ => ptep) B1 Hx) as L.
    rewrite tst_nx, (proj2 (proj2 R)) in L. cbn [restrict all_rights r_exec andb negb] in L. rewrite (bit63 p Hp), (bit63 e He) in L. cbn [negb andb orb] in L.
    destruct (protected env ptep user (kind =? 1)); [|destruct (set_used b (p .| x) (kind =? 1) m1); rewrite Z.land_m1_r in L]; apply L; auto; try (now rewrite u32_mark);
      intros n Hn; rewrite Z.bits_m1 by lia; destruct (Z.leb_spec 12 n); try lia; destruct (Z.ltb_spec n 36); try done; cbn [andb orb]; rewrite (testbit_in_u_high 32 p n); done || lia.
Qed.

Lemma slot_pae a20 addr table lo : u32 (table + ((addr >> 27) .& 0x18)) .& a20 = slot a20 addr 30 2 8 table
  /\ u32 ((table + (((addr >> lo) .& 0x1ff) << 3)) .& a20) = slot a20 addr lo 9 8 table.
Proof.
  unfold slot. split.
  - change 0x18 with (Z.ones 2 << 3). now rewrite scaled_field by lia.
  - now rewrite u32_land, Z.shiftl_mul_pow2, Z.mul_comm by lia.
Qed.

Lemma if_or {A} (b c : bool) (x y : A) : (if b then x else if c then x else y) = if b || c then x else y.
Proof. now destruct b, c. Qed.

(** The rights the PAE walk carries, with the no-execute bit inverted on the way. *)
Lemma pae_rights r q e : (Z.testbit q 2 = r_user r /\ Z.testbit q 1 = r_write r /\ Z.testbit q 63 = r_exec r) ->
  let q' := q .& (e .^ PG_NX_MASK) in
  (Z.testbit q' 2 = r_user (restrict r e) /\ Z.testbit q' 1 = r_write (restrict r e) /\ Z.testbit q' 63 = r_exec (restrict r e)) /\ rights_in (q' .^ PG_NX_MASK) (restrict r e).
Proof.
  intros (Eu & Ew & Ex). unfold rights_in. cbn zeta. assert (forall n, 0 <= n -> Z.testbit PG_NX_MASK n = (n =? 63)) as N by (intros; now apply testbit_one_shift).
  rewrite !Z.lxor_spec, !Z.land_spec, !Z.lxor_spec, !N, Eu, Ew, Ex by lia. cbn [Z.eqb Pos.eqb restrict r_user r_write r_exec].
  rewrite !xorb_false_r, !xorb_true_r. auto.
Qed.

Lemma restrict_mark r e x : is_mark x -> restrict r (e .| x) = restrict r e.
Proof. intros Hx. unfold restrict. now rewrite !mark_bit by (done || lia). Qed.

Lemma mask_2m n : 12 <= n -> Z.testbit ((PHYS_ADDR_MASK .& ~~ (2048 * 1024 - 1)) .| 0xfff) n = (21 <=? n) && (n <? 36).
Proof.
  intros Hn. change ((PHYS_ADDR_MASK .& ~~ (2048 * 1024 - 1)) .| 0xfff) with ((Z.ones 15 << 21) .| Z.ones 12). rewrite Z.lor_spec, Z.shiftl_spec, (Z.testbit_ones 12) by lia.
  destruct (Z.leb_spec 0 n), (Z.ltb_spec n 12); try lia. rewrite andb_false_r, orb_false_r.
  destruct (Z.leb_spec 21 n); [|now rewrite Z.testbit_neg_r by lia]. rewrite Z.testbit_ones by lia. destruct (Z.leb_spec 0 (n - 21)), (Z.ltb_spec (n - 21) 15), (Z.ltb_spec n 36); lia || done.
Qed.

Lemma mask_4k n : 12 <= n -> Z.testbit (PHYS_ADDR_MASK .| 0xfff) n = (12 <=? n) && (n <? 36).
Proof.
  intros Hn. change (PHYS_ADDR_MASK .| 0xfff) with (Z.ones 36). rewrite Z.testbit_ones by lia. now destruct (Z.leb_spec 0 n), (Z.leb_spec 12 n); try lia.
Qed.

Lemma walk_pae_agrees env addr kind user m : tst (aget (cr env) 4) CR4_PAE_MASK = true ->
  walk_agrees env addr kind user m (walk_pae env addr kind user (kind =? 1) m) (translate env addr m).
Proof.
  intros HP. unfold walk_pae, translate, levels. rewrite HP, (proj1 (slot_pae _ _ _ 0)). cbn [radix lv_slot lv_load lv_full lv_leaf andb].
  set (a0 := slot _ _ 30 _ _ _). set (e0 := ldq_phys a0 m). rewrite (tst_present e0). destruct (Z.testbit e0 0); cbn [negb]; [|split; [done|apply marked_nil]].
  fold (frame_of e0). rewrite (proj2 (slot_pae _ _ _ 21)). set (a := slot _ _ 21 _ _ _).
  assert (a .& 7 = 0) as A7 by (apply (aligned_slot 3); [lia|exact (mod_pow_le _ 12 3 ltac:(lia) (frame_aligned e0))|done]). pose proof (land_3_of_7 a A7) as A3.
  clearbody a. set (e := ldq_phys a m). assert (u32 e = ldl_phys a m) as Ue by apply u32_ldq.
  rewrite tst_present, tst_pse. unfold nx_reserved at 1. rewrite tst_nx. destruct (Z.testbit e 0); cbn [negb]; [|split; [done|apply marked_nil]].
  destruct (negb (tst (efer env) MSR_EFER_NXE) && Z.testbit e 63); [split; [done|apply marked_nil]|].
  destruct (pae_rights all_rights (PG_NX_MASK .| PG_USER_MASK .| PG_RW_MASK) e) as [R1 R1']; [now split_and!|]. cbn zeta in R1, R1'.
  set (q := (PG_NX_MASK .| PG_USER_MASK .| PG_RW_MASK) .& (e .^ PG_NX_MASK)) in *. clearbody q.
  destruct (Z.testbit e 7).
  - rewrite if_or. pose proof (leaf_agrees env addr kind user m m [] e 0 a (restrict all_rights e) 21 (q .^ PG_NX_MASK) ((PHYS_ADDR_MASK .& ~~ (2048 * 1024 - 1)) .| 0xfff) (fun _ => q .^ PG_NX_MASK) A3) as L.
    rewrite !Z.lor_0_r in L. apply L; clear L; auto using marked_nil. intros n Hn. rewrite mask_2m by done. now destruct ((21 <=? n) && (n <? 36)), (Z.testbit e n).
  - destruct (set_accessed a e m) as [e' m1] eqn:E. apply set_accessed_spec in E; [|done|done]. destruct E as [-> E1].
    assert (is_mark PG_ACCESSED_MASK) as MA by (right; now left). fold (frame_of (e .| PG_ACCESSED_MASK)). rewrite (mark_frame e _ MA), (proj2 (slot_pae _ _ _ 12)).
    set (b := slot _ _ 12 _ _ _). assert (b .& 7 = 0) as B7 by (apply (aligned_slot 3); [lia|exact (mod_pow_le _ 12 3 ltac:(lia) (frame_aligned e))|done]).
    clearbody b. destruct (ldq_marked a b m m1 A7 B7 E1) as (x & Hx & Ex). assert (u32 (ldq_phys b m1) = ldl_phys b m1) as Up by apply u32_ldq. rewrite Ex in *.
    set (p := ldq_phys b m) in *. clearbody p. assert (is_mark x) as Mx by (unfold is_mark; tauto).
    rewrite tst_present, mark_bit by (done || lia). unfold nx_reserved. rewrite tst_nx, mark_bit by (done || lia).
    destruct (Z.testbit p 0); cbn [negb]; [|now split]. destruct (negb (tst (efer env) MSR_EFER_NXE) && Z.testbit p 63); [now split|].
    destruct (pae_rights (restrict all_rights e) q (p .| x) R1) as [_ R2]. rewrite (restrict_mark _ p x Mx) in R2. cbn zeta in R2. set (ptep := (q .& ((p .| x) .^ PG_NX_MASK)) .^ PG_NX_MASK) in *. clearbody ptep.
    rewrite if_or. apply (leaf_agrees env addr kind user m m1 [a] p x b (restrict (restrict all_rights e) p) 12 ptep (PHYS_ADDR_MASK .| 0xfff) (fun _ => ptep)); auto using land_3_of_7.
    intros n Hn. rewrite mask_4k by done. now destruct ((12 <=? n) && (n <? 36)), (Z.testbit p n).
Qed.

Lemma translate_log env addr m e a r log passed : translate env addr m = Leaf e a r log passed -> 12 <= log <= 22.
Proof.
  unfold translate, levels. destruct (tst (aget (cr env) 4) CR4_PAE_MASK); cbn [radix lv_slot lv_load lv_full lv_leaf];
    repeat match goal with |- context [if ?b then _ else _] => destruct b end; congruence || (intros [= _ _ _ <- _]; lia).
Qed.

Lemma ones_pred log : 0 <= log -> 2 ^ log - 1 = Z.ones log.
Proof. intros. rewrite Z.ones_equiv. lia. Qed.

(** The 4 KB page of an address, from the large page it is in. *)
Lemma page_in_large addr log : 12 <= log -> (addr .& ~~ (2 ^ log - 1)) + (addr .& TARGET_PAGE_MASK .& (2 ^ log - 1)) = addr .& TARGET_PAGE_MASK.
Proof.
  intros Hl. rewrite ones_pred by lia. assert (addr .& ~~ Z.ones log .& (addr .& TARGET_PAGE_MASK .& Z.ones log) = 0) as D.
  { apply Z.bits_inj'. intros n Hn. rewrite !Z.land_spec, lnot_spec', Z.bits_0 by done. destruct (Z.testbit (Z.ones log) n); cbn [negb]; now rewrite ?andb_false_r. }
  pose proof (Z.add_lor_land (addr .& ~~ Z.ones log) (addr .& TARGET_PAGE_MASK .& Z.ones log)) as S. rewrite D, Z.add_0_r in S. rewrite <- S.
  apply Z.bits_inj'. intros n Hn. rewrite Z.lor_spec, !(Z.land_spec _ (Z.ones log)), page_of_bits, Z.land_spec, lnot_spec', Z.testbit_ones by lia.
  destruct (Z.leb_spec 0 n), (Z.ltb_spec n log), (Z.leb_spec 12 n); try lia; cbn [negb andb]; now rewrite ?andb_true_r, ?andb_false_r, ?orb_false_r.
Qed.

Lemma mapping_correct env addr pte prot e log : in_u 32 addr -> 12 <= log ->
  (forall n, 12 <= n -> Z.testbit pte n = Z.testbit (frame_of e) n && (log <=? n)) ->
  do_mapping env addr pte prot (addr .& ~~ (2 ^ log - 1)) (2 ^ log) = mkMapping (addr .& TARGET_PAGE_MASK) (page_address env addr e log) prot (2 ^ log).
Proof.
  intros Ha Hl Hp. unfold do_mapping, page_address. rewrite page_in_large by done. rewrite u32_id by (apply in_u_land; [lia|exact Ha]). f_equal. f_equal.
  apply Z.bits_inj'. intros n Hn. rewrite page_of_bits, ones_pred, !Z.land_spec, lnot_spec', Z.testbit_ones by lia. destruct (Z.leb_spec 12 n).
  - rewrite Hp by done. rewrite andb_true_r. f_equal. f_equal. destruct (Z.leb_spec 0 n), (Z.leb_spec log n), (Z.ltb_spec n log); lia || done.
  - rewrite !andb_false_r. destruct (Z.leb_spec 0 n), (Z.ltb_spec n log); lia.
Qed.

Lemma prot_granted env kind user e r pte ptep : rights_in ptep r -> Z.testbit pte 6 = (Z.testbit e 6 || (kind =? 1)) -> tlb_prot env pte ptep user = granted env kind e user r.
Proof.
  intros (_ & Ew & Ex) Ed. unfold tlb_prot, granted, may_write. rewrite tst_nx, tst_dirty, tst_rw, Ew, Ex, Ed.
  destruct (r_exec r), (r_write r), user, (Z.testbit e 6), (kind =? 1), (tst (aget (cr env) 0) CR0_WP_MASK); reflexivity.
Qed.

Lemma fault_correct env addr code kind user : raise_page_fault env addr code kind user (kind =? 1) = page_fault addr (fault_code env code kind user) env.
Proof.
  unfold raise_page_fault, page_fault, fault_code. f_equal. destruct user, (kind =? 1), ((kind =? 2) && tst (efer env) MSR_EFER_NXE && tst (aget (cr env) 4) CR4_PAE_MASK) eqn:E;
    rewrite ?E; cbn [b2z]; change (1 << PG_ERROR_W_BIT) with 2; change (0 << PG_ERROR_W_BIT) with 0; now rewrite ?Z.lor_0_r.
Qed.

(** What the function returns and marks for an outcome of the reference. *)
Definition expected (env : CPUX86State) (addr kind : Z) (user : bool) (o : lookup) : option mapping * CPUX86State * list (Z * Z) :=
  match o with
  | Missing code passed => (None, page_fault addr (fault_code env code kind user) env, accessed passed)
  | Leaf e a r log passed =>
      if permitted env kind user r
      then (Some (mkMapping (addr .& TARGET_PAGE_MASK) (page_address env addr e log) (granted env kind e user r) (2 ^ log)), env,
            accessed passed ++ [(a, used_bits kind)])
      else (None, page_fault addr (fault_code env PG_ERROR_P_MASK kind user) env, accessed passed)
  end.

Lemma handler_expected env addr kind mmu_idx m (user := mmu_idx =? MMU_USER_IDX) : in_u 32 addr -> kind = 0 \/ kind = 1 \/ kind = 2 ->
  tst (aget (cr env) 0) CR0_PG_MASK = true ->
  exists m', (let '(ret, env', marks) := expected env addr kind user (translate env addr m) in
    cpu_x86_handle_mmu_fault addr kind mmu_idx env m = (ret, env', m') /\ marked marks m m').
Proof.
  intros Ha Hk Hpg. unfold cpu_x86_handle_mmu_fault. rewrite Hpg. cbn [negb]. fold user.
  assert (truthy (kind .& 1) = (kind =? 1)) as -> by (destruct Hk as [-> | [-> | ->]]; reflexivity).
  assert (walk_agrees env addr kind user m (if tst (aget (cr env) 4) CR4_PAE_MASK then walk_pae env addr kind user (kind =? 1) m else walk_32 env addr user (kind =? 1) m) (translate env addr m)) as W
    by (destruct (tst (aget (cr env) 4) CR4_PAE_MASK) eqn:P; [now apply walk_pae_agrees|now apply walk_32_agrees]).
  destruct (if tst (aget (cr env) 4) CR4_PAE_MASK then _ else _) as [w m']. exists m'. pose proof (translate_log env addr m) as TL.
  destruct (translate env addr m) as [code passed|e a r log passed]; cbn [walk_agrees expected] in *.
  - destruct W as [-> W]. now rewrite fault_correct.
  - destruct (permitted env kind user r).
    + destruct W as [(pte & ptep & -> & Hr & Hp & Hd) W]. split; [|exact W]. rewrite (mapping_correct env addr pte _ e log Ha ltac:(specialize (TL _ _ _ _ _ eq_refl); lia) Hp).
      now rewrite (prot_granted env kind user e r pte ptep Hr Hd).
    + destruct W as [-> W]. now rewrite fault_correct.
Qed.

(** C6: With paging on, the page table walk is the translation of the radix tree
    of tables, for 32-bit and PAE paging and pages of 4 KB, 2 MB and 4 MB: it
    succeeds exactly if every level is present and the rights of the path admit
    the access; then the cache is given the page's physical address, the rights
    it has and write access only to a dirty page, and the CPU is unchanged.
    Otherwise CR2 and the error code describe the access.  Memory changes in
    nothing but the accessed bits of the entries passed, and on success the
    accessed and, for a write, dirty bit of the leaf. *)
Theorem x86_walk_correct env addr kind mmu_idx m (user := mmu_idx =? MMU_USER_IDX) : in_u 32 addr -> kind = 0 \/ kind = 1 \/ kind = 2 ->
  tst (aget (cr env) 0) CR0_PG_MASK = true ->
  exists m', match translate env addr m with
  | Missing code passed =>
      cpu_x86_handle_mmu_fault addr kind mmu_idx env m = (None, page_fault addr (fault_code env code kind user) env, m') /\ marked (accessed passed) m m'
  | Leaf e a r log passed =>
      if permitted env kind user r then
        cpu_x86_handle_mmu_fault addr kind mmu_idx env m =
          (Some (mkMapping (addr .& TARGET_PAGE_MASK) (page_address env addr e log) (granted env kind e user r) (2 ^ log)), env, m')
        /\ marked (accessed passed ++ [(a, used_bits kind)]) m m'
      else
        cpu_x86_handle_mmu_fault addr kind mmu_idx env m = (None, page_fault addr (fault_code env PG_ERROR_P_MASK kind user) env, m') /\ marked (accessed passed) m m'
  end.
Proof.
  intros Ha Hk Hpg. destruct (handler_expected env addr kind mmu_idx m Ha Hk Hpg) as (m' & W). exists m'. fold user in W.
  destruct (translate env addr m) as [code passed|e a r log passed]; cbn [expected] in W; [exact W|]. now destruct (permitted env kind user r).
Qed.
End Agree.
End X86Walk.
