(* ===== verification/SoftMmu.v ===== *)
(** * Guest memory accesses: softmmu_template.h over the translation cache

    Loads, instruction fetches and stores of 1, 2, 4 and 8 bytes on a
    little-endian target without instruction counting: the lookup in the cache,
    its refill by the page table walk, I/O pages, and accesses across two pages.
    An access ends with a value, with a guest exception, or (which the theorems
    exclude) in a loop of refills. *)

From S2P Require Import Prelude X86Cpu X86Trans X86Alu X86Seg SoftTlb X86Mmu X86Walk.

Module SoftMmu.
Import X86 X86Trans X86Alu SoftTlb X86Mmu X86Walk.
Import X86Seg(CR0_PG_MASK).
#[local] Existing Instances X86.SegmentCache_eta X86.CPUX86State_eta SoftTlb.cpu_common_eta.

(** ** The virtual CPU *)

(** The CPU, the part of it the cache is in, and the machine behind it. *)
Record vcpu (M : Type) := mkVcpu { cpu_env : CPUX86State; common : cpu_common; machine : M }.
Arguments mkVcpu {M}.
Arguments cpu_env {M}.
Arguments common {M}.
Arguments machine {M}.

(** Host memory under a pointer, the I/O handlers by index and width, and the
    restoration of the guest state from a host program counter. *)
Class Host (M : Type) := {
  ld_raw : Z -> Z -> M -> Z;
  st_raw : Z -> Z -> Z -> M -> M;
  io_mem_read : Z -> Z -> Z -> vcpu M -> Z * vcpu M;
  io_mem_write : Z -> Z -> Z -> Z -> vcpu M -> vcpu M;
  cpu_restore_state : Z -> vcpu M -> vcpu M
}.

Inductive access (M A : Type) : Type :=
| Value (a : A) (s : vcpu M)
| Exception (s : vcpu M)
| AssertFailed
| OutOfFuel.
Arguments Value {M A} a s.
Arguments Exception {M A} s.
Arguments AssertFailed {M A}.
Arguments OutOfFuel {M A}.

Definition and_then {M A B} (x : access M A) (f : A -> vcpu M -> access M B) : access M B :=
  match x with
  | Value a s => f a s
  | Exception s => Exception s
  | AssertFailed => AssertFailed
  | OutOfFuel => OutOfFuel
  end.

Section Access.
Context {M : Type} {HW : HostWidth} `{!Board M} `{!PhysMem M} `{!Host M}.
Implicit Types (s : vcpu M).

(** ** Refilling the cache *)

(** Now we have a real CPU fault. *)
Definition leave_by_fault (retaddr : Z) (s : vcpu M) : vcpu M :=
  let s := if truthy retaddr then cpu_restore_state retaddr s else s in
  mkVcpu (raise_exception_err (exception_index (cpu_env s)) (error_code (cpu_env s)) (cpu_env s)) (common s) (machine s).

Definition tlb_fill (addr is_write mmu_idx retaddr : Z) (s : vcpu M) : access M unit :=
  let '(ret, env, m) := cpu_x86_handle_mmu_fault addr is_write mmu_idx (cpu_env s) (machine s) in
  match ret with
  | Some p =>
      match tlb_set_page (mp_vaddr p) (mp_paddr p) (mp_prot p) mmu_idx (mp_size p) (common s) m with
      | Some t => Value tt (mkVcpu env t m)
      | None => AssertFailed
      end
  | None => Exception (leave_by_fault retaddr (mkVcpu env (common s) m))
  end.

(** ** I/O pages *)

Definition set_io (addr retaddr : Z) (s : vcpu M) : vcpu M :=
  mkVcpu (cpu_env s) ((common s) <| mem_io_pc := retaddr |> <| mem_io_vaddr := addr |>) (machine s).

Definition io_read (shift physaddr addr retaddr : Z) (s : vcpu M) : Z * vcpu M :=
  let index := (physaddr >> IO_MEM_SHIFT) .& (IO_MEM_NB_ENTRIES - 1) in
  let physaddr := u64 ((physaddr .& TARGET_PAGE_MASK) + addr) in
  let s := set_io addr retaddr s in
  if shift <=? 2 then
    let '(res, s) := io_mem_read index shift physaddr s in (wrap (8 << shift) res, s)
  else
    let '(lo, s) := io_mem_read index 2 physaddr s in
    let '(hi, s) := io_mem_read index 2 (u64 (physaddr + 4)) s in
    (u32 lo .| (u32 hi << 32), s).

Definition io_write (shift physaddr val addr retaddr : Z) (s : vcpu M) : vcpu M :=
  let index := (physaddr >> IO_MEM_SHIFT) .& (IO_MEM_NB_ENTRIES - 1) in
  let physaddr := u64 ((physaddr .& TARGET_PAGE_MASK) + addr) in
  let s := set_io addr retaddr s in
  if shift <=? 2 then io_mem_write index shift physaddr val s
  else
    let s := io_mem_write index 2 physaddr (u32 val) s in
    io_mem_write index 2 (u64 (physaddr + 4)) (u32 (val >> 32)) s.

(** ** Loads *)

(** One pass: [redo] after a refill, [across] for an access over two pages. *)
Definition ld_pass (shift kind addr mmu_idx retaddr : Z) (redo across : vcpu M -> access M Z) (s : vcpu M) : access M Z :=
  let size := 1 << shift in
  let index := tlb_index addr in
  let e := tlb_entry mmu_idx index (common s) in
  let tlb_addr := addr_of kind e in
  if hits addr tlb_addr then
    if tst tlb_addr (~~ TARGET_PAGE_MASK) then
      (* IO access *)
      if truthy (addr .& (size - 1)) then across s
      else let '(v, s) := io_read shift (iotlb_of mmu_idx index (common s)) addr retaddr s in Value v s
    else if TARGET_PAGE_SIZE <=? (addr .& ~~ TARGET_PAGE_MASK) + size - 1 then across s
    else Value (ld_raw shift (ulong (addr + addend e)) (machine s)) s
  else and_then (tlb_fill addr kind mmu_idx retaddr s) (fun _ s => redo s).

Fixpoint slow_ld (fuel : nat) (shift kind addr mmu_idx retaddr : Z) (s : vcpu M) : access M Z :=
  match fuel with
  | O => OutOfFuel
  | S fuel =>
      let size := 1 << shift in
      ld_pass shift kind addr mmu_idx retaddr (slow_ld fuel shift kind addr mmu_idx retaddr)
        (fun s =>
           let addr1 := addr .& ~~ (size - 1) in
           let addr2 := u32 (addr1 + size) in
           and_then (slow_ld fuel shift kind addr1 mmu_idx retaddr s) (fun res1 s =>
           and_then (slow_ld fuel shift kind addr2 mmu_idx retaddr s) (fun res2 s =>
           let sh := (addr .& (size - 1)) * 8 in
           Value (wrap (size * 8) ((res1 >> sh) .| (res2 << (size * 8 - sh)))) s))) s
  end.

(** [__ld] and, with kind 2, the code access. *)
Fixpoint ld_mmu (fuel : nat) (shift kind addr mmu_idx retaddr : Z) (s : vcpu M) : access M Z :=
  match fuel with
  | O => OutOfFuel
  | S fuel =>
      ld_pass shift kind addr mmu_idx retaddr (ld_mmu fuel shift kind addr mmu_idx retaddr)
        (slow_ld fuel shift kind addr mmu_idx retaddr) s
  end.

(** ** Stores *)

Definition st_pass (shift addr val mmu_idx retaddr : Z) (redo across : vcpu M -> access M unit) (s : vcpu M) : access M unit :=
  let size := 1 << shift in
  let index := tlb_index addr in
  let e := tlb_entry mmu_idx index (common s) in
  let tlb_addr := addr_write e in
  if hits addr tlb_addr then
    if tst tlb_addr (~~ TARGET_PAGE_MASK) then
      (* IO access *)
      if truthy (addr .& (size - 1)) then across s
      else Value tt (io_write shift (iotlb_of mmu_idx index (common s)) val addr retaddr s)
    else if TARGET_PAGE_SIZE <=? (addr .& ~~ TARGET_PAGE_MASK) + size - 1 then across s
    else Value tt (mkVcpu (cpu_env s) (common s) (st_raw shift (ulong (addr + addend e)) val (machine s)))
  else and_then (tlb_fill addr 1 mmu_idx retaddr s) (fun _ s => redo s).

(** The bytes from [n - 1] down to 0. *)
Fixpoint st_bytes (n : nat) (stb : Z -> Z -> vcpu M -> access M unit) (addr val : Z) (s : vcpu M) : access M unit :=
  match n with
  | O => Value tt s
  | S i => and_then (stb (u32 (addr + Z.of_nat i)) (u8 (val >> (Z.of_nat i * 8))) s) (fun _ s => st_bytes i stb addr val s)
  end.

Fixpoint slow_st (fuel : nat) (shift addr val mmu_idx retaddr : Z) (s : vcpu M) : access M unit :=
  match fuel with
  | O => OutOfFuel
  | S fuel =>
      st_pass shift addr val mmu_idx retaddr (slow_st fuel shift addr val mmu_idx retaddr)
        (st_bytes (Z.to_nat (1 << shift)) (fun a v => slow_st fuel 0 a v mmu_idx retaddr) addr val) s
  end.

Fixpoint st_mmu (fuel : nat) (shift addr val mmu_idx retaddr : Z) (s : vcpu M) : access M unit :=
  match fuel with
  | O => OutOfFuel
  | S fuel =>
      st_pass shift addr val mmu_idx retaddr (st_mmu fuel shift addr val mmu_idx retaddr)
        (slow_st fuel shift addr val mmu_idx retaddr) s
  end.

(** ** A refill is followed by a hit *)

Lemma shiftl1 k : 0 <= k -> 1 << k = 2 ^ k.
Proof. intros. now rewrite Z.shiftl_1_l. Qed.

(** A mapping is for the page of the address and grants the access. *)
Lemma fault_handler_maps addr kind mmu env m p env' m' : in_u 32 addr -> kind = 0 \/ kind = 1 \/ kind = 2 ->
  cpu_x86_handle_mmu_fault addr kind mmu env m = (Some p, env', m') ->
  env' = env /\ mp_vaddr p = addr .& TARGET_PAGE_MASK /\ grants kind (mp_prot p) = true /\ exists log, 12 <= log /\ mp_size p = 2 ^ log.
Proof.
  intros Ha Hk. destruct (tst (aget (cr env) 0) CR0_PG_MASK) eqn:PG.
  - destruct (handler_expected env addr kind mmu m Ha Hk PG) as (m1 & W). pose proof (translate_log env addr m) as TL. destruct (translate env addr m) as [c l|e a r log l]; cbn [expected] in W.
    + destruct W as [-> _]. discriminate.
    + destruct (permitted env kind (mmu =? MMU_USER_IDX) r) eqn:P; destruct W as [-> _]; [|discriminate]. intros [= <- <- <-]. cbn [mp_vaddr mp_prot mp_size].
      split; [done|]. split; [done|]. split; [|exists log; split; [specialize (TL _ _ _ _ _ eq_refl); lia|done]].
      revert P. unfold permitted, grants, granted. destruct Hk as [-> | [-> | ->]]; cbn [Z.eqb Pos.eqb negb orb andb]; rewrite ?andb_true_r;
        destruct (r_exec r), (may_write env (mmu =? MMU_USER_IDX) r), (Z.testbit e 6), (negb (mmu =? MMU_USER_IDX) || r_user r); cbn; done.
  - unfold cpu_x86_handle_mmu_fault. rewrite PG. cbn [negb]. intros [= <- <- <-]. unfold do_mapping. cbn [mp_vaddr mp_prot mp_size]. split; [done|].
    change (addr .& TARGET_PAGE_MASK) with (addr .& ~~ (2 ^ 12 - 1)) at 1. change (4096 - 1) with (2 ^ 12 - 1). rewrite page_in_large, u32_id by (lia || (apply in_u_land; [lia|exact Ha])).
    split; [done|]. split; [destruct Hk as [-> | [-> | ->]]; reflexivity|]. now exists 12.
Qed.

Lemma page_of_page v : v .& TARGET_PAGE_MASK .& TARGET_PAGE_MASK = v .& TARGET_PAGE_MASK.
Proof. now rewrite <- Z.land_assoc, Z.land_diag. Qed.

(** A refill raises a page fault or installs the entry the access needs. *)
Lemma tlb_fill_cases addr kind mmu retaddr s : in_u 32 addr -> kind = 0 \/ kind = 1 \/ kind = 2 -> mode_ok mmu -> shape (common s) ->
  (exists s', tlb_fill addr kind mmu retaddr s = Exception s')
  \/ exists s', tlb_fill addr kind mmu retaddr s = Value tt s' /\ shape (common s') /\ cpu_env s' = cpu_env s
      /\ hits addr (addr_of kind (tlb_entry mmu (tlb_index addr) (common s'))) = true.
Proof.
  intros Ha Hk Hm H. unfold tlb_fill. destruct (cpu_x86_handle_mmu_fault addr kind mmu (cpu_env s) (machine s)) as [[[p|] env] m] eqn:E; [right|left; eauto].
  destruct (fault_handler_maps _ _ _ _ _ _ _ _ Ha Hk E) as (-> & Ev & Hg & log & Hl & Es). rewrite Ev, Es.
  destruct (set_page_entries (addr .& TARGET_PAGE_MASK) (mp_paddr p) (mp_prot p) mmu log (common s) m (page_of_page addr) Hl H Hm) as (t' & -> & S' & _ & Ht).
  eexists. split; [reflexivity|]. split; [exact S'|]. split; [done|]. cbn [common]. rewrite (Ht mmu (tlb_index addr) Hm (tlb_index_range addr)).
  rewrite tlb_index_page, !Z.eqb_refl. cbn [andb]. rewrite new_hits by (apply page_of_page || reflexivity). exact Hg.
Qed.

(** An access ends: with a value, the cache still in shape, or by an exception. *)
Definition ended {A} (x : access M A) : Prop :=
  match x with Value _ s => shape (common s) | Exception _ => True | _ => False end.

Lemma ended_bind {A B} (x : access M A) (f : A -> vcpu M -> access M B) : ended x -> (forall a s, shape (common s) -> ended (f a s)) -> ended (and_then x f).
Proof. destruct x; cbn; auto. Qed.
End Access.

(** The I/O handlers keep the tables of the cache in shape; a store to the page
    tables leaves the memory map alone. *)
Class HostLaws (M : Type) `{!Board M} `{!PhysMem M} `{!Host M} := {
  io_read_shape : forall i k a (s : vcpu M), shape (common s) -> shape (common (io_mem_read i k a s).2);
  io_write_shape : forall i k a v (s : vcpu M), shape (common s) -> shape (common (io_mem_write i k a v s));
  find_stable : forall i a v (m : M), phys_page_find i (stl_phys_notdirty a v m) = phys_page_find i m;
  ram_stable : forall o a v (m : M), qemu_get_ram_ptr o (stl_phys_notdirty a v m) = qemu_get_ram_ptr o m
}.

Section Ends.
Context {M : Type} {HW : HostWidth} `{!Board M} `{!PhysMem M} `{!Host M} `{!HostLaws M}.
Implicit Types (s : vcpu M).

Lemma io_read_ended shift pa addr ra s : shape (common s) -> shape (common (io_read shift pa addr ra s).2).
Proof.
  intros H. assert (shape (common (set_io addr ra s))) as H0 by now apply (shape_table (common s)). unfold io_read.
  set (s0 := set_io addr ra s) in *. clearbody s0. set (i := (pa >> IO_MEM_SHIFT) .& (IO_MEM_NB_ENTRIES - 1)). destruct (shift <=? 2).
  - pose proof (io_read_shape i shift (u64 ((pa .& TARGET_PAGE_MASK) + addr)) s0 H0) as H1. now destruct (io_mem_read i shift _ s0).
  - pose proof (io_read_shape i 2 (u64 ((pa .& TARGET_PAGE_MASK) + addr)) s0 H0) as H1. destruct (io_mem_read i 2 _ s0) as [lo s1]. cbn [snd] in H1.
    pose proof (io_read_shape i 2 (u64 (u64 ((pa .& TARGET_PAGE_MASK) + addr) + 4)) s1 H1) as H2. now destruct (io_mem_read i 2 _ s1).
Qed.

Lemma io_write_ended shift pa v addr ra s : shape (common s) -> shape (common (io_write shift pa v addr ra s)).
Proof.
  intros H. assert (shape (common (set_io addr ra s))) as H0 by now apply (shape_table (common s)). unfold io_write.
  destruct (shift <=? 2); repeat apply io_write_shape; exact H0.
Qed.

Lemma aligned_fits shift addr : 0 <= shift <= 3 -> truthy (addr .& (2 ^ shift - 1)) = false -> (TARGET_PAGE_SIZE <=? (addr .& ~~ TARGET_PAGE_MASK) + 2 ^ shift - 1) = false.
Proof.
  intros Hs Ha. apply Z.leb_gt. change TARGET_PAGE_SIZE with (2 ^ 12). change (~~ TARGET_PAGE_MASK) with (Z.ones 12).
  apply negb_false_iff, Z.eqb_eq in Ha. rewrite ones_pred, Z.land_ones in Ha by lia. rewrite Z.land_ones by lia.
  pose proof (Z.mod_pos_bound addr (2 ^ 12) ltac:(lia)). assert ((addr mod 2 ^ 12) mod 2 ^ shift = 0) as X.
  { rewrite Z.mod_mod_divide; [exact Ha|]. exists (2 ^ (12 - shift)). rewrite <- Z.pow_add_r by lia. f_equal. lia. }
  assert (shift = 0 \/ shift = 1 \/ shift = 2 \/ shift = 3) as [-> | [-> | [-> | ->]]] by lia; change (2 ^ 12) with 4096 in *; cbn in X |- *;
    change (Z.pow_pos 2 1) with 2 in *; change (Z.pow_pos 2 2) with 4 in *; change (Z.pow_pos 2 3) with 8 in *; Z.div_mod_to_equations; lia.
Qed.

(** One pass of a load, by what it may have to do. *)
Lemma ld_pass_ended shift kind addr mmu ra redo across s : 0 <= shift <= 3 -> in_u 32 addr -> kind = 0 \/ kind = 2 -> mode_ok mmu -> shape (common s) ->
  (forall s, shape (common s) -> truthy (addr .& (2 ^ shift - 1)) = true -> ended (across s)) ->
  (hits addr (addr_of kind (tlb_entry mmu (tlb_index addr) (common s))) = false -> forall s',
     shape (common s') -> hits addr (addr_of kind (tlb_entry mmu (tlb_index addr) (common s'))) = true -> ended (redo s')) ->
  ended (ld_pass shift kind addr mmu ra redo across s).
Proof.
  intros Hs Ha Hk Hm H HA HR. unfold ld_pass. cbv zeta. rewrite shiftl1 by lia.
  destruct (hits addr _) eqn:X.
  - destruct (truthy (addr .& (2 ^ shift - 1))) eqn:U.
    + repeat match goal with |- context [if ?b then _ else _] => destruct b end; auto.
    + rewrite (aligned_fits shift addr Hs U). destruct (tst _ _); [|exact H].
      pose proof (io_read_ended shift (iotlb_of mmu (tlb_index addr) (common s)) addr ra s H) as E. now destruct (io_read _ _ _ _ s).
  - destruct (tlb_fill_cases addr kind mmu ra s Ha ltac:(tauto) Hm H) as [(s' & ->)|(s' & -> & S' & _ & X')]; [exact I|]. cbn [and_then]. now apply HR.
Qed.

Lemma st_pass_ended shift addr v mmu ra redo across s : 0 <= shift <= 3 -> in_u 32 addr -> mode_ok mmu -> shape (common s) ->
  (forall s, shape (common s) -> truthy (addr .& (2 ^ shift - 1)) = true -> ended (across s)) ->
  (hits addr (addr_write (tlb_entry mmu (tlb_index addr) (common s))) = false -> forall s',
     shape (common s') -> hits addr (addr_write (tlb_entry mmu (tlb_index addr) (common s'))) = true -> ended (redo s')) ->
  ended (st_pass shift addr v mmu ra redo across s).
Proof.
  intros Hs Ha Hm H HA HR. unfold st_pass. cbv zeta. rewrite shiftl1 by lia.
  destruct (hits addr _) eqn:X.
  - destruct (truthy (addr .& (2 ^ shift - 1))) eqn:U.
    + repeat match goal with |- context [if ?b then _ else _] => destruct b end; auto.
    + rewrite (aligned_fits shift addr Hs U). destruct (tst _ _); [|exact H]. now apply io_write_ended.
  - destruct (tlb_fill_cases addr 1 mmu ra s Ha ltac:(tauto) Hm H) as [(s' & ->)|(s' & -> & S' & _ & X')]; [exact I|]. cbn [and_then]. now apply HR.
Qed.

Lemma aligned_down addr k : 0 <= k -> truthy (addr .& ~~ (2 ^ k - 1) .& (2 ^ k - 1)) = false.
Proof.
  intros Hk. rewrite ones_pred, <- Z.land_assoc by done. assert (~~ Z.ones k .& Z.ones k = 0) as ->; [|now rewrite Z.land_0_r].
  apply Z.bits_inj'. intros n Hn. rewrite Z.land_spec, lnot_spec', Z.bits_0 by done. now destruct (Z.testbit _ n).
Qed.

Lemma aligned_next addr k : 0 <= k <= 32 -> truthy (u32 (addr .& ~~ (2 ^ k - 1) + 2 ^ k) .& (2 ^ k - 1)) = false.
Proof.
  intros Hk. pose proof (aligned_down addr k ltac:(lia)) as H. apply negb_false_iff, Z.eqb_eq in H. apply negb_false_iff, Z.eqb_eq.
  rewrite ones_pred, Z.land_ones in * by lia. assert (0 < 2 ^ k) by (apply Z.pow_pos_nonneg; lia). unfold u32. change 4294967296 with (2 ^ 32).
  rewrite Z.mod_mod_divide by (exists (2 ^ (32 - k)); rewrite <- Z.pow_add_r by lia; f_equal; lia).
  rewrite Z.add_mod, H, Z.mod_same by lia. now apply Z.mod_0_l; lia.
Qed.

Lemma down_range addr k : in_u 32 addr -> in_u 32 (addr .& ~~ (2 ^ k - 1)).
Proof. intros H. now apply in_u_land. Qed.

Section Loads.
Context (kind mmu ra : Z) (Hk : kind = 0 \/ kind = 2) (Hm : mode_ok mmu).

Definition in_cache (addr : Z) s : Prop := hits addr (addr_of kind (tlb_entry mmu (tlb_index addr) (common s))) = true.

Lemma slow_ld_hit n shift addr s : 0 <= shift <= 3 -> in_u 32 addr -> shape (common s) -> truthy (addr .& (2 ^ shift - 1)) = false -> in_cache addr s ->
  ended (slow_ld (S n) shift kind addr mmu ra s).
Proof.
  intros Hs Ha H U X. cbn [slow_ld]. apply ld_pass_ended; try assumption; [congruence|unfold in_cache in X; congruence].
Qed.

Lemma slow_ld_aligned n shift addr s : 0 <= shift <= 3 -> in_u 32 addr -> shape (common s) -> truthy (addr .& (2 ^ shift - 1)) = false ->
  ended (slow_ld (S (S n)) shift kind addr mmu ra s).
Proof.
  intros Hs Ha H U. cbn [slow_ld]. apply ld_pass_ended; try assumption; [congruence|]. intros _ s' H' X. now apply slow_ld_hit.
Qed.

Lemma slow_ld_cached n shift addr s : 0 <= shift <= 3 -> in_u 32 addr -> shape (common s) -> in_cache addr s -> ended (slow_ld (S (S (S n))) shift kind addr mmu ra s).
Proof.
  intros Hs Ha H X. remember (S (S n)) as f. cbn [slow_ld]. apply ld_pass_ended; try assumption; [|unfold in_cache in X; congruence].
  intros s1 H1 _. rewrite shiftl1 by lia. subst f. apply ended_bind; [apply slow_ld_aligned; auto using down_range, aligned_down with lia; apply aligned_down; lia|].
  intros r1 s2 H2. apply ended_bind; [apply slow_ld_aligned; auto; [apply u32_range|apply aligned_next; lia]|]. intros r2 s3 H3. exact H3.
Qed.

Lemma slow_ld_ended n shift addr s : 0 <= shift <= 3 -> in_u 32 addr -> shape (common s) -> ended (slow_ld (4 + n) shift kind addr mmu ra s).
Proof.
  intros Hs Ha H. change (4 + n)%nat with (S (3 + n)). cbn [slow_ld]. apply ld_pass_ended; try assumption; [|intros _ s' H' X; now apply slow_ld_cached].
  intros s1 H1 _. rewrite shiftl1 by lia. apply ended_bind; [apply slow_ld_aligned; auto using down_range; apply aligned_down; lia|].
  intros r1 s2 H2. apply ended_bind; [apply slow_ld_aligned; auto; [apply u32_range|apply aligned_next; lia]|]. intros r2 s3 H3. exact H3.
Qed.

Lemma ld_mmu_ended n shift addr s : 0 <= shift <= 3 -> in_u 32 addr -> shape (common s) -> ended (ld_mmu (6 + n) shift kind addr mmu ra s).
Proof.
  intros Hs Ha H. change (6 + n)%nat with (S (5 + n)). cbn [ld_mmu]. apply ld_pass_ended; try assumption.
  - intros s1 H1 _. exact (slow_ld_ended (1 + n) shift addr s1 Hs Ha H1).
  - intros _ s' H' X. change (5 + n)%nat with (S (4 + n)). cbn [ld_mmu]. apply ld_pass_ended; try assumption; [|congruence].
    intros s1 H1 _. exact (slow_ld_ended n shift addr s1 Hs Ha H1).
Qed.
End Loads.

Section Stores.
Context (mmu ra : Z) (Hm : mode_ok mmu).

Lemma slow_stb_ended n addr v s : in_u 32 addr -> shape (common s) -> ended (slow_st (S (S n)) 0 addr v mmu ra s).
Proof.
  intros Ha H. assert (truthy (addr .& (2 ^ 0 - 1)) = false) as U by (change (2 ^ 0 - 1) with 0; now rewrite Z.land_0_r).
  cbn [slow_st]. apply st_pass_ended; try assumption; [lia|congruence|]. intros _ s' H' X.
  cbn [slow_st]. apply st_pass_ended; try assumption; [lia|congruence|congruence].
Qed.

Lemma st_bytes_ended f addr v n s : shape (common s) -> (forall a b s, in_u 32 a -> shape (common s) -> ended (f a b s)) -> ended (st_bytes n f addr v s).
Proof.
  intros H Hf. revert s H. induction n as [|n IH]; intros s H; cbn [st_bytes]; [exact H|]. apply ended_bind; [apply Hf; [apply u32_range|exact H]|]. intros _ s' H'. now apply IH.
Qed.

Lemma slow_st_ended n shift addr v s : 0 <= shift <= 3 -> in_u 32 addr -> shape (common s) -> ended (slow_st (4 + n) shift addr v mmu ra s).
Proof.
  intros Hs Ha H. change (4 + n)%nat with (S (S (S (S n)))). cbn [slow_st]. apply st_pass_ended; try assumption.
  - intros s1 H1 _. apply st_bytes_ended; [exact H1|]. intros a b s2 Hb H2. now apply (slow_stb_ended (S n)).
  - intros _ s' H' X. cbn [slow_st]. apply st_pass_ended; try assumption; [|congruence]. intros s1 H1 _. apply st_bytes_ended; [exact H1|].
    intros a b s2 Hb H2. now apply (slow_stb_ended n).
Qed.

Lemma st_mmu_ended n shift addr v s : 0 <= shift <= 3 -> in_u 32 addr -> shape (common s) -> ended (st_mmu (6 + n) shift addr v mmu ra s).
Proof.
  intros Hs Ha H. change (6 + n)%nat with (S (5 + n)). cbn [st_mmu]. apply st_pass_ended; try assumption.
  - intros s1 H1 _. exact (slow_st_ended (1 + n) shift addr v s1 Hs Ha H1).
  - intros _ s' H' X. change (5 + n)%nat with (S (4 + n)). cbn [st_mmu]. apply st_pass_ended; try assumption; [|congruence].
    intros s1 H1 _. exact (slow_st_ended n shift addr v s1 Hs Ha H1).
Qed.
End Stores.

(** C28: Every guest access ends: a load, an instruction fetch or a store of any
    width at any address, from any state of the CPU, the page tables and the
    cache, comes to a value or to a guest exception, within six passes through
    the lookup however many pages it touches; after a refill the lookup hits, so
    the retry loops do not run away. *)
Theorem softmmu_access_ends n shift addr v mmu ra s : 0 <= shift <= 3 -> in_u 32 addr -> mode_ok mmu -> shape (common s) ->
  ended (ld_mmu (6 + n) shift 0 addr mmu ra s) /\ ended (ld_mmu (6 + n) shift 2 addr mmu ra s) /\ ended (st_mmu (6 + n) shift addr v mmu ra s).
Proof.
  intros Hs Ha Hm H. split; [apply ld_mmu_ended; auto|]. split; [apply ld_mmu_ended; auto|now apply st_mmu_ended].
Qed.
End Ends.
End SoftMmu.
