(* ===== verification/SoftView.v ===== *)
(** * What guest code sees through the cache

    A cache that agrees with the page tables stays so over loads and instruction
    fetches, and every one of them reads the page the tables name, or faults. *)

From S2P Require Import Prelude X86Cpu X86Trans X86Alu X86Seg SoftTlb X86Mmu X86Walk SoftMmu.

Module SoftView.
Import X86 X86Trans X86Alu SoftTlb X86Mmu X86Walk SoftMmu.
Import X86Seg(CR0_PE_MASK, CR0_PG_MASK).
#[local] Existing Instances X86.SegmentCache_eta X86.CPUX86State_eta SoftTlb.cpu_common_eta.

(** ** Marks do not change a translation *)

Section Marks.
Context {M : Type} `{!PhysMem M}.

Definition entry_align (env : CPUX86State) : Z := if tst (aget (cr env) 4) CR4_PAE_MASK then 7 else 3.

(** Marks of entries that are as wide as the mode's. *)
Definition marks_ok (env : CPUX86State) (l : list (Z * Z)) : Prop := forall x, In x l -> x.1 .& entry_align env = 0 /\ is_mark x.2.

Lemma mark_lor x y : is_mark x -> is_mark y -> is_mark (x .| y).
Proof. intros [-> | [-> | ->]] [-> | [-> | ->]]; unfold is_mark; vm_compute; auto. Qed.

Lemma marks_fold l b v : (forall x, In x l -> is_mark x.2) -> exists y, is_mark y /\ fold_left (fun v x => if b =? x.1 then v .| x.2 else v) l v = v .| y.
Proof.
  revert v. induction l as [|x l IH]; intros v Hl; [exists 0; rewrite Z.lor_0_r; split; [now left|done]|]. cbn [fold_left].
  assert (is_mark x.2) as Hx by (apply Hl; now left). assert (forall z, In z l -> is_mark z.2) as Hl' by (intros; apply Hl; now right).
  destruct (b =? x.1); [|now apply IH]. destruct (IH (v .| x.2) Hl') as (y & Hy & ->). exists (x.2 .| y). split; [now apply mark_lor|]. now rewrite Z.lor_assoc.
Qed.

Lemma ldl_marks l m m' b : marked l m m' -> (forall x, In x l -> is_mark x.2) -> b .& 3 = 0 -> exists y, is_mark y /\ ldl_phys b m' = ldl_phys b m .| y.
Proof. intros H Hl Hb. rewrite (H b Hb). now apply marks_fold. Qed.

Lemma ldq_marks l m m' b : marked l m m' -> (forall x, In x l -> x.1 .& 7 = 0 /\ is_mark x.2) -> b .& 7 = 0 -> exists y, is_mark y /\ ldq_phys b m' = ldq_phys b m .| y.
Proof.
  intros H Hl Hb. destruct (ldl_marks l m m' b H (fun x Hx => proj2 (Hl x Hx)) (land_3_of_7 _ Hb)) as (y & Hy & E). exists y. split; [exact Hy|].
  rewrite !ldq_halves, E. assert (b mod 8 = 0) as B by now rewrite <- land_7.
  assert (ldl_phys (b + 4) m' = ldl_phys (b + 4) m) as ->; [|now rewrite <- !Z.lor_assoc, (Z.lor_comm y)].
  rewrite (H (b + 4)) by (rewrite (land_ones_mod (b + 4) 2) by (done || lia); change (2 ^ 2) with 4; Z.div_mod_to_equations; lia).
  assert (forall l v, (forall x, In x l -> x.1 .& 7 = 0) -> fold_left (fun v x => if b + 4 =? x.1 then v .| x.2 else v) l v = v) as F; [|now apply F; apply Hl].
  clear - B. induction l as [|x l IH]; intros v Hl; [done|]. cbn [fold_left]. assert (x.1 mod 8 = 0) by (rewrite <- land_7; apply Hl; now left).
  rewrite (proj2 (Z.eqb_neq _ _)) by (Z.div_mod_to_equations; lia). apply IH. intros; apply Hl; now right.
Qed.

Definition same_lookup (o o' : lookup) : Prop :=
  match o, o' with
  | Missing c l, Missing c' l' => c = c' /\ l = l'
  | Leaf e a r log l, Leaf e' a' r' log' l' => frame_of e' = frame_of e /\ a = a' /\ r = r' /\ log = log' /\ l = l'
  | _, _ => False
  end.

(** A level reads the same entry up to marks. *)
Definition level_stable (m m' : M) (l : level) : Prop :=
  (forall table, table mod 32 = 0 -> exists x, is_mark x /\ lv_load l (lv_slot l table) m' = lv_load l (lv_slot l table) m .| x)
  /\ forall e x, is_mark x -> lv_leaf l (e .| x) = lv_leaf l e.

Lemma radix_marked nx ls table r passed m m' : table mod 32 = 0 -> Forall (level_stable m m') ls -> same_lookup (radix nx ls table r passed m) (radix nx ls table r passed m').
Proof.
  intros Ht H. revert table r passed Ht. induction ls as [|l ls IH]; intros table r passed Ht; [now split|]. inversion H as [|? ? [H1 H2] H3]; subst.
  cbn [radix]. destruct (H1 table Ht) as (x & Hx & ->). rewrite !mark_bit by (done || lia). rewrite H2, (mark_frame _ _ Hx), (restrict_mark _ _ _ Hx) by done.
  set (e := lv_load l _ m). destruct (negb (Z.testbit e 0)); [now split|]. destruct (lv_full l && negb nx && Z.testbit e 63); [now split|].
  destruct (lv_leaf l e) as [log|]; [cbn [same_lookup]; now rewrite (mark_frame _ _ Hx)|]. apply IH; [exact H3|]. apply (mod_pow_le _ 12 5); [lia|apply frame_aligned].
Qed.

Lemma translate_marked env addr l m m' : marked l m m' -> marks_ok env l -> same_lookup (translate env addr m) (translate env addr m').
Proof.
  intros H Hl. unfold translate, levels, marks_ok, entry_align in *. destruct (tst (aget (cr env) 4) CR4_PAE_MASK).
  - apply radix_marked; [exact (root_aligned _ 5 ltac:(lia))|]. repeat constructor; cbn [lv_slot lv_load lv_leaf]; try done;
      try (intros table Ht; apply (ldq_marks l); [exact H|exact Hl|apply (aligned_slot 3); [lia|exact (mod_pow_le _ 5 3 ltac:(lia) Ht)|done]]).
    intros e x Hx. now rewrite mark_bit by (done || lia).
  - apply radix_marked; [exact (mod_pow_le _ 12 5 ltac:(lia) (root_aligned _ 12 ltac:(lia)))|]. repeat constructor; cbn [lv_slot lv_load lv_leaf]; try done;
      try (intros table Ht; apply (ldl_marks l); [exact H|intros x Hx; now apply Hl|apply (aligned_slot 2); [lia|exact (mod_pow_le _ 5 2 ltac:(lia) Ht)|done]]).
    intros e x Hx. now rewrite mark_bit by (done || lia).
Qed.

(** Where the walk leaves its marks. *)
Definition lookup_aligned (k : Z) (o : lookup) : Prop :=
  match o with
  | Missing _ l => forall a, In a l -> a .& k = 0
  | Leaf _ b _ _ l => b .& k = 0 /\ forall a, In a l -> a .& k = 0
  end.

Lemma radix_aligned k nx ls table r passed (m : M) : table mod 32 = 0 -> (forall a, In a passed -> a .& k = 0) ->
  (forall l t, In l ls -> t mod 32 = 0 -> lv_slot l t .& k = 0) -> lookup_aligned k (radix nx ls table r passed m).
Proof.
  revert table r passed. induction ls as [|l ls IH]; intros table r passed Ht Hp Hl; [exact Hp|]. cbn [radix].
  assert (lv_slot l table .& k = 0) as Ha by (apply Hl; [now left|done]). destruct (negb _); [exact Hp|]. destruct (_ && _); [exact Hp|].
  destruct (lv_leaf l _); [now split|]. apply IH; [apply (mod_pow_le _ 12 5); [lia|apply frame_aligned]| |intros; apply Hl; [now right|done]].
  destruct (lv_full l); [|exact Hp]. intros a [Hi | [<- | []]]%in_app_iff; auto.
Qed.

Lemma expected_marks_ok env addr kind user (m : M) : marks_ok env (expected env addr kind user (translate env addr m)).2.
Proof.
  assert (lookup_aligned (entry_align env) (translate env addr m)) as A.
  { unfold translate, levels, entry_align. destruct (tst (aget (cr env) 4) CR4_PAE_MASK); apply radix_aligned; try (now intros a []);
      [exact (root_aligned _ 5 ltac:(lia))| |exact (mod_pow_le _ 12 5 ltac:(lia) (root_aligned _ 12 ltac:(lia)))|];
      intros l t Hl Ht; cbn [In] in Hl; [destruct Hl as [<- | [<- | [<- | []]]]|destruct Hl as [<- | [<- | []]]];
      first [apply (aligned_slot 3); [lia|exact (mod_pow_le _ 5 3 ltac:(lia) Ht)|done]|apply (aligned_slot 2); [lia|exact (mod_pow_le _ 5 2 ltac:(lia) Ht)|done]]. }
  assert (forall l, (forall a, In a l -> a .& entry_align env = 0) -> marks_ok env (accessed l)) as P.
  { intros l Hl x Hx. unfold accessed in Hx. apply in_map_iff in Hx. destruct Hx as (a & <- & Ha). split; [now apply Hl|right; now left]. }
  destruct (translate env addr m) as [c l|e a r log l]; cbn [expected lookup_aligned] in *; [now apply P|]. destruct A as [A1 A2].
  destruct (permitted env kind user r); cbn [snd]; [|now apply P]. intros x [Hx | [<- | []]]%in_app_iff; [now apply (P l A2)|]. split; [exact A1|apply used_mark].
Qed.
End Marks.

(** ** The reference view of memory *)

Section View.
Context {M : Type} {HW : HostWidth} `{!Board M} `{!PhysMem M} `{!Host M} `{!HostLaws M}.
Implicit Types (s : vcpu M) (m : M).

(** The physical address of the page of [addr], if the access is allowed. *)
Definition phys (addr kind mmu : Z) (env : CPUX86State) (m : M) : option Z :=
  if tst (aget (cr env) 0) CR0_PG_MASK then
    match translate env addr m with
    | Leaf e _ r log _ => if permitted env kind (mmu =? MMU_USER_IDX) r then Some (page_address env addr e log) else None
    | Missing _ _ => None
    end
  else Some (addr .& TARGET_PAGE_MASK .& a20_mask env).

(** The board's page at a physical address: what backs it, and whether it is
    memory to a load. *)
Definition backing (pa : Z) (m : M) : Z := page_pd (phys_page_find (pa >> TARGET_PAGE_BITS) m).
Definition is_io (pa : Z) (m : M) : bool := (IO_MEM_ROM <? backing pa m .& ~~ TARGET_PAGE_MASK) && negb (tst (backing pa m) IO_MEM_ROMD).
Definition host_page (pa : Z) (m : M) : Z := ulong (qemu_get_ram_ptr (backing pa m .& TARGET_PAGE_MASK) m).
Definition host_address (pa addr : Z) (m : M) : Z := ulong (host_page pa m + (addr .& ~~ TARGET_PAGE_MASK)).

(** An entry says for [addr] what the board and the tables say. *)
Definition entry_tells (pa addr kind : Z) (e : CPUTLBEntry) (m : M) : Prop :=
  addr_of kind e = (if is_io pa m then addr .& TARGET_PAGE_MASK .| TLB_MMIO else addr .& TARGET_PAGE_MASK)
  /\ addend e = ulong (host_page pa m - (addr .& TARGET_PAGE_MASK)).

Record coherent (s : vcpu M) : Prop := {
  co_shape : shape (common s);
  co_watch : watchpoints (common s) = [];
  co_entries : forall mmu kind addr, mode_ok mmu -> kind = 0 \/ kind = 2 -> in_u 32 addr ->
    hits addr (addr_of kind (tlb_entry mmu (tlb_index addr) (common s))) = true ->
    exists pa, phys addr kind mmu (cpu_env s) (machine s) = Some pa /\ entry_tells pa addr kind (tlb_entry mmu (tlb_index addr) (common s)) (machine s)
}.

(** *** Stability *)

Lemma handler_keeps {B} (f : M -> B) addr kind mmu env m : (forall a v m, f (stl_phys_notdirty a v m) = f m) -> f (cpu_x86_handle_mmu_fault addr kind mmu env m).2 = f m.
Proof.
  intros Hf. assert (forall a e m, f (set_accessed a e m).2 = f m) as HA by (intros; unfold set_accessed; destruct (negb _); cbn [snd]; auto).
  assert (forall a e w m, f (set_used a e w m).2 = f m) as HU by (intros; unfold set_used; destruct (_ || _); cbn [snd]; auto).
  unfold cpu_x86_handle_mmu_fault. destruct (negb _); [done|].
  assert (forall (x : walk * M), f x.2 = f m -> f (let '(w, m0) := x in match w with
      | do_fault error_code => (None, raise_page_fault env addr error_code kind (mmu =? MMU_USER_IDX) (truthy (kind .& 1)), m0)
      | do_map pte ptep virt_addr page_size => (Some (do_mapping env addr pte (tlb_prot env pte ptep (mmu =? MMU_USER_IDX)) virt_addr page_size), env, m0)
      end).2 = f m) as W by (intros [[|] ?]; auto).
  apply W. clear W. destruct (tst (aget (cr env) 4) CR4_PAE_MASK); unfold walk_pae, walk_32; cbv zeta;
    repeat first [ match goal with
      | |- context [let '(_, _) := set_accessed ?a ?e ?x in _] => let E := fresh in pose proof (HA a e x) as E; destruct (set_accessed a e x); cbn [snd] in E
      | |- context [let '(_, _) := set_used ?a ?e ?w ?x in _] => let E := fresh in pose proof (HU a e w x) as E; destruct (set_used a e w x); cbn [snd] in E
      | |- context [if ?b then _ else _] => destruct b end ]; cbn [snd]; congruence.
Qed.

Lemma phys_stable addr kind mmu env l m m' : marked l m m' -> marks_ok env l -> phys addr kind mmu env m' = phys addr kind mmu env m.
Proof.
  intros H Hl. unfold phys. destruct (tst (aget (cr env) 0) CR0_PG_MASK); [|done]. pose proof (translate_marked env addr l m m' H Hl) as S. unfold same_lookup in S.
  destruct (translate env addr m), (translate env addr m'); try done. destruct S as (F & -> & -> & -> & ->). destruct (permitted _ _ _ _); [|done]. unfold page_address. now rewrite F.
Qed.

Definition board_same (m m' : M) : Prop := (forall i, phys_page_find i m' = phys_page_find i m) /\ forall o, qemu_get_ram_ptr o m' = qemu_get_ram_ptr o m.

Lemma tells_stable pa addr kind e m m' : board_same m m' -> entry_tells pa addr kind e m -> entry_tells pa addr kind e m'.
Proof. intros [B1 B2]. unfold entry_tells, is_io, host_page, backing. now rewrite B1, B2. Qed.

Lemma handler_board addr kind mmu env m : board_same m (cpu_x86_handle_mmu_fault addr kind mmu env m).2.
Proof. split; intros; [apply (handler_keeps (phys_page_find i)); intros; apply find_stable|apply (handler_keeps (qemu_get_ram_ptr o)); intros; apply ram_stable]. Qed.

(** Translation is by pages. *)
Lemma shift_page addr lo : 12 <= lo -> (addr .& TARGET_PAGE_MASK) >> lo = addr >> lo.
Proof.
  intros Hl. apply Z.bits_inj'. intros n Hn. rewrite !Z.shiftr_spec, page_of_bits by lia. destruct (Z.leb_spec 12 (n + lo)); [apply andb_true_r|lia].
Qed.

Lemma translate_page env addr m : translate env (addr .& TARGET_PAGE_MASK) m = translate env addr m.
Proof. unfold translate, levels, slot. now rewrite !shift_page by lia. Qed.

Lemma phys_page addr addr' kind mmu env m : addr .& TARGET_PAGE_MASK = addr' .& TARGET_PAGE_MASK -> phys addr kind mmu env m = phys addr' kind mmu env m.
Proof.
  intros E. unfold phys, page_address. now rewrite <- (translate_page env addr), <- (translate_page env addr'), E.
Qed.

(** *** A refill *)

(** The error code of an access that is not allowed. *)
Definition fault (addr kind mmu : Z) (env : CPUX86State) (m : M) : Z :=
  match translate env addr m with
  | Missing code _ => fault_code env code kind (mmu =? MMU_USER_IDX)
  | Leaf _ _ _ _ _ => fault_code env PG_ERROR_P_MASK kind (mmu =? MMU_USER_IDX)
  end.

Definition same_view (env : CPUX86State) (m m' : M) : Prop :=
  (forall addr kind mmu, phys addr kind mmu env m' = phys addr kind mmu env m) /\ board_same m m'.

Lemma handler_view addr kind mmu env m : in_u 32 addr -> kind = 0 \/ kind = 2 ->
  exists m', same_view env m m' /\
  match phys addr kind mmu env m with
  | Some pa => exists prot log, 12 <= log /\ grants kind prot = true
      /\ cpu_x86_handle_mmu_fault addr kind mmu env m = (Some (mkMapping (addr .& TARGET_PAGE_MASK) pa prot (2 ^ log)), env, m')
      /\ forall kind', kind' = 0 \/ kind' = 2 -> grants kind' prot = true -> phys addr kind' mmu env m = Some pa
  | None => cpu_x86_handle_mmu_fault addr kind mmu env m = (None, page_fault addr (fault addr kind mmu env m) env, m')
  end.
Proof.
  intros Ha Hk. pose proof (handler_board addr kind mmu env m) as B. unfold phys at 1. destruct (tst (aget (cr env) 0) CR0_PG_MASK) eqn:PG.
  - destruct (handler_expected env addr kind mmu m Ha ltac:(tauto) PG) as (m' & W). pose proof (expected_marks_ok env addr kind (mmu =? MMU_USER_IDX) m) as MO.
    destruct (expected _ _ _ _ _) as [[ret env'] marks] eqn:X. cbn [snd] in MO. destruct W as [E W]. rewrite E in B. exists m'. split; [split; [intros; now apply (phys_stable _ _ _ _ marks)|exact B]|].
    revert X. pose proof (translate_log env addr m) as TL. unfold fault. destruct (translate env addr m) as [c l|e a r log l] eqn:T; cbn [expected].
    + intros [= <- <- _]. exact E.
    + destruct (permitted env kind _ r) eqn:P; intros [= <- <- _]; [|exact E]. eexists _, log. split; [specialize (TL _ _ _ _ _ eq_refl); lia|].
      split; [|split; [exact E|]].
      * revert P. unfold permitted, grants, granted. destruct Hk as [-> | ->]; cbn [Z.eqb Pos.eqb negb orb andb]; rewrite ?andb_true_r;
          destruct (r_exec r), (may_write env (mmu =? MMU_USER_IDX) r), (Z.testbit e 6), (negb (mmu =? MMU_USER_IDX) || r_user r); cbn; done.
      * intros kind' Hk' G. unfold phys. rewrite PG, T. assert (permitted env kind' (mmu =? MMU_USER_IDX) r = true) as ->; [|done]. revert P G. unfold permitted, grants, granted.
        destruct Hk as [-> | ->], Hk' as [-> | ->]; cbn [Z.eqb Pos.eqb negb orb andb]; rewrite ?andb_true_r;
          destruct (r_exec r), (may_write env (mmu =? MMU_USER_IDX) r), (Z.testbit e 6), (negb (mmu =? MMU_USER_IDX) || r_user r); cbn; done.
  - exists m. split; [now split|]. exists (PAGE_READ .| PAGE_WRITE .| PAGE_EXEC), 12. split; [lia|]. split; [destruct Hk as [-> | ->]; reflexivity|]. split; [|intros; unfold phys; now rewrite PG].
    unfold cpu_x86_handle_mmu_fault. rewrite PG. cbn [negb]. unfold do_mapping. change (4096 - 1) with (2 ^ 12 - 1).
    assert (addr .& TARGET_PAGE_MASK .& (2 ^ 12 - 1) = 0) as -> by (rewrite <- Z.land_assoc; change (TARGET_PAGE_MASK .& (2 ^ 12 - 1)) with 0; apply Z.land_0_r).
    rewrite !Z.add_0_r, u32_id by (apply in_u_land; [lia|exact Ha]). do 4 f_equal. now rewrite <- !Z.land_assoc, (Z.land_comm (a20_mask env)).
Qed.

Lemma fill_view addr kind mmu ra s : in_u 32 addr -> kind = 0 \/ kind = 2 -> mode_ok mmu -> coherent s ->
  match phys addr kind mmu (cpu_env s) (machine s) with
  | Some pa => exists s', tlb_fill addr kind mmu ra s = Value tt s' /\ coherent s' /\ cpu_env s' = cpu_env s /\ same_view (cpu_env s) (machine s) (machine s')
      /\ hits addr (addr_of kind (tlb_entry mmu (tlb_index addr) (common s'))) = true
  | None => exists m', tlb_fill addr kind mmu ra s =
      Exception (leave_by_fault ra (mkVcpu (page_fault addr (fault addr kind mmu (cpu_env s) (machine s)) (cpu_env s)) (common s) m'))
  end.
Proof.
  intros Ha Hk Hm [C1 C2 C3]. unfold tlb_fill. destruct (handler_view addr kind mmu (cpu_env s) (machine s) Ha Hk) as (m' & V & W).
  destruct (phys addr kind mmu (cpu_env s) (machine s)) as [pa|] eqn:P; [|exists m'; now rewrite W]. destruct W as (prot & log & Hl & G & -> & K). cbn [mp_vaddr mp_paddr mp_prot mp_size].
  destruct (set_page_entries (addr .& TARGET_PAGE_MASK) pa prot mmu log (common s) m' (page_of_page addr) Hl C1 Hm) as (t' & -> & S' & W' & Ht). eexists. split; [reflexivity|].
  cbn [cpu_env common machine]. split; [|split; [done|split; [exact V|]]].
  - split; cbn [cpu_env common machine]; [exact S'|congruence|]. intros mmu' kind' v Hm' Hk' Hv. rewrite (Ht mmu' (tlb_index v) Hm' (tlb_index_range v)), C2. rewrite (proj1 V). cbn [watched existsb].
    destruct ((mmu =? mmu') && _) eqn:D.
    + intros H. apply andb_prop in D. destruct D as [->%Z.eqb_eq _].
      assert (v .& TARGET_PAGE_MASK = addr .& TARGET_PAGE_MASK) as E.
      { apply (valid_new _ false (page_pd (phys_page_find (pa >> TARGET_PAGE_BITS) m')) prot (ulong (qemu_get_ram_ptr (page_pd (phys_page_find (pa >> TARGET_PAGE_BITS) m') .& TARGET_PAGE_MASK) m')) v m' (page_of_page addr)). cbn zeta iota. unfold valid. destruct Hk' as [-> | ->]; cbn [addr_of Z.eqb Pos.eqb] in H; rewrite H; now rewrite ?orb_true_r. }
      pose proof H as H0. rewrite (new_hits _ false _ _ _ v kind' m' (page_of_page addr) E) in H0. exists pa. split; [rewrite (phys_page v addr) by exact E; now apply K|].
      unfold entry_tells, is_io, host_page, backing. rewrite E. unfold grants in H0. destruct Hk' as [-> | ->]; cbn [addr_of new_entry addr_read addr_code addend Z.eqb Pos.eqb] in H0 |- *; now rewrite H0.
    + intros H. destruct (C3 mmu' kind' v Hm' Hk' Hv H) as (pa' & E & T). exists pa'. split; [exact E|]. exact (tells_stable _ _ _ _ _ _ (proj2 V) T).
  - rewrite (Ht mmu (tlb_index addr) Hm (tlb_index_range addr)), tlb_index_page, !Z.eqb_refl, C2. cbn [andb watched existsb].
    rewrite (new_hits _ false _ _ _ addr kind m' (page_of_page addr) eq_refl). exact G.
Qed.

(** *** A load *)

Lemma page_split addr : (addr .& TARGET_PAGE_MASK) + (addr .& ~~ TARGET_PAGE_MASK) = addr.
Proof.
  rewrite <- Z.add_lor_land, <- Z.land_lor_distr_r, Z.lor_lnot_diag, Z.land_m1_r.
  assert (addr .& TARGET_PAGE_MASK .& (addr .& ~~ TARGET_PAGE_MASK) = 0) as ->; [|lia].
  apply Z.bits_inj'. intros n Hn. rewrite !Z.land_spec, lnot_spec', Z.bits_0 by done. now destruct (Z.testbit addr n), (Z.testbit TARGET_PAGE_MASK n).
Qed.

Lemma entry_address pa addr kind e m : entry_tells pa addr kind e m -> ulong (addr + addend e) = host_address pa addr m.
Proof.
  intros [_ ->]. unfold host_address, ulong, wrap. rewrite Z.add_mod_idemp_r by (pose proof host_bits_ok; apply Z.pow_nonzero; lia). f_equal.
  rewrite <- (page_split addr) at 1. lia.
Qed.

Lemma flags_of_page x : (x .& TARGET_PAGE_MASK) .& ~~ TARGET_PAGE_MASK = 0.
Proof. rewrite <- Z.land_assoc. change (TARGET_PAGE_MASK .& ~~ TARGET_PAGE_MASK) with 0. apply Z.land_0_r. Qed.

(** An access of [2 ^ shift] bytes that does not leave its page. *)
Definition in_page (shift addr : Z) : Prop := (addr .& ~~ TARGET_PAGE_MASK) + 2 ^ shift <= TARGET_PAGE_SIZE.

(** A hit on a page of memory reads it. *)
Lemma pass_hit shift kind addr mmu ra redo across s pa : 0 <= shift <= 3 -> in_page shift addr -> in_u 32 addr -> kind = 0 \/ kind = 2 -> mode_ok mmu -> coherent s ->
  hits addr (addr_of kind (tlb_entry mmu (tlb_index addr) (common s))) = true -> phys addr kind mmu (cpu_env s) (machine s) = Some pa -> is_io pa (machine s) = false ->
  ld_pass shift kind addr mmu ra redo across s = Value (ld_raw shift (host_address pa addr (machine s)) (machine s)) s.
Proof.
  intros Hs Hp Ha Hk Hm C X P I. destruct (co_entries s C mmu kind addr Hm Hk Ha X) as (pa' & P' & T). rewrite P in P'. injection P' as <-.
  unfold ld_pass. cbv zeta. rewrite X, (entry_address pa addr kind _ (machine s) T). rewrite (proj1 T), I. unfold tst at 1. rewrite flags_of_page. cbn [truthy Z.eqb negb].
  unfold in_page in Hp. rewrite shiftl1 by lia. now rewrite (proj2 (Z.leb_gt _ _)) by lia.
Qed.

Lemma is_io_same pa m m' : board_same m m' -> is_io pa m' = is_io pa m /\ forall addr, host_address pa addr m' = host_address pa addr m.
Proof. intros [B1 B2]. unfold is_io, host_address, host_page, backing. now rewrite B1, B2. Qed.

Lemma ld_mmu_view n shift kind addr mmu ra s : 0 <= shift <= 3 -> in_page shift addr -> in_u 32 addr -> kind = 0 \/ kind = 2 -> mode_ok mmu -> coherent s ->
  match phys addr kind mmu (cpu_env s) (machine s) with
  | Some pa => is_io pa (machine s) = false -> exists s', ld_mmu (2 + n) shift kind addr mmu ra s = Value (ld_raw shift (host_address pa addr (machine s)) (machine s')) s'
      /\ cpu_env s' = cpu_env s /\ same_view (cpu_env s) (machine s) (machine s') /\ coherent s'
  | None => exists m', ld_mmu (2 + n) shift kind addr mmu ra s =
      Exception (leave_by_fault ra (mkVcpu (page_fault addr (fault addr kind mmu (cpu_env s) (machine s)) (cpu_env s)) (common s) m'))
  end.
Proof.
  intros Hs Hp Ha Hk Hm C. change (2 + n)%nat with (S (S n)). remember (S n) as f. cbn [ld_mmu].
  destruct (hits addr (addr_of kind (tlb_entry mmu (tlb_index addr) (common s)))) eqn:X.
  - destruct (co_entries s C mmu kind addr Hm Hk Ha X) as (pa & P & _). rewrite P. intros I. exists s. split; [now apply pass_hit|]. repeat split; exact (co_shape s C) || exact (co_watch s C) || apply C.
  - unfold ld_pass. cbv zeta. rewrite X. pose proof (fill_view addr kind mmu ra s Ha Hk Hm C) as F. destruct (phys addr kind mmu (cpu_env s) (machine s)) as [pa|] eqn:P.
    + destruct F as (s' & -> & C' & E & V & X'). intros I. exists s'. cbn [and_then]. subst f. cbn [ld_mmu]. destruct (is_io_same pa _ _ (proj2 V)) as [I' H'].
      rewrite (pass_hit shift kind addr mmu ra _ _ s' pa); auto; [now rewrite H'|rewrite E, (proj1 V); exact P|now rewrite I'].
    + destruct F as (m' & ->). now exists m'.
Qed.

(** ** The guest *)

(** Without a flush an entry stays, so the guest's part of the contract is to
    flush after it changed its tables. *)
Inductive guest_step : vcpu M -> vcpu M -> Prop :=
| step_load n shift kind addr mmu ra v pa s s' :
    0 <= shift <= 3 -> in_page shift addr -> in_u 32 addr -> kind = 0 \/ kind = 2 -> mode_ok mmu ->
    phys addr kind mmu (cpu_env s) (machine s) = Some pa -> is_io pa (machine s) = false ->
    ld_mmu (2 + n) shift kind addr mmu ra s = Value v s' -> guest_step s s'
| step_invlpg addr env t m : guest_step (mkVcpu env t m) (mkVcpu env (tlb_flush_page addr t) m)
| step_cr0 v env t m : guest_step (mkVcpu env t m) (let '(env', t') := cpu_x86_update_cr0 v env t in mkVcpu env' t' m)
| step_cr4 v env t m : guest_step (mkVcpu env t m) (let '(env', t') := cpu_x86_update_cr4 v env t in mkVcpu env' t' m)
| step_a20 v env t m : guest_step (mkVcpu env t m) (let '(env', t') := cpu_x86_set_a20 v env t in mkVcpu env' t' m)
| step_cr3 v env t m : guest_step (mkVcpu env t m) (let '(env', t') := cpu_x86_update_cr3 v env t in mkVcpu env' t' m)
| step_new_tables v env t m m' : tst (aget (cr env) 0) CR0_PG_MASK = true ->
    guest_step (mkVcpu env t m) (let '(env', t') := cpu_x86_update_cr3 v env t in mkVcpu env' t' m').

Definition in_step (s : vcpu M) : Prop := coherent s /\ length (cr (cpu_env s)) = 5%nat.

Lemma coherent_flushed env t m g : shape t -> watchpoints t = [] -> coherent (mkVcpu env (tlb_flush g t) m).
Proof.
  intros S W. constructor; cbn [cpu_env common machine]; [exact (ti_shape (M := M) [] _ (flush_inv [] t g S))|exact W|]. intros mmu kind addr Hm Hk _ X. exfalso. revert X.
  assert (tlb_entry mmu (tlb_index addr) (tlb_flush g t) = s_cputlb_empty_entry) as -> by exact (tlb_entry_map (fun _ => s_cputlb_empty_entry) t mmu _ S Hm (tlb_index_range addr)).
  destruct Hk as [-> | ->]; cbn [addr_of s_cputlb_empty_entry addr_read addr_code Z.eqb Pos.eqb]; now rewrite hits_none.
Qed.

(** What a translation depends on. *)
Lemma phys_env env env' addr kind mmu m : a20_mask env' = a20_mask env -> efer env' = efer env -> aget (cr env') 3 = aget (cr env) 3 ->
  tst (aget (cr env') 4) CR4_PAE_MASK = tst (aget (cr env) 4) CR4_PAE_MASK -> tst (aget (cr env') 4) CR4_PSE_MASK = tst (aget (cr env) 4) CR4_PSE_MASK ->
  tst (aget (cr env') 0) CR0_PG_MASK = tst (aget (cr env) 0) CR0_PG_MASK -> tst (aget (cr env') 0) CR0_WP_MASK = tst (aget (cr env) 0) CR0_WP_MASK ->
  phys addr kind mmu env' m = phys addr kind mmu env m.
Proof. intros E1 E2 E3 E4 E5 E6 E7. unfold phys, translate, levels, permitted, may_write, page_address. now rewrite E1, E2, E3, E4, E5, E6, E7. Qed.

Lemma coherent_env env env' t m : (forall addr kind mmu, phys addr kind mmu env' m = phys addr kind mmu env m) -> coherent (mkVcpu env t m) -> coherent (mkVcpu env' t m).
Proof.
  intros E [C1 C2 C3]. constructor; cbn [cpu_env common machine] in *; [exact C1|exact C2|]. intros mmu kind addr Hm Hk Ha X. rewrite E. now apply C3.
Qed.

(** Bits that two values have in common under a mask. *)
Lemma tst_masked (x y k b : Z) : x .& k = y .& k -> b .& k = b -> tst x b = tst y b.
Proof. intros E B. unfold tst. rewrite <- B, (Z.land_comm b k), !Z.land_assoc. now rewrite E. Qed.

(** Flushed or not, the cache agrees with the new control registers. *)
Lemma coherent_update (flush : bool) env env' t m g : coherent (mkVcpu env t m) ->
  (flush = false -> forall addr kind mmu, phys addr kind mmu env' m = phys addr kind mmu env m) -> coherent (mkVcpu env' (if flush then tlb_flush g t else t) m).
Proof.
  intros C E. destruct flush; [apply coherent_flushed; [exact (co_shape _ C)|exact (co_watch _ C)]|]. apply (coherent_env env); [now apply E|exact C].
Qed.

Lemma cr0_coherent v env t m : length (cr env) = 5%nat -> coherent (mkVcpu env t m) ->
  let '(env', t') := cpu_x86_update_cr0 v env t in coherent (mkVcpu env' t' m).
Proof.
  intros L C. unfold cpu_x86_update_cr0. cbv zeta. apply (coherent_update _ env); [exact C|]. intros E%negb_false_iff%Z.eqb_eq addr kind mmu.
  assert (forall b, b .& (CR0_PG_MASK .| CR0_WP_MASK .| CR0_PE_MASK) = b -> CR0_ET_MASK .& b = 0 -> tst (v .| CR0_ET_MASK) b = tst (aget (cr env) 0) b) as B.
  { intros b B Hb. rewrite <- (tst_masked v _ _ b E B). unfold tst. now rewrite Z.land_lor_distr_l, Hb, Z.lor_0_r. }
  apply phys_env; cbn [cr a20_mask efer over]; rewrite ?aget_aset_ne, ?aget_aset_eq by (rewrite ?L; lia); try done; now apply B.
Qed.

Lemma cr4_coherent v env t m : length (cr env) = 5%nat -> coherent (mkVcpu env t m) ->
  let '(env', t') := cpu_x86_update_cr4 v env t in coherent (mkVcpu env' t' m).
Proof.
  intros L C. unfold cpu_x86_update_cr4. cbv zeta. apply (coherent_update _ env); [exact C|]. intros E%negb_false_iff%Z.eqb_eq addr kind mmu.
  set (v' := if negb (tst (cpuid_features env) CPUID_SSE) then v .& ~~ CR4_OSFXSR_MASK else v).
  assert (forall b, b .& (CR4_PGE_MASK .| CR4_PAE_MASK .| CR4_PSE_MASK) = b -> ~~ CR4_OSFXSR_MASK .& b = b -> tst v' b = tst (aget (cr env) 4) b) as B.
  { intros b B Hb. rewrite <- (tst_masked v _ _ b E B). unfold v'. destruct (negb _); [|done]. unfold tst. now rewrite <- Z.land_assoc, Hb. }
  clearbody v'. destruct (tst v' CR4_OSFXSR_MASK); apply phys_env; cbn [cr a20_mask efer hflags over];
    rewrite ?aget_aset_ne, ?aget_aset_eq by (rewrite ?L; lia); try done; now apply B.
Qed.

Lemma a20_coherent v env t m : coherent (mkVcpu env t m) -> let '(env', t') := cpu_x86_set_a20 v env t in coherent (mkVcpu env' t' m).
Proof.
  intros C. unfold cpu_x86_set_a20. destruct (negb _); [|exact C]. apply coherent_flushed; [|exact (co_watch _ C)].
  refine (shape_table _ _ _ (co_shape _ C)). reflexivity.
Qed.

Lemma cr3_coherent v env t m : length (cr env) = 5%nat -> coherent (mkVcpu env t m) ->
  let '(env', t') := cpu_x86_update_cr3 v env t in coherent (mkVcpu env' t' m).
Proof.
  intros L C. unfold cpu_x86_update_cr3. apply (coherent_update _ env); [exact C|]. cbn [cr over]. rewrite aget_aset_ne by lia. intros E addr kind mmu.
  unfold phys. cbn [cr a20_mask over]. rewrite aget_aset_ne by lia. now rewrite E.
Qed.

Lemma new_tables_coherent v env t m m' : tst (aget (cr env) 0) CR0_PG_MASK = true -> coherent (mkVcpu env t m) ->
  let '(env', t') := cpu_x86_update_cr3 v env t in coherent (mkVcpu env' t' m').
Proof.
  intros E C. unfold cpu_x86_update_cr3. cbn [cr over]. rewrite aget_aset_ne, E by lia. apply coherent_flushed; apply C.
Qed.

Lemma invlpg_coherent addr env t m : coherent (mkVcpu env t m) -> coherent (mkVcpu env (tlb_flush_page addr t) m).
Proof.
  intros C. pose proof C as [C1 C2 C3]. cbn [cpu_env common machine] in *. unfold tlb_flush_page. destruct (_ =? _); [now apply coherent_flushed|].
  set (a := addr .& TARGET_PAGE_MASK). assert (shape (t <| current_tb := 0 |>)) as S0 by (refine (shape_table _ _ _ C1); reflexivity).
  set (t1 := fold_left _ _ _). assert (shape t1 /\ forall mmu j, mode_ok mmu -> 0 <= j < 256 -> tlb_entry mmu j t1 = tlb_entry mmu j t \/ tlb_entry mmu j t1 = tlb_flush_entry a (tlb_entry mmu j t)) as [S1 T1].
  { pose proof (tlb_index_range a) as R. split; [unfold t1; cbn [fold_left]; apply shape_upd; [apply shape_upd; [exact S0|now left]|now right]|]. intros mmu j Hm Hj. unfold t1. cbn [fold_left].
    rewrite tlb_entry_upd by (auto; first [apply shape_upd; [exact S0|now left]|now right]). rewrite tlb_entry_upd by (auto; now left).
    change (tlb_entry mmu j (t <| current_tb := 0 |>)) with (tlb_entry mmu j t). destruct Hm as [-> | ->]; cbn [Z.eqb Pos.eqb andb]; destruct (tlb_index a =? j); auto. }
  assert (watchpoints t1 = []) as W1 by exact C2. clearbody t1. constructor; cbn [cpu_env common machine]; [refine (shape_table _ _ _ S1); reflexivity|exact W1|].
  intros mmu kind v Hm Hk Hv. change (tlb_entry mmu (tlb_index v) (tlb_flush_jmp_cache a t1)) with (tlb_entry mmu (tlb_index v) t1).
  destruct (T1 mmu (tlb_index v) Hm (tlb_index_range v)) as [-> | ->]; [now apply C3|]. unfold tlb_flush_entry. destruct (_ || _); [|now apply C3].
  destruct Hk as [-> | ->]; cbn [addr_of s_cputlb_empty_entry addr_read addr_code Z.eqb Pos.eqb]; now rewrite hits_none.
Qed.

Lemma guest_step_ok s s' : in_step s -> guest_step s s' -> in_step s'.
Proof.
  intros [C L] H. destruct H as [n shift kind addr mmu ra v pa s s' Hs Hp Ha Hk Hm P I E|addr env t m|v env t m|v env t m|v env t m|v env t m|v env t m m' PG]; cbn [cpu_env] in L.
  - pose proof (ld_mmu_view n shift kind addr mmu ra s Hs Hp Ha Hk Hm C) as W. rewrite P in W. destruct (W I) as (s2 & E2 & Ee & _ & C2). rewrite E in E2. injection E2 as _ <-. split; [exact C2|now rewrite Ee].
  - split; [now apply invlpg_coherent|exact L].
  - split; [exact (cr0_coherent v env t m L C)|]. cbn. now rewrite length_aset.
  - split; [exact (cr4_coherent v env t m L C)|]. unfold cpu_x86_update_cr4. cbv zeta. destruct (tst _ CR4_OSFXSR_MASK); cbn; now rewrite length_aset.
  - pose proof (a20_coherent v env t m C) as X. unfold cpu_x86_set_a20 in *. destruct (negb _); (split; [exact X|exact L]).
  - split; [exact (cr3_coherent v env t m L C)|]. cbn. now rewrite length_aset.
  - split; [exact (new_tables_coherent v env t m m' PG C)|]. cbn. now rewrite length_aset.
Qed.

(** C5: Guest memory as the guest sees it: start from a full flush and let the
    guest read, fetch, invalidate pages, write CR0, CR3 and CR4, switch the A20
    gate, and change its tables in any way as long as it reloads CR3 after.  Then
    a load or fetch in a page of memory, of any width, reads the host memory of
    the page that the current tables, control registers and privilege give for
    the address, whatever the cache still holds; it changes nothing of the CPU
    and no translation.  If the tables do not allow the access, it is the page
    fault with that address and cause. *)
Theorem softmmu_load_translates t0 env0 m0 s n shift kind addr mmu ra : shape t0 -> watchpoints t0 = [] -> length (cr env0) = 5%nat ->
  rtc guest_step (mkVcpu env0 (tlb_flush 1 t0) m0) s ->
  0 <= shift <= 3 -> in_page shift addr -> in_u 32 addr -> kind = 0 \/ kind = 2 -> mode_ok mmu ->
  match phys addr kind mmu (cpu_env s) (machine s) with
  | Some pa => is_io pa (machine s) = false -> exists s', ld_mmu (2 + n) shift kind addr mmu ra s = Value (ld_raw shift (host_address pa addr (machine s)) (machine s')) s'
      /\ cpu_env s' = cpu_env s /\ same_view (cpu_env s) (machine s) (machine s')
  | None => exists m', ld_mmu (2 + n) shift kind addr mmu ra s =
      Exception (leave_by_fault ra (mkVcpu (page_fault addr (fault addr kind mmu (cpu_env s) (machine s)) (cpu_env s)) (common s) m'))
  end.
Proof.
  intros S W L R Hs Hp Ha Hk Hm.
  assert (in_step s) as [C _] by (refine (rtc_invariant guest_step in_step guest_step_ok _ _ R _); split; [now apply coherent_flushed|exact L]).
  pose proof (ld_mmu_view n shift kind addr mmu ra s Hs Hp Ha Hk Hm C) as V. destruct (phys addr kind mmu (cpu_env s) (machine s)); [|exact V].
  intros I. destruct (V I) as (s' & E & Ee & Vs & _). now exists s'.
Qed.
End View.
End SoftView.
