(* ===== verification/SoftDemo.v ===== *)
(** * A machine to run the memory system on

    16 MB of RAM under a sparse map of double words, tables for 32-bit and PAE
    paging in it, and the theorems of [SoftTlb], [X86Walk], [SoftMmu] and
    [SoftView] applied there, with cases in which the walk departs from the
    processor. *)

From S2P Require Import Prelude X86Cpu X86Trans X86Alu X86Seg SoftTlb X86Mmu X86Walk SoftMmu SoftView.

Module SoftDemo.
Import X86 X86Trans X86Alu SoftTlb X86Mmu X86Walk SoftMmu SoftView.
Import X86Seg(CR0_PE_MASK, CR0_PG_MASK).
#[local] Existing Instances X86.SegmentCache_eta X86.CPUX86State_eta SoftTlb.cpu_common_eta.

(** ** The machine *)

Abbreviation ram := (gmap Z Z).
Definition ldl (a : Z) (m : ram) : Z := u32 (default 0 (m !! a)).
Definition ram_base : Z := 0x10000000.

Instance host_width : HostWidth := {| host_bits := 32; host_bits_ok := Z.le_refl 32 |}.

Instance board : Board ram := {
  phys_page_find i m := if i <? 4096 then Some (mkPage (i << 12) 0) else None;
  qemu_get_ram_ptr o m := ram_base + o;
  qemu_ram_addr_from_host_nofail p m := p - ram_base;
  cpu_physical_memory_is_dirty a m := true;
  io_mem_watch := 32
}.

Lemma ldl_ok a m : in_u 32 (ldl a m).
Proof. apply u32_range. Qed.

Lemma ldl_stored a b v (m : ram) : a .& 3 = 0 -> b .& 3 = 0 -> ldl b (<[a := v]> m) = if b =? a then u32 v else ldl b m.
Proof.
  intros _ _. unfold ldl. destruct (Z.eqb_spec b a) as [->|N]; [now rewrite lookup_insert_eq|now rewrite lookup_insert_ne by congruence].
Qed.

Instance phys_mem : PhysMem ram := {
  ldl_phys := ldl;
  ldq_phys a m := ldl a m .| (ldl (a + 4) m << 32);
  stl_phys_notdirty a v m := <[a := v]> m;
  ldl_range := ldl_ok;
  ldq_halves _ _ := eq_refl;
  ldl_stl := ldl_stored
}.

(** Aligned accesses; no I/O. *)
Instance host : Host ram := {
  ld_raw shift p m := wrap (8 << shift) (ldl (p - ram_base) m);
  st_raw shift p v m := <[p - ram_base := v]> m;
  io_mem_read _ _ _ s := (0, s);
  io_mem_write _ _ _ _ s := s;
  cpu_restore_state _ s := s
}.

Instance host_laws : HostLaws ram.
Proof. now split. Defined.

Definition cold : cpu_common :=
  mkCommon 0 0 0 0 (replicate 2 (replicate 256 s_cputlb_empty_entry)) (replicate 2 (replicate 256 0)) 0 0 (replicate 4096 0) [].

Lemma cold_shape : shape cold.
Proof. split; [reflexivity|]. intros l [<- | [<- | []]]; apply length_replicate. Qed.

(** A directory at 0x1000: a table at 0x2000 for the first 4 MB, a 4 MB page at
    0x800000 for the second.  The table maps 0x5000 to 0x3000 for the user and
    0x6000 to 0x4000 for the supervisor. *)
Definition tables : ram :=
  <[0x1000 := 0x2007]> (<[0x1004 := 0x8000e7]> (<[0x2014 := 0x3007]> (<[0x2018 := 0x4003]> (<[0x3010 := 0xcafef00d]> ∅)))).

Definition paging (cr4 efr : Z) : CPUX86State :=
  cpu_zero <| cr := [CR0_PG_MASK .| CR0_PE_MASK; 0; 0; 0x1000; cr4] |> <| efer := efr |>.

Definition start : vcpu ram := mkVcpu (paging CR4_PSE_MASK 0) (tlb_flush 1 cold) tables.
Definition after (x : access ram Z) : vcpu ram := match x with Value _ s => s | _ => start end.

Lemma start_shape : shape (common start).
Proof. exact (ti_shape (M := ram) [] _ (flush_inv [] cold 1 cold_shape)). Qed.

(** ** The theorems at work *)

Definition fills : list (tlb_op (M := ram)) := [SetPage 0x402000 0x802000 PAGE_READ 1 22 tables; SetPage 0x5000 0x3000 PAGE_READ 1 12 tables].
Definition filled : cpu_common := default cold (tlb_run fills (tlb_flush 1 cold)).

(** INVLPG at the end of the 4 MB page drops what was cached from its start. *)
Lemma tlb_flush_page_drops_witness : cached 1 0x402345 filled = true /\ cached 1 0x402345 (tlb_flush_page 0x7ff000 filled) = false.
Proof.
  split; [vm_compute; reflexivity|].
  apply (tlb_flush_page_drops fills cold filled 0x7ff000 1 0x402345 22); [exact cold_shape| |vm_compute; reflexivity|now right|reflexivity|reflexivity].
  repeat constructor; (reflexivity || lia || (unfold mode_ok; lia)).
Defined.

(** A user's write to 0x5010: the frame, write access, and the dirty bit. *)
Lemma x86_walk_correct_witness : exists m', cpu_x86_handle_mmu_fault 0x5010 1 1 (paging CR4_PSE_MASK 0) tables
    = (Some (mkMapping 0x5000 0x3000 (PAGE_READ .| PAGE_WRITE .| PAGE_EXEC) 4096), paging CR4_PSE_MASK 0, m')
  /\ marked [(0x1000, PG_ACCESSED_MASK); (0x2014, PG_ACCESSED_MASK .| PG_DIRTY_MASK)] tables m'.
Proof.
  destruct (x86_walk_correct (paging CR4_PSE_MASK 0) 0x5010 1 1 tables) as (m' & W); [split; done|now right; left|reflexivity|]. exists m'.
  assert (translate (paging CR4_PSE_MASK 0) 0x5010 tables = Leaf 0x3007 0x2014 all_rights 12 [0x1000]) as T by (vm_compute; reflexivity).
  rewrite T in W. exact W.
Defined.

(** An unaligned double word over the end of the second 4 MB is a page fault for
    its second half only after the first was read. *)
Lemma softmmu_access_ends_witness : ended (ld_mmu (M := ram) 6 2 0 0x7ffffe 1 0 start) /\ match ld_mmu (M := ram) 6 2 0 0x7ffffe 1 0 start with
  | Exception s => aget (cr (cpu_env s)) 2 = 0x800000 /\ error_code (cpu_env s) = 4 /\ cached 1 0x7ffffe (common s) = true
  | _ => False end.
Proof.
  destruct (softmmu_access_ends (M := ram) 0 2 0x7ffffe 0 1 0 start) as (W & _ & _); [lia|split; done|now right|exact start_shape|].
  split; [exact W|vm_compute; split_and!; reflexivity].
Defined.

(** A user's reads of 0x5010, cached, and of the supervisor's page. *)
Definition warm : vcpu ram := after (ld_mmu 2 2 0 0x5010 1 0 start).

Lemma warm_reached : rtc guest_step start warm.
Proof.
  apply rtc_once. apply (step_load 0 2 0 0x5010 1 0 (ld_raw 2 (ram_base + 0x3010) tables) 0x3000);
    [lia|unfold in_page; vm_compute; discriminate|split; done|now left|now right|vm_compute; reflexivity..].
Qed.

Lemma softmmu_load_translates_witness :
  (exists s', ld_mmu 2 1 0 0x5010 1 0 warm = Value (ld_raw 1 (ram_base + 0x3010) (machine s')) s' /\ cpu_env s' = cpu_env warm)
  /\ exists m', ld_mmu 2 2 0 0x6010 1 0 warm = Exception (leave_by_fault 0 (mkVcpu (page_fault 0x6010 5 (cpu_env warm)) (common warm) m')).
Proof.
  pose proof (fun shift addr => softmmu_load_translates cold (paging CR4_PSE_MASK 0) tables warm 0 shift 0 addr 1 0 cold_shape eq_refl eq_refl warm_reached) as W.
  assert (forall shift addr, 0 <= shift <= 3 -> (addr .& ~~ TARGET_PAGE_MASK) + 2 ^ shift <= 4096 -> in_u 32 addr -> (0 <= shift <= 3) /\ in_page shift addr /\ in_u 32 addr) as I by (intros; now split_and!).
  destruct (I 1 0x5010) as (I1 & I2 & I3); [lia|vm_compute; discriminate|split; done|]. destruct (I 2 0x6010) as (J1 & J2 & J3); [lia|vm_compute; discriminate|split; done|].
  pose proof (W 1 0x5010 I1 I2 I3 (or_introl eq_refl) (or_intror eq_refl)) as W1. pose proof (W 2 0x6010 J1 J2 J3 (or_introl eq_refl) (or_intror eq_refl)) as W2.
  assert (phys 0x5010 0 1 (cpu_env warm) (machine warm) = Some 0x3000) as P1 by (vm_compute; reflexivity).
  assert (phys 0x6010 0 1 (cpu_env warm) (machine warm) = None) as P2 by (vm_compute; reflexivity).
  assert (is_io 0x3000 (machine warm) = false) as P3 by (vm_compute; reflexivity).
  assert (host_address 0x3000 0x5010 (machine warm) = ram_base + 0x3010) as P4 by (vm_compute; reflexivity).
  assert (fault 0x6010 0 1 (cpu_env warm) (machine warm) = 5) as P5 by (vm_compute; reflexivity).
  rewrite P1, P4 in W1. rewrite P2, P5 in W2. split; [|exact W2]. destruct (W1 P3) as (s' & E & Ee & _). exists s'. split; [exact E|exact Ee].
Defined.

(** ** Departures from the processor *)

(** A reserved bit in a present PAE entry (no-execute while not enabled) is
    reported without the P bit. *)
Definition pae_tables : ram :=
  <[0x1000 := 0x2001]> (<[0x2000 := 0x3007]> (<[0x3000 := 0x5007]> (<[0x3008 := 0x6007]> (<[0x300c := 0x80000000]> ∅)))).

Example rsvd_without_present : (cpu_x86_handle_mmu_fault 0x1234 0 0 (paging CR4_PAE_MASK 0) pae_tables).1.2 = page_fault 0x1234 8 (paging CR4_PAE_MASK 0).
Proof. vm_compute. reflexivity. Qed.

(** With the A20 gate closed, an address in the second megabyte of a 4 MB page
    still reaches it, and one in a 4 KB page does not. *)
Example a20_open_in_large_page :
  let env := (paging CR4_PSE_MASK 0) <| a20_mask := s32 (~~ (1 << 20)) |> in
  option_map mp_paddr (cpu_x86_handle_mmu_fault 0x500000 0 0 env tables).1.1 = Some 0x900000
  /\ option_map mp_paddr (cpu_x86_handle_mmu_fault 0x500000 0 0 (env <| cr := [0; 0; 0; 0; 0] |>) tables).1.1 = Some 0x400000.
Proof. split; vm_compute; reflexivity. Qed.

(** The debugger's translation of a page that must not be executed carries the
    no-execute bit into the address. *)
Example debug_keeps_nx :
  cpu_get_phys_page_debug 0x1234 (paging CR4_PAE_MASK MSR_EFER_NXE) pae_tables = Some (2 ^ 63 + 0x6000)
  /\ option_map mp_paddr (cpu_x86_handle_mmu_fault 0x1234 0 0 (paging CR4_PAE_MASK MSR_EFER_NXE) pae_tables).1.1 = Some 0x6000.
Proof. split; vm_compute; reflexivity. Qed.

(** With paging off and PAE prepared, the debugger walks tables that are not in
    use. *)
Example debug_walks_without_paging :
  let env := (paging CR4_PAE_MASK 0) <| cr := [CR0_PE_MASK; 0; 0; 0x1000; CR4_PAE_MASK] |> in
  cpu_get_phys_page_debug 0x200000 env pae_tables = None
  /\ option_map mp_paddr (cpu_x86_handle_mmu_fault 0x200000 0 0 env pae_tables).1.1 = Some 0x200000.
Proof. split; vm_compute; reflexivity. Qed.
End SoftDemo.
