(* ===== verification/Timer.v ===== *)
(** * Timers and the guest clock: qemu-timer.c

    Each clock keeps its pending timers in a linked list in the order of their
    deadlines.  The model keeps the pointers: [timers] maps the address of a
    [QEMUTimer] to the struct, [active_timers] holds the list heads, and a loop
    walks a [QEMUTimer **] ([loc]).  Loops have fuel, and run out of it ([None])
    only when the pointers form a cycle.  The configuration is the default one
    without instruction counting: [clock->warp_timer] is NULL, so
    [qemu_clock_warp] returns at once.  The host clocks are arguments. *)

From S2P Require Import Prelude.

Module Timer.

Definition QEMU_CLOCK_REALTIME : Z := 0.
Definition QEMU_CLOCK_VIRTUAL : Z := 1.
Definition QEMU_CLOCK_HOST : Z := 2.

Record QEMUTimer := mkTimer {
  clock : Z;          (* clock->type *)
  expire_time : Z;    (* in nanoseconds *)
  scale : Z;
  next : option Z
}.

#[export] Instance QEMUTimer_eta : Eta QEMUTimer := fun t =>
  mkTimer (clock t) (expire_time t) (scale t) (next t).

Record TimerLists := mkLists {
  timers : gmap Z QEMUTimer;
  active_timers : list (option Z);   (* by clock type *)
  enabled : list Z;                  (* clock->enabled *)
  pending : Z;                       (* alarm_timer->pending *)
  expired : Z;                       (* alarm_timer->expired *)
  dynticks : bool;                   (* alarm_timer->rearm is not NULL *)
  rearms : nat                       (* calls of alarm_timer->rearm *)
}.

#[export] Instance TimerLists_eta : Eta TimerLists := fun s =>
  mkLists (timers s) (active_timers s) (enabled s) (pending s) (expired s) (dynticks s) (rearms s).

(** The two places a [QEMUTimer **] can point to. *)
Inductive loc := Head (type : Z) | Next (ts : Z).

Definition load (pt : loc) (s : TimerLists) : option Z :=
  match pt with
  | Head c => nth (Z.to_nat c) (active_timers s) None
  | Next t => match timers s !! t with Some t => next t | None => None end
  end.

Definition store (pt : loc) (v : option Z) (s : TimerLists) : TimerLists :=
  match pt with
  | Head c => s <| active_timers := <[Z.to_nat c := v]> (active_timers s) |>
  | Next t => s <| timers := alter (fun t => t <| next := v |>) t (timers s) |>
  end.

Definition expire_of (ts : Z) (s : TimerLists) : Z :=
  match timers s !! ts with Some t => expire_time t | None => 0 end.
Definition clock_of (ts : Z) (s : TimerLists) : Z :=
  match timers s !! ts with Some t => clock t | None => 0 end.

Definition qemu_timer_expired_ns (timer_head : option Z) (current_time : Z) (s : TimerLists) : bool :=
  match timer_head with
  | None => false
  | Some t => expire_of t s <=? current_time
  end.

Definition qemu_rearm_alarm_timer (s : TimerLists) : TimerLists :=
  if dynticks s then s <| rearms := S (rearms s) |> else s.

Definition qemu_clock_enable (c en : Z) (s : TimerLists) : TimerLists := s <| enabled := aset (enabled s) c en |>.

(** [qemu_new_timer] at a fresh address. *)
Definition qemu_new_timer (ts clk scl : Z) (s : TimerLists) : TimerLists :=
  s <| timers := <[ts := mkTimer clk 0 scl None]> (timers s) |>.

Definition fuel (s : TimerLists) : nat := S (size (timers s)).

Fixpoint del_loop (n : nat) (ts : Z) (pt : loc) (s : TimerLists) : option TimerLists :=
  match n with
  | O => None
  | S n =>
      match load pt s with
      | None => Some s
      | Some t => if t =? ts then Some (store pt (load (Next t) s) s) else del_loop n ts (Next t) s
      end
  end.

(** Stop a timer, but do not dealloc it. *)
Definition qemu_del_timer (ts : Z) (s : TimerLists) : option TimerLists :=
  del_loop (fuel s) ts (Head (clock_of ts s)) s.

(** The place for a deadline in the sorted list. *)
Fixpoint find_loop (n : nat) (expire : Z) (pt : loc) (s : TimerLists) : option loc :=
  match n with
  | O => None
  | S n =>
      let t := load pt s in
      if negb (qemu_timer_expired_ns t expire s) then Some pt
      else match t with Some t => find_loop n expire (Next t) s | None => Some pt end
  end.

Definition qemu_mod_timer_ns (ts expire : Z) (s : TimerLists) : option TimerLists :=
  match qemu_del_timer ts s with
  | None => None
  | Some s =>
      match find_loop (fuel s) expire (Head (clock_of ts s)) s with
      | None => None
      | Some pt =>
          let s := s <| timers := alter (fun t => t <| expire_time := expire |>) ts (timers s) |> in
          let s := s <| timers := alter (fun t => t <| next := load pt s |>) ts (timers s) |> in
          let s := store pt (Some ts) s in
          (* Rearm if necessary *)
          match pt with
          | Head _ => Some (if negb (truthy (pending s)) then qemu_rearm_alarm_timer s else s)
          | Next _ => Some s
          end
      end
  end.

Definition qemu_mod_timer (ts expire : Z) (s : TimerLists) : option TimerLists :=
  match timers s !! ts with
  | None => None
  | Some t => qemu_mod_timer_ns ts (s64 (expire * scale t)) s
  end.

Fixpoint pending_loop (n : nat) (ts : Z) (t : option Z) (s : TimerLists) : option bool :=
  match n with
  | O => None
  | S n =>
      match t with
      | None => Some false
      | Some t => if t =? ts then Some true else pending_loop n ts (load (Next t) s) s
      end
  end.
Definition qemu_timer_pending (ts : Z) (s : TimerLists) : option bool :=
  pending_loop (fuel s) ts (load (Head (clock_of ts s)) s) s.

(** Callbacks are functions on the timer lists; the second component of the
    result lists the timers that fired. *)
Section Run.
Variable cb : Z -> TimerLists -> TimerLists.

Fixpoint run_loop (n : nat) (c current_time : Z) (s : TimerLists) (fired : list Z) : option (TimerLists * list Z) :=
  match n with
  | O => None
  | S n =>
      match load (Head c) s with
      | None => Some (s, fired)
      | Some ts =>
          if negb (qemu_timer_expired_ns (Some ts) current_time s) then Some (s, fired)
          else
            (* remove timer from the list before calling the callback *)
            let s := store (Head c) (load (Next ts) s) s in
            let s := store (Next ts) None s in
            (* run the callback (the timer list can be modified) *)
            let s := cb ts s in
            run_loop n c current_time s (fired ++ [ts])
      end
  end.

Definition qemu_run_timers (n : nat) (c current_time : Z) (s : TimerLists) : option (TimerLists * list Z) :=
  if negb (truthy (aget (enabled s) c)) then Some (s, []) else run_loop n c current_time s [].

(** [now c] is what [qemu_get_clock_ns] reads from clock [c]. *)
Definition qemu_run_all_timers (n : nat) (vm_running : bool) (now : Z -> Z) (s : TimerLists)
    : option (TimerLists * list Z) :=
  let s := s <| pending := 0 |> in
  (* rearm timer, if not periodic *)
  let s := if truthy (expired s) then qemu_rearm_alarm_timer (s <| expired := 0 |>) else s in
  match (if vm_running then qemu_run_timers n QEMU_CLOCK_VIRTUAL (now QEMU_CLOCK_VIRTUAL) s else Some (s, [])) with
  | None => None
  | Some (s, f1) =>
      match qemu_run_timers n QEMU_CLOCK_REALTIME (now QEMU_CLOCK_REALTIME) s with
      | None => None
      | Some (s, f2) =>
          match qemu_run_timers n QEMU_CLOCK_HOST (now QEMU_CLOCK_HOST) s with
          | None => None
          | Some (s, f3) => Some (s, f1 ++ f2 ++ f3)
          end
      end
  end.
End Run.

(** The time to the next deadline on clock [c], the host alarm being due by
    [delta] anyway. *)
Definition sooner (now : Z -> Z) (s : TimerLists) (c delta : Z) : Z :=
  match load (Head c) s with
  | Some t => let d := expire_of t s - now c in if d <? delta then d else delta
  | None => delta
  end.

Definition qemu_next_alarm_deadline (now : Z -> Z) (s : TimerLists) : Z :=
  let delta := match load (Head QEMU_CLOCK_VIRTUAL) s with
               | Some t => expire_of t s - now QEMU_CLOCK_VIRTUAL
               | None => 0x7fffffff
               end in
  let delta := sooner now s QEMU_CLOCK_HOST delta in
  sooner now s QEMU_CLOCK_REALTIME delta.

(** The signal handler of the host alarm; the second component is
    [qemu_notify_event]. *)
Definition host_alarm_handler (now : Z -> Z) (s : TimerLists) : TimerLists * bool :=
  if dynticks s || (qemu_next_alarm_deadline now s <=? 0)
  then (s <| expired := b2z (dynticks s) |> <| pending := 1 |>, true)
  else (s, false).

(** [qemu_put_timer] and [qemu_get_timer]: the 64-bit word in the stream. *)
Definition qemu_put_timer (ts : Z) (s : TimerLists) : option Z :=
  match qemu_timer_pending ts s with
  | None => None
  | Some true => Some (u64 (expire_of ts s))
  | Some false => Some (u64 (-1))
  end.
Definition qemu_get_timer (ts v : Z) (s : TimerLists) : option TimerLists :=
  if negb (v =? u64 (-1)) then qemu_mod_timer_ns ts (s64 v) s else qemu_del_timer ts s.

(** ** The guest cycle counter *)

Record TimersState := mkTicks {
  cpu_ticks_prev : Z;
  cpu_ticks_offset : Z;
  cpu_clock_offset : Z;
  cpu_ticks_enabled : Z
}.

#[export] Instance TimersState_eta : Eta TimersState := fun s =>
  mkTicks (cpu_ticks_prev s) (cpu_ticks_offset s) (cpu_clock_offset s) (cpu_ticks_enabled s).

(** [real] is [cpu_get_real_ticks], [clk] is [get_clock]. *)
Definition cpu_get_ticks (real : Z) (s : TimersState) : Z * TimersState :=
  if negb (truthy (cpu_ticks_enabled s)) then (cpu_ticks_offset s, s)
  else
    let ticks := real in
    let s := if ticks <? cpu_ticks_prev s
             then s <| cpu_ticks_offset := cpu_ticks_offset s + (cpu_ticks_prev s - ticks) |> else s in
    let s := s <| cpu_ticks_prev := ticks |> in
    (ticks + cpu_ticks_offset s, s).

Definition cpu_get_clock (clk : Z) (s : TimersState) : Z :=
  if negb (truthy (cpu_ticks_enabled s)) then cpu_clock_offset s else clk + cpu_clock_offset s.

Definition cpu_enable_ticks (real clk : Z) (s : TimersState) : TimersState :=
  if negb (truthy (cpu_ticks_enabled s)) then
    let s := s <| cpu_ticks_offset := cpu_ticks_offset s - real |> in
    let s := s <| cpu_clock_offset := cpu_clock_offset s - clk |> in
    s <| cpu_ticks_enabled := 1 |>
  else s.

Definition cpu_disable_ticks (real clk : Z) (s : TimersState) : TimersState :=
  if truthy (cpu_ticks_enabled s) then
    let '(v, s) := cpu_get_ticks real s in
    let s := s <| cpu_ticks_offset := v |> in
    let s := s <| cpu_clock_offset := cpu_get_clock clk s |> in
    s <| cpu_ticks_enabled := 0 |>
  else s.

(** ** The linked lists *)

(** Following [next] from [h] visits exactly [l]. *)
Fixpoint chain (s : TimerLists) (h : option Z) (l : list Z) : Prop :=
  match l with
  | [] => h = None
  | x :: l => h = Some x /\ is_Some (timers s !! x) /\ chain s (load (Next x) s) l
  end.

Lemma chain_ext s s' h l :
  (forall x, x ∈ l -> load (Next x) s' = load (Next x) s /\ (is_Some (timers s !! x) -> is_Some (timers s' !! x))) ->
  chain s h l -> chain s' h l.
Proof.
  revert h. induction l as [|x l IH]; intros h Hx Hc; [exact Hc|]. destruct Hc as (Hh & Hs & Hc).
  destruct (Hx x ltac:(left)) as [E1 E2]. split; [done|]. split; [auto|]. rewrite E1. apply IH; [|done].
  intros y Hy. apply Hx. now right.
Qed.

(** The abstract operations. *)
Definition del (ts : Z) (l : list Z) : list Z := filter (fun x => x <> ts) l.
Fixpoint ins (f : Z -> Z) (e ts : Z) (l : list Z) : list Z :=
  match l with
  | [] => [ts]
  | x :: l => if f x <=? e then x :: ins f e ts l else ts :: x :: l
  end.

Lemma del_cons ts x l : del ts (x :: l) = if decide (x = ts) then del ts l else x :: del ts l.
Proof. unfold del. destruct (decide (x = ts)); [now rewrite filter_cons_False by auto|now rewrite filter_cons_True by auto]. Qed.

Lemma del_elem ts x l : x ∈ del ts l <-> x <> ts /\ x ∈ l.
Proof. unfold del. now rewrite list_elem_of_filter. Qed.

Lemma del_notin ts l : ts ∉ l -> del ts l = l.
Proof.
  induction l as [|x l IH]; intros H; [done|]. rewrite del_cons. rewrite elem_of_cons in H.
  destruct (decide (x = ts)) as [->|]; [tauto|]. f_equal. apply IH. tauto.
Qed.

(** The list in the order of the deadlines [f]. *)
Fixpoint sorted_by (f : Z -> Z) (l : list Z) : Prop :=
  match l with
  | [] => True
  | x :: l => (forall y, y ∈ l -> f x <= f y) /\ sorted_by f l
  end.

Lemma sorted_del f ts l : sorted_by f l -> sorted_by f (del ts l).
Proof.
  induction l as [|x l IH]; [done|]. intros [H1 H2]. rewrite del_cons. destruct (decide (x = ts)); [auto|].
  split; [|auto]. intros y [_ Hy]%del_elem. auto.
Qed.

Lemma ins_elem f e ts l x : x ∈ ins f e ts l <-> x = ts \/ x ∈ l.
Proof.
  induction l as [|y l IH]; cbn [ins]; [rewrite list_elem_of_singleton, elem_of_nil; tauto|].
  destruct (f y <=? e); rewrite !elem_of_cons; [rewrite IH|]; tauto.
Qed.

Lemma ins_sorted f g e ts l : sorted_by f l -> ts ∉ l -> g ts = e -> (forall x, x <> ts -> g x = f x) ->
  sorted_by g (ins f e ts l).
Proof.
  intros Hs Hn Ht Hg. induction l as [|x l IH]; cbn [ins]; [split; [intros y Hy; now apply not_elem_of_nil in Hy|done]|].
  destruct Hs as [H1 H2]. rewrite elem_of_cons in Hn. assert (g x = f x) as Ex by (apply Hg; intros ->; tauto).
  assert (forall y, y ∈ l -> g y = f y) as El by (intros y Hy; apply Hg; intros ->; tauto).
  destruct (Z.leb_spec (f x) e).
  - split; [|apply IH; tauto]. intros y [-> |Hy]%ins_elem; [lia|]. rewrite Ex, (El y Hy). auto.
  - split; [|split].
    + intros y [-> |Hy]%elem_of_cons; [lia|]. rewrite (El y Hy). specialize (H1 y Hy). lia.
    + intros y Hy. rewrite Ex, (El y Hy). auto.
    + clear -H2 El. induction l as [|z l IH]; [done|]. destruct H2 as [H1 H2]. split.
      * intros y Hy. rewrite (El z) by left. rewrite (El y) by now right. auto.
      * apply IH; [done|]. intros y Hy. apply El. now right.
Qed.

Lemma ins_ext f g e ts l : (forall x, f x = g x) -> ins f e ts l = ins g e ts l.
Proof. intros H. induction l as [|x l IH]; cbn [ins]; [done|]. now rewrite H, IH. Qed.

Lemma ins_NoDup f e ts l : NoDup l -> ts ∉ l -> NoDup (ins f e ts l).
Proof.
  induction l as [|x l IH]; intros Hd Hn; cbn [ins]; [apply NoDup_singleton|].
  pose proof (NoDup_cons_1_1 _ _ Hd) as Hx. apply NoDup_cons_1_2 in Hd. rewrite elem_of_cons in Hn.
  destruct (f x <=? e); apply NoDup_cons_2.
  - rewrite ins_elem. intros [-> | Hx']; tauto.
  - apply IH; tauto.
  - rewrite elem_of_cons. tauto.
  - now apply NoDup_cons_2.
Qed.

(** A pointer that is not the [next] of a timer of [l]. *)
Definition fresh (pt : loc) (l : list Z) : Prop := match pt with Head _ => True | Next p => p ∉ l end.

(** A pointer into the lists: a head of one of the three, or a timer that
    exists. *)
Definition valid (pt : loc) (s : TimerLists) : Prop :=
  match pt with
  | Head c => 0 <= c < Z.of_nat (length (active_timers s))
  | Next p => is_Some (timers s !! p)
  end.

Lemma load_store_eq pt v s : valid pt s -> load pt (store pt v s) = v.
Proof.
  destruct pt as [c|p]; cbn [valid store load].
  - intros H. cbn [over active_timers]. rewrite nth_lookup, list_lookup_insert_eq; [done|lia].
  - intros [t Ht]. cbn [over timers]. rewrite lookup_alter_eq, Ht. reflexivity.
Qed.

Lemma load_store_ne pt q v s : valid pt s -> valid q s -> pt <> q -> load q (store pt v s) = load q s.
Proof.
  destruct pt as [c|p], q as [c'|p']; cbn [valid store load]; cbn [over active_timers timers]; intros Hp Hq Hne; try done.
  - rewrite !nth_lookup, list_lookup_insert_ne; [done|]. intros E. apply Hne. f_equal. lia.
  - rewrite lookup_alter_ne; [done|]. congruence.
Qed.

(** The fields a list operation leaves alone. *)
Record same_fields (s s' : TimerLists) : Prop := {
  sf_dom : forall x, is_Some (timers s' !! x) <-> is_Some (timers s !! x);
  sf_clock : forall x, clock_of x s' = clock_of x s;
  sf_expire : forall x, expire_of x s' = expire_of x s;
  sf_heads : length (active_timers s') = length (active_timers s);
  sf_size : size (timers s') = size (timers s)
}.

#[export] Instance same_fields_refl : Reflexive same_fields.
Proof. intros s. now constructor. Qed.

Lemma alter_same (f : QEMUTimer -> QEMUTimer) ts s :
  (forall t, clock (f t) = clock t) -> (forall t, expire_time (f t) = expire_time t) ->
  same_fields s (s <| timers := alter f ts (timers s) |>).
Proof.
  intros Hc He. constructor; cbn [over timers active_timers].
  - intros x. now rewrite lookup_alter_is_Some.
  - intros x. unfold clock_of. cbn [over timers]. destruct (decide (x = ts)) as [->|].
    + rewrite lookup_alter_eq. destruct (timers s !! ts); cbn; auto.
    + now rewrite lookup_alter_ne.
  - intros x. unfold expire_of. cbn [over timers]. destruct (decide (x = ts)) as [->|].
    + rewrite lookup_alter_eq. destruct (timers s !! ts); cbn; auto.
    + now rewrite lookup_alter_ne.
  - done.
  - rewrite <- !size_dom. now rewrite dom_alter_L.
Qed.

Lemma store_same pt v s : same_fields s (store pt v s).
Proof.
  destruct pt; cbn [store]; [|now apply alter_same]. constructor; try done. cbn [over active_timers]. apply length_insert.
Qed.

Lemma chain_valid s h l x : chain s h l -> x ∈ l -> valid (Next x) s.
Proof.
  revert h. induction l as [|y l IH]; intros h Hc Hx; [now apply not_elem_of_nil in Hx|].
  destruct Hc as (_ & Hs & Hc). apply elem_of_cons in Hx as [-> |Hx]; [done|eauto].
Qed.

Lemma fresh_ne pt l x : fresh pt l -> x ∈ l -> pt <> Next x.
Proof. intros Hf Hx ->. contradiction. Qed.

(** Changing a pointer outside a chain does not change the chain. *)
Lemma chain_store s h l pt v : valid pt s -> fresh pt l -> chain s h l -> chain (store pt v s) h l.
Proof.
  intros Hv Hf Hc. apply chain_ext with s; [|done]. intros x Hx. split.
  - apply load_store_ne; [done|eapply chain_valid; eauto|eapply fresh_ne; eauto].
  - apply (sf_dom _ _ (store_same pt v s)).
Qed.

(** What a walk from [pt] over [l] may write. *)
Definition elsewhere (pt : loc) (l : list Z) (s s' : TimerLists) : Prop :=
  forall q, valid q s -> q <> pt -> (forall x, x ∈ l -> q <> Next x) -> load q s' = load q s.

Lemma del_loop_spec n ts : forall l pt s,
  valid pt s -> fresh pt l -> NoDup l -> chain s (load pt s) l -> (length l < n)%nat ->
  exists s', del_loop n ts pt s = Some s' /\ chain s' (load pt s') (del ts l)
    /\ same_fields s s' /\ elsewhere pt l s s'.
Proof.
  induction n as [|n IH]; intros l pt s Hv Hf Hnd Hc Hn; [lia|]. cbn [del_loop].
  destruct l as [|x l]; [cbn in Hc; rewrite Hc; exists s; split; [done|]; split; [exact Hc|]; split; [reflexivity|now intros q]|].
  destruct Hc as (Hh & Hs & Hc). rewrite Hh.
  pose proof (NoDup_cons_1_1 _ _ Hnd) as Hx. apply NoDup_cons_1_2 in Hnd.
  assert (fresh pt l) as Hfl by (destruct pt; [done|]; cbn [fresh] in *; rewrite elem_of_cons in Hf; tauto).
  assert (pt <> Next x) as Hne by (eapply fresh_ne; [exact Hf|left]).
  destruct (Z.eqb_spec x ts) as [->|Hxt].
  - exists (store pt (load (Next ts) s) s). split; [done|]. rewrite load_store_eq by done. split; [|split].
    + unfold del. rewrite filter_cons_False by auto.
      change (chain (store pt (load (Next ts) s) s) (load (Next ts) s) (del ts l)).
      rewrite del_notin by done. now apply chain_store.
    + apply store_same.
    + intros q Hq H1 H2. apply load_store_ne; auto.
  - destruct (IH l (Next x) s Hs Hx Hnd Hc) as (s' & E & C & F & O); [cbn in Hn; lia|].
    exists s'. split; [exact E|]. split; [|split; [exact F|]].
    + unfold del. rewrite filter_cons_True by done. cbn [chain]. split; [|split; [now apply (sf_dom _ _ F)|exact C]].
      rewrite O; [done|done|done|]. intros y Hy. eapply fresh_ne; eauto.
    + intros q Hq H1 H2. apply O; [done|apply H2; left|]. intros y Hy. apply H2. now right.
Qed.

(** Linking [ts] in at [q]: the three assignments of [qemu_mod_timer_ns]. *)
Definition link (ts e : Z) (q : loc) (s : TimerLists) : TimerLists :=
  let s := s <| timers := alter (fun t => t <| expire_time := e |>) ts (timers s) |> in
  let s := s <| timers := alter (fun t => t <| next := load q s |>) ts (timers s) |> in
  store q (Some ts) s.

Lemma load_expire q ts e s : load q (s <| timers := alter (fun t => t <| expire_time := e |>) ts (timers s) |>) = load q s.
Proof.
  destruct q as [|p]; cbn [load over timers active_timers]; [done|]. destruct (decide (p = ts)) as [->|].
  - rewrite lookup_alter_eq. now destruct (timers s !! ts).
  - now rewrite lookup_alter_ne.
Qed.

Lemma valid_alter f q ts s : valid q (s <| timers := alter f ts (timers s) |>) <-> valid q s.
Proof. destruct q; cbn [valid over timers active_timers]; [done|]. now rewrite lookup_alter_is_Some. Qed.

Lemma link_loads ts e q s : is_Some (timers s !! ts) -> valid q s -> q <> Next ts ->
  let s' := link ts e q s in
  load q s' = Some ts /\ load (Next ts) s' = load q s
  /\ forall p, valid p s -> p <> q -> p <> Next ts -> load p s' = load p s.
Proof.
  intros Ht Hq Hne. cbv zeta. unfold link. rewrite load_expire.
  set (s1 := s <| timers := alter (fun t => t <| expire_time := e |>) ts (timers s) |>).
  assert (forall p, load p s1 = load p s) as E1 by (intros p; apply load_expire).
  assert (forall p, valid p s1 <-> valid p s) as V1 by (intros p; apply valid_alter). clearbody s1.
  change (s1 <| timers := alter (fun t => t <| next := load q s |>) ts (timers s1) |>) with (store (Next ts) (load q s) s1).
  assert (valid (Next ts) s1) as Vt by now apply V1.
  assert (valid q (store (Next ts) (load q s) s1)) as Vq by (apply valid_alter, V1; exact Hq).
  split; [now apply load_store_eq|]. split.
  - rewrite load_store_ne by (try done; now apply valid_alter). now apply load_store_eq.
  - intros p Hp H1 H2. rewrite load_store_ne; [|done|now apply valid_alter, V1|auto].
    rewrite load_store_ne; [apply E1|done|now apply V1|auto].
Qed.

Lemma link_fields ts e q s : is_Some (timers s !! ts) ->
  let s' := link ts e q s in
  (forall x, is_Some (timers s' !! x) <-> is_Some (timers s !! x))
  /\ (forall x, clock_of x s' = clock_of x s) /\ expire_of ts s' = e
  /\ (forall x, x <> ts -> expire_of x s' = expire_of x s)
  /\ length (active_timers s') = length (active_timers s) /\ size (timers s') = size (timers s).
Proof.
  intros [t Ht]. cbv zeta. unfold link.
  set (s1 := s <| timers := alter (fun t => t <| expire_time := e |>) ts (timers s) |>).
  set (s2 := s1 <| timers := alter (fun t => t <| next := load q s1 |>) ts (timers s1) |>).
  assert (same_fields s1 s2) as F2 by now apply alter_same.
  pose proof (store_same q (Some ts) s2) as F3.
  assert (forall x, is_Some (timers s1 !! x) <-> is_Some (timers s !! x)) as D1
    by (intros x; unfold s1; cbn [over timers]; apply lookup_alter_is_Some).
  split; [intros x; rewrite (sf_dom _ _ F3), (sf_dom _ _ F2); apply D1|].
  split; [|split; [|split; [|split]]].
  - intros x. rewrite (sf_clock _ _ F3), (sf_clock _ _ F2). unfold clock_of, s1. cbn [over timers].
    destruct (decide (x = ts)) as [->|]; [rewrite lookup_alter_eq, Ht; reflexivity|now rewrite lookup_alter_ne].
  - rewrite (sf_expire _ _ F3), (sf_expire _ _ F2). unfold expire_of, s1. cbn [over timers]. now rewrite lookup_alter_eq, Ht.
  - intros x Hx. rewrite (sf_expire _ _ F3), (sf_expire _ _ F2). unfold expire_of, s1. cbn [over timers]. now rewrite lookup_alter_ne.
  - now rewrite (sf_heads _ _ F3), (sf_heads _ _ F2).
  - rewrite (sf_size _ _ F3), (sf_size _ _ F2). unfold s1. cbn [over timers]. rewrite <- !size_dom. now rewrite dom_alter_L.
Qed.

Lemma find_loop_spec n ts e s : forall l pt,
  is_Some (timers s !! ts) -> ts ∉ l -> pt <> Next ts ->
  valid pt s -> fresh pt l -> NoDup l -> chain s (load pt s) l -> (length l < n)%nat ->
  exists q, find_loop n e pt s = Some q /\ valid q s /\ (q = pt \/ exists x, x ∈ l /\ q = Next x)
    /\ chain (link ts e q s) (load pt (link ts e q s)) (ins (fun x => expire_of x s) e ts l).
Proof.
  induction n as [|n IH]; intros l pt Ht Hn Hpt Hv Hf Hd Hc Hlen; [lia|]. cbn [find_loop].
  assert (forall l, chain s (load pt s) l -> ts ∉ l -> fresh pt l ->
    chain (link ts e pt s) (load pt (link ts e pt s)) (ts :: l)) as Hhere.
  { intros l' Hc' Hn' Hf'. destruct (link_loads ts e pt s Ht Hv Hpt) as (L1 & L2 & L3).
    destruct (link_fields ts e pt s Ht) as (D & _). cbn [chain]. rewrite L1, L2. split; [done|]. split; [now apply D|].
    apply chain_ext with s; [|done]. intros x Hx. split; [|apply D].
    apply L3; [eapply chain_valid; eauto|intros <-; contradiction|intros [= ->]; contradiction]. }
  destruct l as [|x l].
  - cbn in Hc. rewrite Hc. cbn [qemu_timer_expired_ns negb]. exists pt. split; [done|]. split; [done|]. split; [now left|].
    apply Hhere; [done|apply not_elem_of_nil|destruct pt; [done|apply not_elem_of_nil]].
  - pose proof Hc as (Hh & Hs & Hc'). rewrite Hh. cbn [qemu_timer_expired_ns ins].
    destruct (expire_of x s <=? e); cbn [negb]; [|exists pt; split; [done|]; split; [done|]; split; [now left|now apply Hhere]].
    pose proof (NoDup_cons_1_1 _ _ Hd) as Hx. apply NoDup_cons_1_2 in Hd. rewrite elem_of_cons in Hn.
    destruct (IH l (Next x)) as (q & E & Vq & Q & C); try done; try tauto; [intros [= ->]; tauto|cbn in Hlen; lia|].
    exists q. split; [done|]. split; [done|]. split; [right; destruct Q as [-> | (y & Hy & ->)]; eexists; (split; [|reflexivity]); [left|now right]|].
    assert (q <> pt) as Hqp.
    { destruct Q as [-> | (y & Hy & ->)]; intros <-; cbn [fresh] in Hf; rewrite elem_of_cons in Hf; tauto. }
    assert (q <> Next ts) as Hqt by (destruct Q as [-> | (y & Hy & ->)]; intros [= ->]; tauto).
    destruct (link_loads ts e q s Ht Vq Hqt) as (L1 & L2 & L3). destruct (link_fields ts e q s Ht) as (D & _).
    cbn [chain]. rewrite (L3 pt) by auto. split; [done|]. split; [now apply D|exact C].
Qed.

(** ** The lists of all clocks *)

Definition list_ok (s : TimerLists) (c : Z) (l : list Z) : Prop :=
  chain s (load (Head c) s) l /\ NoDup l /\ sorted_by (fun x => expire_of x s) l
  /\ forall x, x ∈ l -> clock_of x s = c.

(** [L c] is the list of the pending timers of clock [c]. *)
Definition lists (s : TimerLists) (L : Z -> list Z) : Prop :=
  length (active_timers s) = 3%nat /\ forall c, 0 <= c < 3 -> list_ok s c (L c).

Definition upd (L : Z -> list Z) (c : Z) (l : list Z) : Z -> list Z := fun c' => if c' =? c then l else L c'.

Lemma chain_length s h l : chain s h l -> NoDup l -> (length l < fuel s)%nat.
Proof.
  intros Hc Hd. unfold fuel. rewrite <- size_dom.
  assert (length l <= size (dom (timers s)))%nat; [|lia].
  rewrite <- (size_list_to_set (C := gset Z) l) by done. apply subseteq_size. intros x Hx%elem_of_list_to_set.
  apply elem_of_dom. exact (chain_valid s h l x Hc Hx).
Qed.

(** A list of another clock is not touched by changes to this one's pointers. *)
Lemma list_ok_frame s s' c c' l : list_ok s c' l -> 0 <= c' < 3 -> length (active_timers s) = 3%nat -> c' <> c ->
  (forall x, is_Some (timers s !! x) -> is_Some (timers s' !! x)) -> (forall x, clock_of x s' = clock_of x s) ->
  (forall x, clock_of x s <> c -> expire_of x s' = expire_of x s) ->
  (forall q, valid q s -> match q with Head h => h <> c | Next x => clock_of x s <> c end -> load q s' = load q s) ->
  list_ok s' c' l.
Proof.
  intros (H1 & H2 & H3 & H4) Hc Hl Hne D C E P. split; [|split; [done|split]].
  - rewrite P by (cbn; auto; lia). apply chain_ext with s; [|done]. intros x Hx. split; [|auto].
    apply P; [eapply chain_valid; eauto|]. rewrite (H4 x Hx). done.
  - clear H1 H2. induction l as [|x l IH]; [done|]. destruct H3 as [S1 S2].
    assert (forall y, y ∈ x :: l -> expire_of y s' = expire_of y s) as Ey by (intros y Hy; apply E; now rewrite H4).
    split; [|apply IH; [done|intros y Hy; apply H4; now right]].
    intros y Hy. rewrite (Ey x), (Ey y); [auto|now right|left].
  - intros x Hx. rewrite C. auto.
Qed.

Lemma del_timer_spec ts s L (c := clock_of ts s) : lists s L -> 0 <= c < 3 ->
  exists s', qemu_del_timer ts s = Some s' /\ lists s' (upd L c (del ts (L c))) /\ same_fields s s'.
Proof.
  intros [Hl HL] Hc. destruct (HL c Hc) as (H1 & H2 & H3 & H4).
  destruct (del_loop_spec (fuel s) ts (L c) (Head c) s) as (s' & E & C & F & O); try done;
    [cbn; lia|eapply chain_length; eauto|].
  exists s'. split; [exact E|]. split; [|exact F]. split; [now rewrite (sf_heads _ _ F)|]. intros c' Hc'. unfold upd.
  destruct (Z.eqb_spec c' c) as [->|Hne].
  - split; [exact C|]. split; [now apply list.NoDup_filter|]. split.
    + pose proof (sorted_del _ ts _ H3) as H3'. clear -H3' F. induction (del ts (L c)) as [|x l IH]; [done|].
      destruct H3' as [A B]. split; [intros y Hy; rewrite !(sf_expire _ _ F); auto|auto].
    + intros x [_ Hx]%del_elem. rewrite (sf_clock _ _ F). auto.
  - apply (list_ok_frame s s' c); try done; [now apply HL|intros x; apply (sf_dom _ _ F)|apply (sf_clock _ _ F)|intros x _; apply (sf_expire _ _ F)|].
    intros q Hq Hx. apply O; [done|destruct q; congruence|]. intros x Hxl ->. rewrite H4 in Hx by done. done.
Qed.

Lemma rearm_lists s L : lists s L -> lists (if negb (truthy (pending s)) then qemu_rearm_alarm_timer s else s) L.
Proof.
  destruct (negb _); [|done]. unfold qemu_rearm_alarm_timer. destruct (dynticks s); [|done]. intros [Hl HL]. split; [exact Hl|]. intros c Hc. destruct (HL c Hc) as (H1 & H).
  split; [|exact H]. apply chain_ext with s; [|exact H1]. intros x _. split; [reflexivity|exact id].
Qed.

Lemma mod_timer_lists ts e s L (c := clock_of ts s) : lists s L -> is_Some (timers s !! ts) -> 0 <= c < 3 ->
  exists s', qemu_mod_timer_ns ts e s = Some s'
    /\ lists s' (upd L c (ins (fun x => expire_of x s) e ts (del ts (L c))))
    /\ expire_of ts s' = e /\ (forall x, x <> ts -> expire_of x s' = expire_of x s)
    /\ (forall x, clock_of x s' = clock_of x s) /\ (forall x, is_Some (timers s' !! x) <-> is_Some (timers s !! x)).
Proof.
  intros HL Ht Hc. destruct (del_timer_spec ts s L HL Hc) as (s1 & E1 & [Hl1 L1] & F1). fold c in L1.
  unfold qemu_mod_timer_ns. rewrite E1, (sf_clock _ _ F1). fold c.
  assert (is_Some (timers s1 !! ts)) as Ht1 by now apply (sf_dom _ _ F1).
  destruct (L1 c Hc) as (C1 & C2 & C3 & C4). unfold upd in C1, C2, C3, C4. rewrite Z.eqb_refl in C1, C2, C3, C4.
  assert (ts ∉ del ts (L c)) as Hn by (rewrite del_elem; tauto).
  destruct (find_loop_spec (fuel s1) ts e s1 (del ts (L c)) (Head c)) as (q & E & Vq & Q & C); try done;
    [cbn; lia|eapply chain_length; eauto|].
  assert (q <> Next ts) as Hq by (destruct Q as [-> | (y & Hy & ->)]; [done|]; intros [= ->]; contradiction).
  rewrite E. destruct (link_loads ts e q s1 Ht1 Vq Hq) as (P1 & P2 & P3).
  destruct (link_fields ts e q s1 Ht1) as (D & K & X1 & X2 & H3 & _). fold (link ts e q s1). set (s2 := link ts e q s1) in *.
  assert (lists s2 (upd L c (ins (fun x => expire_of x s) e ts (del ts (L c))))) as HL2.
  { split; [now rewrite H3|]. intros c' Hc'. unfold upd. destruct (Z.eqb_spec c' c) as [->|Hne].
    - split; [erewrite ins_ext; [exact C|]; intros x; symmetry; apply (sf_expire _ _ F1)|]. split; [now apply ins_NoDup|]. split.
      + apply ins_sorted; [|done|done|intros x Hx; rewrite X2 by done; apply (sf_expire _ _ F1)].
        apply sorted_del. apply HL. done.
      + intros x [-> |Hx]%ins_elem; rewrite K, (sf_clock _ _ F1); [done|]. apply del_elem in Hx as [_ Hx]. now apply HL.
    - specialize (L1 c' Hc'). unfold upd in L1. destruct (Z.eqb_spec c' c); [done|].
      apply (list_ok_frame s1 s2 c); try done; [intros x; apply D| |].
      + intros x Hx. apply X2. intros ->. rewrite (sf_clock _ _ F1) in Hx. done.
      + intros p Hp Hx. apply P3; [done| |].
        * destruct Q as [-> | (y & Hy & ->)]; [destruct p; congruence|]. intros ->. rewrite C4 in Hx by done. done.
        * intros ->. rewrite (sf_clock _ _ F1) in Hx. done. }
  assert (forall x, x <> ts -> expire_of x s2 = expire_of x s) as X3
    by (intros x Hx; rewrite X2 by done; apply (sf_expire _ _ F1)).
  assert (forall x, clock_of x s2 = clock_of x s) as K3 by (intros x; rewrite K; apply (sf_clock _ _ F1)).
  assert (forall x, is_Some (timers s2 !! x) <-> is_Some (timers s !! x)) as D3 by (intros x; rewrite D; apply (sf_dom _ _ F1)).
  destruct q as [h|p]; eexists; (split; [reflexivity|]); [|done].
  split; [now apply rearm_lists|]. destruct (negb _); [|done]. unfold qemu_rearm_alarm_timer. destruct (dynticks s2); done.
Qed.

(** Taking the head off its list, as [qemu_run_timers] does before it calls the
    callback. *)
Definition pop (c x : Z) (s : TimerLists) : TimerLists :=
  store (Next x) None (store (Head c) (load (Next x) s) s).

Lemma pop_lists s L c x l : lists s L -> 0 <= c < 3 -> L c = x :: l ->
  lists (pop c x s) (upd L c l) /\ (x ∉ l) /\ clock_of x s = c /\ is_Some (timers s !! x).
Proof.
  intros [Hl HL] Hc E. destruct (HL c Hc) as (H1 & H2 & H3 & H4). rewrite E in H1, H2, H3, H4.
  destruct H1 as (Hh & Hx & Hch). pose proof (NoDup_cons_1_1 _ _ H2) as Hn. apply NoDup_cons_1_2 in H2.
  assert (clock_of x s = c) as Kx by (apply H4; left). destruct H3 as [_ H3]. split; [|done].
  set (s1 := store (Head c) (load (Next x) s) s). assert (same_fields s s1) as F1 by apply store_same.
  assert (valid (Head c) s) as V0 by (cbn; lia). assert (valid (Next x) s1) as V1 by now apply (sf_dom _ _ F1).
  pose proof (store_same (Next x) None s1) as F2. fold s1 in F2.
  assert (load (Head c) s1 = load (Next x) s) as E1 by now apply load_store_eq.
  split; [unfold pop; fold s1; now rewrite (sf_heads _ _ F2), (sf_heads _ _ F1)|].
  intros c' Hc'. unfold upd. destruct (Z.eqb_spec c' c) as [->|Hne].
  - split; [|split; [done|split]].
    + unfold pop. fold s1. rewrite load_store_ne by (try done; cbn [valid]; rewrite (sf_heads _ _ F1); lia). rewrite E1.
      apply chain_store; [done|exact Hn|]. now apply chain_store.
    + clear -H3 F1 F2. unfold pop. fold s1. induction l as [|y l IH]; [done|]. destruct H3 as [A B]. split; [|auto].
      intros z Hz. rewrite !(sf_expire _ _ F2), !(sf_expire _ _ F1). auto.
    + intros y Hy. unfold pop. fold s1. rewrite (sf_clock _ _ F2), (sf_clock _ _ F1). apply H4. now right.
  - apply (list_ok_frame s (pop c x s) c); try done; unfold pop; fold s1; [now apply HL| | | |].
    + intros y Hy. now apply (sf_dom _ _ F2), (sf_dom _ _ F1).
    + intros y. now rewrite (sf_clock _ _ F2), (sf_clock _ _ F1).
    + intros y _. now rewrite (sf_expire _ _ F2), (sf_expire _ _ F1).
    + intros q Hq Hk. assert (valid q s1) by (destruct q; [cbn [valid] in *; now rewrite (sf_heads _ _ F1)|now apply (sf_dom _ _ F1)]).
      rewrite load_store_ne by (try done; intros <-; congruence). apply load_store_ne; try done. intros <-. congruence.
Qed.

Lemma pop_fields c x s : same_fields s (pop c x s).
Proof.
  pose proof (store_same (Head c) (load (Next x) s) s) as F1.
  pose proof (store_same (Next x) None (store (Head c) (load (Next x) s) s)) as F2. fold (pop c x s) in F2.
  constructor; intros; (rewrite (sf_dom _ _ F2), (sf_dom _ _ F1) || rewrite (sf_clock _ _ F2), (sf_clock _ _ F1)
    || rewrite (sf_expire _ _ F2), (sf_expire _ _ F1) || rewrite (sf_heads _ _ F2), (sf_heads _ _ F1)
    || rewrite (sf_size _ _ F2), (sf_size _ _ F1)); done.
Qed.

(** ** Running the timers *)

(** The timers of [l] that have expired at [T], in the order of the list. *)
Definition due (T : Z) (s : TimerLists) (l : list Z) : list Z := filter (fun x => expire_of x s <= T) l.

Lemma due_cons T s x l : due T s (x :: l) = if expire_of x s <=? T then x :: due T s l else due T s l.
Proof.
  unfold due. destruct (Z.leb_spec (expire_of x s) T); [now rewrite filter_cons_True|].
  rewrite filter_cons_False; [done|lia].
Qed.

Lemma due_none T s l : (forall x, x ∈ l -> T < expire_of x s) -> due T s l = [].
Proof.
  induction l as [|x l IH]; intros H; [done|]. rewrite due_cons. specialize (H x ltac:(left)) as Hx.
  destruct (Z.leb_spec (expire_of x s) T); [lia|]. apply IH. intros y Hy. apply H. now right.
Qed.

Lemma due_eq T s s' l : (forall x, x ∈ l -> expire_of x s' = expire_of x s) -> due T s' l = due T s l.
Proof.
  induction l as [|x l IH]; intros H; [done|]. rewrite !due_cons, H by left. rewrite IH; [done|].
  intros y Hy. apply H. now right.
Qed.

Lemma due_ins T s f e ts l : T < expire_of ts s -> due T s (ins f e ts l) = due T s l.
Proof.
  intros H. induction l as [|x l IH]; cbn [ins].
  - rewrite due_cons. destruct (Z.leb_spec (expire_of ts s) T); [lia|done].
  - destruct (f x <=? e); [now rewrite !due_cons, IH|]. rewrite due_cons. destruct (Z.leb_spec (expire_of ts s) T); [lia|done].
Qed.

Lemma due_sorted T s l f : sorted_by f l -> sorted_by f (due T s l).
Proof.
  induction l as [|x l IH]; [done|]. intros [H1 H2]. rewrite due_cons. destruct (_ <=? _); [|auto].
  split; [|auto]. intros y [_ Hy]%list_elem_of_filter. auto.
Qed.

(** What the callbacks that run at time [T] promise the timer loop: they keep
    the lists well formed, create, free and move no timer, and leave the timers
    that have already expired alone (they may re-arm, start and stop others). *)
Class TimerCallbacks (cb : Z -> TimerLists -> TimerLists) (T : Z) : Prop :=
  callback_ok : forall ts s L, lists s L -> is_Some (timers s !! ts) -> 0 <= clock_of ts s < 3 ->
    ts ∉ L (clock_of ts s) ->
    exists L', lists (cb ts s) L' /\ (forall x, clock_of x (cb ts s) = clock_of x s)
      /\ (forall x, is_Some (timers (cb ts s) !! x) <-> is_Some (timers s !! x))
      /\ forall c, 0 <= c < 3 -> due T (cb ts s) (L' c) = due T s (L c).

Section Running.
Context (cb : Z -> TimerLists -> TimerLists) (T : Z) `{CB : !TimerCallbacks cb T}.

Lemma timer_loop_spec n c : 0 <= c < 3 -> forall s L fired, lists s L -> (length (due T s (L c)) < n)%nat ->
  exists s' L', run_loop cb n c T s fired = Some (s', fired ++ due T s (L c)) /\ lists s' L'
    /\ due T s' (L' c) = [] /\ forall c', 0 <= c' < 3 -> c' <> c -> due T s' (L' c') = due T s (L c').
Proof.
  intros Hc. induction n as [|n IH]; intros s L fired HL Hn; [lia|]. cbn [run_loop].
  destruct (proj2 HL c Hc) as (H1 & _ & H3 & _). destruct (L c) as [|x l] eqn:E.
  { cbn [chain] in H1. rewrite H1. exists s, L. rewrite E. now rewrite app_nil_r. }
  destruct H1 as (Hh & _). rewrite Hh. cbn [qemu_timer_expired_ns]. rewrite due_cons in *.
  destruct (Z.leb_spec (expire_of x s) T) as [Hx|Hx]; cbn [negb].
  - fold (pop c x s). destruct (pop_lists s L c x l HL Hc E) as (HP & Hnx & Kx & Sx).
    pose proof (pop_fields c x s) as F.
    destruct (callback_ok x (pop c x s) (upd L c l) HP) as (L' & HL' & K' & D' & P');
      [now apply (sf_dom _ _ F)|rewrite (sf_clock _ _ F); lia|rewrite (sf_clock _ _ F), Kx; unfold upd; now rewrite Z.eqb_refl|].
    assert (forall c', 0 <= c' < 3 -> due T (cb x (pop c x s)) (L' c') = due T s (upd L c l c')) as P
      by (intros c' Hc'; rewrite P' by done; apply due_eq; intros y _; apply (sf_expire _ _ F)).
    pose proof (P c Hc) as Pc. unfold upd in Pc. rewrite Z.eqb_refl in Pc.
    destruct (IH (cb x (pop c x s)) L' (fired ++ [x]) HL') as (s' & L2 & R & H2 & Z2 & O2); [rewrite Pc; cbn in Hn; lia|].
    exists s', L2. split; [rewrite R, Pc, <- app_assoc; reflexivity|]. split; [done|]. split; [done|].
    intros c' Hc' Hne. rewrite O2, P by done. unfold upd. now destruct (Z.eqb_spec c' c).
  - assert (due T s l = []) as El. { apply due_none. intros y Hy. destruct H3 as [H3 _]. specialize (H3 y Hy). lia. }
    rewrite El, app_nil_r in *. exists s, L. split; [done|]. split; [done|]. split; [|done].
    rewrite E, due_cons. destruct (Z.leb_spec (expire_of x s) T); [lia|done].
Qed.
End Running.

Lemma pending_loop_spec n ts s : forall l h, chain s h l -> (length l < n)%nat ->
  pending_loop n ts h s = Some (bool_decide (ts ∈ l)).
Proof.
  induction n as [|n IH]; intros l h Hc Hn; [lia|]. cbn [pending_loop]. destruct l as [|x l].
  - cbn in Hc. now rewrite Hc.
  - destruct Hc as (-> & _ & Hc). destruct (Z.eqb_spec x ts) as [->|Hne].
    + rewrite bool_decide_true; [done|left].
    + rewrite (IH l) by (try done; cbn in Hn; lia). f_equal. apply bool_decide_ext. rewrite elem_of_cons. split; [now right|]. intros [-> | H]; done.
Qed.

Lemma timer_pending_spec ts s L : lists s L -> 0 <= clock_of ts s < 3 ->
  qemu_timer_pending ts s = Some (bool_decide (ts ∈ L (clock_of ts s))).
Proof.
  intros [_ HL] Hc. destruct (HL _ Hc) as (H1 & H2 & _). apply pending_loop_spec; [exact H1|]. eapply chain_length; eauto.
Qed.

(** A callback that re-arms its own timer [d] nanoseconds after the current time,
    as the periodic devices do. *)
Definition rearm_after (T d ts : Z) (s : TimerLists) : TimerLists :=
  match qemu_mod_timer_ns ts (T + d) s with Some s => s | None => s end.

#[export] Instance rearm_after_ok T d (Hd : 0 < d) : TimerCallbacks (rearm_after T d) T.
Proof.
  intros ts s L HL Ht Hc Hn. destruct (mod_timer_lists ts (T + d) s L HL Ht Hc) as (s' & E & HL' & X1 & X2 & K & D).
  unfold rearm_after. rewrite E. eexists. split; [exact HL'|]. split; [exact K|]. split; [exact D|].
  intros c Hc'. unfold upd. destruct (Z.eqb_spec c (clock_of ts s)) as [->|Hne].
  - rewrite del_notin by done. rewrite due_ins by lia. apply due_eq. intros x Hx. apply X2. congruence.
  - apply due_eq. intros x Hx. apply X2. intros ->. destruct (proj2 HL c Hc') as (_ & _ & _ & H4). rewrite (H4 ts Hx) in Hne. done.
Qed.

(** ** Theorems *)

(** C13: Re-arming a timer refines insertion into a sorted list.  On lists that are
    well formed (acyclic, without repetitions, ordered by deadline, each timer on
    the list of its clock), [qemu_mod_timer_ns] finds its place within the fuel of
    one turn per allocated timer, and leaves well-formed lists in which the timer
    is pending exactly once, behind every timer with the same or an earlier
    deadline; the deadlines of the others, their order and the lists of the other
    clocks are as before. *)
Theorem timer_mod_refines ts e s L : lists s L -> is_Some (timers s !! ts) -> 0 <= clock_of ts s < 3 ->
  let c := clock_of ts s in
  exists s', qemu_mod_timer_ns ts e s = Some s'
    /\ lists s' (upd L c (ins (fun x => expire_of x s) e ts (del ts (L c))))
    /\ expire_of ts s' = e /\ (forall x, x <> ts -> expire_of x s' = expire_of x s)
    /\ qemu_timer_pending ts s' = Some true.
Proof.
  intros HL Ht Hc. cbv zeta. destruct (mod_timer_lists ts e s L HL Ht Hc) as (s' & E & HL' & X1 & X2 & K & _).
  exists s'. split; [done|]. split; [exact HL'|]. split; [done|]. split; [done|].
  rewrite (timer_pending_spec ts s' _ HL') by (rewrite K; lia). rewrite K. unfold upd. rewrite Z.eqb_refl.
  rewrite bool_decide_true; [done|]. apply ins_elem. now left.
Qed.

(** C27: [qemu_run_timers] terminates and fires exactly the expired timers of its
    clock, each once and in the order of their deadlines, when the callbacks keep
    their promise ([TimerCallbacks]: well-formed lists, expired timers left
    alone); afterwards no timer of the clock is expired, the lists are well formed
    and the expired timers of the other clocks are untouched.  One turn more than
    the number of expired timers is enough. *)
Theorem timer_run_exact cb T n c s L : TimerCallbacks cb T -> lists s L -> 0 <= c < 3 -> aget (enabled s) c = 1 ->
  (length (due T s (L c)) < n)%nat ->
  sorted_by (fun x => expire_of x s) (due T s (L c))
  /\ exists s' L', qemu_run_timers cb n c T s = Some (s', due T s (L c)) /\ lists s' L'
    /\ due T s' (L' c) = [] /\ forall c', 0 <= c' < 3 -> c' <> c -> due T s' (L' c') = due T s (L c').
Proof.
  intros CB HL Hc He Hn. split; [apply due_sorted; now apply (proj2 HL c Hc)|].
  unfold qemu_run_timers. rewrite He. exact (timer_loop_spec cb T n c Hc s L [] HL Hn).
Qed.

(** A saved timer comes back.  The word [qemu_put_timer] writes makes
    [qemu_get_timer], on any machine that has the timer, arm it for the same
    deadline if it was pending, and stop it otherwise. *)
Theorem timer_save_restore ts s L s2 L2 : lists s L -> 0 <= clock_of ts s < 3 -> 0 <= expire_of ts s < 2 ^ 63 ->
  lists s2 L2 -> is_Some (timers s2 !! ts) -> 0 <= clock_of ts s2 < 3 ->
  exists v s', qemu_put_timer ts s = Some v /\ qemu_get_timer ts v s2 = Some s'
    /\ qemu_timer_pending ts s' = qemu_timer_pending ts s
    /\ (qemu_timer_pending ts s = Some true -> expire_of ts s' = expire_of ts s).
Proof.
  intros HL Hc He HL2 Ht2 Hc2. unfold qemu_put_timer. rewrite (timer_pending_spec ts s L HL Hc).
  destruct (bool_decide_reflect (ts ∈ L (clock_of ts s))) as [Hp|Hp].
  - destruct (mod_timer_lists ts (expire_of ts s) s2 L2 HL2 Ht2 Hc2) as (s' & E & HL' & X1 & _ & K & _).
    assert (u64 (expire_of ts s) = expire_of ts s) as Eu by (unfold u64; apply Z.mod_small; lia).
    exists (u64 (expire_of ts s)), s'. split; [done|]. split.
    { unfold qemu_get_timer. rewrite Eu. destruct (Z.eqb_spec (expire_of ts s) (u64 (-1))) as [Hx|_].
      - replace (u64 (-1)) with (2 ^ 64 - 1) in Hx by reflexivity. lia.
      - cbn [negb]. unfold s64. rewrite Eu. destruct (Z.ltb_spec (expire_of ts s) 9223372036854775808); [exact E|lia]. }
    rewrite (timer_pending_spec ts s' _ HL'), K by (rewrite K; lia). unfold upd. rewrite Z.eqb_refl.
    rewrite bool_decide_true by (apply ins_elem; now left). done.
  - destruct (del_timer_spec ts s2 L2 HL2 Hc2) as (s' & E & HL' & F). exists (u64 (-1)), s'. split; [done|].
    split; [unfold qemu_get_timer; rewrite Z.eqb_refl; exact E|].
    rewrite (timer_pending_spec ts s' _ HL'), (sf_clock _ _ F) by (rewrite (sf_clock _ _ F); lia). unfold upd. rewrite Z.eqb_refl.
    rewrite bool_decide_false by (rewrite del_elem; tauto). done.
Qed.

Lemma sooner_spec now s L c delta x : lists s L -> 0 <= c < 3 ->
  sooner now s c delta <= delta /\ (x ∈ L c -> sooner now s c delta <= expire_of x s - now c).
Proof.
  intros [_ HL] Hc. destruct (HL c Hc) as (H1 & _ & H3 & _). unfold sooner. destruct (L c) as [|y l].
  - cbn [chain] in H1. rewrite H1. split; [lia|]. intros Hx. now apply not_elem_of_nil in Hx.
  - destruct H1 as [-> _]. destruct H3 as [H3 _]. cbv zeta.
    destruct (Z.ltb_spec (expire_of y s - now c) delta); (split; [lia|]); intros [-> | Hx]%elem_of_cons; try lia;
      specialize (H3 x Hx); lia.
Qed.

(** The host alarm is never set too late: the time [qemu_next_alarm_deadline]
    returns is at most the time to the deadline of every pending timer of every
    clock, and at most 2^31 - 1 nanoseconds when no virtual timer is pending; so when
    the signal handler finds a timer expired it leaves the alarm pending. *)
Theorem timer_alarm_not_late now s L c x : lists s L -> 0 <= c < 3 -> x ∈ L c ->
  qemu_next_alarm_deadline now s <= expire_of x s - now c
  /\ (L QEMU_CLOCK_VIRTUAL = [] -> qemu_next_alarm_deadline now s <= 2 ^ 31 - 1)
  /\ (expire_of x s <= now c -> pending (host_alarm_handler now s).1 = 1).
Proof.
  intros HL Hc Hx. assert (qemu_next_alarm_deadline now s <= expire_of x s - now c
    /\ (L QEMU_CLOCK_VIRTUAL = [] -> qemu_next_alarm_deadline now s <= 2 ^ 31 - 1)) as [H1 H2].
  { unfold qemu_next_alarm_deadline. set (v := match load _ s with Some _ => _ | None => _ end).
    destruct (sooner_spec now s L QEMU_CLOCK_HOST v x HL) as [A1 A2]; [unfold QEMU_CLOCK_HOST; lia|].
    destruct (sooner_spec now s L QEMU_CLOCK_REALTIME (sooner now s QEMU_CLOCK_HOST v) x HL) as [B1 B2];
      [unfold QEMU_CLOCK_REALTIME; lia|]. cbv zeta.
    destruct (proj2 HL 1 ltac:(lia)) as (C1 & _ & C3 & _). split.
    - assert (c = 0 \/ c = 1 \/ c = 2) as [-> | [-> | ->]] by lia.
      + specialize (B2 Hx). exact B2.
      + enough (v <= expire_of x s - now 1) by lia. unfold v. change QEMU_CLOCK_VIRTUAL with 1. destruct (L 1) as [|y l].
        * now apply not_elem_of_nil in Hx.
        * destruct C1 as [-> _]. destruct C3 as [C3 _]. apply elem_of_cons in Hx as [-> | Hx]; [lia|]. specialize (C3 x Hx). lia.
      + specialize (A2 Hx). change QEMU_CLOCK_HOST with 2 in *. lia.
    - intros E. change QEMU_CLOCK_VIRTUAL with 1 in E. rewrite E in C1. cbn [chain] in C1.
      enough (v <= 2 ^ 31 - 1) by lia. unfold v. change QEMU_CLOCK_VIRTUAL with 1. rewrite C1. lia. }
  split; [exact H1|]. split; [exact H2|]. intros He. unfold host_alarm_handler.
  destruct (Z.leb_spec (qemu_next_alarm_deadline now s) 0); [now rewrite orb_true_r|lia].
Qed.

(** ** The cycle counter *)

(** A read of the counter, or a stop or start of the machine, with the values of
    the host's counter and clock at that moment. *)
Inductive tick_op := Read (real : Z) | Stop (real clk : Z) | Start (real clk : Z).

Definition tick_step (o : tick_op) (s : TimersState) : TimersState :=
  match o with
  | Read real => (cpu_get_ticks real s).2
  | Stop real clk => cpu_disable_ticks real clk s
  | Start real clk => cpu_enable_ticks real clk s
  end.
Definition real_of (o : tick_op) : Z := match o with Read r | Stop r _ | Start r _ => r end.

(** The counter as a read at host counter [real] would return it. *)
Definition guest_ticks (real : Z) (s : TimersState) : Z := (cpu_get_ticks real s).1.

Ltac tick_simpl :=
  cbn [over fst snd cpu_ticks_prev cpu_ticks_offset cpu_ticks_enabled cpu_clock_offset];
  change (truthy 0) with false; change (truthy 1) with true; cbn [negb].


(** While the machine runs, a read never returns less than the one before,
    whatever the host counter does. *)
Lemma read_monotone r1 r2 s : guest_ticks r1 s <= guest_ticks r2 (tick_step (Read r1) s).
Proof.
  unfold guest_ticks, tick_step, cpu_get_ticks. destruct (truthy (cpu_ticks_enabled s)) eqn:E; cbn [negb fst snd]; [|now rewrite E].
  cbv zeta. destruct (r1 <? cpu_ticks_prev s); tick_simpl; rewrite E; cbn [negb];
    destruct (Z.ltb_spec r2 r1); tick_simpl; lia.
Qed.

(** Host counters that do not go back, from [real] on. *)
Fixpoint host_forward (real : Z) (os : list tick_op) : Prop :=
  match os with
  | [] => True
  | o :: os => real <= real_of o /\ host_forward (real_of o) os
  end.
Definition last_real (real : Z) (os : list tick_op) : Z := fold_left (fun _ o => real_of o) os real.

(** The counter is at least as high as any earlier one. *)
Lemma tick_step_monotone o real s : real <= real_of o -> cpu_ticks_prev s <= real ->
  guest_ticks real s <= guest_ticks (real_of o) (tick_step o s) /\ cpu_ticks_prev (tick_step o s) <= real_of o.
Proof.
  intros Hr Hp. unfold guest_ticks, tick_step, cpu_disable_ticks, cpu_enable_ticks, cpu_get_ticks.
  assert (forall r, real <= r -> (r <? cpu_ticks_prev s) = false) as Hge by (intros r H; apply Z.ltb_ge; lia).
  destruct o as [r | r k | r k]; cbn [real_of] in *; rewrite ?Hge by lia;
    destruct (truthy (cpu_ticks_enabled s)) eqn:E; cbn [negb]; cbv zeta; rewrite ?Hge by lia; tick_simpl; rewrite ?E;
    cbn [negb]; rewrite ?Hge by lia; rewrite ?Z.ltb_irrefl; tick_simpl; lia.
Qed.

Lemma ticks_trace os : forall real s, cpu_ticks_prev s <= real -> host_forward real os ->
  guest_ticks real s <= guest_ticks (last_real real os) (fold_left (fun s o => tick_step o s) os s).
Proof.
  induction os as [|o os IH]; intros real s Hp Hf; [cbn; lia|]. destruct Hf as [Hr Hf].
  destruct (tick_step_monotone o real s Hr Hp) as [H1 H2]. etransitivity; [exact H1|]. exact (IH _ _ H2 Hf).
Qed.

(** The guest's cycle counter never runs backwards.  Over every sequence of
    reads, stops and starts on a host whose counter does not go back the value
    only grows; while the machine runs it only grows even when the host's counter
    jumps back; and a stop followed by a start continues both the counter and the
    virtual clock where they stopped. *)
Theorem cpu_ticks_monotone os real s : cpu_ticks_prev s <= real -> host_forward real os ->
  let s' := fold_left (fun s o => tick_step o s) os s in
  guest_ticks real s <= guest_ticks (last_real real os) s'
  /\ (forall r1 r2, guest_ticks r1 s' <= guest_ticks r2 (tick_step (Read r1) s'))
  /\ (cpu_ticks_enabled s = 1 -> forall r1 r2 k1 k2, real <= r1 -> r1 <= r2 ->
       let t := cpu_enable_ticks r2 k2 (cpu_disable_ticks r1 k1 s) in
       guest_ticks r2 t = guest_ticks r1 s /\ cpu_get_clock k2 t = cpu_get_clock k1 s).
Proof.
  intros Hp Hf. cbv zeta. split; [now apply ticks_trace|]. split; [intros; apply read_monotone|].
  intros E r1 r2 k1 k2 H1 H2. unfold guest_ticks, cpu_enable_ticks, cpu_disable_ticks, cpu_get_clock, cpu_get_ticks.
  rewrite E. replace (r1 <? cpu_ticks_prev s) with false by (symmetry; apply Z.ltb_ge; lia). tick_simpl.
  rewrite ?E. tick_simpl. rewrite ?E. tick_simpl. destruct (Z.ltb_spec r2 r1); tick_simpl; lia.
Qed.

(** ** A machine with three timers *)

Definition three : TimerLists :=
  mkLists (<[1 := mkTimer 1 10 1 (Some 2)]> (<[2 := mkTimer 1 20 1 None]> (<[3 := mkTimer 1 30 1 None]> ∅)))
    [None; Some 1; None] [1; 1; 1] 0 0 true 0.
Definition three_lists (c : Z) : list Z := if c =? 1 then [1; 2] else [].

Lemma three_ok : lists three three_lists.
Proof.
  assert (forall c, load (Head c) three = None -> list_ok three c []) as Hnil.
  { intros c E. split; [exact E|]. split; [apply NoDup_nil_2|]. split; [done|]. intros x Hx. now apply not_elem_of_nil in Hx. }
  split; [done|]. intros c Hc. assert (c = 0 \/ c = 1 \/ c = 2) as [-> |[-> | ->]] by lia;
    [now apply Hnil| |now apply Hnil].
  change (three_lists 1) with [1; 2]. split; [|split; [|split]].
  - split; [done|]. split; [now eexists|]. split; [done|]. split; [now eexists|done].
  - apply NoDup_cons_2; [|apply NoDup_singleton]. rewrite list_elem_of_singleton. lia.
  - split; [intros y Hy%list_elem_of_singleton; subst y; vm_compute; discriminate|].
    split; [intros y Hy; now apply not_elem_of_nil in Hy|done].
  - intros x. rewrite elem_of_cons, list_elem_of_singleton. now intros [-> | ->].
Qed.

Lemma timer_mod_witness : exists s', qemu_mod_timer_ns 3 15 three = Some s' /\ lists s' (upd three_lists 1 [1; 3; 2]).
Proof.
  destruct (timer_mod_refines 3 15 three three_lists three_ok) as (s' & E & H & _); [now eexists|vm_compute; intuition discriminate|].
  exists s'. split; [exact E|exact H].
Defined.

Lemma timer_run_witness : exists s', qemu_run_timers (rearm_after 25 100) 3 1 25 three = Some (s', [1; 2]).
Proof.
  destruct (timer_run_exact (rearm_after 25 100) 25 3 1 three three_lists) as (_ & s' & L' & E & _);
    [apply rearm_after_ok; lia|exact three_ok|lia|done|vm_compute; lia|].
  exists s'. exact E.
Defined.

Lemma timer_save_witness : exists v s', qemu_put_timer 2 three = Some v /\ qemu_get_timer 2 v three = Some s'
  /\ expire_of 2 s' = 20.
Proof.
  destruct (timer_save_restore 2 three three_lists three three_lists three_ok) as (v & s' & P & G & _ & X);
    [vm_compute; intuition discriminate|vm_compute; intuition discriminate|exact three_ok|now eexists|vm_compute; intuition discriminate|].
  exists v, s'. split; [exact P|]. split; [exact G|]. apply X. reflexivity.
Defined.

Lemma timer_alarm_witness : pending (host_alarm_handler (fun _ => 12) three).1 = 1.
Proof.
  destruct (timer_alarm_not_late (fun _ => 12) three three_lists 1 1 three_ok) as (_ & _ & H); [lia|left|].
  apply H. vm_compute. discriminate.
Defined.

Lemma cpu_ticks_witness :
  guest_ticks 100 (mkTicks 50 0 0 1)
  <= guest_ticks 400 (fold_left (fun s o => tick_step o s) [Read 150; Stop 200 7; Start 400 9] (mkTicks 50 0 0 1)).
Proof. apply (cpu_ticks_monotone [Read 150; Stop 200 7; Start 400 9] 100 (mkTicks 50 0 0 1)); cbn; lia. Defined.

End Timer.
