(* ===== verification/Pci.v ===== *)
(** * The PCI bus: hw/pci.c, hw/pci_host.c, hw/pci_bridge.c

    Devices and buses point at each other; here both live in lists and a pointer
    is an index ([devs], [buses]).  What a device does outside the bus (mapping a
    region, driving the host bridge's interrupt inputs) goes through the class
    [PciHost] on a world [W].  A failed [assert], a NULL bus pointer and the exit
    of [pci_register_bar] are [None]. *)

From S2P Require Import Prelude.

Module Pci.

(** ** Registers: hw/pci_regs.h *)

Definition PCI_VENDOR_ID : Z := 0x00.
Definition PCI_DEVICE_ID : Z := 0x02.
Definition PCI_COMMAND : Z := 0x04.
Definition PCI_COMMAND_IO : Z := 0x1.
Definition PCI_COMMAND_MEMORY : Z := 0x2.
Definition PCI_COMMAND_MASTER : Z := 0x4.
Definition PCI_COMMAND_SERR : Z := 0x100.
Definition PCI_COMMAND_INTX_DISABLE : Z := 0x400.
Definition PCI_STATUS : Z := 0x06.
Definition PCI_STATUS_INTERRUPT : Z := 0x08.
Definition PCI_STATUS_CAP_LIST : Z := 0x10.
Definition PCI_REVISION_ID : Z := 0x08.
Definition PCI_CLASS_PROG : Z := 0x09.
Definition PCI_CLASS_DEVICE : Z := 0x0a.
Definition PCI_CACHE_LINE_SIZE : Z := 0x0c.
Definition PCI_HEADER_TYPE : Z := 0x0e.
Definition PCI_HEADER_TYPE_BRIDGE : Z := 1.
Definition PCI_HEADER_TYPE_MULTI_FUNCTION : Z := 0x80.
Definition PCI_BASE_ADDRESS_0 : Z := 0x10.
Definition PCI_BASE_ADDRESS_SPACE_IO : Z := 0x01.
Definition PCI_BASE_ADDRESS_MEM_TYPE_64 : Z := 0x04.
Definition PCI_BASE_ADDRESS_MEM_PREFETCH : Z := 0x08.
Definition PCI_SUBSYSTEM_VENDOR_ID : Z := 0x2c.
Definition PCI_SUBSYSTEM_ID : Z := 0x2e.
Definition PCI_ROM_ADDRESS : Z := 0x30.
Definition PCI_ROM_ADDRESS_ENABLE : Z := 0x01.
Definition PCI_CAPABILITY_LIST : Z := 0x34.
Definition PCI_INTERRUPT_LINE : Z := 0x3c.
Definition PCI_PRIMARY_BUS : Z := 0x18.
Definition PCI_SECONDARY_BUS : Z := 0x19.
Definition PCI_SUBORDINATE_BUS : Z := 0x1a.
Definition PCI_IO_BASE : Z := 0x1c.
Definition PCI_IO_LIMIT : Z := 0x1d.
Definition PCI_IO_RANGE_TYPE_32 : Z := 0x01.
Definition PCI_IO_RANGE_MASK : Z := ~~ 0x0f.
Definition PCI_MEMORY_BASE : Z := 0x20.
Definition PCI_MEMORY_LIMIT : Z := 0x22.
Definition PCI_MEMORY_RANGE_MASK : Z := ~~ 0x0f.
Definition PCI_PREF_MEMORY_BASE : Z := 0x24.
Definition PCI_PREF_MEMORY_LIMIT : Z := 0x26.
Definition PCI_PREF_RANGE_TYPE_64 : Z := 0x01.
Definition PCI_PREF_RANGE_MASK : Z := ~~ 0x0f.
Definition PCI_PREF_BASE_UPPER32 : Z := 0x28.
Definition PCI_PREF_LIMIT_UPPER32 : Z := 0x2c.
Definition PCI_IO_BASE_UPPER16 : Z := 0x30.
Definition PCI_IO_LIMIT_UPPER16 : Z := 0x32.
Definition PCI_ROM_ADDRESS1 : Z := 0x38.
Definition PCI_BRIDGE_CONTROL : Z := 0x3e.
Definition PCI_BRIDGE_CTL_BUS_RESET : Z := 0x40.
Definition PCI_CAP_LIST_ID : Z := 0.
Definition PCI_CAP_LIST_NEXT : Z := 1.

(** hw/pci.h *)
Definition PCI_BAR_UNMAPPED : Z := u64 (~~ 0).
Definition PCI_ROM_SLOT : Z := 6.
Definition PCI_NUM_REGIONS : Z := 7.
Definition PCI_CONFIG_HEADER_SIZE : Z := 0x40.
Definition PCI_CONFIG_SPACE_SIZE : Z := 0x100.
Definition PCIE_CONFIG_SPACE_SIZE : Z := 0x1000.
Definition PCI_NUM_PINS : Z := 4.
Definition QEMU_PCI_CAP_EXPRESS : Z := 0x4.
Definition QEMU_PCI_CAP_MULTIFUNCTION : Z := 1 << 3.
Definition QEMU_PCI_CAP_SERR : Z := 1 << 4.
Definition PCI_FUNC_MAX : Z := 8.
Definition PCI_SLOT_MAX : Z := 32.
Definition PCI_SLOT (devfn : Z) : Z := (devfn >> 3) .& 0x1f.
Definition PCI_FUNC (devfn : Z) : Z := devfn .& 0x07.
Definition PCI_DEVFN (slot func : Z) : Z := ((slot .& 0x1f) << 3) .| (func .& 0x07).

(** range.h *)
Definition range_get_last (offset len : Z) : Z := u64 (offset + len - 1).
Definition range_covers_byte (offset len byte : Z) : bool :=
  (offset <=? byte) && (byte <=? range_get_last offset len).
Definition ranges_overlap (first1 len1 first2 len2 : Z) : bool :=
  negb ((range_get_last first2 len2 <? first1) || (range_get_last first1 len1 <? first2)).

(** ** Devices and buses *)

Record PCIIORegion := mkRegion {
  addr : Z;            (* current PCI mapping address, -1 means not mapped *)
  size : Z;
  filtered_size : Z;
  type : Z
}.

#[export] Instance PCIIORegion_eta : Eta PCIIORegion := fun r =>
  mkRegion (addr r) (size r) (filtered_size r) (type r).

Record PCIDevice := mkDevice {
  config : list Z;
  cmask : list Z;
  wmask : list Z;
  w1cmask : list Z;
  used : list Z;
  bus : Z;
  devfn : Z;
  io_regions : list PCIIORegion;
  irq_state : Z;
  cap_present : Z
}.

#[export] Instance PCIDevice_eta : Eta PCIDevice := fun d =>
  mkDevice (config d) (cmask d) (wmask d) (w1cmask d) (used d) (bus d) (devfn d) (io_regions d)
    (irq_state d) (cap_present d).

Record PCIBus := mkBus {
  devfn_min : Z;
  has_set_irq : bool;                (* set_irq is not NULL *)
  map_irq : PCIDevice -> Z -> Z;
  devices : list (option Z);
  parent_dev : option Z;
  mem_base : Z;
  child : list Z;
  nirq : Z;
  irq_count : list Z
}.

#[export] Instance PCIBus_eta : Eta PCIBus := fun b =>
  mkBus (devfn_min b) (has_set_irq b) (map_irq b) (devices b) (parent_dev b) (mem_base b) (child b) (nirq b) (irq_count b).

Record PciState := mkPci { devs : list PCIDevice; buses : list PCIBus }.

#[export] Instance PciState_eta : Eta PciState := fun s => mkPci (devs s) (buses s).

Definition region0 : PCIIORegion := mkRegion 0 0 0 0.
Definition device0 : PCIDevice := mkDevice [] [] [] [] [] 0 0 [] 0 0.
Definition bus0 : PCIBus := mkBus 0 false (fun _ n => n) [] None 0 [] 0 [].

Definition dev (i : Z) (s : PciState) : PCIDevice := nth (Z.to_nat i) (devs s) device0.
Definition set_dev (i : Z) (d : PCIDevice) (s : PciState) : PciState :=
  s <| devs := <[Z.to_nat i := d]> (devs s) |>.
Definition the_bus (i : Z) (s : PciState) : PCIBus := nth (Z.to_nat i) (buses s) bus0.
Definition set_bus (i : Z) (b : PCIBus) (s : PciState) : PciState :=
  s <| buses := <[Z.to_nat i := b]> (buses s) |>.
Definition region (i : Z) (d : PCIDevice) : PCIIORegion := nth (Z.to_nat i) (io_regions d) region0.
Definition set_region (i : Z) (r : PCIIORegion) (d : PCIDevice) : PCIDevice :=
  d <| io_regions := <[Z.to_nat i := r]> (io_regions d) |>.

(** ** Access to configuration space: hw/pci.h *)

Definition pci_set_byte (c : list Z) (i v : Z) : list Z := aset c i (u8 v).
Definition pci_get_byte (c : list Z) (i : Z) : Z := aget c i.
Definition pci_set_word (c : list Z) (i v : Z) : list Z := aset (aset c i (u8 v)) (i + 1) (u8 (v >> 8)).
Definition pci_get_word (c : list Z) (i : Z) : Z := aget c i .| (aget c (i + 1) << 8).
Definition pci_set_long (c : list Z) (i v : Z) : list Z := pci_set_word (pci_set_word c i v) (i + 2) (v >> 16).
Definition pci_get_long (c : list Z) (i : Z) : Z := pci_get_word c i .| (pci_get_word c (i + 2) << 16).
Definition pci_set_quad (c : list Z) (i v : Z) : list Z := pci_set_long (pci_set_long c i v) (i + 4) (v >> 32).
Definition pci_get_quad (c : list Z) (i : Z) : Z := pci_get_long c i .| (pci_get_long c (i + 4) << 32).

Definition pci_byte_test_and_clear_mask (c : list Z) (i mask : Z) : list Z :=
  pci_set_byte c i (pci_get_byte c i .& ~~ mask).
Definition pci_byte_test_and_set_mask (c : list Z) (i mask : Z) : list Z :=
  pci_set_byte c i (pci_get_byte c i .| mask).
Definition pci_word_test_and_clear_mask (c : list Z) (i mask : Z) : list Z :=
  pci_set_word c i (pci_get_word c i .& ~~ mask).
Definition pci_word_test_and_set_mask (c : list Z) (i mask : Z) : list Z :=
  pci_set_word c i (pci_get_word c i .| mask).

(** [memset(c + i, v, n)] *)
Fixpoint memset (c : list Z) (i v : Z) (n : nat) : list Z :=
  match n with O => c | S n => memset (aset c i v) (i + 1) v n end.

Definition pci_is_express (d : PCIDevice) : bool := tst (cap_present d) QEMU_PCI_CAP_EXPRESS.
Definition pci_config_size (d : PCIDevice) : Z :=
  if pci_is_express d then PCIE_CONFIG_SPACE_SIZE else PCI_CONFIG_SPACE_SIZE.

Definition pci_bar (d : PCIDevice) (reg : Z) : Z :=
  if negb (reg =? PCI_ROM_SLOT) then PCI_BASE_ADDRESS_0 + reg * 4
  else
    let ty := u8 (aget (config d) PCI_HEADER_TYPE .& ~~ PCI_HEADER_TYPE_MULTI_FUNCTION) in
    if ty =? PCI_HEADER_TYPE_BRIDGE then PCI_ROM_ADDRESS1 else PCI_ROM_ADDRESS.

Definition pci_irq_state (d : PCIDevice) (irq_num : Z) : Z := (irq_state d >> irq_num) .& 0x1.
Definition pci_set_irq_state (irq_num level : Z) (d : PCIDevice) : PCIDevice :=
  let d := d <| irq_state := u8 (irq_state d .& ~~ (0x1 << irq_num)) |> in
  d <| irq_state := u8 (irq_state d .| (level << irq_num)) |>.

Definition pci_update_irq_status (d : PCIDevice) : PCIDevice :=
  if truthy (irq_state d)
  then d <| config := aset (config d) PCI_STATUS (u8 (aget (config d) PCI_STATUS .| PCI_STATUS_INTERRUPT)) |>
  else d <| config := aset (config d) PCI_STATUS (u8 (aget (config d) PCI_STATUS .& ~~ PCI_STATUS_INTERRUPT)) |>.

Definition pci_irq_disabled (d : PCIDevice) : Z :=
  pci_get_word (config d) PCI_COMMAND .& PCI_COMMAND_INTX_DISABLE.

(** ** Bridge windows: hw/pci_bridge.c *)

Definition pci_config_get_io_base (d : PCIDevice) (base base_upper16 : Z) : Z :=
  let val := u32 ((aget (config d) base .& PCI_IO_RANGE_MASK) << 8) in
  if tst (aget (config d) base) PCI_IO_RANGE_TYPE_32
  then val .| (pci_get_word (config d) base_upper16 << 16) else val.
Definition pci_config_get_memory_base (d : PCIDevice) (base : Z) : Z :=
  (pci_get_word (config d) base .& PCI_MEMORY_RANGE_MASK) << 16.
Definition pci_config_get_pref_base (d : PCIDevice) (base upper : Z) : Z :=
  let tmp := pci_get_word (config d) base in
  let val := (tmp .& PCI_PREF_RANGE_MASK) << 16 in
  if tst tmp PCI_PREF_RANGE_TYPE_64 then val .| (pci_get_long (config d) upper << 32) else val.

Definition pci_bridge_get_base (bridge : PCIDevice) (ty : Z) : Z :=
  if tst ty PCI_BASE_ADDRESS_SPACE_IO then pci_config_get_io_base bridge PCI_IO_BASE PCI_IO_BASE_UPPER16
  else if tst ty PCI_BASE_ADDRESS_MEM_PREFETCH
  then pci_config_get_pref_base bridge PCI_PREF_MEMORY_BASE PCI_PREF_BASE_UPPER32
  else pci_config_get_memory_base bridge PCI_MEMORY_BASE.
Definition pci_bridge_get_limit (bridge : PCIDevice) (ty : Z) : Z :=
  if tst ty PCI_BASE_ADDRESS_SPACE_IO
  then pci_config_get_io_base bridge PCI_IO_LIMIT PCI_IO_LIMIT_UPPER16 .| 0xfff
  else
    (if tst ty PCI_BASE_ADDRESS_MEM_PREFETCH
     then pci_config_get_pref_base bridge PCI_PREF_MEMORY_LIMIT PCI_PREF_LIMIT_UPPER32
     else pci_config_get_memory_base bridge PCI_MEMORY_LIMIT) .| 0xfffff.

(** ** The bus *)

(** What the bus calls outside itself: the interrupt input of the host bridge,
    the map function of a region, and the removal of a mapping. *)
Class PciHost (W : Type) := {
  set_irq : PciState -> Z -> Z -> Z -> W -> W;               (* bus, irq, level *)
  map_func : PciState -> Z -> Z -> Z -> Z -> Z -> W -> W;    (* device, region, address, size, type *)
  isa_unassign_ioport : Z -> Z -> W -> W;
  unassign_memory : Z -> Z -> W -> W
}.

Section Bus.
Context {W : Type} {H : PciHost W}.

(** The loop of [pci_change_irq_level]: the bus with a [set_irq] and its input. *)
Fixpoint irq_route (n : nat) (d irq_num : Z) (s : PciState) : option (Z * Z) :=
  match n with
  | O => None
  | S n =>
      let b := bus (dev d s) in
      let irq_num := map_irq (the_bus b s) (dev d s) irq_num in
      if has_set_irq (the_bus b s) then Some (b, irq_num)
      else match parent_dev (the_bus b s) with
           | Some p => irq_route n p irq_num s
           | None => None
           end
  end.

Definition pci_change_irq_level (d irq_num change : Z) (s : PciState) (w : W) : option (PciState * W) :=
  match irq_route (length (buses s)) d irq_num s with
  | None => None
  | Some (b, irq_num) =>
      let count := aget (irq_count (the_bus b s)) irq_num + change in
      let s := set_bus b ((the_bus b s) <| irq_count := aset (irq_count (the_bus b s)) irq_num count |>) s in
      Some (s, set_irq s b irq_num (b2z (negb (count =? 0))) w)
  end.

Definition pci_bus_get_irq_level (b irq_num : Z) (s : PciState) : option Z :=
  if (0 <=? irq_num) && (irq_num <? nirq (the_bus b s))
  then Some (b2z (truthy (aget (irq_count (the_bus b s)) irq_num))) else None.

Definition pci_set_irq (d irq_num level : Z) (s : PciState) (w : W) : option (PciState * W) :=
  let change := level - pci_irq_state (dev d s) irq_num in
  if change =? 0 then Some (s, w)
  else
    let s := set_dev d (pci_set_irq_state irq_num level (dev d s)) s in
    let s := set_dev d (pci_update_irq_status (dev d s)) s in
    if truthy (pci_irq_disabled (dev d s)) then Some (s, w)
    else pci_change_irq_level d irq_num change s w.

Definition pci_to_cpu_addr (b a : Z) (s : PciState) : Z := u64 (a + mem_base (the_bus b s)).

(** [MAX] and [MIN] over the bridges above the device; [None] is the label
    [no_map]. *)
Fixpoint filter_loop (n : nat) (cmd ty : Z) (br : option Z) (base limit : Z) (s : PciState) : option (Z * Z) :=
  match n, br with
  | _, None => Some (base, limit)
  | O, Some _ => None
  | S n, Some br =>
      if tst ty PCI_BASE_ADDRESS_SPACE_IO && negb (tst cmd PCI_COMMAND_IO) then None
      else if negb (tst ty PCI_BASE_ADDRESS_SPACE_IO) && negb (tst cmd PCI_COMMAND_MEMORY) then None
      else
        filter_loop n cmd ty (parent_dev (the_bus (bus (dev br s)) s))
          (Z.max base (pci_bridge_get_base (dev br s) ty)) (Z.min limit (pci_bridge_get_limit (dev br s) ty)) s
  end.

(** The new address and size. *)
Definition pci_bridge_filter (d a sz ty : Z) (s : PciState) : Z * Z :=
  let cmd := pci_get_word (config (dev d s)) PCI_COMMAND in
  match filter_loop (length (buses s)) cmd ty (parent_dev (the_bus (bus (dev d s)) s)) a (u64 (a + sz - 1)) s with
  | None => (PCI_BAR_UNMAPPED, 0)
  | Some (base, limit) =>
      if limit <? base then (PCI_BAR_UNMAPPED, 0) else (base, u64 (limit - base + 1))
  end.

Definition pci_bar_address (d : PCIDevice) (reg ty sz : Z) : Z :=
  let bar := pci_bar d reg in
  let cmd := pci_get_word (config d) PCI_COMMAND in
  if tst ty PCI_BASE_ADDRESS_SPACE_IO then
    if negb (tst cmd PCI_COMMAND_IO) then PCI_BAR_UNMAPPED
    else
      let new_addr := pci_get_long (config d) bar .& u64 (~~ (sz - 1)) in
      let last_addr := u64 (new_addr + sz - 1) in
      if (last_addr <=? new_addr) || (new_addr =? 0) || (0xffff <? last_addr)
      then PCI_BAR_UNMAPPED else new_addr
  else if negb (tst cmd PCI_COMMAND_MEMORY) then PCI_BAR_UNMAPPED
  else
    let new_addr := if tst ty PCI_BASE_ADDRESS_MEM_TYPE_64
                    then pci_get_quad (config d) bar else pci_get_long (config d) bar in
    (* the ROM slot has a specific enable bit *)
    if (reg =? PCI_ROM_SLOT) && negb (tst new_addr PCI_ROM_ADDRESS_ENABLE) then PCI_BAR_UNMAPPED
    else
      let new_addr := new_addr .& u64 (~~ (sz - 1)) in
      let last_addr := u64 (new_addr + sz - 1) in
      if (last_addr <=? new_addr) || (new_addr =? 0) || (last_addr =? PCI_BAR_UNMAPPED) then PCI_BAR_UNMAPPED
      else if negb (tst ty PCI_BASE_ADDRESS_MEM_TYPE_64) && (0xffffffff <=? last_addr) then PCI_BAR_UNMAPPED
      else if 0xffffffffffffffff <=? last_addr then PCI_BAR_UNMAPPED
      else new_addr.

(** One turn of [pci_update_mappings]. *)
Definition update_region (d : Z) (st : PciState * W) (i : Z) : PciState * W :=
  let '(s, w) := st in
  let r := region i (dev d s) in
  if size r =? 0 then (s, w)
  else
    let new_addr := pci_bar_address (dev d s) i (type r) (size r) in
    let '(new_addr, new_size) :=
      if negb (new_addr =? PCI_BAR_UNMAPPED) then pci_bridge_filter d new_addr (size r) (type r) s
      else (new_addr, size r) in
    (* This bar isn't changed *)
    if (new_addr =? addr r) && (new_size =? filtered_size r) then (s, w)
    else
      let w :=
        if negb (addr r =? PCI_BAR_UNMAPPED) then
          if tst (type r) PCI_BASE_ADDRESS_SPACE_IO then
            (* NOTE: specific hack for IDE in PC case: only one byte must be mapped. *)
            if (pci_get_word (config (dev d s)) PCI_CLASS_DEVICE =? 0x0101) && (size r =? 4)
            then isa_unassign_ioport (u64 (addr r + 2)) 1 w
            else isa_unassign_ioport (addr r) (filtered_size r) w
          else unassign_memory (pci_to_cpu_addr (bus (dev d s)) (addr r) s) (filtered_size r) w
        else w in
      let r := r <| addr := new_addr |> <| filtered_size := new_size |> in
      let s := set_dev d (set_region i r (dev d s)) s in
      let w :=
        if negb (addr r =? PCI_BAR_UNMAPPED) then
          if tst (type r) PCI_BASE_ADDRESS_SPACE_IO then map_func s d i (addr r) (filtered_size r) (type r) w
          else map_func s d i (pci_to_cpu_addr (bus (dev d s)) (addr r) s) (filtered_size r) (type r) w
        else w in
      (s, w).

Definition pci_update_mappings (d : Z) (s : PciState) (w : W) : PciState * W :=
  foldl (update_region d) (s, w) (seqZ 0 PCI_NUM_REGIONS).

(** One turn of the loop of [pci_update_irq_disabled]. *)
Definition update_pin (d disabled : Z) (st : option (PciState * W)) (i : Z) : option (PciState * W) :=
  match st with
  | None => None
  | Some (s, w) =>
      let state := pci_irq_state (dev d s) i in
      pci_change_irq_level d i (if truthy disabled then - state else state) s w
  end.
Definition pci_update_irq_disabled (d was_irq_disabled : Z) (s : PciState) (w : W) : option (PciState * W) :=
  let disabled := pci_irq_disabled (dev d s) in
  if disabled =? was_irq_disabled then Some (s, w)
  else foldl (update_pin d disabled) (Some (s, w)) (seqZ 0 PCI_NUM_PINS).

(** [memcpy] of [n] bytes as a little-endian number. *)
Fixpoint read_bytes (n : nat) (a : Z) (c : list Z) : Z :=
  match n with O => 0 | S n => aget c a .| (read_bytes n (a + 1) c << 8) end.
Definition pci_default_read_config (d : PCIDevice) (address len : Z) : option Z :=
  if (len =? 1) || (len =? 2) || (len =? 4)
  then Some (read_bytes (Z.to_nat (Z.min len (u32 (pci_config_size d - address)))) address (config d)) else None.

(** The loop of [pci_default_write_config]. *)
Fixpoint write_bytes (n : nat) (a val : Z) (d : PCIDevice) : option PCIDevice :=
  match n with
  | O => Some d
  | S n =>
      if negb (a <? pci_config_size d) then Some d
      else
        let wm := aget (wmask d) a in
        let w1m := aget (w1cmask d) a in
        if tst wm w1m then None
        else
          let d := d <| config := aset (config d) a (u8 ((aget (config d) a .& ~~ wm) .| (val .& wm))) |> in
          let d := d <| config := aset (config d) a (u8 (aget (config d) a .& ~~ (val .& w1m))) |> in
          write_bytes n (u32 (a + 1)) (val >> 8) d
  end.

Definition pci_default_write_config (d a val l : Z) (s : PciState) (w : W) : option (PciState * W) :=
  let was_irq_disabled := pci_irq_disabled (dev d s) in
  match write_bytes (Z.to_nat l) a val (dev d s) with
  | None => None
  | Some d' =>
      let s := set_dev d d' s in
      let '(s, w) :=
        if ranges_overlap a l PCI_BASE_ADDRESS_0 24 || ranges_overlap a l PCI_ROM_ADDRESS 4
           || ranges_overlap a l PCI_ROM_ADDRESS1 4 || range_covers_byte a l PCI_COMMAND
        then pci_update_mappings d s w else (s, w) in
      if range_covers_byte a l PCI_COMMAND then pci_update_irq_disabled d was_irq_disabled s w else Some (s, w)
  end.

(** ** Reset *)

(** [qdev_reset_all] on the device, which may drive the device's pins. *)
Variable qdev_reset_all : Z -> PciState -> W -> option (PciState * W).

Definition deassert_pin (d : Z) (st : option (PciState * W)) (i : Z) : option (PciState * W) :=
  match st with None => None | Some (s, w) => pci_set_irq d i 0 s w end.
Definition pci_device_deassert_intx (d : Z) (s : PciState) (w : W) : option (PciState * W) :=
  foldl (deassert_pin d) (Some (s, w)) (seqZ 0 PCI_NUM_PINS).

(** [config] with the base address register of region [i] reset. *)
Definition reset_bar (d : PCIDevice) (i : Z) : PCIDevice :=
  let r := region i d in
  if size r =? 0 then d
  else if negb (tst (type r) PCI_BASE_ADDRESS_SPACE_IO) && tst (type r) PCI_BASE_ADDRESS_MEM_TYPE_64
  then d <| config := pci_set_quad (config d) (pci_bar d i) (type r) |>
  else d <| config := pci_set_long (config d) (pci_bar d i) (type r) |>.

Definition clear_writable (i : Z) (d : PCIDevice) : PCIDevice :=
  d <| config := pci_word_test_and_clear_mask (config d) i (pci_get_word (wmask d) i .| pci_get_word (w1cmask d) i) |>.

Definition pci_device_reset (d : Z) (s : PciState) (w : W) : option (PciState * W) :=
  match qdev_reset_all d s w with
  | None => None
  | Some (s, w) =>
      let s := set_dev d ((dev d s) <| irq_state := 0 |>) s in
      let s := set_dev d (pci_update_irq_status (dev d s)) s in
      match pci_device_deassert_intx d s w with
      | None => None
      | Some (s, w) =>
          (* Clear all writable bits *)
          let c := clear_writable PCI_STATUS (clear_writable PCI_COMMAND (dev d s)) in
          let c := c <| config := aset (config c) PCI_CACHE_LINE_SIZE 0x0 |> in
          let c := c <| config := aset (config c) PCI_INTERRUPT_LINE 0x0 |> in
          let c := foldl reset_bar c (seqZ 0 PCI_NUM_REGIONS) in
          Some (pci_update_mappings d (set_dev d c s) w)
      end
  end.

Definition reset_slot (b : Z) (st : option (PciState * W)) (i : Z) : option (PciState * W) :=
  match st with
  | None => None
  | Some (s, w) =>
      match nth (Z.to_nat i) (devices (the_bus b s)) None with
      | None => Some (s, w)
      | Some d => pci_device_reset d s w
      end
  end.
Definition pci_bus_reset (b : Z) (s : PciState) (w : W) : option (PciState * W) :=
  let s := set_bus b ((the_bus b s) <| irq_count := memset (irq_count (the_bus b s)) 0 0 (Z.to_nat (nirq (the_bus b s))) |>) s in
  foldl (reset_slot b) (Some (s, w)) (seqZ 0 (PCI_SLOT_MAX * PCI_FUNC_MAX)).

(** [pci_for_each_device_under_bus] with [pci_bridge_update_mappings_fn], and the
    recursion over the buses below. *)
Definition update_slot (b : Z) (st : PciState * W) (i : Z) : PciState * W :=
  match nth (Z.to_nat i) (devices (the_bus b st.1)) None with
  | None => st
  | Some d => pci_update_mappings d st.1 st.2
  end.
Fixpoint pci_bridge_update_mappings (n : nat) (b : Z) (st : PciState * W) : PciState * W :=
  match n with
  | O => st
  | S n =>
      let st := foldl (update_slot b) st (seqZ 0 (PCI_SLOT_MAX * PCI_FUNC_MAX)) in
      foldl (fun st c => pci_bridge_update_mappings n c st) st (child (the_bus b st.1))
  end.

(** The secondary bus of the bridge [d] is [sec]. *)
Definition pci_bridge_write_config (d sec a val len : Z) (s : PciState) (w : W) : option (PciState * W) :=
  let oldctl := pci_get_word (config (dev d s)) PCI_BRIDGE_CONTROL in
  match pci_default_write_config d a val len s w with
  | None => None
  | Some (s, w) =>
      let '(s, w) :=
        if ranges_overlap a len PCI_IO_BASE 2 || ranges_overlap a len PCI_MEMORY_BASE 20
        then pci_bridge_update_mappings (length (buses s)) sec (s, w) else (s, w) in
      let newctl := pci_get_word (config (dev d s)) PCI_BRIDGE_CONTROL in
      if tst (~~ oldctl .& newctl) PCI_BRIDGE_CTL_BUS_RESET then pci_bus_reset sec s w else Some (s, w)
  end.

End Bus.

(** ** Registration *)

Definition pci_bar_masks (ty : Z) : bool :=
  negb (tst ty PCI_BASE_ADDRESS_SPACE_IO) && tst ty PCI_BASE_ADDRESS_MEM_TYPE_64.

Definition pci_register_bar (region_num sz ty : Z) (d : PCIDevice) : option PCIDevice :=
  if negb ((0 <=? region_num) && (region_num <? PCI_NUM_REGIONS)) then None
  else if tst sz (u64 (sz - 1)) then None
  else
    let d := set_region region_num (mkRegion PCI_BAR_UNMAPPED sz sz ty) d in
    let wm := u64 (~~ (sz - 1)) in
    let a := pci_bar d region_num in
    let wm := if region_num =? PCI_ROM_SLOT then wm .| PCI_ROM_ADDRESS_ENABLE else wm in
    let d := d <| config := pci_set_long (config d) a ty |> in
    Some (if pci_bar_masks ty
          then d <| wmask := pci_set_quad (wmask d) a wm |> <| cmask := pci_set_quad (cmask d) a (u64 (~~ 0)) |>
          else d <| wmask := pci_set_long (wmask d) a (wm .& 0xffffffff) |> <| cmask := pci_set_long (cmask d) a 0xffffffff |>).

Definition pci_init_cmask (d : PCIDevice) : PCIDevice :=
  let c := cmask d in
  let c := pci_set_word c PCI_VENDOR_ID 0xffff in
  let c := pci_set_word c PCI_DEVICE_ID 0xffff in
  let c := aset c PCI_STATUS PCI_STATUS_CAP_LIST in
  let c := aset c PCI_REVISION_ID 0xff in
  let c := aset c PCI_CLASS_PROG 0xff in
  let c := pci_set_word c PCI_CLASS_DEVICE 0xffff in
  let c := aset c PCI_HEADER_TYPE 0xff in
  let c := aset c PCI_CAPABILITY_LIST 0xff in
  d <| cmask := c |>.

Definition pci_init_wmask (d : PCIDevice) : PCIDevice :=
  let c := wmask d in
  let c := aset c PCI_CACHE_LINE_SIZE 0xff in
  let c := aset c PCI_INTERRUPT_LINE 0xff in
  let c := pci_set_word c PCI_COMMAND
             (PCI_COMMAND_IO .| PCI_COMMAND_MEMORY .| PCI_COMMAND_MASTER .| PCI_COMMAND_INTX_DISABLE) in
  let c := if tst (cap_present d) QEMU_PCI_CAP_SERR
           then pci_word_test_and_set_mask c PCI_COMMAND PCI_COMMAND_SERR else c in
  let c := memset c PCI_CONFIG_HEADER_SIZE 0xff (Z.to_nat (pci_config_size d - PCI_CONFIG_HEADER_SIZE)) in
  d <| wmask := c |>.

(** PARITY, SIG_TARGET_ABORT, REC_TARGET_ABORT, REC_MASTER_ABORT,
    SIG_SYSTEM_ERROR and DETECTED_PARITY of the status register. *)
Definition pci_init_w1cmask (d : PCIDevice) : PCIDevice :=
  d <| w1cmask := pci_set_word (w1cmask d) PCI_STATUS (0x100 .| 0x800 .| 0x1000 .| 0x2000 .| 0x4000 .| 0x8000) |>.

Definition pci_init_wmask_bridge (d : PCIDevice) : PCIDevice :=
  let c := wmask d in
  let c := memset c PCI_PRIMARY_BUS 0xff 4 in
  let c := aset c PCI_IO_BASE (PCI_IO_RANGE_MASK .& 0xff) in
  let c := aset c PCI_IO_LIMIT (PCI_IO_RANGE_MASK .& 0xff) in
  let c := pci_set_word c PCI_MEMORY_BASE (PCI_MEMORY_RANGE_MASK .& 0xffff) in
  let c := pci_set_word c PCI_MEMORY_LIMIT (PCI_MEMORY_RANGE_MASK .& 0xffff) in
  let c := pci_set_word c PCI_PREF_MEMORY_BASE (PCI_PREF_RANGE_MASK .& 0xffff) in
  let c := pci_set_word c PCI_PREF_MEMORY_LIMIT (PCI_PREF_RANGE_MASK .& 0xffff) in
  let c := memset c PCI_PREF_BASE_UPPER32 0xff 8 in
  (* PARITY, SERR, ISA, VGA, VGA_16BIT, MASTER_ABORT, BUS_RESET, FAST_BACK,
     DISCARD, SEC_DISCARD, DISCARD_SERR *)
  let c := pci_set_word c PCI_BRIDGE_CONTROL
             (0x01 .| 0x02 .| 0x04 .| 0x08 .| 0x10 .| 0x20 .| 0x40 .| 0x80 .| 0x100 .| 0x200 .| 0x800) in
  let d := d <| wmask := c |> in
  (* DISCARD_STATUS *)
  d <| w1cmask := pci_set_word (w1cmask d) PCI_BRIDGE_CONTROL 0x400 |>.

(** The error return is [None]. *)
Definition pci_init_multifunction (b : PCIBus) (d : PCIDevice) (s : PciState) : option PCIDevice :=
  let slot := u8 (PCI_SLOT (devfn d)) in
  let d := if tst (cap_present d) QEMU_PCI_CAP_MULTIFUNCTION
           then d <| config := aset (config d) PCI_HEADER_TYPE
                       (u8 (aget (config d) PCI_HEADER_TYPE .| PCI_HEADER_TYPE_MULTI_FUNCTION)) |> else d in
  if truthy (PCI_FUNC (devfn d)) then
    match nth (Z.to_nat (PCI_DEVFN slot 0)) (devices b) None with
    | Some f0 => if negb (tst (cap_present (dev f0 s)) QEMU_PCI_CAP_MULTIFUNCTION) then None else Some d
    | None => Some d
    end
  else if tst (cap_present d) QEMU_PCI_CAP_MULTIFUNCTION then Some d
  else if existsb (fun func => match nth (Z.to_nat (PCI_DEVFN slot func)) (devices b) None with Some _ => true | None => false end)
            (seqZ 1 (PCI_FUNC_MAX - 1))
  then None else Some d.

Record PCIDeviceInfo := mkInfo {
  vendor_id : Z; device_id : Z; revision : Z; class_id : Z;
  subsystem_vendor_id : Z; subsystem_id : Z; is_bridge : bool
}.

(** The first free slot at or above [devfn_min]. *)
Fixpoint free_slot (n : nat) (i : Z) (l : list (option Z)) : option Z :=
  match n with
  | O => None
  | S n =>
      if negb (i <? PCI_SLOT_MAX * PCI_FUNC_MAX) then None
      else match nth (Z.to_nat i) l None with
           | None => Some i
           | Some _ => free_slot n (i + PCI_FUNC_MAX) l
           end
  end.

(** The new device gets the next index; [None] is the NULL return or a failed
    [assert]. *)
Definition do_pci_register_device (b fn cap : Z) (info : PCIDeviceInfo) (s : PciState) : option (Z * PciState) :=
  let bb := the_bus b s in
  match (if fn <? 0 then free_slot (Z.to_nat PCI_SLOT_MAX) (devfn_min bb) (devices bb)
         else match nth (Z.to_nat fn) (devices bb) None with Some _ => None | None => Some fn end) with
  | None => None
  | Some fn =>
      let z := replicate (Z.to_nat (if tst cap QEMU_PCI_CAP_EXPRESS then PCIE_CONFIG_SPACE_SIZE else PCI_CONFIG_SPACE_SIZE)) 0 in
      let d := mkDevice z z z z z b fn (replicate (Z.to_nat PCI_NUM_REGIONS) region0) 0 cap in
      let c := config d in
      let c := pci_set_word c PCI_VENDOR_ID (vendor_id info) in
      let c := pci_set_word c PCI_DEVICE_ID (device_id info) in
      let c := pci_set_byte c PCI_REVISION_ID (revision info) in
      let c := pci_set_word c PCI_CLASS_DEVICE (class_id info) in
      let c := if negb (is_bridge info) then
                 if truthy (subsystem_vendor_id info) || truthy (subsystem_id info) then
                   pci_set_word (pci_set_word c PCI_SUBSYSTEM_VENDOR_ID (subsystem_vendor_id info))
                     PCI_SUBSYSTEM_ID (subsystem_id info)
                 else (* pci_set_default_subsystem_id *)
                   pci_set_word (pci_set_word c PCI_SUBSYSTEM_VENDOR_ID 0x1af4) PCI_SUBSYSTEM_ID 0x1100
               else c in
      if is_bridge info && (truthy (subsystem_vendor_id info) || truthy (subsystem_id info)) then None
      else
        let d := d <| config := c |> in
        let d := pci_init_w1cmask (pci_init_wmask (pci_init_cmask d)) in
        let d := if is_bridge info then pci_init_wmask_bridge d else d in
        match pci_init_multifunction bb d s with
        | None => None
        | Some d =>
            let i := Z.of_nat (length (devs s)) in
            let s := s <| devs := devs s ++ [d] |> in
            Some (i, set_bus b (bb <| devices := <[Z.to_nat fn := Some i]> (devices bb) |>) s)
        end
  end.

Definition pci_bus_irqs (b : Z) (f : PCIDevice -> Z -> Z) (n : Z) (s : PciState) : PciState :=
  set_bus b ((the_bus b s) <| has_set_irq := true |> <| map_irq := f |> <| nirq := n |>
               <| irq_count := replicate (Z.to_nat n) 0 |>) s.

(** ** Capabilities *)

Fixpoint find_space_loop (n : nat) (i offset sz : Z) (l : list Z) : Z :=
  match n with
  | O => 0
  | S n =>
      if truthy (aget l i) then find_space_loop n (i + 1) (i + 1) sz l
      else if i - offset + 1 =? sz then offset
      else find_space_loop n (i + 1) offset sz l
  end.
Definition pci_find_space (sz : Z) (d : PCIDevice) : Z :=
  find_space_loop (Z.to_nat (pci_config_size d - PCI_CONFIG_HEADER_SIZE)) PCI_CONFIG_HEADER_SIZE PCI_CONFIG_HEADER_SIZE sz (used d).

(** [next] and [prev]; [None] when the list does not end within [n] turns. *)
Fixpoint cap_loop (n : nat) (cap_id prev : Z) (c : list Z) : option (Z * Z) :=
  match n with
  | O => None
  | S n =>
      let next := aget c prev in
      if next =? 0 then Some (0, prev)
      else if aget c (next + PCI_CAP_LIST_ID) =? cap_id then Some (next, prev)
      else cap_loop n cap_id (u8 (next + PCI_CAP_LIST_NEXT)) c
  end.
Definition pci_find_capability_list (cap_id : Z) (d : PCIDevice) : option (Z * Z) :=
  if negb (tst (aget (config d) PCI_STATUS) PCI_STATUS_CAP_LIST) then Some (0, 0)
  else cap_loop 257 cap_id PCI_CAPABILITY_LIST (config d).
Definition pci_find_capability (cap_id : Z) (d : PCIDevice) : option Z :=
  match pci_find_capability_list cap_id d with Some (next, _) => Some next | None => None end.

(** The offset, or [None] for [-ENOSPC]. *)
Definition pci_add_capability (cap_id offset sz : Z) (d : PCIDevice) : option (Z * PCIDevice) :=
  let offset := if offset =? 0 then u8 (pci_find_space sz d) else offset in
  if offset =? 0 then None
  else
    let c := aset (config d) (offset + PCI_CAP_LIST_ID) cap_id in
    let c := aset c (offset + PCI_CAP_LIST_NEXT) (aget c PCI_CAPABILITY_LIST) in
    let c := aset c PCI_CAPABILITY_LIST offset in
    let c := aset c PCI_STATUS (u8 (aget c PCI_STATUS .| PCI_STATUS_CAP_LIST)) in
    let d := d <| config := c |> in
    let d := d <| used := memset (used d) offset 0xff (Z.to_nat sz) |> in
    let d := d <| wmask := memset (wmask d) offset 0 (Z.to_nat sz) |> in
    Some (offset, d <| cmask := memset (cmask d) offset 0xff (Z.to_nat sz) |>).

Definition pci_del_capability (cap_id sz : Z) (d : PCIDevice) : option PCIDevice :=
  match pci_find_capability_list cap_id d with
  | None => None
  | Some (offset, prev) =>
      if offset =? 0 then Some d
      else
        let d := d <| config := aset (config d) prev (aget (config d) (offset + PCI_CAP_LIST_NEXT)) |> in
        let d := d <| wmask := memset (wmask d) offset 0xff (Z.to_nat sz) |> in
        let d := d <| w1cmask := memset (w1cmask d) offset 0 (Z.to_nat sz) |> in
        let d := d <| cmask := memset (cmask d) offset 0 (Z.to_nat sz) |> in
        let d := d <| used := memset (used d) offset 0 (Z.to_nat sz) |> in
        Some (if aget (config d) PCI_CAPABILITY_LIST =? 0
              then d <| config := aset (config d) PCI_STATUS (u8 (aget (config d) PCI_STATUS .& ~~ PCI_STATUS_CAP_LIST)) |>
              else d)
  end.

Definition pci_reserve_capability (offset sz : Z) (d : PCIDevice) : PCIDevice :=
  d <| used := memset (used d) offset 0xff (Z.to_nat sz) |>.

(** ** Finding a device: bus numbers *)

Definition pci_bus_num (b : Z) (s : PciState) : Z :=
  match parent_dev (the_bus b s) with
  | None => 0
  | Some p => aget (config (dev p s)) PCI_SECONDARY_BUS
  end.

Definition pci_secondary_bus_in_range (d : PCIDevice) (bus_num : Z) : bool :=
  negb (tst (pci_get_word (config d) PCI_BRIDGE_CONTROL) PCI_BRIDGE_CTL_BUS_RESET)
  && (aget (config d) PCI_SECONDARY_BUS <? bus_num) && (bus_num <=? aget (config d) PCI_SUBORDINATE_BUS).

(** The first bus of [l] that is the one, or leads to it. *)
Fixpoint scan_children (bus_num : Z) (l : list Z) (s : PciState) : option (Z * bool) :=
  match l with
  | [] => None
  | sec :: l =>
      match parent_dev (the_bus sec s) with
      | None => None   (* assert(sec->parent_dev) *)
      | Some p =>
          if aget (config (dev p s)) PCI_SECONDARY_BUS =? bus_num then Some (sec, true)
          else if pci_secondary_bus_in_range (dev p s) bus_num then Some (sec, false)
          else scan_children bus_num l s
      end
  end.
Fixpoint find_bus_loop (n : nat) (bus_num b : Z) (s : PciState) : option Z :=
  match n with
  | O => None
  | S n =>
      match scan_children bus_num (child (the_bus b s)) s with
      | None => None
      | Some (sec, true) => Some sec
      | Some (sec, false) => find_bus_loop n bus_num sec s
      end
  end.
Definition pci_find_bus (b bus_num : Z) (s : PciState) : option Z :=
  if pci_bus_num b s =? bus_num then Some b
  else
    match parent_dev (the_bus b s) with
    | Some p =>
        if negb (pci_secondary_bus_in_range (dev p s) bus_num) then None
        else find_bus_loop (length (buses s)) bus_num b s
    | None => find_bus_loop (length (buses s)) bus_num b s
    end.
Definition pci_find_device (b bus_num fn : Z) (s : PciState) : option Z :=
  match pci_find_bus b bus_num s with
  | None => None
  | Some b => nth (Z.to_nat fn) (devices (the_bus b s)) None
  end.

(** ** Configuration writes *)

(** Lengths, widths and disjoint masks. *)
Record dev_ok (d : PCIDevice) : Prop := {
  ok_config : Z.of_nat (length (config d)) = pci_config_size d;
  ok_wmask : Z.of_nat (length (wmask d)) = pci_config_size d;
  ok_w1cmask : Z.of_nat (length (w1cmask d)) = pci_config_size d;
  ok_bytes : Forall (in_u 8) (config d) /\ Forall (in_u 8) (wmask d) /\ Forall (in_u 8) (w1cmask d);
  ok_disjoint : forall i, aget (wmask d) i .& aget (w1cmask d) i = 0;
  ok_regions : length (io_regions d) = 7%nat
}.

Lemma config_size_pos d : 256 <= pci_config_size d <= 4096.
Proof. unfold pci_config_size. destruct (pci_is_express d); compute; split; discriminate. Qed.

Lemma byte_get (l : list Z) i : Forall (in_u 8) l -> in_u 8 (aget l i).
Proof. apply aget_Forall. auto with width. Qed.

Lemma aset_aset l i v v' : aset (aset l i v) i v' = aset l i v'.
Proof. apply list_insert_insert_eq. Qed.

(** The byte a write of [v] leaves in place of [c]. *)
Definition wbyte (c wm w1m v : Z) : Z := ((c .& ~~ wm) .& ~~ (v .& w1m)) .| (v .& wm).

Lemma wbyte_range c wm w1m v : in_u 8 c -> in_u 8 wm -> in_u 8 (wbyte c wm w1m v).
Proof. intros. unfold wbyte. auto 10 with width. Qed.

Lemma wbyte_store c wm w1m v : in_u 8 c -> in_u 8 wm -> wm .& w1m = 0 ->
  u8 (u8 ((c .& ~~ wm) .| (v .& wm)) .& ~~ (v .& w1m)) = wbyte c wm w1m v.
Proof.
  intros Hc Hw Hd. rewrite (u8_id ((c .& ~~ wm) .| (v .& wm))) by auto 10 with width. unfold wbyte. rewrite u8_id by auto 10 with width.
  apply Z.bits_inj'. intros i Hi. autorewrite with bits.
  assert (Z.testbit wm i && Z.testbit w1m i = false) as E by (rewrite <- Z.land_spec, Hd; apply Z.bits_0).
  destruct (Z.testbit wm i), (Z.testbit w1m i), (Z.testbit c i), (Z.testbit v i); try discriminate; reflexivity.
Qed.

(** The configuration after the bytes of [val] are written from [a] on. *)
Fixpoint written (n : nat) (a val : Z) (wm w1m c : list Z) : list Z :=
  match n with
  | O => c
  | S n =>
      if a <? Z.of_nat (length c)
      then written n (a + 1) (val >> 8) wm w1m (aset c a (wbyte (aget c a) (aget wm a) (aget w1m a) val))
      else c
  end.

Lemma dev_ok_set c d : dev_ok d -> length c = length (config d) -> Forall (in_u 8) c -> dev_ok (d <| config := c |>).
Proof. intros [H1 H2 H3 (H4 & H5 & H6) H7] Hl Hc. constructor; try done. cbn [over config]. now rewrite Hl. Qed.

Lemma write_bytes_spec n : forall a val d, dev_ok d -> 0 <= a -> a + Z.of_nat n < 2 ^ 32 ->
  write_bytes n a val d = Some (d <| config := written n a val (wmask d) (w1cmask d) (config d) |>).
Proof.
  induction n as [|n IH]; intros a val d Hd Ha Hn; [now destruct d|]. cbn [write_bytes written].
  pose proof Hd as [H1 H2 H3 (H4 & H5 & H6) H7 _]. rewrite H1. destruct (Z.ltb_spec a (pci_config_size d)) as [Hlt|Hge]; cbn [negb]; [|now destruct d].
  unfold tst. rewrite H7. cbn [truthy Z.eqb negb].
  cbn [over config wmask w1cmask]. rewrite aget_aset_eq by lia. rewrite aset_aset.
  rewrite wbyte_store by (try apply byte_get; auto). unfold u32. rewrite Z.mod_small by lia.
  set (c := aset _ _ _). assert (dev_ok (d <| config := c |>)) as Hc.
  { apply dev_ok_set; [done|apply length_aset|]. apply aset_Forall; [|done]. apply wbyte_range; now apply byte_get. }
  change (write_bytes n (a + 1) (val >> 8) (d <| config := c |>) =
    Some (d <| config := written n (a + 1) (val >> 8) (wmask d) (w1cmask d) c |>)).
  rewrite IH by (try done; lia). reflexivity.
Qed.

Lemma written_ok n : forall a val wm w1m c, Forall (in_u 8) c -> Forall (in_u 8) wm -> 0 <= a ->
  length (written n a val wm w1m c) = length c /\ Forall (in_u 8) (written n a val wm w1m c).
Proof.
  induction n as [|n IH]; intros a val wm w1m c Hc Hw Ha; [done|]. cbn [written]. destruct (_ <? _); [|done].
  edestruct (IH (a + 1) (val >> 8) wm w1m) as [E F]; [|exact Hw|lia|split; [etransitivity; [exact E|apply length_aset]|exact F]].
  apply aset_Forall; [|done]. apply wbyte_range; now apply byte_get.
Qed.

(** Byte [k] of the result. *)
Lemma written_get n : forall a val wm w1m c k, 0 <= a -> 0 <= k < Z.of_nat (length c) ->
  aget (written n a val wm w1m c) k =
  if (a <=? k) && (k <? a + Z.of_nat n) then wbyte (aget c k) (aget wm k) (aget w1m k) (val >> (8 * (k - a))) else aget c k.
Proof.
  induction n as [|n IH]; intros a val wm w1m c k Ha Hk; cbn [written].
  - destruct (Z.leb_spec a k), (Z.ltb_spec k (a + Z.of_nat 0)); try lia; reflexivity.
  - destruct (Z.ltb_spec a (Z.of_nat (length c))).
    + rewrite IH by (rewrite ?length_aset; lia). destruct (Z.eq_dec k a) as [->|Hne].
      * rewrite aget_aset_eq by lia. replace (8 * (a - a)) with 0 by lia. rewrite Z.shiftr_0_r.
        destruct (Z.leb_spec (a + 1) a); [lia|]. destruct (Z.leb_spec a a); [|lia]. destruct (Z.ltb_spec a (a + Z.of_nat (S n))); [done|lia].
      * rewrite aget_aset_ne by lia. destruct (Z.leb_spec (a + 1) k), (Z.leb_spec a k); try lia; cbn [andb]; try reflexivity.
        replace (a + 1 + Z.of_nat n) with (a + Z.of_nat (S n)) by lia. destruct (_ <? _); [|done].
        rewrite Z.shiftr_shiftr by lia. f_equal. f_equal. lia.
    + destruct (Z.leb_spec a k), (Z.ltb_spec k (a + Z.of_nat (S n))); try lia; reflexivity.
Qed.

Lemma read_bytes_bit n : forall a c i, Forall (in_u 8) c -> 0 <= i ->
  Z.testbit (read_bytes n a c) i = (i <? 8 * Z.of_nat n) && Z.testbit (aget c (a + i / 8)) (i mod 8).
Proof.
  induction n as [|n IH]; intros a c i Hc Hi; cbn [read_bytes].
  - rewrite Z.bits_0. destruct (Z.ltb_spec i (8 * Z.of_nat 0)); [lia|done].
  - rewrite Z.lor_spec. destruct (Z.lt_ge_cases i 8) as [Hl|Hl].
    + rewrite Z.shiftl_spec_low by lia. rewrite orb_false_r, (Z.div_small i 8), (Z.mod_small i 8), Z.add_0_r by lia.
      destruct (Z.ltb_spec i (8 * Z.of_nat (S n))); [done|lia].
    + rewrite Z.shiftl_spec_high, (testbit_in_u_high 8 (aget c a)) by (try apply byte_get; auto; lia). cbn [orb].
      rewrite IH by (auto; lia). replace (i / 8) with ((i - 8) / 8 + 1) by (Z.div_mod_to_equations; lia).
      replace ((i - 8) mod 8) with (i mod 8) by (Z.div_mod_to_equations; lia).
      replace (a + 1 + (i - 8) / 8) with (a + ((i - 8) / 8 + 1)) by lia.
      destruct (Z.ltb_spec (i - 8) (8 * Z.of_nat n)), (Z.ltb_spec i (8 * Z.of_nat (S n))); try lia; reflexivity.
Qed.

Lemma read_config_word d a l : dev_ok d -> 0 <= a -> a + l <= pci_config_size d -> l = 1 \/ l = 2 \/ l = 4 ->
  pci_default_read_config d a l = Some (read_bytes (Z.to_nat l) a (config d)).
Proof.
  intros Hd Ha Hl Hc. unfold pci_default_read_config. pose proof (config_size_pos d).
  replace ((l =? 1) || (l =? 2) || (l =? 4)) with true by (destruct Hc as [-> | [-> | ->]]; reflexivity).
  unfold u32. rewrite Z.mod_small by lia. now rewrite Z.min_l by lia.
Qed.

(** C31: What a configuration write leaves behind.  For a device whose masks are
    disjoint, a write of one, two or four bytes inside its configuration space
    never fails the assertion, and a read of the same bytes then returns, as
    one word equation, the written value in the bits of [wmask], the old value
    with the written ones cleared in the bits of [w1cmask], and the old value
    elsewhere; no other byte and no mask changes. *)
Theorem pci_config_write_correct d a val l : dev_ok d -> 0 <= a -> a + l <= pci_config_size d -> l = 1 \/ l = 2 \/ l = 4 ->
  exists d' old new, write_bytes (Z.to_nat l) a val d = Some d' /\ dev_ok d'
    /\ pci_default_read_config d a l = Some old /\ pci_default_read_config d' a l = Some new
    /\ (let wm := read_bytes (Z.to_nat l) a (wmask d) in
        let w1m := read_bytes (Z.to_nat l) a (w1cmask d) in
        new = ((old .& ~~ wm) .& ~~ (val .& w1m)) .| (val .& wm))
    /\ (forall k, 0 <= k < pci_config_size d -> k < a \/ a + l <= k -> aget (config d') k = aget (config d) k)
    /\ wmask d' = wmask d /\ w1cmask d' = w1cmask d.
Proof.
  intros Hd Ha Hl Hc. pose proof (config_size_pos d) as Hs. pose proof Hd as [H1 H2 H3 (H4 & H5 & H6) H7 _].
  assert (Z.of_nat (Z.to_nat l) = l) as El by lia.
  eexists _, _, _. split; [apply write_bytes_spec; [done|done|lia]|].
  destruct (written_ok (Z.to_nat l) a val (wmask d) (w1cmask d) (config d) H4 H5 Ha) as [W1 W2].
  assert (dev_ok (d <| config := written (Z.to_nat l) a val (wmask d) (w1cmask d) (config d) |>)) as Hd' by now apply dev_ok_set.
  split; [exact Hd'|]. split; [now apply read_config_word|]. split; [now apply read_config_word|].
  split; [|split; [|done]].
  - cbv zeta. cbn [over config]. apply Z.bits_inj'. intros i Hi. autorewrite with bits. rewrite !read_bytes_bit by done.
    rewrite El. destruct (Z.ltb_spec i (8 * l)); cbn [andb]; [|now rewrite !andb_false_r].
    rewrite written_get by (Z.div_mod_to_equations; lia). rewrite El.
    destruct (Z.leb_spec a (a + i / 8)); [|Z.div_mod_to_equations; lia].
    destruct (Z.ltb_spec (a + i / 8) (a + l)); [|Z.div_mod_to_equations; lia]. cbn [andb].
    unfold wbyte. pose proof (Z.mod_pos_bound i 8). autorewrite with bits.
    replace (i mod 8 + 8 * (a + i / 8 - a)) with i by (Z.div_mod_to_equations; lia). reflexivity.
  - intros k Hk Ho. cbn [over config]. rewrite written_get by lia. rewrite El.
    destruct (Z.leb_spec a k), (Z.ltb_spec k (a + l)); try lia; reflexivity.
Qed.

(** ** Registered devices are well formed *)

Definition disjointb (wm w1m : list Z) : bool := forallb (fun p => p.1 .& p.2 =? 0) (zip wm w1m).

Lemma disjointb_spec wm w1m : length wm = length w1m -> disjointb wm w1m = true ->
  forall i, aget wm i .& aget w1m i = 0.
Proof.
  unfold disjointb, aget. intros Hl Hf i. revert Hl Hf. generalize (Z.to_nat i) as n. clear i. revert w1m.
  induction wm as [|x wm IH]; intros [|y w1m] n Hl Hf; try discriminate; [now destruct n|].
  cbn in Hf. apply andb_prop in Hf as [H1 H2]. destruct n as [|n]; cbn [nth]; [now apply Z.eqb_eq|]. apply IH; [now injection Hl|done].
Qed.

Lemma set_word_ok c i v : length (pci_set_word c i v) = length c /\ (Forall (in_u 8) c -> Forall (in_u 8) (pci_set_word c i v)).
Proof.
  unfold pci_set_word. rewrite !length_aset. split; [done|]. intros Hc.
  repeat apply aset_Forall; auto with width.
Qed.

Definition zeros (n : Z) : list Z := replicate (Z.to_nat n) 0.

Lemma zeros_ok n : Forall (in_u 8) (zeros n).
Proof. apply Forall_replicate. auto with width. Qed.

(** The masks of a fresh device, by express, SERR and bridge. *)
Definition fresh_masks (d : PCIDevice) (br : bool) : PCIDevice :=
  let d := pci_init_w1cmask (pci_init_wmask (pci_init_cmask d)) in if br then pci_init_wmask_bridge d else d.

(** Only the header matters: both masks are a 64-byte part and, above it, a part
    that is all writable and a part that is all zero. *)
Lemma aset_app_l l r i v : 0 <= i < Z.of_nat (length l) -> aset (l ++ r) i v = aset l i v ++ r.
Proof. intros Hi. unfold aset. apply insert_app_l. lia. Qed.

Lemma aset_app_r l r i v : aset (l ++ r) (Z.of_nat (length l + i)) v = l ++ <[i := v]> r.
Proof. unfold aset. rewrite Nat2Z.id. apply insert_app_r. Qed.

Lemma memset_app_r n : forall l r j v, memset (l ++ r) (Z.of_nat (length l + j)) v n =
  l ++ foldl (fun r k => <[k := v]> r) r (seq j n).
Proof.
  induction n as [|n IH]; intros l r j v; cbn [memset seq foldl]; [done|]. rewrite aset_app_r.
  replace (Z.of_nat (length l + j) + 1) with (Z.of_nat (length l + S j)) by lia. apply IH.
Qed.

Lemma fill_ok v l : forall r, in_u 8 v -> Forall (in_u 8) r ->
  let r' := foldl (fun r k => <[k := v]> r) r l in length r' = length r /\ Forall (in_u 8) r'.
Proof.
  induction l as [|k l IH]; intros r Hv Hr; cbn [foldl]; [done|]. destruct (IH (<[k := v]> r) Hv) as [H1 H2]; [now apply Forall_insert|].
  split; [rewrite H1; apply length_insert|done].
Qed.

Lemma zip_app_eq {A B} (l1 l2 : list A) (k1 k2 : list B) : length l1 = length k1 ->
  zip (l1 ++ l2) (k1 ++ k2) = zip l1 k1 ++ zip l2 k2.
Proof. revert k1. induction l1 as [|x l1 IH]; intros [|y k1] E; try discriminate; [done|]. cbn. f_equal. apply IH. now injection E. Qed.

Lemma disjointb_zeros r : disjointb r (zeros (Z.of_nat (length r))) = true.
Proof.
  unfold disjointb, zeros. rewrite Nat2Z.id. induction r as [|x r IH]; [done|]. cbn [length replicate zip zip_with forallb fst snd].
  rewrite Z.land_0_r. exact IH.
Qed.

Lemma aget_app_l l r i : 0 <= i < Z.of_nat (length l) -> aget (l ++ r) i = aget l i.
Proof. intros Hi. unfold aget. apply app_nth1. lia. Qed.

Lemma bytes_check l : forallb (fun x => (0 <=? x) && (x <? 256)) l = true -> Forall (in_u 8) l.
Proof.
  rewrite forallb_forall, List.Forall_forall. intros Hl x Hx. specialize (Hl x Hx). apply andb_prop in Hl as [H1 H2].
  unfold in_u. lia.
Qed.

Definition header_check (l l1 : list Z) : bool :=
  disjointb l l1 && forallb (fun x => (0 <=? x) && (x <? 256)) l && forallb (fun x => (0 <=? x) && (x <? 256)) l1
  && Nat.eqb (length l) 64 && Nat.eqb (length l1) 64.

Lemma fresh_masks_split b fn c cm u r caps br n : 0 <= n ->
  let z := zeros 64 ++ zeros n in
  let d := fresh_masks (mkDevice c cm z z u b fn r 0 caps) br in
  exists l l1 m, wmask d = l ++ foldl (fun r k => <[k := 0xff]> r) (zeros n) m /\ w1cmask d = l1 ++ zeros n
    /\ header_check l l1 = true.
Proof.
  intros Hn. cbv zeta. assert (length (zeros 64) = 64%nat) as HL by reflexivity.
  unfold fresh_masks, pci_init_wmask, pci_init_wmask_bridge, pci_init_w1cmask, pci_init_cmask, pci_word_test_and_set_mask, pci_set_word, pci_get_word.
  change PCI_CONFIG_HEADER_SIZE with (Z.of_nat (64 + 0)).
  destruct br; destruct (tst caps QEMU_PCI_CAP_SERR) eqn:E;
    cbn [over wmask w1cmask cmask cap_present memset]; rewrite E; remember (zeros n) as z eqn:Ez;
    repeat first [ rewrite aset_app_l by (rewrite ?length_aset, ?HL; compute; split; [discriminate|reflexivity])
                 | rewrite aget_app_l by (rewrite ?length_aset, ?HL; compute; split; [discriminate|reflexivity]) ];
    match goal with |- context [memset (?l ++ z) _ _ ?k] =>
      replace (64 + 0)%nat with (length l + 0)%nat by (rewrite ?length_aset; reflexivity); rewrite memset_app_r end;
    repeat rewrite aset_app_l by (rewrite ?length_aset, ?HL; compute; split; [discriminate|reflexivity]);
    eexists _, _, _; (split; [reflexivity|split; [reflexivity|vm_compute; reflexivity]]).
Qed.

Lemma zeros_app m n : 0 <= m -> 0 <= n -> zeros (m + n) = zeros m ++ zeros n.
Proof. intros. unfold zeros. rewrite Z2Nat.inj_add by done. apply replicate_add. Qed.

Lemma fresh_ok b fn c r caps br n :
  n = (if tst caps QEMU_PCI_CAP_EXPRESS then PCIE_CONFIG_SPACE_SIZE else PCI_CONFIG_SPACE_SIZE) ->
  Z.of_nat (length c) = n -> Forall (in_u 8) c -> length r = 7%nat ->
  dev_ok (fresh_masks (mkDevice c (zeros n) (zeros n) (zeros n) (zeros n) b fn r 0 caps) br).
Proof.
  intros En Hl Hc Hr. set (d := fresh_masks _ br).
  assert (config d = c /\ io_regions d = r /\ pci_config_size d = n) as (E1 & E2 & E3) by (subst n; unfold d, fresh_masks; now destruct br).
  pose proof (config_size_pos d) as Hs.
  assert (zeros n = zeros 64 ++ zeros (n - 64)) as Ez by (rewrite <- zeros_app by lia; f_equal; lia).
  destruct (fresh_masks_split b fn c (zeros n) (zeros n) r caps br (n - 64)) as (l & l1 & m & M1 & M2 & E); [lia|].
  rewrite <- Ez in M1, M2. fold d in M1, M2. clearbody d.
  unfold header_check in E. rewrite !andb_true_iff in E. destruct E as ((((A & B) & C) & D) & F). apply Nat.eqb_eq in D, F.
  destruct (fill_ok 0xff m (zeros (n - 64))) as [L1 L2]; [auto with width|apply zeros_ok|]. set (f := foldl _ _ m) in *. clearbody f.
  assert (length (zeros (n - 64)) = Z.to_nat (n - 64)) as L3 by (unfold zeros; apply length_replicate).
  constructor; rewrite ?E1, ?E2, ?M1, ?M2, ?length_app, ?D, ?F, ?L1, ?L3; try lia.
  - split; [done|]. split; apply Forall_app; split; auto using bytes_check, zeros_ok.
  - apply disjointb_spec; [rewrite !length_app; congruence|]. unfold disjointb in *. rewrite zip_app_eq by congruence.
    rewrite forallb_app, A. cbn [andb]. replace (n - 64) with (Z.of_nat (length f)) by lia. apply disjointb_zeros.
Qed.

Lemma multifunction_ok b d s d' : dev_ok d -> pci_init_multifunction b d s = Some d' -> dev_ok d'.
Proof.
  intros Hd. unfold pci_init_multifunction. set (d1 := if tst _ _ then _ else _).
  assert (dev_ok d1) as H1.
  { unfold d1. destruct (tst _ _); [|done]. destruct Hd as [? ? ? (? & ? & ?) ? ?].
    apply dev_ok_set; [now constructor|apply length_aset|]. apply aset_Forall; auto with width. }
  clearbody d1. intros E. repeat case_match; simplify_eq; done.
Qed.

(** Every device that [do_pci_register_device] adds has disjoint masks. *)
Lemma pci_registered_ok b fn caps info s i s' : do_pci_register_device b fn caps info s = Some (i, s') -> dev_ok (dev i s').
Proof.
  unfold do_pci_register_device. destruct (if fn <? 0 then _ else _) as [f|]; [|discriminate].
  set (n := if tst caps QEMU_PCI_CAP_EXPRESS then _ else _). fold (zeros n).
  set (c := if negb (is_bridge info) then _ else _). destruct (is_bridge info && _); [discriminate|].
  set (d := if is_bridge info then _ else _).
  change d with (fresh_masks (mkDevice c (zeros n) (zeros n) (zeros n) (zeros n) b f (replicate (Z.to_nat PCI_NUM_REGIONS) region0) 0 caps) (is_bridge info)).
  destruct (pci_init_multifunction _ _ _) as [d'|] eqn:E; [|discriminate]. intros [= <- <-].
  apply multifunction_ok in E.
  - unfold dev, set_bus. cbn [over devs]. rewrite Nat2Z.id, app_nth2 by lia. now rewrite Nat.sub_diag.
  - apply fresh_ok; [reflexivity| | |reflexivity].
    + unfold c. repeat case_match; unfold pci_set_word, pci_set_byte; rewrite ?length_aset; unfold n, zeros; case_match; reflexivity.
    + unfold c. repeat case_match; unfold pci_set_word, pci_set_byte; repeat apply aset_Forall; auto with width; apply zeros_ok.
Qed.

(** ** Base addresses *)

Lemma land_align x k : in_u 64 x -> 0 <= k <= 63 -> x .& u64 (~~ (2 ^ k - 1)) = x - x mod 2 ^ k.
Proof.
  intros Hx Hk. replace (2 ^ k - 1) with (Z.ones k) by (rewrite Z.ones_equiv; lia).
  transitivity (Z.ldiff x (Z.ones k)).
  - apply Z.bits_inj'. intros i Hi. autorewrite with bits. destruct (Z.ltb_spec i 64); [done|].
    now rewrite (testbit_in_u_high 64 x).
  - rewrite Z.ldiff_ones_r, Z.shiftr_div_pow2, Z.shiftl_mul_pow2 by lia. pose proof (Z.div_mod x (2 ^ k)). lia.
Qed.

Lemma get_word_range c i : Forall (in_u 8) c -> in_u 16 (pci_get_word c i).
Proof.
  intros Hc. unfold pci_get_word. pose proof (byte_get c i Hc) as H1. pose proof (byte_get c (i + 1) Hc) as H2.
  rewrite lor_shift by (done || lia). unfold in_u in *. lia.
Qed.

Lemma get_long_range c i : Forall (in_u 8) c -> in_u 32 (pci_get_long c i).
Proof.
  intros Hc. unfold pci_get_long. pose proof (get_word_range c i Hc) as H1. pose proof (get_word_range c (i + 2) Hc) as H2.
  rewrite lor_shift by (done || lia). unfold in_u in *. lia.
Qed.

Lemma get_quad_range c i : Forall (in_u 8) c -> in_u 64 (pci_get_quad c i).
Proof.
  intros Hc. unfold pci_get_quad. pose proof (get_long_range c i Hc) as H1. pose proof (get_long_range c (i + 4) Hc) as H2.
  rewrite lor_shift by (done || lia). unfold in_u in *. lia.
Qed.

(** The last address a region of this type may use. *)
Definition bar_top (ty : Z) : Z :=
  if tst ty PCI_BASE_ADDRESS_SPACE_IO then 0xffff
  else if tst ty PCI_BASE_ADDRESS_MEM_TYPE_64 then 2 ^ 64 - 2 else 2 ^ 32 - 2.

Lemma aligned_window x k : in_u 64 x -> 1 <= k <= 63 ->
  let a := x .& u64 (~~ (2 ^ k - 1)) in
  a mod 2 ^ k = 0 /\ 0 <= a <= x /\ u64 (a + 2 ^ k - 1) = a + 2 ^ k - 1.
Proof.
  intros Hx Hk. cbv zeta. rewrite land_align by (auto; lia).
  assert (0 < 2 ^ k) as Hp by (apply Z.pow_pos_nonneg; lia). pose proof (Z.mod_pos_bound x (2 ^ k) Hp) as Hm.
  assert (x - x mod 2 ^ k = 2 ^ k * (x / 2 ^ k)) as E by (pose proof (Z.div_mod x (2 ^ k)); lia).
  assert (2 ^ 64 = 2 ^ k * 2 ^ (64 - k)) as E64 by (rewrite <- Z.pow_add_r by lia; f_equal; lia).
  unfold in_u in Hx. assert (0 <= x / 2 ^ k < 2 ^ (64 - k)) as Hq.
  { split; [apply Z.div_pos; lia|]. apply Z.div_lt_upper_bound; lia. }
  split; [rewrite E, Z.mul_comm; apply Z.mod_mul; lia|]. split; [nia|].
  unfold u64. apply Z.mod_small. change 18446744073709551616 with (2 ^ 64). rewrite E. nia.
Qed.

Lemma bar_address_sound d reg ty k : dev_ok d -> 1 <= k <= 63 ->
  let a := pci_bar_address d reg ty (2 ^ k) in
  a = PCI_BAR_UNMAPPED \/ (a mod 2 ^ k = 0 /\ 0 < a /\ a + 2 ^ k - 1 <= bar_top ty).
Proof.
  intros [_ _ _ (Hc & _) _ _] Hk. cbv zeta. unfold pci_bar_address, bar_top.
  pose proof (get_long_range (config d) (pci_bar d reg) Hc) as HL. pose proof (get_quad_range (config d) (pci_bar d reg) Hc) as HQ.
  assert (in_u 64 (pci_get_long (config d) (pci_bar d reg))) as HL' by (unfold in_u in *; lia).
  destruct (tst ty PCI_BASE_ADDRESS_SPACE_IO).
  - destruct (negb _); [now left|]. destruct (aligned_window _ k HL' Hk) as (A1 & A2 & A3). rewrite A3.
    destruct (_ || _ || _) eqn:E; [now left|]. rewrite !orb_false_iff in E. right. lia.
  - destruct (negb _); [now left|]. set (x := if tst ty PCI_BASE_ADDRESS_MEM_TYPE_64 then _ else _).
    assert (in_u 64 x) as Hx by (unfold x; destruct (tst ty _); assumption).
    destruct (_ && _); [now left|]. destruct (aligned_window x k Hx Hk) as (A1 & A2 & A3). rewrite A3.
    destruct (_ || _ || _) eqn:E; [now left|]. rewrite !orb_false_iff in E.
    destruct (tst ty PCI_BASE_ADDRESS_MEM_TYPE_64); cbn [negb andb]; [|destruct (Z.leb_spec 0xffffffff ((x .& u64 (~~ (2 ^ k - 1))) + 2 ^ k - 1)); [now left|]];
      (destruct (Z.leb_spec 0xffffffffffffffff ((x .& u64 (~~ (2 ^ k - 1))) + 2 ^ k - 1)); [now left|]); right; lia.
Qed.

(** ** Mappings stay in step with the registers *)

Section Mappings.
Context {W : Type} {H : PciHost W}.

Lemma dev_set_eq d x s : 0 <= d < Z.of_nat (length (devs s)) -> dev d (set_dev d x s) = x.
Proof. intros Hd. unfold dev, set_dev. cbn [over devs]. rewrite nth_lookup, list_lookup_insert_eq; [done|lia]. Qed.

Lemma dev_set_ne d e x s : 0 <= d -> 0 <= e -> d <> e -> dev e (set_dev d x s) = dev e s.
Proof. intros. unfold dev, set_dev. cbn [over devs]. rewrite !nth_lookup, list_lookup_insert_ne; [done|lia]. Qed.

Lemma length_set_dev d x s : length (devs (set_dev d x s)) = length (devs s).
Proof. unfold set_dev. cbn [over devs]. apply length_insert. Qed.

Lemma region_set_eq i r d : 0 <= i < Z.of_nat (length (io_regions d)) -> region i (set_region i r d) = r.
Proof. intros Hi. unfold region, set_region. cbn [over io_regions]. rewrite nth_lookup, list_lookup_insert_eq; [done|lia]. Qed.

Lemma region_set_ne i j r d : 0 <= i -> 0 <= j -> i <> j -> region j (set_region i r d) = region j d.
Proof. intros. unfold region, set_region. cbn [over io_regions]. rewrite !nth_lookup, list_lookup_insert_ne; [done|lia]. Qed.

(** What a region's address and size should be. *)
Definition target (d i : Z) (s : PciState) : Z * Z :=
  let r := region i (dev d s) in
  let a := pci_bar_address (dev d s) i (type r) (size r) in
  if negb (a =? PCI_BAR_UNMAPPED) then pci_bridge_filter d a (size r) (type r) s else (a, size r).

Definition region_in_step (d i : Z) (s : PciState) : Prop :=
  let r := region i (dev d s) in size r <> 0 -> (addr r, filtered_size r) = target d i s.

(** States that differ only in where the regions of [d] are mapped. *)
Record same_bars (d : Z) (s s' : PciState) : Prop := {
  sb_len : length (devs s') = length (devs s);
  sb_buses : buses s' = buses s;
  sb_other : forall e, 0 <= e -> e <> d -> dev e s' = dev e s;
  sb_dev : exists l, dev d s' = (dev d s) <| io_regions := l |> /\ length l = length (io_regions (dev d s));
  sb_regions : forall i, size (region i (dev d s')) = size (region i (dev d s)) /\ type (region i (dev d s')) = type (region i (dev d s))
}.

#[export] Instance same_bars_refl d : Reflexive (same_bars d).
Proof. intros s. constructor; try done. exists (io_regions (dev d s)). split; [now destruct (dev d s)|done]. Qed.

#[export] Instance same_bars_trans d : Transitive (same_bars d).
Proof.
  intros s1 s2 s3 [A1 A2 A3 (l & A4 & A5) A6] [B1 B2 B3 (m & B4 & B5) B6]. constructor; try congruence.
  - intros e H1 H2. rewrite B3 by done. now apply A3.
  - exists m. rewrite A4 in B4. rewrite B4, B5. cbn [over io_regions]. rewrite A4. cbn [over io_regions]. split; [reflexivity|exact A5].
  - intros i. destruct (A6 i), (B6 i). split; congruence.
Qed.

Lemma sb_fields d s s' : same_bars d s s' -> config (dev d s') = config (dev d s) /\ bus (dev d s') = bus (dev d s)
  /\ irq_state (dev d s') = irq_state (dev d s) /\ devfn (dev d s') = devfn (dev d s) /\ cap_present (dev d s') = cap_present (dev d s)
  /\ wmask (dev d s') = wmask (dev d s) /\ w1cmask (dev d s') = w1cmask (dev d s).
Proof. intros [_ _ _ (l & E & _) _]. rewrite E. done. Qed.

Lemma bridge_window_config br br' ty : config br' = config br ->
  pci_bridge_get_base br' ty = pci_bridge_get_base br ty /\ pci_bridge_get_limit br' ty = pci_bridge_get_limit br ty.
Proof.
  intros E. unfold pci_bridge_get_base, pci_bridge_get_limit, pci_config_get_io_base, pci_config_get_pref_base, pci_config_get_memory_base.
  now rewrite E.
Qed.

Lemma sb_any d s s' e : same_bars d s s' -> 0 <= d -> 0 <= e -> config (dev e s') = config (dev e s) /\ bus (dev e s') = bus (dev e s).
Proof. intros F Hd He. destruct (decide (e = d)) as [->|]; [now destruct (sb_fields _ _ _ F) as (? & ? & _)|]. now rewrite (sb_other _ _ _ F). Qed.

(** Parents are devices. *)
Definition parents_ok (s : PciState) : Prop := forall b p, parent_dev (the_bus b s) = Some p -> 0 <= p.

Lemma filter_loop_same d s s' : same_bars d s s' -> 0 <= d -> parents_ok s -> forall n cmd ty br base limit,
  (forall p, br = Some p -> 0 <= p) -> filter_loop n cmd ty br base limit s' = filter_loop n cmd ty br base limit s.
Proof.
  intros F Hd HP. assert (forall b, the_bus b s' = the_bus b s) as EB by (intros b; unfold the_bus; now rewrite (sb_buses _ _ _ F)).
  induction n as [|n IH]; intros cmd ty br base limit Hbr; destruct br as [br|]; cbn [filter_loop]; try done.
  destruct (sb_any d s s' br F Hd (Hbr br eq_refl)) as [Ec Eb]. rewrite Eb, EB.
  destruct (bridge_window_config _ _ ty Ec) as [-> ->]. rewrite IH; [reflexivity|]. intros p Hp. exact (HP _ _ Hp).
Qed.

Lemma target_same d i s s' : same_bars d s s' -> 0 <= d -> parents_ok s -> target d i s' = target d i s.
Proof.
  intros F Hd HP. destruct (sb_fields _ _ _ F) as (Ec & Eb & _). destruct (sb_regions _ _ _ F i) as [Es Et].
  unfold target. rewrite Es, Et. assert (forall b, the_bus b s' = the_bus b s) as EB by (intros b; unfold the_bus; now rewrite (sb_buses _ _ _ F)).
  replace (pci_bar_address (dev d s') i (type (region i (dev d s))) (size (region i (dev d s))))
    with (pci_bar_address (dev d s) i (type (region i (dev d s))) (size (region i (dev d s))))
    by (unfold pci_bar_address, pci_bar; now rewrite Ec).
  unfold pci_bridge_filter. rewrite Ec, Eb, EB, (sb_buses _ _ _ F).
  rewrite (filter_loop_same d s s') by (done || (intros p; apply HP)). reflexivity.
Qed.

Lemma update_region_spec d i s w s' w' : 0 <= d < Z.of_nat (length (devs s)) -> length (io_regions (dev d s)) = 7%nat -> 0 <= i < 7 ->
  parents_ok s -> update_region d (s, w) i = (s', w') ->
  same_bars d s s' /\ region_in_step d i s' /\ (forall j, 0 <= j -> j <> i -> region j (dev d s') = region j (dev d s)).
Proof.
  intros Hd Hl Hi HP. unfold update_region. destruct (Z.eqb_spec (size (region i (dev d s))) 0) as [Ez|Hz].
  { intros [= <- <-]. split; [reflexivity|]. split; [|done]. intros Hn. contradiction. }
  fold (target d i s). destruct (target d i s) as [na ns] eqn:Et.
  destruct ((na =? addr (region i (dev d s))) && (ns =? filtered_size (region i (dev d s)))) eqn:E.
  { intros [= <- <-]. split; [reflexivity|]. split; [|done]. intros _. rewrite Et. apply andb_prop in E as [E1 E2]. f_equal; lia. }
  intros [= <- _]. clear E w'. set (r := (region i (dev d s)) <| addr := na |> <| filtered_size := ns |>).
  set (s' := set_dev d (set_region i r (dev d s)) s).
  assert (dev d s' = set_region i r (dev d s)) as Ed by now apply dev_set_eq.
  assert (region i (dev d s') = r) as Er by (rewrite Ed; apply region_set_eq; lia).
  assert (forall j, 0 <= j -> j <> i -> region j (dev d s') = region j (dev d s)) as Ej by (intros j H1 H2; rewrite Ed; now apply region_set_ne; try lia).
  assert (same_bars d s s') as F.
  { constructor.
    - apply length_set_dev.
    - reflexivity.
    - intros e H1 H2. now apply dev_set_ne; try lia.
    - rewrite Ed. eexists. split; [reflexivity|]. apply length_insert.
    - intros j. destruct (decide (Z.to_nat j = Z.to_nat i)) as [Eq|Ne].
      + assert (region j (dev d s') = r) as -> by (unfold region in *; now rewrite Eq). unfold region. rewrite Eq. split; reflexivity.
      + assert (region j (dev d s') = region j (dev d s)) as ->; [|done]. rewrite Ed. unfold region, set_region. cbn [over io_regions].
        rewrite !nth_lookup, list_lookup_insert_ne; done. }
  split; [exact F|]. split; [|exact Ej]. unfold region_in_step. intros _. rewrite (target_same d i s s' F ltac:(lia) HP), Et, Er. reflexivity.
Qed.

Lemma update_regions_spec d l : forall s w s' w', 0 <= d < Z.of_nat (length (devs s)) -> length (io_regions (dev d s)) = 7%nat ->
  parents_ok s -> (forall i, i ∈ l -> 0 <= i < 7) -> NoDup l -> foldl (update_region d) (s, w) l = (s', w') ->
  same_bars d s s' /\ (forall i, i ∈ l -> region_in_step d i s')
  /\ (forall j, 0 <= j -> j ∉ l -> region j (dev d s') = region j (dev d s)).
Proof.
  induction l as [|i l IH]; intros s w s' w' Hd Hl HP Hr Hn; cbn [foldl].
  { intros [= <- <-]. split; [reflexivity|]. split; [|done]. intros i Hi. now apply not_elem_of_nil in Hi. }
  destruct (update_region d (s, w) i) as [s1 w1] eqn:E1. intros E2.
  apply update_region_spec in E1 as (F1 & R1 & J1); [|done|done|apply Hr; left|done].
  pose proof (NoDup_cons_1_1 _ _ Hn) as Hi. apply NoDup_cons_1_2 in Hn.
  assert (parents_ok s1) as HP1 by (unfold parents_ok, the_bus; rewrite (sb_buses _ _ _ F1); exact HP).
  destruct (sb_dev _ _ _ F1) as (m & Em & Lm).
  apply IH in E2 as (F2 & R2 & J2); [|rewrite (sb_len _ _ _ F1); done|rewrite Em; cbn [over io_regions]; congruence|done|intros j Hj; apply Hr; now right|done].
  split; [etransitivity; eassumption|]. split.
  - intros j [-> | Hj]%elem_of_cons; [|now apply R2]. unfold region_in_step in *.
    rewrite (target_same d i s1 s' F2 ltac:(lia) HP1), J2; [exact R1|specialize (Hr i ltac:(left)); lia|done].
  - intros j Hj Hn'. rewrite elem_of_cons in Hn'. rewrite J2 by tauto. apply J1; tauto.
Qed.

Lemma regions_list i : 0 <= i < 7 <-> i ∈ seqZ 0 PCI_NUM_REGIONS.
Proof. rewrite elem_of_seqZ. unfold PCI_NUM_REGIONS. lia. Qed.

Lemma update_mappings_spec d s w s' w' : 0 <= d < Z.of_nat (length (devs s)) -> length (io_regions (dev d s)) = 7%nat ->
  parents_ok s -> pci_update_mappings d s w = (s', w') -> same_bars d s s' /\ forall i, 0 <= i < 7 -> region_in_step d i s'.
Proof.
  intros Hd Hl HP E. apply update_regions_spec in E as (F & R & _); try done.
  - split; [done|]. intros i Hi. apply R. now apply regions_list.
  - intros i. apply regions_list.
  - apply NoDup_seqZ.
Qed.

(** The bytes a base address depends on. *)
Definition bar_byte (k : Z) : Prop :=
  k = PCI_COMMAND \/ k = PCI_HEADER_TYPE \/ 0x10 <= k < 0x28 \/ 0x30 <= k < 0x34 \/ 0x38 <= k < 0x3c.

Lemma tst_low x y m : in_u 8 x -> in_u 8 m -> tst (x .| (y << 8)) m = tst x m.
Proof.
  intros Hx Hm. unfold tst. f_equal. apply Z.bits_inj'. intros i Hi. autorewrite with bits.
  destruct (Z.lt_ge_cases i 8); [rewrite Z.shiftl_spec_low by lia; now rewrite orb_false_r|].
  rewrite (testbit_in_u_high 8 m) by (done || lia). now rewrite !andb_false_r.
Qed.

Lemma bar_address_bytes d d' reg ty sz : dev_ok d -> dev_ok d' -> 0 <= reg < 7 ->
  (tst ty PCI_BASE_ADDRESS_SPACE_IO = false -> tst ty PCI_BASE_ADDRESS_MEM_TYPE_64 = true -> reg < 5) ->
  (forall k, bar_byte k -> aget (config d') k = aget (config d) k) ->
  pci_bar_address d' reg ty sz = pci_bar_address d reg ty sz.
Proof.
  intros Hd Hd' Hr H64 HB. pose proof (proj1 (ok_bytes _ Hd)) as HC. pose proof (proj1 (ok_bytes _ Hd')) as HC'.
  assert (pci_bar d' reg = pci_bar d reg) as Eb by (unfold pci_bar; rewrite HB; [done|unfold bar_byte; tauto]).
  assert (0x10 <= pci_bar d reg <= 0x24 /\ (reg < 5 -> pci_bar d reg <= 0x20) \/ reg = 6 /\ (pci_bar d reg = 0x30 \/ pci_bar d reg = 0x38)) as Hbar.
  { unfold pci_bar, PCI_ROM_SLOT, PCI_BASE_ADDRESS_0, PCI_ROM_ADDRESS, PCI_ROM_ADDRESS1. destruct (Z.eqb_spec reg 6); cbn [negb]; [|left; lia].
    destruct (_ =? _); tauto. }
  assert (forall m, in_u 8 m -> tst (pci_get_word (config d') PCI_COMMAND) m = tst (pci_get_word (config d) PCI_COMMAND) m) as Ecmd.
  { intros m Hm. unfold pci_get_word. rewrite !tst_low by auto using byte_get. rewrite HB; [done|unfold bar_byte; tauto]. }
  assert (forall k, 0 <= k < 4 -> aget (config d') (pci_bar d reg + k) = aget (config d) (pci_bar d reg + k)) as E4
    by (intros k Hk; apply HB; unfold bar_byte; lia).
  assert (pci_get_long (config d') (pci_bar d reg) = pci_get_long (config d) (pci_bar d reg)) as El.
  { unfold pci_get_long, pci_get_word. rewrite <- !Z.add_assoc, <- (Z.add_0_r (pci_bar d reg)). rewrite <- !Z.add_assoc. now rewrite !E4 by lia. }
  unfold pci_bar_address. rewrite Eb, El, !Ecmd by (compute; split; [discriminate|reflexivity]).
  destruct (tst ty PCI_BASE_ADDRESS_SPACE_IO) eqn:Eio; [done|]. destruct (tst ty PCI_BASE_ADDRESS_MEM_TYPE_64) eqn:E64; [|done].
  specialize (H64 eq_refl eq_refl). assert (pci_get_quad (config d') (pci_bar d reg) = pci_get_quad (config d) (pci_bar d reg)) as ->; [|done].
  unfold pci_get_quad. rewrite El. f_equal. f_equal. unfold pci_get_long, pci_get_word. now rewrite !HB by (unfold bar_byte; lia).
Qed.

End Mappings.

End Pci.
