(* ===== verification/PciIrq.v ===== *)
(** * Interrupts of the PCI bus: the shared counters of hw/pci.c

    Every interrupt input of a bus is shared; [irq_count] counts the asserted pins
    that lead to it.  This file proves the accounting: the counter is the number of
    asserted, enabled pins routed there, through any bridges, whatever the devices
    and the guest do.  Two places of the code break it, and are shown here too. *)

From S2P Require Import Prelude Pci.

Module PciIrq.
Import Pci.
#[local] Existing Instances PCIIORegion_eta PCIDevice_eta PCIBus_eta PciState_eta.

(** ** Sums *)

Definition zsum (l : list Z) (f : Z -> Z) : Z := foldr (fun x acc => f x + acc) 0 l.

Lemma zsum_cons x l f : zsum (x :: l) f = f x + zsum l f.
Proof. reflexivity. Qed.

Lemma zsum_ext l f g : (forall x, x ∈ l -> f x = g x) -> zsum l f = zsum l g.
Proof.
  induction l as [|x l IH]; intros H; [done|]. rewrite !zsum_cons, (H x) by left. f_equal.
  apply IH. intros y Hy. apply H. now right.
Qed.

Lemma zsum_plus l f g : zsum l (fun x => f x + g x) = zsum l f + zsum l g.
Proof. induction l as [|x l IH]; [done|]. rewrite !zsum_cons. lia. Qed.

Lemma zsum_zero l : zsum l (fun _ => 0) = 0.
Proof. induction l as [|x l IH]; [done|]. rewrite zsum_cons. lia. Qed.

(** Changing one term. *)
Lemma zsum_change l f g x : NoDup l -> x ∈ l -> (forall y, y ∈ l -> y <> x -> g y = f y) ->
  zsum l g = zsum l f + (g x - f x).
Proof.
  induction l as [|y l IH]; intros Hn Hx Hy; [now apply not_elem_of_nil in Hx|].
  pose proof (NoDup_cons_1_1 _ _ Hn) as Hyl. apply NoDup_cons_1_2 in Hn. rewrite !zsum_cons.
  apply elem_of_cons in Hx as [-> | Hx].
  - rewrite (zsum_ext l g f) by (intros z Hz; apply Hy; [now right|intros ->; contradiction]). lia.
  - rewrite IH by (try done; intros z Hz; apply Hy; now right).
    rewrite (Hy y) by (try left; intros ->; contradiction). lia.
Qed.

Lemma zsum_nonneg l f : (forall x, x ∈ l -> 0 <= f x) -> 0 <= zsum l f.
Proof.
  induction l as [|x l IH]; intros H; [done|]. rewrite zsum_cons. specialize (H x ltac:(left)) as Hx.
  assert (0 <= zsum l f) by (apply IH; intros y Hy; apply H; now right). lia.
Qed.

Lemma zsum_pos l f : (forall x, x ∈ l -> 0 <= f x) -> zsum l f <> 0 <-> exists x, x ∈ l /\ f x <> 0.
Proof.
  induction l as [|x l IH]; intros H; [split; [done|]; intros (x & Hx & _); now apply not_elem_of_nil in Hx|].
  assert (forall y, y ∈ l -> 0 <= f y) as Hl by (intros y Hy; apply H; now right).
  pose proof (zsum_nonneg l f Hl). specialize (IH Hl). specialize (H x ltac:(left)) as Hx. rewrite zsum_cons. split.
  - intros Hs. destruct (decide (f x = 0)) as [E|E]; [|exists x; split; [left|done]].
    destruct (proj1 IH ltac:(lia)) as (y & Hy & Hf). exists y. split; [now right|done].
  - intros (y & [-> | Hy]%elem_of_cons & Hf); [lia|]. assert (zsum l f <> 0) by (apply IH; eauto). lia.
Qed.

Lemma elem_seqZ n i : i ∈ seqZ 0 n <-> 0 <= i < n.
Proof. rewrite elem_of_seqZ. lia. Qed.

Section Irq.
Context {W : Type} {HW : PciHost W}.

(** ** Routing does not change *)

Definition rt (s : PciState) (d p : Z) : option (Z * Z) := irq_route (length (buses s)) d p s.

Definition in_devs (s : PciState) (d : Z) : Prop := 0 <= d < Z.of_nat (length (devs s)).
Definition is_input (s : PciState) (b n : Z) : Prop :=
  0 <= b < Z.of_nat (length (buses s)) /\ 0 <= n < Z.of_nat (length (irq_count (the_bus b s))).

(** Every pin of every device leads to an input; the mapping of pins looks only at
    the device's address. *)
Record topo (s : PciState) : Prop := {
  t_route : forall d p, in_devs s d -> 0 <= p < 4 -> exists b n, rt s d p = Some (b, n) /\ is_input s b n;
  t_map : forall b x y p, devfn x = devfn y -> map_irq (the_bus b s) x p = map_irq (the_bus b s) y p;
  t_parents : forall b p, parent_dev (the_bus b s) = Some p -> in_devs s p
}.

(** The same devices at the same places. *)
Record same_topo (s s' : PciState) : Prop := {
  st_devs : length (devs s') = length (devs s);
  st_buses : length (buses s') = length (buses s);
  st_dev : forall e, 0 <= e -> bus (dev e s') = bus (dev e s) /\ devfn (dev e s') = devfn (dev e s);
  st_bus : forall b, map_irq (the_bus b s') = map_irq (the_bus b s) /\ has_set_irq (the_bus b s') = has_set_irq (the_bus b s)
    /\ parent_dev (the_bus b s') = parent_dev (the_bus b s) /\ length (irq_count (the_bus b s')) = length (irq_count (the_bus b s));
  st_nirq : forall b, nirq (the_bus b s') = nirq (the_bus b s)
}.

#[export] Instance same_topo_refl : Reflexive same_topo.
Proof. intros s. now constructor. Qed.

#[export] Instance same_topo_trans : Transitive same_topo.
Proof.
  intros s1 s2 s3 [A1 A2 A3 A4 A5] [B1 B2 B3 B4 B5]. constructor; try congruence.
  - intros e He. destruct (A3 e He), (B3 e He). split; congruence.
  - intros b. destruct (A4 b) as (? & ? & ? & ?), (B4 b) as (? & ? & ? & ?). split_and!; congruence.
Qed.

Lemma route_same s s' n : same_topo s s' -> topo s -> forall d p, 0 <= d -> irq_route n d p s' = irq_route n d p s.
Proof.
  intros F T. induction n as [|n IH]; intros d p Hd; [done|]. cbn [irq_route].
  destruct (st_dev _ _ F d Hd) as [Eb Ef]. rewrite Eb. destruct (st_bus _ _ F (bus (dev d s))) as (Em & Es & Ep & _).
  rewrite Em, Es, Ep, (t_map _ T _ (dev d s') (dev d s) p Ef). clear Es Ep. destruct (has_set_irq (the_bus (bus (dev d s)) s)); [done|].
  destruct (parent_dev (the_bus (bus (dev d s)) s)) as [q|] eqn:E; [|done]. apply IH. apply (t_parents _ T) in E. unfold in_devs in E. lia.
Qed.

Lemma rt_same s s' d p : same_topo s s' -> topo s -> 0 <= d -> rt s' d p = rt s d p.
Proof. intros F T Hd. unfold rt. rewrite (st_buses _ _ F). now apply route_same. Qed.

Lemma is_input_same s s' b n : same_topo s s' -> is_input s' b n <-> is_input s b n.
Proof. intros F. unfold is_input. destruct (st_bus _ _ F b) as (_ & _ & _ & ->). now rewrite (st_buses _ _ F). Qed.

Lemma topo_same s s' : same_topo s s' -> topo s -> topo s'.
Proof.
  intros F T. constructor.
  - intros d p Hd Hp. unfold in_devs in Hd. rewrite (st_devs _ _ F) in Hd. rewrite (rt_same s s') by (done || lia).
    destruct (t_route _ T d p Hd Hp) as (b & n & E & I). exists b, n. split; [done|]. now apply (is_input_same s s').
  - intros b x y p. destruct (st_bus _ _ F b) as (-> & _). apply (t_map _ T).
  - intros b p. destruct (st_bus _ _ F b) as (_ & _ & -> & _). unfold in_devs. rewrite (st_devs _ _ F). apply (t_parents _ T).
Qed.

(** ** The counters *)

Definition count (s : PciState) (b n : Z) : Z := aget (irq_count (the_bus b s)) n.

(** What pin [p] of device [d] should add to input [n] of bus [b]. *)
Definition asserted (s : PciState) (d p : Z) : Z :=
  if truthy (pci_irq_disabled (dev d s)) then 0 else pci_irq_state (dev d s) p.
Definition at_input (s : PciState) (d p b n v : Z) : Z := if decide (rt s d p = Some (b, n)) then v else 0.
Definition from_dev (s : PciState) (b n d : Z) : Z := zsum (seqZ 0 4) (fun p => at_input s d p b n (asserted s d p)).
Definition total (s : PciState) (b n : Z) : Z := zsum (seqZ 0 (Z.of_nat (length (devs s)))) (from_dev s b n).

Definition counted (s : PciState) : Prop := forall b n, is_input s b n -> count s b n = total s b n.

(** Changing only device [d] changes the total by the change of its pins. *)
Lemma total_change s s' d b n : same_topo s s' -> topo s -> in_devs s d -> (forall e, 0 <= e -> e <> d -> dev e s' = dev e s) ->
  total s' b n = total s b n + zsum (seqZ 0 4) (fun p => at_input s d p b n (asserted s' d p - asserted s d p)).
Proof.
  intros F T Hd He. unfold total. rewrite (st_devs _ _ F).
  rewrite (zsum_change _ (from_dev s b n) _ d).
  - f_equal. unfold from_dev.
    assert (zsum (seqZ 0 4) (fun p => at_input s' d p b n (asserted s' d p)) =
      zsum (seqZ 0 4) (fun p => at_input s d p b n (asserted s d p) + at_input s d p b n (asserted s' d p - asserted s d p))) as E.
    { apply zsum_ext. intros p _. unfold at_input. rewrite (rt_same s s') by (done || (unfold in_devs in Hd; lia)). destruct (decide _); lia. }
    rewrite E, zsum_plus. lia.
  - apply NoDup_seqZ.
  - apply elem_seqZ. exact Hd.
  - intros e He'%elem_seqZ Hne. unfold from_dev. apply zsum_ext. intros p _. unfold at_input, asserted.
    rewrite (rt_same s s') by (done || lia). now rewrite He by lia.
Qed.

Lemma the_bus_set b x s : 0 <= b < Z.of_nat (length (buses s)) -> the_bus b (set_bus b x s) = x.
Proof. intros Hb. unfold the_bus, set_bus. cbn [over buses]. rewrite nth_lookup, list_lookup_insert_eq; [done|lia]. Qed.

Lemma the_bus_ne b c x s : Z.to_nat b <> Z.to_nat c -> the_bus c (set_bus b x s) = the_bus c s.
Proof. intros Hb. unfold the_bus, set_bus. cbn [over buses]. rewrite !nth_lookup, list_lookup_insert_ne; done. Qed.

Lemma change_level_spec d p v s w : topo s -> in_devs s d -> 0 <= p < 4 ->
  exists s' w', pci_change_irq_level d p v s w = Some (s', w') /\ devs s' = devs s /\ same_topo s s'
    /\ forall b n, is_input s b n -> count s' b n = count s b n + at_input s d p b n v.
Proof.
  intros T Hd Hp. destruct (t_route _ T d p Hd Hp) as (b & n & E & Hb & Hn). unfold pci_change_irq_level. fold (rt s d p). rewrite E.
  set (c := aset _ n _). set (s' := set_bus b _ s). exists s', (set_irq s' b n (b2z (negb (aget (irq_count (the_bus b s)) n + v =? 0))) w).
  assert (the_bus b s' = (the_bus b s) <| irq_count := c |>) as E1 by now apply the_bus_set.
  assert (forall c', Z.to_nat b <> Z.to_nat c' -> the_bus c' s' = the_bus c' s) as E2 by (intros; now apply the_bus_ne).
  assert (forall c', Z.to_nat b = Z.to_nat c' -> the_bus c' s' = (the_bus b s) <| irq_count := c |> /\ the_bus c' s = the_bus b s) as E3.
  { intros c' Hc. unfold the_bus in *. rewrite <- Hc. split; [exact E1|done]. }
  split; [done|]. split; [done|]. split.
  - constructor; try done.
    + unfold s', set_bus. cbn [over buses]. apply length_insert.
    + intros c'. destruct (decide (Z.to_nat b = Z.to_nat c')) as [Eq|Ne]; [|now rewrite E2].
      destruct (E3 c' Eq) as [-> ->]. cbn [over map_irq has_set_irq parent_dev irq_count]. unfold c. now rewrite length_aset.
    + intros c'. destruct (decide (Z.to_nat b = Z.to_nat c')) as [Eq|Ne]; [|now rewrite E2]. now destruct (E3 c' Eq) as [-> ->].
  - intros b' n' [Hb' Hn']. unfold count, at_input. destruct (decide (Z.to_nat b = Z.to_nat b')) as [Eq|Ne].
    + assert (b' = b) as -> by lia. rewrite E1. cbn [over irq_count]. unfold c. destruct (decide (n' = n)) as [->|Hne].
      * rewrite aget_aset_eq by done. destruct (decide _); [lia|congruence].
      * rewrite aget_aset_ne by lia. destruct (decide _); [congruence|lia].
    + rewrite E2 by done. destruct (decide _); [congruence|lia].
Qed.

(** ** A device drives a pin *)

Lemma irq_state_bit d q : 0 <= q -> pci_irq_state d q = b2z (Z.testbit (irq_state d) q).
Proof.
  intros Hq. unfold pci_irq_state. change 0x1 with (1 << 0). rewrite land_bit, Z.shiftr_spec by lia. rewrite Z.add_0_l.
  now destruct (Z.testbit (irq_state d) q).
Qed.

Lemma set_irq_state_get p v d q : 0 <= p < 4 -> 0 <= q < 4 -> v = 0 \/ v = 1 ->
  pci_irq_state (pci_set_irq_state p v d) q = if decide (q = p) then v else pci_irq_state d q.
Proof.
  intros Hp Hq Hv. rewrite !irq_state_bit by lia. unfold pci_set_irq_state. cbn [over irq_state]. autorewrite with bits.
  destruct (Z.ltb_spec q 8); [|lia]. cbn [andb]. destruct (decide (q = p)) as [->|Hne].
  - rewrite Z.eqb_refl. cbn [negb]. rewrite andb_false_r. cbn [orb].
    destruct Hv as [-> | ->]; [now rewrite Z.shiftl_0_l, Z.bits_0|]. rewrite testbit_one_shift by lia. now rewrite Z.eqb_refl.
  - destruct (Z.eqb_spec q p); [done|]. cbn [negb]. rewrite andb_true_r.
    assert (Z.testbit (v << p) q = false) as ->; [|now rewrite orb_false_r].
    destruct Hv as [-> | ->]; [now rewrite Z.shiftl_0_l, Z.bits_0|]. rewrite testbit_one_shift by lia. now destruct (Z.eqb_spec q p).
Qed.

Lemma status_disabled d : pci_irq_disabled (pci_update_irq_status d) = pci_irq_disabled d.
Proof.
  unfold pci_update_irq_status, pci_irq_disabled, pci_get_word. destruct (truthy _); cbn [over config];
    now rewrite !aget_aset_ne by (unfold PCI_STATUS, PCI_COMMAND; lia).
Qed.

Lemma status_ok d : dev_ok d -> dev_ok (pci_update_irq_status d).
Proof.
  intros Hd. pose proof (proj1 (ok_bytes _ Hd)) as Hc.
  unfold pci_update_irq_status. destruct (truthy _); (apply dev_ok_set; [done|apply length_aset|apply aset_Forall; [apply u8_range|done]]).
Qed.

Lemma dev_ok_irq v d : dev_ok d -> dev_ok (d <| irq_state := v |>).
Proof. intros [? ? ? ? ? ?]. now constructor. Qed.

(** The whole state. *)
Definition all_ok (s : PciState) : Prop := forall d, in_devs s d -> dev_ok (dev d s).

Record pci_inv (s : PciState) : Prop := {
  inv_topo : topo s;
  inv_devs : all_ok s;
  inv_count : counted s
}.

Lemma same_topo_set_dev d x s : in_devs s d -> bus x = bus (dev d s) -> devfn x = devfn (dev d s) -> same_topo s (set_dev d x s).
Proof.
  intros Hd Hb Hf. constructor; try done; [apply length_set_dev|]. intros e He. destruct (decide (e = d)) as [->|Hne].
  - now rewrite dev_set_eq.
  - rewrite dev_set_ne by (unfold in_devs in Hd; lia). done.
Qed.

Lemma all_ok_set d x s : in_devs s d -> all_ok s -> dev_ok x -> all_ok (set_dev d x s).
Proof.
  intros Hd Ha Hx e He. unfold in_devs in He. rewrite length_set_dev in He. destruct (decide (e = d)) as [->|Hne].
  - now rewrite dev_set_eq.
  - rewrite dev_set_ne by (unfold in_devs in Hd; lia). now apply Ha.
Qed.

(** A new value of device [d] whose effect on the pins has been counted. *)
Lemma counted_step s s1 s' d : topo s -> in_devs s d -> same_topo s s1 -> (forall e, 0 <= e -> e <> d -> dev e s1 = dev e s) ->
  counted s -> same_topo s1 s' -> devs s' = devs s1 ->
  (forall b n, is_input s b n ->
     count s' b n = count s b n + zsum (seqZ 0 4) (fun p => at_input s d p b n (asserted s1 d p - asserted s d p))) ->
  counted s'.
Proof.
  intros T Hd F1 He HC F2 Ed Hcount b n Hi.
  assert (same_topo s s') as F by (etransitivity; eassumption). assert (is_input s b n) as Hi' by now apply (is_input_same s s').
  assert (forall e, dev e s' = dev e s1) as Edev by (intros e; unfold dev; now rewrite Ed).
  rewrite (total_change s s' d b n F T Hd) by (intros e H1 H2; rewrite Edev; auto).
  rewrite Hcount, HC by done. f_equal. apply zsum_ext. intros p _. unfold asserted. now rewrite Edev.
Qed.

Lemma pci_set_irq_inv d p v s w : pci_inv s -> in_devs s d -> 0 <= p < 4 -> v = 0 \/ v = 1 ->
  exists s' w', pci_set_irq d p v s w = Some (s', w') /\ pci_inv s' /\ same_topo s s'.
Proof.
  intros [T A C] Hd Hp Hv. unfold pci_set_irq. destruct (Z.eqb_spec (v - pci_irq_state (dev d s) p) 0) as [E0|H0].
  { exists s, w. split; [done|]. split; [now constructor|reflexivity]. }
  rewrite (dev_set_eq d _ s Hd). set (x := pci_update_irq_status (pci_set_irq_state p v (dev d s))).
  assert (forall y, set_dev d y (set_dev d (pci_set_irq_state p v (dev d s)) s) = set_dev d y s) as Ess.
  { intros y. unfold set_dev. destruct s as [l bs]. unfold over. cbn. now rewrite list_insert_insert_eq. }
  rewrite Ess. set (s1 := set_dev d x s). assert (dev d s1 = x) as E1 by now apply dev_set_eq. rewrite E1.
  assert (same_topo s s1) as F1 by (apply same_topo_set_dev; [done|unfold x, pci_update_irq_status; now destruct (truthy _)|unfold x, pci_update_irq_status; now destruct (truthy _)]).
  assert (dev_ok x) as Hx by (apply status_ok; apply dev_ok_irq, dev_ok_irq, A, Hd).
  assert (all_ok s1) as A1 by now apply all_ok_set.
  assert (forall e, 0 <= e -> e <> d -> dev e s1 = dev e s) as Eo by (intros e H1 H2; apply dev_set_ne; unfold in_devs in Hd; lia).
  assert (pci_irq_disabled x = pci_irq_disabled (dev d s)) as Edis by (etransitivity; [apply status_disabled|reflexivity]).
  assert (forall q, 0 <= q < 4 -> pci_irq_state x q = if decide (q = p) then v else pci_irq_state (dev d s) q) as Eq.
  { intros q Hq. rewrite <- set_irq_state_get by done. unfold x, pci_update_irq_status. now destruct (truthy _). }
  destruct (truthy (pci_irq_disabled x)) eqn:Et.
  - exists s1, w. split; [done|]. split; [|done]. constructor; [now apply (topo_same s)|done|].
    apply (counted_step s s1 s1 d); try done. intros b n Hi. change (count s1 b n) with (count s b n).
    rewrite (zsum_ext _ _ (fun _ => 0)); [rewrite zsum_zero; lia|]. intros q _. unfold at_input, asserted. rewrite E1, <- Edis, Et. now destruct (decide _).
  - destruct (change_level_spec d p (v - pci_irq_state (dev d s) p) s1 w) as (s' & w' & R & Ed & F2 & K);
      [now apply (topo_same s)|unfold in_devs, s1; now rewrite length_set_dev|done|].
    exists s', w'. split; [exact R|]. split; [|etransitivity; eassumption]. constructor.
    + apply (topo_same s1); [done|]. now apply (topo_same s).
    + intros e He. unfold dev, in_devs in *. rewrite Ed in *. now apply A1.
    + apply (counted_step s s1 s' d); try done. intros b n Hi. rewrite K by now apply (is_input_same s s1).
      change (count s1 b n) with (count s b n). f_equal. rewrite (zsum_change _ (fun _ => 0) _ p).
      * rewrite zsum_zero. unfold at_input. rewrite (rt_same s s1) by (done || (unfold in_devs in Hd; lia)).
        unfold asserted. rewrite E1, Et, <- Edis, Et, Eq by done. destruct (decide (p = p)); [|done].
        destruct (decide _); cbn; lia.
      * apply NoDup_seqZ.
      * now apply elem_seqZ.
      * intros q Hq%elem_seqZ Hne. unfold at_input, asserted. rewrite E1, Et, <- Edis, Et, Eq by lia.
        destruct (decide (q = p)); [done|]. destruct (decide _); lia.
Qed.

(** ** The guest writes configuration space *)

Lemma at_input_same s s' d p b n v : same_topo s s' -> topo s -> 0 <= d -> at_input s' d p b n v = at_input s d p b n v.
Proof. intros F T Hd. unfold at_input. now rewrite (rt_same s s'). Qed.

Lemma update_pins_spec d dis l : forall s w, topo s -> in_devs s d -> (forall p, p ∈ l -> 0 <= p < 4) ->
  exists s' w', foldl (update_pin d dis) (Some (s, w)) l = Some (s', w') /\ devs s' = devs s /\ same_topo s s'
    /\ forall b n, is_input s b n -> count s' b n = count s b n + zsum l (fun p =>
         at_input s d p b n (if truthy dis then - pci_irq_state (dev d s) p else pci_irq_state (dev d s) p)).
Proof.
  induction l as [|p l IH]; intros s w T Hd Hl.
  { exists s, w. split; [done|]. split; [done|]. split; [reflexivity|]. intros b n _. cbn. lia. }
  cbn [foldl update_pin]. set (v := if truthy dis then _ else _).
  destruct (change_level_spec d p v s w T Hd) as (s1 & w1 & -> & E1 & F1 & K1); [apply Hl; left|].
  assert (forall e, dev e s1 = dev e s) as Ed by (intros e; unfold dev; now rewrite E1).
  destruct (IH s1 w1) as (s2 & w2 & E2 & E3 & F2 & K2); [now apply (topo_same s)|unfold in_devs; now rewrite E1|intros q Hq; apply Hl; now right|].
  exists s2, w2. split; [exact E2|]. split; [congruence|]. split; [etransitivity; eassumption|]. intros b n Hi.
  rewrite K2 by now apply (is_input_same s s1). rewrite K1 by done. rewrite zsum_cons. fold v.
  rewrite (zsum_ext l _ (fun q => at_input s d q b n (if truthy dis then - pci_irq_state (dev d s) q else pci_irq_state (dev d s) q))); [lia|].
  intros q _. rewrite (at_input_same s s1) by (done || (unfold in_devs in Hd; lia)). now rewrite Ed.
Qed.

Lemma same_bars_topo d s s' : same_bars d s s' -> in_devs s d -> same_topo s s'.
Proof.
  intros F Hd. constructor.
  - apply (sb_len _ _ _ F).
  - now rewrite (sb_buses _ _ _ F).
  - intros e He. destruct (decide (e = d)) as [->|Hne]; [|now rewrite (sb_other _ _ _ F)].
    destruct (sb_fields _ _ _ F) as (_ & Eb & _ & Ef & _). done.
  - intros b. unfold the_bus. now rewrite (sb_buses _ _ _ F).
  - intros b. unfold the_bus. now rewrite (sb_buses _ _ _ F).
Qed.

Lemma same_bars_ok d s s' : same_bars d s s' -> in_devs s d -> all_ok s -> all_ok s'.
Proof.
  intros F Hd A e He. unfold in_devs in He. rewrite (sb_len _ _ _ F) in He.
  destruct (decide (e = d)) as [->|Hne]; [|rewrite (sb_other _ _ _ F) by lia; now apply A].
  destruct (sb_dev _ _ _ F) as (l & -> & El). destruct (A d Hd) as [? ? ? ? ? H7]. constructor; try done. cbn [over io_regions]. congruence.
Qed.

Lemma disabled_values d : pci_irq_disabled d = 0 \/ pci_irq_disabled d = 0x400.
Proof.
  unfold pci_irq_disabled, PCI_COMMAND_INTX_DISABLE. change 0x400 with (1 << 10). rewrite land_bit by lia.
  destruct (Z.testbit _ 10); [right|left]; reflexivity.
Qed.

Lemma counted_ext s s1 d : topo s -> in_devs s d -> same_topo s s1 -> (forall e, 0 <= e -> e <> d -> dev e s1 = dev e s) ->
  (forall b, irq_count (the_bus b s1) = irq_count (the_bus b s)) ->
  (forall p, 0 <= p < 4 -> asserted s1 d p = asserted s d p) -> counted s -> counted s1.
Proof.
  intros T Hd F Eo Ec Ea C. apply (counted_step s s1 s1 d); try done. intros b n Hi. unfold count. rewrite Ec.
  rewrite (zsum_ext _ _ (fun _ => 0)); [rewrite zsum_zero; lia|]. intros p Hp%elem_seqZ. unfold at_input. rewrite Ea by done.
  destruct (decide _); lia.
Qed.

(** The third part of [pci_default_write_config]. *)
Lemma update_disabled_spec s s2 d w : pci_inv s -> in_devs s d -> same_topo s s2 -> all_ok s2 ->
  (forall e, 0 <= e -> e <> d -> dev e s2 = dev e s) -> (forall b, irq_count (the_bus b s2) = irq_count (the_bus b s)) ->
  irq_state (dev d s2) = irq_state (dev d s) ->
  exists s' w', pci_update_irq_disabled d (pci_irq_disabled (dev d s)) s2 w = Some (s', w') /\ pci_inv s' /\ same_topo s s'
    /\ devs s' = devs s2.
Proof.
  intros [T A C] Hd F A2 Eo Ec Es. assert (topo s2) as T2 by now apply (topo_same s).
  assert (in_devs s2 d) as Hd2 by (unfold in_devs; now rewrite (st_devs _ _ F)).
  assert (forall p, pci_irq_state (dev d s2) p = pci_irq_state (dev d s) p) as Ep by (intros p; unfold pci_irq_state; now rewrite Es).
  unfold pci_update_irq_disabled. destruct (Z.eqb_spec (pci_irq_disabled (dev d s2)) (pci_irq_disabled (dev d s))) as [E|E].
  { exists s2, w. split; [done|]. split; [|done]. constructor; try done. apply (counted_ext s s2 d); try done.
    intros p _. unfold asserted. now rewrite E, Ep. }
  destruct (update_pins_spec d (pci_irq_disabled (dev d s2)) (seqZ 0 PCI_NUM_PINS) s2 w T2 Hd2) as (s' & w' & R & Ed & F2 & K).
  { intros p. now rewrite elem_seqZ. }
  exists s', w'. split; [exact R|]. split; [|split; [etransitivity; eassumption|done]]. constructor.
  - now apply (topo_same s2).
  - intros e He. unfold in_devs, dev in *. rewrite Ed in *. now apply A2.
  - apply (counted_step s s2 s' d); try done. intros b n Hi. rewrite K by now apply (is_input_same s s2).
    unfold count at 1. rewrite Ec. unfold count. f_equal. apply zsum_ext. intros p _.
    rewrite (at_input_same s s2) by (done || (unfold in_devs in Hd; lia)). f_equal. unfold asserted. rewrite Ep.
    destruct (disabled_values (dev d s2)) as [E2|E2], (disabled_values (dev d s)) as [E1|E1]; rewrite E1, E2 in *; try done; cbn; lia.
Qed.

(** A write of one, two or four bytes inside the configuration space. *)
Definition write_range (s : PciState) (d a l : Z) : Prop := 0 <= a /\ a + l <= pci_config_size (dev d s) /\ (l = 1 \/ l = 2 \/ l = 4).

(** A write that may not touch the second byte of the command register alone. *)
Definition write_ok (s : PciState) (d a l : Z) : Prop :=
  0 <= a /\ a + l <= pci_config_size (dev d s) /\ (l = 1 \/ l = 2 \/ l = 4) /\ a <> PCI_COMMAND + 1.

Lemma ok_range s d a l : write_ok s d a l -> write_range s d a l.
Proof. intros (H1 & H2 & H3 & _). now split_and!. Qed.

Lemma range_last a l : 0 <= a -> a + l <= 4096 -> 1 <= l -> range_get_last a l = a + l - 1.
Proof. intros. unfold range_get_last, u64. apply Z.mod_small. lia. Qed.

Lemma covers_spec a l k : 0 <= a -> a + l <= 4096 -> 1 <= l -> range_covers_byte a l k = true <-> a <= k < a + l.
Proof. intros. unfold range_covers_byte. rewrite range_last by done. rewrite andb_true_iff. lia. Qed.

Lemma overlap_spec a l b m : 0 <= a -> a + l <= 4096 -> 1 <= l -> 0 <= b -> b + m <= 4096 -> 1 <= m ->
  ranges_overlap a l b m = true <-> exists k, a <= k < a + l /\ b <= k < b + m.
Proof.
  intros. unfold ranges_overlap. rewrite !range_last by done. rewrite negb_true_iff, orb_false_iff. split.
  - intros [? ?]. exists (Z.max a b). lia.
  - intros (k & ? & ?). lia.
Qed.

(** The configuration bytes after the write. *)
Definition after_write (x : PCIDevice) (a val l : Z) : PCIDevice :=
  x <| config := written (Z.to_nat l) a val (wmask x) (w1cmask x) (config x) |>.

Lemma after_write_ok x a val l : dev_ok x -> 0 <= a -> dev_ok (after_write x a val l).
Proof.
  intros Hx Ha. pose proof (ok_bytes _ Hx) as (H1 & H2 & _).
  destruct (written_ok (Z.to_nat l) a val (wmask x) (w1cmask x) (config x) H1 H2 Ha). now apply dev_ok_set.
Qed.

Lemma after_write_other x a val l k : dev_ok x -> 0 <= a -> 0 <= l -> 0 <= k < pci_config_size x -> k < a \/ a + l <= k ->
  aget (config (after_write x a val l)) k = aget (config x) k.
Proof.
  intros Hx Ha Hl Hk Ho. unfold after_write. cbn [over config]. rewrite written_get by (rewrite ?(ok_config _ Hx); lia).
  destruct (Z.leb_spec a k), (Z.ltb_spec k (a + Z.of_nat (Z.to_nat l))); try lia; reflexivity.
Qed.

(** The first two parts of [pci_default_write_config]. *)
Lemma write_maps s d a val l w (x := after_write (dev d s) a val l)
    (c := ranges_overlap a l PCI_BASE_ADDRESS_0 24 || ranges_overlap a l PCI_ROM_ADDRESS 4
           || ranges_overlap a l PCI_ROM_ADDRESS1 4 || range_covers_byte a l PCI_COMMAND) :
  pci_inv s -> in_devs s d -> write_range s d a l ->
  write_bytes (Z.to_nat l) a val (dev d s) = Some x
  /\ exists s2 w2, (if c then pci_update_mappings d (set_dev d x s) w else (set_dev d x s, w)) = (s2, w2)
       /\ same_bars d (set_dev d x s) s2 /\ (c = true -> forall i, 0 <= i < 7 -> region_in_step d i s2).
Proof.
  intros [T A C] Hd (Ha & Hl & Hc). pose proof (A d Hd) as Hx. pose proof (config_size_pos (dev d s)).
  split; [apply write_bytes_spec; [done|done|lia]|].
  assert (in_devs (set_dev d x s) d) as Hd1 by (unfold in_devs; now rewrite length_set_dev).
  destruct c; [|exists (set_dev d x s), w; split; [done|]; split; [reflexivity|done]].
  destruct (pci_update_mappings d (set_dev d x s) w) as [s2 w2] eqn:E. exists s2, w2. split; [done|].
  apply update_mappings_spec in E as [E1 E2]; [done|done| |].
  - rewrite dev_set_eq by done. apply (ok_regions _ Hx).
  - intros b p Hp. apply (t_parents _ T) in Hp. unfold in_devs in Hp. lia.
Qed.

Lemma write_config_inv s d a val l w : pci_inv s -> in_devs s d -> write_ok s d a l ->
  exists s' w', pci_default_write_config d a val l s w = Some (s', w') /\ pci_inv s' /\ same_topo s s'
    /\ config (dev d s') = config (after_write (dev d s) a val l).
Proof.
  intros I Hd Hw. destruct (write_maps s d a val l w I Hd (ok_range _ _ _ _ Hw)) as (Eb & s2 & w2 & Em & F & _).
  destruct Hw as (Ha & Hl & Hc & H5). pose proof (config_size_pos (dev d s)) as Hsz.
  set (x := after_write (dev d s) a val l) in *. unfold pci_default_write_config. rewrite Eb, Em.
  assert (dev_ok x) as Hx by (apply after_write_ok; [apply (inv_devs _ I), Hd|done]).
  assert (same_topo s (set_dev d x s)) as F1 by now apply same_topo_set_dev.
  assert (in_devs (set_dev d x s) d) as Hd1 by (unfold in_devs; now rewrite length_set_dev).
  assert (same_topo s s2) as F2 by (etransitivity; [exact F1|now apply (same_bars_topo d)]).
  assert (all_ok s2) as A2 by (apply (same_bars_ok d _ _ F Hd1); apply all_ok_set; try done; apply I).
  assert (forall e, 0 <= e -> e <> d -> dev e s2 = dev e s) as Eo
    by (intros e H1 H2; rewrite (sb_other _ _ _ F) by done; apply dev_set_ne; unfold in_devs in Hd; lia).
  assert (forall b, irq_count (the_bus b s2) = irq_count (the_bus b s)) as Ec by (intros b; unfold the_bus; now rewrite (sb_buses _ _ _ F)).
  destruct (sb_fields _ _ _ F) as (Ex & _ & Es & _). rewrite dev_set_eq in Ex, Es by done.
  destruct (range_covers_byte a l PCI_COMMAND) eqn:Ecov.
  - destruct (update_disabled_spec s s2 d w2 I Hd F2 A2 Eo Ec Es) as (s' & w' & R & I' & F' & Ed).
    exists s', w'. split; [exact R|]. split; [done|]. split; [done|]. unfold dev at 1. rewrite Ed. exact Ex.
  - exists s2, w2. split; [done|]. split; [|done]. constructor; [apply (topo_same s); [done|apply I]|done|].
    apply (counted_ext s s2 d); try done; try apply I. intros p _. unfold asserted, pci_irq_state. rewrite Es.
    assert (~ (a <= PCI_COMMAND < a + l)) as Hn by (intros Hin; rewrite <- covers_spec in Hin by lia; congruence).
    unfold pci_irq_disabled, pci_get_word. rewrite Ex. unfold x.
    rewrite !after_write_other by (try apply (inv_devs _ I); try done; unfold PCI_COMMAND in *; lia). reflexivity.
Qed.

(** ** Sequences of operations *)

Inductive pci_op := SetPin (d p v : Z) | WriteConfig (d a val l : Z).

Definition run_op (o : pci_op) (s : PciState) (w : W) : option (PciState * W) :=
  match o with
  | SetPin d p v => pci_set_irq d p v s w
  | WriteConfig d a val l => pci_default_write_config d a val l s w
  end.
Fixpoint run_ops (os : list pci_op) (s : PciState) (w : W) : option (PciState * W) :=
  match os with
  | [] => Some (s, w)
  | o :: os => match run_op o s w with None => None | Some (s, w) => run_ops os s w end
  end.

(** Operations the devices and the guest may perform. *)
Definition op_ok (n : nat) (o : pci_op) : Prop :=
  match o with
  | SetPin d p v => 0 <= d < Z.of_nat n /\ 0 <= p < 4 /\ (v = 0 \/ v = 1)
  | WriteConfig d a val l => 0 <= d < Z.of_nat n /\ 0 <= a /\ a + l <= PCI_CONFIG_SPACE_SIZE /\ (l = 1 \/ l = 2 \/ l = 4) /\ a <> PCI_COMMAND + 1
  end.

Lemma run_op_inv o s w : pci_inv s -> op_ok (length (devs s)) o ->
  exists s' w', run_op o s w = Some (s', w') /\ pci_inv s' /\ same_topo s s'.
Proof.
  intros I. destruct o as [d p v|d a val l]; intros Ho.
  - destruct Ho as (Hd & Hp & Hv). now apply pci_set_irq_inv.
  - destruct Ho as (Hd & Ha & Hl & Hc & H5). destruct (write_config_inv s d a val l w I Hd) as (s' & w' & E & I' & F & _); [|now exists s', w'].
    split; [done|]. split; [|done]. pose proof (config_size_pos (dev d s)). unfold PCI_CONFIG_SPACE_SIZE in Hl. lia.
Qed.

Lemma run_ops_inv os : forall s w, pci_inv s -> Forall (op_ok (length (devs s))) os ->
  exists s' w', run_ops os s w = Some (s', w') /\ pci_inv s' /\ same_topo s s'.
Proof.
  induction os as [|o os IH]; intros s w I Ho; cbn [run_ops]; [exists s, w; split; [done|]; split; [done|reflexivity]|].
  apply List.Forall_cons_iff in Ho as [H1 H2]. destruct (run_op_inv o s w I H1) as (s1 & w1 & -> & I1 & F1).
  rewrite <- (st_devs _ _ F1) in H2. destruct (IH s1 w1 I1 H2) as (s2 & w2 & E & I2 & F2). exists s2, w2.
  split; [done|]. split; [done|]. etransitivity; eassumption.
Qed.

Lemma asserted_01 s d p : 0 <= p -> asserted s d p = 0 \/ asserted s d p = 1.
Proof. intros Hp. unfold asserted. destruct (truthy _); [now left|]. rewrite irq_state_bit by done. destruct (Z.testbit _ _); [now right|now left]. Qed.

Lemma count_nonzero s b n : pci_inv s -> is_input s b n ->
  count s b n <> 0 <-> exists d p, in_devs s d /\ 0 <= p < 4 /\ rt s d p = Some (b, n) /\ asserted s d p = 1.
Proof.
  intros I Hi. rewrite (inv_count _ I b n Hi). unfold total.
  assert (forall d p, 0 <= p -> 0 <= at_input s d p b n (asserted s d p)) as Hge.
  { intros d p Hp. unfold at_input. destruct (decide _); [|lia]. destruct (asserted_01 s d p Hp); lia. }
  assert (forall d p, p ∈ seqZ 0 4 -> 0 <= at_input s d p b n (asserted s d p)) as Hge' by (intros d p Hp%elem_seqZ; apply Hge; lia).
  rewrite zsum_pos by (intros d _; apply zsum_nonneg, Hge'). split.
  - intros (d & Hd%elem_seqZ & Hz). unfold from_dev in Hz. rewrite zsum_pos in Hz by apply Hge'. destruct Hz as (p & Hp%elem_seqZ & Hz).
    exists d, p. unfold at_input in Hz. destruct (decide _); [|done]. destruct (asserted_01 s d p); [lia|done|]. done.
  - intros (d & p & Hd & Hp & Hr & Ha). exists d. split; [now apply elem_seqZ|]. unfold from_dev. rewrite zsum_pos by apply Hge'.
    exists p. split; [now apply elem_seqZ|]. unfold at_input. rewrite Ha. now destruct (decide _).
Qed.


(** ** The mappings follow the registers *)

(** Region [i] is mapped where its base address register says. *)
Definition mapped_right (x : PCIDevice) (i : Z) : Prop :=
  let r := region i x in
  size r <> 0 -> addr r = pci_bar_address x i (type r) (size r) /\ filtered_size r = size r.

(** Sizes are powers of two and a 64-bit register does not run past the last. *)
Definition region_ok (x : PCIDevice) (i : Z) : Prop :=
  let r := region i x in
  size r <> 0 -> (exists k, 1 <= k <= 63 /\ size r = 2 ^ k)
    /\ (tst (type r) PCI_BASE_ADDRESS_SPACE_IO = false -> tst (type r) PCI_BASE_ADDRESS_MEM_TYPE_64 = true -> i < 5).

Lemma in_step_root s d i : dev_ok (dev d s) -> region_ok (dev d s) i -> parent_dev (the_bus (bus (dev d s)) s) = None ->
  region_in_step d i s -> mapped_right (dev d s) i.
Proof.
  intros Hx Hr Hp Hs. unfold mapped_right. cbv zeta. intros Hz. specialize (Hs Hz). destruct (Hr Hz) as [(k & Hk & Ek) _].
  unfold target in Hs. rewrite Ek in *. pose proof (bar_address_sound (dev d s) i (type (region i (dev d s))) k Hx Hk) as Hb. cbv zeta in Hb.
  set (b := pci_bar_address _ i _ _) in *. destruct (Z.eqb_spec b PCI_BAR_UNMAPPED) as [E|E]; cbn [negb] in Hs; [now injection Hs|].
  destruct Hb as [Hb|(_ & H2 & H3)]; [contradiction|]. assert (bar_top (type (region i (dev d s))) < 2 ^ 64) as Ht by (unfold bar_top; repeat case_match; lia).
  assert (0 < 2 ^ k) by (apply Z.pow_pos_nonneg; lia). unfold pci_bridge_filter in Hs. rewrite Hp in Hs.
  assert (forall n cmd ty x y, filter_loop n cmd ty None x y s = Some (x, y)) as Ef by (intros []; reflexivity). rewrite Ef in Hs.
  assert (u64 (b + 2 ^ k - 1) = b + 2 ^ k - 1) as Eu by (apply u64_id; unfold in_u; lia). rewrite Eu in Hs.
  destruct (Z.ltb_spec (b + 2 ^ k - 1) b); [lia|]. injection Hs as -> ->. split; [done|].
  replace (b + 2 ^ k - 1 - b + 1) with (2 ^ k) by lia. apply u64_id. unfold in_u. lia.
Qed.

Lemma mapped_right_bytes x x' i : dev_ok x -> dev_ok x' -> 0 <= i < 7 -> region_ok x i -> region i x' = region i x ->
  (forall k, bar_byte k -> aget (config x') k = aget (config x) k) -> mapped_right x i -> mapped_right x' i.
Proof.
  intros Hx Hx' Hi Hr Er Hb Hm. unfold mapped_right in *. cbv zeta in *. rewrite Er. intros Hz. destruct (Hm Hz) as [-> ->].
  destruct (Hr Hz) as [_ H64]. split; [|done]. symmetry. now apply bar_address_bytes.
Qed.

(** A byte the guest cannot write. *)
Definition read_only (x : PCIDevice) (k : Z) : Prop := aget (wmask x) k = 0 /\ aget (w1cmask x) k = 0.

Lemma after_write_read_only x a val l k : dev_ok x -> 0 <= a -> 0 <= k < pci_config_size x -> read_only x k ->
  aget (config (after_write x a val l)) k = aget (config x) k.
Proof.
  intros Hx Ha Hk [H1 H2]. unfold after_write. cbn [over config]. rewrite written_get by (rewrite ?(ok_config _ Hx); lia).
  destruct (_ && _); [|done]. unfold wbyte. rewrite H1, H2. rewrite !Z.land_0_r, Z.lor_0_r. bitwise.
Qed.

Lemma change_level_devs d p v s w s' w' : pci_change_irq_level d p v s w = Some (s', w') -> devs s' = devs s.
Proof. unfold pci_change_irq_level. destruct (irq_route _ _ _ _) as [[b n]|]; [|discriminate]. now intros [= <- _]. Qed.

Lemma update_disabled_devs d v s w s' w' : pci_update_irq_disabled d v s w = Some (s', w') -> devs s' = devs s.
Proof.
  unfold pci_update_irq_disabled. destruct (_ =? _); [now intros [= <- _]|]. generalize (pci_irq_disabled (dev d s)) as dis. intros dis.
  generalize (seqZ 0 PCI_NUM_PINS) as l. intros l. revert s w. induction l as [|p l IH]; intros s w; cbn [foldl]; [now intros [= <- _]|].
  destruct (update_pin d dis (Some (s, w)) p) as [[s1 w1]|] eqn:E.
  - intros R. apply IH in R. rewrite R. exact (change_level_devs _ _ _ _ _ _ _ E).
  - assert (foldl (update_pin d dis) None l = None) as -> by (clear; induction l; [done|assumption]). discriminate.
Qed.

(** *** The calls a write makes *)

(** A call to the host for the regions of a device. *)
Inductive call :=
| UnassignIo (a n : Z)
| UnassignMemory (a n : Z)
| MapRegion (i a n ty : Z).

(** What has to be called for region [i] that was [r] and is [r']: the old range
    is taken away, the new one is mapped.  [ide] is the class of an IDE
    controller, which has one of four ports mapped; [cpu] gives the CPU's address. *)
Definition unmap_calls (ide : bool) (cpu : Z -> Z) (r : PCIIORegion) : list call :=
  if addr r =? PCI_BAR_UNMAPPED then []
  else if tst (type r) PCI_BASE_ADDRESS_SPACE_IO
       then [if ide && (size r =? 4) then UnassignIo (u64 (addr r + 2)) 1 else UnassignIo (addr r) (filtered_size r)]
       else [UnassignMemory (cpu (addr r)) (filtered_size r)].
Definition map_calls (cpu : Z -> Z) (i : Z) (r : PCIIORegion) : list call :=
  if addr r =? PCI_BAR_UNMAPPED then []
  else [MapRegion i (if tst (type r) PCI_BASE_ADDRESS_SPACE_IO then addr r else cpu (addr r)) (filtered_size r) (type r)].
Definition remap_calls (ide : bool) (cpu : Z -> Z) (x x' : PCIDevice) (i : Z) : list call :=
  let r := region i x in let r' := region i x' in
  if (size r =? 0) || ((addr r' =? addr r) && (filtered_size r' =? filtered_size r)) then []
  else unmap_calls ide cpu r ++ map_calls cpu i r'.

Definition is_ide (x : PCIDevice) : bool := pci_get_word (config x) PCI_CLASS_DEVICE =? 0x0101.
Definition cpu_addr (d : Z) (s : PciState) (a : Z) : Z := pci_to_cpu_addr (bus (dev d s)) a s.

(** [c] has been called for device [d]; a map function may look at the state in
    which the region is mapped. *)
Definition called (d : Z) (c : call) (w w' : W) : Prop :=
  match c with
  | UnassignIo a n => w' = isa_unassign_ioport a n w
  | UnassignMemory a n => w' = unassign_memory a n w
  | MapRegion i a n ty => exists st, addr (region i (dev d st)) <> PCI_BAR_UNMAPPED /\ w' = map_func st d i a n ty w
  end.
Inductive calls (d : Z) : list call -> W -> W -> Prop :=
| calls_nil w : calls d [] w w
| calls_cons c l w w1 w2 : called d c w w1 -> calls d l w1 w2 -> calls d (c :: l) w w2.

Lemma calls_app d l l' w w1 w2 : calls d l w w1 -> calls d l' w1 w2 -> calls d (l ++ l') w w2.
Proof. intros A B. induction A as [w|c l w w0 w1 A _ IH]; [done|]. econstructor; [exact A|now apply IH]. Qed.

Lemma calls_one d c w w' : called d c w w' -> calls d [c] w w'.
Proof. intros A. econstructor; [exact A|constructor]. Qed.

Lemma unmap_called d ide cpu r w :
  calls d (unmap_calls ide cpu r) w
    (if negb (addr r =? PCI_BAR_UNMAPPED) then
       if tst (type r) PCI_BASE_ADDRESS_SPACE_IO then
         if ide && (size r =? 4) then isa_unassign_ioport (u64 (addr r + 2)) 1 w else isa_unassign_ioport (addr r) (filtered_size r) w
       else unassign_memory (cpu (addr r)) (filtered_size r) w
     else w).
Proof.
  unfold unmap_calls. destruct (addr r =? PCI_BAR_UNMAPPED); cbn [negb]; [constructor|].
  destruct (tst _ _); [destruct (ide && _)|]; now apply calls_one.
Qed.

Lemma map_called d cpu i r st w : region i (dev d st) = r ->
  calls d (map_calls cpu i r) w
    (if negb (addr r =? PCI_BAR_UNMAPPED) then
       if tst (type r) PCI_BASE_ADDRESS_SPACE_IO then map_func st d i (addr r) (filtered_size r) (type r) w
       else map_func st d i (cpu (addr r)) (filtered_size r) (type r) w
     else w).
Proof.
  intros Er. unfold map_calls. destruct (Z.eqb_spec (addr r) PCI_BAR_UNMAPPED) as [E|E]; cbn [negb]; [constructor|].
  destruct (tst _ _); apply calls_one; exists st; rewrite Er; now split.
Qed.

(** One turn of the loop makes the calls of its region. *)
Lemma update_region_calls d i s w s' w' : in_devs s d -> length (io_regions (dev d s)) = 7%nat -> 0 <= i < 7 ->
  update_region d (s, w) i = (s', w') -> calls d (remap_calls (is_ide (dev d s)) (cpu_addr d s) (dev d s) (dev d s') i) w w'.
Proof.
  intros Hd Hl Hi. unfold update_region, remap_calls. cbv zeta. destruct (size (region i (dev d s)) =? 0); [intros [= <- <-]; constructor|].
  fold (target d i s). destruct (target d i s) as [na ns]. cbn [orb].
  destruct ((na =? addr (region i (dev d s))) && (ns =? filtered_size (region i (dev d s)))) eqn:E.
  { intros [= <- <-]. rewrite !Z.eqb_refl. constructor. }
  set (r := (region i (dev d s)) <| addr := na |> <| filtered_size := ns |>). set (st := set_dev d (set_region i r (dev d s)) s).
  assert (dev d st = set_region i r (dev d s)) as Ed by now apply dev_set_eq. assert (region i (dev d st) = r) as Er by (rewrite Ed; apply region_set_eq; lia).
  assert (forall a, pci_to_cpu_addr (bus (dev d st)) a st = cpu_addr d s a) as Ea by (intros a; rewrite Ed; reflexivity).
  rewrite Ea. intros [= <- <-]. rewrite Er. change (addr r) with na. change (filtered_size r) with ns. rewrite E.
  eapply calls_app; [exact (unmap_called d (is_ide (dev d s)) (cpu_addr d s) (region i (dev d s)) w)|]. exact (map_called d (cpu_addr d s) i r st _ Er).
Qed.

Lemma flat_map_ext_in {A B} (f g : A -> list B) l : (forall x, In x l -> f x = g x) -> flat_map f l = flat_map g l.
Proof. intros E. induction l as [|x l IH]; cbn [flat_map]; [done|]. rewrite (E x (or_introl eq_refl)), IH; [done|]. intros y Hy. apply E. now right. Qed.

Lemma update_regions_calls d l : forall s w s' w', in_devs s d -> length (io_regions (dev d s)) = 7%nat ->
  parents_ok s -> (forall i, i ∈ l -> 0 <= i < 7) -> NoDup l -> foldl (update_region d) (s, w) l = (s', w') ->
  calls d (flat_map (remap_calls (is_ide (dev d s)) (cpu_addr d s) (dev d s) (dev d s')) l) w w'.
Proof.
  induction l as [|i l IH]; intros s w s' w' Hd Hl HP Hr Hn; cbn [foldl flat_map]; [intros [= <- <-]; constructor|].
  destruct (update_region d (s, w) i) as [s1 w1] eqn:E1. intros E2. pose proof (NoDup_cons_1_1 _ _ Hn) as Hi. apply NoDup_cons_1_2 in Hn.
  assert (0 <= i < 7) as Hi7 by (apply Hr; left). pose proof (update_region_calls _ _ _ _ _ _ Hd Hl Hi7 E1) as C1.
  destruct (update_region_spec _ _ _ _ _ _ Hd Hl Hi7 HP E1) as (F1 & _ & J1). destruct (sb_dev _ _ _ F1) as (m & Em & Lm). destruct (sb_fields _ _ _ F1) as (Ec & Eb & _).
  assert (parents_ok s1) as HP1 by (unfold parents_ok, the_bus; rewrite (sb_buses _ _ _ F1); exact HP).
  assert (in_devs s1 d) as Hd1 by (unfold in_devs; now rewrite (sb_len _ _ _ F1)). assert (length (io_regions (dev d s1)) = 7%nat) as Hl1 by (rewrite Em; cbn [over io_regions]; congruence).
  assert (forall j, j ∈ l -> 0 <= j < 7) as Hr1 by (intros j Hj; apply Hr; now right).
  destruct (update_regions_spec d l _ _ _ _ Hd1 Hl1 HP1 Hr1 Hn E2) as (F2 & _ & J2). specialize (IH s1 w1 s' w' Hd1 Hl1 HP1 Hr1 Hn E2).
  eapply calls_app; [unfold remap_calls in *; rewrite J2 by (lia || done); exact C1|].
  assert (is_ide (dev d s1) = is_ide (dev d s)) as E3 by (unfold is_ide; now rewrite Ec). rewrite E3 in IH.
  assert (forall j, j ∈ l -> remap_calls (is_ide (dev d s)) (cpu_addr d s) (dev d s) (dev d s') j = remap_calls (is_ide (dev d s)) (cpu_addr d s1) (dev d s1) (dev d s') j) as E4.
  { intros j Hj. assert (j <> i) as Hne by (intros ->; contradiction). specialize (Hr1 j Hj). unfold remap_calls, unmap_calls, map_calls, cpu_addr, pci_to_cpu_addr, the_bus. rewrite (sb_buses _ _ _ F1), Eb, J1 by lia. reflexivity. }
  rewrite (flat_map_ext_in _ (remap_calls (is_ide (dev d s)) (cpu_addr d s1) (dev d s1) (dev d s'))); [exact IH|]. intros j Hj. apply E4. now apply list_elem_of_In.
Qed.

(** Regions that stay need no call. *)
Lemma calls_same d ide cpu x a val l w : calls d (flat_map (remap_calls ide cpu x (after_write x a val l)) (seqZ 0 PCI_NUM_REGIONS)) w w.
Proof.
  assert (forall i, remap_calls ide cpu x (after_write x a val l) i = []) as E by (intros i; unfold remap_calls; cbv zeta; change (region i (after_write x a val l)) with (region i x); now rewrite !Z.eqb_refl, orb_true_r).
  induction (seqZ 0 PCI_NUM_REGIONS) as [|i k IH]; cbn [flat_map]; [constructor|]. now rewrite E.
Qed.

(** Interrupt inputs only. *)
Definition inputs_driven : W -> W -> Prop := rtc (fun w w' => exists st b n v, w' = set_irq st b n v w).

Lemma update_disabled_calls d v s w s' w' : pci_update_irq_disabled d v s w = Some (s', w') -> inputs_driven w w'.
Proof.
  unfold pci_update_irq_disabled. destruct (_ =? _); [intros [= <- <-]; apply rtc_refl|]. generalize (pci_irq_disabled (dev d s)) as dis. intros dis.
  generalize (seqZ 0 PCI_NUM_PINS) as l. intros l. revert s w. induction l as [|p l IH]; intros s w; cbn [foldl]; [intros [= <- <-]; apply rtc_refl|].
  destruct (update_pin d dis (Some (s, w)) p) as [[s1 w1]|] eqn:E.
  - intros R. apply IH in R. unfold update_pin, pci_change_irq_level in E. destruct (irq_route _ _ _ _) as [[b n]|]; [|discriminate]. injection E as _ <-.
    eapply rtc_l; [|exact R]. eauto 6.
  - assert (foldl (update_pin d dis) None l = None) as -> by (clear; induction l; [done|assumption]). discriminate.
Qed.

(** What a write leaves in the device, and the calls up to the interrupts. *)
Lemma write_config_dev s d a val l w : pci_inv s -> in_devs s d -> write_range s d a l ->
  exists s' w', pci_default_write_config d a val l s w = Some (s', w')
    /\ exists s2 w2, dev d s' = dev d s2 /\ all_ok s2 /\ same_bars d (set_dev d (after_write (dev d s) a val l) s) s2 /\ inputs_driven w2 w'
    /\ calls d (flat_map (remap_calls (is_ide (dev d s')) (cpu_addr d s) (dev d s) (dev d s')) (seqZ 0 PCI_NUM_REGIONS)) w w2
    /\ ((forall i, 0 <= i < 7 -> region_in_step d i s2)
        \/ (dev d s2 = after_write (dev d s) a val l
            /\ forall k, bar_byte k -> k <> PCI_HEADER_TYPE -> k < a \/ a + l <= k)).
Proof.
  intros I Hd Hw. destruct (write_maps s d a val l w I Hd Hw) as (Eb & s2 & w2 & Em & F & HS). pose proof Hw as (Ha & Hl & Hc). pose proof (config_size_pos (dev d s)).
  set (x := after_write (dev d s) a val l) in *. assert (in_devs (set_dev d x s) d) as Hd1 by (unfold in_devs; now rewrite length_set_dev).
  assert (exists s' w', pci_default_write_config d a val l s w = Some (s', w') /\ dev d s' = dev d s2 /\ inputs_driven w2 w') as (s' & w' & E & Ed & Q).
  { destruct (range_covers_byte a l PCI_COMMAND) eqn:Ecov.
    - assert (write_ok s d a l) as Hok by (apply covers_spec in Ecov; [|lia..]; split_and!; try done; unfold PCI_COMMAND in *; lia).
      destruct (write_config_inv s d a val l w I Hd Hok) as (s' & w' & E & _). exists s', w'. split; [exact E|]. unfold pci_default_write_config in E. rewrite Eb in E. fold x in E. rewrite Ecov, Em in E.
      split; [apply update_disabled_devs in E; unfold dev; now rewrite E|exact (update_disabled_calls _ _ _ _ _ _ E)].
    - exists s2, w2. unfold pci_default_write_config. rewrite Eb. fold x. rewrite Ecov, Em. split; [done|]. split; [done|apply rtc_refl]. }
  exists s', w'. split; [exact E|]. exists s2, w2. rewrite Ed. split; [done|]. split; [apply (same_bars_ok d _ _ F Hd1), all_ok_set; try done; [apply I|]; apply after_write_ok; [now apply (inv_devs _ I)|done]|].
  split; [exact F|]. split; [exact Q|]. assert (dev d (set_dev d x s) = x) as Ex by now apply dev_set_eq.
  assert (is_ide (dev d s2) = is_ide x) as Ei by (unfold is_ide; destruct (sb_fields _ _ _ F) as (-> & _); now rewrite Ex).
  destruct (_ || _) eqn:Ec in Em, HS; split; [|left; auto| |right].
  - apply update_regions_calls in Em; [|done|rewrite Ex; apply (ok_regions _ (inv_devs _ I d Hd))|intros b p Hp; apply (t_parents _ (inv_topo _ I)) in Hp; unfold in_devs in Hp; lia|intros i; apply regions_list|apply NoDup_seqZ].
    assert (cpu_addr d (set_dev d x s) = cpu_addr d s) as Ea by (unfold cpu_addr; now rewrite Ex). rewrite Ex, Ea in Em. rewrite Ei. exact Em.
  - injection Em as <- <-. rewrite Ex. apply calls_same.
  - injection Em as <- _. split; [exact Ex|]. rewrite !orb_false_iff in Ec. destruct Ec as (((C1 & C2) & C3) & C4).
    assert (forall b m k, 0 <= b -> b + m <= 4096 -> 1 <= m -> ranges_overlap a l b m = false -> b <= k < b + m -> ~ (a <= k < a + l)) as No.
    { intros b m k H1 H2 H3 H4 H5 H6. assert (ranges_overlap a l b m = true) by (apply overlap_spec; try lia; now exists k). congruence. }
    intros k Hk Hne. assert (~ (a <= k < a + l)); [|lia]. unfold PCI_BASE_ADDRESS_0, PCI_ROM_ADDRESS, PCI_ROM_ADDRESS1 in *.
    destruct Hk as [-> |[-> |[Hk|[Hk|Hk]]]]; [|done| | |].
    + intros Hin. rewrite <- covers_spec in Hin by lia. congruence.
    + apply (No 16 24); try lia. exact C1.
    + apply (No 48 4); try lia. exact C2.
    + apply (No 56 4); try lia. exact C3.
Qed.


End Irq.

(** ** A small board *)

Definition dev_okb (d : PCIDevice) : bool :=
  (Z.of_nat (length (config d)) =? pci_config_size d) && (Z.of_nat (length (wmask d)) =? pci_config_size d)
  && (Z.of_nat (length (w1cmask d)) =? pci_config_size d)
  && forallb (fun x => (0 <=? x) && (x <? 256)) (config d) && forallb (fun x => (0 <=? x) && (x <? 256)) (wmask d)
  && forallb (fun x => (0 <=? x) && (x <? 256)) (w1cmask d) && disjointb (wmask d) (w1cmask d)
  && Nat.eqb (length (io_regions d)) 7.

Lemma dev_okb_ok d : dev_okb d = true -> dev_ok d.
Proof.
  unfold dev_okb. rewrite !andb_true_iff. intros (((((((A & B) & C) & D) & E) & F) & G) & I).
  apply Z.eqb_eq in A, B, C. apply Nat.eqb_eq in I. constructor; auto using bytes_check. apply disjointb_spec; [lia|done].
Qed.

Definition slot_pirq (d : PCIDevice) (n : Z) : Z := (n + ((devfn d >> 3) - 1)) .& 3.

Definition empty_bus : PciState :=
  pci_bus_irqs 0 slot_pirq 4 (mkPci [] [mkBus 0 false (fun _ n => n) (replicate 256 None) None 0 [] 0 []]).
Definition plug (fn : Z) (id : Z) (s : PciState) : PciState :=
  match do_pci_register_device 0 fn QEMU_PCI_CAP_SERR (mkInfo 0x8086 id 0 0x200 0 0 false) s with Some (_, s) => s | None => s end.

(** An ISA bridge in slot 1 and a network card with an I/O region in slot 3. *)
Definition small_board : PciState := Eval vm_compute in
  let s := plug 0x18 0x100e (plug 0x8 0x7000 empty_bus) in
  match pci_register_bar 0 64 PCI_BASE_ADDRESS_SPACE_IO (dev 1 s) with Some d => set_dev 1 d s | None => s end.

(** Writing all ones to the first base address register of the card reads back the
    size of the region: the size bits and the type bits are read-only. *)
Lemma pci_config_write_correct_witness : exists d' old,
  write_bytes 4 0x10 0xffffffff (dev 1 small_board) = Some d' /\ pci_default_read_config (dev 1 small_board) 0x10 4 = Some old
  /\ pci_default_read_config d' 0x10 4 = Some 0xffffffc1.
Proof.
  destruct (pci_config_write_correct (dev 1 small_board) 0x10 0xffffffff 4) as (d' & old & new & E & _ & R1 & R2 & V & _).
  - apply dev_okb_ok. vm_compute. reflexivity.
  - lia.
  - change (pci_config_size (dev 1 small_board)) with 256. lia.
  - right. right. reflexivity.
  - exists d', old. split; [exact E|]. split; [exact R1|]. rewrite R2. f_equal.
    assert (old = 1) as -> by (vm_compute in R1; congruence). rewrite V. vm_compute. reflexivity.
Defined.

Lemma small_board_inv : pci_inv small_board.
Proof.
  assert (forall d, in_devs small_board d -> d = 0 \/ d = 1) as Hd
    by (unfold in_devs; change (length (devs small_board)) with 2%nat; lia).
  assert (forall b, Z.to_nat b <> 0%nat -> the_bus b small_board = bus0) as Hb.
  { intros b Hb. unfold the_bus. destruct (Z.to_nat b) as [|[|n]]; [done|reflexivity|reflexivity]. }
  constructor; [constructor| |].
  - intros d p Hdd Hp. assert (p = 0 \/ p = 1 \/ p = 2 \/ p = 3) as Hp' by lia.
    destruct (Hd d Hdd) as [-> | ->], Hp' as [-> | [-> | [-> | ->]]]; eexists 0, _; (split; [vm_compute; reflexivity|]); vm_compute; intuition discriminate.
  - intros b x y p E. destruct (decide (Z.to_nat b = 0%nat)) as [Eb|Eb]; [|now rewrite Hb].
    unfold the_bus. rewrite Eb. change (map_irq _) with slot_pirq. unfold slot_pirq. now rewrite E.
  - intros b p E. destruct (decide (Z.to_nat b = 0%nat)) as [Eb|Eb]; [|rewrite Hb in E by done; discriminate].
    unfold the_bus in E. rewrite Eb in E. vm_compute in E. discriminate.
  - intros d Hdd. apply dev_okb_ok. destruct (Hd d Hdd) as [-> | ->]; vm_compute; reflexivity.
  - intros b n [Hb' Hn]. assert (b = 0) as -> by (change (length (buses small_board)) with 1%nat in Hb'; lia).
    change (length (irq_count (the_bus 0 small_board))) with 4%nat in Hn.
    assert (n = 0 \/ n = 1 \/ n = 2 \/ n = 3) as [-> | [-> | [-> | ->]]] by lia; vm_compute; reflexivity.
Qed.

Definition no_host : PciHost unit := Build_PciHost unit (fun _ _ _ _ w => w) (fun _ _ _ _ _ _ w => w) (fun _ _ w => w) (fun _ _ w => w).
#[local] Existing Instance no_host.



(** The upper byte of the command register alone: a driver that disables and
    re-enables interrupts by byte writes leaves the input asserted for ever,
    although no pin is. *)
Example pci_intx_byte_write_stuck :
  match run_ops [SetPin 1 0 1; WriteConfig 1 5 4 1; SetPin 1 0 0; WriteConfig 1 5 0 1] small_board tt with
  | Some (s, _) => count s 0 2 = 1 /\ total s 0 2 = 0
  | None => False
  end.
Proof. vm_compute. split; reflexivity. Qed.

(** A bus reset clears the counters first; a device whose own reset then lowers its
    pin takes the counter to -1, which is non-zero: the input is asserted. *)
Example pci_bus_reset_underflow :
  match run_ops [SetPin 1 0 1] small_board tt with
  | Some (s, w) =>
      match pci_bus_reset (fun d s w => pci_set_irq d 0 0 s w) 0 s w with
      | Some (s, _) => count s 0 2 = -1 /\ total s 0 2 = 0
      | None => False
      end
  | None => False
  end.
Proof. vm_compute. split; reflexivity. Qed.

(** The reset of one device clears [irq_state] before it lowers the pins, so
    lowering them changes nothing and the input stays asserted. *)
Example pci_device_reset_stuck :
  match run_ops [SetPin 1 0 1] small_board tt with
  | Some (s, w) =>
      match pci_device_reset (fun _ s w => Some (s, w)) 1 s w with
      | Some (s, _) => count s 0 2 = 1 /\ total s 0 2 = 0
      | None => False
      end
  | None => False
  end.
Proof. vm_compute. split; reflexivity. Qed.

End PciIrq.
