(* ===== verification/Piix.v ===== *)
(** * The host bridge: hw/pci_host.c and the interrupt router of hw/piix_pci.c

    The PIIX3 maps the four interrupt inputs of the root bus to ISA interrupts by
    its registers 0x60 to 0x63 and remembers which of them hold each ISA line up.
    The model puts it behind the class [PciHost] of the bus; the ISA lines are the
    class [PicLines] on an outer world. *)

From S2P Require Import Prelude Pci PciIrq.

Module Piix.
Import Pci PciIrq.
#[local] Existing Instances PCIIORegion_eta PCIDevice_eta PCIBus_eta PciState_eta.

Definition PIIX_NUM_PIC_IRQS : Z := 16.
Definition PIIX_NUM_PIRQS : Z := 4.
Definition PIIX_PIRQC : Z := 0x60.

(** The ISA lines, and the memory and I/O mappings of the machine. *)
Class PicLines (U : Type) := {
  pic_set : Z -> Z -> U -> U;
  level : U -> Z -> Z;
  host_map : Z -> Z -> Z -> Z -> Z -> U -> U;
  host_unassign_io : Z -> Z -> U -> U;
  host_unassign_mem : Z -> Z -> U -> U;
  level_set : forall k v u, level (pic_set k v u) k = v;
  level_other : forall k k' v u, k <> k' -> level (pic_set k v u) k' = level u k';
  level_map : forall d i a sz ty u k, level (host_map d i a sz ty u) k = level u k;
  level_unassign_io : forall a sz u k, level (host_unassign_io a sz u) k = level u k;
  level_unassign_mem : forall a sz u k, level (host_unassign_mem a sz u) k = level u k
}.

(** [PIIX3State] but for its [dev], which is on the bus. *)
Record PIIX3State (U : Type) := mkPiix { pic_levels : Z; outer : U; pci_irq_levels_vmstate : list Z }.
Arguments mkPiix {U} _ _ _.
Arguments pic_levels {U} _.
Arguments outer {U} _.
Arguments pci_irq_levels_vmstate {U} _.

#[export] Instance PIIX3State_eta U : Eta (PIIX3State U) := fun w => mkPiix (pic_levels w) (outer w) (pci_irq_levels_vmstate w).

Definition pci_slot_get_pirq (pci_dev : PCIDevice) (pci_intx : Z) : Z :=
  let slot_addend := (devfn pci_dev >> 3) - 1 in
  (pci_intx + slot_addend) .& 3.

Section Router.
Context {U : Type} {HU : PicLines U}.
(** The index of the PIIX3 among the devices; its bus is number 0. *)
Variable piix3 : Z.

Definition piix3_set_irq_pic (pic_irq : Z) (w : PIIX3State U) : PIIX3State U :=
  w <| outer := pic_set pic_irq
         (b2z (tst (pic_levels w) (((1 << PIIX_NUM_PIRQS) - 1) << (pic_irq * PIIX_NUM_PIRQS)))) (outer w) |>.

Definition piix3_set_irq_level (conf : list Z) (pirq lvl : Z) (w : PIIX3State U) : PIIX3State U :=
  let pic_irq := aget conf (PIIX_PIRQC + pirq) in
  if PIIX_NUM_PIC_IRQS <=? pic_irq then w
  else
    let mask := 1 << (pic_irq * PIIX_NUM_PIRQS + pirq) in
    let w := w <| pic_levels := pic_levels w .& u64 (~~ mask) |> in
    let w := w <| pic_levels := pic_levels w .| (mask * b2z (truthy lvl)) |> in
    piix3_set_irq_pic pic_irq w.

Definition piix3_set_irq (s : PciState) (pirq lvl : Z) (w : PIIX3State U) : PIIX3State U :=
  piix3_set_irq_level (config (dev piix3 s)) pirq lvl w.

#[export] Instance PiixHost : PciHost (PIIX3State U) := {
  set_irq s b n v w := piix3_set_irq s n v w;
  map_func s d i a sz ty w := w <| outer := host_map d i a sz ty (outer w) |>;
  isa_unassign_ioport a sz w := w <| outer := host_unassign_io a sz (outer w) |>;
  unassign_memory a sz w := w <| outer := host_unassign_mem a sz (outer w) |>
}.

(** irq routing is changed. so rebuild bitmap *)
Definition update_pirq (s : PciState) (st : option (PIIX3State U)) (pirq : Z) : option (PIIX3State U) :=
  match st with
  | None => None
  | Some w =>
      match pci_bus_get_irq_level (bus (dev piix3 s)) pirq s with
      | None => None
      | Some v => Some (piix3_set_irq_level (config (dev piix3 s)) pirq v w)
      end
  end.
Definition piix3_update_irq_levels (s : PciState) (w : PIIX3State U) : option (PIIX3State U) :=
  foldl (update_pirq s) (Some (w <| pic_levels := 0 |>)) (seqZ 0 PIIX_NUM_PIRQS).

Definition piix3_write_config (a val len : Z) (s : PciState) (w : PIIX3State U) : option (PciState * PIIX3State U) :=
  match pci_default_write_config piix3 a val len s w with
  | None => None
  | Some (s, w) =>
      if ranges_overlap a len PIIX_PIRQC 4 then
        match piix3_update_irq_levels s w with
        | None => None
        | Some w => Some (s, foldl (fun w k => piix3_set_irq_pic k w) w (seqZ 0 PIIX_NUM_PIC_IRQS))
        end
      else Some (s, w)
  end.

(** The configuration bytes of [piix3_reset]. *)
Definition piix3_reset_bytes : list (Z * Z) :=
  [(0x04, 0x07); (0x05, 0x00); (0x06, 0x00); (0x07, 0x02); (0x4c, 0x4d); (0x4e, 0x03); (0x4f, 0x00);
   (0x60, 0x80); (0x61, 0x80); (0x62, 0x80); (0x63, 0x80); (0x69, 0x02); (0x70, 0x80); (0x76, 0x0c);
   (0x77, 0x0c); (0x78, 0x02); (0x79, 0x00); (0x80, 0x00); (0x82, 0x00); (0xa0, 0x08); (0xa2, 0x00);
   (0xa3, 0x00); (0xa4, 0x00); (0xa5, 0x00); (0xa6, 0x00); (0xa7, 0x00); (0xa8, 0x0f); (0xaa, 0x00);
   (0xab, 0x00); (0xac, 0x00); (0xae, 0x00)].
Definition piix3_reset (s : PciState) (w : PIIX3State U) : PciState * PIIX3State U :=
  let d := dev piix3 s in
  (set_dev piix3 (d <| config := foldl (fun c p => aset c p.1 p.2) (config d) piix3_reset_bytes |>) s,
   w <| pic_levels := 0 |>).

Definition piix3_post_load (s : PciState) (w : PIIX3State U) : option (PIIX3State U) := piix3_update_irq_levels s w.

Definition save_pirq (s : PciState) (st : option (PIIX3State U)) (i : Z) : option (PIIX3State U) :=
  match st with
  | None => None
  | Some w =>
      match pci_bus_get_irq_level (bus (dev piix3 s)) i s with
      | None => None
      | Some v => Some (w <| pci_irq_levels_vmstate := aset (pci_irq_levels_vmstate w) i v |>)
      end
  end.
Definition piix3_pre_save (s : PciState) (w : PIIX3State U) : option (PIIX3State U) :=
  foldl (save_pirq s) (Some w) (seqZ 0 PIIX_NUM_PIRQS).

(** ** hw/pci_host.c: the address and data ports *)

Definition pci_dev_find_by_addr (b a : Z) (s : PciState) : option Z :=
  pci_find_device b (u8 (a >> 16)) (u8 (a >> 8)) s.

(** The [config_write] of a device: the PIIX3 has its own. *)
Definition config_write (d a val len : Z) (s : PciState) (w : PIIX3State U) : option (PciState * PIIX3State U) :=
  if d =? piix3 then piix3_write_config a val len s w else pci_default_write_config d a val len s w.

Definition pci_data_write (b a val len : Z) (s : PciState) (w : PIIX3State U) : option (PciState * PIIX3State U) :=
  match pci_dev_find_by_addr b a s with
  | None => Some (s, w)
  | Some d => config_write d (a .& (PCI_CONFIG_SPACE_SIZE - 1)) val len s w
  end.
Definition pci_data_read (b a len : Z) (s : PciState) : option Z :=
  if (len =? 1) || (len =? 2) || (len =? 4) then
    match pci_dev_find_by_addr b a s with
    | None => Some (u32 (~~ 0))
    | Some d => pci_default_read_config (dev d s) (a .& (PCI_CONFIG_SPACE_SIZE - 1)) len
    end
  else None.

Definition pci_host_config_write (val : Z) (config_reg : Z) : Z := u32 val.
Definition pci_host_config_read (config_reg : Z) : Z := config_reg.
Definition pci_host_data_write (b config_reg a val len : Z) (s : PciState) (w : PIIX3State U) : option (PciState * PIIX3State U) :=
  if tst config_reg (1 << 31) then pci_data_write b (config_reg .| (a .& 3)) val len s w else Some (s, w).
Definition pci_host_data_read (b config_reg a len : Z) (s : PciState) : option Z :=
  if negb (tst config_reg (1 << 31)) then Some 0xffffffff
  else pci_data_read b (config_reg .| (a .& 3)) len s.

(** ** The lines follow the counters *)

(** ISA interrupt [k] is to be held up by input [p]. *)
Definition want (s : PciState) (k p : Z) : bool :=
  (aget (config (dev piix3 s)) (PIIX_PIRQC + p) =? k) && negb (count s 0 p =? 0).
Definition any_of (f : Z -> bool) : bool := f 0 || f 1 || f 2 || f 3.

Definition bits_ok (s : PciState) (w : PIIX3State U) : Prop :=
  in_u 64 (pic_levels w) /\ forall k p, 0 <= k < 16 -> 0 <= p < 4 -> Z.testbit (pic_levels w) (4 * k + p) = want s k p.
Definition lines_ok (s : PciState) (w : PIIX3State U) : Prop :=
  forall k, 0 <= k < 16 -> level (outer w) k = b2z (any_of (want s k)).
Definition in_sync (s : PciState) (w : PIIX3State U) : Prop := bits_ok s w /\ lines_ok s w.

Lemma any_of_ext f g : (forall p, 0 <= p < 4 -> f p = g p) -> any_of f = any_of g.
Proof. intros E. unfold any_of. now rewrite !E by lia. Qed.

Lemma tst_group x k : 0 <= k -> in_u 64 x ->
  tst x (((1 << PIIX_NUM_PIRQS) - 1) << (k * PIIX_NUM_PIRQS)) = any_of (fun p => Z.testbit x (4 * k + p)).
Proof.
  intros Hk Hx. unfold PIIX_NUM_PIRQS. change ((1 << 4) - 1) with 15.
  assert (forall i, Z.testbit 15 i = true <-> 0 <= i < 4) as H15.
  { intros i. change 15 with (Z.ones 4). rewrite Z.testbit_ones by lia. rewrite andb_true_iff. lia. }
  unfold tst, truthy. destruct (Z.eqb_spec (x .& (15 << (k * 4))) 0) as [E|E]; cbn [negb].
  - symmetry. assert (forall p, 0 <= p < 4 -> Z.testbit x (4 * k + p) = false) as Hp; [|unfold any_of; now rewrite !Hp by lia].
    intros p Hp. assert (Z.testbit (x .& (15 << (k * 4))) (4 * k + p) = false) as Hb by now rewrite E, Z.bits_0.
    rewrite Z.land_spec, Z.shiftl_spec in Hb by lia. replace (4 * k + p - k * 4) with p in Hb by lia.
    rewrite (proj2 (H15 p)) in Hb by done. now rewrite andb_true_r in Hb.
  - symmetry. apply not_false_iff_true. intros Ha. apply E. apply Z.bits_inj'. intros i Hi.
    rewrite Z.land_spec, Z.shiftl_spec, Z.bits_0 by lia. destruct (Z.testbit 15 (i - k * 4)) eqn:E15; [|apply andb_false_r].
    apply H15 in E15. unfold any_of in Ha. rewrite !orb_false_iff in Ha. destruct Ha as (((A0 & A1) & A2) & A3).
    assert (i = 4 * k + 0 \/ i = 4 * k + 1 \/ i = 4 * k + 2 \/ i = 4 * k + 3) as [-> | [-> | [-> | ->]]] by lia; now rewrite ?A0, ?A1, ?A2, ?A3.
Qed.

Lemma set_pic_line k w : level (outer (piix3_set_irq_pic k w)) k = b2z (tst (pic_levels w) (((1 << PIIX_NUM_PIRQS) - 1) << (k * PIIX_NUM_PIRQS))).
Proof. apply level_set. Qed.

Lemma set_pic_other k k' w : k <> k' -> level (outer (piix3_set_irq_pic k w)) k' = level (outer w) k'.
Proof. apply level_other. Qed.

(** One input, routed to [k] below 16, takes the level [v]. *)
Lemma set_level_bits conf p v w : 0 <= p < 4 -> in_u 64 (pic_levels w) ->
  let k := aget conf (PIIX_PIRQC + p) in
  let w' := piix3_set_irq_level conf p v w in
  0 <= k ->
  in_u 64 (pic_levels w')
  /\ (forall i, 0 <= i -> Z.testbit (pic_levels w') i = if (k <? 16) && (i =? 4 * k + p) then truthy v else Z.testbit (pic_levels w) i)
  /\ (forall k', k' <> k \/ 16 <= k -> level (outer w') k' = level (outer w) k')
  /\ (k < 16 -> level (outer w') k = b2z (any_of (fun p => Z.testbit (pic_levels w') (4 * k + p)))).
Proof.
  intros Hp Hw k w' Hk. unfold w', piix3_set_irq_level. fold k. unfold PIIX_NUM_PIC_IRQS.
  destruct (Z.leb_spec 16 k) as [Hge|Hlt].
  { split; [done|]. split; [intros i _; destruct (Z.ltb_spec k 16); [lia|done]|]. split; [done|lia]. }
  cbv zeta. set (m := 1 << (k * PIIX_NUM_PIRQS + p)). cbn [over pic_levels].
  set (w1 := w <| pic_levels := _ |> <| pic_levels := _ |>).
  assert (pic_levels w1 = (pic_levels w .& u64 (~~ m)) .| (m * b2z (truthy v))) as E1 by reflexivity.
  change (pic_levels (piix3_set_irq_pic k w1)) with (pic_levels w1).
  assert (in_u 64 m) as Hm by (apply in_u_bit; unfold PIIX_NUM_PIRQS; lia).
  assert (in_u 64 (pic_levels w1)) as H1.
  { rewrite E1. apply in_u_lor; [lia|auto with width|]. destruct (truthy v); unfold b2z; [now rewrite Z.mul_1_r|rewrite Z.mul_0_r; auto with width]. }
  split; [exact H1|]. split; [|split].
  - intros i Hi. rewrite E1. destruct (Z.ltb_spec k 16); [|lia]. cbn [andb].
    assert (Z.testbit m i = (i =? 4 * k + p)) as Em
      by (unfold m; rewrite testbit_one_shift by (unfold PIIX_NUM_PIRQS; lia); f_equal; unfold PIIX_NUM_PIRQS; lia).
    autorewrite with bits. rewrite Em. destruct (Z.eqb_spec i (4 * k + p)) as [->|Hne]; cbn [negb].
    + rewrite !andb_false_r. cbn [orb]. destruct (truthy v); unfold b2z; [now rewrite Z.mul_1_r, Em|now rewrite Z.mul_0_r, Z.bits_0].
    + rewrite andb_true_r. assert (Z.testbit (m * b2z (truthy v)) i = false) as ->.
      { destruct (truthy v); unfold b2z; [now rewrite Z.mul_1_r, Em|now rewrite Z.mul_0_r, Z.bits_0]. }
      rewrite orb_false_r. destruct (Z.ltb_spec i 64); [apply andb_true_r|]. now rewrite (testbit_in_u_high 64 (pic_levels w)).
  - intros k' Hk'. rewrite set_pic_other by lia. reflexivity.
  - intros _. rewrite set_pic_line, tst_group by done. reflexivity.
Qed.

(** The board: bus 0 is the only one with interrupt inputs, and has four; the
    PIIX3 is on it. *)
Record board (s : PciState) : Prop := {
  bd_root : forall b, 0 <= b -> has_set_irq (the_bus b s) = true -> b = 0;
  bd_inputs : length (irq_count (the_bus 0 s)) = 4%nat;
  bd_nirq : nirq (the_bus 0 s) = 4;
  bd_buses : (0 < length (buses s))%nat;
  bd_piix : in_devs s piix3;
  bd_bus : bus (dev piix3 s) = 0
}.

Lemma board_same s s' : same_topo s s' -> board s -> board s'.
Proof.
  intros F [B1 B2 B3 B4 B5 B6]. destruct (st_bus _ _ F 0) as (_ & _ & _ & E4). constructor.
  - intros b Hb. destruct (st_bus _ _ F b) as (_ & -> & _). now apply B1.
  - congruence.
  - now rewrite (st_nirq _ _ F).
  - now rewrite (st_buses _ _ F).
  - unfold in_devs. now rewrite (st_devs _ _ F).
  - unfold in_devs in B5. destruct (st_dev _ _ F piix3) as [-> _]; [lia|done].
Qed.

Lemma board_input s n : board s -> 0 <= n < 4 -> is_input s 0 n.
Proof. intros B Hn. unfold is_input. rewrite (bd_inputs _ B). pose proof (bd_buses _ B). lia. Qed.

Definition pirqc_bytes (s : PciState) : Prop := forall p, 0 <= p < 4 -> 0 <= aget (config (dev piix3 s)) (PIIX_PIRQC + p).

Lemma pirqc_ok s : all_ok s -> board s -> pirqc_bytes s.
Proof. intros A B p Hp. apply (byte_get _ _ (proj1 (ok_bytes _ (A _ (bd_piix _ B))))). Qed.

(** Nothing the router looks at changes. *)
Definition same_router (s s' : PciState) : Prop :=
  (forall p, 0 <= p < 4 -> aget (config (dev piix3 s')) (PIIX_PIRQC + p) = aget (config (dev piix3 s)) (PIIX_PIRQC + p))
  /\ forall p, 0 <= p < 4 -> count s' 0 p = count s 0 p.

Lemma sync_same s s' w : same_router s s' -> in_sync s w -> in_sync s' w.
Proof.
  intros [E1 E2] [[H1 H2] H3]. assert (forall k p, 0 <= p < 4 -> want s' k p = want s k p) as Ew
    by (intros k p Hp; unfold want; now rewrite E1, E2).
  split; [split; [done|]|].
  - intros k p Hk Hp. rewrite Ew by done. auto.
  - intros k Hk. rewrite (any_of_ext _ (want s k)) by auto. auto.
Qed.

(** An input [n] changes its count and the router is told. *)
Lemma set_irq_sync s s' n w : pirqc_bytes s -> 0 <= n < 4 ->
  (forall p, 0 <= p < 4 -> aget (config (dev piix3 s')) (PIIX_PIRQC + p) = aget (config (dev piix3 s)) (PIIX_PIRQC + p)) ->
  (forall p, 0 <= p < 4 -> p <> n -> count s' 0 p = count s 0 p) ->
  in_sync s w -> in_sync s' (piix3_set_irq s' n (b2z (negb (count s' 0 n =? 0))) w).
Proof.
  intros Hb Hn E1 E2 [[H1 H2] H3]. unfold piix3_set_irq.
  assert (0 <= aget (config (dev piix3 s')) (PIIX_PIRQC + n)) as Hk0 by (rewrite E1 by done; now apply Hb).
  destruct (set_level_bits (config (dev piix3 s')) n (b2z (negb (count s' 0 n =? 0))) w Hn H1 Hk0) as (A1 & A2 & A3 & A4).
  set (k0 := aget (config (dev piix3 s')) (PIIX_PIRQC + n)) in *. set (w' := piix3_set_irq_level _ _ _ _) in *.
  assert (truthy (b2z (negb (count s' 0 n =? 0))) = negb (count s' 0 n =? 0)) as Et by now destruct (count s' 0 n =? 0).
  assert (forall k p, 0 <= k < 16 -> 0 <= p < 4 -> p <> n \/ k <> k0 -> want s' k p = want s k p) as Ew.
  { intros k p Hk Hp Hd. unfold want. rewrite E1 by done. destruct (Z.eqb_spec (aget (config (dev piix3 s)) (PIIX_PIRQC + p)) k) as [Eq|]; [|done].
    cbn [andb]. rewrite E2; [done|done|]. intros ->. unfold k0 in Hd. rewrite E1 in Hd by done. lia. }
  assert (forall k p, 0 <= k < 16 -> 0 <= p < 4 -> Z.testbit (pic_levels w') (4 * k + p) = want s' k p) as Hbits.
  { intros k p Hk Hp. rewrite A2 by lia. destruct (decide (k = k0 /\ p = n)) as [[-> ->]|Hne].
    - rewrite Z.eqb_refl. destruct (Z.ltb_spec k0 16); [|lia]. cbn [andb]. unfold want. fold k0. now rewrite Z.eqb_refl.
    - rewrite Ew by lia. rewrite <- H2 by done. destruct (Z.eqb_spec (4 * k + p) (4 * k0 + n)); [lia|]. now rewrite andb_false_r. }
  split; [split; [exact A1|exact Hbits]|]. intros k Hk. destruct (decide (k = k0)) as [->|Hne].
  - rewrite A4 by lia. f_equal. apply any_of_ext. intros p Hp. now apply Hbits.
  - rewrite A3 by now left. rewrite H3 by done. f_equal. apply any_of_ext. intros p Hp. symmetry. apply Ew; auto.
Qed.

Lemma route_has_irq n : forall d p s b m, irq_route n d p s = Some (b, m) -> has_set_irq (the_bus b s) = true.
Proof.
  induction n as [|n IH]; intros d p s b m; [discriminate|]. cbn [irq_route].
  destruct (has_set_irq (the_bus (bus (dev d s)) s)) eqn:E; [now intros [= <- _]|].
  destruct (parent_dev _) as [q|]; [apply IH|discriminate].
Qed.

Lemma change_level_sync d p v s w s' w' : topo s -> all_ok s -> board s -> in_devs s d -> 0 <= p < 4 -> in_sync s w ->
  pci_change_irq_level d p v s w = Some (s', w') -> in_sync s' w'.
Proof.
  intros T A B Hd Hp HS E. destruct (change_level_spec d p v s w T Hd Hp) as (s1 & w1 & E' & Ed & F & K). rewrite E in E'. injection E' as <- <-.
  destruct (t_route _ T d p Hd Hp) as (b & n & Er & Hb & Hn). assert (b = 0) as -> by (apply (bd_root _ B); [lia|exact (route_has_irq _ _ _ _ _ _ Er)]).
  rewrite (bd_inputs _ B) in Hn. unfold pci_change_irq_level in E. fold (rt s d p) in E. rewrite Er in E. injection E as Es Ew.
  assert (count s' 0 n = aget (irq_count (the_bus 0 s)) n + v) as Ec.
  { rewrite K by (apply board_input; [done|lia]). unfold at_input. rewrite decide_True by done. reflexivity. }
  rewrite <- Ew, Es, <- Ec. apply (set_irq_sync s s'); [now apply pirqc_ok|lia| |intros q Hq Hne|done].
  - intros q _. unfold dev. now rewrite Ed.
  - rewrite K by now apply board_input. unfold at_input. rewrite decide_False by congruence. lia.
Qed.

(** Mapping and unmapping regions does not concern the router. *)
Definition quiet (w w' : PIIX3State U) : Prop := pic_levels w' = pic_levels w /\ forall k, level (outer w') k = level (outer w) k.

#[export] Instance quiet_trans : Transitive quiet.
Proof. intros w1 w2 w3 [A1 A2] [B1 B2]. split; [congruence|]. intros k. now rewrite B2. Qed.

Lemma sync_quiet s w w' : quiet w w' -> in_sync s w -> in_sync s w'.
Proof. intros [E1 E2] [[H1 H2] H3]. split; [split; rewrite E1; done|]. intros k Hk. rewrite E2. auto. Qed.

Lemma update_region_quiet d i s w : quiet w (update_region d (s, w) i).2.
Proof.
  assert (forall x : U, quiet w (w <| outer := x |>) <-> forall k, level x k = level (outer w) k) as Eq by (intros x; unfold quiet; cbn; tauto).
  unfold update_region. repeat (case_match; cbn [snd]; try done); simplify_eq; try done; cbn [set_irq map_func isa_unassign_ioport unassign_memory PiixHost]; split; try done;
    intros k; cbn [over outer]; rewrite ?level_map, ?level_unassign_io, ?level_unassign_mem; done.
Qed.

Lemma update_mappings_quiet d s w s' w' : pci_update_mappings d s w = (s', w') -> quiet w w'.
Proof.
  unfold pci_update_mappings. generalize (seqZ 0 PCI_NUM_REGIONS) as l. intros l. revert s w.
  induction l as [|i l IH]; intros s w; cbn [foldl]; [now intros [= _ <-]|].
  pose proof (update_region_quiet d i s w) as Q. destruct (update_region d (s, w) i) as [s1 w1]. intros E. apply IH in E. etransitivity; eassumption.
Qed.

Lemma update_pins_sync d dis l : forall s w s' w', topo s -> all_ok s -> board s -> in_devs s d -> (forall p, p ∈ l -> 0 <= p < 4) ->
  in_sync s w -> foldl (update_pin d dis) (Some (s, w)) l = Some (s', w') -> in_sync s' w'.
Proof.
  induction l as [|p l IH]; intros s w s' w' T A B Hd Hl HS; cbn [foldl]; [now intros [= <- <-]|]. cbn [update_pin].
  set (v := if truthy dis then _ else _). assert (0 <= p < 4) as Hp by (apply Hl; left).
  destruct (change_level_spec d p v s w T Hd Hp) as (s1 & w1 & E1 & Ed & F & _). rewrite E1. intros R.
  apply (IH s1 w1); try done.
  - now apply (topo_same s).
  - intros e He. unfold in_devs, dev in *. rewrite Ed in *. now apply A.
  - now apply (board_same s).
  - unfold in_devs. now rewrite Ed.
  - intros q Hq. apply Hl. now right.
  - exact (change_level_sync d p v s w s1 w1 T A B Hd Hp HS E1).
Qed.

Lemma pin_sync d p v s w s' w' : pci_inv s -> board s -> in_devs s d -> 0 <= p < 4 -> in_sync s w ->
  pci_set_irq d p v s w = Some (s', w') -> in_sync s' w'.
Proof.
  intros [T A _] B Hd Hp HS. unfold pci_set_irq. destruct (_ =? 0); [now intros [= <- <-]|].
  rewrite (dev_set_eq d _ s Hd). set (x := pci_update_irq_status (pci_set_irq_state p v (dev d s))).
  assert (set_dev d x (set_dev d (pci_set_irq_state p v (dev d s)) s) = set_dev d x s) as ->
    by (unfold set_dev; destruct s as [ds bs]; unfold over; cbn; now rewrite list_insert_insert_eq).
  set (s1 := set_dev d x s).
  assert (dev_ok x) as Hx by (apply status_ok; apply dev_ok_irq, dev_ok_irq, A, Hd).
  assert (same_topo s s1) as F1 by (apply same_topo_set_dev; [done|unfold x, pci_update_irq_status; now destruct (truthy _)|unfold x, pci_update_irq_status; now destruct (truthy _)]).
  assert (same_router s s1) as R1.
  { split; [|done]. intros q Hq. unfold in_devs in Hd. destruct (decide (piix3 = d)) as [->|Hne]; [|unfold s1; rewrite dev_set_ne; [done|lia|pose proof (bd_piix _ B); unfold in_devs in *; lia|congruence]].
    unfold s1. rewrite dev_set_eq by done. unfold x, pci_update_irq_status. destruct (truthy _); cbn [over config];
      now rewrite aget_aset_ne by (unfold PCI_STATUS, PIIX_PIRQC; lia). }
  assert (in_sync s1 w) as S1 by now apply (sync_same s).
  destruct (truthy _); [now intros [= <- <-]|]. apply change_level_sync; try done.
  - now apply (topo_same s).
  - now apply all_ok_set.
  - now apply (board_same s).
  - unfold in_devs, s1. now rewrite length_set_dev.
Qed.

(** The routing bytes change only by a write to them. *)
Lemma write_router s d a val l s2 : all_ok s -> board s -> in_devs s d -> 0 <= a -> 0 <= l ->
  (d <> piix3 \/ a + l <= PIIX_PIRQC \/ PIIX_PIRQC + 4 <= a) ->
  same_bars d (set_dev d (after_write (dev d s) a val l) s) s2 -> same_router s s2.
Proof.
  intros A B Hd Ha Hl Hr F. pose proof (bd_piix _ B) as Hx. unfold in_devs in *. split.
  - intros p Hp. destruct (decide (piix3 = d)) as [->|Hne].
    + destruct (sb_fields _ _ _ F) as (-> & _). rewrite dev_set_eq by done. pose proof (config_size_pos (dev d s)).
      apply after_write_other; try done; [now apply A|unfold PIIX_PIRQC; lia|destruct Hr; [done|lia]].
    + rewrite (sb_other _ _ _ F) by (done || lia). now rewrite dev_set_ne by (try done; lia).
  - intros p _. unfold count, the_bus. now rewrite (sb_buses _ _ _ F).
Qed.

Lemma write_sync s d a val l w s' w' : pci_inv s -> board s -> in_devs s d -> write_ok s d a l ->
  (d <> piix3 \/ a + l <= PIIX_PIRQC \/ PIIX_PIRQC + 4 <= a) -> in_sync s w ->
  pci_default_write_config d a val l s w = Some (s', w') -> in_sync s' w'.
Proof.
  intros I B Hd Hw Hr HS E. destruct (write_maps s d a val l w I Hd (ok_range _ _ _ _ Hw)) as (Eb & s2 & w2 & Em & F & _).
  unfold pci_default_write_config in E. rewrite Eb, Em in E. destruct Hw as (Ha & Hl & Hc & _). pose proof (inv_devs _ I) as A.
  set (x := after_write (dev d s) a val l) in *. assert (in_devs (set_dev d x s) d) as Hd1 by (unfold in_devs; now rewrite length_set_dev).
  assert (quiet w w2) as Q by (destruct (_ || _) in Em; [exact (update_mappings_quiet _ _ _ _ _ Em)|now injection Em as _ <-]).
  assert (in_sync s2 w2) as S2 by (apply (sync_quiet _ w); [done|]; apply (sync_same s); [|done]; apply (write_router s d a val l); try done; lia).
  assert (same_topo s s2) as F2 by (etransitivity; [now apply (same_topo_set_dev d x)|now apply (same_bars_topo d)]).
  destruct (range_covers_byte a l PCI_COMMAND); [|now injection E as <- <-].
  unfold pci_update_irq_disabled in E. destruct (_ =? _); [now injection E as <- <-|]. revert E. apply update_pins_sync; try done.
  - apply (topo_same s); [done|apply I].
  - apply (same_bars_ok d _ _ F Hd1). apply all_ok_set; try done. apply after_write_ok; [now apply A|done].
  - now apply (board_same s).
  - unfold in_devs. now rewrite (st_devs _ _ F2).
  - intros p. now rewrite elem_seqZ.
Qed.

(** Bits rebuilt for the inputs below [j]. *)
Definition bits_below (s : PciState) (j : Z) (w : PIIX3State U) : Prop :=
  in_u 64 (pic_levels w) /\ forall k p, 0 <= k < 16 -> 0 <= p < 4 ->
    Z.testbit (pic_levels w) (4 * k + p) = (p <? j) && want s k p.

Lemma update_pirq_spec s j w : all_ok s -> board s -> 0 <= j < 4 -> bits_below s j w ->
  exists w', update_pirq s (Some w) j = Some w' /\ bits_below s (j + 1) w'.
Proof.
  intros A B Hj [H1 H2]. unfold update_pirq. rewrite (bd_bus _ B). unfold pci_bus_get_irq_level. rewrite (bd_nirq _ B).
  destruct (Z.leb_spec 0 j); [|lia]. destruct (Z.ltb_spec j 4); [|lia]. cbn [andb].
  eexists. split; [reflexivity|]. set (v := b2z _). pose proof (pirqc_ok s A B j Hj) as Hk.
  destruct (set_level_bits (config (dev piix3 s)) j v w Hj H1 Hk) as (A1 & A2 & _). split; [exact A1|].
  intros k p Hk' Hp. rewrite A2 by lia. rewrite H2 by done. set (k0 := aget (config (dev piix3 s)) (PIIX_PIRQC + j)) in *.
  assert (truthy v = negb (count s 0 j =? 0)) as Ev by (unfold v; fold (count s 0 j); unfold truthy; now destruct (count s 0 j =? 0)).
  destruct (decide (k = k0 /\ p = j)) as [[-> ->]|Hne].
  - destruct (Z.ltb_spec k0 16); [|lia]. rewrite Z.eqb_refl. cbn [andb]. rewrite Ev. destruct (Z.ltb_spec j (j + 1)); [|lia].
    unfold want. fold k0. now rewrite Z.eqb_refl.
  - destruct (Z.eqb_spec (4 * k + p) (4 * k0 + j)); [lia|]. rewrite andb_false_r.
    destruct (Z.ltb_spec p j), (Z.ltb_spec p (j + 1)); try lia; cbn [andb]; try done. assert (p = j) as -> by lia.
    symmetry. unfold want. fold k0. destruct (Z.eqb_spec k0 k); [subst; tauto|done].
Qed.

Lemma update_levels_spec s w : all_ok s -> board s ->
  exists w', piix3_update_irq_levels s w = Some w' /\ bits_ok s w'.
Proof.
  intros A B. unfold piix3_update_irq_levels. change (seqZ 0 PIIX_NUM_PIRQS) with [0; 1; 2; 3]. cbn [foldl].
  assert (bits_below s 0 (w <| pic_levels := 0 |>)) as H0.
  { split; [cbn; auto with width|]. intros k p Hk Hp. cbn [over pic_levels]. rewrite Z.bits_0. destruct (Z.ltb_spec p 0); [lia|done]. }
  destruct (update_pirq_spec s 0 _ A B ltac:(lia) H0) as (w1 & -> & H1).
  destruct (update_pirq_spec s 1 _ A B ltac:(lia) H1) as (w2 & -> & H2).
  destruct (update_pirq_spec s 2 _ A B ltac:(lia) H2) as (w3 & -> & H3).
  destruct (update_pirq_spec s 3 _ A B ltac:(lia) H3) as (w4 & -> & [H4 H5]).
  exists w4. split; [done|]. split; [done|]. intros k p Hk Hp. rewrite H5 by done. destruct (Z.ltb_spec p (3 + 1)); [done|lia].
Qed.

Lemma drive_lines s l : forall w, bits_ok s w -> NoDup l -> (forall k, k ∈ l -> 0 <= k < 16) ->
  let w' := foldl (fun w k => piix3_set_irq_pic k w) w l in
  pic_levels w' = pic_levels w /\ (forall k, k ∈ l -> level (outer w') k = b2z (any_of (want s k)))
  /\ forall k, k ∉ l -> level (outer w') k = level (outer w) k.
Proof.
  induction l as [|k l IH]; intros w Hb Hn Hl; cbn [foldl]; [split; [done|]; split; [|done]; intros k Hk; now apply not_elem_of_nil in Hk|].
  pose proof (NoDup_cons_1_1 _ _ Hn) as Hk. apply NoDup_cons_1_2 in Hn.
  destruct (IH (piix3_set_irq_pic k w)) as (A1 & A2 & A3); [exact Hb|done|intros j Hj; apply Hl; now right|].
  split; [exact A1|]. destruct Hb as [H1 H2]. assert (0 <= k < 16) as Hr by (apply Hl; left). split.
  - intros j [-> | Hj]%elem_of_cons; [|auto]. rewrite A3 by done. rewrite set_pic_line, tst_group by (done || lia). f_equal.
    apply any_of_ext. intros p Hp. now apply H2.
  - intros j Hj. rewrite elem_of_cons in Hj. rewrite A3 by tauto. apply set_pic_other. intros ->. tauto.
Qed.

Lemma piix3_write_sync s a val l w : pci_inv s -> board s -> write_ok s piix3 a l -> in_sync s w ->
  exists s' w', piix3_write_config a val l s w = Some (s', w') /\ pci_inv s' /\ same_topo s s' /\ in_sync s' w'.
Proof.
  intros I B Hw HS. pose proof (bd_piix _ B) as Hd. destruct (write_config_inv s piix3 a val l w I Hd Hw) as (s1 & w1 & E & I1 & F & _).
  unfold piix3_write_config. rewrite E. destruct (ranges_overlap a l PIIX_PIRQC 4) eqn:Eo.
  - assert (board s1) as B1 by now apply (board_same s). destruct (update_levels_spec s1 w1 (inv_devs _ I1) B1) as (w2 & -> & Hb).
    eexists s1, _. split; [reflexivity|]. split; [done|]. split; [done|].
    destruct (drive_lines s1 (seqZ 0 PIIX_NUM_PIC_IRQS) w2 Hb) as (D1 & D2 & _); [apply NoDup_seqZ|intros k; now rewrite elem_seqZ|].
    split; [destruct Hb as [? ?]; split; now rewrite D1|]. intros k Hk. apply D2. now apply elem_seqZ.
  - exists s1, w1. split; [done|]. split; [done|]. split; [done|]. apply (write_sync s piix3 a val l w); try done. right.
    destruct Hw as (Ha & Hl & Hc & _). pose proof (config_size_pos (dev piix3 s)). destruct (Z.le_gt_cases (a + l) PIIX_PIRQC); [now left|].
    right. apply Z.le_ngt. intros Hlt. assert (ranges_overlap a l PIIX_PIRQC 4 = true); [|congruence].
    apply overlap_spec; unfold PIIX_PIRQC in *; try lia. exists (Z.max a 96). lia.
Qed.

(** ** Sequences of operations on the board *)

Definition board_op (o : pci_op) (s : PciState) (w : PIIX3State U) : option (PciState * PIIX3State U) :=
  match o with
  | SetPin d p v => pci_set_irq d p v s w
  | WriteConfig d a val l => config_write d a val l s w
  end.
Fixpoint board_ops (os : list pci_op) (s : PciState) (w : PIIX3State U) : option (PciState * PIIX3State U) :=
  match os with
  | [] => Some (s, w)
  | o :: os => match board_op o s w with None => None | Some (s, w) => board_ops os s w end
  end.

Lemma board_op_sync o s w : pci_inv s -> board s -> in_sync s w -> op_ok (length (devs s)) o ->
  exists s' w', board_op o s w = Some (s', w') /\ pci_inv s' /\ same_topo s s' /\ in_sync s' w'.
Proof.
  intros I B HS. destruct o as [d p v|d a val l]; intros Ho; cbn [board_op].
  - destruct Ho as (Hd & Hp & Hv). destruct (pci_set_irq_inv d p v s w I Hd Hp Hv) as (s' & w' & E & I' & F).
    exists s', w'. split; [done|]. split; [done|]. split; [done|]. exact (pin_sync d p v s w s' w' I B Hd Hp HS E).
  - destruct Ho as (Hd & Ha & Hl & Hc & H5). assert (write_ok s d a l) as Hw.
    { split; [done|]. split; [|done]. pose proof (config_size_pos (dev d s)). unfold PCI_CONFIG_SPACE_SIZE in Hl. lia. }
    unfold config_write. destruct (Z.eqb_spec d piix3) as [->|Hne]; [now apply piix3_write_sync|].
    destruct (write_config_inv s d a val l w I Hd Hw) as (s' & w' & E & I' & F & _). exists s', w'. split; [done|]. split; [done|].
    split; [done|]. apply (write_sync s d a val l w); try done. now left.
Qed.

Lemma board_ops_sync os : forall s w, pci_inv s -> board s -> in_sync s w -> Forall (op_ok (length (devs s))) os ->
  exists s' w', board_ops os s w = Some (s', w') /\ pci_inv s' /\ same_topo s s' /\ in_sync s' w'.
Proof.
  induction os as [|o os IH]; intros s w I B HS Ho; cbn [board_ops]; [exists s, w; split; [done|]; split; [done|]; split; [reflexivity|done]|].
  apply List.Forall_cons_iff in Ho as [H1 H2]. destruct (board_op_sync o s w I B HS H1) as (s1 & w1 & -> & I1 & F1 & S1).
  rewrite <- (st_devs _ _ F1) in H2. destruct (IH s1 w1 I1 (board_same _ _ F1 B) S1 H2) as (s2 & w2 & E & I2 & F2 & S2). exists s2, w2.
  split; [done|]. split; [done|]. split; [etransitivity; eassumption|done].
Qed.

(** C14: PCI interrupts reach the right ISA line, end to end.  After every sequence
    of pin changes and configuration writes, the routing registers of the PIIX3
    included but writes that start in the upper half of a command register (0x05)
    excepted, ISA interrupt [k] is high exactly if some device, directly or behind
    bridges, asserts a pin that is routed to an input of the root bus whose routing
    register holds [k], and has not disabled its interrupts. *)
Theorem pci_pin_reaches_isa os s w : pci_inv s -> board s -> in_sync s w -> Forall (op_ok (length (devs s))) os ->
  exists s' w', board_ops os s w = Some (s', w')
    /\ forall k, 0 <= k < 16 ->
         (level (outer w') k = 1 <->
          exists d p n, in_devs s' d /\ 0 <= p < 4 /\ 0 <= n < 4 /\ rt s' d p = Some (0, n)
            /\ aget (config (dev piix3 s')) (PIIX_PIRQC + n) = k
            /\ pci_irq_disabled (dev d s') = 0 /\ pci_irq_state (dev d s') p = 1).
Proof.
  intros I B HS Ho. destruct (board_ops_sync os s w I B HS Ho) as (s' & w' & E & I' & F & [_ S']). exists s', w'. split; [done|].
  intros k Hk. rewrite S' by done. assert (board s') as B' by now apply (board_same s).
  assert (forall b, b2z b = 1 <-> b = true) as Eb by now intros []. rewrite Eb.
  assert (any_of (want s' k) = true <-> exists n, 0 <= n < 4 /\ want s' k n = true) as ->.
  { unfold any_of. rewrite !orb_true_iff. split; [intros [[[H|H]|H]|H]; eexists; (split; [|exact H]); lia|].
    intros (n & Hn & H). assert (n = 0 \/ n = 1 \/ n = 2 \/ n = 3) as [-> | [-> | [-> | ->]]] by lia; tauto. }
  assert (forall n, 0 <= n < 4 -> want s' k n = true <-> aget (config (dev piix3 s')) (PIIX_PIRQC + n) = k /\ count s' 0 n <> 0) as Ew.
  { intros n Hn. unfold want. rewrite andb_true_iff, negb_true_iff, Z.eqb_eq, Z.eqb_neq. reflexivity. }
  assert (forall d p, asserted s' d p = 1 <-> pci_irq_disabled (dev d s') = 0 /\ pci_irq_state (dev d s') p = 1) as Ea.
  { intros d p. unfold asserted, truthy. destruct (Z.eqb_spec (pci_irq_disabled (dev d s')) 0); cbn [negb]; intuition lia. }
  split.
  - intros (n & Hn & H). apply Ew in H as [H1 H2]; [|done]. apply count_nonzero in H2 as (d & p & D1 & D2 & D3 & D4); [|done|now apply board_input].
    exists d, p, n. apply Ea in D4. tauto.
  - intros (d & p & n & D1 & D2 & Hn & D3 & H1 & D4). exists n. split; [done|]. apply Ew; [done|]. split; [done|].
    apply count_nonzero; [done|now apply board_input|]. exists d, p. rewrite Ea. tauto.
Qed.

End Router.

(** ** A PIIX3 and a network card *)

#[export] Instance line_levels : PicLines (Z -> Z).
Proof.
  refine (Build_PicLines (Z -> Z) (fun k v u j => if j =? k then v else u j) (fun u => u) (fun _ _ _ _ _ u => u)
    (fun _ _ u => u) (fun _ _ u => u) _ _ _ _ _); try done.
  - intros k v u. now rewrite Z.eqb_refl.
  - intros k k' v u Hne. destruct (Z.eqb_spec k' k); [congruence|done].
Defined.

Lemma small_board_board : board 0 small_board.
Proof.
  constructor; try reflexivity; [|vm_compute; lia|vm_compute; intuition discriminate].
  intros b Hb E. destruct (Z.to_nat b) as [|[|n]] eqn:En; [lia| |]; unfold the_bus in E; rewrite En in E; discriminate.
Qed.

Lemma quiet_board : in_sync 0 small_board (mkPiix 0 (fun _ => 0) []).
Proof.
  assert (forall k p, 0 <= p < 4 -> want 0 small_board k p = false) as Hw.
  { intros k p Hp. unfold want. assert (count small_board 0 p = 0) as ->; [|apply andb_false_r].
    assert (p = 0 \/ p = 1 \/ p = 2 \/ p = 3) as [-> | [-> | [-> | ->]]] by lia; reflexivity. }
  split; [split|].
  - cbn. auto with width.
  - intros k p Hk Hp. rewrite Hw by done. apply Z.bits_0.
  - intros k Hk. unfold any_of. now rewrite !Hw by lia.
Qed.

Lemma pci_pin_reaches_isa_witness : exists s' w',
  board_ops 0 [WriteConfig 0 0x60 0x0b0a0908 4; SetPin 1 0 1] small_board (mkPiix 0 (fun _ => 0) []) = Some (s', w')
  /\ (level (outer w') 10 = 1 -> exists d p n, rt s' d p = Some (0, n) /\ pci_irq_state (dev d s') p = 1).
Proof.
  destruct (pci_pin_reaches_isa 0 [WriteConfig 0 0x60 0x0b0a0908 4; SetPin 1 0 1] small_board (mkPiix 0 (fun _ => 0) []))
    as (s' & w' & E & R); [exact small_board_inv|exact small_board_board|exact quiet_board| |].
  - change (length (devs small_board)) with 2%nat.
    repeat (apply List.Forall_cons; [cbn; unfold PCI_CONFIG_SPACE_SIZE, PCI_COMMAND; lia|]). apply List.Forall_nil.
  - exists s', w'. split; [exact E|]. intros Hl. destruct (proj1 (R 10 ltac:(lia)) Hl) as (d & p & n & _ & _ & _ & Hr & _ & _ & Ha).
    exists d, p, n. split; [exact Hr|exact Ha].
Defined.

(** The pin INTA of slot 3 is input 2; routed to ISA interrupt 10 it raises it. *)
Example inta_raises_isa_10 :
  match board_ops 0 [WriteConfig 0 0x60 0x0b0a0908 4; SetPin 1 0 1] small_board (mkPiix 0 (fun _ => 0) []) with
  | Some (_, w) => map (level (outer w)) [8; 9; 10; 11] = [0; 0; 1; 0]
  | None => False
  end.
Proof. vm_compute. reflexivity. Qed.

(** ** The configuration ports *)

(** Reading through ports 0xcf8 and 0xcfc: with the address of a device on the
    root bus in the address register, the data port reads its configuration; with
    the enable bit clear, or no device there, it reads all ones. *)
Lemma config_ports_read b fn r a len s : parent_dev (the_bus b s) = None ->
  0 <= fn < 256 -> 0 <= r < 64 -> 0 <= a < 4 -> len = 1 \/ len = 2 \/ len = 4 ->
  let reg := pci_host_config_write (0x80000000 + 256 * fn + 4 * r) 0 in
  pci_host_data_read b reg a len s =
    match nth (Z.to_nat fn) (devices (the_bus b s)) None with
    | Some d => pci_default_read_config (dev d s) (4 * r + a) len
    | None => Some 0xffffffff
    end
  /\ forall reg', Z.testbit reg' 31 = false -> pci_host_data_read b reg' a len s = Some 0xffffffff.
Proof.
  intros Hp Hf Hr Ha Hl. cbv zeta. split; [|intros reg' Hb; unfold pci_host_data_read; rewrite tst_bit by lia; now rewrite Hb].
  set (x := 0x20000000 + 64 * fn + r).
  assert (pci_host_config_write (0x80000000 + 256 * fn + 4 * r) 0 = x << 2) as ->
    by (unfold pci_host_config_write, u32; rewrite Z.mod_small, Z.shiftl_mul_pow2 by lia; unfold x; lia).
  assert ((x << 2) .| (a .& 3) = 4 * x + a) as E.
  { rewrite (land_ones_mod a 2 3), Z.mod_small by (reflexivity || lia). rewrite Z.lor_comm, lor_shift by (unfold in_u; lia). lia. }
  unfold pci_host_data_read. rewrite tst_bit by lia.
  assert (Z.testbit (x << 2) 31 = true) as ->
    by (rewrite Z.shiftl_spec, Z.testbit_eqb by lia; apply Z.eqb_eq; unfold x; change (2 ^ (31 - 2)) with 536870912; Z.div_mod_to_equations; lia).
  cbn [negb]. rewrite E. unfold pci_data_read.
  replace ((len =? 1) || (len =? 2) || (len =? 4)) with true by (destruct Hl as [-> | [-> | ->]]; reflexivity).
  unfold pci_dev_find_by_addr, pci_find_device, pci_find_bus, pci_bus_num. rewrite Hp.
  assert (u8 ((4 * x + a) >> 16) = 0) as -> by (rewrite Z.shiftr_div_pow2 by lia; unfold u8, x; change (2 ^ 16) with 65536; Z.div_mod_to_equations; lia).
  assert (u8 ((4 * x + a) >> 8) = fn) as -> by (rewrite Z.shiftr_div_pow2 by lia; unfold u8, x; change (2 ^ 8) with 256; Z.div_mod_to_equations; lia).
  cbn [Z.eqb]. destruct (nth (Z.to_nat fn) (devices (the_bus b s)) None) as [d|]; [|reflexivity].
  f_equal. unfold PCI_CONFIG_SPACE_SIZE. rewrite (land_ones_mod _ 8) by (reflexivity || lia). unfold x. change (2 ^ 8) with 256. Z.div_mod_to_equations; lia.
Qed.

End Piix.
