(* ===== verification/PciCap.v ===== *)
(** * PCI capabilities: the linked list in configuration space of hw/pci.c

    Capabilities are linked through configuration space: register 0x34 points to
    the first, the second byte of each to the next.  [used] marks the bytes taken.
    The abstract view is the list of offsets; adding pushes the first gap that is
    large enough, finding searches the list, deleting removes. *)

From S2P Require Import Prelude Pci PciIrq.

Module PciCap.
Import Pci.
#[local] Existing Instances PCIDevice_eta.

(** ** Free space *)

Definition free (l : list Z) (o sz : Z) : Prop := forall j, o <= j < o + sz -> aget l j = 0.

Lemma find_space_spec n : forall i off sz l, 1 <= sz -> 0x40 <= off <= i -> i - off < sz -> free l off (i - off) ->
  (forall o, 0x40 <= o < off -> ~ free l o sz) ->
  let o := find_space_loop n i off sz l in
  (o = 0 /\ forall o', 0x40 <= o' -> o' + sz <= i + Z.of_nat n -> ~ free l o' sz)
  \/ (0x40 <= o /\ o + sz <= i + Z.of_nat n /\ free l o sz /\ forall o', 0x40 <= o' < o -> ~ free l o' sz).
Proof.
  induction n as [|n IH]; intros i off sz l Hsz Hoff Hlt Hfree Hno; cbn [find_space_loop].
  { left. split; [done|]. intros o' H1 H2. destruct (Z.lt_ge_cases o' off); [now apply Hno|lia]. }
  unfold truthy. destruct (Z.eqb_spec (aget l i) 0) as [E|E]; cbn [negb].
  - destruct (Z.eqb_spec (i - off + 1) sz) as [Es|Es].
    + right. split; [lia|]. split; [lia|]. split; [|done]. intros j Hj. destruct (Z.eq_dec j i) as [->|]; [done|]. apply Hfree. lia.
    + replace (i + Z.of_nat (S n)) with (i + 1 + Z.of_nat n) by lia. apply IH; try lia; [|done].
      intros j Hj. destruct (Z.eq_dec j i) as [->|]; [done|]. apply Hfree. lia.
  - replace (i + Z.of_nat (S n)) with (i + 1 + Z.of_nat n) by lia. apply IH; try lia.
    + intros j Hj. lia.
    + intros o Ho. destruct (Z.lt_ge_cases o off); [apply Hno; lia|]. intros F. apply E, F. lia.
Qed.

(** ** The list *)

(** Following the pointers from the value [h]. *)
Fixpoint cap_chain (c : list Z) (h : Z) (l : list Z) : Prop :=
  match l with
  | [] => h = 0
  | x :: l => h = x /\ 0x40 <= x <= 0xfe /\ cap_chain c (aget c (x + 1)) l
  end.

Lemma cap_chain_ext c c' h l : (forall x, x ∈ l -> aget c' (x + 1) = aget c (x + 1)) -> cap_chain c h l -> cap_chain c' h l.
Proof.
  revert h. induction l as [|x l IH]; intros h He Hc; [done|]. destruct Hc as (H1 & H2 & H3). split; [done|]. split; [done|].
  rewrite He by left. apply IH; [|done]. intros y Hy. apply He. now right.
Qed.

Lemma cap_chain_range c h l x : cap_chain c h l -> x ∈ l -> 0x40 <= x <= 0xfe.
Proof.
  revert h. induction l as [|y l IH]; intros h Hc Hx; [now apply not_elem_of_nil in Hx|]. destruct Hc as (_ & H2 & H3).
  apply elem_of_cons in Hx as [-> | Hx]; eauto.
Qed.

(** The first capability with this identifier, 0 if there is none. *)
Fixpoint first_id (c : list Z) (cap_id : Z) (l : list Z) : Z :=
  match l with [] => 0 | x :: l => if aget c x =? cap_id then x else first_id c cap_id l end.

Lemma cap_loop_spec n cap_id c : forall l prev, cap_chain c (aget c prev) l -> (length l < n)%nat ->
  exists p, cap_loop n cap_id prev c = Some (first_id c cap_id l, p).
Proof.
  induction n as [|n IH]; intros l prev Hc Hn; [lia|]. cbn [cap_loop]. destruct l as [|x l].
  - cbn [cap_chain] in Hc. rewrite Hc. exists prev. reflexivity.
  - destruct Hc as (-> & Hx & Hc). destruct (Z.eqb_spec x 0); [lia|]. unfold PCI_CAP_LIST_ID, PCI_CAP_LIST_NEXT. rewrite Z.add_0_r.
    cbn [first_id]. destruct (aget c x =? cap_id); [now exists prev|]. unfold u8. rewrite Z.mod_small by lia. apply IH; [done|cbn in Hn; lia].
Qed.

(** The head of the list is found where the list starts. *)
Lemma cap_loop_head n cap_id prev c x l : cap_chain c (aget c prev) (x :: l) -> aget c x = cap_id ->
  cap_loop (S n) cap_id prev c = Some (x, prev).
Proof.
  intros (E & Hx & _) Hid. cbn [cap_loop]. rewrite E. destruct (Z.eqb_spec x 0); [lia|].
  unfold PCI_CAP_LIST_ID. rewrite Z.add_0_r, Hid. now rewrite Z.eqb_refl.
Qed.

(** The capabilities of a device are [l], and their bytes are marked. *)
Record caps (d : PCIDevice) (l : list Z) : Prop := {
  cp_len : length (config d) = 256%nat /\ length (used d) = 256%nat /\ length (wmask d) = 256%nat;
  cp_plain : pci_is_express d = false;
  cp_chain : cap_chain (config d) (aget (config d) PCI_CAPABILITY_LIST) l;
  cp_status : tst (aget (config d) PCI_STATUS) PCI_STATUS_CAP_LIST = negb (match l with [] => true | _ => false end);
  cp_nodup : NoDup l;
  cp_used : forall x, x ∈ l -> aget (used d) x <> 0 /\ aget (used d) (x + 1) <> 0
}.

Lemma caps_length d l : caps d l -> (length l <= 256)%nat.
Proof.
  intros C. assert (length l <= length (seq 0 256))%nat; [|now rewrite length_seq in *].
  assert (length (map Z.to_nat l) <= length (seq 0 256))%nat as H; [|now rewrite length_map in H].
  apply NoDup_incl_length.
  - apply NoDup_ListNoDup. apply NoDup_fmap_2_strong; [|apply C]. intros x y Hx Hy E.
    pose proof (cap_chain_range _ _ _ _ (cp_chain _ _ C) Hx). pose proof (cap_chain_range _ _ _ _ (cp_chain _ _ C) Hy). lia.
  - intros k Hk. apply in_map_iff in Hk as (x & <- & Hx). apply list_elem_of_In in Hx.
    pose proof (cap_chain_range _ _ _ _ (cp_chain _ _ C) Hx). apply in_seq. lia.
Qed.

Lemma find_spec d l cap_id : caps d l -> pci_find_capability cap_id d = Some (first_id (config d) cap_id l).
Proof.
  intros C. pose proof (caps_length d l C) as Hl. destruct C as [_ _ C1 C2 _ _]. unfold pci_find_capability, pci_find_capability_list. rewrite C2.
  destruct l as [|x l]; [reflexivity|]. cbn [negb].
  destruct (cap_loop_spec 257 cap_id (config d) (x :: l) PCI_CAPABILITY_LIST C1) as (p & ->); [lia|]. reflexivity.
Qed.

Lemma memset_get n : forall c i v k, 0 <= i -> i + Z.of_nat n <= Z.of_nat (length c) -> 0 <= k ->
  aget (memset c i v n) k = if (i <=? k) && (k <? i + Z.of_nat n) then v else aget c k.
Proof.
  induction n as [|n IH]; intros c i v k Hi Hn Hk; cbn [memset].
  - destruct (Z.leb_spec i k), (Z.ltb_spec k (i + Z.of_nat 0)); try lia; reflexivity.
  - rewrite IH by (rewrite ?length_aset; lia). destruct (Z.eq_dec k i) as [->|Hne].
    + rewrite aget_aset_eq by lia. destruct (Z.leb_spec (i + 1) i); [lia|]. cbn [andb].
      destruct (Z.leb_spec i i), (Z.ltb_spec i (i + Z.of_nat (S n))); try lia. reflexivity.
    + rewrite aget_aset_ne by lia. replace (i + 1 + Z.of_nat n) with (i + Z.of_nat (S n)) by lia.
      destruct (Z.leb_spec (i + 1) k), (Z.leb_spec i k); try lia; reflexivity.
Qed.

Lemma length_memset n : forall c i v, length (memset c i v n) = length c.
Proof. induction n as [|n IH]; intros c i v; cbn [memset]; [done|]. rewrite IH. apply length_aset. Qed.

(** ** Adding *)

(** The configuration bytes after a capability is linked in at [o]. *)
Definition linked (cap_id o : Z) (c : list Z) : list Z :=
  let c := aset c (o + PCI_CAP_LIST_ID) cap_id in
  let c := aset c (o + PCI_CAP_LIST_NEXT) (aget c PCI_CAPABILITY_LIST) in
  let c := aset c PCI_CAPABILITY_LIST o in
  aset c PCI_STATUS (u8 (aget c PCI_STATUS .| PCI_STATUS_CAP_LIST)).

Lemma tst_set_cap x : tst (u8 (x .| PCI_STATUS_CAP_LIST)) PCI_STATUS_CAP_LIST = true.
Proof. unfold PCI_STATUS_CAP_LIST. change 0x10 with (1 << 4). rewrite tst_bit by lia. autorewrite with bits. reflexivity. Qed.

Lemma tst_clear_cap x : tst (u8 (x .& ~~ PCI_STATUS_CAP_LIST)) PCI_STATUS_CAP_LIST = false.
Proof. unfold PCI_STATUS_CAP_LIST. change 0x10 with (1 << 4). rewrite tst_bit by lia. autorewrite with bits. reflexivity. Qed.

Lemma linked_get cap_id o c k : length c = 256%nat -> 0x40 <= o <= 0xfe -> 0 <= k ->
  k <> PCI_STATUS ->
  aget (linked cap_id o c) k =
    if k =? o then cap_id else if k =? o + 1 then aget c PCI_CAPABILITY_LIST else if k =? PCI_CAPABILITY_LIST then o else aget c k.
Proof.
  intros Hl Ho Hk Hs. unfold linked, PCI_CAP_LIST_ID, PCI_CAP_LIST_NEXT, PCI_CAPABILITY_LIST, PCI_STATUS in *. rewrite Z.add_0_r.
  rewrite (aget_aset_ne _ 6 k) by lia. destruct (Z.eq_dec k 52) as [->|H52].
  - rewrite aget_aset_eq by (rewrite ?length_aset; lia). destruct (Z.eqb_spec 52 o), (Z.eqb_spec 52 (o + 1)); try lia. reflexivity.
  - rewrite (aget_aset_ne _ 52 k) by lia. destruct (Z.eqb_spec k (o + 1)) as [->|H1].
    + rewrite aget_aset_eq by (rewrite ?length_aset; lia). rewrite aget_aset_ne by lia. destruct (Z.eqb_spec (o + 1) o); [lia|reflexivity].
    + rewrite (aget_aset_ne _ (o + 1) k) by lia. destruct (Z.eqb_spec k o) as [->|H0]; [now rewrite aget_aset_eq by lia|].
      rewrite aget_aset_ne by lia. destruct (Z.eqb_spec k 52); [lia|reflexivity].
Qed.

Lemma linked_status cap_id o c : length c = 256%nat -> tst (aget (linked cap_id o c) PCI_STATUS) PCI_STATUS_CAP_LIST = true.
Proof. intros Hl. unfold linked at 1. rewrite aget_aset_eq by (rewrite !length_aset, Hl; unfold PCI_STATUS; lia). apply tst_set_cap. Qed.

Lemma length_linked cap_id o c : length (linked cap_id o c) = length c.
Proof. unfold linked. now rewrite !length_aset. Qed.

Lemma first_id_ext c c' cap_id l : (forall x, x ∈ l -> aget c' x = aget c x) -> first_id c' cap_id l = first_id c cap_id l.
Proof.
  induction l as [|x l IH]; intros He; [done|]. cbn [first_id]. rewrite He by left. rewrite IH; [done|]. intros y Hy. apply He. now right.
Qed.

(** A capability of the list is not in free space. *)
Lemma caps_apart d l o sz x : caps d l -> free (used d) o sz -> 2 <= sz -> x ∈ l -> x <> o /\ x <> o + 1 /\ x + 1 <> o.
Proof.
  intros C F Hsz Hx. destruct (cp_used _ _ C x Hx) as [U1 U2].
  split; [intros ->; apply U1, F; lia|]. split; [intros ->; apply U1, F; lia|]. intros E. apply U2. rewrite E. apply F. lia.
Qed.

Lemma add_caps d l cap_id o sz : caps d l -> 2 <= sz -> 0x40 <= o -> o + sz <= 256 -> free (used d) o sz ->
  exists d', pci_add_capability cap_id o sz d = Some (o, d') /\ config d' = linked cap_id o (config d)
    /\ caps d' (o :: l) /\ (forall k, o <= k < o + sz -> aget (wmask d') k = 0)
    /\ (forall k, 0 <= k -> k < o \/ o + sz <= k -> aget (used d') k = aget (used d) k /\ aget (wmask d') k = aget (wmask d) k).
Proof.
  intros C Hsz Ho Ht F. pose proof C as [(L1 & L2 & L3) C0 C1 C2 C3 C4]. unfold pci_add_capability.
  destruct (Z.eqb_spec o 0); [lia|]. destruct (Z.eqb_spec o 0); [lia|]. eexists. split; [reflexivity|].
  cbn [over config used wmask cmask cap_present]. fold (linked cap_id o (config d)). split; [reflexivity|].
  assert (Z.of_nat (Z.to_nat sz) = sz) as Es by lia.
  assert (forall c v k, length c = 256%nat -> 0 <= k ->
    aget (memset c o v (Z.to_nat sz)) k = if (o <=? k) && (k <? o + sz) then v else aget c k) as M
    by (intros c v k Hc Hk; rewrite memset_get by (rewrite ?Hc; lia); now rewrite Es).
  split; [|split].
  - constructor; cbn [over config used wmask cap_present].
    + now rewrite length_linked, !length_memset.
    + exact C0.
    + cbn [cap_chain]. rewrite linked_get by (try done; unfold PCI_CAPABILITY_LIST, PCI_STATUS; lia).
      unfold PCI_CAPABILITY_LIST at 1 2. destruct (Z.eqb_spec 52 o), (Z.eqb_spec 52 (o + 1)); try lia. cbn [Z.eqb Pos.eqb].
      split; [done|]. split; [lia|]. rewrite linked_get by (try done; unfold PCI_STATUS; lia).
      destruct (Z.eqb_spec (o + 1) o); [lia|]. rewrite Z.eqb_refl. apply (cap_chain_ext (config d)); [|done]. intros x Hx.
      pose proof (cap_chain_range _ _ _ _ C1 Hx). destruct (caps_apart d l o sz x C F Hsz Hx) as (A1 & A2 & A3).
      rewrite linked_get by (try done; unfold PCI_STATUS; lia). unfold PCI_CAPABILITY_LIST.
      destruct (Z.eqb_spec (x + 1) o), (Z.eqb_spec (x + 1) (o + 1)), (Z.eqb_spec (x + 1) 52); lia || reflexivity.
    + rewrite linked_status by done. reflexivity.
    + apply NoDup_cons_2; [|done]. intros Hx. destruct (caps_apart d l o sz o C F Hsz Hx). lia.
    + intros x Hx. apply elem_of_cons in Hx as [-> | Hx].
      * rewrite !M by (done || lia). destruct (Z.leb_spec o o), (Z.ltb_spec o (o + sz)), (Z.leb_spec o (o + 1)), (Z.ltb_spec (o + 1) (o + sz)); lia || done.
      * pose proof (cap_chain_range _ _ _ _ C1 Hx). destruct (C4 x Hx) as [U1 U2]. rewrite !M by (done || lia).
        destruct (_ && _), (_ && _); done.
  - intros k Hk. rewrite M by (done || lia). destruct (Z.leb_spec o k), (Z.ltb_spec k (o + sz)); lia || done.
  - intros k Hk Hout. rewrite !M by done. destruct (Z.leb_spec o k), (Z.ltb_spec k (o + sz)); lia || done.
Qed.

(** ** Deleting the capability just added *)

Definition unlinked (o prev : Z) (c : list Z) : list Z :=
  let c := aset c prev (aget c (o + PCI_CAP_LIST_NEXT)) in
  if aget c PCI_CAPABILITY_LIST =? 0 then aset c PCI_STATUS (u8 (aget c PCI_STATUS .& ~~ PCI_STATUS_CAP_LIST)) else c.

Lemma del_step d cap_id sz o prev : pci_find_capability_list cap_id d = Some (o, prev) -> o <> 0 ->
  exists d', pci_del_capability cap_id sz d = Some d' /\ config d' = unlinked o prev (config d)
    /\ used d' = memset (used d) o 0 (Z.to_nat sz) /\ wmask d' = memset (wmask d) o 0xff (Z.to_nat sz)
    /\ pci_is_express d' = pci_is_express d.
Proof.
  intros E Ho. unfold pci_del_capability. rewrite E. destruct (Z.eqb_spec o 0); [done|]. eexists. split; [reflexivity|].
  unfold unlinked. cbn [over config]. destruct (_ =? 0); auto.
Qed.

(** Unlinking the head undoes linking it: the rest of the list is as before. *)
Lemma unlinked_linked cap_id o c : length c = 256%nat -> 0x40 <= o <= 0xfe ->
  let c' := unlinked o PCI_CAPABILITY_LIST (linked cap_id o c) in
  length c' = 256%nat /\ (forall k, 0x34 <= k -> k <> o -> k <> o + 1 -> aget c' k = aget c k)
  /\ tst (aget c' PCI_STATUS) PCI_STATUS_CAP_LIST = negb (aget c PCI_CAPABILITY_LIST =? 0).
Proof.
  intros Hl Ho c'. set (c1 := linked cap_id o c) in *.
  assert (aget c1 (o + PCI_CAP_LIST_NEXT) = aget c PCI_CAPABILITY_LIST) as En.
  { unfold c1, PCI_CAP_LIST_NEXT. rewrite linked_get by (try done; unfold PCI_STATUS; lia).
    destruct (Z.eqb_spec (o + 1) o); [lia|]. now rewrite Z.eqb_refl. }
  assert (length c1 = 256%nat) as L1 by (unfold c1; now rewrite length_linked).
  set (c2 := aset c1 PCI_CAPABILITY_LIST (aget c PCI_CAPABILITY_LIST)).
  assert (length c2 = 256%nat) as L2 by (unfold c2; now rewrite length_aset).
  assert (forall k, 0x34 <= k -> k <> o -> k <> o + 1 -> aget c2 k = aget c k) as G.
  { intros k Hk K1 K2. unfold c2. destruct (Z.eq_dec k PCI_CAPABILITY_LIST) as [->|K3].
    - now rewrite aget_aset_eq by (rewrite L1; unfold PCI_CAPABILITY_LIST; lia).
    - rewrite aget_aset_ne by (unfold PCI_CAPABILITY_LIST in *; lia). unfold c1. rewrite linked_get by (try done; unfold PCI_STATUS; lia).
      destruct (Z.eqb_spec k o), (Z.eqb_spec k (o + 1)), (Z.eqb_spec k PCI_CAPABILITY_LIST); done. }
  assert (c' = if aget c PCI_CAPABILITY_LIST =? 0 then aset c2 PCI_STATUS (u8 (aget c2 PCI_STATUS .& ~~ PCI_STATUS_CAP_LIST)) else c2) as ->.
  { unfold c', unlinked. rewrite En. fold c2. rewrite (G PCI_CAPABILITY_LIST) by (unfold PCI_CAPABILITY_LIST; lia). reflexivity. }
  destruct (Z.eqb_spec (aget c PCI_CAPABILITY_LIST) 0) as [E0|E0]; cbn [negb]; repeat split.
  - now rewrite length_aset.
  - intros k Hk K1 K2. rewrite aget_aset_ne by (unfold PCI_STATUS; lia). now apply G.
  - rewrite aget_aset_eq by (rewrite L2; unfold PCI_STATUS; lia). apply tst_clear_cap.
  - exact L2.
  - exact G.
  - unfold c2. rewrite aget_aset_ne by (unfold PCI_STATUS, PCI_CAPABILITY_LIST; lia). now apply linked_status.
Qed.

Lemma chain_empty c h l : cap_chain c h l -> (h =? 0) = match l with [] => true | _ => false end.
Proof. destruct l as [|x l]; intros H; [now rewrite H|]. destruct H as (-> & Hx & _). apply Z.eqb_neq. lia. Qed.

Lemma del_caps d l d' cap_id o sz : caps d l -> 2 <= sz -> 0x40 <= o -> o + sz <= 256 -> free (used d) o sz ->
  pci_add_capability cap_id o sz d = Some (o, d') ->
  exists d'', pci_del_capability cap_id sz d' = Some d'' /\ caps d'' l
    /\ (forall x, x ∈ l -> aget (config d'') x = aget (config d) x)
    /\ free (used d'') o sz /\ forall k, 0 <= k -> k < o \/ o + sz <= k -> aget (used d'') k = aget (used d) k.
Proof.
  intros C Hsz Ho Ht F E. destruct (add_caps d l cap_id o sz C Hsz Ho Ht F) as (d1 & E1 & Ec & C' & _ & HU). rewrite E in E1. injection E1 as <-.
  pose proof C as [(L1 & L2 & L3) C0 C1 C2 C3 C4]. pose proof C' as [(M1 & M2 & M3) D0 D1 D2 _ _].
  assert (pci_find_capability_list cap_id d' = Some (o, PCI_CAPABILITY_LIST)) as Ef.
  { unfold pci_find_capability_list. rewrite D2. cbn [negb]. apply (cap_loop_head 256 cap_id _ (config d') o l D1).
    rewrite Ec, linked_get by (try done; unfold PCI_STATUS; lia). now rewrite Z.eqb_refl. }
  destruct (del_step d' cap_id sz o _ Ef) as (d2 & E2 & P1 & P2 & P3 & P4); [lia|]. exists d2. split; [exact E2|].
  destruct (unlinked_linked cap_id o (config d) L1) as (U1 & U2 & U3); [lia|]. rewrite <- Ec, <- P1 in U1, U2, U3.
  assert (forall x, x ∈ l -> aget (config d2) x = aget (config d) x /\ aget (config d2) (x + 1) = aget (config d) (x + 1)) as Hx.
  { intros x Hx. pose proof (cap_chain_range _ _ _ _ C1 Hx). destruct (caps_apart d l o sz x C F Hsz Hx) as (A1 & A2 & A3). split; apply U2; lia. }
  assert (forall k, 0 <= k -> aget (used d2) k = if (o <=? k) && (k <? o + sz) then 0 else aget (used d') k) as HM.
  { intros k Hk. rewrite P2, memset_get by (rewrite ?M2; lia). now replace (Z.of_nat (Z.to_nat sz)) with sz by lia. }
  assert (forall k, 0 <= k -> k < o \/ o + sz <= k -> aget (used d2) k = aget (used d) k) as HK.
  { intros k Hk Hout. rewrite HM by done. destruct (Z.leb_spec o k), (Z.ltb_spec k (o + sz)); (lia || now apply HU). }
  split; [|split; [|split; [|exact HK]]].
  - constructor; [now rewrite U1, P2, P3, !length_memset|now rewrite P4| | |done|].
    + rewrite (U2 PCI_CAPABILITY_LIST) by (unfold PCI_CAPABILITY_LIST; lia). apply (cap_chain_ext (config d)); [intros x X; now apply Hx|done].
    + rewrite U3. f_equal. now apply chain_empty with (config d).
    + intros x X. pose proof (cap_chain_range _ _ _ _ C1 X). destruct (C4 x X) as [V1 V2].
      assert (forall k, 0 <= k -> aget (used d) k <> 0 -> aget (used d2) k <> 0) as Hk; [|split; apply Hk; (lia || done)].
      intros k Hk Hn. rewrite HK; [done|done|]. destruct (Z.lt_ge_cases k o); [now left|]. destruct (Z.lt_ge_cases k (o + sz)); [|now right].
      exfalso. apply Hn, F. lia.
  - intros x X. now apply Hx.
  - intros k Hk. rewrite HM by lia. destruct (Z.leb_spec o k), (Z.ltb_spec k (o + sz)); lia || done.
Qed.

Lemma find_space_total d l sz : caps d l -> 2 <= sz < 256 ->
  let o := pci_find_space sz d in
  (o = 0 /\ forall o', 0x40 <= o' -> o' + sz <= 256 -> ~ free (used d) o' sz)
  \/ (0x40 <= o /\ o + sz <= 256 /\ free (used d) o sz /\ forall o', 0x40 <= o' < o -> ~ free (used d) o' sz).
Proof.
  intros C Hsz. unfold pci_find_space, pci_config_size. rewrite (cp_plain _ _ C). unfold PCI_CONFIG_SPACE_SIZE, PCI_CONFIG_HEADER_SIZE.
  apply (find_space_spec 192 0x40 0x40 sz (used d)); try lia. intros j Hj. lia.
Qed.

Lemma add_at_found d cap_id sz : pci_find_space sz d <> 0 -> 0 <= pci_find_space sz d < 256 ->
  pci_add_capability cap_id 0 sz d = pci_add_capability cap_id (pci_find_space sz d) sz d.
Proof.
  intros Hn Hr. unfold pci_add_capability at 1. cbn [Z.eqb]. unfold u8. rewrite Z.mod_small by lia.
  unfold pci_add_capability at 1. destruct (Z.eqb_spec (pci_find_space sz d) 0); [done|].
  destruct (Z.eqb_spec (pci_find_space sz d) 0); [done|]. reflexivity.
Qed.

(** pci_add_capability, left to choose the offset itself, fails exactly when no
    [sz] consecutive bytes of the device's configuration space above the header are
    free; otherwise it takes the first such gap, puts the capability at the head of
    the list so that pci_find_capability finds it and every other identifier is
    found where it was, makes its bytes read-only and marks nothing else as used.
    pci_del_capability then restores the list and gives the gap back. *)
Theorem pci_add_capability_correct d l cap_id sz : caps d l -> 2 <= sz < 256 ->
  (pci_add_capability cap_id 0 sz d = None /\ forall o, 0x40 <= o -> o + sz <= 256 -> ~ free (used d) o sz)
  \/ exists o d' d'', pci_add_capability cap_id 0 sz d = Some (o, d')
    /\ (0x40 <= o /\ o + sz <= 256 /\ free (used d) o sz /\ forall o', 0x40 <= o' < o -> ~ free (used d) o' sz)
    /\ caps d' (o :: l) /\ pci_find_capability cap_id d' = Some o
    /\ (forall id, id <> cap_id -> pci_find_capability id d' = pci_find_capability id d)
    /\ (forall k, o <= k < o + sz -> aget (wmask d') k = 0)
    /\ (forall k, 0 <= k -> k < o \/ o + sz <= k -> aget (used d') k = aget (used d) k /\ aget (wmask d') k = aget (wmask d) k)
    /\ pci_del_capability cap_id sz d' = Some d'' /\ caps d'' l /\ free (used d'') o sz
    /\ (forall id, pci_find_capability id d'' = pci_find_capability id d).
Proof.
  intros C [Hsz Hs8]. destruct (find_space_total d l sz C (conj Hsz Hs8)) as [(Eo & Hno) | Hyes].
  { left. split; [|exact Hno]. unfold pci_add_capability. cbn [Z.eqb]. now rewrite Eo. }
  right. pose proof Hyes as (H1 & H2 & H3 & _). set (o := pci_find_space sz d) in *.
  destruct (add_caps d l cap_id o sz C Hsz H1 H2 H3) as (d' & E & Ec & C' & W & U).
  destruct (del_caps d l d' cap_id o sz C Hsz H1 H2 H3 E) as (d'' & E2 & C'' & Hc & HF & _).
  pose proof (proj1 (cp_len _ _ C)) as Hl.
  assert (forall x, x ∈ l -> aget (config d') x = aget (config d) x) as Hx.
  { intros x X. pose proof (cap_chain_range _ _ _ _ (cp_chain _ _ C) X). destruct (caps_apart d l o sz x C H3 Hsz X) as (A1 & A2 & _).
    rewrite Ec, linked_get by (try done; unfold PCI_STATUS; lia). unfold PCI_CAPABILITY_LIST.
    destruct (Z.eqb_spec x o), (Z.eqb_spec x (o + 1)), (Z.eqb_spec x 52); lia || reflexivity. }
  assert (aget (config d') o = cap_id) as Hid
    by (rewrite Ec, linked_get by (try done; unfold PCI_STATUS; lia); now rewrite Z.eqb_refl).
  exists o, d', d''. split; [rewrite <- E; apply add_at_found; fold o; lia|]. do 2 (split; [done|]).
  split; [rewrite (find_spec d' (o :: l)) by done; cbn [first_id]; now rewrite Hid, Z.eqb_refl|].
  split.
  { intros id Hne. rewrite (find_spec d' (o :: l)), (find_spec d l) by done. cbn [first_id]. rewrite Hid.
    destruct (Z.eqb_spec cap_id id); [congruence|]. f_equal. now apply first_id_ext. }
  do 5 (split; [done|]). intros id. rewrite (find_spec d'' l), (find_spec d l) by done. f_equal. now apply first_id_ext.
Qed.

(** ** A concrete device *)

Definition network_card : PCIDevice := dev 1 PciIrq.small_board.

(** The network card gets its power management capability at 0x40. *)
Lemma pci_add_capability_correct_witness :
  exists o d', pci_add_capability 1 0 8 network_card = Some (o, d') /\ pci_find_capability 1 d' = Some o.
Proof.
  assert (caps network_card []) as C by (constructor; [repeat split|reflexivity|reflexivity|reflexivity|constructor|intros x X; now apply not_elem_of_nil in X]).
  destruct (pci_add_capability_correct network_card [] 1 8 C) as [(E & _) | (o & d' & d'' & E & _ & _ & F & _)]; [lia|vm_compute in E; discriminate|].
  now exists o, d'.
Defined.

End PciCap.
