(* ===== verification/Fdc.v ===== *)
(** * The 82078 floppy disk controller: hw/fdc.c, and the floppy formats of block.c

    [FDrive] and [FDCtrl] are the structs of the same names; a pointer to a drive
    is its index in [drives].  The class [FdcHost] is what the controller needs of
    the machine: its interrupt line, its DMA channel and the block devices.  The
    transfer handler that the DMA controller calls is the operation
    [fdctrl_transfer_handler]; the call of [DMA_hold_DREQ] that may lead to it is
    the last effect of [fdctrl_start_transfer], so the handler is a step of its own.
    A store outside the FIFO and a block device that is NULL end in [Crash]. *)

From S2P Require Import Prelude.

Module Fdc.

Definition MAX_FD : Z := 2.
Definition FD_SECTOR_LEN : Z := 512.
Definition FD_SECTOR_SC : Z := 2.
Definition FD_RESET_SENSEI_COUNT : Z := 4.
Definition FDISK_DBL_SIDES : Z := 0x01.
Definition FDRIVE_DRV_144 : Z := 0x00.
Definition FDRIVE_DRV_288 : Z := 0x01.
Definition FDRIVE_DRV_120 : Z := 0x02.
Definition FDRIVE_DRV_NONE : Z := 0x03.

Definition FD_DIR_WRITE : Z := 0.
Definition FD_DIR_READ : Z := 1.
Definition FD_DIR_SCANE : Z := 2.
Definition FD_DIR_SCANL : Z := 3.
Definition FD_DIR_SCANH : Z := 4.

Definition FD_STATE_MULTI : Z := 0x01.
Definition FD_STATE_FORMAT : Z := 0x02.
Definition FD_STATE_SEEK : Z := 0x04.

Definition FD_CMD_READ_TRACK : Z := 0x02.
Definition FD_CMD_SPECIFY : Z := 0x03.
Definition FD_CMD_SENSE_DRIVE_STATUS : Z := 0x04.
Definition FD_CMD_WRITE : Z := 0x05.
Definition FD_CMD_READ : Z := 0x06.
Definition FD_CMD_RECALIBRATE : Z := 0x07.
Definition FD_CMD_SENSE_INTERRUPT_STATUS : Z := 0x08.
Definition FD_CMD_WRITE_DELETED : Z := 0x09.
Definition FD_CMD_READ_ID : Z := 0x0a.
Definition FD_CMD_READ_DELETED : Z := 0x0c.
Definition FD_CMD_FORMAT_TRACK : Z := 0x0d.
Definition FD_CMD_DUMPREG : Z := 0x0e.
Definition FD_CMD_SEEK : Z := 0x0f.
Definition FD_CMD_VERSION : Z := 0x10.
Definition FD_CMD_SCAN_EQUAL : Z := 0x11.
Definition FD_CMD_PERPENDICULAR_MODE : Z := 0x12.
Definition FD_CMD_CONFIGURE : Z := 0x13.
Definition FD_CMD_LOCK : Z := 0x14.
Definition FD_CMD_VERIFY : Z := 0x16.
Definition FD_CMD_POWERDOWN_MODE : Z := 0x17.
Definition FD_CMD_PART_ID : Z := 0x18.
Definition FD_CMD_SCAN_LOW_OR_EQUAL : Z := 0x19.
Definition FD_CMD_SCAN_HIGH_OR_EQUAL : Z := 0x1d.
Definition FD_CMD_SAVE : Z := 0x2e.
Definition FD_CMD_OPTION : Z := 0x33.
Definition FD_CMD_RESTORE : Z := 0x4e.
Definition FD_CMD_DRIVE_SPECIFICATION_COMMAND : Z := 0x8e.
Definition FD_CMD_RELATIVE_SEEK_OUT : Z := 0x8f.
Definition FD_CMD_FORMAT_AND_WRITE : Z := 0xcd.
Definition FD_CMD_RELATIVE_SEEK_IN : Z := 0xcf.

Definition FD_CONFIG_EFIFO : Z := 0x20.
Definition FD_CONFIG_EIS : Z := 0x40.
Definition FD_SR0_SEEK : Z := 0x20.
Definition FD_SR0_ABNTERM : Z := 0x40.
Definition FD_SR0_INVCMD : Z := 0x80.
Definition FD_SR0_RDYCHG : Z := 0xc0.
Definition FD_SR1_EC : Z := 0x80.
Definition FD_SR2_SNS : Z := 0x04.
Definition FD_SR2_SEH : Z := 0x08.
Definition FD_SRA_nDRV2 : Z := 0x40.
Definition FD_SRA_INTPEND : Z := 0x80.
Definition FD_SRB_MTR0 : Z := 0x01.
Definition FD_SRB_MTR1 : Z := 0x02.
Definition FD_SRB_DR0 : Z := 0x20.
Definition FD_DOR_SELMASK : Z := 0x01.
Definition FD_DOR_nRESET : Z := 0x04.
Definition FD_DOR_DMAEN : Z := 0x08.
Definition FD_DOR_MOTEN0 : Z := 0x10.
Definition FD_DOR_MOTEN1 : Z := 0x20.
Definition FD_TDR_BOOTSEL : Z := 0x04.
Definition FD_DSR_PWRDOWN : Z := 0x40.
Definition FD_DSR_SWRESET : Z := 0x80.
Definition FD_MSR_CMDBUSY : Z := 0x10.
Definition FD_MSR_NONDMA : Z := 0x20.
Definition FD_MSR_DIO : Z := 0x40.
Definition FD_MSR_RQM : Z := 0x80.
Definition FD_DIR_DSKCHG : Z := 0x80.

Record FDrive := mkDrive {
  bs : option Z;
  drive : Z;
  perpendicular : Z;
  head : Z;
  track : Z;
  sect : Z;
  flags : Z;
  last_sect : Z;
  max_track : Z;
  bps : Z;
  ro : Z
}.
#[export] Instance FDrive_eta : Eta FDrive := fun d =>
  mkDrive (bs d) (drive d) (perpendicular d) (head d) (track d) (sect d) (flags d) (last_sect d) (max_track d) (bps d) (ro d).

Record FDCtrl := mkCtrl {
  version : Z;
  dma_chann : Z;
  result_timer : option Z;   (* deadline *)
  sra : Z;
  srb : Z;
  dor : Z;
  dor_vmstate : Z;
  tdr : Z;
  dsr : Z;
  msr : Z;
  cur_drv : Z;
  status0 : Z;
  status1 : Z;
  status2 : Z;
  fifo : list Z;
  fifo_size : Z;
  data_pos : Z;
  data_len : Z;
  data_state : Z;
  data_dir : Z;
  eot : Z;
  timer0 : Z;
  timer1 : Z;
  precomp_trk : Z;
  config : Z;
  lock : Z;
  pwrd : Z;
  sun4m : bool;
  num_floppies : Z;
  drives : list FDrive;
  reset_sensei : Z
}.
#[export] Instance FDCtrl_eta : Eta FDCtrl := fun s =>
  mkCtrl (version s) (dma_chann s) (result_timer s) (sra s) (srb s) (dor s) (dor_vmstate s) (tdr s) (dsr s) (msr s)
    (cur_drv s) (status0 s) (status1 s) (status2 s) (fifo s) (fifo_size s) (data_pos s) (data_len s) (data_state s) (data_dir s) (eot s)
    (timer0 s) (timer1 s) (precomp_trk s) (config s) (lock s) (pwrd s) (sun4m s) (num_floppies s) (drives s) (reset_sensei s).

Inductive crash := fifo_overrun | null_bs | no_fuel.
Inductive result (A : Type) := Ok (a : A) | Crash (c : crash).
Arguments Ok {A} a.
Arguments Crash {A} c.

(** [fdctrl->drives[i]] and [fdctrl->fifo[i]]. *)
Definition drive0 : FDrive := mkDrive None 0 0 0 0 0 0 0 0 0 0.
Definition drv (i : Z) (s : FDCtrl) : FDrive := nth (Z.to_nat i) (drives s) drive0.
Definition upd_drv (i : Z) (f : FDrive -> FDrive) (s : FDCtrl) : FDCtrl :=
  s <| drives := <[Z.to_nat i := f (drv i s)]> (drives s) |>.
Definition fifo_at (s : FDCtrl) (i : Z) : Z := aget (fifo s) i.
Definition set_fifo_at (i v : Z) (s : FDCtrl) : FDCtrl := s <| fifo := aset (fifo s) i (u8 v) |>.
(** Several stores, in order. *)
Definition put (l : list (Z * Z)) (s : FDCtrl) : FDCtrl := foldl (fun s p => set_fifo_at p.1 p.2 s) s l.

(** ** Drives *)

Definition fd_init (d : FDrive) : FDrive :=
  d <| drive := FDRIVE_DRV_NONE |> <| perpendicular := 0 |> <| last_sect := 0 |> <| max_track := 0 |>.

Definition fd_sector_calc (hd trk sec lst : Z) : Z := ((trk * 2 + hd) * lst) + sec - 1.
Definition fd_sector (d : FDrive) : Z := fd_sector_calc (head d) (track d) (sect d) (last_sect d).

Definition fd_seek (hd trk sec : Z) (d : FDrive) : Z * FDrive :=
  if (max_track d <? trk) || (negb (hd =? 0) && negb (tst (flags d) FDISK_DBL_SIDES)) then (2, d)
  else if last_sect d <? sec then (3, d)
  else
    let sector := u32 (fd_sector_calc hd trk sec (last_sect d)) in
    if negb (sector =? u32 (fd_sector d)) then
      let ret := b2z (negb (track d =? trk)) in
      (ret, d <| head := hd |> <| track := trk |> <| sect := sec |>)
    else (0, d).

Definition fd_recalibrate (d : FDrive) : FDrive := d <| head := 0 |> <| track := 0 |> <| sect := 1 |>.

(** The table of block.c: drive, sectors per track, tracks, last head. *)
Definition fd_formats : list (Z * Z * Z * Z) :=
  [ (FDRIVE_DRV_144, 18, 80, 1); (FDRIVE_DRV_144, 20, 80, 1); (FDRIVE_DRV_144, 21, 80, 1); (FDRIVE_DRV_144, 21, 82, 1);
    (FDRIVE_DRV_144, 21, 83, 1); (FDRIVE_DRV_144, 22, 80, 1); (FDRIVE_DRV_144, 23, 80, 1); (FDRIVE_DRV_144, 24, 80, 1);
    (FDRIVE_DRV_288, 36, 80, 1); (FDRIVE_DRV_288, 39, 80, 1); (FDRIVE_DRV_288, 40, 80, 1); (FDRIVE_DRV_288, 44, 80, 1);
    (FDRIVE_DRV_288, 48, 80, 1);
    (FDRIVE_DRV_144, 9, 80, 1); (FDRIVE_DRV_144, 10, 80, 1); (FDRIVE_DRV_144, 10, 82, 1); (FDRIVE_DRV_144, 10, 83, 1);
    (FDRIVE_DRV_144, 13, 80, 1); (FDRIVE_DRV_144, 14, 80, 1);
    (FDRIVE_DRV_120, 15, 80, 1); (FDRIVE_DRV_120, 18, 80, 1); (FDRIVE_DRV_120, 18, 82, 1); (FDRIVE_DRV_120, 18, 83, 1);
    (FDRIVE_DRV_120, 20, 80, 1);
    (FDRIVE_DRV_120, 9, 80, 1); (FDRIVE_DRV_120, 11, 80, 1);
    (FDRIVE_DRV_120, 9, 40, 1); (FDRIVE_DRV_120, 9, 40, 0); (FDRIVE_DRV_120, 10, 41, 1); (FDRIVE_DRV_120, 10, 42, 1);
    (FDRIVE_DRV_120, 8, 40, 1); (FDRIVE_DRV_120, 8, 40, 0);
    (FDRIVE_DRV_144, 9, 80, 0); (FDRIVE_DRV_NONE, 255, 255, 0) ].

(** The loop: the entry that matches exactly, or else the first for the drive. *)
Fixpoint match_format (drive_in nb_sectors : Z) (first_match : option (Z * Z * Z * Z)) (l : list (Z * Z * Z * Z)) : Z * Z * Z * Z :=
  match l with
  | [] => default (FDRIVE_DRV_144, 20, 80, 1) first_match
  | (dr, lst, trk, hd) as parse :: l =>
      if dr =? FDRIVE_DRV_NONE then default (FDRIVE_DRV_144, 20, 80, 1) first_match
      else if (drive_in =? dr) || (drive_in =? FDRIVE_DRV_NONE) then
        if nb_sectors =? (hd + 1) * trk * lst then parse
        else match_format drive_in nb_sectors (match first_match with None => Some parse | Some _ => first_match end) l
      else match_format drive_in nb_sectors first_match l
  end.

(** Heads, tracks and sectors, and the drive unless the user gave the geometry, in
    which case [*drive] is not written. *)
Definition bdrv_get_floppy_geometry_hint (hint : Z * Z * Z) (nb_sectors drive_in : Z) : Z * Z * Z * option Z :=
  let '(nb_heads, max_trk, last_sec) := hint in
  if negb (nb_heads =? 0) && negb (max_trk =? 0) && negb (last_sec =? 0) then (nb_heads, max_trk, last_sec, None)
  else
    let '(dr, lst, trk, hd) := match_format drive_in nb_sectors None fd_formats in
    (hd + 1, trk, lst, Some dr).

(** ** What the controller needs of the machine *)

Class FdcHost (W : Type) := {
  qemu_set_irq : Z -> W -> W;
  DMA_get_channel_mode : Z -> W -> Z;
  DMA_hold_DREQ : Z -> W -> W;
  DMA_release_DREQ : Z -> W -> W;
  DMA_schedule : Z -> W -> W;
  DMA_read_memory : Z -> Z -> Z -> W -> list Z;            (* channel, position, length *)
  DMA_write_memory : Z -> list Z -> Z -> Z -> W -> W;
  bdrv_is_inserted : Z -> W -> bool;
  bdrv_is_read_only : Z -> W -> Z;
  bdrv_get_geometry_hint : Z -> W -> Z * Z * Z;
  bdrv_get_geometry : Z -> W -> Z;
  bdrv_media_changed : Z -> W -> bool * W;
  bdrv_read : Z -> Z -> W -> option (list Z);              (* one sector, None for an error *)
  bdrv_write : Z -> Z -> list Z -> W -> bool * W;          (* false for an error *)
  bdrv_get_on_error : Z -> Z -> W -> Z;                    (* device, is_read *)
  bdrv_set_removable : Z -> Z -> W -> W;
  uninit_drive : Z                                         (* a local variable that was not written *)
}.

(** The functions the table [handlers] points to. *)
Inductive fd_handler :=
| start_transfer | start_transfer_del | unimplemented | handle_seek | handle_sense_interrupt_status
| handle_recalibrate | handle_format_track | handle_restore | handle_save | handle_readid | handle_specify
| handle_sense_drive_status | handle_perpendicular_mode | handle_configure | handle_powerdown_mode | handle_option
| handle_drive_specification_command | handle_relative_seek_out | handle_relative_seek_in | handle_lock
| handle_dumpreg | handle_version | handle_partid.

#[export] Instance fd_handler_eq_dec : EqDecision fd_handler.
Proof. solve_decision. Defined.

Record command := mkCommand { value : Z; mask : Z; parameters : Z; handler : fd_handler; direction : Z }.

Definition handlers : list command :=
  [ mkCommand FD_CMD_READ 0x1f 8 start_transfer FD_DIR_READ;
    mkCommand FD_CMD_WRITE 0x3f 8 start_transfer FD_DIR_WRITE;
    mkCommand FD_CMD_SEEK 0xff 2 handle_seek 0;
    mkCommand FD_CMD_SENSE_INTERRUPT_STATUS 0xff 0 handle_sense_interrupt_status 0;
    mkCommand FD_CMD_RECALIBRATE 0xff 1 handle_recalibrate 0;
    mkCommand FD_CMD_FORMAT_TRACK 0xbf 5 handle_format_track 0;
    mkCommand FD_CMD_READ_TRACK 0xbf 8 start_transfer FD_DIR_READ;
    mkCommand FD_CMD_RESTORE 0xff 17 handle_restore 0;
    mkCommand FD_CMD_SAVE 0xff 0 handle_save 0;
    mkCommand FD_CMD_READ_DELETED 0x1f 8 start_transfer_del FD_DIR_READ;
    mkCommand FD_CMD_SCAN_EQUAL 0x1f 8 start_transfer FD_DIR_SCANE;
    mkCommand FD_CMD_VERIFY 0x1f 8 unimplemented 0;
    mkCommand FD_CMD_SCAN_LOW_OR_EQUAL 0x1f 8 start_transfer FD_DIR_SCANL;
    mkCommand FD_CMD_SCAN_HIGH_OR_EQUAL 0x1f 8 start_transfer FD_DIR_SCANH;
    mkCommand FD_CMD_WRITE_DELETED 0x3f 8 start_transfer_del FD_DIR_WRITE;
    mkCommand FD_CMD_READ_ID 0xbf 1 handle_readid 0;
    mkCommand FD_CMD_SPECIFY 0xff 2 handle_specify 0;
    mkCommand FD_CMD_SENSE_DRIVE_STATUS 0xff 1 handle_sense_drive_status 0;
    mkCommand FD_CMD_PERPENDICULAR_MODE 0xff 1 handle_perpendicular_mode 0;
    mkCommand FD_CMD_CONFIGURE 0xff 3 handle_configure 0;
    mkCommand FD_CMD_POWERDOWN_MODE 0xff 2 handle_powerdown_mode 0;
    mkCommand FD_CMD_OPTION 0xff 1 handle_option 0;
    mkCommand FD_CMD_DRIVE_SPECIFICATION_COMMAND 0xff 5 handle_drive_specification_command 0;
    mkCommand FD_CMD_RELATIVE_SEEK_OUT 0xff 2 handle_relative_seek_out 0;
    mkCommand FD_CMD_FORMAT_AND_WRITE 0xff 10 unimplemented 0;
    mkCommand FD_CMD_RELATIVE_SEEK_IN 0xff 2 handle_relative_seek_in 0;
    mkCommand FD_CMD_LOCK 0x7f 0 handle_lock 0;
    mkCommand FD_CMD_DUMPREG 0xff 0 handle_dumpreg 0;
    mkCommand FD_CMD_VERSION 0xff 0 handle_version 0;
    mkCommand FD_CMD_PART_ID 0xff 0 handle_partid 0;
    mkCommand FD_CMD_WRITE 0x1f 8 start_transfer FD_DIR_WRITE;
    mkCommand 0 0 0 unimplemented 0 ].
Definition command0 : command := mkCommand 0 0 0 unimplemented 0.
Definition command_at (i : Z) : command := nth (Z.to_nat i) handlers command0.

(** The lookup table [fdctrl_init_common] fills: for each handler, from the last
    to the first, every command byte it matches. *)
Definition fill_row (tbl : list Z) (i : Z) : list Z :=
  foldl (fun tbl j => if (j .& mask (command_at i)) =? value (command_at i) then aset tbl j i else tbl) tbl (seqZ 0 256).
Definition command_to_handler : list Z :=
  foldl fill_row (replicate 256 0) (reverse (seqZ 0 (Z.of_nat (length handlers)))).

Section Controller.
Context {W : Type} {H : FdcHost W}.

Definition fd_revalidate (d : FDrive) (w : W) : FDrive :=
  match bs d with
  | Some b =>
      if bdrv_is_inserted b w then
        let '(nb_heads, max_trk, last_sec, dr) := bdrv_get_floppy_geometry_hint (bdrv_get_geometry_hint b w) (bdrv_get_geometry b w) (drive d) in
        let d := if nb_heads =? 1 then d <| flags := flags d .& ~~ FDISK_DBL_SIDES |> else d <| flags := flags d .| FDISK_DBL_SIDES |> in
        d <| max_track := u8 max_trk |> <| last_sect := u8 last_sec |> <| ro := u8 (bdrv_is_read_only b w) |> <| drive := default uninit_drive dr |>
      else d <| last_sect := 0 |> <| max_track := 0 |> <| flags := flags d .& ~~ FDISK_DBL_SIDES |>
  | None => d <| last_sect := 0 |> <| max_track := 0 |> <| flags := flags d .& ~~ FDISK_DBL_SIDES |>
  end.

(** ** Interrupt, FIFO and drive selection *)

Definition fdctrl_reset_irq (s : FDCtrl) (w : W) : FDCtrl * W :=
  if negb (tst (sra s) FD_SRA_INTPEND) then (s, w)
  else (s <| sra := u8 (sra s .& ~~ FD_SRA_INTPEND) |>, qemu_set_irq 0 w).

Definition fdctrl_raise_irq (st0 : Z) (s : FDCtrl) (w : W) : FDCtrl * W :=
  if sun4m s && tst (msr s) FD_MSR_CMDBUSY then
    let s := s <| msr := u8 (msr s .& ~~ FD_MSR_CMDBUSY) |> in
    let s := s <| msr := u8 (msr s .| (FD_MSR_RQM .| FD_MSR_DIO)) |> in
    (s <| status0 := u8 st0 |>, w)
  else
    let '(s, w) := if negb (tst (sra s) FD_SRA_INTPEND)
                   then (s <| sra := u8 (sra s .| FD_SRA_INTPEND) |>, qemu_set_irq 1 w) else (s, w) in
    (s <| reset_sensei := 0 |> <| status0 := u8 st0 |>, w).

Definition fdctrl_reset_fifo (s : FDCtrl) : FDCtrl :=
  s <| data_dir := FD_DIR_WRITE |> <| data_pos := 0 |> <| msr := u8 (msr s .& ~~ (FD_MSR_CMDBUSY .| FD_MSR_DIO)) |>.

Definition fdctrl_set_fifo (fifo_len : Z) (do_irq : bool) (s : FDCtrl) (w : W) : FDCtrl * W :=
  let s := s <| data_dir := FD_DIR_READ |> <| data_len := fifo_len |> <| data_pos := 0 |> in
  let s := s <| msr := u8 (msr s .| (FD_MSR_CMDBUSY .| FD_MSR_RQM .| FD_MSR_DIO)) |> in
  if do_irq then fdctrl_raise_irq 0x00 s w else (s, w).

Definition fdctrl_reset (do_irq : bool) (s : FDCtrl) (w : W) : FDCtrl * W :=
  let '(s, w) := fdctrl_reset_irq s w in
  let s := s <| sra := 0 |> <| srb := 0xc0 |> in
  let s := match bs (drv 1 s) with None => s <| sra := u8 (sra s .| FD_SRA_nDRV2) |> | Some _ => s end in
  let s := s <| cur_drv := 0 |> <| dor := FD_DOR_nRESET |> in
  let s := s <| dor := dor s .| (if negb (dma_chann s =? -1) then FD_DOR_DMAEN else 0) |> in
  let s := s <| msr := FD_MSR_RQM |> in
  let s := s <| data_pos := 0 |> <| data_len := 0 |> <| data_state := 0 |> <| data_dir := FD_DIR_WRITE |> in
  let s := foldl (fun s i => upd_drv i fd_recalibrate s) s (seqZ 0 MAX_FD) in
  let s := fdctrl_reset_fifo s in
  if do_irq then
    let '(s, w) := fdctrl_raise_irq FD_SR0_RDYCHG s w in
    (s <| reset_sensei := FD_RESET_SENSEI_COUNT |>, w)
  else (s, w).

(** The index in [drives] of the drive each function returns a pointer to. *)
Definition drv0 (s : FDCtrl) : Z := (tdr s .& FD_TDR_BOOTSEL) >> 2.
Definition drv1 (s : FDCtrl) : Z := if (tdr s .& FD_TDR_BOOTSEL) <? (1 << 2) then 1 else 0.
Definition get_cur_drv (s : FDCtrl) : Z := if cur_drv s =? 0 then drv0 s else drv1 s.

(** ** Registers *)

Definition fdctrl_read_statusA (s : FDCtrl) : Z := sra s.
Definition fdctrl_read_statusB (s : FDCtrl) : Z := srb s.
Definition fdctrl_read_dor (s : FDCtrl) : Z := dor s .| cur_drv s.

Definition set_or_clear (c : bool) (m x : Z) : Z := if c then u8 (x .| m) else u8 (x .& ~~ m).

Definition fdctrl_write_dor (value : Z) (s : FDCtrl) (w : W) : FDCtrl * W :=
  let s := s <| srb := set_or_clear (tst value FD_DOR_MOTEN0) FD_SRB_MTR0 (srb s) |> in
  let s := s <| srb := set_or_clear (tst value FD_DOR_MOTEN1) FD_SRB_MTR1 (srb s) |> in
  let s := s <| srb := set_or_clear (tst value 1) FD_SRB_DR0 (srb s) |> in
  let '(s, w) :=
    if negb (tst value FD_DOR_nRESET) then (s, w)
    else if negb (tst (dor s) FD_DOR_nRESET) then
      let '(s, w) := fdctrl_reset true s w in
      (s <| dsr := u8 (dsr s .& ~~ FD_DSR_PWRDOWN) |>, w)
    else (s, w) in
  (s <| cur_drv := value .& FD_DOR_SELMASK |> <| dor := u8 value |>, w).

Definition fdctrl_read_tape (s : FDCtrl) : Z := tdr s.
Definition fdctrl_write_tape (value : Z) (s : FDCtrl) : FDCtrl :=
  if negb (tst (dor s) FD_DOR_nRESET) then s else s <| tdr := value .& FD_TDR_BOOTSEL |>.

Definition fdctrl_read_main_status (s : FDCtrl) (w : W) : Z * (FDCtrl * W) :=
  let retval := msr s in
  let s := s <| dsr := u8 (dsr s .& ~~ FD_DSR_PWRDOWN) |> <| dor := dor s .| FD_DOR_nRESET |> in
  if sun4m s then (retval .| FD_MSR_DIO, fdctrl_reset_irq s w) else (retval, (s, w)).

Definition fdctrl_write_rate (value : Z) (s : FDCtrl) (w : W) : FDCtrl * W :=
  if negb (tst (dor s) FD_DOR_nRESET) then (s, w)
  else
    let '(s, w) :=
      if tst value FD_DSR_SWRESET then
        let s := s <| dor := u8 (dor s .& ~~ FD_DOR_nRESET) |> in
        let '(s, w) := fdctrl_reset true s w in
        (s <| dor := dor s .| FD_DOR_nRESET |>, w)
      else (s, w) in
    let '(s, w) := if tst value FD_DSR_PWRDOWN then fdctrl_reset true s w else (s, w) in
    (s <| dsr := u8 value |>, w).

Definition fdctrl_media_changed (i : Z) (s : FDCtrl) (w : W) : bool * (FDCtrl * W) :=
  match bs (drv i s) with
  | None => (false, (s, w))
  | Some b =>
      let '(ret, w) := bdrv_media_changed b w in
      (ret, (if ret : bool then upd_drv i (fun d => fd_revalidate d w) s else s, w))
  end.

Definition fdctrl_read_dir (s : FDCtrl) (w : W) : Z * (FDCtrl * W) :=
  let '(c, (s, w)) := fdctrl_media_changed (drv0 s) s w in
  if c : bool then (FD_DIR_DSKCHG, (s, w))
  else
    let '(c, (s, w)) := fdctrl_media_changed (drv1 s) s w in
    (if c : bool then FD_DIR_DSKCHG else 0, (s, w)).

(** ** Transfers *)

(** [SET_CUR_DRV(fdctrl, fdctrl->fifo[1] & FD_DOR_SELMASK)]. *)
Definition SET_CUR_DRV (s : FDCtrl) : FDCtrl := s <| cur_drv := fifo_at s 1 .& FD_DOR_SELMASK |>.

Definition fdctrl_unimplemented (s : FDCtrl) (w : W) : FDCtrl * W :=
  fdctrl_set_fifo 1 false (set_fifo_at 0 FD_SR0_INVCMD s) w.

Definition fdctrl_seek_to_next_sect (i : Z) (s : FDCtrl) : bool * FDCtrl :=
  let d := drv i s in
  if (last_sect d <=? sect d) || (sect d =? eot s) then
    let d := d <| sect := 1 |> in
    if tst (data_state s) FD_STATE_MULTI then
      if (head d =? 0) && tst (flags d) FDISK_DBL_SIDES then (true, upd_drv i (fun _ => d <| head := 1 |>) s)
      else (tst (flags d) FDISK_DBL_SIDES, upd_drv i (fun _ => d <| head := 0 |> <| track := u8 (track d + 1) |>) s)
    else (false, upd_drv i (fun _ => d <| track := u8 (track d + 1) |>) s)
  else (true, upd_drv i (fun _ => d <| sect := u8 (sect d + 1) |>) s).

Definition fdctrl_stop_transfer (st0 st1 st2 : Z) (s : FDCtrl) (w : W) : FDCtrl * W :=
  let d := drv (get_cur_drv s) s in
  let s := put [(0, st0 .| (head d << 2) .| cur_drv s); (1, st1); (2, st2); (3, track d); (4, head d); (5, sect d); (6, FD_SECTOR_SC)] s in
  let s := s <| data_dir := FD_DIR_READ |> in
  let w := if negb (tst (msr s) FD_MSR_NONDMA) then DMA_release_DREQ (dma_chann s) w else w in
  let s := s <| msr := u8 (msr s .| (FD_MSR_RQM .| FD_MSR_DIO)) |> in
  let s := s <| msr := u8 (msr s .& ~~ FD_MSR_NONDMA) |> in
  fdctrl_set_fifo 7 true s w.

(** The cases of [fd_seek] that fail: the wanted position is returned. *)
Definition seek_failed (st1 kt kh ks : Z) (s : FDCtrl) (w : W) : FDCtrl * W :=
  let '(s, w) := fdctrl_stop_transfer FD_SR0_ABNTERM st1 0x00 s w in
  (put [(3, kt); (4, kh); (5, ks)] s, w).

(** [data_len] as the command's parameters give it. *)
Definition transfer_len (s : FDCtrl) (ks : Z) : Z :=
  if fifo_at s 5 =? 0 then fifo_at s 8
  else
    let tmp := fifo_at s 6 - ks + 1 in
    let tmp := if tst (fifo_at s 0) 0x80 then tmp + fifo_at s 6 else tmp in
    u32 ((128 << (if 7 <? fifo_at s 5 then 7 else fifo_at s 5)) * tmp).

Definition dma_mode_ok (direction dma_mode : Z) : bool :=
  ((direction =? FD_DIR_SCANE) || (direction =? FD_DIR_SCANL) || (direction =? FD_DIR_SCANH)) && (dma_mode =? 0)
  || (direction =? FD_DIR_WRITE) && (dma_mode =? 2)
  || (direction =? FD_DIR_READ) && (dma_mode =? 1).

Definition fdctrl_start_transfer (direction : Z) (s : FDCtrl) (w : W) : FDCtrl * W :=
  let s := SET_CUR_DRV s in
  let i := get_cur_drv s in
  let kt := fifo_at s 2 in
  let kh := fifo_at s 3 in
  let ks := fifo_at s 4 in
  let '(ret, d) := fd_seek kh kt ks (drv i s) in
  let s := upd_drv i (fun _ => d) s in
  if ret =? 2 then seek_failed 0x00 kt kh ks s w
  else if ret =? 3 then seek_failed FD_SR1_EC kt kh ks s w
  else if ret =? 4 then seek_failed 0x00 kt kh ks s w
  else
    let did_seek := ret =? 1 in
    let s := s <| data_dir := direction |> <| data_pos := 0 |> <| msr := u8 (msr s .| FD_MSR_CMDBUSY) |> in
    let s := s <| data_state := set_or_clear (tst (fifo_at s 0) 0x80) FD_STATE_MULTI (data_state s) |> in
    let s := s <| data_state := set_or_clear did_seek FD_STATE_SEEK (data_state s) |> in
    let s := s <| data_len := transfer_len s ks |> in
    let s := s <| eot := fifo_at s 6 |> in
    let dma_mode := (DMA_get_channel_mode (dma_chann s) w >> 2) .& 3 in
    if tst (dor s) FD_DOR_DMAEN && dma_mode_ok direction dma_mode then
      let s := s <| msr := u8 (msr s .& ~~ FD_MSR_RQM) |> in
      (s, DMA_schedule (dma_chann s) (DMA_hold_DREQ (dma_chann s) w))
    else
      let s := s <| msr := u8 (msr s .| FD_MSR_NONDMA) |> in
      let s := if negb (direction =? FD_DIR_WRITE) then s <| msr := u8 (msr s .| FD_MSR_DIO) |> else s in
      fdctrl_raise_irq 0x00 s w.

Definition fdctrl_start_transfer_del (s : FDCtrl) (w : W) : FDCtrl * W :=
  fdctrl_stop_transfer (FD_SR0_ABNTERM .| FD_SR0_SEEK) 0x00 0x00 s w.

(** The sign of [memcmp] on two buffers of the same length. *)
Fixpoint memcmp (a b : list Z) : Z :=
  match a, b with
  | x :: a, y :: b => if x =? y then memcmp a b else if x <? y then -1 else 1
  | _, _ => 0
  end.

(** [buf] stored at [fifo + pos]. *)
Definition overlay (fifo : list Z) (pos : Z) (buf : list Z) : list Z :=
  take (Z.to_nat pos) fifo ++ buf ++ drop (Z.to_nat pos + length buf) fifo.

Definition is_scan (dir : Z) : bool := (dir =? FD_DIR_SCANE) || (dir =? FD_DIR_SCANL) || (dir =? FD_DIR_SCANH).

(** [DMA_write_memory] may reverse the bytes of the FIFO it is given; they are not
    used again. *)

(** [bdrv_read] into the FIFO, which is cleared when the read fails. *)
Definition read_sector (b : Z) (i : Z) (s : FDCtrl) (w : W) : FDCtrl :=
  s <| fifo := default (replicate (Z.to_nat FD_SECTOR_LEN) 0) (bdrv_read b (fd_sector (drv i s)) w) |>.

(** How the loop of the transfer handler ends: at [end_transfer], with
    [status2], or at [transfer_error], with [len]. *)
Inductive transfer_end := end_transfer (st2 : Z) (s : FDCtrl) (w : W) | transfer_error (len : Z) (s : FDCtrl) (w : W).

(** The end of the loop's body: on to the next sector, or out of the loop. *)
Definition next_chunk (again : FDCtrl -> W -> result transfer_end) (i st2 len : Z) (s : FDCtrl) (w : W) : result transfer_end :=
  let s := s <| data_pos := u32 (data_pos s + len) |> in
  if data_pos s mod FD_SECTOR_LEN =? 0 then
    let '(more, s) := fdctrl_seek_to_next_sect i s in
    if more : bool then again s w else Ok (end_transfer st2 s w)
  else again s w.

Fixpoint transfer_loop (n : nat) (b nchan dma_len i st2 : Z) (s : FDCtrl) (w : W) : result transfer_end :=
  match n with
  | O => Crash no_fuel
  | S n =>
      if negb (data_pos s <? dma_len) then Ok (end_transfer st2 s w)
      else
        let rel_pos := data_pos s mod FD_SECTOR_LEN in
        let len := dma_len - data_pos s in
        let len := if FD_SECTOR_LEN <? len + rel_pos then FD_SECTOR_LEN - rel_pos else len in
        let s := if negb (data_dir s =? FD_DIR_WRITE) || (len <? FD_SECTOR_LEN) || negb (rel_pos =? 0)
                 then read_sector b i s w else s in
        let next := next_chunk (transfer_loop n b nchan dma_len i st2) i st2 len in
        if data_dir s =? FD_DIR_READ then
          next s (DMA_write_memory nchan (drop (Z.to_nat rel_pos) (fifo s)) (data_pos s) len w)
        else if data_dir s =? FD_DIR_WRITE then
          let s := s <| fifo := overlay (fifo s) rel_pos (DMA_read_memory nchan (data_pos s) len w) |> in
          let '(ok, w) := bdrv_write b (fd_sector (drv i s)) (fifo s) w in
          if negb ok then
            let '(s, w) := fdctrl_stop_transfer (FD_SR0_ABNTERM .| FD_SR0_SEEK) 0x00 0x00 s w in
            Ok (transfer_error len s w)
          else next s w
        else
          let ret := memcmp (DMA_read_memory nchan (data_pos s) len w) (take (Z.to_nat len) (drop (Z.to_nat rel_pos) (fifo s))) in
          if ret =? 0 then Ok (end_transfer FD_SR2_SEH s w)
          else if (ret <? 0) && (data_dir s =? FD_DIR_SCANL) || (0 <? ret) && (data_dir s =? FD_DIR_SCANH)
          then Ok (end_transfer 0x00 s w)
          else next s w
  end.

(** The position returned to the DMA controller, and the new state. *)
Definition fdctrl_transfer_handler (nchan dma_pos dma_len : Z) (s : FDCtrl) (w : W) : result (Z * (FDCtrl * W)) :=
  if tst (msr s) FD_MSR_RQM then Ok (0, (s, w))
  else
    let i := get_cur_drv s in
    let st2 := if is_scan (data_dir s) then FD_SR2_SNS else 0x00 in
    let dma_len := if data_len s <? dma_len then data_len s else dma_len in
    match bs (drv i s) with
    | None =>
        Ok (0, if data_dir s =? FD_DIR_WRITE then fdctrl_stop_transfer (FD_SR0_ABNTERM .| FD_SR0_SEEK) 0x00 0x00 s w
               else fdctrl_stop_transfer FD_SR0_ABNTERM 0x00 0x00 s w)
    | Some b =>
        let start_pos := data_pos s in
        match transfer_loop (Z.to_nat (dma_len / FD_SECTOR_LEN) + 2) b nchan dma_len i st2 s w with
        | Crash c => Crash c
        | Ok (transfer_error len s w) => Ok (len, (s, w))
        | Ok (end_transfer st2 s w) =>
            let len := data_pos s - start_pos in
            let st2 := if is_scan (data_dir s) then FD_SR2_SEH else st2 in
            let st0 := if tst (data_state s) FD_STATE_SEEK then FD_SR0_SEEK else 0x00 in
            let s := s <| data_len := u32 (data_len s - len) |> in
            Ok (len, fdctrl_stop_transfer st0 0x00 st2 s w)
        end
    end.

(** The tail of [fdctrl_read_data]: the next byte, status phase, command phase. *)
Definition advance_read (s : FDCtrl) (w : W) : FDCtrl * W :=
  let s := s <| data_pos := u32 (data_pos s + 1) |> in
  if data_pos s =? data_len s then
    let s := s <| data_pos := 0 |> in
    if tst (msr s) FD_MSR_NONDMA then fdctrl_stop_transfer FD_SR0_SEEK 0x00 0x00 s w
    else fdctrl_reset_irq (fdctrl_reset_fifo s) w
  else (s, w).

Definition fdctrl_read_data (s : FDCtrl) (w : W) : result (Z * (FDCtrl * W)) :=
  let i := get_cur_drv s in
  let s := s <| dsr := u8 (dsr s .& ~~ FD_DSR_PWRDOWN) |> in
  if negb (tst (msr s) FD_MSR_RQM) || negb (tst (msr s) FD_MSR_DIO) then Ok (0, (s, w))
  else if tst (msr s) FD_MSR_NONDMA then
    let pos := Z.rem (s32 (data_pos s)) FD_SECTOR_LEN in
    if pos =? 0 then
      let '(more, s) := if negb (data_pos s =? 0) then fdctrl_seek_to_next_sect i s else (true, s) in
      if negb more then Ok (0, (s, w))
      else match bs (drv i s) with
           | None => Crash null_bs
           | Some b =>
               let s := read_sector b i s w in
               Ok (fifo_at s pos, advance_read s w)
           end
    else if pos <? 0 then Crash fifo_overrun
    else Ok (fifo_at s pos, advance_read s w)
  else if FD_SECTOR_LEN <=? data_pos s then Crash fifo_overrun
  else Ok (fifo_at s (data_pos s), advance_read s w).

Definition fdctrl_format_sector (s : FDCtrl) (w : W) : FDCtrl * W :=
  let s := SET_CUR_DRV s in
  let i := get_cur_drv s in
  let kt := fifo_at s 6 in
  let kh := fifo_at s 7 in
  let ks := fifo_at s 8 in
  let '(ret, d) := fd_seek kh kt ks (drv i s) in
  let s := upd_drv i (fun _ => d) s in
  if ret =? 2 then seek_failed 0x00 kt kh ks s w
  else if ret =? 3 then seek_failed FD_SR1_EC kt kh ks s w
  else if ret =? 4 then seek_failed 0x00 kt kh ks s w
  else
    let s := if ret =? 1 then s <| data_state := u8 (data_state s .| FD_STATE_SEEK) |> else s in
    let s := s <| fifo := replicate (Z.to_nat FD_SECTOR_LEN) 0 |> in
    let '(ok, w) := match bs (drv i s) with None => (false, w) | Some b => bdrv_write b (fd_sector (drv i s)) (fifo s) w end in
    if negb ok then fdctrl_stop_transfer (FD_SR0_ABNTERM .| FD_SR0_SEEK) 0x00 0x00 s w
    else if sect (drv i s) =? last_sect (drv i s) then
      let s := s <| data_state := u8 (data_state s .& ~~ FD_STATE_FORMAT) |> in
      if tst (data_state s) FD_STATE_SEEK then fdctrl_stop_transfer FD_SR0_SEEK 0x00 0x00 s w
      else fdctrl_stop_transfer 0x00 0x00 0x00 s w
    else (s <| data_pos := 0 |> <| data_len := 4 |>, w).

(** ** Commands *)

Definition fdctrl_handle_lock (s : FDCtrl) (w : W) : FDCtrl * W :=
  let s := s <| lock := if tst (fifo_at s 0) 0x80 then 1 else 0 |> in
  let s := set_fifo_at 0 (lock s << 4) s in
  fdctrl_set_fifo 1 (truthy (lock s)) s w.

Definition fdctrl_handle_dumpreg (s : FDCtrl) (w : W) : FDCtrl * W :=
  let d := drv (get_cur_drv s) s in
  let s := put [(0, track (drv (drv0 s) s)); (1, track (drv (drv1 s) s)); (2, 0); (3, 0); (4, timer0 s);
                (5, (timer1 s << 1) .| (if tst (dor s) FD_DOR_DMAEN then 1 else 0)); (6, last_sect d);
                (7, (lock s << 7) .| (perpendicular d << 2)); (8, config s); (9, precomp_trk s)] s in
  fdctrl_set_fifo 10 false s w.

Definition fdctrl_handle_version (s : FDCtrl) (w : W) : FDCtrl * W :=
  fdctrl_set_fifo 1 true (set_fifo_at 0 (version s) s) w.

Definition fdctrl_handle_partid (s : FDCtrl) (w : W) : FDCtrl * W :=
  fdctrl_set_fifo 1 false (set_fifo_at 0 0x41 s) w.

Definition fdctrl_handle_restore (s : FDCtrl) (w : W) : FDCtrl * W :=
  let i := get_cur_drv s in
  let f := fifo_at s in
  let s := upd_drv (drv0 s) (fun d => d <| track := f 3 |>) s in
  let s := upd_drv (drv1 s) (fun d => d <| track := f 4 |>) s in
  let s := s <| timer0 := f 7 |> <| timer1 := f 8 |> in
  let s := upd_drv i (fun d => d <| last_sect := f 9 |>) s in
  let s := s <| lock := f 10 >> 7 |> in
  let s := upd_drv i (fun d => d <| perpendicular := (f 10 >> 2) .& 0xF |>) s in
  let s := s <| config := f 11 |> <| precomp_trk := f 12 |> <| pwrd := f 13 |> in
  (fdctrl_reset_fifo s, w).

Definition fdctrl_handle_save (s : FDCtrl) (w : W) : FDCtrl * W :=
  let d := drv (get_cur_drv s) s in
  let s := put [(0, 0); (1, 0); (2, track (drv (drv0 s) s)); (3, track (drv (drv1 s) s)); (4, 0); (5, 0);
                (6, timer0 s); (7, timer1 s); (8, last_sect d); (9, (lock s << 7) .| (perpendicular d << 2));
                (10, config s); (11, precomp_trk s); (12, pwrd s); (13, 0); (14, 0)] s in
  fdctrl_set_fifo 15 true s w.

Definition fdctrl_handle_readid (now : Z) (s : FDCtrl) (w : W) : FDCtrl * W :=
  let s := upd_drv (get_cur_drv s) (fun d => d <| head := (fifo_at s 1 >> 2) .& 1 |>) s in
  (s <| result_timer := Some (now + 1000000000 / 50) |>, w).

Definition fdctrl_handle_format_track (s : FDCtrl) (w : W) : FDCtrl * W :=
  let s := SET_CUR_DRV s in
  let i := get_cur_drv s in
  let s := s <| data_state := u8 (data_state s .| FD_STATE_FORMAT) |> in
  let s := s <| data_state := set_or_clear (tst (fifo_at s 0) 0x80) FD_STATE_MULTI (data_state s) |> in
  let s := s <| data_state := u8 (data_state s .& ~~ FD_STATE_SEEK) |> in
  let s := upd_drv i (fun d => d <| bps := if 7 <? fifo_at s 2 then 16384 else 128 << fifo_at s 2 |> <| last_sect := fifo_at s 3 |>) s in
  let s := s <| data_state := u8 (data_state s .& ~~ FD_STATE_FORMAT) |> in
  fdctrl_stop_transfer 0x00 0x00 0x00 s w.

Definition fdctrl_handle_specify (s : FDCtrl) (w : W) : FDCtrl * W :=
  let s := s <| timer0 := (fifo_at s 1 >> 4) .& 0xF |> <| timer1 := fifo_at s 2 >> 1 |> in
  let s := s <| dor := if tst (fifo_at s 2) 1 then u8 (dor s .& ~~ FD_DOR_DMAEN) else u8 (dor s .| FD_DOR_DMAEN) |> in
  (fdctrl_reset_fifo s, w).

Definition fdctrl_handle_sense_drive_status (s : FDCtrl) (w : W) : FDCtrl * W :=
  let s := SET_CUR_DRV s in
  let i := get_cur_drv s in
  let s := upd_drv i (fun d => d <| head := (fifo_at s 1 >> 2) .& 1 |>) s in
  let d := drv i s in
  let s := set_fifo_at 0 ((ro d << 6) .| (if track d =? 0 then 0x10 else 0x00) .| (head d << 2) .| cur_drv s .| 0x28) s in
  fdctrl_set_fifo 1 false s w.

Definition fdctrl_handle_recalibrate (s : FDCtrl) (w : W) : FDCtrl * W :=
  let s := SET_CUR_DRV s in
  let s := upd_drv (get_cur_drv s) fd_recalibrate s in
  fdctrl_raise_irq FD_SR0_SEEK (fdctrl_reset_fifo s) w.

Definition fdctrl_handle_sense_interrupt_status (s : FDCtrl) (w : W) : FDCtrl * W :=
  let d := drv (get_cur_drv s) s in
  let s :=
    if 0 <? reset_sensei s then
      let s := set_fifo_at 0 (FD_SR0_RDYCHG + FD_RESET_SENSEI_COUNT - reset_sensei s) s in
      s <| reset_sensei := reset_sensei s - 1 |>
    else set_fifo_at 0 (FD_SR0_SEEK .| (head d << 2) .| cur_drv s) s in
  let s := set_fifo_at 1 (track d) s in
  let '(s, w) := fdctrl_set_fifo 2 false s w in
  let '(s, w) := fdctrl_reset_irq s w in
  (s <| status0 := FD_SR0_RDYCHG |>, w).

Definition fdctrl_handle_seek (s : FDCtrl) (w : W) : FDCtrl * W :=
  let s := SET_CUR_DRV s in
  let i := get_cur_drv s in
  let s := fdctrl_reset_fifo s in
  if max_track (drv i s) <? fifo_at s 2 then fdctrl_raise_irq (FD_SR0_ABNTERM .| FD_SR0_SEEK) s w
  else fdctrl_raise_irq FD_SR0_SEEK (upd_drv i (fun d => d <| track := fifo_at s 2 |>) s) w.

Definition fdctrl_handle_perpendicular_mode (s : FDCtrl) (w : W) : FDCtrl * W :=
  let s := if tst (fifo_at s 1) 0x80
           then upd_drv (get_cur_drv s) (fun d => d <| perpendicular := fifo_at s 1 .& 0x7 |>) s else s in
  (fdctrl_reset_fifo s, w).

Definition fdctrl_handle_configure (s : FDCtrl) (w : W) : FDCtrl * W :=
  (fdctrl_reset_fifo (s <| config := fifo_at s 2 |> <| precomp_trk := fifo_at s 3 |>), w).

Definition fdctrl_handle_powerdown_mode (s : FDCtrl) (w : W) : FDCtrl * W :=
  let s := s <| pwrd := fifo_at s 1 |> in
  fdctrl_set_fifo 1 true (set_fifo_at 0 (fifo_at s 1) s) w.

Definition fdctrl_handle_option (s : FDCtrl) (w : W) : FDCtrl * W := (fdctrl_reset_fifo s, w).

Definition fdctrl_handle_drive_specification_command (s : FDCtrl) (w : W) : FDCtrl * W :=
  let d := drv (get_cur_drv s) s in
  let last := fifo_at s (data_pos s - 1) in
  if tst last 0x80 then
    if tst last 0x40 then fdctrl_set_fifo 4 true (put [(0, fifo_at s 1); (2, 0); (3, 0)] s) w
    else (fdctrl_reset_fifo s, w)
  else if 7 <? data_len s then fdctrl_set_fifo 1 true (set_fifo_at 0 (0x80 .| (head d << 2) .| cur_drv s) s) w
  else (s, w).

Definition fdctrl_handle_relative_seek_out (s : FDCtrl) (w : W) : FDCtrl * W :=
  let s := SET_CUR_DRV s in
  let i := get_cur_drv s in
  let d := drv i s in
  let t := if max_track d <=? fifo_at s 2 + track d then u8 (max_track d - 1) else u8 (track d + fifo_at s 2) in
  fdctrl_raise_irq FD_SR0_SEEK (fdctrl_reset_fifo (upd_drv i (fun d => d <| track := t |>) s)) w.

Definition fdctrl_handle_relative_seek_in (s : FDCtrl) (w : W) : FDCtrl * W :=
  let s := SET_CUR_DRV s in
  let i := get_cur_drv s in
  let d := drv i s in
  let t := if track d <? fifo_at s 2 then 0 else u8 (track d - fifo_at s 2) in
  fdctrl_raise_irq FD_SR0_SEEK (fdctrl_reset_fifo (upd_drv i (fun d => d <| track := t |>) s)) w.

Definition run_handler (h : fd_handler) (now dir : Z) (s : FDCtrl) (w : W) : FDCtrl * W :=
  match h with
  | start_transfer => fdctrl_start_transfer dir s w
  | start_transfer_del => fdctrl_start_transfer_del s w
  | unimplemented => fdctrl_unimplemented s w
  | handle_seek => fdctrl_handle_seek s w
  | handle_sense_interrupt_status => fdctrl_handle_sense_interrupt_status s w
  | handle_recalibrate => fdctrl_handle_recalibrate s w
  | handle_format_track => fdctrl_handle_format_track s w
  | handle_restore => fdctrl_handle_restore s w
  | handle_save => fdctrl_handle_save s w
  | handle_readid => fdctrl_handle_readid now s w
  | handle_specify => fdctrl_handle_specify s w
  | handle_sense_drive_status => fdctrl_handle_sense_drive_status s w
  | handle_perpendicular_mode => fdctrl_handle_perpendicular_mode s w
  | handle_configure => fdctrl_handle_configure s w
  | handle_powerdown_mode => fdctrl_handle_powerdown_mode s w
  | handle_option => fdctrl_handle_option s w
  | handle_drive_specification_command => fdctrl_handle_drive_specification_command s w
  | handle_relative_seek_out => fdctrl_handle_relative_seek_out s w
  | handle_relative_seek_in => fdctrl_handle_relative_seek_in s w
  | handle_lock => fdctrl_handle_lock s w
  | handle_dumpreg => fdctrl_handle_dumpreg s w
  | handle_version => fdctrl_handle_version s w
  | handle_partid => fdctrl_handle_partid s w
  end.

(** The data phase without DMA: one byte of a sector that is written when full. *)
Definition write_transfer_byte (value : Z) (s : FDCtrl) (w : W) : result (FDCtrl * W) :=
  let pos := Z.rem (s32 (data_pos s)) FD_SECTOR_LEN in
  if pos <? 0 then Crash fifo_overrun
  else
    let s := s <| data_pos := u32 (data_pos s + 1) |> in
    let s := set_fifo_at pos value s in
    let finish s w :=
      if data_pos s =? data_len s then Ok (fdctrl_stop_transfer FD_SR0_SEEK 0x00 0x00 s w) else Ok (s, w) in
    if (pos =? FD_SECTOR_LEN - 1) || (data_pos s =? data_len s) then
      let i := get_cur_drv s in
      match bs (drv i s) with
      | None => Crash null_bs
      | Some b =>
          let '(ok, w) := bdrv_write b (fd_sector (drv i s)) (fifo s) w in
          if negb ok then Ok (s, w)
          else
            let '(more, s) := fdctrl_seek_to_next_sect i s in
            if negb more then Ok (s, w) else finish s w
      end
    else finish s w.

Definition fdctrl_write_data (now value : Z) (s : FDCtrl) (w : W) : result (FDCtrl * W) :=
  if negb (tst (dor s) FD_DOR_nRESET) then Ok (s, w)
  else if negb (tst (msr s) FD_MSR_RQM) || tst (msr s) FD_MSR_DIO then Ok (s, w)
  else
    let s := s <| dsr := u8 (dsr s .& ~~ FD_DSR_PWRDOWN) |> in
    if tst (msr s) FD_MSR_NONDMA then write_transfer_byte value s w
    else
      let s := if data_pos s =? 0
               then s <| data_len := parameters (command_at (aget command_to_handler (value .& 0xff))) + 1 |> else s in
      if FD_SECTOR_LEN <=? data_pos s then Crash fifo_overrun
      else
        let s := set_fifo_at (data_pos s) value s in
        let s := s <| data_pos := u32 (data_pos s + 1) |> in
        if data_pos s =? data_len s then
          if tst (data_state s) FD_STATE_FORMAT then Ok (fdctrl_format_sector s w)
          else
            let c := command_at (aget command_to_handler (fifo_at s 0 .& 0xff)) in
            Ok (run_handler (handler c) now (direction c) s w)
        else Ok (s, w).

Definition fdctrl_result_timer (s : FDCtrl) (w : W) : FDCtrl * W :=
  let s := s <| result_timer := None |> in
  let i := get_cur_drv s in
  let s := if negb (last_sect (drv i s) =? 0)
           then upd_drv i (fun d => d <| sect := u8 (sect d mod last_sect d + 1) |>) s else s in
  fdctrl_stop_transfer 0x00 0x00 0x00 s w.

(** ** Ports *)

Definition fdctrl_read (reg : Z) (s : FDCtrl) (w : W) : result (Z * (FDCtrl * W)) :=
  match reg with
  | 0 => Ok (fdctrl_read_statusA s, (s, w))
  | 1 => Ok (fdctrl_read_statusB s, (s, w))
  | 2 => Ok (fdctrl_read_dor s, (s, w))
  | 3 => Ok (fdctrl_read_tape s, (s, w))
  | 4 => Ok (fdctrl_read_main_status s w)
  | 5 => fdctrl_read_data s w
  | 7 => Ok (fdctrl_read_dir s w)
  | _ => Ok (u32 (-1), (s, w))
  end.

Definition fdctrl_write (now reg value : Z) (s : FDCtrl) (w : W) : result (FDCtrl * W) :=
  match reg with
  | 2 => Ok (fdctrl_write_dor value s w)
  | 3 => Ok (fdctrl_write_tape value s, w)
  | 4 => Ok (fdctrl_write_rate value s w)
  | 5 => fdctrl_write_data now value s w
  | _ => Ok (s, w)
  end.

Definition fdctrl_read_port (reg : Z) (s : FDCtrl) (w : W) := fdctrl_read (reg .& 7) s w.
Definition fdctrl_write_port (now reg value : Z) (s : FDCtrl) (w : W) := fdctrl_write now (reg .& 7) value s w.

(** ** Migration hooks and initialisation *)

Definition fdc_pre_save (s : FDCtrl) : FDCtrl := s <| dor_vmstate := dor s .| cur_drv s |>.
Definition fdc_post_load (s : FDCtrl) : FDCtrl :=
  s <| cur_drv := dor_vmstate s .& FD_DOR_SELMASK |> <| dor := u8 (dor_vmstate s .& ~~ FD_DOR_SELMASK) |>.

Definition fdctrl_external_reset_isa (s : FDCtrl) (w : W) : FDCtrl * W := fdctrl_reset false s w.

Definition BLOCK_ERR_REPORT : Z := 0.
Definition BLOCK_ERR_STOP_ENOSPC : Z := 2.

(** The body of the loop; [None] once an option was refused. *)
Definition connect_drive (st : option (FDCtrl * W)) (i : Z) : option (FDCtrl * W) :=
  match st with
  | None => None
  | Some (s, w) =>
      let refused := match bs (drv i s) with
                     | Some b => negb (bdrv_get_on_error b 0 w =? BLOCK_ERR_STOP_ENOSPC) || negb (bdrv_get_on_error b 1 w =? BLOCK_ERR_REPORT)
                     | None => false
                     end in
      if refused then None
      else
        let s := upd_drv i fd_init s in
        let s := upd_drv i (fun d => fd_revalidate d w) s in
        Some (s, match bs (drv i s) with Some b => bdrv_set_removable b 1 w | None => w end)
  end.
Definition fdctrl_connect_drives (s : FDCtrl) (w : W) : option (FDCtrl * W) :=
  foldl connect_drive (Some (s, w)) (seqZ 0 MAX_FD).

Definition fdctrl_init_common (s : FDCtrl) (w : W) : option (FDCtrl * W) :=
  let s := s <| fifo := replicate 512 0 |> <| fifo_size := 512 |> <| result_timer := None |> in
  let s := s <| version := 0x90 |> <| config := FD_CONFIG_EIS .| FD_CONFIG_EFIFO |> <| num_floppies := MAX_FD |> in
  fdctrl_connect_drives s w.

(** [isabus_fdc_init1]: a zeroed controller with the two drives of the board. *)
Definition isabus_fdc_init1 (bsA bsB : option Z) (w : W) : option (FDCtrl * W) :=
  let s := mkCtrl 0 2 None 0 0 0 0 0 0 0 0 0 0 0 [] 0 0 0 0 0 0 0 0 0 0 0 0 false 0
             [drive0 <| bs := bsA |>; drive0 <| bs := bsB |>] 0 in
  fdctrl_init_common s w.

End Controller.

End Fdc.
