(* ===== verification/FdcSafe.v ===== *)
(** * The floppy controller's phases and its FIFO

    The controller is in one of four phases, told by the main status register:
    command (bytes of a command are taken), result (bytes are given back), a
    transfer by the CPU, and a transfer by DMA.  The invariant bounds the FIFO
    index in each; the commands after which it can grow without bound are
    singled out. *)

From S2P Require Import Prelude Fdc.

Module FdcSafe.
Import Fdc.
#[local] Existing Instances FDrive_eta FDCtrl_eta.
#[local] Opaque command_to_handler.

(** ** Status bits *)

Lemma tst_rqm x : tst x FD_MSR_RQM = Z.testbit x 7.
Proof. apply (tst_bit x 7). lia. Qed.
Lemma tst_dio x : tst x FD_MSR_DIO = Z.testbit x 6.
Proof. apply (tst_bit x 6). lia. Qed.
Lemma tst_nondma x : tst x FD_MSR_NONDMA = Z.testbit x 5.
Proof. apply (tst_bit x 5). lia. Qed.
Lemma tst_format x : tst x FD_STATE_FORMAT = Z.testbit x 1.
Proof. apply (tst_bit x 1). lia. Qed.

(** Computes a status bit after a store of known bits. *)
Ltac msr_bits :=
  rewrite ?tst_rqm, ?tst_dio, ?tst_nondma, ?tst_format in *;
  unfold FD_MSR_CMDBUSY, FD_MSR_RQM, FD_MSR_DIO, FD_MSR_NONDMA, FD_STATE_FORMAT, FD_STATE_MULTI, FD_STATE_SEEK in *;
  autorewrite with bits; simpl;
  repeat match goal with E : Z.testbit ?x ?i = _ |- context [Z.testbit ?x ?i] => rewrite E end;
  simpl; rewrite ?andb_true_r, ?andb_false_r, ?orb_true_r, ?orb_false_r; try done.

(** ** The invariant *)

Record basic (s : FDCtrl) : Prop := {
  bs_fifo : length (fifo s) = 512%nat;
  bs_bytes : Forall (in_u 8) (fifo s);
  bs_drives : length (drives s) = 2%nat;
  bs_sun : sun4m s = false;
  bs_format : tst (data_state s) FD_STATE_FORMAT = false
}.

(** The command whose bytes are being taken. *)
Definition current (s : FDCtrl) : command := command_at (aget command_to_handler (fifo_at s 0 .& 0xff)).

(** The commands that leave the FIFO index where it is. *)
Definition open_ended (h : fd_handler) : bool :=
  match h with handle_readid | handle_drive_specification_command => true | _ => false end.

Definition command_phase (s : FDCtrl) : Prop :=
  data_pos s = 0 \/ (data_len s = parameters (current s) + 1
    /\ (0 < data_pos s < data_len s \/ (open_ended (handler (current s)) = true /\ data_len s <= data_pos s <= 512))).

Definition phase_ok (s : FDCtrl) : Prop :=
  if tst (msr s) FD_MSR_NONDMA then tst (msr s) FD_MSR_RQM = true /\ 0 <= data_pos s < 2 ^ 32
  else if negb (tst (msr s) FD_MSR_RQM) then data_pos s = 0 /\ 0 <= data_len s
  else if tst (msr s) FD_MSR_DIO then 0 <= data_pos s < data_len s /\ data_len s <= 15
  else command_phase s.

Definition fdc_ok (s : FDCtrl) : Prop := basic s /\ phase_ok s.

Lemma command_parameters j : 0 <= parameters (command_at j) <= 17.
Proof.
  assert (Forall (fun c => 0 <= parameters c <= 17) handlers) as F by (repeat constructor; cbn; lia).
  unfold command_at. destruct (nth_in_or_default (Z.to_nat j) handlers command0) as [Hin | ->]; [|cbn; lia].
  rewrite Stdlib.Lists.List.Forall_forall in F. now apply F.
Qed.

Section Safe.
Context {W : Type} {H : FdcHost W}.

(** What the host promises: a sector has 512 bytes, and DMA fills the buffer. *)
Class FdcLaws := {
  bdrv_read_len : forall b k w l, bdrv_read b k w = Some l -> length l = 512%nat /\ Forall (in_u 8) l;
  DMA_read_len : forall c p n w, 0 <= n -> length (DMA_read_memory c p n w) = Z.to_nat n /\ Forall (in_u 8) (DMA_read_memory c p n w)
}.
Context {L : FdcLaws}.

(** ** Fields an operation leaves alone *)

Lemma basic_same s s' : basic s -> fifo s' = fifo s -> drives s' = drives s -> sun4m s' = sun4m s -> data_state s' = data_state s -> basic s'.
Proof. intros [B1 B1' B2 B3 B4] E1 E2 E3 E4. constructor; congruence. Qed.

Lemma basic_set i v s : basic s -> basic (set_fifo_at i v s).
Proof.
  intros [B1 B1' B2 B3 B4]. constructor; cbn [set_fifo_at over fifo drives sun4m data_state]; [now rewrite length_aset| |done|done|done].
  apply aset_Forall; [apply u8_range|done].
Qed.

Lemma basic_put l s : basic s -> basic (put l s).
Proof. unfold put. revert s. induction l as [|p l IH]; intros s B; [done|]. cbn [foldl]. now apply IH, basic_set. Qed.

Lemma basic_drv i f s : basic s -> basic (upd_drv i f s).
Proof. intros [B1 B1' B2 B3 B4]. constructor; cbn [upd_drv over fifo drives sun4m data_state]; [done|done|now rewrite length_insert|done|done]. Qed.

Lemma put_fields l s : msr (put l s) = msr s /\ data_pos (put l s) = data_pos s /\ data_len (put l s) = data_len s.
Proof. unfold put. revert s. induction l as [|p l IH]; intros s; [done|]. cbn [foldl]. apply (IH (set_fifo_at p.1 p.2 s)). Qed.

(** ** The building blocks *)

(** The result phase. *)
Record in_result (s : FDCtrl) : Prop := {
  ir_basic : basic s;
  ir_dma : tst (msr s) FD_MSR_NONDMA = false;
  ir_rqm : tst (msr s) FD_MSR_RQM = true;
  ir_dio : tst (msr s) FD_MSR_DIO = true;
  ir_pos : 0 <= data_pos s < data_len s /\ data_len s <= 15
}.

Lemma in_result_ok s : in_result s -> fdc_ok s.
Proof. intros [B N R D P]. split; [done|]. unfold phase_ok. now rewrite N, R, D. Qed.

(** The command phase before the first byte. *)
Record idle (s : FDCtrl) : Prop := {
  id_basic : basic s;
  id_dma : tst (msr s) FD_MSR_NONDMA = false;
  id_rqm : tst (msr s) FD_MSR_RQM = true;
  id_dio : tst (msr s) FD_MSR_DIO = false;
  id_pos : data_pos s = 0
}.

Lemma idle_ok s : idle s -> fdc_ok s.
Proof. intros [B N R D P]. split; [done|]. unfold phase_ok. rewrite N, R, D. now left. Qed.

Lemma raise_irq_same st0 s w : sun4m s = false ->
  let s' := (fdctrl_raise_irq st0 s w).1 in
  (fifo s' = fifo s /\ drives s' = drives s /\ sun4m s' = sun4m s /\ data_state s' = data_state s)
  /\ msr s' = msr s /\ data_pos s' = data_pos s /\ data_len s' = data_len s.
Proof. intros E. unfold fdctrl_raise_irq. rewrite E. cbn [andb]. destruct (negb _); auto 10. Qed.

Lemma reset_irq_same s w :
  let s' := (fdctrl_reset_irq s w).1 in
  (fifo s' = fifo s /\ drives s' = drives s /\ sun4m s' = sun4m s /\ data_state s' = data_state s)
  /\ msr s' = msr s /\ data_pos s' = data_pos s /\ data_len s' = data_len s.
Proof. unfold fdctrl_reset_irq. destruct (negb _); auto 10. Qed.

(** Anything said in terms of these fields carries over. *)
Lemma in_result_same s s' : in_result s -> basic s' -> msr s' = msr s -> data_pos s' = data_pos s -> data_len s' = data_len s -> in_result s'.
Proof. intros [B N R D P] B' E1 E2 E3. constructor; congruence || (rewrite E2, E3; exact P). Qed.

Lemma idle_same s s' : idle s -> basic s' -> msr s' = msr s -> data_pos s' = data_pos s -> idle s'.
Proof. intros [B N R D P] B' E1 E2. constructor; congruence. Qed.

Lemma raise_irq_result st0 s w : in_result s -> in_result (fdctrl_raise_irq st0 s w).1.
Proof.
  intros R. destruct (raise_irq_same st0 s w (bs_sun _ (ir_basic _ R))) as ((E1 & E2 & E3 & E4) & E5 & E6 & E7).
  apply (in_result_same s); try done. now apply (basic_same s _ (ir_basic _ R)).
Qed.

Lemma raise_irq_idle st0 s w : idle s -> idle (fdctrl_raise_irq st0 s w).1.
Proof.
  intros R. destruct (raise_irq_same st0 s w (bs_sun _ (id_basic _ R))) as ((E1 & E2 & E3 & E4) & E5 & E6 & E7).
  apply (idle_same s); try done. now apply (basic_same s _ (id_basic _ R)).
Qed.

Lemma set_fifo_result n irq s w : basic s -> tst (msr s) FD_MSR_NONDMA = false -> 1 <= n <= 15 -> in_result (fdctrl_set_fifo n irq s w).1.
Proof.
  intros B N Hn. unfold fdctrl_set_fifo. cbv zeta.
  match goal with |- context [fdctrl_raise_irq _ ?x _] => assert (in_result x) as O end; [|destruct irq; [now apply raise_irq_result|exact O]].
  constructor; cbn [over msr data_pos data_len]; [now apply (basic_same s)|msr_bits|msr_bits|msr_bits|lia].
Qed.

Lemma reset_fifo_idle s : basic s -> tst (msr s) FD_MSR_NONDMA = false -> tst (msr s) FD_MSR_RQM = true -> idle (fdctrl_reset_fifo s).
Proof.
  intros B N R. unfold fdctrl_reset_fifo. constructor; cbn [over msr data_pos data_len]; [now apply (basic_same s)|msr_bits|msr_bits|msr_bits|done].
Qed.

Lemma stop_transfer_result st0 st1 st2 s w : basic s -> in_result (fdctrl_stop_transfer st0 st1 st2 s w).1.
Proof.
  intros B. unfold fdctrl_stop_transfer. cbv zeta.
  match goal with |- context [put ?l s] => pose proof (basic_put l s B) as Bp; generalize dependent (put l s) end. intros x Bx.
  apply set_fifo_result; [now apply (basic_same x)|cbn [over msr]; msr_bits|lia].
Qed.

Lemma seek_failed_result st1 kt kh ks s w : basic s -> in_result (seek_failed st1 kt kh ks s w).1.
Proof.
  intros B. unfold seek_failed. destruct (fdctrl_stop_transfer _ _ _ s w) as [s' w'] eqn:E.
  pose proof (stop_transfer_result FD_SR0_ABNTERM st1 0 s w B) as O. rewrite E in O. cbn [fst] in *.
  destruct (put_fields [(3, kt); (4, kh); (5, ks)] s') as (E1 & E2 & E3).
  apply (in_result_same s'); try done. apply basic_put, O.
Qed.

(** ** Commands *)

Lemma basic_state x s : basic s -> tst x FD_STATE_FORMAT = false -> basic (s <| data_state := x |>).
Proof. intros [B1 B1' B2 B3 B4] E. constructor; done. Qed.

Ltac basics :=
  cbv beta zeta; cbn [fst snd];
  repeat lazymatch goal with
  | |- basic (put _ _) => apply basic_put
  | |- basic (set_fifo_at _ _ _) => apply basic_set
  | |- basic (upd_drv _ _ _) => apply basic_drv
  | |- basic (SET_CUR_DRV ?x) => unfold SET_CUR_DRV
  | |- basic (@over _ _ data_state _ _ ?x) => apply basic_state; [|reflexivity]
  | |- basic (@over _ _ _ _ _ ?x) => cut (basic x); [generalize x; intros y By; apply (basic_same y); [exact By|reflexivity..]|]
  | |- basic _ => assumption
  end.

(** Reduces the status register to that of the state the handler was given. *)
Ltac same_msr :=
  unfold SET_CUR_DRV, upd_drv, set_fifo_at; rewrite ?(proj1 (put_fields _ _));
  cbn [over msr]; assumption.

Lemma fdctrl_set_fifo_ok n irq s w : basic s -> tst (msr s) FD_MSR_NONDMA = false -> 1 <= n <= 15 -> fdc_ok (fdctrl_set_fifo n irq s w).1.
Proof. intros. apply in_result_ok. now apply set_fifo_result. Qed.

Lemma reset_raise_ok st0 s w : basic s -> tst (msr s) FD_MSR_NONDMA = false -> tst (msr s) FD_MSR_RQM = true ->
  fdc_ok (fdctrl_raise_irq st0 (fdctrl_reset_fifo s) w).1.
Proof. intros. apply idle_ok, raise_irq_idle. now apply reset_fifo_idle. Qed.

(** The state after a successful seek, with the parameters of the transfer. *)
Lemma basic_transfer dir c1 c2 m s1 : basic s1 ->
  basic (s1 <| data_dir := dir |> <| data_pos := 0 |> <| msr := m |>
            <| data_state := set_or_clear c2 FD_STATE_SEEK (set_or_clear c1 FD_STATE_MULTI (data_state s1)) |>).
Proof.
  intros B1. apply basic_state; [basics|]. pose proof (bs_format _ B1) as E. unfold set_or_clear. destruct c1, c2; msr_bits.
Qed.

Lemma transfer_len_nonneg s1 ks : basic s1 -> 0 <= transfer_len s1 ks.
Proof.
  intros B1. unfold transfer_len. destruct (_ =? 0); [|apply Z.mod_pos_bound; lia].
  unfold fifo_at. assert (in_u 8 (aget (fifo s1) 8)) as [? _]; [|done]. apply aget_Forall; [split; lia|apply B1].
Qed.

Section Handlers.
Variable s : FDCtrl.
Hypothesis (B : basic s) (N : tst (msr s) FD_MSR_NONDMA = false) (R : tst (msr s) FD_MSR_RQM = true) (D : tst (msr s) FD_MSR_DIO = false).

Lemma result_handlers (w : W) :
  fdc_ok (fdctrl_unimplemented s w).1 /\ fdc_ok (fdctrl_handle_lock s w).1 /\ fdc_ok (fdctrl_handle_dumpreg s w).1
  /\ fdc_ok (fdctrl_handle_version s w).1 /\ fdc_ok (fdctrl_handle_partid s w).1 /\ fdc_ok (fdctrl_handle_save s w).1
  /\ fdc_ok (fdctrl_handle_sense_drive_status s w).1 /\ fdc_ok (fdctrl_handle_powerdown_mode s w).1.
Proof. split_and!; (apply fdctrl_set_fifo_ok; [basics|same_msr|lia]). Qed.

Lemma reset_handlers (w : W) :
  fdc_ok (fdctrl_handle_restore s w).1 /\ fdc_ok (fdctrl_handle_specify s w).1 /\ fdc_ok (fdctrl_handle_perpendicular_mode s w).1
  /\ fdc_ok (fdctrl_handle_configure s w).1 /\ fdc_ok (fdctrl_handle_option s w).1.
Proof.
  split_and!; apply idle_ok; try (apply reset_fifo_idle; [basics|same_msr..]; fail).
  unfold fdctrl_handle_perpendicular_mode. destruct (tst (fifo_at s 1) 0x80); (apply reset_fifo_idle; [basics|same_msr..]).
Qed.

Lemma seek_handlers (w : W) :
  fdc_ok (fdctrl_handle_recalibrate s w).1 /\ fdc_ok (fdctrl_handle_seek s w).1
  /\ fdc_ok (fdctrl_handle_relative_seek_out s w).1 /\ fdc_ok (fdctrl_handle_relative_seek_in s w).1.
Proof.
  split_and!; [apply reset_raise_ok; [basics|same_msr..]| |apply reset_raise_ok; [basics|same_msr..]|apply reset_raise_ok; [basics|same_msr..]].
  unfold fdctrl_handle_seek. cbv zeta. assert (idle (fdctrl_reset_fifo (SET_CUR_DRV s))) as I by (apply reset_fifo_idle; [basics|same_msr..]).
  destruct (_ <? _); apply idle_ok, raise_irq_idle; [done|]. apply (idle_same _ _ I); [|reflexivity..]. apply basic_drv, I.
Qed.

Lemma format_ok (w : W) : fdc_ok (fdctrl_handle_format_track s w).1.
Proof.
  apply in_result_ok, stop_transfer_result. cbv zeta. constructor; [apply B|apply B| |apply B|cbn [over data_state]; msr_bits].
  cbn [over upd_drv drives]. rewrite length_insert. apply B.
Qed.

Lemma sense_interrupt_ok (w : W) : fdc_ok (fdctrl_handle_sense_interrupt_status s w).1.
Proof.
  unfold fdctrl_handle_sense_interrupt_status. cbv zeta.
  set (s1 := if 0 <? reset_sensei s then _ else _).
  assert (basic s1 /\ msr s1 = msr s) as [B1 E1] by (unfold s1; destruct (0 <? _); split; [basics|done|basics|done]).
  pose proof (set_fifo_result 2 false (set_fifo_at 1 (track (drv (get_cur_drv s) s)) s1) w) as O.
  destruct (fdctrl_set_fifo _ _ _ w) as [s2 w2]. destruct (reset_irq_same s2 w2) as ((F1 & F2 & F3 & F4) & F5 & F6 & F7).
  destruct (fdctrl_reset_irq s2 w2) as [s3 w3]. cbn [fst] in *. apply in_result_ok.
  assert (in_result s2) as I2 by (apply O; [basics|cbn; now rewrite E1|lia]).
  apply (in_result_same s2); try done. apply (basic_same s2); try done. apply I2.
Qed.

(** A transfer starts in the DMA phase or the CPU phase, or fails. *)
Lemma start_transfer_ok dir (w : W) : fdc_ok (fdctrl_start_transfer dir s w).1.
Proof.
  unfold fdctrl_start_transfer. cbv zeta. destruct (fd_seek _ _ _ _) as [ret d]. set (s1 := upd_drv _ _ _).
  assert (basic s1) as B1 by (unfold s1; basics). assert (msr s1 = msr s) as E1 by done. clearbody s1.
  destruct (ret =? 2); [now apply in_result_ok, seek_failed_result|]. destruct (ret =? 3); [now apply in_result_ok, seek_failed_result|].
  destruct (ret =? 4); [now apply in_result_ok, seek_failed_result|].
  pose proof (basic_transfer dir (tst (fifo_at s1 0) 0x80) (ret =? 1) (u8 (msr s1 .| FD_MSR_CMDBUSY)) s1 B1) as B2.
  match goal with |- fdc_ok (fst (if _ then (?x, _) else fdctrl_raise_irq _ ?y _)) => set (sd := x); set (sn := y) end.
  assert (msr sd = u8 (u8 (msr s1 .| FD_MSR_CMDBUSY) .& ~~ FD_MSR_RQM) /\ data_pos sd = 0) as [Ed1 Ed2] by done.
  assert (0 <= data_len sd) as Ed3 by (exact (transfer_len_nonneg _ _ B2)).
  rewrite <- E1 in R, N, D.
  assert (exists m, msr sn = m /\ tst m FD_MSR_NONDMA = true /\ tst m FD_MSR_RQM = true /\ data_pos sn = 0) as (m & En1 & En2 & Er & En3).
  { unfold sn. destruct (negb (dir =? FD_DIR_WRITE)); (eexists; split; [reflexivity|]; split; [cbn [over msr]; msr_bits|]; split; [cbn [over msr]; msr_bits|reflexivity]). }
  assert (basic sd) as Bd by (apply (basic_same _ _ B2); reflexivity).
  assert (basic sn) as Bn by (unfold sn; destruct (negb (dir =? FD_DIR_WRITE)); apply (basic_same _ _ B2); reflexivity).
  clearbody sd sn. destruct (_ && _); cbn [fst].
  - split; [done|]. unfold phase_ok. rewrite Ed1, Ed2.
    replace (tst _ FD_MSR_NONDMA) with false by (symmetry; msr_bits). replace (tst _ FD_MSR_RQM) with false by (symmetry; msr_bits). done.
  - destruct (raise_irq_same 0 sn w (bs_sun _ Bn)) as ((F1 & F2 & F3 & F4) & F5 & F6 & F7). split; [now apply (basic_same sn)|].
    unfold phase_ok. rewrite F5, En1, En2, F6, En3. split; [done|lia].
Qed.

Lemma open_ended_ok s' : basic s' -> msr s' = msr s -> current s' = current s -> data_pos s' = data_pos s -> data_len s' = data_len s ->
  data_pos s = parameters (current s) + 1 -> data_len s = data_pos s -> open_ended (handler (current s)) = true -> fdc_ok s'.
Proof.
  intros B' E1 E2 E3 E4 Hp Hl Ho. split; [done|]. unfold phase_ok. rewrite E1, N, R, D. cbn [negb]. right. rewrite E2, E3, E4.
  pose proof (command_parameters (aget command_to_handler (fifo_at s 0 .& 0xff))). fold (current s) in *. split; [lia|]. right. split; [done|]. lia.
Qed.

(** Every command, once its last parameter is in, leads to a phase in order. *)
Lemma run_handler_ok now dir (w : W) : data_pos s = parameters (current s) + 1 -> data_len s = data_pos s ->
  fdc_ok (run_handler (handler (current s)) now dir s w).1.
Proof.
  intros Hp Hl. destruct (result_handlers w) as (A1 & A2 & A3 & A4 & A5 & A6 & A7 & A8).
  destruct (reset_handlers w) as (C1 & C2 & C3 & C4 & C5). destruct (seek_handlers w) as (S1 & S2 & S3 & S4).
  pose proof (format_ok w) as F1. pose proof (sense_interrupt_ok w) as F2. pose proof (start_transfer_ok dir w) as F3.
  assert (open_ended (handler (current s)) = true -> fdc_ok s) as Hs by (intros Ho; apply open_ended_ok; [exact B|reflexivity..|exact Hp|exact Hl|exact Ho]).
  destruct (handler (current s)) eqn:Eh; cbn [run_handler];
    [exact F3| |exact A1|exact S2|exact F2|exact S1|exact F1|exact C1|exact A6| |exact C2|exact A7|exact C3|exact C4|exact A8
    |exact C5| |exact S3|exact S4|exact A2|exact A3|exact A4|exact A5].
  - now apply in_result_ok, stop_transfer_result.
  - apply open_ended_ok; [|reflexivity..|exact Hp|exact Hl|now rewrite Eh]. unfold fdctrl_handle_readid. cbn [fst]. basics.
  - unfold fdctrl_handle_drive_specification_command. cbv zeta. destruct (tst _ 0x80).
    + destruct (tst _ 0x40); [apply fdctrl_set_fifo_ok; [basics|same_msr|lia]|now apply idle_ok, reset_fifo_idle].
    + destruct (7 <? _); [apply fdctrl_set_fifo_ok; [basics|same_msr|lia]|now apply Hs].
Qed.

End Handlers.

(** ** The data register *)

Lemma seek_next_same i s : let s' := (fdctrl_seek_to_next_sect i s).2 in
  (basic s -> basic s') /\ msr s' = msr s /\ data_pos s' = data_pos s /\ data_len s' = data_len s.
Proof.
  unfold fdctrl_seek_to_next_sect. cbv zeta. repeat match goal with |- context [if ?b then _ else _] => destruct b end;
    (split; [apply basic_drv|]; split; [reflexivity|]; split; reflexivity).
Qed.

(** A transfer by the CPU stays one, or ends in the result phase. *)
Lemma transfer_phase s : basic s -> tst (msr s) FD_MSR_NONDMA = true -> tst (msr s) FD_MSR_RQM = true -> 0 <= data_pos s < 2 ^ 32 -> fdc_ok s.
Proof. intros B N R P. split; [done|]. unfold phase_ok. now rewrite N, R. Qed.

(** What a crash can be: the FIFO index ran away after one of the two open-ended
    commands or in a transfer of more than 2^31 bytes by the CPU, or such a
    transfer is on the selected drive, one of the two, and it has no block device. *)
Definition crash_reason (s : FDCtrl) (c : crash) : Prop :=
  match c with
  | fifo_overrun =>
      (tst (msr s) FD_MSR_NONDMA = false /\ data_pos s = 512 /\ open_ended (handler (current s)) = true)
      \/ (tst (msr s) FD_MSR_NONDMA = true /\ 2 ^ 31 < data_pos s)
  | null_bs => tst (msr s) FD_MSR_NONDMA = true /\ (get_cur_drv s = 0 \/ get_cur_drv s = 1) /\ bs (drv (get_cur_drv s) s) = None
  | no_fuel => False
  end.

Definition safe (s : FDCtrl) {A} (get : A -> FDCtrl) (r : result A) : Prop :=
  match r with Ok a => fdc_ok (get a) | Crash c => crash_reason s c end.

Lemma rem_pos x : 0 <= x < 2 ^ 32 -> Z.rem (s32 x) FD_SECTOR_LEN < 0 -> 2 ^ 31 < x.
Proof.
  intros Hx Hr. destruct (Z.lt_ge_cases (2 ^ 31) x) as [|Hle]; [done|]. exfalso. destruct (Z.eq_dec x (2 ^ 31)) as [->|Hne]; [vm_compute in Hr; discriminate|].
  rewrite s32_id in Hr by lia. assert (0 <= Z.rem x FD_SECTOR_LEN) by (apply Z.rem_nonneg; [done|lia]). lia.
Qed.

Lemma u32_bounds x : 0 <= u32 x < 2 ^ 32.
Proof. unfold u32. apply Z.mod_pos_bound. lia. Qed.

Lemma read_sector_basic b i s w : basic s -> basic (read_sector b i s w).
Proof.
  intros [B1 B1' B2 B3 B4]. unfold read_sector. constructor; try done; cbn [over fifo];
    destruct (bdrv_read b _ w) as [l|] eqn:E; try apply (bdrv_read_len _ _ _ _ E); [apply length_replicate|now apply Forall_replicate].
Qed.

Lemma reset_irq_idle s w : idle s -> idle (fdctrl_reset_irq s w).1.
Proof.
  intros R. destruct (reset_irq_same s w) as ((E1 & E2 & E3 & E4) & E5 & E6 & E7).
  apply (idle_same s); try done. now apply (basic_same s _ (id_basic _ R)).
Qed.

Lemma advance_transfer s w : basic s -> tst (msr s) FD_MSR_NONDMA = true -> tst (msr s) FD_MSR_RQM = true -> fdc_ok (advance_read s w).1.
Proof.
  intros B N R. unfold advance_read. cbv zeta. cbn [over msr]. rewrite N. destruct (_ =? _); [apply in_result_ok, stop_transfer_result; basics|].
  apply transfer_phase; [basics|exact N|exact R|apply u32_bounds].
Qed.

Lemma advance_result s w : in_result s -> fdc_ok (advance_read s w).1.
Proof.
  intros [B N R D [P1 P2]]. unfold advance_read. cbv zeta. cbn [over msr]. rewrite N.
  assert (u32 (data_pos s + 1) = data_pos s + 1) as E by (apply u32_id; unfold in_u; lia).
  cbn [over data_pos data_len]. rewrite E. destruct (Z.eqb_spec (data_pos s + 1) (data_len s)).
  - apply idle_ok, reset_irq_idle, reset_fifo_idle; [basics|exact N|exact R].
  - apply in_result_ok. constructor; [basics|exact N|exact R|exact D|cbn [fst over data_pos data_len]; lia].
Qed.

Lemma drv_upd_bs i f s : bs (f (drv i s)) = bs (drv i s) -> bs (drv i (upd_drv i f s)) = bs (drv i s).
Proof.
  intros E. unfold upd_drv, drv at 1. cbn [over drives]. rewrite nth_lookup.
  destruct (decide (Z.to_nat i < length (drives s))%nat) as [Hl|Hl].
  - now rewrite list_lookup_insert_eq by done.
  - rewrite list_insert_ge by lia. now rewrite <- nth_lookup.
Qed.

Lemma seek_next_bs i s : bs (drv i (fdctrl_seek_to_next_sect i s).2) = bs (drv i s).
Proof.
  unfold fdctrl_seek_to_next_sect. cbv zeta. repeat match goal with |- context [if ?b then _ else _] => destruct b end; now apply drv_upd_bs.
Qed.

Lemma cur_drv_range s : get_cur_drv s = 0 \/ get_cur_drv s = 1.
Proof.
  unfold get_cur_drv, drv0, drv1. destruct (_ =? _); [|destruct (_ <? _); auto]. rewrite Z.shiftr_land. change (FD_TDR_BOOTSEL >> 2) with (Z.ones 1).
  rewrite Z.land_ones by lia. change (2 ^ 1) with 2. pose proof (Z.mod_pos_bound (tdr s >> 2) 2). lia.
Qed.

Lemma read_data_safe s w : fdc_ok s -> safe s (fun r => r.2.1) (fdctrl_read_data s w).
Proof.
  intros [B P]. unfold fdctrl_read_data. cbv zeta. set (i := get_cur_drv s). set (s1 := s <| dsr := _ |>). set (j := get_cur_drv s1). assert (j = i) as Ej by reflexivity.
  assert (basic s1) as B1 by (unfold s1; basics). assert (phase_ok s1) as P1 by exact P.
  assert (forall c, crash_reason s1 c -> crash_reason s c) as HC by (intros []; exact id).
  clearbody i. clearbody s1. clear B P. unfold safe. destruct (tst (msr s1) FD_MSR_RQM) eqn:R; cbn [negb orb]; [|now split].
  destruct (tst (msr s1) FD_MSR_DIO) eqn:D; cbn [negb orb]; [|now split].
  destruct (tst (msr s1) FD_MSR_NONDMA) eqn:N; unfold phase_ok in P1; rewrite N, ?R, ?D in P1; cbn [negb] in P1.
  - destruct (Z.eqb_spec (Z.rem (s32 (data_pos s1)) FD_SECTOR_LEN) 0) as [E0|E0].
    + set (r := if negb (data_pos s1 =? 0) then _ else _).
      assert (basic r.2 /\ msr r.2 = msr s1 /\ data_pos r.2 = data_pos s1 /\ bs (drv i r.2) = bs (drv i s1)) as (Br & Em & Ep & Eb).
      { unfold r. destruct (negb _); [|done]. destruct (seek_next_same i s1) as (Q1 & Q2 & Q3 & _). pose proof (seek_next_bs i s1). auto. }
      clearbody r. destruct r as [more s2]. cbn [snd] in *. destruct more; cbn [negb].
      * destruct (bs (drv i s2)) as [b|] eqn:E2.
        -- apply advance_transfer; [now apply read_sector_basic|cbn [read_sector over msr]; congruence..].
        -- apply HC. split; [done|]. split; [apply cur_drv_range|]. fold j. rewrite Ej. congruence.
      * apply transfer_phase; [done|cbn [fst snd]; congruence..|cbn [fst snd]; now rewrite Ep].
    + destruct (Z.ltb_spec (Z.rem (s32 (data_pos s1)) FD_SECTOR_LEN) 0); [|now apply advance_transfer].
      apply HC. right. split; [done|]. apply rem_pos; [apply P1|done].
  - destruct (Z.leb_spec FD_SECTOR_LEN (data_pos s1)); [unfold FD_SECTOR_LEN in *; lia|]. now apply advance_result.
Qed.

Lemma write_finish s0 s w : basic s -> tst (msr s) FD_MSR_NONDMA = true -> tst (msr s) FD_MSR_RQM = true -> 0 <= data_pos s < 2 ^ 32 ->
  safe s0 fst (if data_pos s =? data_len s then Ok (fdctrl_stop_transfer FD_SR0_SEEK 0 0 s w) else Ok (s, w)).
Proof. intros B N R P. destruct (_ =? _); [now apply in_result_ok, stop_transfer_result|now apply transfer_phase]. Qed.

Lemma write_byte_safe v s w : basic s -> tst (msr s) FD_MSR_NONDMA = true -> tst (msr s) FD_MSR_RQM = true -> 0 <= data_pos s < 2 ^ 32 ->
  safe s fst (write_transfer_byte v s w).
Proof.
  intros B N R P. unfold write_transfer_byte. cbv zeta. destruct (Z.ltb_spec (Z.rem (s32 (data_pos s)) FD_SECTOR_LEN) 0) as [Hn|_].
  { right. split; [done|]. now apply rem_pos. }
  set (s1 := set_fifo_at _ v _). assert (basic s1) as B1 by (unfold s1; basics).
  assert (tst (msr s1) FD_MSR_NONDMA = true /\ tst (msr s1) FD_MSR_RQM = true /\ 0 <= data_pos s1 < 2 ^ 32 /\ drives s1 = drives s /\ get_cur_drv s1 = get_cur_drv s) as (N1 & R1 & P1 & Ed & Ei)
    by (split; [done|]; split; [done|]; split; [apply u32_bounds|done]).
  clearbody s1. destruct (_ || _); [|now apply write_finish].
  destruct (bs (drv (get_cur_drv s1) s1)) as [b|] eqn:Eb; [|split; [done|]; split; [apply cur_drv_range|]; rewrite <- Ei, <- Eb; unfold drv; now rewrite Ed].
  destruct (bdrv_write b _ _ w) as [[] w2]; cbn [negb]; [|now apply transfer_phase].
  destruct (seek_next_same (get_cur_drv s1) s1) as (Q1 & Q2 & Q3 & _).
  destruct (fdctrl_seek_to_next_sect (get_cur_drv s1) s1) as [[] s2]; cbn [snd negb] in *; rewrite <- Q2 in N1, R1; rewrite <- Q3 in P1;
    [apply write_finish; auto|apply transfer_phase; auto].
Qed.

(** ** Commands byte by byte *)

Lemma table_u8 v : u8 v .& 0xff = v .& 0xff.
Proof. unfold u8. rewrite !(land_ones_mod _ 8) by (lia || reflexivity). change (2 ^ 8) with 256. now rewrite Z.mod_mod by lia. Qed.

Lemma fifo_set_eq i v s : basic s -> 0 <= i < 512 -> fifo_at (set_fifo_at i v s) i = u8 v.
Proof. intros B Hi. unfold fifo_at, set_fifo_at. cbn [over fifo]. apply aget_aset_eq. rewrite (bs_fifo _ B). lia. Qed.

Lemma fifo_set_ne i j v s : 0 <= i -> 0 <= j -> i <> j -> fifo_at (set_fifo_at i v s) j = fifo_at s j.
Proof. intros. unfold fifo_at, set_fifo_at. cbn [over fifo]. now apply aget_aset_ne. Qed.

(** A byte stored in the command phase: the length and the command it belongs to. *)
Lemma command_byte v s : basic s -> command_phase s -> data_pos s < 512 ->
  let s1 := if data_pos s =? 0 then s <| data_len := parameters (command_at (aget command_to_handler (v .& 0xff))) + 1 |> else s in
  let s1' := set_fifo_at (data_pos s1) v s1 in
  let s2 := s1' <| data_pos := u32 (data_pos s1' + 1) |> in
  basic s2 /\ msr s2 = msr s /\ data_pos s2 = data_pos s + 1 /\ data_len s2 = parameters (current s2) + 1
  /\ (data_pos s2 <= data_len s2 \/ (open_ended (handler (current s2)) = true /\ data_len s2 < data_pos s2)).
Proof.
  intros B P Hp s1 s1' s2. pose proof (command_parameters (aget command_to_handler (fifo_at s 0 .& 0xff))) as Hc. fold (current s) in Hc.
  assert (0 <= data_pos s) as Hp0 by (unfold command_phase in P; lia).
  assert (basic s1 /\ msr s1 = msr s /\ data_pos s1 = data_pos s) as (B1 & E1 & E2) by (unfold s1; destruct (_ =? 0); (split; [basics|]; split; done)).
  assert (basic s2) as B2 by (unfold s2, s1'; basics). assert (data_pos s2 = data_pos s + 1) as Ep.
  { change (data_pos s2) with (u32 (data_pos s1 + 1)). rewrite E2. apply u32_id. unfold in_u. lia. }
  split; [done|]. split; [exact E1|]. split; [done|]. rewrite Ep.
  assert (fifo_at s2 0 = if data_pos s =? 0 then u8 v else fifo_at s 0) as Ef.
  { change (fifo_at (set_fifo_at (data_pos s1) v s1) 0 = if data_pos s =? 0 then u8 v else fifo_at s 0). rewrite E2.
    destruct (Z.eqb_spec (data_pos s) 0) as [->|Hne]; [apply fifo_set_eq; [done|lia]|]. rewrite fifo_set_ne by lia.
    unfold s1. destruct (Z.eqb_spec (data_pos s) 0); [done|reflexivity]. }
  assert (data_len s2 = data_len s1) as -> by done. unfold current. rewrite Ef. unfold s1. destruct (Z.eqb_spec (data_pos s) 0) as [E0|E0].
  - rewrite table_u8. cbn [over data_len]. split; [reflexivity|]. left. pose proof (command_parameters (aget command_to_handler (v .& 0xff))). lia.
  - destruct P as [P | [P1 P2]]; [done|]. split; [exact P1|]. fold (current s). destruct P2 as [P2 | [P2 P3]]; [left; lia|right; split; [done|lia]].
Qed.

Lemma write_data_safe now v s w : fdc_ok s -> safe s fst (fdctrl_write_data now v s w).
Proof.
  intros [B P]. unfold fdctrl_write_data. cbv zeta. destruct (negb (tst (dor s) _)); [now split|].
  destruct (tst (msr s) FD_MSR_RQM) eqn:R; cbn [negb orb]; [|now split]. destruct (tst (msr s) FD_MSR_DIO) eqn:D; cbn [negb orb]; [now split|].
  set (s1 := s <| dsr := _ |>). assert (basic s1) as B1 by (unfold s1; basics).
  change (safe s fst) with (safe s1 fst (A := FDCtrl * W)). assert (tst (msr s1) FD_MSR_RQM = true /\ tst (msr s1) FD_MSR_DIO = false) as [R1 D1] by done.
  assert (phase_ok s1) as P1 by exact P. clearbody s1. clear B P R D.
  destruct (tst (msr s1) FD_MSR_NONDMA) eqn:N; unfold phase_ok in P1; rewrite N, ?R1, ?D1 in P1; cbn [negb] in P1; [apply write_byte_safe; [done|done|done|apply P1]|].
  assert (0 <= data_pos s1 <= 512) as Hp by (pose proof (command_parameters (aget command_to_handler (fifo_at s1 0 .& 0xff))) as Hc; unfold command_phase, current in P1; lia).
  pose proof (command_byte v s1 B1 P1) as HB. cbv zeta in HB.
  set (s2 := if data_pos s1 =? 0 then _ else _) in *. assert (data_pos s2 = data_pos s1) as Es2 by (unfold s2; now destruct (_ =? 0)).
  destruct (Z.leb_spec FD_SECTOR_LEN (data_pos s2)) as [Ho|Ho]; rewrite Es2 in Ho; unfold FD_SECTOR_LEN in Ho.
  { left. split; [done|]. split; [lia|]. destruct P1 as [P1 | [P1 [P2 | P2]]]; [lia| |apply P2].
    pose proof (command_parameters (aget command_to_handler (fifo_at s1 0 .& 0xff))). unfold current in *. lia. }
  specialize (HB Ho). set (s3 := (set_fifo_at (data_pos s2) v s2) <| data_pos := _ |>) in *. clearbody s3.
  destruct HB as (B3 & E1 & E2 & E3 & E4). rewrite <- E1 in N, R1, D1.
  destruct (Z.eqb_spec (data_pos s3) (data_len s3)) as [Eq|Ne].
  - rewrite (bs_format _ B3). fold (current s3). unfold safe. exact (run_handler_ok s3 B3 N R1 D1 now _ w (eq_trans Eq E3) (eq_sym Eq)).
  - split; [exact B3|]. unfold phase_ok. cbn [fst]. rewrite N, R1, D1. right. split; [exact E3|]. destruct E4 as [E4 | [E4 E5]]; [left; lia|right; split; [done|lia]].
Qed.

(** ** Transfers by DMA *)

Lemma length_overlay f pos buf : 0 <= pos -> (Z.to_nat pos + length buf <= length f)%nat -> length (overlay f pos buf) = length f.
Proof. intros. unfold overlay. rewrite !length_app, length_take, length_drop. lia. Qed.

(** Where the loop is: at the start of a sector, with the turns it needs, or done. *)
Definition loop_at (n : nat) (dma_len : Z) (s : FDCtrl) : Prop :=
  0 <= data_pos s <= dma_len
  /\ (data_pos s = dma_len /\ (1 <= n)%nat
      \/ data_pos s mod FD_SECTOR_LEN = 0 /\ (dma_len - data_pos s) / FD_SECTOR_LEN + 2 <= Z.of_nat n).

Definition chunk (dma_len pos : Z) : Z :=
  if FD_SECTOR_LEN <? dma_len - pos + pos mod FD_SECTOR_LEN then FD_SECTOR_LEN - pos mod FD_SECTOR_LEN else dma_len - pos.

Lemma chunk_next n dma_len s s' : dma_len < 2 ^ 31 -> loop_at (S n) dma_len s -> data_pos s < dma_len ->
  data_pos s' = u32 (data_pos s + chunk dma_len (data_pos s)) ->
  loop_at n dma_len s' /\ 0 < chunk dma_len (data_pos s) /\ data_pos s mod FD_SECTOR_LEN = 0
  /\ data_pos s' = data_pos s + chunk dma_len (data_pos s) /\ chunk dma_len (data_pos s) <= 512.
Proof.
  intros Hd [Hr Ha] Hlt Hs'. destruct Ha as [[Ha _] | [Hm Hn]]; [lia|]. unfold chunk in *. rewrite Hm in *. unfold FD_SECTOR_LEN in *.
  assert (data_pos s' = data_pos s + (if 512 <? dma_len - data_pos s + 0 then 512 - 0 else dma_len - data_pos s)) as E.
  { rewrite Hs'. apply u32_id. unfold in_u. destruct (Z.ltb_spec 512 (dma_len - data_pos s + 0)); lia. }
  unfold loop_at, FD_SECTOR_LEN. rewrite E. destruct (Z.ltb_spec 512 (dma_len - data_pos s + 0)) as [Hb|Hb].
  - split; [|lia]. split; [lia|]. right. rewrite Z.sub_0_r, <- Zplus_mod_idemp_l, Hm. split; [reflexivity|].
    replace (dma_len - (data_pos s + 512)) with (dma_len - data_pos s + (-1) * 512) by lia. rewrite Z.div_add by lia. lia.
  - split; [|lia]. split; [lia|]. left. split; [lia|]. assert (0 <= (dma_len - data_pos s) / 512) by (apply Z.div_pos; lia). lia.
Qed.

Definition loop_safe (r : result (transfer_end (W := W))) : Prop :=
  match r with
  | Ok (end_transfer _ s _) => basic s
  | Ok (transfer_error _ s _) => fdc_ok s
  | Crash _ => False
  end.

Lemma next_chunk_safe again n dma_len i st2 s s2 w : dma_len < 2 ^ 31 -> loop_at (S n) dma_len s -> data_pos s < dma_len ->
  (forall s w, basic s -> loop_at n dma_len s -> loop_safe (again s w)) ->
  basic s2 -> data_pos s2 = data_pos s -> loop_safe (next_chunk again i st2 (chunk dma_len (data_pos s)) s2 w).
Proof.
  intros Hd Hl Hlt IH B2 E2. unfold next_chunk. cbv zeta. set (s3 := s2 <| data_pos := _ |>).
  assert (basic s3) as B3 by (unfold s3; basics).
  assert (data_pos s3 = u32 (data_pos s + chunk dma_len (data_pos s))) as E3 by (unfold s3; cbn [over data_pos]; now rewrite E2).
  clearbody s3. destruct (_ =? 0).
  - destruct (seek_next_same i s3) as (Q1 & Q2 & Q3 & _). destruct (fdctrl_seek_to_next_sect i s3) as [[] s4]; cbn [snd] in *; [|now apply Q1].
    apply IH; [now apply Q1|]. apply (chunk_next n dma_len s s4 Hd Hl Hlt). congruence.
  - apply IH; [done|]. now apply (chunk_next n dma_len s s3 Hd Hl Hlt).
Qed.

(** The data a write takes from memory fit the FIFO. *)
Lemma overlay_basic nchan pos len s w : basic s -> 0 <= len -> 0 <= pos -> pos + len <= 512 ->
  basic (s <| fifo := overlay (fifo s) pos (DMA_read_memory nchan (data_pos s) len w) |>).
Proof.
  intros [X1 X1' X2 X3 X4] Hl Hp Hlp. destruct (DMA_read_len nchan (data_pos s) len w Hl) as [Y1 Y2]. constructor; try done; cbn [over fifo].
  - rewrite length_overlay; [exact X1|lia|]. rewrite Y1. lia.
  - unfold overlay. rewrite !Forall_app. split; [now apply Forall_take|]. split; [done|now apply Forall_drop].
Qed.

Lemma transfer_loop_safe n b nchan dma_len i st2 : forall s w, basic s -> dma_len < 2 ^ 31 -> loop_at n dma_len s ->
  loop_safe (transfer_loop n b nchan dma_len i st2 s w).
Proof.
  induction n as [|n IH]; intros s w B Hd Hl.
  { destruct Hl as [? [[_ ?] | [_ ?]]]; [lia|]. assert (0 <= (dma_len - data_pos s) / FD_SECTOR_LEN) by (apply Z.div_pos; unfold FD_SECTOR_LEN; lia). lia. }
  cbn [transfer_loop]. destruct (Z.ltb_spec (data_pos s) dma_len) as [Hlt|Hge]; cbn [negb]; [|exact B]. cbv zeta.
  fold (chunk dma_len (data_pos s)). destruct (chunk_next n dma_len s (s <| data_pos := u32 (data_pos s + chunk dma_len (data_pos s)) |>) Hd Hl Hlt) as (_ & Hp & Hm & _ & Hle); [reflexivity|].
  match goal with |- context [if ?c then read_sector b i s w else s] => set (s1 := if c then read_sector b i s w else s) end.
  assert (basic s1 /\ data_pos s1 = data_pos s) as [B1 E1] by (unfold s1; destruct (_ || _); split; auto using read_sector_basic).
  clearbody s1.
  assert (forall s2 w2, basic s2 -> data_pos s2 = data_pos s ->
    loop_safe (next_chunk (transfer_loop n b nchan dma_len i st2) i st2 (chunk dma_len (data_pos s)) s2 w2)) as Next
    by (intros s2 w2 B2 E2; apply (next_chunk_safe _ n dma_len i st2 s); auto).
  destruct (data_dir s1 =? FD_DIR_READ); [now apply Next|]. destruct (data_dir s1 =? FD_DIR_WRITE).
  - assert (basic (s1 <| fifo := overlay (fifo s1) (data_pos s mod FD_SECTOR_LEN) (DMA_read_memory nchan (data_pos s1) (chunk dma_len (data_pos s)) w) |>)) as Bo
      by (apply overlay_basic; [done|lia|rewrite Hm; lia..]).
    destruct (bdrv_write b _ _ w) as [[] w2]; cbn [negb].
    + apply Next; [exact Bo|exact E1].
    + pose proof (stop_transfer_result (FD_SR0_ABNTERM .| FD_SR0_SEEK) 0 0 _ w2 Bo) as O. destruct (fdctrl_stop_transfer _ _ _ _ w2) as [s5 w5].
      now apply in_result_ok.
  - destruct (memcmp _ _ =? 0); [exact B1|]. destruct (_ || _); [exact B1|]. now apply Next.
Qed.

Lemma handler_safe nchan pos dma_len s w : fdc_ok s -> 0 <= dma_len < 2 ^ 31 ->
  safe s (fun r => r.2.1) (fdctrl_transfer_handler nchan pos dma_len s w).
Proof.
  intros [B P] Hd. unfold fdctrl_transfer_handler. destruct (tst (msr s) FD_MSR_RQM) eqn:R; [now split|]. cbv zeta.
  assert (data_pos s = 0 /\ 0 <= data_len s) as [Ep El]
    by (unfold phase_ok in P; rewrite R in P; destruct (tst (msr s) FD_MSR_NONDMA); [now destruct P|exact P]).
  set (d := if data_len s <? dma_len then data_len s else dma_len).
  assert (0 <= d < 2 ^ 31) as Hd' by (unfold d; destruct (Z.ltb_spec (data_len s) dma_len); lia).
  destruct (bs _) as [b|]; [|destruct (_ =? _); now apply in_result_ok, stop_transfer_result].
  set (st2 := if is_scan (data_dir s) then FD_SR2_SNS else 0).
  assert (loop_safe (transfer_loop (Z.to_nat (d / FD_SECTOR_LEN) + 2) b nchan d (get_cur_drv s) st2 s w)) as T.
  { apply transfer_loop_safe; [done|lia|]. split; [lia|]. right. rewrite Ep. split; [done|].
    assert (0 <= d / FD_SECTOR_LEN) by (apply Z.div_pos; unfold FD_SECTOR_LEN; lia). rewrite Z.sub_0_r. lia. }
  destruct (transfer_loop _ b nchan d (get_cur_drv s) st2 s w) as [[st s' w' | len s' w'] | c]; cbn [loop_safe] in T; [|exact T|done].
  apply in_result_ok, stop_transfer_result. basics.
Qed.

(** ** Registers, reset and timer *)

Lemma fdc_reset_ok irq s w : basic s -> idle (fdctrl_reset irq s w).1.
Proof.
  intros B. unfold fdctrl_reset. destruct (reset_irq_same s w) as ((E1 & E2 & E3 & E4) & _).
  destruct (fdctrl_reset_irq s w) as [s1 w1]. cbn [fst] in *. assert (basic s1) as B1 by now apply (basic_same s).
  clear E1 E2 E3 E4. cbv zeta. set (s2 := match bs (drv 1 _) with None => _ | Some _ => _ end).
  assert (basic s2) as B2 by (unfold s2; destruct (bs _); basics). clearbody s2.
  set (s3 := s2 <| cur_drv := 0 |> <| dor := FD_DOR_nRESET |>). assert (basic s3) as B3 by (unfold s3; basics). clearbody s3.
  set (s4 := foldl _ _ (seqZ 0 MAX_FD)).
  assert (basic s4 /\ msr s4 = FD_MSR_RQM) as [B4 E4] by (split; [apply basic_drv, basic_drv; basics|reflexivity]). clearbody s4.
  assert (idle (fdctrl_reset_fifo s4)) as I by (apply reset_fifo_idle; [done|now rewrite E4..]).
  destruct irq; [|exact I]. pose proof (raise_irq_idle FD_SR0_RDYCHG _ w1 I) as I'. destruct (fdctrl_raise_irq _ _ w1) as [s5 w5]. cbn [fst] in *.
  apply (idle_same s5); [done| |done|done]. pose proof (id_basic _ I'). basics.
Qed.

(** Neither the phase nor the FIFO changes. *)
Lemma ok_same s s' : fdc_ok s -> basic s' -> msr s' = msr s -> data_pos s' = data_pos s -> data_len s' = data_len s -> fifo s' = fifo s -> fdc_ok s'.
Proof.
  intros [B P] B' E1 E2 E3 E4. split; [done|]. unfold phase_ok, command_phase, current, fifo_at in *. now rewrite E1, E2, E3, E4.
Qed.

Lemma write_dor_ok v s w : fdc_ok s -> fdc_ok (fdctrl_write_dor v s w).1.
Proof.
  intros O. unfold fdctrl_write_dor. cbv zeta. set (s1 := s <| srb := _ |> <| srb := _ |> <| srb := _ |>).
  assert (fdc_ok s1) as O1 by (apply (ok_same s); [done|pose proof (proj1 O); unfold s1; basics|done..]). clearbody s1.
  assert (forall s2, fdc_ok s2 -> fdc_ok (s2 <| cur_drv := v .& FD_DOR_SELMASK |> <| dor := u8 v |>)) as F
    by (intros s2 O2; apply (ok_same s2); [done|pose proof (proj1 O2); basics|done..]).
  destruct (negb _); [now apply F|]. destruct (negb _); [|now apply F].
  pose proof (fdc_reset_ok true s1 w (proj1 O1)) as I. destruct (fdctrl_reset true s1 w) as [s2 w2]. cbn [fst] in *. apply F.
  apply (ok_same s2); [now apply idle_ok|pose proof (id_basic _ I); basics|done..].
Qed.

Lemma write_rate_ok v s w : fdc_ok s -> fdc_ok (fdctrl_write_rate v s w).1.
Proof.
  intros O. unfold fdctrl_write_rate. destruct (negb _); [done|]. cbv zeta. set (r := if tst v FD_DSR_SWRESET then _ else _).
  assert (fdc_ok r.1) as O1.
  { unfold r. destruct (tst _ _); [|done]. pose proof (proj1 O) as B.
    pose proof (fdc_reset_ok true (s <| dor := u8 (dor s .& ~~ FD_DOR_nRESET) |>) w) as I.
    destruct (fdctrl_reset true _ w) as [s2 w2]. cbn [fst] in *. assert (idle s2) as I2 by (apply I; basics).
    apply (ok_same s2); [now apply idle_ok|pose proof (id_basic _ I2); basics|done..]. }
  clearbody r. destruct r as [s1 w1]. cbn [fst] in O1. assert (forall s2, fdc_ok s2 -> fdc_ok (s2 <| dsr := u8 v |>)) as F
    by (intros s2 O2; apply (ok_same s2); [done|pose proof (proj1 O2); basics|done..]).
  destruct (tst v FD_DSR_PWRDOWN); [|now apply F]. pose proof (fdc_reset_ok true s1 w1 (proj1 O1)) as I. destruct (fdctrl_reset true s1 w1) as [s2 w2].
  now apply F, idle_ok.
Qed.

Lemma media_changed_ok i s w : fdc_ok s -> fdc_ok (fdctrl_media_changed i s w).2.1.
Proof.
  intros O. unfold fdctrl_media_changed. destruct (bs _); [|done]. destruct (bdrv_media_changed _ w) as [[] w']; [|done].
  apply (ok_same s); [done|pose proof (proj1 O); basics|done..].
Qed.

Lemma read_dir_ok s w : fdc_ok s -> fdc_ok (fdctrl_read_dir s w).2.1.
Proof.
  intros O. unfold fdctrl_read_dir. pose proof (media_changed_ok (drv0 s) s w O) as O1. destruct (fdctrl_media_changed (drv0 s) s w) as [[] [s1 w1]]; [done|].
  pose proof (media_changed_ok (drv1 s1) s1 w1 O1) as O2. now destruct (fdctrl_media_changed (drv1 s1) s1 w1) as [c [s2 w2]].
Qed.

Lemma result_timer_ok s w : fdc_ok s -> fdc_ok (fdctrl_result_timer s w).1.
Proof.
  intros [B _]. unfold fdctrl_result_timer. cbv zeta. apply in_result_ok, stop_transfer_result. destruct (negb _); basics.
Qed.

(** ** The controller in the machine *)

(** What can happen to the controller. *)
Inductive fdc_op :=
| ReadPort (reg : Z)
| WritePort (now reg value : Z)
| ResultTimer
| DmaTransfer (nchan pos len : Z)
| MachineReset.

Definition op_ok (o : fdc_op) : Prop := match o with DmaTransfer _ _ len => 0 <= len < 2 ^ 31 | _ => True end.

Definition drop_value {A B} (r : result (A * B)) : result B := match r with Ok (_, b) => Ok b | Crash c => Crash c end.

Definition fdc_run (o : fdc_op) (s : FDCtrl) (w : W) : result (FDCtrl * W) :=
  match o with
  | ReadPort reg => drop_value (fdctrl_read_port reg s w)
  | WritePort now reg v => fdctrl_write_port now reg v s w
  | ResultTimer => Ok (fdctrl_result_timer s w)
  | DmaTransfer nchan pos len => drop_value (fdctrl_transfer_handler nchan pos len s w)
  | MachineReset => Ok (fdctrl_external_reset_isa s w)
  end.

(** An operation, or anything the rest of the machine does. *)
Inductive fdc_step : FDCtrl * W -> FDCtrl * W -> Prop :=
| step_op o s w s' w' : op_ok o -> fdc_run o s w = Ok (s', w') -> fdc_step (s, w) (s', w')
| step_world s w w' : fdc_step (s, w) (s, w').

Lemma safe_drop {A} s (r : result (A * (FDCtrl * W))) : safe s (fun r => r.2.1) r -> safe s fst (drop_value r).
Proof. now destruct r as [[a b]|c]. Qed.

Lemma read_reg_safe reg s w : fdc_ok s -> safe s (fun r => r.2.1) (fdctrl_read reg s w).
Proof.
  intros O. assert (fdc_ok (fdctrl_read_main_status s w).2.1) as OM.
  { unfold fdctrl_read_main_status. cbv zeta. cbn [over sun4m]. rewrite (bs_sun _ (proj1 O)).
    apply (ok_same s); [done|pose proof (proj1 O); basics|done..]. }
  pose proof (read_dir_ok s w O) as OD. pose proof (read_data_safe s w O) as OR. unfold fdctrl_read.
  destruct reg as [|[[[]|[]|]|[[]|[]|]|]|]; (exact O || exact OM || exact OD || exact OR).
Qed.

Lemma write_reg_safe now reg v s w : fdc_ok s -> safe s fst (fdctrl_write now reg v s w).
Proof.
  intros O. pose proof (write_data_safe now v s w O) as OW. pose proof (write_dor_ok v s w O) as O2. pose proof (write_rate_ok v s w O) as O4.
  assert (fdc_ok (fdctrl_write_tape v s)) as O3
    by (unfold fdctrl_write_tape; destruct (negb _); [done|]; apply (ok_same s); [done|pose proof (proj1 O); basics|done..]).
  unfold fdctrl_write. destruct reg as [|[[[]|[]|]|[[]|[]|]|]|]; (exact O || exact OW || exact O2 || exact O3 || exact O4).
Qed.

Lemma fdc_run_safe o s w : fdc_ok s -> op_ok o -> safe s fst (fdc_run o s w).
Proof.
  intros O Ho. destruct o as [reg|now reg v| |nchan pos len|]; cbn [fdc_run].
  - now apply safe_drop, read_reg_safe.
  - now apply write_reg_safe.
  - now apply result_timer_ok.
  - now apply safe_drop, handler_safe.
  - apply idle_ok, fdc_reset_ok, O.
Qed.

Lemma init_basic bsA bsB w s w' : isabus_fdc_init1 bsA bsB w = Some (s, w') -> basic s.
Proof.
  unfold isabus_fdc_init1, fdctrl_init_common, fdctrl_connect_drives. cbv zeta.
  set (s0 := (mkCtrl _ _ _ _ _ _ _ _ _ _ _ _ _ _ _ _ _ _ _ _ _ _ _ _ _ _ _ _ _ _ _)). intros E.
  assert (forall l st, match st with Some (s, _) => basic s | None => True end ->
    match foldl connect_drive st l with Some (s, _) => basic s | None => True end) as F.
  { induction l as [|i l IH]; intros st Hst; [done|]. cbn [foldl]. apply IH. destruct st as [[x y]|]; [|done]. unfold connect_drive.
    destruct (match bs (drv i x) with None => _ | Some _ => _ end); [done|]. basics. }
  match type of E with foldl _ ?st ?l = _ => specialize (F l st); rewrite E in F; apply F end.
  assert (basic (s0 <| fifo := replicate 512 0 |>)) as B0.
  { constructor; [reflexivity| |reflexivity|reflexivity|reflexivity]. cbn [over fifo]. apply Forall_replicate. split; lia. }
  basics. exact B0.
Qed.

(** C20: From power-on, whatever sequence of port accesses, DMA transfers, timer
    expiries and resets the guest and the machine perform, with whatever happens
    outside in between: the phase of the controller and its FIFO index stay in
    order, and an operation can go wrong only in the ways [crash_reason] lists: a
    command or data byte written with the FIFO full, which takes an unfinished READ
    ID or DRIVE SPECIFICATION command; a transfer by the CPU past 2^31 bytes; or
    such a transfer on the selected drive, if that has no block device.  The DMA loop never runs
    out of turns. *)
Theorem fdc_reachable_safe bsA bsB w0 s0 w1 s w : isabus_fdc_init1 bsA bsB w0 = Some (s0, w1) ->
  rtc fdc_step (fdctrl_external_reset_isa s0 w1) (s, w) ->
  fdc_ok s /\ forall o, op_ok o -> match fdc_run o s w with Ok (s', _) => fdc_ok s' | Crash c => crash_reason s c end.
Proof.
  intros Hi Hr. assert (fdc_ok s) as O.
  { refine (rtc_invariant fdc_step (fun x => fdc_ok x.1) _ _ _ Hr _).
    - intros x y O Hst. destruct Hst as [o x w' x' w'' Ho E | x w' w'']; [|done]. pose proof (fdc_run_safe o x w' O Ho) as S. now rewrite E in S.
    - apply idle_ok, fdc_reset_ok. now apply (init_basic bsA bsB w0 s0 w1). }
  split; [done|]. intros o Ho. pose proof (fdc_run_safe o s w O Ho) as S. now destruct (fdc_run o s w) as [[s' w']|c].
Qed.

(** ** The overrun *)

Fixpoint write_all (now : Z) (vs : list Z) (s : FDCtrl) (w : W) : result (FDCtrl * W) :=
  match vs with
  | [] => Ok (s, w)
  | v :: vs => match fdctrl_write_data now v s w with Crash c => Crash c | Ok (s, w) => write_all now vs s w end
  end.

(** [k] bytes of the command are in. *)
Record specifying (k : Z) (s : FDCtrl) : Prop := {
  sy_basic : basic s;
  sy_dor : tst (dor s) FD_DOR_nRESET = true;
  sy_dma : tst (msr s) FD_MSR_NONDMA = false;
  sy_rqm : tst (msr s) FD_MSR_RQM = true;
  sy_dio : tst (msr s) FD_MSR_DIO = false;
  sy_cmd : fifo_at s 0 = FD_CMD_DRIVE_SPECIFICATION_COMMAND;
  sy_pos : data_pos s = k;
  sy_len : data_len s = 6
}.

Lemma spec_current s : fifo_at s 0 = FD_CMD_DRIVE_SPECIFICATION_COMMAND ->
  current s = mkCommand FD_CMD_DRIVE_SPECIFICATION_COMMAND 0xff 5 handle_drive_specification_command 0.
Proof. intros E. unfold current. rewrite E. vm_compute. reflexivity. Qed.

Lemma specifying_byte now k v s w : specifying k s -> 1 <= k < 512 -> (k = 5 -> tst (u8 v) 0x80 = false) ->
  exists s', fdctrl_write_data now v s w = Ok (s', w) /\ specifying (k + 1) s'.
Proof.
  intros [B D N R I C P Ln] Hk Hv. unfold fdctrl_write_data. rewrite D, R, I. cbn [negb orb]. cbv zeta. set (s1 := s <| dsr := _ |>).
  change (msr s1) with (msr s). rewrite N. assert (data_pos s1 = k) as E1 by exact P. rewrite E1.
  destruct (Z.eqb_spec k 0); [lia|]. rewrite E1. destruct (Z.leb_spec FD_SECTOR_LEN k) as [Hc|_]; [unfold FD_SECTOR_LEN in Hc; lia|].
  set (s2 := set_fifo_at k v s1). set (s3 := s2 <| data_pos := _ |>).
  assert (basic s3) as B3 by (unfold s3, s2, s1; basics).
  assert (data_pos s3 = k + 1) as P3.
  { change (data_pos s3) with (u32 (data_pos s1 + 1)). rewrite E1. apply u32_id. unfold in_u. lia. }
  assert (fifo_at s3 0 = FD_CMD_DRIVE_SPECIFICATION_COMMAND) as C3.
  { change (fifo_at (set_fifo_at k v s1) 0 = FD_CMD_DRIVE_SPECIFICATION_COMMAND). rewrite fifo_set_ne by lia. exact C. }
  assert (specifying (k + 1) s3) as Y by (constructor; auto). exists s3. split; [|exact Y].
  change (data_len s3) with (data_len s). rewrite P3, Ln. destruct (Z.eqb_spec (k + 1) 6) as [E6|]; [|reflexivity].
  rewrite (bs_format _ B3). fold (current s3). rewrite (spec_current s3 C3). cbn [handler run_handler]. unfold fdctrl_handle_drive_specification_command. cbv zeta.
  rewrite P3. replace (k + 1 - 1) with k by lia. change (fifo_at s3 k) with (fifo_at (set_fifo_at k v s1) k).
  rewrite fifo_set_eq by (lia || unfold s1; basics). rewrite Hv by lia. change (data_len s3) with (data_len s). now rewrite Ln.
Qed.

Lemma specifying_full now v s w : specifying 512 s -> fdctrl_write_data now v s w = Crash fifo_overrun.
Proof.
  intros [B D N R I C P Ln]. unfold fdctrl_write_data. rewrite D, R, I. cbn [negb orb]. cbv zeta. cbn [over msr data_pos]. rewrite N, P. cbn [Z.eqb].
  cbn [over data_pos]. now rewrite P.
Qed.

Lemma specifying_overrun now vs : forall k s w, specifying k s -> 1 <= k <= 512 -> k + Z.of_nat (length vs) = 513 ->
  (k <= 5 -> tst (u8 (nth (Z.to_nat (5 - k)) vs 0)) 0x80 = false) -> write_all now vs s w = Crash fifo_overrun.
Proof.
  induction vs as [|v vs IH]; intros k s w Y Hk Hl Hv; cbn [length] in Hl; [lia|]. cbn [write_all].
  destruct (Z.eq_dec k 512) as [->|Hne]; [now rewrite specifying_full|].
  destruct (specifying_byte now k v s w Y) as (s' & -> & Y'); [lia| |].
  { intros ->. now apply Hv. }
  apply (IH (k + 1)); [done|lia|lia|]. intros Hk5. replace (Z.to_nat (5 - k)) with (S (Z.to_nat (5 - (k + 1)))) in Hv by lia. apply Hv. lia.
Qed.

Lemma specifying_first now s w : idle s -> tst (dor s) FD_DOR_nRESET = true ->
  exists s', fdctrl_write_data now FD_CMD_DRIVE_SPECIFICATION_COMMAND s w = Ok (s', w) /\ specifying 1 s'.
Proof.
  intros [B N R O P] D. unfold fdctrl_write_data. rewrite D, R, O. cbn [negb orb]. cbv zeta. set (s1 := s <| dsr := _ |>).
  change (msr s1) with (msr s). rewrite N. assert (data_pos s1 = 0) as E1 by exact P. rewrite E1. change (0 =? 0) with true. cbv iota.
  assert (aget command_to_handler (FD_CMD_DRIVE_SPECIFICATION_COMMAND .& 0xff) = 22) as -> by (vm_compute; reflexivity).
  set (s2 := s1 <| data_len := _ |>). assert (data_pos s2 = 0) as E2 by exact P. rewrite E2. change (FD_SECTOR_LEN <=? 0) with false. cbv iota.
  set (s3 := set_fifo_at 0 _ s2). assert (data_pos s3 = 0) as E3 by exact P. rewrite E3. set (s4 := s3 <| data_pos := _ |>).
  assert (basic s2) as B2 by (unfold s2, s1; basics). exists s4. change (data_pos s4) with 1. change (data_len s4) with 6. split; [reflexivity|].
  constructor; [unfold s4, s3; basics|exact D|exact N|exact R|exact O| |reflexivity|reflexivity].
  change (fifo_at (set_fifo_at 0 FD_CMD_DRIVE_SPECIFICATION_COMMAND s2) 0 = FD_CMD_DRIVE_SPECIFICATION_COMMAND). apply fifo_set_eq; [done|lia].
Qed.

(** The FIFO can be overrun by the guest.  In the command phase, the command
    byte 0x8e followed by any 512 bytes whose fifth has its top bit clear ends in a
    store beyond the 512 bytes of the FIFO: the handler of DRIVE SPECIFICATION
    neither resets the index nor ends the command, so every further byte is
    appended. *)
Theorem fdc_drive_spec_overrun now vs s w : idle s -> tst (dor s) FD_DOR_nRESET = true ->
  length vs = 512%nat -> tst (u8 (nth 4 vs 0)) 0x80 = false ->
  write_all now (FD_CMD_DRIVE_SPECIFICATION_COMMAND :: vs) s w = Crash fifo_overrun.
Proof.
  intros I D Hl Hv. cbn [write_all]. destruct (specifying_first now s w I D) as (s' & -> & Y).
  apply (specifying_overrun now vs 1); [done|lia|lia|]. intros _. exact Hv.
Qed.

End Safe.

End FdcSafe.
