(* ===== verification/FdcData.v ===== *)
(** * Reading a floppy disk: from the command bytes to the data in memory

    The geometry maps cylinder, head and sector to consecutive sectors of the image;
    a multi-track READ walks them in order and the DMA transfer copies them to
    memory.  The class [DmaDisk] says what the transfer needs of the DMA controller
    and the block layer. *)

From S2P Require Import Prelude Fdc FdcSafe.

Module FdcData.
Import Fdc FdcSafe.
#[local] Existing Instances FDrive_eta FDCtrl_eta.
#[local] Opaque command_to_handler command_at.

Lemma drv_upd_eq i f s : basic s -> 0 <= i < 2 -> drv i (upd_drv i f s) = f (drv i s).
Proof.
  intros B Hi. unfold drv at 1, upd_drv. cbn [over drives]. rewrite nth_lookup, list_lookup_insert_eq; [done|]. rewrite (bs_drives _ B). lia.
Qed.

(** ** Consecutive sectors *)

(** A position on a double-sided disk whose end of track is its last sector. *)
Record on_disk (e : Z) (d : FDrive) : Prop := {
  od_sect : 1 <= sect d <= last_sect d;
  od_head : head d = 0 \/ head d = 1;
  od_track : 0 <= track d;
  od_sides : tst (flags d) FDISK_DBL_SIDES = true;
  od_eot : e = last_sect d
}.

(** The next sector of a multi-track transfer is the next sector of the image. *)
Lemma seek_next_linear i s : basic s -> 0 <= i < 2 -> tst (data_state s) FD_STATE_MULTI = true ->
  on_disk (eot s) (drv i s) -> last_sect (drv i s) <= 255 -> fd_sector (drv i s) < 510 * last_sect (drv i s) ->
  exists s', fdctrl_seek_to_next_sect i s = (true, s') /\ on_disk (eot s') (drv i s')
    /\ fd_sector (drv i s') = fd_sector (drv i s) + 1 /\ last_sect (drv i s') = last_sect (drv i s) /\ bs (drv i s') = bs (drv i s)
    /\ data_dir s' = data_dir s /\ data_state s' = data_state s /\ cur_drv s' = cur_drv s /\ tdr s' = tdr s.
Proof.
  intros B Hi M [O1 O2 O3 O4 O5] Hl Hs. unfold fdctrl_seek_to_next_sect. cbv zeta. set (d := drv i s) in *. rewrite M.
  unfold fd_sector, fd_sector_calc in Hs. assert (track d < 255) as Ht by nia.
  destruct (Z.leb_spec (last_sect d) (sect d)) as [Hle|Hgt]; cbn [orb].
  - assert (sect d = last_sect d) as Es by lia. cbn [over head flags]. rewrite O4. destruct O2 as [E0 | E1].
    + rewrite E0. cbn [Z.eqb andb]. eexists. split; [reflexivity|]. rewrite drv_upd_eq by done. cbn [over sect last_sect head track flags bs eot upd_drv data_dir data_state].
      split; [constructor; cbn [over sect last_sect head track flags]; auto; lia|]. unfold fd_sector, fd_sector_calc. cbn [over sect last_sect head track]. rewrite E0, Es. split; [lia|auto 10].
    + rewrite E1. cbn [Z.eqb andb]. eexists. split; [reflexivity|]. rewrite drv_upd_eq by done. cbn [over sect last_sect head track flags bs eot upd_drv data_dir data_state].
      assert (u8 (track d + 1) = track d + 1) as Eu by (apply u8_id; unfold in_u; lia).
      split; [constructor; cbn [over sect last_sect head track flags]; auto; lia|]. unfold fd_sector, fd_sector_calc. cbn [over sect last_sect head track]. rewrite E1, Es, Eu. split; [lia|auto 10].
  - destruct (Z.eqb_spec (sect d) (eot s)) as [E|_]; [lia|]. eexists. split; [reflexivity|]. rewrite drv_upd_eq by done.
    cbn [over sect last_sect head track flags bs eot upd_drv data_dir data_state].
    assert (u8 (sect d + 1) = sect d + 1) as Eu by (apply u8_id; unfold in_u; lia).
    split; [constructor; cbn [over sect last_sect head track flags]; auto; lia|]. unfold fd_sector, fd_sector_calc. cbn [over sect last_sect head track]. rewrite Eu. split; [lia|auto 10].
Qed.

Section Data.
Context {W : Type} {H : FdcHost W} {L : FdcLaws}.

(** What a transfer needs: the bytes written to the channel land at their
    positions in the transfer, and nothing else touches them or the disk. *)
Class DmaDisk := {
  dma_mem : W -> Z -> Z -> Z;
  dma_write_mem : forall c buf pos len w k, 0 <= len <= Z.of_nat (length buf) ->
    dma_mem (DMA_write_memory c buf pos len w) c k =
    if (pos <=? k) && (k <? pos + len) then nth (Z.to_nat (k - pos)) buf 0 else dma_mem w c k;
  dma_write_disk : forall c buf pos len w b k, bdrv_read b k (DMA_write_memory c buf pos len w) = bdrv_read b k w;
  release_mem : forall c w c' k, dma_mem (DMA_release_DREQ c w) c' k = dma_mem w c' k;
  irq_mem : forall v w c k, dma_mem (qemu_set_irq v w) c k = dma_mem w c k;
  start_mem : forall c w c' k, dma_mem (DMA_schedule c (DMA_hold_DREQ c w)) c' k = dma_mem w c' k;
  start_disk : forall c w b k, bdrv_read b k (DMA_schedule c (DMA_hold_DREQ c w)) = bdrv_read b k w
}.
Context {D : DmaDisk}.

(** The sector as the controller reads it: zeros where the image ends. *)
Definition sector (b k : Z) (w : W) : list Z := default (replicate 512 0) (bdrv_read b k w).

Lemma length_sector b k w : length (sector b k w) = 512%nat.
Proof. unfold sector. destruct (bdrv_read b k w) eqn:E; [exact (proj1 (bdrv_read_len _ _ _ _ E))|apply length_replicate]. Qed.

(** A multi-track read in progress. *)
Record reading (i b : Z) (s : FDCtrl) : Prop := {
  rd_basic : basic s;
  rd_dir : data_dir s = FD_DIR_READ;
  rd_multi : tst (data_state s) FD_STATE_MULTI = true;
  rd_pos : on_disk (eot s) (drv i s);
  rd_last : last_sect (drv i s) <= 255;
  rd_bs : bs (drv i s) = Some b
}.

(** Reading does not disturb what the result phase reports. *)
Record same_end (s s' : FDCtrl) : Prop := {
  se_msr : msr s' = msr s;
  se_state : data_state s' = data_state s;
  se_dir : data_dir s' = data_dir s;
  se_cur : cur_drv s' = cur_drv s
}.

Lemma seek_next_msr i s : msr (fdctrl_seek_to_next_sect i s).2 = msr s.
Proof. apply (seek_next_same i s). Qed.

(** The byte at position [k] of a transfer that starts at sector [sec0]. *)
Definition content (b sec0 : Z) (w : W) (k : Z) : Z := nth (Z.to_nat (k mod 512)) (sector b (sec0 + k / 512) w) 0.

Section Loop.
Variables (b nchan dma_len i sec0 st2 : Z) (w0 : W).
Hypothesis (Hi : 0 <= i < 2) (Hd : dma_len < 2 ^ 31).

(** One chunk lands in memory where it belongs. *)
Lemma chunk_content pos len w k : pos mod 512 = 0 -> 0 <= pos -> 0 < len <= 512 -> (forall k, bdrv_read b k w = bdrv_read b k w0) ->
  dma_mem (DMA_write_memory nchan (sector b (sec0 + pos / 512) w) pos len w) nchan k =
  if (pos <=? k) && (k <? pos + len) then content b sec0 w0 k else dma_mem w nchan k.
Proof.
  intros Hm Hp Hl Hw. rewrite dma_write_mem by (rewrite length_sector; lia).
  destruct (Z.leb_spec pos k), (Z.ltb_spec k (pos + len)); cbn [andb]; try reflexivity. unfold content, sector. rewrite Hw.
  assert (k / 512 = pos / 512 /\ k mod 512 = k - pos) as [-> ->]; [|reflexivity].
  Z.div_mod_to_equations. lia.
Qed.

(** The loop at a sector boundary, with everything before it in memory. *)
Lemma read_turn n s w lst : reading i b s -> loop_at (S n) dma_len s -> data_pos s < dma_len ->
  last_sect (drv i s) = lst -> sec0 + (dma_len + 511) / 512 <= 510 * lst ->
  fd_sector (drv i s) = sec0 + data_pos s / 512 -> (forall k, bdrv_read b k w = bdrv_read b k w0) ->
  exists s' w', transfer_loop (S n) b nchan dma_len i st2 s w = transfer_loop n b nchan dma_len i st2 s' w'
    /\ reading i b s' /\ loop_at n dma_len s' /\ last_sect (drv i s') = lst /\ same_end s s'
    /\ (data_pos s' < dma_len -> fd_sector (drv i s') = sec0 + data_pos s' / 512)
    /\ data_pos s < data_pos s' <= data_pos s + 512
    /\ (forall k, bdrv_read b k w' = bdrv_read b k w0)
    /\ forall k, dma_mem w' nchan k = if (data_pos s <=? k) && (k <? data_pos s') then content b sec0 w0 k else dma_mem w nchan k.
Proof.
  intros [B R1 R2 R3 R4 R5] Hl Hlt El Hs Hf Hw. cbn [transfer_loop]. destruct (Z.ltb_spec (data_pos s) dma_len); [|lia]. cbn [negb]. cbv zeta.
  fold (chunk dma_len (data_pos s)). set (len := chunk dma_len (data_pos s)) in *.
  set (s3 := (read_sector b i s w) <| data_pos := u32 (data_pos s + len) |>).
  destruct (chunk_next n dma_len s s3 Hd Hl Hlt) as (Hl' & Hp & Hm & Hp' & Hle); [reflexivity|]. fold len in Hp, Hle, Hp'.
  rewrite R1. change (negb (FD_DIR_READ =? FD_DIR_WRITE)) with true. cbn [orb].
  change (data_dir (read_sector b i s w)) with (data_dir s). rewrite R1. change (FD_DIR_READ =? FD_DIR_READ) with true. cbv iota.
  change (data_pos (read_sector b i s w)) with (data_pos s). rewrite Hm. cbn [drop Z.to_nat].
  set (w1 := DMA_write_memory nchan _ (data_pos s) len w). unfold next_chunk. cbv zeta. change (data_pos (read_sector b i s w)) with (data_pos s).
  fold s3. assert (basic s3) as B3 by (apply (basic_same (read_sector b i s w)); [now apply read_sector_basic|reflexivity..]).
  assert (drv i s3 = drv i s) as Ed by reflexivity.
  assert (forall k, dma_mem w1 nchan k = if (data_pos s <=? k) && (k <? data_pos s3) then content b sec0 w0 k else dma_mem w nchan k) as HM.
  { intros k. unfold w1. change (fifo (read_sector b i s w)) with (sector b (fd_sector (drv i s)) w). rewrite Hf, Hp'.
    apply chunk_content; [exact Hm|destruct Hl; lia|lia|exact Hw]. }
  assert (forall k, bdrv_read b k w1 = bdrv_read b k w0) as HW by (intros k; unfold w1; now rewrite dma_write_disk).
  assert (reading i b s3) as R3' by (constructor; [exact B3|exact R1|exact R2|exact R3|exact R4|exact R5]). clearbody w1.
  assert (0 <= data_pos s) as Hp0 by (destruct Hl; lia). assert (msr s3 = msr s /\ data_state s3 = data_state s /\ data_dir s3 = data_dir s /\ cur_drv s3 = cur_drv s) as (F1 & F2 & F3 & F4) by done.
  clearbody s3. unfold FD_SECTOR_LEN in Hm. destruct (Z.eqb_spec (data_pos s3 mod FD_SECTOR_LEN) 0) as [E0|E0]; unfold FD_SECTOR_LEN in E0.
  - assert (len = 512) as E512 by (rewrite Hp', <- Zplus_mod_idemp_l, Hm in E0; Z.div_mod_to_equations; lia).
    destruct (seek_next_linear i s3) as (s4 & Es & O4 & Hf4 & Hl4 & Hb4 & Hdir4 & Hst4 & Hc4 & _); [done|done|apply R3'|apply R3'|apply R3'|rewrite Ed, Hf, El; Z.div_mod_to_equations; lia|].
    destruct (seek_next_same i s3) as (Q1 & Q2 & Q3 & _). rewrite Es in *. cbn [snd] in *. exists s4, w1. split; [reflexivity|].
    split; [constructor; [now apply Q1|rewrite Hdir4; apply R3'|rewrite Hst4; apply R3'|exact O4|rewrite Hl4; apply R3'|rewrite Hb4; apply R3']|].
    split; [destruct Hl' as [X1 X2]; split; rewrite Q3; assumption|]. split; [now rewrite Hl4, Ed|].
    split; [constructor; congruence|]. rewrite Q3. split; [|split; [lia|done]].
    intros _. rewrite Hf4, Ed, Hf, Hp', E512. replace (data_pos s + 512) with (data_pos s + 1 * 512) by lia. rewrite Z.div_add by lia. lia.
  - exists s3, w1. split; [reflexivity|]. split; [done|]. split; [done|]. split; [now rewrite Ed|]. split; [constructor; congruence|].
    split; [|split; [lia|done]]. destruct Hl' as [_ [[X _] | [X _]]]; [lia|unfold FD_SECTOR_LEN in X; lia].
Qed.

(** The whole loop. *)
Lemma read_loop n lst : forall s w, reading i b s -> loop_at n dma_len s -> last_sect (drv i s) = lst -> sec0 + (dma_len + 511) / 512 <= 510 * lst ->
  (data_pos s < dma_len -> fd_sector (drv i s) = sec0 + data_pos s / 512) -> (forall k, bdrv_read b k w = bdrv_read b k w0) ->
  exists s' w', transfer_loop n b nchan dma_len i st2 s w = Ok (end_transfer st2 s' w') /\ basic s' /\ data_pos s' = dma_len /\ same_end s s'
    /\ forall k, dma_mem w' nchan k = if (data_pos s <=? k) && (k <? dma_len) then content b sec0 w0 k else dma_mem w nchan k.
Proof.
  induction n as [|n IH]; intros s w R Hl El Hs Hf Hw.
  { destruct Hl as [? [[_ ?] | [_ ?]]]; [lia|]. assert (0 <= (dma_len - data_pos s) / FD_SECTOR_LEN) by (apply Z.div_pos; unfold FD_SECTOR_LEN; lia). lia. }
  destruct (Z.lt_ge_cases (data_pos s) dma_len) as [Hlt|Hge].
  - destruct (read_turn n s w lst R Hl Hlt El Hs (Hf Hlt) Hw) as (s1 & w1 & -> & R1 & Hl1 & El1 & S1 & Hf1 & Hp1 & Hw1 & HM1).
    destruct (IH s1 w1 R1 Hl1 El1 Hs Hf1 Hw1) as (s2 & w2 & -> & B2 & Hp2 & S2 & HM2). exists s2, w2. split; [reflexivity|]. split; [done|]. split; [done|].
    split; [destruct S1, S2; constructor; congruence|]. intros k. rewrite HM2, HM1. destruct Hl1 as [Hr1 _].
    destruct (Z.leb_spec (data_pos s1) k), (Z.ltb_spec k dma_len), (Z.leb_spec (data_pos s) k), (Z.ltb_spec k (data_pos s1)); cbn [andb]; lia || reflexivity.
  - exists s, w. cbn [transfer_loop]. destruct (Z.ltb_spec (data_pos s) dma_len); [lia|]. split; [reflexivity|]. split; [apply R|].
    assert (data_pos s = dma_len) as Ep by (destruct Hl as [? _]; lia). split; [done|]. split; [constructor; reflexivity|].
    intros k. rewrite Ep. destruct (Z.leb_spec dma_len k), (Z.ltb_spec k dma_len); cbn [andb]; lia || reflexivity.
Qed.

End Loop.
(** ** The transfer *)

Lemma raise_irq_mem st0 s w c k : dma_mem (fdctrl_raise_irq st0 s w).2 c k = dma_mem w c k.
Proof. unfold fdctrl_raise_irq. destruct (_ && _); [done|]. destruct (negb _); [apply irq_mem|done]. Qed.

Lemma raise_irq_pending st0 s w : sun4m s = false -> tst (sra (fdctrl_raise_irq st0 s w).1) FD_SRA_INTPEND = true.
Proof.
  intros E. unfold fdctrl_raise_irq. rewrite E. cbn [andb]. destruct (tst (sra s) FD_SRA_INTPEND) eqn:Ep; cbn [negb fst over sra]; [done|].
  unfold FD_SRA_INTPEND. change 0x80 with (1 << 7). rewrite tst_bit by lia. autorewrite with bits. reflexivity.
Qed.

Lemma stop_transfer_mem st0 st1 st2 s w c k : dma_mem (fdctrl_stop_transfer st0 st1 st2 s w).2 c k = dma_mem w c k.
Proof.
  unfold fdctrl_stop_transfer, fdctrl_set_fifo. cbv zeta. rewrite raise_irq_mem. destruct (negb _); [apply release_mem|done].
Qed.

Lemma stop_transfer_pending st0 st1 st2 s w : basic s -> tst (sra (fdctrl_stop_transfer st0 st1 st2 s w).1) FD_SRA_INTPEND = true.
Proof.
  intros B. unfold fdctrl_stop_transfer, fdctrl_set_fifo. cbv zeta. apply raise_irq_pending.
  cbn [over sun4m]. apply (basic_put _ s B).
Qed.

Definition dma_bytes (s : FDCtrl) (dma_len : Z) : Z := if data_len s <? dma_len then data_len s else dma_len.

Lemma read_handler nchan pos dma_len b s w : reading (get_cur_drv s) b s -> 0 <= get_cur_drv s < 2 ->
  tst (msr s) FD_MSR_RQM = false -> data_pos s = 0 -> 0 <= data_len s -> 0 <= dma_len < 2 ^ 31 ->
  fd_sector (drv (get_cur_drv s) s) + (dma_bytes s dma_len + 511) / 512 <= 510 * last_sect (drv (get_cur_drv s) s) ->
  exists s' w', fdctrl_transfer_handler nchan pos dma_len s w = Ok (dma_bytes s dma_len, (s', w'))
    /\ in_result s' /\ tst (sra s') FD_SRA_INTPEND = true
    /\ forall k, dma_mem w' nchan k = if (0 <=? k) && (k <? dma_bytes s dma_len) then content b (fd_sector (drv (get_cur_drv s) s)) w k else dma_mem w nchan k.
Proof.
  intros R Hi Hq Hp Hdl Hd Hs. unfold fdctrl_transfer_handler. rewrite Hq. cbv zeta. rewrite (rd_bs _ _ _ R). fold (dma_bytes s dma_len).
  assert (0 <= dma_bytes s dma_len < 2 ^ 31) as Hn by (unfold dma_bytes; destruct (Z.ltb_spec (data_len s) dma_len); lia).
  set (n := dma_bytes s dma_len) in *. rewrite (rd_dir _ _ _ R). change (is_scan FD_DIR_READ) with false. cbv iota.
  destruct (read_loop b nchan n (get_cur_drv s) (fd_sector (drv (get_cur_drv s) s)) 0 w Hi ltac:(lia) (Z.to_nat (n / FD_SECTOR_LEN) + 2) (last_sect (drv (get_cur_drv s) s)) s w R) as (s1 & w1 & -> & B1 & Hp1 & S1 & HM);
    [split; [lia|]; right; rewrite Hp; split; [reflexivity|rewrite Z.sub_0_r]; assert (0 <= n / FD_SECTOR_LEN) by (apply Z.div_pos; unfold FD_SECTOR_LEN; lia); lia
    |reflexivity|exact Hs|intros _; rewrite Hp; change (0 / 512) with 0; lia|done|].
  rewrite (se_dir _ _ S1), (rd_dir _ _ _ R). change (is_scan FD_DIR_READ) with false. cbv iota. rewrite Hp1, Hp, Z.sub_0_r.
  match goal with |- context [fdctrl_stop_transfer ?a ?b ?c ?x w1] => destruct (fdctrl_stop_transfer a b c x w1) as [s' w'] eqn:Es;
    pose proof (stop_transfer_result a b c x w1) as T1; pose proof (stop_transfer_pending a b c x w1) as T2; pose proof (stop_transfer_mem a b c x w1 nchan) as T3 end.
  rewrite Es in T1, T2, T3. cbn [fst snd] in T1, T2, T3. exists s', w'. split; [reflexivity|].
  assert (basic (s1 <| data_len := u32 (data_len s1 - n) |>)) as B2 by (apply (basic_same s1); [exact B1|reflexivity..]).
  split; [now apply T1|]. split; [now apply T2|]. intros k. rewrite T3, HM, Hp. reflexivity.
Qed.

(** ** Entering a command *)

(** The bytes [l] of a command are in, and nothing else has changed. *)
Record entering (l : list Z) (s0 s : FDCtrl) : Prop := {
  en_basic : basic s;
  en_msr : msr s = msr s0;
  en_dor : dor s = dor s0;
  en_drives : drives s = drives s0;
  en_state : data_state s = data_state s0;
  en_chann : dma_chann s = dma_chann s0;
  en_tdr : tdr s = tdr s0;
  en_fifo : forall k, (k < length l)%nat -> fifo_at s (Z.of_nat k) = u8 (nth k l 0);
  en_pos : data_pos s = Z.of_nat (length l)
}.

Section Enter.
Variables (now : Z) (s0 : FDCtrl).
Hypothesis (I : idle s0) (Dr : tst (dor s0) FD_DOR_nRESET = true).

(** One byte: [l] grows, and the command runs when [l] is complete. *)
Lemma enter_byte l v s w : entering l s0 s -> (l <> [] -> data_len s = parameters (current s) + 1) -> (length l <= 17)%nat ->
  (l <> [] -> Z.of_nat (length l) < data_len s) ->
  exists s', entering (l ++ [v]) s0 s' /\ data_len s' = parameters (current s') + 1
    /\ fdctrl_write_data now v s w =
       Ok (if Z.of_nat (length l) + 1 =? data_len s' then run_handler (handler (current s')) now (direction (current s')) s' w else (s', w)).
Proof.
  intros [B E1 E2 E3 E4 E5 E6 E7 E8] Hc Hl Hlt. destruct I as [_ N R O _]. unfold fdctrl_write_data. rewrite E2, Dr, E1, R, O. cbn [negb orb]. cbv zeta.
  set (s1 := s <| dsr := _ |>). change (msr s1) with (msr s). rewrite E1, N.
  assert (command_phase s1) as P1.
  { unfold command_phase. change (data_pos s1) with (data_pos s). change (data_len s1) with (data_len s). change (current s1) with (current s).
    rewrite E8. destruct l as [|x l]; [now left|]. right. split; [now apply Hc|]. left. specialize (Hlt ltac:(done)). cbn [length] in *. lia. }
  assert (basic s1) as B1 by (apply (basic_same s); [exact B|reflexivity..]).
  pose proof (command_byte v s1 B1 P1) as HB. cbv zeta in HB.
  generalize dependent (parameters (command_at (aget command_to_handler (v .& 0xff))) + 1). intros p HB.
  set (s2 := if data_pos s1 =? 0 then _ else _) in *.
  assert (basic s2) as B2 by (unfold s2; destruct (_ =? 0); [apply (basic_same s1); [exact B1|reflexivity..]|exact B1]).
  assert (data_pos s2 = data_pos s /\ dor s2 = dor s /\ drives s2 = drives s /\ data_state s2 = data_state s /\ dma_chann s2 = dma_chann s /\ tdr s2 = tdr s /\ fifo s2 = fifo s)
    as (F1 & F2 & F3 & F4 & F5 & F6 & F7) by (unfold s2; destruct (_ =? 0); split_and!; reflexivity). clearbody s2.
  rewrite F1, E8 in *. destruct (Z.leb_spec FD_SECTOR_LEN (Z.of_nat (length l))) as [Hx|_]; [unfold FD_SECTOR_LEN in Hx; lia|].
  set (s3 := set_fifo_at (Z.of_nat (length l)) v s2) in *. set (s4 := s3 <| data_pos := _ |>) in *.
  destruct HB as (B4 & M4 & P4 & L4 & _); [change (data_pos s1) with (data_pos s); lia|]. change (data_pos s1) with (data_pos s) in P4. rewrite E8 in P4.
  exists s4. split; [|split; [exact L4|]].
  - constructor; [exact B4|rewrite M4; exact E1|rewrite <- E2, <- F2; reflexivity|rewrite <- E3, <- F3; reflexivity|rewrite <- E4, <- F4; reflexivity
      |rewrite <- E5, <- F5; reflexivity|rewrite <- E6, <- F6; reflexivity| |].
    + intros k Hk. rewrite length_app in Hk. cbn [length] in Hk. change (fifo_at s4) with (fifo_at s3).
      destruct (decide (k = length l)) as [->|Hne].
      * rewrite nth_middle. apply fifo_set_eq; [done|lia].
      * unfold s3. rewrite fifo_set_ne by lia. rewrite app_nth1 by lia. unfold fifo_at. rewrite F7. apply E7. lia.
    + rewrite P4, length_app. cbn [length]. lia.
  - rewrite P4. destruct (_ =? data_len s4); [|reflexivity]. change (data_state s4) with (data_state s2). rewrite F4, E4.
    rewrite (bs_format _ (id_basic _ I)). reflexivity.
Qed.

Lemma current_fixed l s : entering l s0 s -> l <> [] -> current s = command_at (aget command_to_handler (hd 0 l .& 0xff)).
Proof.
  intros E Hl. destruct l as [|x l]; [exfalso; now apply Hl|]. unfold current.
  assert (fifo_at s 0 = u8 x) as -> by (apply (en_fifo _ _ _ E 0%nat); cbn; lia). cbn [hd]. now rewrite table_u8.
Qed.

Lemma enter_rest ps : forall l s w, entering l s0 s -> l <> [] -> data_len s = parameters (current s) + 1 -> ps <> [] ->
  Z.of_nat (length l) + Z.of_nat (length ps) = data_len s ->
  exists s', entering (l ++ ps) s0 s' /\ write_all now ps s w = Ok (run_handler (handler (current s)) now (direction (current s)) s' w).
Proof.
  induction ps as [|v ps IH]; intros l s w E Hl Hc Hps Hlen; [exfalso; now apply Hps|]. cbn [length] in Hlen.
  pose proof (command_parameters (aget command_to_handler (fifo_at s 0 .& 0xff))) as Hb. fold (current s) in Hb.
  destruct (enter_byte l v s w E (fun _ => Hc)) as (s1 & E1 & L1 & Hw); [lia|intros _; lia|].
  assert (current s1 = current s) as Ec.
  { rewrite (current_fixed _ _ E1), (current_fixed _ _ E) by (exact Hl || (destruct l; discriminate)). destruct l; [congruence|reflexivity]. }
  cbn [write_all]. rewrite Hw, L1, Ec, <- Hc. destruct ps as [|v' ps].
  - destruct (Z.eqb_spec (Z.of_nat (length l) + 1) (data_len s)); [|cbn in Hlen; lia]. exists s1. split; [exact E1|]. cbn [write_all].
    generalize (run_handler (handler (current s)) now (direction (current s)) s1 w). intros [x y]. reflexivity.
  - destruct (Z.eqb_spec (Z.of_nat (length l) + 1) (data_len s)); [cbn [length] in Hlen; lia|].
    destruct (IH (l ++ [v]) s1 w E1) as (s2 & E2 & Hw2); [destruct l; discriminate|exact L1|discriminate|rewrite length_app, L1, Ec, <- Hc; cbn [length] in *; lia|].
    exists s2. rewrite <- app_assoc in E2. split; [exact E2|]. rewrite Hw2, Ec. reflexivity.
Qed.

(** The bytes of a whole command run its handler on them. *)
Lemma command_entered c ps w : ps <> [] -> Z.of_nat (length ps) = parameters (command_at (aget command_to_handler (c .& 0xff))) ->
  let cmd := command_at (aget command_to_handler (c .& 0xff)) in
  exists s', entering (c :: ps) s0 s' /\ write_all now (c :: ps) s0 w = Ok (run_handler (handler cmd) now (direction cmd) s' w).
Proof.
  intros Hps Hlen cmd. assert (entering [] s0 s0) as E0 by (constructor; [apply I|reflexivity..|intros k Hk; cbn in Hk; lia|apply I]).
  destruct (enter_byte [] c s0 w E0) as (s1 & E1 & L1 & Hw); [congruence|cbn; lia|congruence|].
  assert (current s1 = cmd) as Ec by (rewrite (current_fixed _ _ E1) by discriminate; reflexivity). cbn [write_all]. rewrite Hw. cbn [length]. rewrite L1, Ec.
  destruct (Z.eqb_spec (Z.of_nat 0 + 1) (parameters cmd + 1)) as [Hz|_]; [fold cmd in Hlen; destruct ps; [congruence|cbn [length] in Hlen; lia]|].
  destruct (enter_rest ps [c] s1 w E1) as (s2 & E2 & Hw2); [discriminate|exact L1|exact Hps|rewrite L1, Ec; cbn [length]; fold cmd in Hlen; lia|].
  exists s2. split; [exact E2|]. rewrite Hw2, Ec. reflexivity.
Qed.

End Enter.

(** ** The READ command *)

Lemma read_opcode c : 0 <= c < 256 -> c .& 0x9f = 0x86 ->
  command_at (aget command_to_handler (c .& 0xff)) = mkCommand FD_CMD_READ 0x1f 8 start_transfer FD_DIR_READ.
Proof.
  intros Hc E. rewrite (land_ones_mod c 8 0xff), Z.mod_small by (lia || reflexivity).
  assert (all_below 256 (fun c => implb (c .& 0x9f =? 0x86) (aget command_to_handler c =? 0)) = true) as A by (vm_compute; reflexivity).
  pose proof (all_below_spec _ _ A c) as F. cbv beta in F. rewrite E in F. cbn [implb Z.eqb Pos.eqb] in F. apply Z.eqb_eq in F; [|lia].
  rewrite F. vm_compute. reflexivity.
Qed.

(** A seek to a sector of the disk. *)
Lemma seek_on_disk kh kt ks d : on_disk (last_sect d) d -> track d <= 255 -> last_sect d <= 255 ->
  0 <= kt <= max_track d -> kt <= 253 -> kh = 0 \/ kh = 1 -> 1 <= ks <= last_sect d ->
  exists ret d', fd_seek kh kt ks d = (ret, d') /\ (ret = 0 \/ ret = 1) /\ on_disk (last_sect d) d'
    /\ fd_sector d' = fd_sector_calc kh kt ks (last_sect d) /\ last_sect d' = last_sect d /\ bs d' = bs d.
Proof.
  intros [O1 O2 O3 O4 O5] Ht Hl Hk Hk' Hh Hs. unfold fd_seek. rewrite O4. destruct (Z.ltb_spec (max_track d) kt); [lia|].
  rewrite andb_false_r. cbn [orb]. destruct (Z.ltb_spec (last_sect d) ks); [lia|].
  assert (0 <= fd_sector_calc kh kt ks (last_sect d) < 2 ^ 32) as R1 by (unfold fd_sector_calc; nia).
  assert (0 <= fd_sector d < 2 ^ 32) as R2 by (unfold fd_sector, fd_sector_calc; nia).
  rewrite !u32_id by assumption. destruct (Z.eqb_spec (fd_sector_calc kh kt ks (last_sect d)) (fd_sector d)) as [E|E]; cbn [negb].
  - exists 0, d. split; [reflexivity|]. split; [now left|]. split; [now constructor|]. split; [now rewrite E|done].
  - eexists _, _. split; [reflexivity|]. split; [destruct (track d =? kt); auto|].
    split; [constructor; cbn [over sect last_sect head track flags]; auto; lia|]. split; [reflexivity|done].
Qed.

Lemma get_cur_drv_range s : 0 <= get_cur_drv s < 2.
Proof.
  unfold get_cur_drv, drv0, drv1, FD_TDR_BOOTSEL. pose proof (land_bit (tdr s) 2) as E. change (1 << 2) with 4 in *. rewrite E by lia.
  destruct (cur_drv s =? 0), (Z.testbit (tdr s) 2); (split; [discriminate|reflexivity]).
Qed.

Lemma tst_multi x : tst x FD_STATE_MULTI = Z.testbit x 0.
Proof. apply (tst_bit x 0). lia. Qed.

Lemma multi_set c x : tst (set_or_clear c FD_STATE_SEEK (set_or_clear true FD_STATE_MULTI x)) FD_STATE_MULTI = true.
Proof.
  rewrite tst_multi. unfold set_or_clear, FD_STATE_SEEK, FD_STATE_MULTI. destruct c; autorewrite with bits; cbn; now rewrite ?orb_true_r.
Qed.

(** The state READ leaves when the DMA channel is programmed for it. *)
Lemma start_read c p1 kt kh ks gpl dtl b s0 s w : idle s0 ->
  let i := if p1 .& 1 =? 0 then drv0 s0 else drv1 s0 in
  let d := drv i s0 in
  entering [c; p1; kt; kh; ks; 2; last_sect d; gpl; dtl] s0 s ->
  in_u 8 c -> in_u 8 p1 -> in_u 8 kt -> tst c 0x80 = true -> tst (dor s0) FD_DOR_DMAEN = true ->
  (DMA_get_channel_mode (dma_chann s0) w >> 2) .& 3 = 1 -> bs d = Some b -> on_disk (last_sect d) d -> track d <= 255 -> last_sect d <= 255 ->
  kt <= max_track d -> kt <= 253 -> kh = 0 \/ kh = 1 -> 1 <= ks <= last_sect d ->
  exists s', fdctrl_start_transfer FD_DIR_READ s w = (s', DMA_schedule (dma_chann s0) (DMA_hold_DREQ (dma_chann s0) w))
    /\ get_cur_drv s' = i /\ reading i b s' /\ tst (msr s') FD_MSR_RQM = false /\ data_pos s' = 0
    /\ data_len s' = 512 * (2 * last_sect d - ks + 1) /\ fd_sector (drv i s') = fd_sector_calc kh kt ks (last_sect d)
    /\ last_sect (drv i s') = last_sect d.
Proof.
  intros Id i d [B E1 E2 E3 E4 E5 E6 E7 E8] Hb1 Hb2 Hb3 Hc Hd Hm Hbs Ho Ht Hl Hk1 Hk2 Hh Hs.
  assert (forall k, 0 <= k < 7 -> fifo_at s k = nth (Z.to_nat k) [c; p1; kt; kh; ks; 2; last_sect d] 0) as F.
  { intros k Hk. rewrite <- (Z2Nat.id k) at 1 by lia. rewrite E7 by (cbn; lia).
    assert (in_u 8 kh /\ in_u 8 ks /\ in_u 8 2 /\ in_u 8 (last_sect d)) as (Hb4 & Hb5 & Hb6 & Hb7) by (unfold in_u; lia).
    assert (k = 0 \/ k = 1 \/ k = 2 \/ k = 3 \/ k = 4 \/ k = 5 \/ k = 6) as Hc7 by lia.
    decompose [or] Hc7; subst k; cbn [Z.to_nat Pos.to_nat Pos.iter_op nth]; now apply u8_id. }
  unfold fdctrl_start_transfer. cbv zeta. set (s1 := SET_CUR_DRV s).
  assert (basic s1) as B1 by (apply (basic_same s); [exact B|reflexivity..]).
  assert (get_cur_drv s1 = i) as Ei.
  { unfold get_cur_drv, drv0, drv1. change (tdr s1) with (tdr s). rewrite E6. change (cur_drv s1) with (fifo_at s 1 .& FD_DOR_SELMASK).
    rewrite (F 1) by lia. reflexivity. }
  assert (fifo_at s 0 = c /\ fifo_at s 2 = kt /\ fifo_at s 3 = kh /\ fifo_at s 4 = ks /\ fifo_at s 5 = 2 /\ fifo_at s 6 = last_sect d)
    as (F0 & F2 & F3 & F4 & F5 & F6) by (split_and!; rewrite F by lia; reflexivity).
  assert (fifo_at s1 = fifo_at s) as Ef by reflexivity. rewrite Ei, Ef, F2, F3, F4.
  assert (drv i s1 = d) as Ed by (unfold d, drv; now rewrite <- E3). rewrite Ed.
  pose proof (get_cur_drv_range s1) as Hi. rewrite Ei in Hi.
  assert (0 <= kt) as Hk0 by apply Hb3.
  destruct (seek_on_disk kh kt ks d Ho Ht Hl) as (ret & d' & -> & Hr & Ho' & Hf' & Hl' & Hb'); [lia|done..|].
  set (s2 := upd_drv i (fun _ => d') s1). assert (basic s2) as B2 by (now apply basic_drv).
  assert (drv i s2 = d') as Ed2 by (unfold s2; now rewrite drv_upd_eq).
  assert (fifo_at s2 = fifo_at s /\ msr s2 = msr s /\ dor s2 = dor s /\ data_state s2 = data_state s /\ dma_chann s2 = dma_chann s) as (G1 & G2 & G3 & G4 & G5) by (split_and!; reflexivity).
  assert (get_cur_drv s2 = i) as Ei2 by exact Ei. clearbody s2. clear Ed Ef Ei B1. clearbody s1.
  destruct (Z.eqb_spec ret 2); [lia|]. destruct (Z.eqb_spec ret 3); [lia|]. destruct (Z.eqb_spec ret 4); [lia|].
  pose proof (basic_transfer FD_DIR_READ (tst (fifo_at s2 0) 0x80) (ret =? 1) (u8 (msr s2 .| FD_MSR_CMDBUSY)) s2 B2) as B3.
  match goal with |- context [if _ then (?x, _) else _] => set (sd := x) end.
  match goal with |- context [if tst (dor ?y) _ && _ then _ else _] => change (dor y) with (dor s2); change (dma_chann sd) with (dma_chann s2); change (dma_chann y) with (dma_chann s2) end.
  rewrite G3, E2, Hd, G5, E5, Hm. change (dma_mode_ok FD_DIR_READ 1) with true. cbn [andb]. exists sd. split; [reflexivity|].
  assert (drv i sd = d') as Edd by exact Ed2.
  split; [exact Ei2|]. split; [|split; [|split; [reflexivity|split; [|split]]]].
  - constructor; [apply (basic_same _ _ B3); reflexivity|reflexivity| | |now rewrite Edd, Hl'|now rewrite Edd, Hb'].
    + change (data_state sd) with (set_or_clear (ret =? 1) FD_STATE_SEEK (set_or_clear (tst (fifo_at s2 0) 0x80) FD_STATE_MULTI (data_state s2))).
      rewrite G1, F0, Hc. apply multi_set.
    + rewrite Edd. change (eot sd) with (fifo_at s2 6). now rewrite G1, F6.
  - change (msr sd) with (u8 (u8 (msr s2 .| FD_MSR_CMDBUSY) .& ~~ FD_MSR_RQM)). rewrite tst_rqm. unfold FD_MSR_RQM. autorewrite with bits. cbn. now rewrite ?andb_false_r.
  - change (data_len sd) with (transfer_len s2 ks). unfold transfer_len. rewrite G1, F5, F6, F0, Hc. cbn [Z.eqb Pos.eqb].
    change (128 << (if 7 <? 2 then 7 else 2)) with 512. rewrite u32_id by (unfold in_u; lia). lia.
  - now rewrite Edd.
  - now rewrite Edd.
Qed.

(** C21: A READ command reads the disk.  Give the controller, in the command phase
    with DMA enabled and the channel programmed to write memory, the nine bytes of a
    multi-track READ of 512-byte sectors at cylinder [kt], head [kh], sector [ks] of
    a double-sided disk.  The bytes are accepted, and the DMA transfer that follows
    moves as many bytes as both sides allow: position [k] in memory receives byte
    [k mod 512] of sector [k / 512] of the image counted from the one the three
    coordinates name, and nothing else changes.  The controller ends in its result
    phase with the interrupt raised. *)
Theorem fdc_read_sectors now nchan pos dma_len c p1 kt kh ks gpl dtl b s w :
  let i := if p1 .& 1 =? 0 then drv0 s else drv1 s in
  let d := drv i s in
  idle s -> tst (dor s) FD_DOR_nRESET = true -> tst (dor s) FD_DOR_DMAEN = true ->
  (DMA_get_channel_mode (dma_chann s) w >> 2) .& 3 = 1 ->
  in_u 8 c -> c .& 0x9f = 0x86 -> in_u 8 p1 -> in_u 8 kt ->
  bs d = Some b -> on_disk (last_sect d) d -> track d <= 255 -> last_sect d <= 255 ->
  kt <= max_track d -> kt <= 253 -> kh = 0 \/ kh = 1 -> 1 <= ks <= last_sect d -> 0 <= dma_len < 2 ^ 31 ->
  let n := Z.min dma_len (512 * (2 * last_sect d - ks + 1)) in
  exists s1 w1 s2 w2, write_all now [c; p1; kt; kh; ks; 2; last_sect d; gpl; dtl] s w = Ok (s1, w1)
    /\ fdctrl_transfer_handler nchan pos dma_len s1 w1 = Ok (n, (s2, w2))
    /\ in_result s2 /\ tst (sra s2) FD_SRA_INTPEND = true
    /\ forall k, dma_mem w2 nchan k = if (0 <=? k) && (k <? n) then content b (fd_sector_calc kh kt ks (last_sect d)) w k else dma_mem w nchan k.
Proof.
  intros i d Id Dr De Hm Hc Ho Hp1 Hkt Hb Hod Ht Hl Hk1 Hk2 Hh Hs Hd n.
  pose proof (read_opcode c Hc Ho) as Eo.
  destruct (command_entered now s Id Dr c [p1; kt; kh; ks; 2; last_sect d; gpl; dtl] w) as (s' & E & Hw); [discriminate|now rewrite Eo|].
  cbv zeta in Hw. rewrite Eo in Hw. cbn [handler direction run_handler] in Hw.
  assert (tst c 0x80 = true) as Hc7.
  { change 0x80 with (1 << 7). rewrite tst_bit by lia. assert (Z.testbit (c .& 0x9f) 7 = true) as T by now rewrite Ho.
    rewrite Z.land_spec in T. now apply andb_true_iff in T as [-> _]. }
  destruct (start_read c p1 kt kh ks gpl dtl b s s' w Id E Hc Hp1 Hkt Hc7 De Hm Hb Hod Ht Hl Hk1 Hk2 Hh Hs) as (s1 & Es & Ei & Hr & Hq & Hp & Hdl & Hf & Hls).
  fold i d in Hdl, Hf, Hls. rewrite Es in Hw. set (w1 := DMA_schedule _ _) in *. assert (get_cur_drv s1 = i) as Ei' by exact Ei. pose proof (get_cur_drv_range s1) as Hi. rewrite Ei' in Hi.
  assert (dma_bytes s1 dma_len = n) as En by (unfold dma_bytes, n; rewrite Hdl; destruct (Z.ltb_spec (512 * (2 * last_sect d - ks + 1)) dma_len); [rewrite Z.min_r by lia|rewrite Z.min_l by lia]; reflexivity).
  destruct (read_handler nchan pos dma_len b s1 w1) as (s2 & w2 & Eh & R2 & Hint & HM); rewrite ?Ei'; try assumption; [rewrite Hdl; lia| |].
  { rewrite En, Hf, Hls. unfold fd_sector_calc. assert ((n + 511) / 512 <= 2 * last_sect d - ks + 1) by
      (assert (n <= 512 * (2 * last_sect d - ks + 1)) by (unfold n; lia); clearbody n; Z.div_mod_to_equations; lia).
    destruct Hkt as [Hkt _]. nia. }
  exists s1, w1, s2, w2. split; [exact Hw|]. rewrite En in Eh, HM. split; [exact Eh|]. split; [done|]. split; [done|]. intros k. rewrite HM, Ei'.
  rewrite Hf. unfold content, sector, w1. rewrite start_disk, start_mem. reflexivity.
Qed.

End Data.

(** ** A controller with a 1.44 MB disk *)

(** Sector [k] of the disk holds [k] in every byte; the world is what has arrived
    on each DMA channel.  The channel is programmed to write memory. *)
Definition memory : Type := Z -> Z -> Z.

#[local] Instance disk_host : FdcHost memory := {
  qemu_set_irq _ w := w;
  DMA_get_channel_mode _ _ := 0x46;
  DMA_hold_DREQ _ w := w;
  DMA_release_DREQ _ w := w;
  DMA_schedule _ w := w;
  DMA_read_memory _ _ n _ := replicate (Z.to_nat n) 0;
  DMA_write_memory c buf pos n w := fun c' k =>
    if (c' =? c) && ((pos <=? k) && (k <? pos + n)) then nth (Z.to_nat (k - pos)) buf 0 else w c' k;
  bdrv_is_inserted _ _ := true;
  bdrv_is_read_only _ _ := 0;
  bdrv_get_geometry_hint _ _ := (0, 0, 0);
  bdrv_get_geometry _ _ := 2880;
  bdrv_media_changed _ w := (false, w);
  bdrv_read _ k _ := Some (replicate 512 (u8 k));
  bdrv_write _ _ _ w := (true, w);
  bdrv_get_on_error _ r _ := if r =? 0 then BLOCK_ERR_STOP_ENOSPC else BLOCK_ERR_REPORT;
  bdrv_set_removable _ _ w := w;
  uninit_drive := 0
}.

#[local] Instance disk_laws : FdcLaws (W := memory).
Proof.
  constructor.
  - intros b k w l E. assert (l = replicate 512 (u8 k)) as -> by (unfold bdrv_read, disk_host in E; congruence). split; [apply length_replicate|]. apply Forall_replicate, u8_range.
  - intros c q n w Hn. split; [apply length_replicate|]. apply Forall_replicate. split; lia.
Qed.

#[local] Instance disk_dma : DmaDisk (W := memory).
Proof.
  refine {| dma_mem := fun w : memory => w |}; try reflexivity.
  intros c buf q n w k _. cbn [DMA_write_memory disk_host]. now rewrite Z.eqb_refl.
Defined.

Definition blank : memory := fun _ _ => 0.
Definition powered : FDCtrl * memory :=
  match isabus_fdc_init1 (Some 0) None blank with Some st => st | None => (mkCtrl 0 0 None 0 0 0 0 0 0 0 0 0 0 0 [] 0 0 0 0 0 0 0 0 0 0 0 0 false 0 [] 0, blank) end.
#[local] Abbreviation booted := (fdctrl_external_reset_isa powered.1 powered.2).

Lemma powered_init : isabus_fdc_init1 (Some 0) None blank = Some (powered.1, powered.2).
Proof. vm_compute. reflexivity. Qed.

Lemma booted_idle : idle booted.1.
Proof. apply fdc_reset_ok. exact (init_basic _ _ _ _ _ powered_init). Qed.

Definition on_diskb (e : Z) (d : FDrive) : bool :=
  (1 <=? sect d) && (sect d <=? last_sect d) && ((head d =? 0) || (head d =? 1)) && (0 <=? track d) && tst (flags d) FDISK_DBL_SIDES && (e =? last_sect d).
Lemma on_diskb_ok e d : on_diskb e d = true -> on_disk e d.
Proof. unfold on_diskb. rewrite !andb_true_iff, orb_true_iff, !Z.leb_le, !Z.eqb_eq. intros (((((A1 & A2) & A3) & A4) & A5) & A6). now constructor. Qed.

(** Two sectors from cylinder 0, head 0, sector 2 on: byte 600 comes from sector 2. *)
Lemma fdc_read_sectors_witness : exists s1 w1 s2 w2,
  write_all 0 [0xe6; 0; 0; 0; 2; 2; 18; 0x1b; 0xff] booted.1 booted.2 = Ok (s1, w1)
  /\ fdctrl_transfer_handler 2 0 1024 s1 w1 = Ok (1024, (s2, w2)) /\ w2 2 600 = 2.
Proof.
  destruct (fdc_read_sectors 0 2 0 1024 0xe6 0 0 0 2 0x1b 0xff 0 booted.1 booted.2) as (s1 & w1 & s2 & w2 & E1 & E2 & _ & _ & M);
    [exact booted_idle|vm_compute; reflexivity|vm_compute; reflexivity|vm_compute; reflexivity|split; lia|reflexivity|split; lia|split; lia
    |vm_compute; reflexivity|apply on_diskb_ok; vm_compute; reflexivity|apply Z.leb_le; vm_compute; reflexivity|apply Z.leb_le; vm_compute; reflexivity
    |apply Z.leb_le; vm_compute; reflexivity|lia|left; reflexivity|split; [lia|apply Z.leb_le; vm_compute; reflexivity]|lia|].
  exists s1, w1, s2, w2. split; [exact E1|]. split; [exact E2|]. specialize (M 600). cbv beta iota in M.
  change (dma_mem w2 2 600) with (w2 2 600) in M. rewrite M. vm_compute. reflexivity.
Defined.

(** A byte of a DRIVE SPECIFICATION command is accepted. *)
Definition drive_spec_byte : fdc_op := WritePort 0 0x3f5 0x8e.

Lemma drive_spec_accepted : match fdc_run drive_spec_byte booted.1 booted.2 with Ok _ => true | Crash _ => false end = true.
Proof. vm_compute. reflexivity. Qed.

Lemma one_op_reaches o st : op_ok o -> match fdc_run o st.1 st.2 with Ok _ => true | Crash _ => false end = true ->
  exists s w, fdc_run o st.1 st.2 = Ok (s, w) /\ rtc fdc_step st (s, w).
Proof.
  intros Ho. destruct (fdc_run o st.1 st.2) as [[s w]|c] eqn:E; [|discriminate]. intros _. exists s, w. split; [reflexivity|].
  apply rtc_once. rewrite (surjective_pairing st). exact (step_op o _ _ _ _ Ho E).
Qed.

Lemma fdc_reachable_safe_witness : exists s w, fdc_run drive_spec_byte booted.1 booted.2 = Ok (s, w) /\ fdc_ok s.
Proof.
  assert (op_ok drive_spec_byte) as Ho by (cbn; lia).
  destruct (one_op_reaches drive_spec_byte booted Ho drive_spec_accepted) as (s & w & E & R). exists s, w. split; [exact E|].
  destruct (fdc_reachable_safe (Some 0) None blank powered.1 powered.2 s w powered_init R) as [O _]. exact O.
Defined.

Lemma fdc_drive_spec_overrun_witness :
  write_all 0 (FD_CMD_DRIVE_SPECIFICATION_COMMAND :: replicate 512 0) booted.1 booted.2 = Crash fifo_overrun.
Proof. apply fdc_drive_spec_overrun; [exact booted_idle|vm_compute; reflexivity|apply length_replicate|reflexivity]. Defined.

(** A scan of sector 1 against zeros, which are nowhere on it, still reports that
    the scan was satisfied (status register 2 is 0x08). *)
Definition scanning : FDCtrl :=
  upd_drv 0 (fun d => d <| sect := 2 |>) (booted.1 <| msr := FD_MSR_CMDBUSY |> <| data_dir := FD_DIR_SCANE |> <| data_len := 512 |>).

Example fdc_scan_reports_hit :
  match fdctrl_transfer_handler 2 0 512 scanning blank with Ok (_, (s, _)) => fifo_at s 2 = FD_SR2_SEH | Crash _ => False end.
Proof. vm_compute. reflexivity. Qed.

End FdcData.
